(* ===== verification/_CoqProject ===== *)
-Q . S2P
Prelude.v
Post.v
PyFloat.v
FloatError.v
FloatMono.v
PyFormat.v
Domain.v
Sources.v
Fusion.v
Compiler.v
Graph.v
Independence.v
Closure.v
Trust.v
Policy.v
Reconcile.v
Remediation.v
Inventory.v
Recovery.v
Embedded.v
Rating.v
Insurance.v
State.v
Sovereign.v
Rbac.v
Sso.v
Evidence.v
Substitution.v
Scenario.v
Exchange.v
Decision.v
Readiness.v
Assurance.v
Analysis.v
Threat.v
SupplyChain.v
Wargame.v
Environmental.v
Strategic.v
Streaming.v
Cluster.v
Cache.v
Crypto.v
Dsl.v
Interop.v
Telemetry.v
Edge.v
PublicData.v
Indicators.v
Ingest.v
Connectors.v
Procurement.v
Intelligence.v
Posture.v
Sbom.v
Platform.v
Federation.v
Tactical.v
CounterIntel.v
Security.v
Handler.v
Service.v
ServiceLaws.v
