(* ===== verification/Prelude.v ===== *)
(** * ContinuityOS: a verification library for the resilience engines

    ContinuityOS (src/src/continuityos) assesses whether supply corridors keep
    working: it fuses evidence into an assessment, compiles mitigation plans,
    analyses a dependency graph, and compares declared with observed
    resilience.  This library models those engines in Rocq and proves what they
    promise.  All paths below are relative to src/src/continuityos.

    ** Foundations

    - [Prelude]: exceptions ([exn], [res] and its binds), loops that may raise
      ([foldM], [mapM_res]), Python's [sorted], dictionaries as association
      lists in insertion order ([dict]), sets as lists, text helpers and the
      tactics of the development.
    - [Post]: postconditions of computations that may raise ([safe]), one rule
      per combinator, for proofs that only certain exceptions are possible.
    - [PyFloat]: Python floats.  A finite float is the rational it denotes and
      every operation is exact arithmetic followed by the binary64 rounding [fl]
      (ties to even, gradual underflow, overflow to infinity); [round], [sum]
      (compensated, as CPython 3.12 adds), [min], [max], integer division.
      [is_score] is the constraint of [domain.Score].
    - [FloatError]: error bounds of rounding and of sums, used to show that
      clamped and averaged scores stay scores and thresholds are not misplaced.
      [FloatMono]: comparison of two computations up to their rounding errors;
      a float is a fixed point of the rounding.
    - [PyFormat]: f-string formats, [repr], case mapping and stripping (ASCII).

    ** Components, in dependency order

    - [Domain] (domain.py): enumerations, records with their constraints (a
      violated constraint is [Raise (ValidationError _)]), instants and dates.
    - [Sources] (sources/registry.py, sources/policy.py): the source table and
      which metrics a source may assert.
    - [Fusion] (fusion.py): [assess] screens, groups, averages and classifies
      observations.
    - [Compiler] (compiler.py): [compile] searches all subsets of mitigations
      for the cheapest plan that reaches an objective.
    - [Graph] (graph.py): failure propagation to a fixpoint, blast radius,
      alternative paths, cycles.  Its loops take fuel and raise [OutOfFuel]
      when it is spent; the theorems give amounts that are always enough.
    - [Independence] (independence.py): union-find over shared upstream
      dependencies of providers.
    - [Closure] (closure.py): layered functional closure of a corridor.
    - [Trust] (trust.py), [Policy] (policy.py), [Reconcile] (reconcile.py),
      [Remediation] (remediation.py): trust scores, policy rules, the check of
      declared against observed state, and the options for failing checks.
    - [Inventory] (inventory.py), [Recovery] (recovery.py): day-by-day reserve
      depletion; the recovery timeline.
    - [Embedded] (embedded.py): the binary telemetry frame, its checksum, the
      memory maps and the generated header.
    - [State] (state.py): the locked JSON store, as steps from file to file,
      with an abstract store it refines and the histories of its operations.
    - [Sovereign] (sovereign.py), [Rbac] (rbac.py): security labels, the
      cross-domain filter, audits; access decisions.
    - [Evidence] (evidence.py): the hash-chained ledger, at the level of the
      bytes of its file.
    - [Substitution] (substitution.py), [Readiness] (readiness.py), [Assurance]
      (assurance.py and its policy record in dsl.py): verdicts on a route
      substitution, the C-level of a theatre, the assurance scorecard.
    - [Scenario] (scenario.py): correlated failures, through the analysis of
      [Graph]; the iteration order of the set of failed nodes is an argument.
    - [Exchange] (exchange.py): manifests and features of exported evidence.
    - [Decision] (decision.py): the decision packet, which composes [Fusion],
      [Graph] and [Compiler].
    - [Analysis] (analysis.py): ridge regression with a temporal holdout;
      [Strategic] (strategic.py): the heat map of observations and its alerts.
    - [Rating] (rating.py), [Insurance] (insurance.py): letter grades and war-risk
      underwriting.
    - [Streaming] (streaming.py): the event bus, a heap of queues shared between
      the bus and its readers, as a step function over histories.
    - [Cluster] (cluster.py): the replicated log.  [Cache] (sources/cache.py): the
      content-addressed snapshot cache, with interrupted writes as steps.
    - [Crypto] (crypto.py): hybrid and sealed envelopes, Merkle trees and their
      proofs, hash-chain proofs of reserves; hash functions are arguments.
    - [Dsl] (dsl.py): parsing and validation of declarative resources.
    - [Interop] (interoperability.py), [Telemetry] (telemetry.py): CAP alerts and
      CloudEvents; binary kinematics, signatures, operator observations.
    - [Security] (security.py): the rate limiter and the API key.
    - [Edge] (edge.py and its endpoints): model payloads, the gossip node and the
      peers it asks.  [PublicData], [Indicators] (public_data.py): the plane that
      fetches, decodes and stores public sources, and the indicators and alerts it
      derives.  [Ingest] (sources/adapters.py, ingest.py): searches of the open
      catalogues, their readers and the observations they become.
    - [Connectors] (connectors.py): AIS, space weather, earthquake, SCADA and load
      tender readers; shipments as a graph of [Graph].  [Procurement]
      (procurement.py): the sealed package and its verification.
    - [Federation] (federation.py), [Sso] (sso.py): signed enclave reports;
      certificate subjects and access decisions.
    - Sector models: [Threat] (threat.py), [SupplyChain] (supply_chain.py),
      [Wargame] (wargame.py), [Environmental] (environmental.py), [Tactical]
      (tactical.py), [CounterIntel] (counter_intel.py), [Intelligence]
      (intelligence.py: cascade forecasts, anomalies, explanations, briefings).
    - Around the engines: [Posture] (attestation.py, hsm.py, allied_defense.py,
      cop.py, hub.py), [Sbom] (sbom.py), [Platform] (providers/mock.py, ecosystem.py,
      metrics.py, config.py).
    - [Handler], [Service], [ServiceLaws] (service.py): [Handler] is the monad of
      the request handlers (state file, ledger, clock; a response, an HTTP error
      or an uncaught exception) with a Hoare logic over what the files hold;
      [Service] the endpoints that change state, over the engines above;
      [ServiceLaws] what holds of them in every run.

    How they interact: [Fusion] validates observations with [Sources] and
    builds [Domain] assessments, which [Compiler] starts from; [Independence]
    reads a [Graph]; [Scenario] and [Decision] run its engine; [Readiness] reads
    the results of [Reconcile]; [Strategic] runs [Analysis]; [Remediation] takes
    the checks of [Reconcile]; [Rbac] uses the labels of [Sovereign] and the
    levels of [Domain]; [Service] calls [State], [Evidence], [Telemetry], [Interop],
    [Crypto] and the engines, and its proofs use the refinement of [State] and the
    laws of the ledger instead of their code.  [Edge], [PublicData] and [Ingest]
    store what they fetch in [Cache], and a gossip node feeds the plane of
    [PublicData].  [Ingest] gives [Fusion] context only; the observations of
    [Tactical] and [Connectors] are refused by the policy of [Sources].
    [Intelligence] runs over the graphs of [Graph], the assessments of [Fusion] and
    the packets of [Decision].  The synthetic provider of [Platform] is no source of
    [Sources] either.

    ** What the theorems show

    Each property is a theorem whose comment carries a number C<n>.  In groups:
    - exactness: the result of an engine is characterised on every branch
      (assessments, plans, closure states, access decisions, day counters);
    - safety: no closure without corroborated metrics, no plan without its
      approval, monotone closure, access only through all guards, the filter
      releases no sensitive key, a corrupted frame is never accepted;
    - termination and totality: propagation ends within its fuel, valid inputs
      of the scoring engines produce a result;
    - types: a specification that parses satisfies the constraints of its class;
    - equivalence: the rate limiter and a reference that forgets nothing;
    - round trips: a telemetry frame, a sealed payload, a stored snapshot;
    - liveness: a reader of the event bus catches up, an acknowledgement sticks;
    - refinement and invariants: the JSON store implements three maps, never
      accepts a replayed sequence number and never changes a fingerprint; a
      written ledger verifies, and tampering needs a hash collision; no run of the
      service puts a replayed observation into the ledger;
    - errors: which inputs raise, and which exception;
    - composition: a decision packet satisfies what its engines promise, for one
      another; scenarios account for every node; monotone readiness;
    - monotonicity: worse evidence makes no forecast milder;
    - defects: some theorems state what the code does against its intent (gossip
      that never replicates, sensor feeds that the policy refuses, packages sealed
      without a key, forecasts blind to what is more than three edges away).
    Each theorem with hypotheses is followed, at the end of its file, by a
    witness at a concrete input.

    ** Conventions and bounds

    A random identifier and the current time are arguments.  Text is UTF-8
    bytes ([string]); [str_len] counts code points.  The sign of a zero float is
    not represented; no modelled operation depends on it beyond printing.
    Hypotheses such as fewer than 2^30 items or day counts below 2^900 keep a
    sum or quotient away from overflow and exceed anything the program can hold.

    ** Not modelled

    The command line and demonstrations (printing and calls of the engines); of
    service.py, routing, the public-data endpoints, the read-only exports and the
    endpoints of the sector models; the SQL databases and the Kubernetes operator
    (I/O); the YAML parser and the coercions of pydantic, which are arguments; the
    constant schemas of ecosystem.py and schemas.py.  Of evidence.py,
    [find_conflicts] and key loading; of exchange.py, the GeoPackage writer. *)

From Stdlib Require Import ZArith QArith Lia DecimalString.
From Stdlib Require Export Sorting.Sorted.
From stdpp Require Export base tactics option list strings gmap.

Declare Scope s2p_scope.
Delimit Scope s2p_scope with s2p.
Open Scope string_scope.
Open Scope Z_scope.
Open Scope list_scope.
Open Scope stdpp_scope.

(** ** Exceptions and fallible computations

    [exn] lists the Python exception classes the modelled code raises, with
    the message where the code builds one.  [ValidationError] is what pydantic
    raises when a declared field constraint is violated. *)
Inductive exn :=
| ValueError (msg : string)
| KeyError (key : string)
| IndexError
| TypeError (msg : string)
| AttributeError (msg : string)
| RuntimeError (msg : string)
| StopIteration
| FileNotFoundError (path : string)
| ZeroDivisionError
| OverflowError
| StructError (msg : string)
| ValidationError (what : string)
| SourcePolicyError (msg : string)
| TelemetryAuthenticationError (msg : string)
| IdempotencyConflict (msg : string)
| OutOfFuel.

#[export] Instance exn_eq_dec : EqDecision exn.
Proof. solve_decision. Defined.

Inductive res (A : Type) :=
| Ok (a : A)
| Raise (e : exn).
Arguments Ok {A} a.
Arguments Raise {A} e.

#[export] Instance res_ret : MRet res := λ A a, Ok a.
#[export] Instance res_bind : MBind res := λ A B k m,
  match m with Ok a => k a | Raise e => Raise e end.
#[export] Instance res_fmap : FMap res := λ A B f m,
  match m with Ok a => Ok (f a) | Raise e => Raise e end.

(** [raise_if b e]: the statement [if b: raise e]. *)
Definition raise_if (b : bool) (e : exn) : res unit :=
  if b then Raise e else Ok tt.

(** [require b what]: a pydantic constraint; a violation is a validation error. *)
Definition require (b : bool) (what : string) : res unit :=
  if b then Ok tt else Raise (ValidationError what).

Definition is_ok {A} (m : res A) : bool :=
  match m with Ok _ => true | Raise _ => false end.

Lemma bind_ok {A B} (m : res A) (k : A → res B) b :
  m ≫= k = Ok b ↔ ∃ a, m = Ok a ∧ k a = Ok b.
Proof. destruct m as [a|e]; cbn; split; [eauto | by intros (?&[= ->]&?) | done | by intros (?&?&?)]. Qed.

Lemma raise_if_ok b e u : raise_if b e = Ok u ↔ b = false.
Proof. destruct b, u; cbn; split; congruence. Qed.

Lemma require_ok b w u : require b w = Ok u ↔ b = true.
Proof. destruct b, u; cbn; split; congruence. Qed.

(** A [for] loop with an accumulator whose body may raise. *)
Fixpoint foldM {A S} (f : S → A → res S) (s : S) (l : list A) : res S :=
  match l with
  | [] => Ok s
  | x :: l => s' ← f s x; foldM f s' l
  end.

Lemma foldM_app {A S} (f : S → A → res S) s l1 l2 :
  foldM f s (l1 ++ l2) = (s' ← foldM f s l1; foldM f s' l2).
Proof.
  revert s; induction l1 as [|x l1 IH]; intros s; cbn; [done|].
  destruct (f s x); cbn; [apply IH | done].
Qed.

(** A list comprehension whose expression may raise. *)
Fixpoint mapM_res {A B} (f : A → res B) (l : list A) : res (list B) :=
  match l with
  | [] => Ok []
  | x :: l => y ← f x; ys ← mapM_res f l; Ok (y :: ys)
  end.

Lemma mapM_res_ok {A B} (f : A → res B) (h : A → B) l :
  (∀ x, x ∈ l → f x = Ok (h x)) → mapM_res f l = Ok (h <$> l).
Proof.
  induction l as [|x l IH]; intros H; cbn; [done|]. rewrite H by (by left). cbn.
  rewrite IH by (intros; apply H; by right). done.
Qed.

Lemma mapM_res_Forall2 {A B} (f : A → res B) l ys : mapM_res f l = Ok ys → Forall2 (λ x y, f x = Ok y) l ys.
Proof.
  revert ys; induction l as [|x l IH]; intros ys; cbn; [by intros [= <-]|].
  destruct (f x) eqn:E; cbn; [|done]. destruct (mapM_res f l); cbn; [|done]. intros [= <-]. by constructor; auto.
Qed.

(** [l[i]] for an index that is not negative. *)
Definition index {A} (l : list A) (i : nat) : res A :=
  match l !! i with Some x => Ok x | None => Raise IndexError end.

Lemma index_ok {A} (l : list A) i x : index l i = Ok x ↔ l !! i = Some x.
Proof. unfold index. destruct (l !! i); split; congruence. Qed.

(** ** Tactics of the development *)

(** Split every successful monadic step of a hypothesis. *)
Ltac inv_ok :=
  repeat match goal with
  | H : Ok _ = Ok _ |- _ => injection H as H; subst
  | H : Raise _ = Ok _ |- _ => discriminate H
  | H : Ok _ = Raise _ |- _ => discriminate H
  | H : _ ≫= _ = Ok _ |- _ =>
      let a := fresh "a" in let H1 := fresh H in let H2 := fresh H in
      apply bind_ok in H as (a & H1 & H2); cbn beta in H2
  | H : raise_if _ _ = Ok _ |- _ => apply raise_if_ok in H
  | H : require _ _ = Ok _ |- _ => apply require_ok in H
  | H : mret _ = Ok _ |- _ => unfold mret, res_ret in H; cbn beta in H
  end.

(** Case analysis on the innermost boolean test or match of the goal. *)
Ltac case_test :=
  match goal with
  | |- context [if ?b then _ else _] =>
      lazymatch b with context [if _ then _ else _] => fail | _ => destruct b eqn:? end
  | |- context [match ?x with _ => _ end] =>
      lazymatch x with context [match _ with _ => _ end] => fail | _ => destruct x eqn:? end
  end.

(** Turn boolean hypotheses into propositions. *)
Ltac bool_norm :=
  repeat match goal with
  | H : _ && _ = true |- _ => apply andb_prop in H as [? ?]
  | H : _ || _ = false |- _ => apply orb_false_elim in H as [? ?]
  | H : negb _ = true |- _ => apply negb_true_iff in H
  | H : negb _ = false |- _ => apply negb_false_iff in H
  | H : (_ <=? _)%Z = true |- _ => apply Z.leb_le in H
  | H : (_ <=? _)%Z = false |- _ => apply Z.leb_gt in H
  | H : (_ <? _)%Z = true |- _ => apply Z.ltb_lt in H
  | H : (_ <? _)%Z = false |- _ => apply Z.ltb_ge in H
  | H : (_ =? _)%Z = true |- _ => apply Z.eqb_eq in H
  | H : (_ =? _)%Z = false |- _ => apply Z.eqb_neq in H
  | H : bool_decide _ = true |- _ => apply bool_decide_eq_true in H
  | H : bool_decide _ = false |- _ => apply bool_decide_eq_false in H
  end.

(** ** Strings *)

(** [str(n)] for an integer. *)
Definition str_Z (n : Z) : string := NilZero.string_of_int (Z.to_int n).

Definition str_nat (n : nat) : string := str_Z (Z.of_nat n).

(** [sep.join(l)] *)
Definition str_join (sep : string) (l : list string) : string := String.concat sep l.

Definition str_empty (s : string) : bool :=
  match s with EmptyString => true | _ => false end.

Definition str_eqb (s t : string) : bool := String.eqb s t.

Lemma str_eqb_true s t : str_eqb s t = true ↔ s = t.
Proof. apply String.eqb_eq. Qed.

Definition mem_str (s : string) (l : list string) : bool := bool_decide (s ∈ l).

Lemma mem_str_true s l : mem_str s l = true ↔ s ∈ l.
Proof. unfold mem_str. apply bool_decide_eq_true. Qed.

(** Python compares strings by code point; on UTF-8 encoded strings this is
    the byte order of [String.compare]. *)
Definition str_leb (s t : string) : bool := String.leb s t.
Definition str_ltb (s t : string) : bool := String.ltb s t.

Lemma ascii_compare_N (a b : Ascii.ascii) :
  Ascii.compare a b = N.compare (Ascii.N_of_ascii a) (Ascii.N_of_ascii b).
Proof. reflexivity. Qed.

Lemma str_compare_trans_le s t u :
  String.compare s t ≠ Gt → String.compare t u ≠ Gt → String.compare s u ≠ Gt.
Proof.
  revert t u; induction s as [|a s IH]; intros [|b t] [|c u]; cbn; try done.
  rewrite !ascii_compare_N.
  destruct (N.compare_spec (Ascii.N_of_ascii a) (Ascii.N_of_ascii b)),
    (N.compare_spec (Ascii.N_of_ascii b) (Ascii.N_of_ascii c)); try done; intros H1 H2;
  destruct (N.compare_spec (Ascii.N_of_ascii a) (Ascii.N_of_ascii c)); try done; try lia.
  by eapply IH.
Qed.

Lemma str_leb_trans s t u : str_leb s t = true → str_leb t u = true → str_leb s u = true.
Proof.
  unfold str_leb, String.leb. intros H1 H2.
  pose proof (str_compare_trans_le s t u) as H.
  destruct (String.compare s t), (String.compare t u), (String.compare s u); try done;
    exfalso; by apply H.
Qed.

Lemma str_leb_total s t : str_leb s t = true ∨ str_leb t s = true.
Proof. apply String.leb_total. Qed.

Lemma str_leb_antisym s t : str_leb s t = true → str_leb t s = true → s = t.
Proof. apply String.leb_antisym. Qed.

Lemma str_leb_refl s : str_leb s s = true.
Proof. destruct (str_leb_total s s); done. Qed.

#[export] Hint Resolve str_leb_trans str_leb_total str_leb_antisym str_leb_refl : cos.

(** ** Stable sorting

    Python's [sorted] is stable; an insertion sort that inserts an element
    before the elements equal to it (the list is rebuilt from its end) has the
    same result for every total preorder. *)
Section sorting.
Context {A : Type} (leb : A → A → bool).

Fixpoint insert_by (x : A) (l : list A) : list A :=
  match l with
  | [] => [x]
  | y :: l => if leb x y then x :: y :: l else y :: insert_by x l
  end.

Fixpoint sort_by (l : list A) : list A :=
  match l with
  | [] => []
  | x :: l => insert_by x (sort_by l)
  end.

Lemma insert_by_perm x l : insert_by x l ≡ₚ x :: l.
Proof.
  induction l as [|y l IH]; cbn; [done|]. destruct (leb x y); [done|].
  rewrite IH. apply Permutation_swap.
Qed.

Lemma sort_by_perm l : sort_by l ≡ₚ l.
Proof. induction l as [|x l IH]; cbn; [done|]. by rewrite insert_by_perm, IH. Qed.

Lemma elem_of_sort_by x l : x ∈ sort_by l ↔ x ∈ l.
Proof. by rewrite sort_by_perm. Qed.

Lemma sort_by_length l : length (sort_by l) = length l.
Proof. by rewrite sort_by_perm. Qed.

Definition sorted_by (l : list A) : Prop := StronglySorted (λ x y, leb x y = true) l.

Context (leb_total : ∀ x y, leb x y = true ∨ leb y x = true).
Context (leb_trans : ∀ x y z, leb x y = true → leb y z = true → leb x z = true).

Lemma insert_by_sorted x l : sorted_by l → sorted_by (insert_by x l).
Proof.
  induction 1 as [|y l Hl IH Hy]; cbn; [by repeat constructor|].
  destruct (leb x y) eqn:Hxy.
  - constructor; [by constructor|]. constructor; [done|].
    eapply Forall_impl; [exact Hy|]. cbn; eauto.
  - constructor; [done|]. rewrite insert_by_perm. constructor; [|done].
    destruct (leb_total x y); congruence.
Qed.

Lemma sort_by_sorted l : sorted_by (sort_by l).
Proof. induction l; cbn; [constructor | by apply insert_by_sorted]. Qed.

(** Sorting orders any preorder that the comparison decides one way or the other. *)
Lemma sort_by_rel (R : A → A → Prop) l :
  (∀ x y, leb x y = true → R x y) → (∀ x y, leb x y = false → R y x) → (∀ x y z, R x y → R y z → R x z) →
  StronglySorted R (sort_by l).
Proof using.
  intros H1 H2 H3. induction l as [|x l IH]; cbn; [constructor|].
  induction IH as [|y l' Hl IH Hy]; cbn; [by repeat constructor|]. destruct (leb x y) eqn:E.
  - constructor; [by constructor|]. constructor; [auto|]. eapply Forall_impl; [exact Hy|]. cbn; eauto.
  - constructor; [done|]. rewrite insert_by_perm. constructor; [auto|done].
Qed.

Lemma sort_by_id l : sorted_by l → sort_by l = l.
Proof.
  induction 1 as [|x l Hl IH Hx]; cbn; [done|]. rewrite IH.
  destruct Hx; cbn; [done | by rewrite H].
Qed.
End sorting.

(** ** Dictionaries

    A Python [dict] keeps its insertion order, which several operations of the
    code iterate over; it is an association list without duplicate keys.
    [dset] updates in place or appends, as an assignment does. *)
Section dict.
Context {K V : Type} `{EqDecision K}.

Definition dict := list (K * V).

Fixpoint dget (d : dict) (k : K) : option V :=
  match d with
  | [] => None
  | (k', v) :: d => if decide (k = k') then Some v else dget d k
  end.

Fixpoint dset (d : dict) (k : K) (v : V) : dict :=
  match d with
  | [] => [(k, v)]
  | (k', v') :: d => if decide (k = k') then (k', v) :: d else (k', v') :: dset d k v
  end.

Definition dkeys (d : dict) : list K := d.*1.

Definition dmem (d : dict) (k : K) : bool :=
  match dget d k with Some _ => true | None => false end.

Definition dget_default (d : dict) (k : K) (v : V) : V :=
  match dget d k with Some x => x | None => v end.

Lemma dget_dset_eq d k v : dget (dset d k v) k = Some v.
Proof.
  induction d as [|[k' v'] d IH]; cbn; [by rewrite decide_True|].
  destruct (decide (k = k')) eqn:E; cbn; rewrite E; [done | exact IH].
Qed.

Lemma dget_dset_ne d k k' v : k ≠ k' → dget (dset d k v) k' = dget d k'.
Proof.
  intros Hne. induction d as [|[k1 v1] d IH]; cbn.
  - by rewrite decide_False by congruence.
  - destruct (decide (k = k1)) as [->|]; cbn.
    + by rewrite !decide_False by congruence.
    + destruct (decide (k' = k1)); [done | exact IH].
Qed.

Lemma dget_elem d k v : dget d k = Some v → (k, v) ∈ d.
Proof.
  induction d as [|[k1 v1] d IH]; cbn; [done|].
  destruct (decide (k = k1)) as [->|]; [intros [= ->]; by left | right; auto].
Qed.

Lemma dget_some_key d k : is_Some (dget d k) ↔ k ∈ dkeys d.
Proof.
  induction d as [|[k1 v1] d IH]; cbn.
  - split; [by intros [] | by intros ?%elem_of_nil].
  - destruct (decide (k = k1)) as [->|Hne]; rewrite elem_of_cons.
    + split; [by left | by eexists].
    + rewrite IH. split; [by right | by intros [?|?]].
Qed.

Lemma dkeys_dset d k v :
  dkeys (dset d k v) = if dmem d k then dkeys d else dkeys d ++ [k].
Proof.
  unfold dmem, dkeys. induction d as [|[k1 v1] d IH]; cbn; [done|].
  destruct (decide (k = k1)) as [->|]; cbn; [done|]. rewrite IH. by destruct (dget d k).
Qed.

Lemma dset_NoDup d k v : NoDup (dkeys d) → NoDup (dkeys (dset d k v)).
Proof.
  intros Hd. rewrite dkeys_dset. unfold dmem. destruct (dget d k) eqn:E; [done|].
  apply NoDup_app. split; [done|]. split; [|apply NoDup_singleton].
  intros x Hx ->%list_elem_of_singleton. apply dget_some_key in Hx as [? Hx]. congruence.
Qed.

Lemma elem_dget d k v : NoDup (dkeys d) → (k, v) ∈ d → dget d k = Some v.
Proof.
  induction d as [|[k1 v1] d IH]; cbn; [by intros _ ?%elem_of_nil|].
  intros [Hn Hd]%NoDup_cons [[= -> ->]|Hin]%elem_of_cons; [by rewrite decide_True|].
  rewrite decide_False; [auto|]. intros ->. apply Hn. by apply (list_elem_of_fmap_2 fst) in Hin.
Qed.
End dict.
Arguments dict : clear implicits.

(** A dictionary comprehension over a list of keys. *)
Lemma dget_const {K V} `{EqDecision K} (v : K → V) (l : list K) id :
  dget ((λ id, (id, v id)) <$> l : list (K * V)) id = if decide (id ∈ l) then Some (v id) else None.
Proof.
  induction l as [|x l IH]; [done|]. cbn [fmap list_fmap dget]. destruct (decide (id = x)) as [->|Hne].
  - destruct (decide (x ∈ x :: l)) as [|Hn]; [done|]. destruct Hn. by left.
  - fold (fmap (M:=list) (λ id, (id, v id)) l). rewrite IH.
    destruct (decide (id ∈ l)), (decide (id ∈ x :: l)); try done; exfalso; set_solver.
Qed.

Lemma dget_default_dset {K V} `{EqDecision K} (d : dict K V) k k' v v0 :
  dget_default (dset d k v) k' v0 = if decide (k = k') then v else dget_default d k' v0.
Proof.
  unfold dget_default. case_decide as E; [subst; by rewrite dget_dset_eq|by rewrite dget_dset_ne].
Qed.

Lemma dget_foldl_dset {K V X} `{EqDecision K} (key : X → K) (f : X → V) (l : list X) (d : dict K V) k :
  is_Some (dget (foldl (λ d x, dset d (key x) (f x)) d l) k) ↔ k ∈ key <$> l ∨ is_Some (dget d k).
Proof.
  revert d; induction l as [|x l IH]; intros d; cbn.
  - split; [by right|]. intros [?%elem_of_nil|?]; done.
  - rewrite IH, elem_of_cons. destruct (decide (k = key x)) as [->|Hne].
    + rewrite dget_dset_eq. split; intros _; [left; by left|right; eauto].
    + rewrite dget_dset_ne by done. tauto.
Qed.

#[export] Hint Resolve dset_NoDup : cos.
#[export] Hint Rewrite @dget_dset_eq : cos.

(** The set of the members of a list (a Python set has no order of its own: the
    code sorts it before it uses it). *)
Definition set_of {A} `{EqDecision A} (l : list A) : list A := remove_dups l.

(** All the subsequences of length [k], in [itertools.combinations] order. *)
Fixpoint combinations {A} (l : list A) (k : nat) : list (list A) :=
  match k, l with
  | O, _ => [[]]
  | S _, [] => []
  | S k', x :: l' => ((λ s, x :: s) <$> combinations l' k') ++ combinations l' k
  end.

Lemma combinations_spec {A} (l s : list A) k :
  s ∈ combinations l k ↔ sublist s l ∧ length s = k.
Proof.
  revert s k; induction l as [|x l IH]; intros s [|k]; cbn.
  - rewrite list_elem_of_singleton. split; [by intros ->|]. intros [_ ?]. by apply length_zero_iff_nil.
  - split; [by intros ?%elem_of_nil|]. intros [->%sublist_nil_r ?]; done.
  - rewrite list_elem_of_singleton. split; [|by intros [_ ?%length_zero_iff_nil]].
    intros ->. split; [apply sublist_nil_l | done].
  - rewrite elem_of_app, IH, list_elem_of_fmap. split.
    + intros [(s' & -> & [? <-]%IH)|[? ?]]; split; try done; by constructor.
    + intros [Hs Hl]. inversion Hs; subst; [|by right]. left. eexists; split; [done|].
      apply IH. cbn in Hl. split; [done | congruence].
Qed.

(** ** Python sets as lists without duplicates, in insertion order *)
Definition set_add {A} `{EqDecision A} (l : list A) (x : A) : list A :=
  if decide (x ∈ l) then l else l ++ [x].
Definition set_update {A} `{EqDecision A} (l m : list A) : list A := foldl set_add l m.

Lemma elem_of_set_add {A} `{EqDecision A} (l : list A) x y : y ∈ set_add l x ↔ y ∈ l ∨ y = x.
Proof. unfold set_add. case_decide; [split; [by left|by intros [?| ->]]|]. by rewrite elem_of_app, list_elem_of_singleton. Qed.

Lemma elem_of_set_update {A} `{EqDecision A} (l m : list A) y : y ∈ set_update l m ↔ y ∈ l ∨ y ∈ m.
Proof.
  unfold set_update. revert l; induction m as [|x m IH]; intros l; cbn.
  - split; [by left|]. by intros [?|?%elem_of_nil].
  - rewrite IH, elem_of_set_add, elem_of_cons. tauto.
Qed.

Lemma set_add_NoDup {A} `{EqDecision A} (l : list A) x : NoDup l → NoDup (set_add l x).
Proof.
  intros Hl. unfold set_add. case_decide as Hx; [done|]. apply NoDup_app. split; [done|].
  split; [|apply NoDup_singleton]. by intros y Hy ->%list_elem_of_singleton.
Qed.

(** [d[k].append(v)] on a [defaultdict(list)]. *)
Definition dappend {K V} `{EqDecision K} (d : dict K (list V)) (k : K) (v : V) : dict K (list V) :=
  dset d k (dget_default d k [] ++ [v]).

Lemma elem_of_dset {K V} `{EqDecision K} (d : dict K V) k v kv : kv ∈ dset d k v → kv = (k, v) ∨ kv ∈ d.
Proof.
  induction d as [|[k1 v1] d IH]; cbn; [by intros ->%list_elem_of_singleton; left|].
  destruct (decide (k = k1)) as [->|]; intros [->|Hin]%elem_of_cons; [by left|right; by right|right; by left|].
  apply IH in Hin as [?|?]; [by left|right; by right].
Qed.

Lemma foldl_dset_NoDup {K V X} `{EqDecision K} (f : dict K V → X → dict K V) (l : list X) d :
  (∀ d x, NoDup (dkeys d) → NoDup (dkeys (f d x))) → NoDup (dkeys d) → NoDup (dkeys (foldl f d l)).
Proof. intros Hf. revert d; induction l as [|x l IH]; intros d Hd; cbn; [done|]. by apply IH, Hf. Qed.

Lemma dget_default_dappend {K V} `{EqDecision K} (d : dict K (list V)) k k' v :
  dget_default (dappend d k v) k' [] = dget_default d k' [] ++ (if decide (k = k') then [v] else []).
Proof. unfold dappend. rewrite dget_default_dset. case_decide; [by subst|by rewrite app_nil_r]. Qed.
