(* ===== verification/Post.v ===== *)
(** * Postconditions of computations that may raise

    [safe E m P]: [m] returns a value that satisfies [P], or raises an exception
    that [E] allows.  One rule per combinator of the [res] monad. *)

From S2P Require Import Prelude.

Section safe.
Context (E : exn → Prop).

Definition safe {A} (m : res A) (P : A → Prop) : Prop :=
  match m with Ok a => P a | Raise e => E e end.

Lemma safe_ok {A} (a : A) (P : A → Prop) : P a → safe (Ok a) P.
Proof. done. Qed.

Lemma safe_raise {A} e (P : A → Prop) : E e → safe (Raise e) P.
Proof. done. Qed.

Lemma safe_mono {A} (m : res A) (P Q : A → Prop) : safe m P → (∀ a, P a → Q a) → safe m Q.
Proof. destruct m; cbn; auto. Qed.

Lemma safe_bind {A B} (m : res A) (k : A → res B) (P : A → Prop) (Q : B → Prop) :
  safe m P → (∀ a, P a → safe (k a) Q) → safe (m ≫= k) Q.
Proof. destruct m; cbn; auto. Qed.

(** The equation of the intermediate value is kept. *)
Lemma safe_bind_eq {A B} (m : res A) (k : A → res B) (P : A → Prop) (Q : B → Prop) :
  safe m P → (∀ a, m = Ok a → P a → safe (k a) Q) → safe (m ≫= k) Q.
Proof. destruct m; cbn; auto. Qed.

Lemma safe_raise_if b e : E e → safe (raise_if b e) (λ _, b = false).
Proof. by destruct b. Qed.

Lemma safe_mapM {A B} (f : A → res B) (P : B → Prop) l :
  (∀ x, x ∈ l → safe (f x) P) → safe (mapM_res f l) (λ ys, length ys = length l ∧ Forall P ys).
Proof.
  induction l as [|x l IH]; intros H; cbn [mapM_res]; [by split|].
  eapply safe_bind; [apply H; by left|]. intros y Hy. eapply safe_bind; [apply IH; intros; apply H; by right|].
  intros ys [Hl Hys]. split; [cbn; by rewrite Hl|by constructor].
Qed.

Lemma safe_foldM {A S} (f : S → A → res S) (I : S → Prop) s l :
  I s → (∀ s x, x ∈ l → I s → safe (f s x) I) → safe (foldM f s l) I.
Proof.
  revert s. induction l as [|x l IH]; intros s Hs H; cbn [foldM]; [done|].
  eapply safe_bind; [apply H; [by left|done]|]. intros s' Hs'. apply IH; [done|]. intros; apply H; [by right|done].
Qed.

(** Indexing within the bounds. *)
Lemma safe_index {A} (l : list A) i (P : A → Prop) : (i < length l)%nat → Forall P l → safe (index l i) P.
Proof.
  intros Hi HP. unfold index. destruct (lookup_lt_is_Some_2 l i Hi) as [x Hx]. rewrite Hx. cbn.
  by eapply Forall_lookup_1.
Qed.
End safe.
