(* ===== verification/PyFloat.v ===== *)
(** * Python floats: IEEE-754 binary64 with round-to-nearest-even

    Python's [float] is binary64.  A finite value is kept as the rational it
    denotes, in lowest terms; every operation is the exact operation on
    rationals followed by [fl], the rounding to the nearest representable value
    (ties to even), with gradual underflow and overflow to an infinity.  The
    sign of a zero is not represented: no modelled operation divides by a float
    zero without Python raising first, and none reads the sign of a zero.

    The file also holds what the code uses of the built-in functions on floats:
    [min], [max], [round], [sum] and the mixed comparisons with integers. *)

From Stdlib Require Import ZArith QArith Qround Qpower Qabs Qreduction Lqa Lia.
From S2P Require Import Prelude.

Declare Scope float_scope.
Delimit Scope float_scope with F.
Open Scope Z_scope.

Inductive float :=
| Fin (q : Q)
| Inf (neg : bool)
| NaN.

#[export] Instance Q_eq_dec : EqDecision Q.
Proof. solve_decision. Defined.
#[export] Instance float_eq_dec : EqDecision float.
Proof. solve_decision. Defined.

(** ** Rounding a rational to binary64 *)

(** Nearest integer, ties to even. *)
Definition rne (x : Q) : Z :=
  let f := Qfloor x in
  match Qcompare (x - inject_Z f) (1#2) with
  | Lt => f
  | Gt => f + 1
  | Eq => if Z.even f then f else f + 1
  end.

(** [2^k] for an integer [k]. *)
Definition pow2 (k : Z) : Q := Qpower 2 k.

(** [floor (log2 x)] for [x > 0]. *)
Definition ilog2 (x : Q) : Z :=
  let e := Z.log2 (Qnum x) - Z.log2 (Zpos (Qden x)) in
  if Qle_bool (pow2 e) x then e else e - 1.

(** The exponent of the unit in the last place of a positive [x]. *)
Definition cexp (x : Q) : Z := Z.max (ilog2 x - 52) (-1074).

Definition rnd_pos (x : Q) : Q :=
  (inject_Z (rne (x * pow2 (- cexp x))) * pow2 (cexp x))%Q.

Definition rnd (x : Q) : Q :=
  match Qcompare x 0 with
  | Eq => 0%Q
  | Gt => rnd_pos x
  | Lt => (- rnd_pos (- x))%Q
  end.

(** Rounding with overflow; the value is put in lowest terms. *)
Definition fl (x : Q) : float :=
  let r := rnd x in
  if Qle_bool (pow2 1024) r then Inf false
  else if Qle_bool r (- pow2 1024) then Inf true
  else Fin (Qred r).

(** A decimal literal of the source, correctly rounded. *)
Definition lit (q : Q) : float := fl q.
Arguments lit q%_Q.

Definition f_of_Z (z : Z) : float := fl (inject_Z z).

Definition f0 : float := lit 0.
Definition f1 : float := lit 1.

(** ** Comparisons *)

Definition fcmp (x y : float) : option comparison :=
  match x, y with
  | NaN, _ | _, NaN => None
  | Fin a, Fin b => Some (Qcompare a b)
  | Inf a, Inf b => Some (if a then (if b then Eq else Lt) else if b then Gt else Eq)
  | Inf a, Fin _ => Some (if a then Lt else Gt)
  | Fin _, Inf b => Some (if b then Gt else Lt)
  end.

Definition fleb (x y : float) : bool :=
  match fcmp x y with Some Lt | Some Eq => true | _ => false end.
Definition fltb (x y : float) : bool :=
  match fcmp x y with Some Lt => true | _ => false end.
Definition feqb (x y : float) : bool :=
  match fcmp x y with Some Eq => true | _ => false end.

Notation "x <=? y" := (fleb x y) : float_scope.
Notation "x <? y" := (fltb x y) : float_scope.
Notation "x >=? y" := (fleb y x) : float_scope.
Notation "x >? y" := (fltb y x) : float_scope.
Notation "x =? y" := (feqb x y) : float_scope.

Definition is_nan (x : float) : bool := match x with NaN => true | _ => false end.
Definition isfinite (x : float) : bool := match x with Fin _ => true | _ => false end.

(** ** Arithmetic *)

Definition fneg (x : float) : float :=
  match x with Fin q => Fin (- q) | Inf s => Inf (negb s) | NaN => NaN end.

Definition fabs (x : float) : float :=
  match x with Fin q => Fin (Qabs q) | Inf _ => Inf false | NaN => NaN end.

Definition fadd (x y : float) : float :=
  match x, y with
  | NaN, _ | _, NaN => NaN
  | Fin a, Fin b => fl (a + b)
  | Inf a, Inf b => if Bool.eqb a b then Inf a else NaN
  | Inf a, Fin _ => Inf a
  | Fin _, Inf b => Inf b
  end.

Definition fsub (x y : float) : float := fadd x (fneg y).

Definition Qneg (q : Q) : bool := negb (Qle_bool 0 q).

Definition fmul (x y : float) : float :=
  match x, y with
  | NaN, _ | _, NaN => NaN
  | Fin a, Fin b => fl (a * b)
  | Inf a, Inf b => Inf (xorb a b)
  | Inf a, Fin b => if Qeq_bool b 0 then NaN else Inf (xorb a (Qneg b))
  | Fin a, Inf b => if Qeq_bool a 0 then NaN else Inf (xorb b (Qneg a))
  end.

(** [x / y]: Python raises when the divisor is a zero. *)
Definition fdiv (x y : float) : res float :=
  match x, y with
  | _, Fin b =>
      if Qeq_bool b 0 then Raise ZeroDivisionError
      else match x with
           | Fin a => Ok (fl (a / b))
           | Inf a => Ok (Inf (xorb a (Qneg b)))
           | NaN => Ok NaN
           end
  | NaN, _ | _, NaN => Ok NaN
  | Inf _, Inf _ => Ok NaN
  | Fin _, Inf _ => Ok (Fin 0)
  end.

(** [a / b] on integers: the correctly rounded quotient. *)
Definition int_div (a b : Z) : res float :=
  if Z.eqb b 0 then Raise ZeroDivisionError
  else match fl (inject_Z a / inject_Z b) with
       | Fin q => Ok (Fin q)
       | _ => Raise OverflowError
       end.

Notation "x + y" := (fadd x y) : float_scope.
Notation "x - y" := (fsub x y) : float_scope.
Notation "x * y" := (fmul x y) : float_scope.
Notation "- x" := (fneg x) : float_scope.

(** ** Built-in functions *)

(** [min(x, y)] and [max(x, y)]: the first argument unless the second is
    strictly better. *)
Definition fmin (x y : float) : float := if fltb y x then y else x.
Definition fmax (x y : float) : float := if fltb x y then y else x.

(** [round(x, n)]: the decimal with [n] digits nearest to the exact value (ties
    to even), then the float nearest to that decimal. *)
Definition fround (n : nat) (x : float) : float :=
  match x with
  | Fin q => fl (inject_Z (rne (q * inject_Z (10 ^ Z.of_nat n))) / inject_Z (10 ^ Z.of_nat n))
  | _ => x
  end.

(** [round(x)]: an integer, ties to even. *)
Definition fround_int (x : float) : res Z :=
  match x with
  | Fin q => Ok (rne q)
  | Inf _ => Raise OverflowError
  | NaN => Raise (ValueError "cannot convert float NaN to integer")
  end.

(** [sum(l)] of floats: CPython (3.12 and later, which the project requires)
    keeps a running compensation (Neumaier's algorithm) and adds it at the
    end unless it is zero or not finite. *)
Definition sum_step (acc : float * float) (x : float) : float * float :=
  let '(s, c) := acc in
  let t := fadd s x in
  let c' := if fleb (fabs x) (fabs s) then fadd c (fadd (fsub s t) x)
            else fadd c (fadd (fsub x t) s) in
  (t, c').

Definition fsum (l : list float) : float :=
  match l with
  | [] => f0
  | x :: l =>
      let '(s, c) := foldl sum_step (x, f0) l in
      if feqb c f0 then s else if isfinite c then fadd s c else s
  end.

(** [statistics.fmean(l)] of a non-empty list: [math.fsum(l) / len(l)], where
    [math.fsum] is the correctly rounded exact sum. *)
Fixpoint exact_sum (l : list float) : option Q :=
  match l with
  | [] => Some 0%Q
  | x :: l => match x, exact_sum l with Fin q, Some a => Some (q + a)%Q | _, _ => None end
  end.

Definition fmean (l : list float) : res float :=
  match exact_sum l with
  | Some s => fdiv (fl s) (f_of_Z (Z.of_nat (length l)))
  | None => Ok NaN
  end.

(** ** Rounding: the lemmas the components use *)

Open Scope Q_scope.

Lemma pow2_pos k : 0 < pow2 k.
Proof. apply Qpower_0_lt. reflexivity. Qed.

Lemma pow2_plus a b : pow2 (a + b) == pow2 a * pow2 b.
Proof. apply Qpower_plus. discriminate. Qed.

Lemma pow2_Z k : (0 <= k)%Z → pow2 k == inject_Z (2 ^ k).
Proof. intros. unfold pow2. rewrite Zpower_Qpower by done. reflexivity. Qed.

Lemma pow2_mono a b : (a <= b)%Z → pow2 a <= pow2 b.
Proof.
  intros H. replace b with (a + (b - a))%Z by lia. rewrite pow2_plus, (pow2_Z (b - a)) by lia.
  assert (1 <= inject_Z (2 ^ (b - a))) by (rewrite <-(Zle_Qle 1); apply Z.lt_pred_le, Z.pow_pos_nonneg; lia).
  pose proof (pow2_pos a). nra.
Qed.

Lemma pow2_opp k : pow2 (- k) * pow2 k == 1.
Proof. rewrite <-pow2_plus. by replace (- k + k)%Z with 0%Z by lia. Qed.

Lemma rne_bounds x : inject_Z (rne x) - (1#2) <= x ∧ x <= inject_Z (rne x) + (1#2).
Proof.
  unfold rne. pose proof (Qfloor_le x) as H1. pose proof (Qlt_floor x) as H2.
  rewrite inject_Z_plus in H2. change (inject_Z 1) with 1 in H2.
  destruct (Qcompare_spec (x - inject_Z (Qfloor x)) (1#2)); [destruct (Z.even _)| |];
    rewrite ?inject_Z_plus; change (inject_Z 1) with 1; split; lra.
Qed.

Lemma rne_tie x :
  x == inject_Z (rne x) + (1#2) ∨ x == inject_Z (rne x) - (1#2) → Z.even (rne x) = true.
Proof.
  unfold rne. pose proof (Qfloor_le x) as H1. pose proof (Qlt_floor x) as H2.
  rewrite inject_Z_plus in H2. change (inject_Z 1) with 1 in H2.
  destruct (Qcompare_spec (x - inject_Z (Qfloor x)) (1#2)); [destruct (Z.even _) eqn:E| |];
    rewrite ?inject_Z_plus; change (inject_Z 1) with 1; intros [H3|H3]; try done;
    try (exfalso; lra).
  all: by rewrite Z.even_add, E.
Qed.

Lemma rne_mono x y : x <= y → (rne x <= rne y)%Z.
Proof.
  intros Hxy. destruct (rne_bounds x) as [Hx1 Hx2], (rne_bounds y) as [Hy1 Hy2].
  destruct (Z.le_gt_cases (rne x) (rne y)) as [|Hgt]; [done|exfalso].
  assert (inject_Z (rne y + 1) <= inject_Z (rne x)) as Hq by (rewrite <-Zle_Qle; lia).
  rewrite inject_Z_plus in Hq. change (inject_Z 1) with 1 in Hq.
  assert (rne x = rne y + 1)%Z as E.
  { enough (inject_Z (rne x) <= inject_Z (rne y + 1)) as Hle by (rewrite <-Zle_Qle in Hle; lia).
    rewrite inject_Z_plus. change (inject_Z 1) with 1. lra. }
  pose proof (rne_tie x) as Tx. pose proof (rne_tie y) as Ty.
  rewrite E, inject_Z_plus in *. change (inject_Z 1) with 1 in *.
  rewrite Z.even_add in Tx.
  destruct (Z.even (rne y)); [discriminate Tx; right; lra | discriminate Ty; left; lra].
Qed.

#[export] Instance rne_proper : Proper (Qeq ==> eq) rne.
Proof. intros x y E. apply Z.le_antisymm; apply rne_mono; rewrite E; apply Qle_refl. Qed.

Lemma inject_Z_pred z : inject_Z (z - 1) == inject_Z z - 1.
Proof. unfold Z.sub. rewrite inject_Z_plus. reflexivity. Qed.

Lemma rne_int z : rne (inject_Z z) = z.
Proof.
  destruct (rne_bounds (inject_Z z)) as [H1 H2].
  assert (inject_Z (rne (inject_Z z)) < inject_Z (z + 1)) as A by (rewrite inject_Z_plus; change (inject_Z 1) with 1; lra).
  assert (inject_Z (z - 1) < inject_Z (rne (inject_Z z))) as B
    by (rewrite inject_Z_pred; lra).
  rewrite <-Zlt_Qlt in A, B. lia.
Qed.

Lemma ilog2_spec x : 0 < x → pow2 (ilog2 x) <= x ∧ x < pow2 (ilog2 x + 1).
Proof.
  intros Hx. destruct x as [n d]. unfold ilog2. cbn [Qnum Qden].
  set (a := Z.log2 n). set (b := Z.log2 (Zpos d)).
  assert (0 < n)%Z as Hn by (unfold Qlt in Hx; cbn in Hx; lia).
  destruct (Z.log2_spec n Hn) as [Hn1 Hn2]. destruct (Z.log2_spec (Zpos d) eq_refl) as [Hd1 Hd2].
  pose proof (Z.log2_nonneg n) as Ha. pose proof (Z.log2_nonneg (Zpos d)) as Hb. fold a in Hn1, Hn2, Ha.
  fold b in Hd1, Hd2, Hb.
  assert (n # d == inject_Z n * / inject_Z (Zpos d)) as E by (unfold Qeq; cbn; lia).
  assert (0 < inject_Z (Zpos d)) as Hd0 by reflexivity.
  assert (pow2 (a - b - 1) <= n # d) as Hlo.
  { rewrite E. apply Qle_shift_div_l; [done|].
    apply Qle_trans with (pow2 a); [|rewrite (pow2_Z a) by lia; by rewrite <-Zle_Qle].
    replace a with (a - b - 1 + (b + 1))%Z at 2 by lia. rewrite pow2_plus, (pow2_Z (b + 1)) by lia.
    apply Qmult_le_l; [apply pow2_pos|]. rewrite <-Zle_Qle. lia. }
  assert (n # d < pow2 (a - b + 1)) as Hhi.
  { rewrite E. apply Qlt_shift_div_r; [done|].
    apply Qlt_le_trans with (pow2 (a + 1)); [rewrite (pow2_Z (a + 1)) by lia; rewrite <-Zlt_Qlt; lia|].
    replace (a + 1)%Z with (a - b + 1 + b)%Z by lia. rewrite (pow2_plus (a - b + 1)), (pow2_Z b) by lia.
    apply Qmult_le_l; [apply pow2_pos|]. by rewrite <-Zle_Qle. }
  destruct (Qle_bool (pow2 (a - b)) (n # d)) eqn:C.
  - apply Qle_bool_iff in C. done.
  - split; [done|]. replace (a - b - 1 + 1)%Z with (a - b)%Z by lia.
    apply Qnot_le_lt. intros C'. apply Qle_bool_iff in C'. congruence.
Qed.

Lemma ilog2_mono x y : 0 < x → x <= y → (ilog2 x <= ilog2 y)%Z.
Proof.
  intros Hx Hxy. destruct (ilog2_spec x Hx) as [Hx1 _].
  destruct (ilog2_spec y) as [_ Hy2]; [lra|].
  destruct (Z.le_gt_cases (ilog2 x) (ilog2 y)); [done|exfalso].
  pose proof (pow2_mono (ilog2 y + 1) (ilog2 x)). assert (pow2 (ilog2 y + 1) <= pow2 (ilog2 x)) by (apply H0; lia).
  lra.
Qed.

Lemma rnd_pos_mono x y : 0 < x → x <= y → rnd_pos x <= rnd_pos y.
Proof.
  intros Hx Hxy. pose proof (ilog2_mono x y Hx Hxy) as Hl. unfold rnd_pos.
  destruct (decide (cexp x = cexp y)) as [E|E].
  - rewrite E. apply Qmult_le_r; [apply pow2_pos|]. rewrite <-Zle_Qle. apply rne_mono.
    apply Qmult_le_r; [apply pow2_pos | done].
  - unfold cexp in E. set (ex := cexp x). set (ey := cexp y).
    assert (ex < ey ∧ ilog2 x <= ex + 52 ∧ ilog2 y = ey + 52)%Z as (H1 & H2 & H3) by (unfold ex, ey, cexp; lia).
    destruct (ilog2_spec x Hx) as [_ Hx2]. destruct (ilog2_spec y) as [Hy1 _]; [lra|].
    assert (rne (x * pow2 (- ex)) <= 2 ^ 53)%Z as A.
    { rewrite <-(rne_int (2 ^ 53)). apply rne_mono. rewrite <-(pow2_Z 53) by lia.
      pose proof (pow2_mono (ilog2 x + 1) (ex + 53) ltac:(lia)) as M.
      apply Qle_trans with (pow2 (ex + 53) * pow2 (- ex)); [apply Qmult_le_r; [apply pow2_pos | lra]|].
      rewrite <-pow2_plus. replace (ex + 53 + - ex)%Z with 53%Z by lia. apply Qle_refl. }
    assert (2 ^ 52 <= rne (y * pow2 (- ey)))%Z as B.
    { rewrite <-(rne_int (2 ^ 52)). apply rne_mono. rewrite <-(pow2_Z 52) by lia.
      rewrite H3 in Hy1.
      apply Qle_trans with (pow2 (ey + 52) * pow2 (- ey)); [|apply Qmult_le_r; [apply pow2_pos | lra]].
      rewrite <-pow2_plus. replace (ey + 52 + - ey)%Z with 52%Z by lia. apply Qle_refl. }
    apply Qle_trans with (pow2 53 * pow2 ex).
    { apply Qmult_le_r; [apply pow2_pos|]. rewrite (pow2_Z 53) by lia. by rewrite <-Zle_Qle. }
    apply Qle_trans with (pow2 52 * pow2 ey).
    { rewrite <-!pow2_plus. apply pow2_mono. lia. }
    apply Qmult_le_r; [apply pow2_pos|]. rewrite (pow2_Z 52) by lia. by rewrite <-Zle_Qle.
Qed.

Lemma rnd_pos_nonneg x : 0 < x → 0 <= rnd_pos x.
Proof.
  intros Hx. unfold rnd_pos. pose proof (pow2_pos (cexp x)). pose proof (pow2_pos (- cexp x)).
  assert (0 <= rne (x * pow2 (- cexp x)))%Z as A by (rewrite <-(rne_int 0); apply rne_mono; change (inject_Z 0) with 0; nra).
  rewrite Zle_Qle in A. change (inject_Z 0) with 0 in A. nra.
Qed.

Lemma rnd_mono x y : x <= y → rnd x <= rnd y.
Proof.
  intros Hxy. unfold rnd.
  destruct (Qcompare_spec x 0) as [Hx|Hx|Hx], (Qcompare_spec y 0) as [Hy|Hy|Hy]; try lra.
  - apply rnd_pos_nonneg; lra.
  - assert (0 <= rnd_pos (-x)) by (apply rnd_pos_nonneg; lra). lra.
  - assert (rnd_pos (-y) <= rnd_pos (-x)) by (apply rnd_pos_mono; lra). lra.
  - assert (0 <= rnd_pos (-x)) by (apply rnd_pos_nonneg; lra).
    assert (0 <= rnd_pos y) by (apply rnd_pos_nonneg; lra). lra.
  - by apply rnd_pos_mono.
Qed.

#[export] Instance rnd_proper : Proper (Qeq ==> Qeq) rnd.
Proof. intros x y E. apply Qle_antisym; apply rnd_mono; rewrite E; apply Qle_refl. Qed.

(** ** The order on floats *)

Lemma Qle_bool_false a b : Qle_bool a b = false ↔ b < a.
Proof.
  split.
  - intros H. apply Qnot_le_lt. intros C%Qle_bool_iff. congruence.
  - intros H. destruct (Qle_bool a b) eqn:E; [|done]. apply Qle_bool_iff in E. lra.
Qed.

Lemma fleb_Fin a b : fleb (Fin a) (Fin b) = true ↔ a <= b.
Proof.
  unfold fleb, fcmp. destruct (Qcompare_spec a b); split; intros; try done; lra.
Qed.

Lemma fltb_Fin a b : fltb (Fin a) (Fin b) = true ↔ a < b.
Proof.
  unfold fltb, fcmp. destruct (Qcompare_spec a b); split; intros; try done; lra.
Qed.

Lemma feqb_Fin a b : feqb (Fin a) (Fin b) = true ↔ a == b.
Proof.
  unfold feqb, fcmp. destruct (Qcompare_spec a b); split; intros; try done; lra.
Qed.

Lemma fleb_refl x : x ≠ NaN → fleb x x = true.
Proof. destruct x as [q|[]|]; try done. intros _. apply fleb_Fin, Qle_refl. Qed.

Lemma fleb_trans x y z : fleb x y = true → fleb y z = true → fleb x z = true.
Proof.
  destruct x as [a|[]|], y as [b|[]|], z as [c|[]|]; try done.
  rewrite !fleb_Fin. apply Qle_trans.
Qed.

Lemma fleb_total x y : x ≠ NaN → y ≠ NaN → fleb x y = true ∨ fleb y x = true.
Proof.
  destruct x as [a|[]|], y as [b|[]|]; try done; intros _ _; try (by left); try (by right).
  rewrite !fleb_Fin. destruct (Qlt_le_dec b a); [right|left]; lra.
Qed.

Lemma fltb_negb x y : x ≠ NaN → y ≠ NaN → fltb x y = negb (fleb y x).
Proof.
  destruct x as [a|[]|], y as [b|[]|]; try done; intros _ _.
  destruct (fltb (Fin a) (Fin b)) eqn:E.
  - apply fltb_Fin in E. symmetry. apply negb_true_iff.
    destruct (fleb (Fin b) (Fin a)) eqn:F; [|done]. apply fleb_Fin in F. lra.
  - destruct (fleb (Fin b) (Fin a)) eqn:F; [done|]. exfalso.
    destruct (Qlt_le_dec a b) as [G%fltb_Fin|G%fleb_Fin]; congruence.
Qed.

Lemma fltb_fleb x y : fltb x y = true → fleb x y = true.
Proof. unfold fltb, fleb. destruct (fcmp x y) as [[]|]; done. Qed.

Lemma fltb_fleb_trans x y z : fltb x y = true → fleb y z = true → fltb x z = true.
Proof.
  destruct x as [a|[]|], y as [b|[]|], z as [c|[]|]; try done.
  rewrite !fltb_Fin, fleb_Fin. apply Qlt_le_trans.
Qed.

Lemma fleb_fltb_trans x y z : fleb x y = true → fltb y z = true → fltb x z = true.
Proof.
  destruct x as [a|[]|], y as [b|[]|], z as [c|[]|]; try done.
  rewrite !fltb_Fin, fleb_Fin. apply Qle_lt_trans.
Qed.

Lemma fltb_irrefl_le x y : fleb x y = true → fltb y x = false.
Proof.
  destruct x as [a|[]|], y as [b|[]|]; try done. rewrite fleb_Fin. intros H.
  destruct (fltb _ _) eqn:E; [|done]. apply fltb_Fin in E. lra.
Qed.

Lemma fl_mono x y : x <= y → fleb (fl x) (fl y) = true.
Proof.
  intros H%rnd_mono. unfold fl.
  pose proof (pow2_pos 1024) as P. set (B := pow2 1024) in *. clearbody B.
  destruct (Qle_bool B (rnd x)) eqn:X1.
  - apply Qle_bool_iff in X1. assert (B <= rnd y) as Y1 by lra. apply Qle_bool_iff in Y1. by rewrite Y1.
  - apply Qle_bool_false in X1. destruct (Qle_bool (rnd x) (- B)) eqn:X2.
    { destruct (Qle_bool B (rnd y)), (Qle_bool (rnd y) (- B)); done. }
    apply Qle_bool_false in X2.
    destruct (Qle_bool B (rnd y)) eqn:Y1; [done|].
    destruct (Qle_bool (rnd y) (- B)) eqn:Y2; [apply Qle_bool_iff in Y2; lra|].
    apply fleb_Fin. by rewrite !Qred_correct.
Qed.

Lemma fl_proper x y : x == y → fl x = fl y.
Proof.
  intros E. unfold fl. assert (rnd x == rnd y) as R by (by rewrite E).
  assert (∀ a, Qle_bool a (rnd x) = Qle_bool a (rnd y)) as E1.
  { intros a. destruct (Qle_bool a (rnd y)) eqn:F; rewrite ?Qle_bool_iff, ?Qle_bool_false in *; lra. }
  assert (∀ a, Qle_bool (rnd x) a = Qle_bool (rnd y) a) as E2.
  { intros a. destruct (Qle_bool (rnd y) a) eqn:F; rewrite ?Qle_bool_iff, ?Qle_bool_false in *; lra. }
  by rewrite E1, E2, (Qred_complete _ _ R).
Qed.

Lemma fl_not_NaN x : fl x ≠ NaN.
Proof. unfold fl. repeat case_match; done. Qed.

Lemma f0_eq : f0 = Fin 0.
Proof. reflexivity. Qed.
Lemma f1_eq : f1 = Fin 1.
Proof. reflexivity. Qed.
Lemma fl_0 : fl 0 = Fin 0.
Proof. reflexivity. Qed.
Lemma fl_1 : fl 1 = Fin 1.
Proof. reflexivity. Qed.

(** A result between two representable bounds stays between them. *)
Lemma fl_between a b x : fl a = Fin a → fl b = Fin b → a <= x → x <= b →
  ∃ q, fl x = Fin q ∧ a <= q ∧ q <= b.
Proof.
  intros Ha Hb H1%fl_mono H2%fl_mono. rewrite Ha in H1. rewrite Hb in H2.
  destruct (fl x) as [q|[]|]; try done. apply fleb_Fin in H1, H2. eauto.
Qed.

(** ** Scores: floats in [[0, 1]] (the constraint of [domain.Score]) *)

Definition is_score (x : float) : bool := (fleb f0 x && fleb x f1)%bool.

Lemma is_score_iff x : is_score x = true ↔ ∃ q, x = Fin q ∧ 0 <= q ∧ q <= 1.
Proof.
  unfold is_score. rewrite f0_eq, f1_eq. split.
  - intros [H1 H2]%andb_prop. destruct x as [q|[]|]; try done. rewrite fleb_Fin in *. eauto.
  - intros (q & -> & H1 & H2). apply andb_true_intro. by rewrite !fleb_Fin.
Qed.

Lemma score_fl x : 0 <= x → x <= 1 → is_score (fl x) = true.
Proof.
  intros H1 H2. destruct (fl_between 0 1 x fl_0 fl_1 H1 H2) as (q & -> & ? & ?).
  apply is_score_iff. eauto.
Qed.

Lemma score_mul x y : is_score x = true → is_score y = true → is_score (fmul x y) = true.
Proof.
  intros (a & -> & ? & ?)%is_score_iff (b & -> & ? & ?)%is_score_iff. cbn.
  apply score_fl; nra.
Qed.

Lemma score_compl x : is_score x = true → is_score (fsub f1 x) = true.
Proof.
  intros (a & -> & ? & ?)%is_score_iff. rewrite f1_eq. cbn. apply score_fl; lra.
Qed.

Lemma score_fmin x y : is_score x = true → is_score y = true → is_score (fmin x y) = true.
Proof. unfold fmin. by destruct (fltb y x). Qed.

Lemma score_fmax x y : is_score x = true → is_score y = true → is_score (fmax x y) = true.
Proof. unfold fmax. by destruct (fltb x y). Qed.

(** [min(1.0, x)] of a value that is not negative is a score, also for a NaN
    (Python returns the first argument) and an infinity. *)
Lemma score_min1 x : fltb x f0 = false → is_score (fmin f1 x) = true.
Proof.
  unfold fmin. intros H. destruct (fltb x f1) eqn:E; [|done].
  destruct x as [q|[]|]; try done. rewrite f1_eq, fltb_Fin in E. apply is_score_iff.
  exists q. split; [done|]. rewrite f0_eq in H. split; [|lra].
  destruct (Qlt_le_dec q 0) as [C%fltb_Fin|]; [congruence | done].
Qed.

Lemma score_clamp x : is_score (fmax f0 (fmin f1 x)) = true.
Proof.
  unfold fmax. destruct (fltb f0 (fmin f1 x)) eqn:E; [|done].
  unfold fmin in *. destruct (fltb x f1) eqn:F; [|done].
  apply fltb_fleb in E, F. unfold is_score. by rewrite E, F.
Qed.

Lemma score_clamp' x : is_score (fmin f1 (fmax f0 x)) = true.
Proof.
  apply score_min1. unfold fmax. destruct (fltb f0 x) eqn:E; [|done].
  apply fltb_irrefl_le. by apply fltb_fleb.
Qed.

Lemma pow10_pos n : 0 < inject_Z (10 ^ Z.of_nat n).
Proof. change 0 with (inject_Z 0). rewrite <-Zlt_Qlt. apply Z.pow_pos_nonneg; lia. Qed.

Lemma score_round n x : is_score x = true → is_score (fround n x) = true.
Proof.
  intros (a & -> & ? & ?)%is_score_iff. cbn. pose proof (pow10_pos n) as P.
  set (p := inject_Z (10 ^ Z.of_nat n)) in *.
  assert (0 <= inject_Z (rne (a * p))) as A.
  { change 0 with (inject_Z 0). rewrite <-Zle_Qle, <-(rne_int 0). apply rne_mono.
    change (inject_Z 0) with 0. nra. }
  assert (inject_Z (rne (a * p)) <= p) as B.
  { unfold p at 2. rewrite <-Zle_Qle, <-(rne_int (10 ^ Z.of_nat n)). apply rne_mono. fold p. nra. }
  apply score_fl; [apply Qle_shift_div_l | apply Qle_shift_div_r]; try done; lra.
Qed.

Lemma score_0 : is_score f0 = true.
Proof. reflexivity. Qed.
Lemma score_1 : is_score f1 = true.
Proof. reflexivity. Qed.

#[export] Hint Resolve score_mul score_compl score_fmin score_fmax score_clamp score_clamp'
  score_round score_0 score_1 fl_not_NaN : cos.

Lemma score_not_NaN x : is_score x = true → x ≠ NaN.
Proof. by intros (q & -> & _)%is_score_iff. Qed.

(** The mean of scores is a score. *)
Lemma exact_sum_scores l : Forall (λ x, is_score x = true) l →
  ∃ s, exact_sum l = Some s ∧ 0 <= s ∧ s <= inject_Z (Z.of_nat (length l)).
Proof.
  induction 1 as [|x l (q & -> & Hq1 & Hq2)%is_score_iff Hl (s & Hs & Hs1 & Hs2)]; cbn.
  - by exists 0.
  - rewrite Hs. eexists; split; [done|]. rewrite Nat2Z.inj_succ, <-Z.add_1_r, inject_Z_plus.
    change (inject_Z 1) with 1. lra.
Qed.

Lemma fmean_scores l : l ≠ [] → (Z.of_nat (length l) <= 2 ^ 1000)%Z →
  Forall (λ x, is_score x = true) l → ∃ m, fmean l = Ok m ∧ is_score m = true.
Proof.
  intros Hne Hlen (s & Hs & Hs1 & Hs2)%exact_sum_scores. unfold fmean. rewrite Hs.
  set (n := inject_Z (Z.of_nat (length l))) in *.
  assert (1 <= n) as Hn.
  { change 1 with (inject_Z 1). unfold n. rewrite <-Zle_Qle. destruct l; cbn; [done | lia]. }
  assert (n <= pow2 1000) as Hn2 by (rewrite pow2_Z by lia; unfold n; by rewrite <-Zle_Qle).
  destruct (fl_between 1 (Qred (pow2 1000)) n fl_1) as (n' & En & Hn1' & _);
    [by vm_compute | done | by rewrite Qred_correct |].
  destruct (fl_between 0 (Qred (pow2 1000)) s fl_0) as (s' & Es & Hs0 & _);
    [by vm_compute | done | rewrite Qred_correct; lra |].
  pose proof (fl_mono s n Hs2) as M. unfold f_of_Z. fold n.
  rewrite En, Es in *. rewrite fleb_Fin in M. cbn.
  destruct (Qeq_bool n' 0) eqn:Z; [apply Qeq_bool_iff in Z; lra|].
  eexists; split; [done|]. apply score_fl; [apply Qle_shift_div_l | apply Qle_shift_div_r]; lra.
Qed.

(** ** Numbers that are not negative *)

Lemma fround_nonneg n x : fleb f0 x = true → fleb f0 (fround n x) = true.
Proof.
  destruct x as [q|[]|]; try done. rewrite f0_eq. intros Hq%fleb_Fin. unfold fround.
  rewrite <-fl_0. apply fl_mono. pose proof (pow10_pos n) as P. apply Qle_shift_div_l; [done|].
  rewrite Qmult_0_l. change 0%Q with (inject_Z 0). rewrite <-Zle_Qle. change 0%Z with (rne 0) at 1.
  apply rne_mono. apply Qmult_le_0_compat; [done|]. by apply Qlt_le_weak.
Qed.

Lemma score_nonneg x : is_score x = true → fleb f0 x = true.
Proof. intros (q & -> & ? & ?)%is_score_iff. rewrite f0_eq. by apply fleb_Fin. Qed.

Lemma fmax0_nonneg x : fleb f0 (fmax f0 x) = true.
Proof. unfold fmax. destruct (fltb f0 x) eqn:E; [by apply fltb_fleb|reflexivity]. Qed.

#[global] Arguments fl : simpl never.
#[global] Arguments lit : simpl never.
#[global] Arguments f_of_Z : simpl never.
#[global] Arguments fadd : simpl never.
#[global] Arguments fmul : simpl never.
#[global] Arguments fdiv : simpl never.
#[global] Arguments int_div : simpl never.
#[global] Arguments fround : simpl never.
#[global] Arguments fleb : simpl never.
#[global] Arguments fltb : simpl never.
#[global] Arguments feqb : simpl never.

Close Scope Q_scope.
