(* ===== verification/FloatError.v ===== *)
(** * Error bounds for binary64 sums

    The distance between a rounded value and the exact one, and from it a bound
    on Python's compensated [sum]: for non-negative terms whose exact sum stays
    below a power of two, the result is within a few units of the exact sum. *)

From Stdlib Require Import ZArith QArith Qround Qpower Qabs Qreduction Qcanon Lqa Lia.
From S2P Require Import Prelude PyFloat.

Open Scope Q_scope.

Lemma pow2_half a : pow2 (a - 1) == pow2 a * (1#2).
Proof. unfold Z.sub. rewrite pow2_plus. reflexivity. Qed.

Lemma pow2_double a : pow2 (a + 1) == 2 * pow2 a.
Proof. rewrite pow2_plus. change (pow2 1) with 2. lra. Qed.

(** [r] is within [e] of [x]. *)
Definition near (e x r : Q) : Prop := x - e <= r ∧ r <= x + e.

Lemma rnd_pos_near k x : (-1022 <= k)%Z → 0 < x → x <= pow2 k → near (pow2 (k - 53)) x (rnd_pos x).
Proof.
  intros Hk Hx Hle. unfold rnd_pos. set (c := cexp x).
  assert (c <= k - 52)%Z as Hc.
  { unfold c, cexp. destruct (ilog2_spec x Hx) as [H1 _].
    assert (ilog2 x <= k)%Z; [|lia]. destruct (Z.le_gt_cases (ilog2 x) k); [done|exfalso].
    pose proof (pow2_mono (k + 1) (ilog2 x) ltac:(lia)) as M. rewrite pow2_double in M. pose proof (pow2_pos k). lra. }
  destruct (rne_bounds (x * pow2 (- c))) as [H1 H2]. set (m := inject_Z (rne _)) in *.
  pose proof (pow2_pos c) as Pc. pose proof (pow2_opp c) as E.
  assert (x == x * pow2 (- c) * pow2 c) as Ex by (rewrite <-Qmult_assoc, E; lra).
  pose proof (pow2_mono (c - 1) (k - 53) ltac:(lia)) as M. rewrite pow2_half in M. set (y := x * pow2 (- c)) in *.
  assert (y * pow2 c <= (m + (1#2)) * pow2 c) by (apply Qmult_le_compat_r; lra).
  assert ((m - (1#2)) * pow2 c <= y * pow2 c) by (apply Qmult_le_compat_r; lra).
  split; rewrite Ex; lra.
Qed.

Lemma rnd_near k x : (-1022 <= k)%Z → - pow2 k <= x → x <= pow2 k → near (pow2 (k - 53)) x (rnd x).
Proof.
  intros Hk H1 H2. unfold rnd. pose proof (pow2_pos (k - 53)).
  destruct (Qcompare_spec x 0) as [E|E|E].
  - split; lra.
  - destruct (rnd_pos_near k (- x)) as [A B]; [done|lra|lra|]. split; lra.
  - apply rnd_pos_near; [done|lra|lra].
Qed.

Lemma fl_near k x : (-1022 <= k <= 1000)%Z → - pow2 k <= x → x <= pow2 k →
  ∃ r, fl x = Fin r ∧ near (pow2 (k - 53)) x r.
Proof.
  intros [Hk1 Hk2] H1 H2. destruct (rnd_near k x Hk1 H1 H2) as [A B]. unfold fl.
  pose proof (pow2_mono (k + 1) 1024 ltac:(lia)) as M. rewrite pow2_double in M.
  pose proof (pow2_mono (k - 53) (k - 1) ltac:(lia)) as M2. rewrite pow2_half in M2. pose proof (pow2_pos k).
  assert (rnd x < pow2 1024 ∧ - pow2 1024 < rnd x) as [C1 C2] by lra.
  apply Qle_bool_false in C1, C2. rewrite C1, C2. eexists; split; [done|].
  split; rewrite Qred_correct; lra.
Qed.

Section sums.
Context (k : Z) (Hk : (-1000 <= k <= 1000)%Z).

(** The unit of the bounds. *)
Definition ulp : Q := pow2 (k - 53).

Lemma ulp_pos : 0 < ulp.
Proof using. apply pow2_pos. Qed.

Lemma ulp_scale : pow2 k == inject_Z (2 ^ 53) * ulp.
Proof using.
  unfold ulp. replace k with (53 + (k - 53))%Z at 1 by lia. rewrite pow2_plus, (pow2_Z 53) by lia. reflexivity.
Qed.

Lemma fl_ulp x : - inject_Z (2 ^ 53) * ulp <= x → x <= inject_Z (2 ^ 53) * ulp →
  ∃ r, fl x = Fin r ∧ near ulp x r.
Proof using Hk.
  intros H1 H2. apply fl_near; [lia | rewrite ulp_scale; lra | by rewrite ulp_scale].
Qed.

(** One step of the compensated sum moves the running sum by the new term and
    the compensation by at most four units. *)
Lemma sum_step_near s c x :
  0 <= s → 0 <= x → s + x <= inject_Z (2 ^ 51) * ulp →
  - inject_Z (2 ^ 51) * ulp <= c → c <= inject_Z (2 ^ 51) * ulp →
  ∃ s' c', sum_step (Fin s, Fin c) (Fin x) = (Fin s', Fin c') ∧
    0 <= s' ∧ near ulp (s + x) s' ∧ near (4 * ulp) c c'.
Proof using Hk.
  intros Hs Hx Hsx Hc1 Hc2. pose proof ulp_pos as P. unfold sum_step, fsub.
  change (inject_Z (2 ^ 51)) with 2251799813685248 in *.
  pose proof fl_ulp as FL. change (inject_Z (2 ^ 53)) with 9007199254740992 in FL.
  change (fadd (Fin s) (Fin x)) with (fl (s + x)).
  destruct (FL (s + x)) as (t & Et & Ht1 & Ht2); [lra|lra|]. rewrite Et.
  assert (0 <= t) as Ht0.
  { pose proof (fl_mono 0 (s + x) ltac:(lra)) as M. rewrite fl_0, Et in M. by apply fleb_Fin. }
  assert (∀ a b, near ulp (s + x) t → 0 <= a → 0 <= b → a + b == s + x →
    ∃ e, fadd (fadd (Fin a) (fneg (Fin t))) (Fin b) = Fin e ∧ near (3 * ulp) 0 e) as HE.
  { intros a b [T1 T2] Ha Hb Hab. change (fadd (Fin a) (fneg (Fin t))) with (fl (a + - t)).
    destruct (FL (a + - t)) as (d & Ed & Hd1 & Hd2); [lra|lra|]. rewrite Ed.
    change (fadd (Fin d) (Fin b)) with (fl (d + b)).
    destruct (FL (d + b)) as (e & Ee & He1 & He2); [lra|lra|]. exists e. split; [done|]. split; lra. }
  assert (∀ e, near (3 * ulp) 0 e → ∃ c', fadd (Fin c) (Fin e) = Fin c' ∧ near (4 * ulp) c c') as HC.
  { intros e [E1 E2]. change (fadd (Fin c) (Fin e)) with (fl (c + e)).
    destruct (FL (c + e)) as (c' & Ec & C1 & C2); [lra|lra|]. exists c'. split; [done|]. split; lra. }
  destruct (fleb _ _).
  - destruct (HE s x) as (e & -> & He); [by split|done|done|lra|].
    destruct (HC e He) as (c' & -> & ?). exists t, c'.
    split; [reflexivity|]. split; [assumption|]. split; [by split|assumption].
  - destruct (HE x s) as (e & -> & He); [by split|done|done|lra|].
    destruct (HC e He) as (c' & -> & ?). exists t, c'.
    split; [reflexivity|]. split; [assumption|]. split; [by split|assumption].
Qed.

(** The exact sum of a list of rationals. *)
Fixpoint qsum (l : list Q) : Q :=
  match l with [] => 0 | x :: l => x + qsum l end.

Lemma qsum_nonneg l : Forall (λ x, 0 <= x) l → 0 <= qsum l.
Proof using. induction 1; cbn; lra. Qed.

Definition nQ (n : nat) : Q := inject_Z (Z.of_nat n).

Lemma nQ_S n : nQ (S n) == nQ n + 1.
Proof using. unfold nQ. rewrite Nat2Z.inj_succ, <-Z.add_1_r, inject_Z_plus. reflexivity. Qed.

Lemma nQ_nonneg n : 0 <= nQ n.
Proof using. change 0 with (inject_Z 0). unfold nQ. rewrite <-Zle_Qle. lia. Qed.

Lemma sum_steps_near l s c j :
  Forall (λ x, 0 <= x) l → 0 <= s → nQ j + nQ (length l) <= inject_Z (2 ^ 40) →
  s + qsum l <= inject_Z (2 ^ 50) * ulp + nQ j * ulp →
  - (4 * nQ j) * ulp <= c → c <= 4 * nQ j * ulp →
  ∃ s' c', foldl sum_step (Fin s, Fin c) (Fin <$> l) = (Fin s', Fin c') ∧
    0 <= s' ∧ near (nQ (length l) * ulp) (s + qsum l) s' ∧ near (4 * nQ (length l) * ulp) c c'.
Proof using Hk.
  intros Hl. revert s c j. pose proof ulp_pos as P.
  change (inject_Z (2 ^ 50)) with 1125899906842624. change (inject_Z (2 ^ 40)) with 1099511627776.
  induction Hl as [|x l Hx Hl IH]; intros s c j Hs Hj Hsum Hc1 Hc2.
  { exists s, c. cbn in *. change (nQ 0) with 0. split_and!; [done|done| |]; split; lra. }
  pose proof (qsum_nonneg l Hl) as Q0. pose proof (nQ_nonneg j) as J0. pose proof (nQ_nonneg (length l)) as L0.
  cbn [length] in *. rewrite nQ_S in *. cbn [qsum] in Hsum.
  assert (nQ j * ulp <= 1099511627776 * ulp) as Jb by (apply Qmult_le_r; lra).
  destruct (sum_step_near s c x) as (s1 & c1 & E1 & Hs1 & [A1 A2] & [B1 B2]);
    [done|done| | | |]; change (inject_Z (2 ^ 51)) with 2251799813685248; try lra.
  change (foldl sum_step (Fin s, Fin c) (Fin <$> (x :: l)))
    with (foldl sum_step (sum_step (Fin s, Fin c) (Fin x)) (Fin <$> l)). rewrite E1.
  destruct (IH s1 c1 (S j)) as (s2 & c2 & E2 & Hs2 & [C1 C2] & [D1 D2]); [done| | | | |].
  1-4: rewrite ?nQ_S; lra.
  exists s2, c2. unfold near. rewrite nQ_S. cbn [qsum]. repeat split; try done; lra.
Qed.

(** Python's [sum] of non-negative floats is within [6 n] units of the exact sum. *)
Lemma fsum_near l :
  Forall (λ x, 0 <= x) l → nQ (length l) <= inject_Z (2 ^ 30) → qsum l <= inject_Z (2 ^ 50) * ulp →
  ∃ r, fsum (Fin <$> l) = Fin r ∧ near (6 * nQ (length l) * ulp) (qsum l) r.
Proof using Hk.
  intros Hl Hn Hsum. pose proof ulp_pos as P. change (inject_Z (2 ^ 30)) with 1073741824 in Hn.
  destruct Hl as [|x l Hx Hl].
  { exists 0. split; [done|]. cbn. change (nQ 0) with 0. split; lra. }
  cbn [length] in *. rewrite nQ_S in *. pose proof (nQ_nonneg (length l)) as L0.
  pose proof (qsum_nonneg l Hl) as Q0. cbn [qsum] in *.
  destruct (sum_steps_near l x 0 0) as (s & c & E & Hs & [A1 A2] & [B1 B2]);
    [done|done| | | | |]; change (nQ 0) with 0; change (inject_Z (2 ^ 40)) with 1099511627776; try lra.
  change (fsum (Fin <$> (x :: l)))
    with (let '(s, c) := foldl sum_step (Fin x, f0) (Fin <$> l) in
          if feqb c f0 then s else if isfinite c then fadd s c else s).
  rewrite f0_eq, E. change (inject_Z (2 ^ 50)) with 1125899906842624 in Hsum.
  assert (nQ (length l) * ulp <= 1073741824 * ulp) as Lb by (apply Qmult_le_r; lra).
  destruct (feqb (Fin c) (Fin 0)).
  - exists s. split; [done|]. unfold near. rewrite nQ_S. split; lra.
  - cbn [isfinite]. change (fadd (Fin s) (Fin c)) with (fl (s + c)).
    destruct (fl_ulp (s + c)) as (r & Er & R1 & R2);
      [change (inject_Z (2 ^ 53)) with 9007199254740992; lra..|].
    exists r. split; [done|]. unfold near. rewrite nQ_S. split; lra.
Qed.
End sums.

(** ** Sums of non-negative floats are never NaN *)

Lemma fadd_nonneg x y : fleb f0 x = true → fleb f0 y = true → fleb f0 (fadd x y) = true.
Proof.
  destruct x as [a|[]|], y as [b|[]|]; try done. rewrite f0_eq, !fleb_Fin. intros Ha Hb.
  change (fadd (Fin a) (Fin b)) with (fl (a + b)). rewrite <-fl_0. apply fl_mono. lra.
Qed.

Lemma fleb_not_NaN_r x y : fleb x y = true → y ≠ NaN.
Proof. by destruct x as [|[]|], y. Qed.

Lemma sum_steps_nonneg l s c : fleb f0 s = true → Forall (λ x, fleb f0 x = true) l →
  fleb f0 (foldl sum_step (s, c) l).1 = true.
Proof.
  intros Hs Hl. revert s c Hs. induction Hl as [|x l Hx Hl IH]; intros s c Hs; [done|].
  cbn [foldl]. unfold sum_step at 2. apply IH. by apply fadd_nonneg.
Qed.

Lemma fsum_not_NaN l : Forall (λ x, fleb f0 x = true) l → fsum l ≠ NaN.
Proof.
  intros [|x l' Hx Hl]; [done|]. unfold fsum.
  pose proof (sum_steps_nonneg l' x f0 Hx Hl) as Hs.
  destruct (foldl sum_step (x, f0) l') as [s c]. cbn [fst] in Hs.
  apply fleb_not_NaN_r in Hs. destruct (feqb c f0); [done|].
  destruct c as [c| |]; try done. destruct s as [s|[]|]; try done. apply fl_not_NaN.
Qed.

(** ** The strict order and the equality of floats *)

Lemma feqb_refl x : x ≠ NaN → feqb x x = true.
Proof. destruct x as [q|[]|]; try done. intros _. by apply feqb_Fin. Qed.

Lemma feqb_trans x y z : feqb x y = true → feqb y z = true → feqb x z = true.
Proof.
  destruct x as [a|[]|], y as [b|[]|], z as [c|[]|]; try done. rewrite !feqb_Fin. intros; lra.
Qed.

Lemma feqb_sym x y : feqb x y = feqb y x.
Proof.
  destruct x as [a|[]|], y as [b|[]|]; try done.
  destruct (feqb (Fin b) (Fin a)) eqn:E; [apply feqb_Fin in E; apply feqb_Fin; lra|].
  destruct (feqb (Fin a) (Fin b)) eqn:F; [|done]. apply feqb_Fin in F.
  assert (feqb (Fin b) (Fin a) = true) by (apply feqb_Fin; lra). congruence.
Qed.

Lemma fltb_trans x y z : fltb x y = true → fltb y z = true → fltb x z = true.
Proof. intros H1 H2%fltb_fleb. by eapply fltb_fleb_trans. Qed.

Lemma fltb_irrefl x : fltb x x = false.
Proof.
  destruct x as [q|[]|]; try done. destruct (fltb (Fin q) (Fin q)) eqn:E; [|done].
  apply fltb_Fin in E. lra.
Qed.

Lemma feqb_fleb x y : feqb x y = true → fleb x y = true ∧ fleb y x = true.
Proof.
  destruct x as [a|[]|], y as [b|[]|]; try done. rewrite feqb_Fin, !fleb_Fin. intros; lra.
Qed.

Lemma fltb_feqb_excl x y : fltb x y = true → feqb x y = false.
Proof.
  intros H. destruct (feqb x y) eqn:E; [|done]. apply feqb_fleb in E as [_ E].
  apply fltb_irrefl_le in E. congruence.
Qed.

Lemma fltb_tricho x y : x ≠ NaN → y ≠ NaN → feqb x y = false → fltb x y = false → fltb y x = true.
Proof.
  intros Hx Hy E L. rewrite fltb_negb in L by done. apply negb_false_iff in L.
  destruct x as [a|[]|], y as [b|[]|]; try done. apply fleb_Fin in L. apply fltb_Fin.
  destruct (Qlt_le_dec b a) as [|G]; [done|]. assert (feqb (Fin a) (Fin b) = true) by (apply feqb_Fin; lra).
  congruence.
Qed.

Lemma fround_mono n x y : fleb x y = true → fleb (fround n x) (fround n y) = true.
Proof.
  destruct x as [a|[]|], y as [b|[]|]; try done; cbn [fround]; intros H.
  - apply fleb_Fin in H. apply fl_mono. apply Qmult_le_compat_r.
    + rewrite <-Zle_Qle. apply rne_mono. apply Qmult_le_compat_r; [done|]. apply Qlt_le_weak, pow10_pos.
    + apply Qinv_le_0_compat. apply Qlt_le_weak, pow10_pos.
  - match goal with |- fleb ?z _ = _ => assert (z ≠ NaN) as Hz by apply fl_not_NaN; by destruct z as [|[]|] end.
  - match goal with |- fleb _ ?z = _ => assert (z ≠ NaN) as Hz by apply fl_not_NaN; by destruct z as [|[]|] end.
Qed.

Lemma fneg_le x y : fleb (fneg x) (fneg y) = fleb y x.
Proof.
  destruct x as [a|[]|], y as [b|[]|]; try done. cbn [fneg].
  destruct (fleb (Fin b) (Fin a)) eqn:E.
  - apply fleb_Fin in E. apply fleb_Fin. lra.
  - apply not_true_is_false. intros F. apply fleb_Fin in F.
    assert (fleb (Fin b) (Fin a) = true) by (apply fleb_Fin; lra). congruence.
Qed.

Lemma fneg_not_NaN x : x ≠ NaN → fneg x ≠ NaN.
Proof. by destruct x. Qed.

(** ** Sums of non-negative floats are non-negative

    The compensation is far smaller than the sum unless the summands are close
    to the least positive float, which rounded figures never are. *)

Definition coarse (x : float) : Prop := ∃ q, x = Fin q ∧ (q == 0 ∨ pow2 (-900) <= q) ∧ q <= 1.

Lemma coarse_qsum l : Forall coarse l → ∃ qs, l = Fin <$> qs ∧ Forall (λ q, 0 <= q) qs ∧
  qsum qs <= nQ (length qs) ∧ (qsum qs == 0 ∨ pow2 (-900) <= qsum qs).
Proof.
  induction 1 as [|x l (q & -> & Hq & Hq1) Hl (qs & -> & IH1 & IH2 & IH3)].
  { exists []. cbn. split_and!; [done|constructor|apply Qle_refl|by left]. }
  exists (q :: qs). pose proof (pow2_pos (-900)) as P. pose proof (qsum_nonneg qs IH1) as S0.
  assert (0 <= q) as Q0 by (destruct Hq as [Hq|Hq]; lra).
  cbn [length qsum]. rewrite nQ_S. split_and!; [done|by constructor| |].
  - lra.
  - destruct Hq as [Hq|Hq]; [destruct IH3 as [H3|H3]; [left|right]; lra|right; lra].
Qed.

Lemma fsum_zero qs : Forall (λ q, 0 <= q) qs → qsum qs == 0 → ∃ r, fsum (Fin <$> qs) = Fin r ∧ r == 0.
Proof.
  intros Hqs Hz. assert (Forall (λ q, q == 0) qs) as Hall.
  { clear -Hqs Hz. induction Hqs as [|q qs Hq Hqs IH]; [constructor|]. cbn [qsum] in Hz.
    pose proof (qsum_nonneg qs Hqs). constructor; [lra|apply IH; lra]. }
  destruct Hall as [|q qs' Hq Hqs']; [by exists 0|].
  change (fsum (Fin <$> (q :: qs')))
    with (let '(s, c) := foldl sum_step (Fin q, f0) (Fin <$> qs') in
          if feqb c f0 then s else if isfinite c then fadd s c else s).
  assert (∀ s, s == 0 → ∃ s', foldl sum_step (Fin s, f0) (Fin <$> qs') = (Fin s', f0) ∧ s' == 0) as H.
  { clear -Hqs'. induction Hqs' as [|x l Hx Hl IH]; intros s Hs; [by exists s|].
    change (foldl sum_step (Fin s, f0) (Fin <$> (x :: l)))
      with (foldl sum_step (sum_step (Fin s, f0) (Fin x)) (Fin <$> l)).
    assert (sum_step (Fin s, f0) (Fin x) = (Fin 0, f0)) as ->.
    { assert (∀ a b, a == 0 → b == 0 → fadd (Fin a) (Fin b) = Fin 0) as Zadd.
      { intros a b Ha Hb. unfold fadd. rewrite (fl_proper (a + b) 0), fl_0 by lra. done. }
      unfold sum_step, fsub. rewrite f0_eq, (Zadd s x) by done. cbn [fneg].
      by case_match; rewrite !Zadd by (done || reflexivity). }
    apply IH. reflexivity. }
  destruct (H q Hq) as (s' & -> & Hs'). exists s'.
  by rewrite f0_eq, (proj2 (feqb_Fin 0 0)) by reflexivity.
Qed.

Lemma fsum_coarse_nonneg l : Forall coarse l → (Z.of_nat (length l) <= 2 ^ 30)%Z → fleb f0 (fsum l) = true.
Proof.
  intros (qs & -> & Hpos & Hup & Hlow)%coarse_qsum Hlen. rewrite length_fmap in *.
  destruct Hlow as [Hz|Hlow].
  { destruct (fsum_zero qs Hpos Hz) as (r & -> & Hr). rewrite f0_eq. apply fleb_Fin. lra. }
  set (x := qsum qs) in *. pose proof (pow2_pos (-900)) as P.
  destruct (ilog2_spec x) as [L1 L2]; [lra|]. set (e := ilog2 x) in *.
  assert (nQ (length qs) <= inject_Z (2 ^ 30)) as Hn by (unfold nQ; rewrite <-Zle_Qle; lia).
  assert (-901 < e < 31)%Z as He.
  { split.
    - destruct (Z_lt_le_dec (-901) e) as [|Hle]; [done|]. pose proof (pow2_mono (e + 1) (-900) ltac:(lia)). lra.
    - destruct (Z_lt_le_dec e 31) as [|Hle]; [done|]. pose proof (pow2_mono 31 e Hle) as M.
      rewrite pow2_Z in M by lia. change (inject_Z (2 ^ 31)) with 2147483648 in M.
      change (inject_Z (2 ^ 30)) with 1073741824 in Hn. lra. }
  assert (pow2 (e + 1) == inject_Z (2 ^ 50) * ulp (e + 4)) as U.
  { unfold ulp. rewrite <-pow2_Z, <-pow2_plus by lia. by replace (50 + (e + 4 - 53))%Z with (e + 1)%Z by lia. }
  assert (pow2 e == inject_Z (2 ^ 49) * ulp (e + 4)) as U2.
  { unfold ulp. rewrite <-pow2_Z, <-pow2_plus by lia. by replace (49 + (e + 4 - 53))%Z with e by lia. }
  destruct (fsum_near (e + 4) ltac:(lia) qs) as (r & -> & [R1 R2]); [done|done|fold x; lra|].
  fold x in R1, R2. rewrite f0_eq. apply fleb_Fin.
  assert (6 * nQ (length qs) * ulp (e + 4) <= inject_Z (2 ^ 49) * ulp (e + 4)); [|lra].
  apply Qmult_le_compat_r; [|apply Qlt_le_weak, ulp_pos].
  change (inject_Z (2 ^ 49)) with 562949953421312. change (inject_Z (2 ^ 30)) with 1073741824 in Hn. lra.
Qed.

(** A score rounded to six decimals is coarse. *)
Lemma coarse_round6 x : is_score x = true → coarse (fround 6 x).
Proof.
  intros Hx. pose proof (score_round 6 x Hx) as Hr. apply is_score_iff in Hr as (r & Hr & R0 & R1).
  exists r. split_and!; [done| |done]. apply is_score_iff in Hx as (q & -> & Q0 & Q1).
  unfold fround in Hr. set (z := rne _) in Hr. destruct (Z_le_gt_dec z 0) as [Hz|Hz].
  - left. assert (z = 0%Z) as ->.
    { apply Z.le_antisymm; [done|]. change 0%Z with (rne 0) at 1. apply rne_mono.
      apply Qmult_le_0_compat; [done|]. apply Qlt_le_weak, pow10_pos. }
    change (inject_Z 0 / inject_Z (10 ^ Z.of_nat 6)) with (0 # 1000000) in Hr.
    rewrite (fl_proper _ 0), fl_0 in Hr by reflexivity. injection Hr as <-. reflexivity.
  - right. assert (fleb (fl (1 # 1000000)) (fl (inject_Z z / inject_Z (10 ^ Z.of_nat 6))) = true) as M.
    { apply fl_mono. change (inject_Z (10 ^ Z.of_nat 6)) with 1000000. apply Qle_shift_div_l; [done|].
      assert (1 <= inject_Z z) by (change 1 with (inject_Z 1); rewrite <-Zle_Qle; lia). lra. }
    rewrite Hr in M. assert (∃ c, fl (1 # 1000000) = Fin c ∧ pow2 (-900) <= c) as (c & Hc & C).
    { eexists. split; [vm_compute; reflexivity|]. apply Qle_bool_iff. vm_compute. reflexivity. }
    rewrite Hc in M. apply fleb_Fin in M. lra.
Qed.

(** ** Small integers and means *)

(** An integer below [2^53] is represented exactly. *)
Lemma fl_Z z : (0 <= z < 2 ^ 53)%Z → fl (inject_Z z) = Fin (inject_Z z).
Proof.
  intros [H0 H1]. destruct (decide (z = 0%Z)) as [->|Hz]; [exact fl_0|].
  assert (0 < inject_Z z) as Hp by (change 0 with (inject_Z 0); rewrite <-Zlt_Qlt; lia).
  assert (rnd (inject_Z z) == inject_Z z) as E.
  { unfold rnd. destruct (Qcompare_spec (inject_Z z) 0) as [C|C|C]; [lra|lra|]. unfold rnd_pos. set (c := cexp _).
    assert (c <= 0)%Z as Hc.
    { unfold c, cexp. destruct (ilog2_spec (inject_Z z) Hp) as [A _].
      assert (ilog2 (inject_Z z) < 53)%Z; [|lia]. destruct (Z.lt_ge_cases (ilog2 (inject_Z z)) 53) as [|G]; [done|exfalso].
      pose proof (pow2_mono 53 (ilog2 (inject_Z z)) G) as M. rewrite pow2_Z in M by lia.
      assert (inject_Z z < inject_Z (2 ^ 53)) by (by rewrite <-Zlt_Qlt). lra. }
    assert (inject_Z z * pow2 (- c) == inject_Z (z * 2 ^ (- c))) as Em by (rewrite pow2_Z, inject_Z_mult by lia; done).
    assert (rne (inject_Z z * pow2 (- c)) = (z * 2 ^ (- c))%Z) as ->.
    { apply Z.le_antisymm; rewrite <-(rne_int (z * 2 ^ (- c))); apply rne_mono; rewrite Em; apply Qle_refl. }
    rewrite <-Em, <-Qmult_assoc, pow2_opp, Qmult_1_r. reflexivity. }
  assert (inject_Z z < pow2 53) as Hb by (rewrite pow2_Z by lia; by rewrite <-Zlt_Qlt).
  pose proof (pow2_mono 53 1024 ltac:(lia)) as M. unfold fl.
  assert (rnd (inject_Z z) < pow2 1024 ∧ - pow2 1024 < rnd (inject_Z z)) as [C1 C2] by lra.
  apply Qle_bool_false in C1, C2. rewrite C1, C2. f_equal. rewrite (Qred_complete _ _ E). apply Qred_iff. apply Z.gcd_1_r.
Qed.

Lemma nQ_Z n : nQ n = inject_Z (Z.of_nat n).
Proof. done. Qed.

Lemma qsum_le_length l : Forall (λ q, q <= 1) l → qsum l <= nQ (length l).
Proof. induction 1 as [|x l Hx Hl IH]; cbn [qsum length]; [change (nQ 0) with 0; lra|]. rewrite nQ_S. lra. Qed.

(** [sum(l) / len(l)] of at most a million scores is close to their mean. *)
Lemma mean_near qs : qs ≠ [] → (Z.of_nat (length qs) <= 2 ^ 20)%Z → Forall (λ q, 0 <= q ∧ q <= 1) qs →
  ∃ m, fdiv (fsum (Fin <$> qs)) (f_of_Z (Z.of_nat (length qs))) = Ok (Fin m) ∧
    near (1 # 10000000) (qsum qs / nQ (length qs)) m.
Proof.
  intros Hne Hlen H. set (n := nQ (length qs)).
  assert (1 <= n) as Hn1 by (unfold n; change 1 with (inject_Z 1); unfold nQ; rewrite <-Zle_Qle; destruct qs; cbn; [done|lia]).
  assert (n <= 1048576) as Hn2.
  { unfold n, nQ. change 1048576 with (inject_Z (2 ^ 20)). by rewrite <-Zle_Qle. }
  assert (Forall (λ q, 0 <= q) qs ∧ Forall (λ q, q <= 1) qs) as [H0 H1] by (by apply Forall_and).
  pose proof (qsum_nonneg qs H0) as S0. pose proof (qsum_le_length qs H1) as S1. fold n in S1.
  pose proof (eq_refl : ulp 23 = 1 # 1073741824) as U.
  destruct (fsum_near 23 ltac:(lia) qs H0) as (r & -> & [R1 R2]); fold n.
  { change (inject_Z (2 ^ 30)) with 1073741824. lra. }
  { rewrite U. change (inject_Z (2 ^ 50) * (1 # 1073741824)) with (1125899906842624 * (1 # 1073741824)). lra. }
  fold n in R1, R2. rewrite U in R1, R2.
  unfold f_of_Z. rewrite fl_Z by lia. fold (nQ (length qs)). fold n. unfold fdiv.
  destruct (Qeq_bool n 0) eqn:E0; [apply Qeq_bool_iff in E0; lra|].
  set (x := qsum qs / n). assert (x * n == qsum qs) as Ex by (unfold x; field; lra).
  assert (x - (6 # 1073741824) <= r / n ∧ r / n <= x + (6 # 1073741824)) as [D1 D2].
  { split; [apply Qle_shift_div_l|apply Qle_shift_div_r]; lra. }
  assert (0 <= x ∧ x <= 1) as [X0 X1] by (split; [apply Qle_shift_div_l|apply Qle_shift_div_r]; lra).
  destruct (fl_near 1 (r / n)) as (m & -> & [M1 M2]); [lia|change (pow2 1) with 2; lra..|].
  change (pow2 (1 - 53)) with (1 # 4503599627370496) in M1, M2.
  exists m. split; [done|]. split; lra.
Qed.

(** Rounding to four decimals absorbs such errors. *)
Lemma round4_score q : - (1 # 100000) <= q → q <= 1 + (1 # 100000) → is_score (fround 4 (Fin q)) = true.
Proof.
  intros H0 H1. unfold fround. change (inject_Z (10 ^ Z.of_nat 4)) with 10000.
  assert (0 <= rne (q * 10000) <= 10000)%Z as [A B].
  { destruct (rne_bounds (q * 10000)) as [B1 B2]. split.
    - assert (inject_Z (-1) < inject_Z (rne (q * 10000))) as L by (change (inject_Z (-1)) with (-1); lra).
      rewrite <-Zlt_Qlt in L. lia.
    - assert (inject_Z (rne (q * 10000)) < inject_Z 10001) as L by (change (inject_Z 10001) with 10001; lra).
      rewrite <-Zlt_Qlt in L. lia. }
  rewrite Zle_Qle in A, B. change (inject_Z 0) with 0 in A. change (inject_Z 10000) with 10000 in B.
  apply score_fl; [apply Qle_shift_div_l|apply Qle_shift_div_r]; lra.
Qed.

Lemma round4_one q : 1 - (1 # 100000) <= q → q <= 1 + (1 # 100000) → fround 4 (Fin q) = f1.
Proof.
  intros H0 H1. unfold fround. change (inject_Z (10 ^ Z.of_nat 4)) with 10000.
  assert (rne (q * 10000) = 10000)%Z as ->.
  { destruct (rne_bounds (q * 10000)) as [B1 B2].
    assert (inject_Z 9999 < inject_Z (rne (q * 10000))) as L1 by (change (inject_Z 9999) with 9999; lra).
    assert (inject_Z (rne (q * 10000)) < inject_Z 10001) as L2 by (change (inject_Z 10001) with 10001; lra).
    rewrite <-Zlt_Qlt in L1, L2. lia. }
  unfold f1, lit. apply fl_proper. reflexivity.
Qed.
