(* ===== verification/FloatMono.v ===== *)
(** * Monotone float arithmetic on a bounded range

    [within k x y]: two finite floats with 0 <= x <= y <= k.  Sums, products and
    quotients by constants keep the order, and stay below the sum or product of
    the bounds as long as these are exact floats.  Rounding leaves a float as it is
    ([fl_idem]), so adding what is not negative never lowers it. *)

From Stdlib Require Import ZArith QArith Lqa.
From S2P Require Import Prelude PyFloat FloatError.

Open Scope Q_scope.

Definition within (k : Z) (x y : float) : Prop :=
  ∃ a b, x = Fin a ∧ y = Fin b ∧ 0 <= a ∧ a <= b ∧ b <= inject_Z k.

Lemma within_fleb k x y : within k x y → fleb x y = true.
Proof. intros (a & b & -> & -> & ? & ? & ?). by apply fleb_Fin. Qed.

Lemma within_nonneg k x y : within k x y → fleb f0 x = true.
Proof. intros (a & b & -> & -> & ? & ? & ?). rewrite f0_eq. by apply fleb_Fin. Qed.

Lemma within_left k x y : within k x y → within k x x.
Proof. intros (a & b & -> & -> & ? & ? & ?). exists a, a. split_and!; try done; lra. Qed.

Lemma within_right k x y : within k x y → within k y y.
Proof. intros (a & b & -> & -> & ? & ? & ?). exists b, b. split_and!; try done; lra. Qed.

Lemma within_trans k x y z : within k x y → within k y z → within k x z.
Proof.
  intros (a & b & -> & -> & ? & ? & ?) (b' & c & [= <-] & -> & ? & ? & ?). exists a, c. split_and!; try done; lra.
Qed.

Lemma within_score x : is_score x = true ↔ within 1 x x.
Proof.
  rewrite is_score_iff. split.
  - intros (q & -> & ? & ?). exists q, q. split_and!; try done; change (inject_Z 1) with 1; lra.
  - intros (a & b & -> & [= <-] & ? & ? & Hb). exists a. change (inject_Z 1) with 1 in Hb. split_and!; try done; lra.
Qed.

(** Rounding keeps the order and an integer bound. *)
Lemma within_fl k a b : (0 <= k < 2 ^ 53)%Z → 0 <= a → a <= b → b <= inject_Z k → within k (fl a) (fl b).
Proof.
  intros Hk H0 Hab Hb. pose proof (fl_Z k Hk) as Ek.
  destruct (fl_between 0 (inject_Z k) a fl_0 Ek H0) as (r & Er & R1 & R2); [lra|].
  destruct (fl_between 0 (inject_Z k) b fl_0 Ek) as (s & Es & S1 & S2); [lra|done|].
  rewrite Er, Es. exists r, s. split_and!; try done. apply fleb_Fin. rewrite <-Er, <-Es. by apply fl_mono.
Qed.

Lemma within_add k j x y x' y' : (0 <= k)%Z → (0 <= j)%Z → (k + j < 2 ^ 53)%Z → within k x y → within j x' y' →
  within (k + j) (fadd x x') (fadd y y').
Proof.
  intros Hk Hj Hkj (a & b & -> & -> & ? & ? & ?) (c & d & -> & -> & ? & ? & ?).
  apply within_fl; [lia|lra|lra|rewrite inject_Z_plus; lra].
Qed.

Lemma within_mul k j x y x' y' : (0 <= k)%Z → (0 <= j)%Z → (k * j < 2 ^ 53)%Z → within k x y → within j x' y' →
  within (k * j) (fmul x x') (fmul y y').
Proof.
  intros Hk Hj Hkj (a & b & -> & -> & ? & ? & ?) (c & d & -> & -> & ? & ? & ?).
  apply within_fl; [nia|nra| |].
  - apply Qle_trans with (a * d); [rewrite !(Qmult_comm a); apply Qmult_le_compat_r; lra|apply Qmult_le_compat_r; lra].
  - rewrite inject_Z_mult. apply Qle_trans with (b * inject_Z j).
    + rewrite !(Qmult_comm b). apply Qmult_le_compat_r; lra.
    + apply Qmult_le_compat_r; lra.
Qed.

(** A larger bound is a bound. *)
Lemma within_weaken k j x y : (k <= j)%Z → within k x y → within j x y.
Proof. intros Hkj (a & b & -> & -> & ? & ? & ?). exists a, b. rewrite Zle_Qle in Hkj. split_and!; try done; lra. Qed.

(** A constant, compared by computation. *)
Definition within_b (k : Z) (x y : float) : bool :=
  match x, y with
  | Fin a, Fin b => Qle_bool 0 a && Qle_bool a b && Qle_bool b (inject_Z k)
  | _, _ => false
  end.

Lemma within_const k x y : within_b k x y = true → within k x y.
Proof.
  unfold within_b. destruct x as [a| |], y as [b| |]; try done. intros H. bool_norm.
  exists a, b. rewrite <-!Qle_bool_iff. done.
Qed.

(** Minimum and maximum with a constant keep the order. *)
Lemma fmin_mono c x y : c ≠ NaN → fleb x y = true → fleb (fmin c x) (fmin c y) = true.
Proof.
  intros Hc H. unfold fmin. destruct (fltb x c) eqn:Ex, (fltb y c) eqn:Ey; auto using fltb_fleb, fleb_refl.
  rewrite (fleb_fltb_trans _ _ _ H Ey) in Ex. done.
Qed.

Lemma fmax_mono c x y : c ≠ NaN → fleb x y = true → fleb (fmax c x) (fmax c y) = true.
Proof.
  intros Hc H. unfold fmax. destruct (fltb c x) eqn:Ex, (fltb c y) eqn:Ey; auto using fltb_fleb, fleb_refl.
  rewrite (fltb_fleb_trans _ _ _ Ex H) in Ey. done.
Qed.

Lemma within_scores x y : is_score x = true → is_score y = true → fleb x y = true → within 1 x y.
Proof.
  intros (a & -> & ? & ?)%is_score_iff (b & -> & ? & ?)%is_score_iff Hle%fleb_Fin. by exists a, b.
Qed.

(** Clamping to the unit interval keeps the order. *)
Lemma within_clamp x y : fleb x y = true → within 1 (fmax f0 (fmin f1 x)) (fmax f0 (fmin f1 y)).
Proof. intros H. apply within_scores; [apply score_clamp..|]. by apply fmax_mono, fmin_mono. Qed.

(** ** Floats are fixed points of rounding *)

Lemma rnd_pos_multiple m e r : 0 < r → r == inject_Z m * pow2 e → (cexp r <= e)%Z → rnd_pos r == r.
Proof.
  intros Hr E He. unfold rnd_pos. set (c := cexp r) in *.
  assert (r * pow2 (- c) == inject_Z (m * 2 ^ (e - c))) as ->.
  { rewrite E, inject_Z_mult, <-pow2_Z by lia. rewrite <-Qmult_assoc, <-pow2_plus.
    by replace (e + - c)%Z with (e - c)%Z by lia. }
  rewrite rne_int, inject_Z_mult, <-pow2_Z by lia. rewrite <-Qmult_assoc, <-pow2_plus.
  replace (e - c + c)%Z with e by lia. by rewrite E.
Qed.

Lemma ilog2_lt x k : 0 < x → x < pow2 k → (ilog2 x < k)%Z.
Proof.
  intros Hx Hk. destruct (ilog2_spec x Hx) as [L _]. destruct (Z_lt_le_dec (ilog2 x) k) as [|Hle]; [done|].
  pose proof (pow2_mono _ _ Hle). lra.
Qed.

Lemma cexp_lt x e : 0 < x → (-1074 <= e)%Z → x < pow2 (e + 53) → (cexp x <= e)%Z.
Proof. intros Hx He Hlt%ilog2_lt; [|done]. unfold cexp. lia. Qed.

Lemma rnd_pos_idem x : 0 < x → 0 < rnd_pos x → rnd_pos (rnd_pos x) == rnd_pos x.
Proof.
  intros Hx Hr. pose proof Hr as Hr'. unfold rnd_pos in Hr at 1. set (e := cexp x) in *. set (m := rne (x * pow2 (- e))) in *.
  assert (rnd_pos x == inject_Z m * pow2 e) as E by reflexivity.
  assert (-1074 <= e)%Z as He by (unfold e, cexp; lia).
  assert (m <= 2 ^ 53)%Z as Hm.
  { unfold m. rewrite <-(rne_int (2 ^ 53)). apply rne_mono. rewrite <-(pow2_Z 53) by lia.
    destruct (ilog2_spec x Hx) as [_ L]. pose proof (pow2_mono (ilog2 x + 1) (e + 53) ltac:(unfold e, cexp; lia)) as M.
    apply Qle_trans with (pow2 (e + 53) * pow2 (- e)); [apply Qmult_le_r; [apply pow2_pos|lra]|].
    rewrite <-pow2_plus. replace (e + 53 + - e)%Z with 53%Z by lia. apply Qle_refl. }
  destruct (decide (m = 2 ^ 53)%Z) as [Em|Em].
  - assert (rnd_pos x == pow2 (e + 53)) as E'.
    { rewrite E, Em, <-pow2_Z, <-pow2_plus by lia. by replace (53 + e)%Z with (e + 53)%Z by lia. }
    apply (rnd_pos_multiple (2 ^ 52) (e + 1)); [done| |].
    + rewrite E', <-pow2_Z, <-pow2_plus by lia. by replace (52 + (e + 1))%Z with (e + 53)%Z by lia.
    + apply cexp_lt; [done|lia|]. rewrite E'. replace (e + 1 + 53)%Z with (e + 53 + 1)%Z by lia.
      rewrite (pow2_plus (e + 53)). pose proof (pow2_pos (e + 53)). change (pow2 1) with 2. lra.
  - apply (rnd_pos_multiple m e); [done|done|]. apply cexp_lt; [done|done|]. rewrite E.
    replace (e + 53)%Z with (53 + e)%Z by lia. rewrite pow2_plus. apply Qmult_lt_r; [apply pow2_pos|].
    rewrite (pow2_Z 53) by lia. rewrite <-Zlt_Qlt. lia.
Qed.

Lemma rnd_opp x : rnd (- x) == - rnd x.
Proof.
  unfold rnd. destruct (Qcompare_spec x 0) as [H|H|H], (Qcompare_spec (- x) 0) as [H'|H'|H']; try lra.
  assert (- - x == x) as E by lra.
  assert (rnd (- - x) == rnd x) as R by (by rewrite E). unfold rnd in R.
  destruct (Qcompare_spec (- - x) 0), (Qcompare_spec x 0); lra.
Qed.

Lemma rnd_idem x : rnd (rnd x) == rnd x.
Proof.
  assert (∀ y, 0 < y → rnd (rnd_pos y) == rnd_pos y) as P.
  { intros y Hy. destruct (Qle_lt_or_eq 0 (rnd_pos y) (rnd_pos_nonneg y Hy)) as [Hp|Hz].
    - unfold rnd. destruct (Qcompare_spec (rnd_pos y) 0); [lra|lra|by apply rnd_pos_idem].
    - by rewrite <-Hz. }
  unfold rnd at 2 3. destruct (Qcompare_spec x 0) as [H|H|H]; [reflexivity| |by apply P].
  rewrite rnd_opp, P by lra. reflexivity.
Qed.

(** Every finite result is a float: rounding leaves it as it is. *)
Lemma fl_idem x q : fl x = Fin q → fl q = Fin q.
Proof.
  intros E. assert (rnd q == rnd x) as R.
  { assert (q == rnd x) as ->; [|apply rnd_idem]. unfold fl in E. repeat case_match; try done. injection E as <-. apply Qred_correct. }
  rewrite <-E. unfold fl. assert (∀ a, Qle_bool a (rnd q) = Qle_bool a (rnd x) ∧ Qle_bool (rnd q) a = Qle_bool (rnd x) a) as L.
  { intros a. split; apply eq_true_iff_eq; rewrite !Qle_bool_iff, R; reflexivity. }
  rewrite (proj1 (L (pow2 1024))), (proj2 (L (- pow2 1024))). by rewrite (Qred_complete _ _ R).
Qed.

(** The result of an operation: a float. *)
Definition rounded (x : float) : Prop := match x with Fin q => fl q = Fin q | _ => True end.

Lemma rounded_fl q : rounded (fl q).
Proof. unfold rounded. destruct (fl q) eqn:E; [by eapply fl_idem|done..]. Qed.

Lemma rounded_fadd x y : rounded (fadd x y).
Proof. destruct x as [|[]|], y as [|[]|]; cbn [fadd]; try done; apply rounded_fl. Qed.

(** Adding a number that is not negative never lowers a float. *)
Lemma fadd_ge x w : rounded x → fleb f0 x = true → fleb f0 w = true → fleb x (fadd x w) = true.
Proof.
  intros Hr Hx Hw. destruct x as [a|[]|], w as [b|[]|]; try done. cbn [fadd rounded] in *. rewrite <-Hr at 1.
  apply fl_mono. rewrite f0_eq, fleb_Fin in Hw. lra.
Qed.

Lemma fadd_mono x y w : fleb x y = true → fleb f0 x = true → fleb f0 w = true → fleb (fadd x w) (fadd y w) = true.
Proof.
  intros H Hx Hw. destruct x as [a|[]|], y as [b|[]|], w as [c|[]|]; try done.
  - apply fl_mono. rewrite fleb_Fin in H. lra.
  - change (fleb (fl (a + c)) (Inf false) = true). pose proof (fl_not_NaN (a + c)) as N. destruct (fl (a + c)) as [|[]|]; done.
Qed.
