(* ===== verification/PyFormat.v ===== *)
(** * Python string operations and number formatting

    The f-string format specifications the code uses ([.1f], [.2f], [.1%],
    [,.0f], [<8]), [repr] of a float (the shortest decimal that reads back to
    the same float), and the string methods [lower], [upper] and [strip].
    Strings are UTF-8 encoded; the case methods act on ASCII letters, which are
    the only letters the code compares with or converts. *)

From Stdlib Require Import ZArith QArith Qround Qpower Qabs Ascii.
From S2P Require Import Prelude PyFloat.

Open Scope Z_scope.

(** ** String methods *)

Fixpoint str_map (f : ascii → ascii) (s : string) : string :=
  match s with EmptyString => EmptyString | String c s => String (f c) (str_map f s) end.

Definition lower_ascii (c : ascii) : ascii :=
  let n := N_of_ascii c in
  if ((65 <=? n) && (n <=? 90))%N then ascii_of_N (n + 32) else c.
Definition upper_ascii (c : ascii) : ascii :=
  let n := N_of_ascii c in
  if ((97 <=? n) && (n <=? 122))%N then ascii_of_N (n - 32) else c.

Definition str_lower : string → string := str_map lower_ascii.
Definition str_upper : string → string := str_map upper_ascii.

(** [len(s)]: the number of code points, i.e. of bytes that do not continue a
    UTF-8 sequence. *)
Fixpoint str_len (s : string) : Z :=
  match s with
  | EmptyString => 0
  | String c s =>
      let n := N_of_ascii c in
      (if ((128 <=? n) && (n <=? 191))%N then 0 else 1) + str_len s
  end.

(** The ASCII white space of [str.strip]. *)
Definition is_space (c : ascii) : bool :=
  let n := N_of_ascii c in
  (((9 <=? n) && (n <=? 13)) || ((28 <=? n) && (n <=? 31)) || (n =? 32))%N.

Fixpoint lstrip (s : string) : string :=
  match s with
  | EmptyString => EmptyString
  | String c s' => if is_space c then lstrip s' else s
  end.

Fixpoint rstrip (s : string) : string :=
  match s with
  | EmptyString => EmptyString
  | String c s' =>
      match rstrip s' with
      | EmptyString => if is_space c then EmptyString else String c EmptyString
      | t => String c t
      end
  end.

Definition str_strip (s : string) : string := rstrip (lstrip s).

Fixpoint spaces (n : nat) : string :=
  match n with O => EmptyString | S n => String " " (spaces n) end.

(** [f"{s:<n}"] *)
Definition ljust (n : nat) (s : string) : string := s +:+ spaces (n - String.length s).

(** [c * n] *)
Fixpoint str_repeat (n : nat) (s : string) : string :=
  match n with O => EmptyString | S n => s +:+ str_repeat n s end.

(** ** Fixed-point formats *)

Fixpoint zeros (n : nat) : string :=
  match n with O => EmptyString | S n => String "0" (zeros n) end.

(** The decimal digits of [z >= 0], padded with zeros to [n] digits. *)
Definition digits (n : nat) (z : Z) : string :=
  let s := str_Z z in zeros (n - String.length s) +:+ s.

(** [|q|] with [n] decimals, ties to even. *)
Definition fixed_abs (n : nat) (q : Q) : string :=
  let p := 10 ^ Z.of_nat n in
  let k := rne (Qabs q * inject_Z p) in
  match n with
  | O => str_Z k
  | _ => str_Z (k / p) +:+ "." +:+ digits n (k mod p)
  end.

Definition sign_of (q : Q) : string := if Qneg q then "-" else "".

(** [f"{x:.nf}"] *)
Definition fmt_fixed (n : nat) (x : float) : string :=
  match x with
  | Fin q => sign_of q +:+ fixed_abs n q
  | Inf s => if s then "-inf" else "inf"
  | NaN => "nan"
  end.

(** [f"{x:.n%}"]: the value times 100 (a float product), then a fixed format. *)
Definition fmt_percent (n : nat) (x : float) : string :=
  fmt_fixed n (fmul x (lit 100)) +:+ "%".

(** Thousands separators for the digits of a non-negative integer. *)
Fixpoint group3 (fuel : nat) (z : Z) : string :=
  match fuel with
  | O => str_Z z
  | S fuel => if z <? 1000 then str_Z z
              else group3 fuel (z / 1000) +:+ "," +:+ digits 3 (z mod 1000)
  end.

(** 110 groups of three digits are more than any binary64 value has. *)
Definition fmt_comma0 (x : float) : string :=
  match x with
  | Fin q => sign_of q +:+ group3 110 (rne (Qabs q))
  | Inf s => if s then "-inf" else "inf"
  | NaN => "nan"
  end.

(** ** [repr]: the shortest decimal that reads back to the same float *)

(** [floor (log10 x)] for [x > 0]: an estimate from the binary logarithm, then
    corrected by one. *)
Definition pow10Q (k : Z) : Q := Qpower 10 k.

Definition ilog10 (x : Q) : Z :=
  let e := (ilog2 x * 30103) / 100000 in
  if Qle_bool (pow10Q (e + 1)) x then e + 1
  else if Qle_bool (pow10Q e) x then e else e - 1.

(** The [n]-digit decimal nearest to [x]: its digits and the power of ten of
    the first one (a carry to [n + 1] digits shifts the exponent). *)
Definition decimal_n (n : nat) (x : Q) : Z * Z :=
  let e := ilog10 x in
  let m := rne (x * pow10Q (Z.of_nat n - 1 - e)) in
  if m =? 10 ^ Z.of_nat n then (10 ^ (Z.of_nat n - 1), e + 1) else (m, e).

Fixpoint shortest_from (k n : nat) (x : Q) : nat * Z * Z :=
  let '(m, e) := decimal_n n x in
  match k with
  | O => (n, m, e)
  | S k => if feqb (fl (inject_Z m * pow10Q (e - (Z.of_nat n - 1)))) (Fin x)
           then (n, m, e) else shortest_from k (S n) x
  end.

Definition repr_pos (x : Q) : string :=
  let '(n, m, e) := shortest_from 16 1 x in
  let ds := str_Z m in
  if (e <? -4) || (16 <=? e) then
    let mant := match n with
                | S O => ds
                | _ => String.substring 0 1 ds +:+ "." +:+ String.substring 1 (n - 1) ds
                end in
    mant +:+ "e" +:+ (if e <? 0 then "-" else "+") +:+ digits 2 (Z.abs e)
  else if e <? 0 then "0." +:+ zeros (Z.to_nat (- e - 1)) +:+ ds
  else
    let ip := Z.to_nat (e + 1) in
    if (n <=? ip)%nat then ds +:+ zeros (ip - n) +:+ ".0"
    else String.substring 0 ip ds +:+ "." +:+ String.substring ip (n - ip) ds.

(** [str(x)] and [repr(x)] of a float. *)
Definition str_float (x : float) : string :=
  match x with
  | Fin q => if Qeq_bool q 0 then "0.0"
             else if Qneg q then "-" +:+ repr_pos (- q) else repr_pos q
  | Inf s => if s then "-inf" else "inf"
  | NaN => "nan"
  end.

(** [str(b)] of a boolean. *)
Definition str_bool (b : bool) : string := if b then "True" else "False".

(** ** Checks against CPython's output *)

Example repr_tenth : str_float (lit 0.1) = "0.1". Proof. vm_compute. reflexivity. Qed.
Example repr_sum : str_float (fadd (lit 0.1) (lit 0.2)) = "0.30000000000000004".
Proof. vm_compute. reflexivity. Qed.
Example repr_forms :
  str_float <$> [lit 45; lit 1e16; lit 1.5e-7; lit 123456.789; lit 1e22; lit 0.0001]
  = ["45.0"; "1e+16"; "1.5e-07"; "123456.789"; "1e+22"; "0.0001"].
Proof. vm_compute. reflexivity. Qed.
Example fixed_forms :
  (fmt_fixed 2 (lit 2.675), fmt_percent 1 (lit 0.9449), fmt_comma0 (lit 1234567.5), fmt_fixed 1 (lit 0.25))
  = ("2.67", "94.5%", "1,234,568", "0.2").
Proof. vm_compute. reflexivity. Qed.

(** ** [repr] of a string and of a list of strings

    Single quotes unless the string holds a single quote and no double quote;
    backslash, the chosen quote and the control characters are escaped.  Bytes of
    a multi-byte UTF-8 sequence are kept (the code point is taken to be
    printable). *)
Definition quote1 : ascii := ascii_of_N 39.
Definition quote2 : ascii := ascii_of_N 34.
Definition backslash : ascii := ascii_of_N 92.

Fixpoint str_has (c : ascii) (s : string) : bool :=
  match s with EmptyString => false | String d s => Ascii.eqb c d || str_has c s end.

Definition hex_digit (n : N) : ascii := ascii_of_N (if (n <? 10)%N then n + 48 else n + 87)%N.

Definition escape_char (q c : ascii) (rest : string) : string :=
  let n := N_of_ascii c in
  if Ascii.eqb c q || Ascii.eqb c backslash then String backslash (String c rest)
  else if (n =? 10)%N then String backslash (String "n" rest)
  else if (n =? 13)%N then String backslash (String "r" rest)
  else if (n =? 9)%N then String backslash (String "t" rest)
  else if ((n <? 32) || (n =? 127))%N
  then String backslash (String "x" (String (hex_digit (n / 16)) (String (hex_digit (n mod 16)) rest)))
  else String c rest.

Fixpoint escape_str (q : ascii) (s : string) : string :=
  match s with EmptyString => EmptyString | String c s => escape_char q c (escape_str q s) end.

Definition str_repr (s : string) : string :=
  let q := if str_has quote1 s && negb (str_has quote2 s) then quote2 else quote1 in
  String q (escape_str q s +:+ String q EmptyString).

Definition list_repr (l : list string) : string := "[" +:+ str_join ", " (str_repr <$> l) +:+ "]".


(** The newline character. *)
Definition newline : string := String (ascii_of_N 10) EmptyString.

(** ** Concatenation *)

Lemma str_length_app a b : String.length (a +:+ b) = (String.length a + String.length b)%nat.
Proof. induction a as [|c a IH]; [done|]. exact (f_equal S IH). Qed.

Lemma str_app_inj a b s t : String.length a = String.length b → a +:+ s = b +:+ t → a = b ∧ s = t.
Proof.
  revert b. induction a as [|c a IH]; intros [|d b] Hl E; try done.
  injection Hl as Hl. injection E as -> E. by destruct (IH b Hl E) as [-> ->].
Qed.
