(* ===== verification/Domain.v ===== *)
(** * domain.py: the data model

    The enumerations with their string values, and the pydantic models as
    records.  A model whose fields carry constraints has a constructor
    [new_X] returning [res X]: it raises a validation error exactly when pydantic
    would refuse the value ([Field(ge=..., le=...)], length bounds, the
    validators of the class).  Identifiers and timestamps the code draws from
    [uuid4()] and [datetime.now] are ordinary fields, given by the caller. *)

From Stdlib Require Import ZArith QArith Lqa.
From S2P Require Import Prelude PyFloat FloatError PyFormat.

Open Scope Z_scope.

(** A timezone-aware or naive [datetime]: microseconds since the epoch. *)
Record datetime := { dt_us : Z; dt_aware : bool }.

#[export] Instance datetime_eq_dec : EqDecision datetime.
Proof. solve_decision. Defined.

(** [(a - b).total_seconds() / 3600.0] on aware datetimes: [total_seconds] is the
    correctly rounded quotient of the microseconds by a million. *)
Definition hours_between (a b : datetime) : res float :=
  s ← int_div (dt_us a - dt_us b) 1000000;
  fdiv s (lit 3600).

#[global] Arguments hours_between : simpl never.

(** [d.isoformat()] of a datetime in UTC (or naive): the proleptic Gregorian
    date from the day number, the microseconds only when they are not zero. *)
Definition civil_from_days (days : Z) : Z * Z * Z :=
  let z := days + 719468 in
  let era := z / 146097 in
  let doe := z mod 146097 in
  let yoe := (doe - doe / 1460 + doe / 36524 - doe / 146096) / 365 in
  let doy := doe - (365 * yoe + yoe / 4 - yoe / 100) in
  let mp := (5 * doy + 2) / 153 in
  let month := if mp <? 10 then mp + 3 else mp - 9 in
  (yoe + era * 400 + (if month <=? 2 then 1 else 0), month, doy - (153 * mp + 2) / 5 + 1).

Definition isoformat (d : datetime) : string :=
  let day := 86400000000 in
  let '(y, m, dd) := civil_from_days (dt_us d / day) in
  let us := dt_us d mod day in
  let seconds := us / 1000000 in
  let micro := us mod 1000000 in
  digits 4 y +:+ "-" +:+ digits 2 m +:+ "-" +:+ digits 2 dd +:+ "T"
  +:+ digits 2 (seconds / 3600) +:+ ":" +:+ digits 2 (seconds / 60 mod 60) +:+ ":" +:+ digits 2 (seconds mod 60)
  +:+ (if micro =? 0 then "" else "." +:+ digits 6 micro)
  +:+ (if dt_aware d then "+00:00" else "").

Example isoformat_leap_day :
  isoformat {| dt_us := 1709210096000250; dt_aware := true |} = "2024-02-29T12:34:56.000250+00:00".
Proof. reflexivity. Qed.

(** The values a [dict[str, Any]] may hold. *)
Inductive pyval :=
| VNone
| VBool (b : bool)
| VInt (z : Z)
| VFloat (x : float)
| VStr (s : string)
| VList (l : list pyval)
| VDict (d : list (string * pyval)).

Inductive SourceTrust :=
| ST_AUTHORITATIVE_PUBLIC
| ST_OPEN_CONTEXT
| ST_AUTHENTICATED_OPERATOR
| ST_ANALYST_ASSESSMENT.

Definition SourceTrust_value (x : SourceTrust) : string :=
  match x with
  | ST_AUTHORITATIVE_PUBLIC => "authoritative_public"
  | ST_OPEN_CONTEXT => "open_context"
  | ST_AUTHENTICATED_OPERATOR => "authenticated_operator"
  | ST_ANALYST_ASSESSMENT => "analyst_assessment"
  end.

#[export] Instance SourceTrust_eq_dec : EqDecision SourceTrust.
Proof. solve_decision. Defined.

Inductive AssertionClass :=
| AC_GEOLOCATION
| AC_CLIMATE
| AC_ICE
| AC_WEATHER
| AC_EARTH_OBSERVATION
| AC_ORBITAL_GEOMETRY
| AC_TRAFFIC_HISTORY
| AC_TRADE_EXPOSURE
| AC_POLICY_CONTEXT
| AC_GEOPOLITICAL_CONTEXT
| AC_LIVE_CAPACITY
| AC_LIVE_AVAILABILITY
| AC_CYBER_HEALTH
| AC_INSURANCE_ACCESS
| AC_HUMAN_INTELLIGENCE
| AC_DISASTER_RESPONSE
| AC_TACTICAL_SURVEILLANCE
| AC_COUNTER_UAS
| AC_LEO_SATCOM
| AC_SUPPLY_CHAIN_INTELLIGENCE
| AC_STRATEGIC_MINERALS
| AC_RAIL_LOGISTICS
| AC_COUNTER_INTELLIGENCE
| AC_PERMAFROST_INTEGRITY
| AC_WILDFIRE_THREAT
| AC_SUBSEA_INFRASTRUCTURE
| AC_EMCON_SURVEILLANCE.

Definition AssertionClass_value (x : AssertionClass) : string :=
  match x with
  | AC_GEOLOCATION => "geolocation"
  | AC_CLIMATE => "climate"
  | AC_ICE => "ice"
  | AC_WEATHER => "weather"
  | AC_EARTH_OBSERVATION => "earth_observation"
  | AC_ORBITAL_GEOMETRY => "orbital_geometry"
  | AC_TRAFFIC_HISTORY => "traffic_history"
  | AC_TRADE_EXPOSURE => "trade_exposure"
  | AC_POLICY_CONTEXT => "policy_context"
  | AC_GEOPOLITICAL_CONTEXT => "geopolitical_context"
  | AC_LIVE_CAPACITY => "live_capacity"
  | AC_LIVE_AVAILABILITY => "live_availability"
  | AC_CYBER_HEALTH => "cyber_health"
  | AC_INSURANCE_ACCESS => "insurance_access"
  | AC_HUMAN_INTELLIGENCE => "human_intelligence"
  | AC_DISASTER_RESPONSE => "disaster_response"
  | AC_TACTICAL_SURVEILLANCE => "tactical_surveillance"
  | AC_COUNTER_UAS => "counter_uas"
  | AC_LEO_SATCOM => "leo_satcom"
  | AC_SUPPLY_CHAIN_INTELLIGENCE => "supply_chain_intelligence"
  | AC_STRATEGIC_MINERALS => "strategic_minerals"
  | AC_RAIL_LOGISTICS => "rail_logistics"
  | AC_COUNTER_INTELLIGENCE => "counter_intelligence"
  | AC_PERMAFROST_INTEGRITY => "permafrost_integrity"
  | AC_WILDFIRE_THREAT => "wildfire_threat"
  | AC_SUBSEA_INFRASTRUCTURE => "subsea_infrastructure"
  | AC_EMCON_SURVEILLANCE => "emcon_surveillance"
  end.

#[export] Instance AssertionClass_eq_dec : EqDecision AssertionClass.
Proof. solve_decision. Defined.

Inductive MetricName :=
| M_SEA_ICE_CONCENTRATION
| M_SEA_ICE_EXTENT_ANOMALY
| M_EARTH_OBSERVATION_COVERAGE
| M_WIND_SEVERITY
| M_WAVE_SEVERITY
| M_PORT_GEOMETRY
| M_PORT_CAPACITY
| M_PORT_AVAILABILITY
| M_AIS_TRAFFIC_INDEX
| M_TRADE_DEPENDENCY
| M_SATELLITE_GEOMETRY_DENSITY
| M_SATCOM_AVAILABILITY
| M_CYBER_CONTROL_HEALTH
| M_DATA_INTEGRITY
| M_INSURANCE_AVAILABILITY
| M_GEOPOLITICAL_PRESSURE
| M_ESCORT_CAPACITY
| M_INVENTORY_DAYS
| M_WEATHER_ALERT_ACTIVITY
| M_DISASTER_EVENT_ACTIVITY
| M_CASUALTY_COUNT
| M_INJURED_COUNT
| M_EVACUATION_COUNT
| M_UTILITY_IMPACT_COUNT
| M_WATER_LEVEL
| M_UAV_LINK_MARGIN
| M_UAV_SWARM_COHESION
| M_STARLINK_LATENCY_MS
| M_STARLINK_DOWNLINK_MBPS
| M_STARLINK_OBSTRUCTION_RATE
| M_CUAS_THREAT_DENSITY
| M_CUAS_JAMMING_ACTIVE
| M_RAIL_NETWORK_FLUIDITY
| M_MINERAL_RESERVE_DAYS
| M_REFINERY_CAPACITY_UTILIZATION
| M_BORDER_CROSSING_DELAY_HOURS
| M_DEMURRAGE_RISK_INDEX
| M_LOCK_OPERATIONAL_STATUS
| M_PERMAFROST_THAW_DEPTH_CM
| M_WILDFIRE_INDEX_FWI
| M_DARK_VESSEL_PROXIMITY_KM
| M_SAR_SATELLITE_EXPOSURE_INDEX
| M_ACOUSTIC_ANOMALY_LEVEL
| M_SEABED_CABLE_INTEGRITY
| M_EMCON_COMPLIANCE_SCORE.

Definition MetricName_value (x : MetricName) : string :=
  match x with
  | M_SEA_ICE_CONCENTRATION => "sea_ice_concentration"
  | M_SEA_ICE_EXTENT_ANOMALY => "sea_ice_extent_anomaly"
  | M_EARTH_OBSERVATION_COVERAGE => "earth_observation_coverage"
  | M_WIND_SEVERITY => "wind_severity"
  | M_WAVE_SEVERITY => "wave_severity"
  | M_PORT_GEOMETRY => "port_geometry"
  | M_PORT_CAPACITY => "port_capacity"
  | M_PORT_AVAILABILITY => "port_availability"
  | M_AIS_TRAFFIC_INDEX => "ais_traffic_index"
  | M_TRADE_DEPENDENCY => "trade_dependency"
  | M_SATELLITE_GEOMETRY_DENSITY => "satellite_geometry_density"
  | M_SATCOM_AVAILABILITY => "satcom_availability"
  | M_CYBER_CONTROL_HEALTH => "cyber_control_health"
  | M_DATA_INTEGRITY => "data_integrity"
  | M_INSURANCE_AVAILABILITY => "insurance_availability"
  | M_GEOPOLITICAL_PRESSURE => "geopolitical_pressure"
  | M_ESCORT_CAPACITY => "escort_capacity"
  | M_INVENTORY_DAYS => "inventory_days"
  | M_WEATHER_ALERT_ACTIVITY => "weather_alert_activity"
  | M_DISASTER_EVENT_ACTIVITY => "disaster_event_activity"
  | M_CASUALTY_COUNT => "casualty_count"
  | M_INJURED_COUNT => "injured_count"
  | M_EVACUATION_COUNT => "evacuation_count"
  | M_UTILITY_IMPACT_COUNT => "utility_impact_count"
  | M_WATER_LEVEL => "water_level"
  | M_UAV_LINK_MARGIN => "uav_link_margin"
  | M_UAV_SWARM_COHESION => "uav_swarm_cohesion"
  | M_STARLINK_LATENCY_MS => "starlink_latency_ms"
  | M_STARLINK_DOWNLINK_MBPS => "starlink_downlink_mbps"
  | M_STARLINK_OBSTRUCTION_RATE => "starlink_obstruction_rate"
  | M_CUAS_THREAT_DENSITY => "cuas_threat_density"
  | M_CUAS_JAMMING_ACTIVE => "cuas_jamming_active"
  | M_RAIL_NETWORK_FLUIDITY => "rail_network_fluidity"
  | M_MINERAL_RESERVE_DAYS => "mineral_reserve_days"
  | M_REFINERY_CAPACITY_UTILIZATION => "refinery_capacity_utilization"
  | M_BORDER_CROSSING_DELAY_HOURS => "border_crossing_delay_hours"
  | M_DEMURRAGE_RISK_INDEX => "demurrage_risk_index"
  | M_LOCK_OPERATIONAL_STATUS => "lock_operational_status"
  | M_PERMAFROST_THAW_DEPTH_CM => "permafrost_thaw_depth_cm"
  | M_WILDFIRE_INDEX_FWI => "wildfire_index_fwi"
  | M_DARK_VESSEL_PROXIMITY_KM => "dark_vessel_proximity_km"
  | M_SAR_SATELLITE_EXPOSURE_INDEX => "sar_satellite_exposure_index"
  | M_ACOUSTIC_ANOMALY_LEVEL => "acoustic_anomaly_level"
  | M_SEABED_CABLE_INTEGRITY => "seabed_cable_integrity"
  | M_EMCON_COMPLIANCE_SCORE => "emcon_compliance_score"
  end.

#[export] Instance MetricName_eq_dec : EqDecision MetricName.
Proof. solve_decision. Defined.

Record GeoPoint := { latitude : float; longitude : float }.

Record Provenance := {
  prov_uri : string;
  prov_retrieved_at : datetime;
  prov_content_sha256 : string;
  prov_snapshot_id : option string;
  prov_licence : option string
}.

Record Observation := {
  obs_observation_id : string;
  obs_source_id : string;
  obs_source_trust : SourceTrust;
  obs_assertion_class : AssertionClass;
  obs_metric : MetricName;
  obs_value : float;
  obs_unit : string;
  obs_observed_at : datetime;
  obs_valid_until : option datetime;
  obs_location : option GeoPoint;
  obs_confidence : float;
  obs_provenance : Provenance;
  obs_metadata : dict string pyval
}.

Definition in_unit (x : float) : bool := (f0 <=? x)%F && (x <=? f1)%F.

(** [ensure_timezone] (a field validator of [observed_at] and [valid_until]). *)
Definition ensure_timezone (value : option datetime) : res (option datetime) :=
  match value with
  | Some d => if negb (dt_aware d) then Raise (ValidationError "timestamps must be timezone-aware")
              else Ok value
  | None => Ok value
  end.

Definition ratio_metrics : list MetricName :=
  [M_WIND_SEVERITY; M_WAVE_SEVERITY; M_PORT_CAPACITY; M_PORT_AVAILABILITY; M_AIS_TRAFFIC_INDEX;
   M_TRADE_DEPENDENCY; M_SATCOM_AVAILABILITY; M_CYBER_CONTROL_HEALTH; M_DATA_INTEGRITY;
   M_INSURANCE_AVAILABILITY; M_GEOPOLITICAL_PRESSURE; M_ESCORT_CAPACITY; M_UAV_SWARM_COHESION;
   M_STARLINK_OBSTRUCTION_RATE; M_CUAS_THREAT_DENSITY; M_CUAS_JAMMING_ACTIVE; M_RAIL_NETWORK_FLUIDITY;
   M_REFINERY_CAPACITY_UTILIZATION; M_DEMURRAGE_RISK_INDEX; M_LOCK_OPERATIONAL_STATUS;
   M_SAR_SATELLITE_EXPOSURE_INDEX; M_ACOUSTIC_ANOMALY_LEVEL; M_SEABED_CABLE_INTEGRITY;
   M_EMCON_COMPLIANCE_SCORE].

Definition non_negative_metrics : list MetricName :=
  [M_SATELLITE_GEOMETRY_DENSITY; M_EARTH_OBSERVATION_COVERAGE; M_PORT_GEOMETRY; M_UAV_LINK_MARGIN;
   M_STARLINK_LATENCY_MS; M_STARLINK_DOWNLINK_MBPS; M_BORDER_CROSSING_DELAY_HOURS;
   M_PERMAFROST_THAW_DEPTH_CM; M_WILDFIRE_INDEX_FWI; M_DARK_VESSEL_PROXIMITY_KM].

Definition mem_metric (m : MetricName) (l : list MetricName) : bool := bool_decide (m ∈ l).

(** [Observation.validate_metric_value], the model validator, check by check. *)
Definition validate_metric_value (o : Observation) : res Observation :=
  let m := obs_metric o in
  let v := obs_value o in
  _ ← require (isfinite v) "observation value must be finite";
  _ ← require (negb (mem_metric m ratio_metrics && negb (in_unit v)))
        (MetricName_value m +:+ " must be normalized to [0, 1]");
  _ ← (if decide (m = M_SEA_ICE_CONCENTRATION) then
         let pct := mem_str (str_lower (obs_unit o)) ["percent"; "%"] in
         let upper := if pct then lit 100 else f1 in
         require ((f0 <=? v)%F && (v <=? upper)%F)
           ("sea-ice concentration outside [0, " +:+ (if pct then "100" else "1") +:+ "]")
       else Ok tt);
  _ ← require (negb (mem_metric m [M_INVENTORY_DAYS; M_MINERAL_RESERVE_DAYS]
                     && negb ((f0 <=? v)%F && (v <=? lit 3650)%F)))
        (MetricName_value m +:+ " outside supported range");
  _ ← require (negb (mem_metric m non_negative_metrics && (v <? f0)%F))
        (MetricName_value m +:+ " cannot be negative");
  _ ← require (match obs_valid_until o with
               | Some d => negb (dt_us d <? dt_us (obs_observed_at o))
               | None => true
               end) "valid_until cannot precede observed_at";
  Ok o.

(** The class [Observation]: field constraints, then the validators. *)
Definition new_Observation (o : Observation) : res Observation :=
  _ ← require ((2 <=? str_len (obs_source_id o)) && (str_len (obs_source_id o) <=? 128)) "source_id";
  _ ← require ((1 <=? str_len (obs_unit o)) && (str_len (obs_unit o) <=? 32)) "unit";
  _ ← ensure_timezone (Some (obs_observed_at o));
  _ ← ensure_timezone (obs_valid_until o);
  _ ← require (in_unit (obs_confidence o)) "confidence";
  validate_metric_value o.

Inductive CorridorFactor :=
| CF_ICE
| CF_WEATHER
| CF_TRAFFIC
| CF_PORT
| CF_COMMUNICATIONS
| CF_CYBER
| CF_DATA_TRUST
| CF_COMMERCIAL
| CF_GEOPOLITICAL
| CF_ESCORT
| CF_INVENTORY.

Definition CorridorFactor_value (x : CorridorFactor) : string :=
  match x with
  | CF_ICE => "ice"
  | CF_WEATHER => "weather"
  | CF_TRAFFIC => "traffic"
  | CF_PORT => "port"
  | CF_COMMUNICATIONS => "communications"
  | CF_CYBER => "cyber"
  | CF_DATA_TRUST => "data_trust"
  | CF_COMMERCIAL => "commercial"
  | CF_GEOPOLITICAL => "geopolitical"
  | CF_ESCORT => "escort"
  | CF_INVENTORY => "inventory"
  end.

#[export] Instance CorridorFactor_eq_dec : EqDecision CorridorFactor.
Proof. solve_decision. Defined.

(** The members in declaration order ([for x in CorridorFactor]). *)
Definition CorridorFactor_all : list CorridorFactor :=
  [CF_ICE; CF_WEATHER; CF_TRAFFIC; CF_PORT; CF_COMMUNICATIONS; CF_CYBER;
   CF_DATA_TRUST; CF_COMMERCIAL; CF_GEOPOLITICAL; CF_ESCORT; CF_INVENTORY].

Record FactorAssessment := {
  fa_factor : CorridorFactor;
  fa_risk : float;
  fa_confidence : float;
  fa_evidence_ids : list string;
  fa_rationale : string
}.

Definition new_FactorAssessment (factor : CorridorFactor) (risk confidence : float)
    (evidence_ids : list string) (rationale : string) : res FactorAssessment :=
  _ ← require (is_score risk) "risk";
  _ ← require (is_score confidence) "confidence";
  Ok {| fa_factor := factor; fa_risk := risk; fa_confidence := confidence;
        fa_evidence_ids := evidence_ids; fa_rationale := rationale |}.

(** [DEGRADED] is an alias of [OPEN_DEGRADED]. *)
Inductive CorridorState :=
| CS_OPEN
| CS_OPEN_DEGRADED
| CS_OPEN_CAPACITY_CONSTRAINED
| CS_OPEN_BUT_UNINSURABLE
| CS_OPEN_BUT_NO_CARRIER_CAPACITY
| CS_OPEN_BUT_NAVIGATION_UNTRUSTED
| CS_OPEN_BUT_COMMUNICATIONS_DEGRADED
| CS_OPEN_BUT_SERVICE_DEPENDENT
| CS_RECOVERY_BACKLOGGED
| CS_FUNCTIONALLY_CLOSED
| CS_PHYSICALLY_CLOSED
| CS_UNKNOWN.

Definition CorridorState_value (x : CorridorState) : string :=
  match x with
  | CS_OPEN => "open"
  | CS_OPEN_DEGRADED => "open_degraded"
  | CS_OPEN_CAPACITY_CONSTRAINED => "open_capacity_constrained"
  | CS_OPEN_BUT_UNINSURABLE => "open_but_uninsurable"
  | CS_OPEN_BUT_NO_CARRIER_CAPACITY => "open_but_no_carrier_capacity"
  | CS_OPEN_BUT_NAVIGATION_UNTRUSTED => "open_but_navigation_untrusted"
  | CS_OPEN_BUT_COMMUNICATIONS_DEGRADED => "open_but_communications_degraded"
  | CS_OPEN_BUT_SERVICE_DEPENDENT => "open_but_service_dependent"
  | CS_RECOVERY_BACKLOGGED => "recovery_backlogged"
  | CS_FUNCTIONALLY_CLOSED => "functionally_closed"
  | CS_PHYSICALLY_CLOSED => "physically_closed"
  | CS_UNKNOWN => "unknown"
  end.

#[export] Instance CorridorState_eq_dec : EqDecision CorridorState.
Proof. solve_decision. Defined.

(** The members in declaration order ([for x in CorridorState]). *)
Definition CorridorState_all : list CorridorState :=
  [CS_OPEN; CS_OPEN_DEGRADED; CS_OPEN_CAPACITY_CONSTRAINED;
   CS_OPEN_BUT_UNINSURABLE; CS_OPEN_BUT_NO_CARRIER_CAPACITY;
   CS_OPEN_BUT_NAVIGATION_UNTRUSTED; CS_OPEN_BUT_COMMUNICATIONS_DEGRADED;
   CS_OPEN_BUT_SERVICE_DEPENDENT; CS_RECOVERY_BACKLOGGED;
   CS_FUNCTIONALLY_CLOSED; CS_PHYSICALLY_CLOSED; CS_UNKNOWN].

(** [CorridorState.from_str] on a string. *)
Definition CorridorState_from_str (val : string) : CorridorState :=
  let s := str_lower val in
  if str_eqb s "degraded" then CS_OPEN_DEGRADED
  else match filter (λ item, CorridorState_value item = s) CorridorState_all with
       | item :: _ => item
       | [] => CS_UNKNOWN
       end.

Record CorridorAssessment := {
  ca_assessment_id : string;
  ca_corridor_id : string;
  ca_generated_at : datetime;
  ca_overall_risk : float;
  ca_confidence : float;
  ca_state : CorridorState;
  ca_factors : list FactorAssessment;
  ca_missing_required_metrics : list MetricName;
  ca_caveats : list string
}.

Definition new_CorridorAssessment (a : CorridorAssessment) : res CorridorAssessment :=
  _ ← require (is_score (ca_overall_risk a)) "overall_risk";
  _ ← require (is_score (ca_confidence a)) "confidence";
  Ok a.

Record ContinuityObjective := {
  co_minimum_continuity : float;
  co_maximum_shortage_days : Z;
  co_maximum_recovery_days : Z;
  co_budget : float;
  co_human_approval_required : bool
}.

(** The constraints of the class [ContinuityObjective]. *)
Definition ContinuityObjective_valid (o : ContinuityObjective) : bool :=
  is_score (co_minimum_continuity o)
  && (0 <=? co_maximum_shortage_days o) && (co_maximum_shortage_days o <=? 365)
  && (1 <=? co_maximum_recovery_days o) && (co_maximum_recovery_days o <=? 730)
  && (f0 <? co_budget o)%F.

Record MitigationAction := {
  ma_action_id : string;
  ma_name : string;
  ma_cost : float;
  ma_continuity_gain : float;
  ma_risk_reductions : dict CorridorFactor float;
  ma_prerequisites : list string;
  ma_incompatible_with : list string;
  ma_lead_time_hours : Z;
  ma_requires_human_approval : bool;
  ma_rationale : string
}.

(** The constraints of the class [MitigationAction]. *)
Definition MitigationAction_valid (a : MitigationAction) : bool :=
  (f0 <=? ma_cost a)%F && is_score (ma_continuity_gain a)
  && forallb (λ kv, is_score kv.2) (ma_risk_reductions a) && (0 <=? ma_lead_time_hours a).

Record CompileRequest := {
  cr_assessment : CorridorAssessment;
  cr_objective : ContinuityObjective;
  cr_available_actions : list MitigationAction
}.

Record CompiledPlan := {
  cp_plan_id : string;
  cp_assessment_id : string;
  cp_selected_actions : list MitigationAction;
  cp_total_cost : float;
  cp_projected_continuity : float;
  cp_projected_risk : float;
  cp_objective_met : bool;
  cp_deterministic_solver : string;
  cp_approval_required : bool;
  cp_rejected_reason : option string
}.

Definition new_CompiledPlan (p : CompiledPlan) : res CompiledPlan :=
  _ ← require (is_score (cp_projected_continuity p)) "projected_continuity";
  _ ← require (is_score (cp_projected_risk p)) "projected_risk";
  Ok p.

Inductive DataClassification :=
| DC_PUBLIC
| DC_INTERNAL
| DC_UNCLASSIFIED
| DC_PROTECTED_A
| DC_PROTECTED_B
| DC_PROTECTED_C
| DC_RESTRICTED
| DC_CONFIDENTIAL
| DC_SECRET
| DC_TOP_SECRET
| DC_COSMIC_TOP_SECRET.

Definition DataClassification_value (x : DataClassification) : string :=
  match x with
  | DC_PUBLIC => "public"
  | DC_INTERNAL => "internal"
  | DC_UNCLASSIFIED => "unclassified"
  | DC_PROTECTED_A => "protected_a"
  | DC_PROTECTED_B => "protected_b"
  | DC_PROTECTED_C => "protected_c"
  | DC_RESTRICTED => "restricted"
  | DC_CONFIDENTIAL => "confidential"
  | DC_SECRET => "secret"
  | DC_TOP_SECRET => "top_secret"
  | DC_COSMIC_TOP_SECRET => "cosmic_top_secret"
  end.

#[export] Instance DataClassification_eq_dec : EqDecision DataClassification.
Proof. solve_decision. Defined.

(** [DataClassification.level] *)
Definition level (c : DataClassification) : Z :=
  match c with
  | DC_PUBLIC => 0
  | DC_UNCLASSIFIED => 0
  | DC_INTERNAL => 1
  | DC_PROTECTED_A => 1
  | DC_PROTECTED_B => 2
  | DC_RESTRICTED => 2
  | DC_PROTECTED_C => 3
  | DC_CONFIDENTIAL => 3
  | DC_SECRET => 4
  | DC_TOP_SECRET => 5
  | DC_COSMIC_TOP_SECRET => 6
  end.

Inductive PhysicalStateEnum :=
| PS_OPEN
| PS_CAPACITY_CONSTRAINED
| PS_PHYSICALLY_CLOSED
| PS_UNKNOWN.

Definition PhysicalStateEnum_value (x : PhysicalStateEnum) : string :=
  match x with
  | PS_OPEN => "open"
  | PS_CAPACITY_CONSTRAINED => "capacity_constrained"
  | PS_PHYSICALLY_CLOSED => "physically_closed"
  | PS_UNKNOWN => "unknown"
  end.

#[export] Instance PhysicalStateEnum_eq_dec : EqDecision PhysicalStateEnum.
Proof. solve_decision. Defined.

Record OperationalState := {
  os_navigation : string;
  os_communications : string;
  os_escort_service : string;
  os_weather_clearance : string
}.

Record CommercialState := {
  cms_carrier_capacity : string;
  cms_insurance : string;
  cms_commercial_viability : float
}.

Record DigitalTrustState := {
  dts_navigation_integrity : float;
  dts_communications_integrity : float;
  dts_cyber_integrity : float;
  dts_data_integrity : float
}.

Inductive RecoveryStateEnum :=
| RS_NORMAL
| RS_INCIDENT_T0
| RS_PHYSICAL_REOPENED_T1
| RS_COMMERCIAL_NORMALIZED_T2
| RS_LOGISTICS_NORMALIZED_T3
| RS_INVENTORY_REPLENISHED_T4
| RS_FULL_RESTORATION_T5
| RS_BACKLOG_ACTIVE.

Definition RecoveryStateEnum_value (x : RecoveryStateEnum) : string :=
  match x with
  | RS_NORMAL => "normal"
  | RS_INCIDENT_T0 => "incident_t0"
  | RS_PHYSICAL_REOPENED_T1 => "physical_reopened_t1"
  | RS_COMMERCIAL_NORMALIZED_T2 => "commercial_normalized_t2"
  | RS_LOGISTICS_NORMALIZED_T3 => "logistics_normalized_t3"
  | RS_INVENTORY_REPLENISHED_T4 => "inventory_replenished_t4"
  | RS_FULL_RESTORATION_T5 => "full_restoration_t5"
  | RS_BACKLOG_ACTIVE => "backlog_active"
  end.

#[export] Instance RecoveryStateEnum_eq_dec : EqDecision RecoveryStateEnum.
Proof. solve_decision. Defined.

Record RecoveryState := {
  rst_phase : RecoveryStateEnum;
  rst_backlog_active : bool;
  rst_days_elapsed : Z;
  rst_estimated_full_restoration_days : Z
}.

Record EffectiveCorridorState := {
  ecs_physical_state : PhysicalStateEnum;
  ecs_operational_state : OperationalState;
  ecs_commercial_state : CommercialState;
  ecs_digital_trust_state : DigitalTrustState;
  ecs_recovery_state : RecoveryState;
  ecs_effective_state : CorridorState;
  ecs_reason_codes : list string
}.

(** ** Lemmas *)

Lemma CorridorState_all_complete s : s ∈ CorridorState_all.
Proof. destruct s; cbn; set_solver. Qed.

Lemma CorridorFactor_all_complete f : f ∈ CorridorFactor_all.
Proof. destruct f; cbn; set_solver. Qed.

Lemma new_FactorAssessment_ok f r c ids t a :
  new_FactorAssessment f r c ids t = Ok a →
  is_score (fa_risk a) = true ∧ is_score (fa_confidence a) = true ∧ fa_factor a = f ∧ fa_evidence_ids a = ids.
Proof. unfold new_FactorAssessment. intros H. inv_ok. done. Qed.


(** ** Ages of instants of the calendar *)

(** Years 1 to 9999, the range of [datetime]. *)
Definition calendar (d : datetime) : Prop := - 2 ^ 60 ≤ dt_us d ≤ 2 ^ 60.

Lemma hours_between_calendar a b : calendar a → calendar b → ∃ h, hours_between a b = Ok h.
Proof.
  unfold calendar. intros Ha Hb. unfold hours_between, int_div. cbn [Z.eqb].
  set (z := dt_us a - dt_us b).
  assert (- 2 ^ 61 ≤ z ≤ 2 ^ 61) as [Hz1 Hz2] by (unfold z; lia). rewrite Zle_Qle in Hz1, Hz2.
  assert (- pow2 61 <= inject_Z z / inject_Z 1000000 ∧ inject_Z z / inject_Z 1000000 <= pow2 61)%Q as [B1 B2].
  { rewrite pow2_Z by lia. change (inject_Z (- 2 ^ 61)) with (- inject_Z (2 ^ 61))%Q in Hz1.
    change (inject_Z 1000000) with 1000000%Q. change (inject_Z (2 ^ 61)) with 2305843009213693952%Q in *.
    split; [apply Qle_shift_div_l|apply Qle_shift_div_r]; lra. }
  destruct (fl_near 61 _ ltac:(lia) B1 B2) as (s & -> & _). cbn [mbind res_bind].
  change (lit 3600) with (Fin 3600). by eexists.
Qed.
