(* ===== verification/Sources.v ===== *)
(** * sources/registry.py and sources/policy.py: what a source may assert

    [SOURCES] is the registry, entry by entry; [validate_observation_source]
    is the gate every observation passes before it is fused. *)

From Stdlib Require Import ZArith QArith.
From S2P Require Import Prelude PyFloat PyFormat Domain.

Record SourceDefinition := {
  sd_source_id : string;
  sd_name : string;
  sd_base_url : string;
  sd_trust : SourceTrust;
  sd_allowed_assertions : list AssertionClass;
  sd_licence : string;
  sd_notes : string;
  sd_access : string;
  sd_api_key_required : bool;
  sd_cadence : string
}.

Definition SOURCES : dict string SourceDefinition :=
  [
   ("nsidc-sea-ice-index",
    {| sd_source_id := "nsidc-sea-ice-index";
       sd_name := "NOAA@NSIDC Sea Ice Index v4";
       sd_base_url := "https://noaadata.apps.nsidc.org/NOAA/G02135/";
       sd_trust := ST_AUTHORITATIVE_PUBLIC;
       sd_allowed_assertions := [AC_CLIMATE; AC_ICE];
       sd_licence := "US government data; verify dataset terms and attribution";
       sd_notes := "Climate and sea-ice context only; not a navigation product.";
       sd_access := "public_http";
       sd_api_key_required := false;
       sd_cadence := "source-defined" |});
   ("eccc-geomet",
    {| sd_source_id := "eccc-geomet";
       sd_name := "Meteorological Service of Canada GeoMet OGC API";
       sd_base_url := "https://api.weather.gc.ca/";
       sd_trust := ST_AUTHORITATIVE_PUBLIC;
       sd_allowed_assertions := [AC_CLIMATE; AC_ICE; AC_WEATHER];
       sd_licence := "Government of Canada Open Government Licence";
       sd_notes := "Use product-specific metadata and validity windows.";
       sd_access := "public_http";
       sd_api_key_required := false;
       sd_cadence := "source-defined" |});
   ("copernicus-cdse-stac",
    {| sd_source_id := "copernicus-cdse-stac";
       sd_name := "Copernicus Data Space Ecosystem STAC";
       sd_base_url := "https://stac.dataspace.copernicus.eu/v1/";
       sd_trust := ST_AUTHORITATIVE_PUBLIC;
       sd_allowed_assertions := [AC_EARTH_OBSERVATION; AC_GEOLOCATION];
       sd_licence := "Copernicus data terms; product-specific attribution required";
       sd_notes := "Imagery metadata is evidence context; derived claims require validated processing.";
       sd_access := "public_http";
       sd_api_key_required := false;
       sd_cadence := "source-defined" |});
   ("ecmwf-open-data",
    {| sd_source_id := "ecmwf-open-data";
       sd_name := "ECMWF Open Data";
       sd_base_url := "https://data.ecmwf.int/forecasts/";
       sd_trust := ST_AUTHORITATIVE_PUBLIC;
       sd_allowed_assertions := [AC_WEATHER; AC_CLIMATE];
       sd_licence := "CC BY 4.0 for open catalogue products";
       sd_notes := "GRIB decoding is optional and must preserve model run and step metadata.";
       sd_access := "public_http";
       sd_api_key_required := false;
       sd_cadence := "source-defined" |});
   ("celestrak-gp",
    {| sd_source_id := "celestrak-gp";
       sd_name := "CelesTrak General Perturbations Data";
       sd_base_url := "https://celestrak.org/NORAD/elements/gp.php";
       sd_trust := ST_OPEN_CONTEXT;
       sd_allowed_assertions := [AC_ORBITAL_GEOMETRY];
       sd_licence := "CelesTrak usage policy";
       sd_notes := "Orbital elements do not prove communications service availability or capacity.";
       sd_access := "public_http";
       sd_api_key_required := false;
       sd_cadence := "source-defined" |});
   ("nga-world-port-index",
    {| sd_source_id := "nga-world-port-index";
       sd_name := "NGA World Port Index";
       sd_base_url := "https://msi.nga.mil/Publications/WPI";
       sd_trust := ST_AUTHORITATIVE_PUBLIC;
       sd_allowed_assertions := [AC_GEOLOCATION];
       sd_licence := "US public-domain source data";
       sd_notes := "Port presence and published characteristics do not prove current capacity or availability.";
       sd_access := "public_http";
       sd_api_key_required := false;
       sd_cadence := "source-defined" |});
   ("marinecadastre-ais",
    {| sd_source_id := "marinecadastre-ais";
       sd_name := "MarineCadastre.gov AIS";
       sd_base_url := "https://marinecadastre.gov/ais/";
       sd_trust := ST_AUTHORITATIVE_PUBLIC;
       sd_allowed_assertions := [AC_TRAFFIC_HISTORY];
       sd_licence := "US government data; dataset-specific terms";
       sd_notes := "Historical AIS has coverage, reception, spoofing and reporting limitations.";
       sd_access := "public_http";
       sd_api_key_required := false;
       sd_cadence := "source-defined" |});
   ("un-comtrade",
    {| sd_source_id := "un-comtrade";
       sd_name := "United Nations Comtrade";
       sd_base_url := "https://comtradeapi.un.org/";
       sd_trust := ST_AUTHORITATIVE_PUBLIC;
       sd_allowed_assertions := [AC_TRADE_EXPOSURE];
       sd_licence := "UN Comtrade terms of use";
       sd_notes := "Trade exposure is reported data and may lag current operational conditions.";
       sd_access := "public_http";
       sd_api_key_required := false;
       sd_cadence := "source-defined" |});
   ("statcan-wds",
    {| sd_source_id := "statcan-wds";
       sd_name := "Statistics Canada Web Data Service / SDMX";
       sd_base_url := "https://www.statcan.gc.ca/en/developers/wds";
       sd_trust := ST_AUTHORITATIVE_PUBLIC;
       sd_allowed_assertions := [AC_TRADE_EXPOSURE; AC_CLIMATE];
       sd_licence := "Statistics Canada terms and Open Government Licence where applicable";
       sd_notes := "Business-day statistical releases; preserve table/vector metadata and reporting lag.";
       sd_access := "public_http";
       sd_api_key_required := false;
       sd_cadence := "business-day releases" |});
   ("noaa-coops",
    {| sd_source_id := "noaa-coops";
       sd_name := "NOAA CO-OPS water levels, tides, currents and meteorology";
       sd_base_url := "https://api.tidesandcurrents.noaa.gov/api/prod/";
       sd_trust := ST_AUTHORITATIVE_PUBLIC;
       sd_allowed_assertions := [AC_WEATHER; AC_CLIMATE];
       sd_licence := "NOAA public data; product-specific attribution and datum requirements";
       sd_notes := "Water-level observations and predictions require station, datum, product and verification metadata.";
       sd_access := "public_http";
       sd_api_key_required := false;
       sd_cadence := "minute-to-daily products" |});
   ("usgs-water",
    {| sd_source_id := "usgs-water";
       sd_name := "USGS Water Data OGC APIs";
       sd_base_url := "https://api.waterdata.usgs.gov/ogcapi/v0/";
       sd_trust := ST_AUTHORITATIVE_PUBLIC;
       sd_allowed_assertions := [AC_CLIMATE; AC_WEATHER];
       sd_licence := "USGS public data; API terms and source attribution";
       sd_notes := "Keyless low-volume access is possible; higher limits use a free api.data.gov key. Some OGC services are alpha.";
       sd_access := "public_http";
       sd_api_key_required := false;
       sd_cadence := "continuous and daily collections" |});
   ("nasa-firms",
    {| sd_source_id := "nasa-firms";
       sd_name := "NASA FIRMS active fire observations";
       sd_base_url := "https://firms.modaps.eosdis.nasa.gov/api/";
       sd_trust := ST_AUTHORITATIVE_PUBLIC;
       sd_allowed_assertions := [AC_EARTH_OBSERVATION; AC_CLIMATE];
       sd_licence := "NASA FIRMS terms; free MAP_KEY required";
       sd_notes := "Fire hotspots are alerts/context and require coverage, confidence and field/authority corroboration.";
       sd_access := "public_http";
       sd_api_key_required := true;
       sd_cadence := "near-real-time and historical" |});
   ("noaa-swpc",
    {| sd_source_id := "noaa-swpc";
       sd_name := "NOAA Space Weather Prediction Center public products";
       sd_base_url := "https://www.swpc.noaa.gov/products/";
       sd_trust := ST_AUTHORITATIVE_PUBLIC;
       sd_allowed_assertions := [AC_WEATHER; AC_CLIMATE];
       sd_licence := "NOAA public products; product-specific terms";
       sd_notes := "Space-weather context only; does not prove a satellite or communications outage.";
       sd_access := "public_http";
       sd_api_key_required := false;
       sd_cadence := "near-real-time products and forecasts" |});
   ("gdacs",
    {| sd_source_id := "gdacs";
       sd_name := "Global Disaster Alert and Coordination System API";
       sd_base_url := "https://www.gdacs.org/gdacsapi/swagger/index.html";
       sd_trust := ST_AUTHORITATIVE_PUBLIC;
       sd_allowed_assertions := [AC_CLIMATE; AC_GEOLOCATION];
       sd_licence := "GDACS public API terms";
       sd_notes := "Disaster alerts are machine-readable context and not a substitute for local authority confirmation.";
       sd_access := "public_http";
       sd_api_key_required := false;
       sd_cadence := "event-driven" |});
   ("reliefweb",
    {| sd_source_id := "reliefweb";
       sd_name := "UN OCHA ReliefWeb API";
       sd_base_url := "https://api.reliefweb.int/v2/";
       sd_trust := ST_OPEN_CONTEXT;
       sd_allowed_assertions := [AC_POLICY_CONTEXT; AC_GEOPOLITICAL_CONTEXT];
       sd_licence := "ReliefWeb API terms; read-only public archive";
       sd_notes := "Curated humanitarian reporting; preserve publisher, date, and editorial context.";
       sd_access := "public_http";
       sd_api_key_required := false;
       sd_cadence := "continuously updated archive" |});
   ("openalex",
    {| sd_source_id := "openalex";
       sd_name := "OpenAlex scholarly metadata API";
       sd_base_url := "https://api.openalex.org/";
       sd_trust := ST_OPEN_CONTEXT;
       sd_allowed_assertions := [AC_POLICY_CONTEXT];
       sd_licence := "OpenAlex terms and source-level licences";
       sd_notes := "Evidence discovery and literature traceability, not operational validation.";
       sd_access := "public_http";
       sd_api_key_required := false;
       sd_cadence := "continuously updated metadata" |});
   ("operator-telemetry",
    {| sd_source_id := "operator-telemetry";
       sd_name := "Authenticated operator telemetry";
       sd_base_url := "internal://operator-telemetry";
       sd_trust := ST_AUTHENTICATED_OPERATOR;
       sd_allowed_assertions := [AC_LIVE_CAPACITY; AC_LIVE_AVAILABILITY; AC_CYBER_HEALTH; AC_INSURANCE_ACCESS];
       sd_licence := "Customer-controlled";
       sd_notes := "Must be authenticated, scoped, freshness-checked and retained under customer policy.";
       sd_access := "public_http";
       sd_api_key_required := false;
       sd_cadence := "source-defined" |});
   ("analyst-assessment",
    {| sd_source_id := "analyst-assessment";
       sd_name := "Structured analyst assessment";
       sd_base_url := "internal://analyst-assessment";
       sd_trust := ST_ANALYST_ASSESSMENT;
       sd_allowed_assertions := [AC_GEOPOLITICAL_CONTEXT; AC_POLICY_CONTEXT; AC_HUMAN_INTELLIGENCE];
       sd_licence := "Customer-controlled";
       sd_notes := "Must distinguish observed facts, analytic judgments and scenarios.";
       sd_access := "public_http";
       sd_api_key_required := false;
       sd_cadence := "source-defined" |})].

Definition get_source (source_id : string) : res SourceDefinition :=
  match dget SOURCES source_id with
  | Some s => Ok s
  | None => Raise (ValueError ("unknown source_id: " +:+ source_id))
  end.

(** [METRIC_ASSERTIONS]: a partial map; a metric it does not list is a
    [KeyError] for the caller. *)
Definition METRIC_ASSERTIONS (m : MetricName) : option (list AssertionClass) :=
  match m with
  | M_SEA_ICE_CONCENTRATION => Some [AC_ICE]
  | M_SEA_ICE_EXTENT_ANOMALY => Some [AC_CLIMATE]
  | M_EARTH_OBSERVATION_COVERAGE => Some [AC_EARTH_OBSERVATION]
  | M_WIND_SEVERITY => Some [AC_WEATHER]
  | M_WAVE_SEVERITY => Some [AC_WEATHER]
  | M_PORT_GEOMETRY => Some [AC_GEOLOCATION]
  | M_PORT_CAPACITY => Some [AC_LIVE_CAPACITY]
  | M_PORT_AVAILABILITY => Some [AC_LIVE_AVAILABILITY]
  | M_AIS_TRAFFIC_INDEX => Some [AC_TRAFFIC_HISTORY]
  | M_TRADE_DEPENDENCY => Some [AC_TRADE_EXPOSURE]
  | M_SATELLITE_GEOMETRY_DENSITY => Some [AC_ORBITAL_GEOMETRY]
  | M_SATCOM_AVAILABILITY => Some [AC_LIVE_AVAILABILITY]
  | M_CYBER_CONTROL_HEALTH => Some [AC_CYBER_HEALTH]
  | M_DATA_INTEGRITY => Some [AC_CYBER_HEALTH]
  | M_INSURANCE_AVAILABILITY => Some [AC_INSURANCE_ACCESS]
  | M_GEOPOLITICAL_PRESSURE => Some [AC_GEOPOLITICAL_CONTEXT]
  | M_ESCORT_CAPACITY => Some [AC_LIVE_CAPACITY]
  | M_INVENTORY_DAYS => Some [AC_LIVE_CAPACITY]
  | _ => None
  end.

(** The sorted list of the values of a set of assertion classes, as Python
    prints it. *)
Definition show_assertions (l : list AssertionClass) : string :=
  "[" +:+ str_join ", " ((λ s, "'" +:+ s +:+ "'") <$> sort_by str_leb (AssertionClass_value <$> l)) +:+ "]".

Definition mem_assertion (a : AssertionClass) (l : list AssertionClass) : bool := bool_decide (a ∈ l).

(** [x not in {...}] on a set of strings: an unhashable value raises. *)
Definition not_in_str_set (v : option pyval) (l : list string) : res bool :=
  match v with
  | Some (VStr s) => Ok (negb (mem_str s l))
  | Some (VList _) => Raise (TypeError "unhashable type: 'list'")
  | Some (VDict _) => Raise (TypeError "unhashable type: 'dict'")
  | _ => Ok true
  end.

Definition validate_observation_source (o : Observation) : res unit :=
  source ← get_source (obs_source_id o);
  _ ← raise_if (negb (bool_decide (obs_source_trust o = sd_trust source)))
        (SourcePolicyError ("source trust mismatch for " +:+ obs_source_id o +:+ ": expected "
           +:+ SourceTrust_value (sd_trust source) +:+ ", got " +:+ SourceTrust_value (obs_source_trust o)));
  _ ← raise_if (negb (mem_assertion (obs_assertion_class o) (sd_allowed_assertions source)))
        (SourcePolicyError (obs_source_id o +:+ " cannot assert "
           +:+ AssertionClass_value (obs_assertion_class o) +:+ "; allowed="
           +:+ show_assertions (sd_allowed_assertions source)));
  metric_assertions ← (match METRIC_ASSERTIONS (obs_metric o) with
                       | Some l => Ok l
                       | None => Raise (KeyError (MetricName_value (obs_metric o)))
                       end);
  _ ← raise_if (negb (mem_assertion (obs_assertion_class o) metric_assertions))
        (SourcePolicyError ("metric " +:+ MetricName_value (obs_metric o)
           +:+ " is incompatible with assertion " +:+ AssertionClass_value (obs_assertion_class o)
           +:+ "; allowed=" +:+ show_assertions metric_assertions));
  if bool_decide (obs_source_trust o = ST_ANALYST_ASSESSMENT) then
    let judgment_type := dget (obs_metadata o) "judgment_type" in
    let basis := dget (obs_metadata o) "basis" in
    bad ← not_in_str_set judgment_type ["observed_fact"; "analytic_judgment"; "scenario"];
    _ ← raise_if bad
          (SourcePolicyError ("analyst assessments require metadata.judgment_type as observed_fact, "
             +:+ "analytic_judgment, or scenario"));
    raise_if (match basis with Some (VStr s) => str_empty (str_strip s) | _ => true end)
      (SourcePolicyError "analyst assessments require non-empty metadata.basis")
  else Ok tt.

(** ** What an accepted observation satisfies *)

Lemma get_source_ok sid s : get_source sid = Ok s ↔ dget SOURCES sid = Some s.
Proof. unfold get_source. destruct (dget SOURCES sid); split; congruence. Qed.

(** A registered source of a given trust. *)
Definition source_trusted (sid : string) (t : SourceTrust) : Prop :=
  ∃ s, dget SOURCES sid = Some s ∧ sd_trust s = t.

Lemma validate_observation_source_ok o u :
  validate_observation_source o = Ok u →
  ∃ s l, dget SOURCES (obs_source_id o) = Some s ∧ sd_trust s = obs_source_trust o ∧
    obs_assertion_class o ∈ sd_allowed_assertions s ∧
    METRIC_ASSERTIONS (obs_metric o) = Some l ∧ obs_assertion_class o ∈ l ∧
    (obs_source_trust o = ST_ANALYST_ASSESSMENT →
     ∃ j b, dget (obs_metadata o) "judgment_type" = Some (VStr j) ∧
       j ∈ ["observed_fact"; "analytic_judgment"; "scenario"] ∧
       dget (obs_metadata o) "basis" = Some (VStr b) ∧ str_strip b ≠ "").
Proof.
  unfold validate_observation_source. intros H. inv_ok. apply get_source_ok in H0.
  unfold mem_assertion in *. bool_norm.
  destruct (METRIC_ASSERTIONS (obs_metric o)) as [l|] eqn:Hl; [|done]. inv_ok.
  eexists _, _. split_and!; try done. intros Ht. rewrite bool_decide_true in * by done. inv_ok. bool_norm.
  subst. unfold not_in_str_set in *.
  destruct (dget (obs_metadata o) "judgment_type") as [[]|]; inv_ok; try done.
  destruct (dget (obs_metadata o) "basis") as [[]|]; try done.
  eexists _, _. split_and!; try done; [by apply mem_str_true, negb_false_iff|].
  by intros E; rewrite E in *.
Qed.

(** ** Live evidence comes from the operator only *)

(** The assertions that claim live capacity, availability, cyber health or
    insurance access. *)
Definition live_assertions : list AssertionClass :=
  [AC_LIVE_CAPACITY; AC_LIVE_AVAILABILITY; AC_CYBER_HEALTH; AC_INSURANCE_ACCESS].

Definition only_operator (kv : string * SourceDefinition) : bool :=
  str_eqb kv.1 "operator-telemetry"
  || forallb (λ c, negb (mem_assertion c live_assertions)) (sd_allowed_assertions kv.2).

Lemma registry_only_operator : forallb only_operator SOURCES = true.
Proof. vm_compute. reflexivity. Qed.

Lemma live_source sid s c :
  dget SOURCES sid = Some s → c ∈ sd_allowed_assertions s → c ∈ live_assertions → sid = "operator-telemetry".
Proof.
  intros Hs%dget_elem Hc Hl. pose proof registry_only_operator as R. rewrite forallb_forall in R.
  apply list_elem_of_In, R in Hs. apply orb_true_iff in Hs as [Hs|Hs]; [by apply String.eqb_eq|].
  rewrite forallb_forall in Hs. apply list_elem_of_In, Hs in Hc. unfold mem_assertion in Hc.
  rewrite bool_decide_true in Hc by done. done.
Qed.

(** The metrics a live assessment rests on. *)
Definition live_metrics : list MetricName :=
  [M_PORT_CAPACITY; M_PORT_AVAILABILITY; M_SATCOM_AVAILABILITY; M_CYBER_CONTROL_HEALTH;
   M_DATA_INTEGRITY; M_INSURANCE_AVAILABILITY; M_ESCORT_CAPACITY; M_INVENTORY_DAYS].

(** No public, open or analyst source can establish a live metric: an
    observation of port, satcom, cyber, data-integrity, insurance, escort or
    inventory state that passes [validate_observation_source] comes from the
    authenticated operator telemetry. *)
Theorem live_metric_needs_operator (o : Observation) :
  validate_observation_source o = Ok tt → obs_metric o ∈ live_metrics →
  obs_source_id o = "operator-telemetry" ∧ obs_source_trust o = ST_AUTHENTICATED_OPERATOR.
Proof.
  intros (s & l & Hs & Ht & Ha & Hl & Hin & _)%validate_observation_source_ok Hm.
  assert (obs_assertion_class o ∈ live_assertions) as Hc.
  { assert (∀ m, m ∈ live_metrics → ∀ l, METRIC_ASSERTIONS m = Some l → ∀ c, c ∈ l → c ∈ live_assertions)
      as T; [|by eapply T].
    clear. intros m Hm l Hl c Hc. apply (bool_decide_unpack _).
    assert (forallb (λ m, match METRIC_ASSERTIONS m with
                          | Some l => forallb (λ c, bool_decide (c ∈ live_assertions)) l
                          | None => true end) live_metrics = true) as R by (vm_compute; reflexivity).
    rewrite forallb_forall in R. apply list_elem_of_In, R in Hm. rewrite Hl, forallb_forall in Hm.
    apply list_elem_of_In, Hm in Hc. rewrite Hc. exact I. }
  pose proof (live_source _ _ _ Hs Ha Hc) as E. split; [done|]. rewrite E in Hs.
  vm_compute in Hs. injection Hs as <-. done.
Qed.

(** A metric that [METRIC_ASSERTIONS] does not list can never be fused: even
    from a source that may make the assertion, [validate_observation_source]
    raises a bare [KeyError], not the [SourcePolicyError] its callers handle. *)
Theorem unlisted_metric_raises_key_error (o : Observation) (s : SourceDefinition) :
  METRIC_ASSERTIONS (obs_metric o) = None →
  dget SOURCES (obs_source_id o) = Some s → obs_source_trust o = sd_trust s →
  obs_assertion_class o ∈ sd_allowed_assertions s →
  validate_observation_source o = Raise (KeyError (MetricName_value (obs_metric o))).
Proof.
  intros Hm Hs Ht Ha. unfold validate_observation_source, get_source. rewrite Hs. cbn.
  rewrite (bool_decide_eq_true_2 _ Ht). unfold mem_assertion. rewrite (bool_decide_eq_true_2 _ Ha). cbn.
  by rewrite Hm.
Qed.

(** ** Example observations *)

Definition utc (s : Z) : datetime := {| dt_us := s * 1000000; dt_aware := true |}.

Definition example_provenance : Provenance :=
  {| prov_uri := "operator://feed"; prov_retrieved_at := utc 0;
     prov_content_sha256 := str_repeat 64 "a"; prov_snapshot_id := None; prov_licence := None |}.

(** An operator observation of [m] with value [v], made at second [t]. *)
Definition operator_obs (id : string) (c : AssertionClass) (m : MetricName) (v : Q) (t : Z) : Observation :=
  {| obs_observation_id := id; obs_source_id := "operator-telemetry";
     obs_source_trust := ST_AUTHENTICATED_OPERATOR; obs_assertion_class := c; obs_metric := m;
     obs_value := lit v; obs_unit := "ratio"; obs_observed_at := utc t; obs_valid_until := None;
     obs_location := None; obs_confidence := lit 0.9; obs_provenance := example_provenance;
     obs_metadata := [] |}.

Lemma live_metric_needs_operator_witness :
  let o := operator_obs "o1" AC_LIVE_AVAILABILITY M_PORT_AVAILABILITY 0.4 0 in
  validate_observation_source o = Ok tt ∧ obs_source_trust o = ST_AUTHENTICATED_OPERATOR.
Proof.
  split; [vm_compute; reflexivity|].
  apply (live_metric_needs_operator (operator_obs "o1" AC_LIVE_AVAILABILITY M_PORT_AVAILABILITY 0.4 0)).
  - vm_compute. reflexivity.
  - apply (bool_decide_unpack _). vm_compute. exact I.
Defined.

Lemma unlisted_metric_raises_key_error_witness :
  validate_observation_source (operator_obs "o1" AC_LIVE_AVAILABILITY M_STARLINK_LATENCY_MS 40 0)
  = Raise (KeyError "starlink_latency_ms").
Proof.
  destruct (dget SOURCES "operator-telemetry") as [s|] eqn:E; [|vm_compute in E; discriminate E].
  apply (unlisted_metric_raises_key_error
    (operator_obs "o1" AC_LIVE_AVAILABILITY M_STARLINK_LATENCY_MS 40 0) s); [reflexivity | exact E | |];
    vm_compute in E; injection E as <-; [reflexivity|].
  apply (bool_decide_unpack _). vm_compute. exact I.
Defined.
