(* ===== verification/Fusion.v ===== *)
(** * fusion.py: from observations to a corridor assessment

    [FusionPolicy] holds the tables; [assess] is [FusionEngine.assess], written
    stage by stage: [screen_step] is the body of the loop that validates,
    dates and filters the observations, [group_step] the grouping by factor,
    [factor_step] the body of the loop over the corridor factors, [classify]
    the state decision.  [math.exp] is the only library function whose value is
    not computed; it is an operation of the class [LibM], with the law the
    code relies on (the exponential of a non-positive float lies in [[0, 1]]). *)

From Stdlib Require Import ZArith QArith.
From S2P Require Import Prelude PyFloat PyFormat Domain Sources.

Open Scope Z_scope.

Definition REQUIRED_METRICS : list MetricName :=
  [M_SEA_ICE_CONCENTRATION; M_WIND_SEVERITY; M_PORT_AVAILABILITY; M_SATCOM_AVAILABILITY;
   M_CYBER_CONTROL_HEALTH; M_DATA_INTEGRITY; M_INSURANCE_AVAILABILITY; M_ESCORT_CAPACITY;
   M_INVENTORY_DAYS].

Definition CONTEXT_ONLY_METRICS : list MetricName :=
  [M_SEA_ICE_EXTENT_ANOMALY; M_EARTH_OBSERVATION_COVERAGE; M_SATELLITE_GEOMETRY_DENSITY;
   M_PORT_GEOMETRY].

(** The tables are partial maps: a missing key is a [KeyError]. *)
Definition METRIC_TO_FACTOR (m : MetricName) : option CorridorFactor :=
  match m with
  | M_SEA_ICE_CONCENTRATION => Some CF_ICE
  | M_WIND_SEVERITY => Some CF_WEATHER
  | M_WAVE_SEVERITY => Some CF_WEATHER
  | M_AIS_TRAFFIC_INDEX => Some CF_TRAFFIC
  | M_PORT_CAPACITY => Some CF_PORT
  | M_PORT_AVAILABILITY => Some CF_PORT
  | M_SATCOM_AVAILABILITY => Some CF_COMMUNICATIONS
  | M_CYBER_CONTROL_HEALTH => Some CF_CYBER
  | M_DATA_INTEGRITY => Some CF_DATA_TRUST
  | M_INSURANCE_AVAILABILITY => Some CF_COMMERCIAL
  | M_GEOPOLITICAL_PRESSURE => Some CF_GEOPOLITICAL
  | M_ESCORT_CAPACITY => Some CF_ESCORT
  | M_INVENTORY_DAYS => Some CF_INVENTORY
  | M_TRADE_DEPENDENCY => Some CF_COMMERCIAL
  | M_UAV_LINK_MARGIN => Some CF_COMMUNICATIONS
  | M_UAV_SWARM_COHESION => Some CF_ESCORT
  | M_STARLINK_LATENCY_MS => Some CF_COMMUNICATIONS
  | M_STARLINK_DOWNLINK_MBPS => Some CF_COMMUNICATIONS
  | M_STARLINK_OBSTRUCTION_RATE => Some CF_COMMUNICATIONS
  | M_CUAS_THREAT_DENSITY => Some CF_CYBER
  | M_CUAS_JAMMING_ACTIVE => Some CF_CYBER
  | _ => None
  end.

Definition MAX_AGE_HOURS (m : MetricName) : option float :=
  match m with
  | M_SEA_ICE_CONCENTRATION => Some (lit 24)
  | M_SEA_ICE_EXTENT_ANOMALY => Some (fmul (lit 24) (lit 14))
  | M_EARTH_OBSERVATION_COVERAGE => Some (fmul (lit 24) (lit 7))
  | M_WIND_SEVERITY => Some (lit 12)
  | M_WAVE_SEVERITY => Some (lit 12)
  | M_AIS_TRAFFIC_INDEX => Some (fmul (lit 24) (lit 30))
  | M_PORT_CAPACITY => Some (lit 2)
  | M_PORT_AVAILABILITY => Some (lit 2)
  | M_SATCOM_AVAILABILITY => Some (lit 1)
  | M_SATELLITE_GEOMETRY_DENSITY => Some (fmul (lit 24) (lit 7))
  | M_CYBER_CONTROL_HEALTH => Some (lit 1)
  | M_DATA_INTEGRITY => Some (lit 1)
  | M_INSURANCE_AVAILABILITY => Some (lit 24)
  | M_GEOPOLITICAL_PRESSURE => Some (fmul (lit 24) (lit 7))
  | M_ESCORT_CAPACITY => Some (lit 6)
  | M_INVENTORY_DAYS => Some (lit 24)
  | M_TRADE_DEPENDENCY => Some (fmul (lit 24) (lit 90))
  | M_PORT_GEOMETRY => Some (fmul (lit 24) (lit 365))
  | M_UAV_LINK_MARGIN => Some (lit 0.5)
  | M_UAV_SWARM_COHESION => Some (lit 0.5)
  | M_STARLINK_LATENCY_MS => Some (lit 0.25)
  | M_STARLINK_DOWNLINK_MBPS => Some (lit 0.25)
  | M_STARLINK_OBSTRUCTION_RATE => Some (lit 0.25)
  | M_CUAS_THREAT_DENSITY => Some (lit 0.25)
  | M_CUAS_JAMMING_ACTIVE => Some (lit 0.25)
  | _ => None
  end.

Definition FACTOR_WEIGHTS (f : CorridorFactor) : float :=
  match f with
  | CF_ICE => lit 0.14
  | CF_WEATHER => lit 0.08
  | CF_TRAFFIC => lit 0.06
  | CF_PORT => lit 0.12
  | CF_COMMUNICATIONS => lit 0.11
  | CF_CYBER => lit 0.12
  | CF_DATA_TRUST => lit 0.1
  | CF_COMMERCIAL => lit 0.09
  | CF_GEOPOLITICAL => lit 0.07
  | CF_ESCORT => lit 0.06
  | CF_INVENTORY => lit 0.05
  end.

Definition bounded (value : float) : float := fmin f1 (fmax f0 value).

Definition lookup_metric {A} (m : MetricName) (v : option A) : res A :=
  match v with Some a => Ok a | None => Raise (KeyError (MetricName_value m)) end.

(** The transform of each metric, applied to the observed value. *)
Definition transforms (m : MetricName) (x : float) : option (res float) :=
  match m with
  | M_SEA_ICE_CONCENTRATION => Some (if (x >? f1)%F then fdiv x (lit 100) else Ok x)
  | M_WIND_SEVERITY => Some (Ok x)
  | M_WAVE_SEVERITY => Some (Ok x)
  | M_AIS_TRAFFIC_INDEX => Some (Ok (f1 - x)%F)
  | M_PORT_CAPACITY => Some (Ok (f1 - x)%F)
  | M_PORT_AVAILABILITY => Some (Ok (f1 - x)%F)
  | M_SATCOM_AVAILABILITY => Some (Ok (f1 - x)%F)
  | M_CYBER_CONTROL_HEALTH => Some (Ok (f1 - x)%F)
  | M_DATA_INTEGRITY => Some (Ok (f1 - x)%F)
  | M_INSURANCE_AVAILABILITY => Some (Ok (f1 - x)%F)
  | M_GEOPOLITICAL_PRESSURE => Some (Ok x)
  | M_ESCORT_CAPACITY => Some (Ok (f1 - x)%F)
  | M_INVENTORY_DAYS => Some (d ← fdiv x (lit 45); Ok (f1 - fmin d f1)%F)
  | M_TRADE_DEPENDENCY => Some (Ok x)
  | _ => None
  end.

Definition metric_risk (o : Observation) : res float :=
  t ← lookup_metric (obs_metric o) (transforms (obs_metric o) (obs_value o));
  r ← t;
  Ok (bounded r).

(** [math.exp]. *)
Class LibM := {
  m_exp : float → float;
  m_exp_nonpos : ∀ x, fleb x f0 = true → is_score (m_exp x) = true
}.

(** [math.log(2.0)] *)
Definition m_log2 : float := lit 0.693147180559945309417232121458176568.

Section Fusion.
Context `{LibM}.

Definition freshness (observed_at now : datetime) (maximum_age_hours : float) : res float :=
  h ← hours_between now observed_at;
  let age_hours := fmax f0 h in
  half ← fdiv maximum_age_hours (lit 2);
  let half_life := fmax (lit 0.25) half in
  x ← fdiv (fneg m_log2 * age_hours)%F half_life;
  Ok (m_exp x).

Definition rationale (factor : CorridorFactor) (items : list Observation) (risk : float) : string :=
  let metrics := sort_by str_leb (set_of ((λ i, MetricName_value (obs_metric i)) <$> items)) in
  CorridorFactor_value factor +:+ " risk " +:+ fmt_fixed 3 risk +:+ " derived from "
    +:+ str_join ", " metrics.

(** The body of the first loop: [(valid, caveats)] after one more observation. *)
Definition screen_step (now : datetime) (acc : list Observation * list string) (o : Observation)
    : res (list Observation * list string) :=
  let '(valid, caveats) := acc in
  _ ← validate_observation_source o;
  if dt_us now <? dt_us (obs_observed_at o) then
    Ok (valid, caveats ++ ["future observation excluded: " +:+ obs_observation_id o])
  else if match obs_valid_until o with Some d => dt_us d <? dt_us now | None => false end then
    Ok (valid, caveats ++ ["expired observation excluded: " +:+ obs_observation_id o])
  else
    age_hours ← hours_between now (obs_observed_at o);
    maximum_age ← lookup_metric (obs_metric o) (MAX_AGE_HOURS (obs_metric o));
    if (age_hours >? maximum_age)%F then
      Ok (valid, caveats ++ ["stale observation excluded: " +:+ obs_observation_id o +:+ " ("
            +:+ fmt_fixed 1 age_hours +:+ "h > " +:+ fmt_fixed 1 maximum_age +:+ "h)"])
    else Ok (valid ++ [o], caveats).

(** The observations of a factor, in the order they were met. *)
Definition grouped_by (grouped : dict CorridorFactor (list Observation)) (f : CorridorFactor)
    : list Observation := dget_default grouped f [].

Definition group_step (acc : dict CorridorFactor (list Observation) * list MetricName * list MetricName)
    (o : Observation) : res (dict CorridorFactor (list Observation) * list MetricName * list MetricName) :=
  let '(grouped, present, context) := acc in
  if mem_metric (obs_metric o) CONTEXT_ONLY_METRICS then
    Ok (grouped, present, context ++ [obs_metric o])
  else
    f ← lookup_metric (obs_metric o) (METRIC_TO_FACTOR (obs_metric o));
    Ok (dset grouped f (grouped_by grouped f ++ [o]), present ++ [obs_metric o], context).

Definition metric_leb (a b : MetricName) : bool := str_leb (MetricName_value a) (MetricName_value b).

Definition missing_metrics (present : list MetricName) : list MetricName :=
  sort_by metric_leb (filter (λ m, m ∉ present) REQUIRED_METRICS).

Definition item_step (now : datetime) (acc : list (float * float) * float) (item : Observation)
    : res (list (float * float) * float) :=
  let '(weighted_items, total_confidence) := acc in
  maximum_age ← lookup_metric (obs_metric item) (MAX_AGE_HOURS (obs_metric item));
  fresh ← freshness (obs_observed_at item) now maximum_age;
  let effective_confidence := (obs_confidence item * fresh)%F in
  risk ← metric_risk item;
  Ok (weighted_items ++ [(risk, effective_confidence)], (total_confidence + effective_confidence)%F).

(** The accumulators of the loop over the factors. *)
Record factor_acc := {
  acc_assessments : list FactorAssessment;
  acc_weighted_risk : float;
  acc_weight_used : float;
  acc_confidence_values : list float
}.

Definition factor_step (now : datetime) (grouped : dict CorridorFactor (list Observation))
    (acc : factor_acc) (factor : CorridorFactor) : res factor_acc :=
  let items := grouped_by grouped factor in
  match items with
  | [] => Ok acc
  | _ =>
    wt ← foldM (item_step now) ([], f0) items;
    let '(weighted_items, total_confidence) := wt in
    rc ← (if feqb total_confidence f0 then Ok (lit 0.5, f0)
          else
            risk ← fdiv (fsum ((λ rc, (rc.1 * rc.2)%F) <$> weighted_items)) total_confidence;
            fc ← fdiv total_confidence (f_of_Z (Z.of_nat (length weighted_items)));
            Ok (risk, fmin f1 fc));
    let '(risk, factor_confidence) := rc in
    assessment ← new_FactorAssessment factor (fround 6 risk) (fround 6 factor_confidence)
                   (obs_observation_id <$> items) (rationale factor items risk);
    let factor_weight := FACTOR_WEIGHTS factor in
    Ok {| acc_assessments := acc_assessments acc ++ [assessment];
          acc_weighted_risk := (acc_weighted_risk acc + risk * factor_weight)%F;
          acc_weight_used := (acc_weight_used acc + factor_weight)%F;
          acc_confidence_values := acc_confidence_values acc ++ [factor_confidence] |}
  end.

(** The values of one metric among the observations of a factor. *)
Definition values_of (grouped : dict CorridorFactor (list Observation)) (f : CorridorFactor)
    (m : MetricName) : list float :=
  obs_value <$> filter (λ i, obs_metric i = m) (grouped_by grouped f).

(** [values and max(values) <= bound] *)
Definition all_below (values : list float) (bound : float) : bool :=
  match values with
  | [] => false
  | x :: l => (foldl fmax x l <=? bound)%F
  end.

Definition classify (overall_risk : float) (grouped : dict CorridorFactor (list Observation))
    : CorridorState :=
  if all_below (values_of grouped CF_PORT M_PORT_AVAILABILITY) (lit 0.01) then CS_PHYSICALLY_CLOSED
  else if (overall_risk >=? lit 0.72)%F then CS_FUNCTIONALLY_CLOSED
  else if all_below (values_of grouped CF_COMMERCIAL M_INSURANCE_AVAILABILITY) (lit 0.1)
    then CS_OPEN_BUT_UNINSURABLE
  else if all_below (values_of grouped CF_COMMUNICATIONS M_SATCOM_AVAILABILITY) (lit 0.2)
    then CS_OPEN_BUT_COMMUNICATIONS_DEGRADED
  else if all_below (values_of grouped CF_PORT M_PORT_CAPACITY) (lit 0.15)
    then CS_OPEN_CAPACITY_CONSTRAINED
  else if (overall_risk >=? lit 0.38)%F then CS_OPEN_DEGRADED
  else CS_OPEN.

Definition factor_leb (a b : FactorAssessment) : bool :=
  str_leb (CorridorFactor_value (fa_factor a)) (CorridorFactor_value (fa_factor b)).

Definition missing_penalty (missing : list MetricName) : float :=
  fmin (lit 0.25) (f_of_Z (Z.of_nat (length missing)) * lit 0.025)%F.

(** The scores after the loops: [(overall_risk, confidence)]. *)
Definition overall_scores (acc : factor_acc) (missing : list MetricName) : res (float * float) :=
  base_risk ← (if feqb (acc_weight_used acc) f0 then Ok (lit 0.5)
               else fdiv (acc_weighted_risk acc) (acc_weight_used acc));
  mean_confidence ← (match acc_confidence_values acc with [] => Ok f0 | cv => fmean cv end);
  let penalty := missing_penalty missing in
  let low_confidence_penalty :=
    match acc_confidence_values acc with
    | [] => lit 0.10
    | _ => ((f1 - mean_confidence) * lit 0.10)%F
    end in
  Ok (fmin f1 (base_risk + penalty + low_confidence_penalty)%F, fmax f0 (mean_confidence - penalty)%F).

Definition final_caveats (caveats : list string) (context missing : list MetricName) : list string :=
  caveats
  ++ (match context with
      | [] => []
      | _ => ["context-only metrics excluded from live operability score: "
              +:+ str_join ", " (sort_by str_leb (set_of (MetricName_value <$> context)))]
      end)
  ++ (match missing with
      | [] => []
      | _ => ["required metrics absent: " +:+ str_join ", " (MetricName_value <$> missing)]
      end)
  ++ ["public geospatial, orbital and port datasets cannot establish live cyber, capacity, "
      +:+ "insurance or service availability"].

(** [FusionEngine.assess].  [clock] is [datetime.now(UTC)], [assessment_id] and
    [generated_at] the defaults of the result. *)
Definition assess (assessment_id : string) (clock : datetime) (corridor_id : string)
    (observations : list Observation) (as_of : option datetime) : res CorridorAssessment :=
  _ ← raise_if (match observations with [] => true | _ => false end)
        (ValueError "at least one observation is required");
  let now := match as_of with Some t => t | None => clock end in
  _ ← raise_if (negb (dt_aware now)) (ValueError "as_of must be timezone-aware");
  vc ← foldM (screen_step now) ([], []) observations;
  let '(valid, caveats) := vc in
  _ ← raise_if (match valid with [] => true | _ => false end)
        (ValueError "no current observations remain after validation");
  gpc ← foldM group_step ([], [], []) valid;
  let '(grouped, present, context) := gpc in
  let missing := missing_metrics present in
  acc ← foldM (factor_step now grouped)
          {| acc_assessments := []; acc_weighted_risk := f0; acc_weight_used := f0;
             acc_confidence_values := [] |} CorridorFactor_all;
  rc ← overall_scores acc missing;
  let '(overall_risk, confidence) := rc in
  new_CorridorAssessment
    {| ca_assessment_id := assessment_id;
       ca_corridor_id := corridor_id;
       ca_generated_at := clock;
       ca_overall_risk := fround 6 overall_risk;
       ca_confidence := fround 6 confidence;
       ca_state := classify overall_risk grouped;
       ca_factors := sort_by factor_leb (acc_assessments acc);
       ca_missing_required_metrics := missing;
       ca_caveats := final_caveats caveats context missing |}.
End Fusion.

(** ** The observations that count *)

(** An observation accepted at [now]: its source may make the assertion, it is
    neither in the future, nor expired, nor older than its metric allows. *)
Definition is_current (now : datetime) (o : Observation) : bool :=
  is_ok (validate_observation_source o)
  && negb (dt_us now <? dt_us (obs_observed_at o))
  && match obs_valid_until o with Some d => negb (dt_us d <? dt_us now) | None => true end
  && match hours_between now (obs_observed_at o), MAX_AGE_HOURS (obs_metric o) with
     | Ok age, Some maximum_age => negb (age >? maximum_age)%F
     | _, _ => false
     end.

(** A current observation that bears on factor [f]. *)
Definition counts_for (now : datetime) (f : CorridorFactor) (o : Observation) : bool :=
  is_current now o && negb (mem_metric (obs_metric o) CONTEXT_ONLY_METRICS)
  && bool_decide (METRIC_TO_FACTOR (obs_metric o) = Some f).

Notation "l |? p" := (List.filter p l) (at level 40) : s2p_scope.
Open Scope s2p_scope.

Lemma screen_step_ok now v c o v' c' :
  screen_step now (v, c) o = Ok (v', c') → v' = v ++ [o] |? is_current now.
Proof.
  unfold screen_step, is_current. intros H. inv_ok. cbn. rewrite H0. cbn.
  destruct (dt_us now <? dt_us (obs_observed_at o)); cbn; [inv_ok; by rewrite app_nil_r|].
  destruct (match obs_valid_until o with Some d => dt_us d <? dt_us now | None => false end) eqn:E.
  - inv_ok. destruct (obs_valid_until o); [|done]. rewrite E. cbn. by rewrite app_nil_r.
  - replace (match obs_valid_until o with Some d => negb (dt_us d <? dt_us now) | None => true end)
      with true by (destruct (obs_valid_until o); [by rewrite E | done]).
    inv_ok. rewrite H2. unfold lookup_metric in H1. destruct (MAX_AGE_HOURS (obs_metric o)); inv_ok.
    destruct (fltb _ _); inv_ok; cbn; [by rewrite app_nil_r | done].
Qed.

Lemma screen_ok now v c l v' c' :
  foldM (screen_step now) (v, c) l = Ok (v', c') → v' = v ++ l |? is_current now.
Proof.
  revert v c; induction l as [|o l IH]; intros v c H; cbn in H; [inv_ok; by rewrite app_nil_r|].
  apply bind_ok in H as ([v1 c1] & H1%screen_step_ok & H2). apply IH in H2 as ->. subst v1.
  change (o :: l) with ([o] ++ l). by rewrite List.filter_app, app_assoc.
Qed.

Lemma screen_validated now v c l r :
  foldM (screen_step now) (v, c) l = Ok r → Forall (λ o, validate_observation_source o = Ok tt) l.
Proof.
  revert v c; induction l as [|o l IH]; intros v c H; cbn in H; [constructor|].
  apply bind_ok in H as ([v1 c1] & H1 & H2). constructor; [|by eapply IH].
  unfold screen_step in H1. by apply bind_ok in H1 as ([] & ? & _).
Qed.

Lemma grouped_by_dset g f l f' :
  grouped_by (dset g f l) f' = if decide (f = f') then l else grouped_by g f'.
Proof.
  unfold grouped_by, dget_default. case_decide as E.
  - subst. by rewrite dget_dset_eq.
  - by rewrite dget_dset_ne.
Qed.

(** The observations of a list that bear on [f], currency aside. *)
Definition bears_on (f : CorridorFactor) (o : Observation) : bool :=
  negb (mem_metric (obs_metric o) CONTEXT_ONLY_METRICS)
  && bool_decide (METRIC_TO_FACTOR (obs_metric o) = Some f).

Definition operative (o : Observation) : bool := negb (mem_metric (obs_metric o) CONTEXT_ONLY_METRICS).

Lemma group_ok g p c l g' p' c' :
  foldM group_step (g, p, c) l = Ok (g', p', c') →
  (∀ f, grouped_by g' f = grouped_by g f ++ l |? bears_on f) ∧
  p' = p ++ (obs_metric <$> l |? operative).
Proof.
  revert g p c; induction l as [|o l IH]; intros g p c H; cbn in H.
  { inv_ok. split; [intros f|]; by rewrite app_nil_r. }
  apply bind_ok in H as ([[g1 p1] c1] & H1 & [Hg ->]%IH). cbn. unfold operative at 2.
  unfold group_step in H1. destruct (mem_metric (obs_metric o) CONTEXT_ONLY_METRICS) eqn:E; [inv_ok|].
  - cbn. split; [|done]. intros f. rewrite Hg. f_equal. unfold bears_on at 2. by rewrite E.
  - apply bind_ok in H1 as (f0 & H1 & H2). unfold lookup_metric in H1.
    destruct (METRIC_TO_FACTOR (obs_metric o)) as [f1|] eqn:F; inv_ok.
    split; [|cbn; by rewrite <-app_assoc]. intros f. rewrite Hg, grouped_by_dset.
    assert (bears_on f o = bool_decide (Some f0 = Some f)) as -> by (unfold bears_on; by rewrite E, F).
    case_decide as D.
    + subst. rewrite bool_decide_true by done. by rewrite <-app_assoc.
    + by rewrite bool_decide_false by congruence.
Qed.

Lemma filter_filter {A} (p q : A → bool) l : (l |? p) |? q = l |? (λ x, p x && q x).
Proof.
  induction l as [|x l IH]; cbn; [done|]. destruct (p x); cbn; [destruct (q x)|]; by rewrite IH.
Qed.

Lemma filter_ext_eq {A} (p q : A → bool) l : (∀ x, p x = q x) → l |? p = l |? q.
Proof. intros H. induction l as [|x l IH]; cbn; [done|]. rewrite H, IH. done. Qed.

Lemma elem_of_bfilter {A} (p : A → bool) (l : list A) x : x ∈ l |? p ↔ x ∈ l ∧ p x = true.
Proof. by rewrite !list_elem_of_In, List.filter_In. Qed.

Section FusionFacts.
Context `{LibM}.

(** One step of the loop over the factors appends at most one assessment,
    that of the factor, carrying the identifiers of its observations. *)
Lemma factor_step_ok now g acc f acc' :
  factor_step now g acc f = Ok acc' →
  match grouped_by g f with
  | [] => acc' = acc
  | items => ∃ a, acc_assessments acc' = acc_assessments acc ++ [a] ∧
      fa_factor a = f ∧ fa_evidence_ids a = obs_observation_id <$> items
  end.
Proof.
  unfold factor_step. destruct (grouped_by g f) as [|i items] eqn:E; intros K; [by inv_ok|].
  apply bind_ok in K as ([wi tc] & _ & K). apply bind_ok in K as ([risk fc] & _ & K).
  apply bind_ok in K as (a & Ha & K). inv_ok. exists a. split; [done|].
  by apply new_FactorAssessment_ok in Ha as (_ & _ & ? & ?).
Qed.

(** The assessments after the loop: one per factor with observations. *)
Lemma factors_ok now g fs acc acc' :
  foldM (factor_step now g) acc fs = Ok acc' →
  ∃ l, acc_assessments acc' = acc_assessments acc ++ l ∧
    fa_factor <$> l = fs |? (λ f, negb (bool_decide (grouped_by g f = []))) ∧
    ∀ a, a ∈ l → fa_evidence_ids a = obs_observation_id <$> grouped_by g (fa_factor a).
Proof.
  revert acc; induction fs as [|f fs IH]; intros acc K; cbn in K.
  { inv_ok. exists []. rewrite app_nil_r. split_and!; try done. by intros ? ?%elem_of_nil. }
  apply bind_ok in K as (acc1 & K1 & K2). apply factor_step_ok in K1.
  apply IH in K2 as (l & Hl & Hf & He). cbn. destruct (grouped_by g f) as [|i items] eqn:E.
  - subst. exists l. rewrite bool_decide_true by done. done.
  - destruct K1 as (a & Ha & Hfa & Hids). exists (a :: l). rewrite Hl, Ha, <-app_assoc.
    rewrite bool_decide_false by done. cbn. rewrite Hf, Hfa. split_and!; try done.
    intros b [->|Hb]%elem_of_cons; [by rewrite Hfa, E | by apply He].
Qed.

(** What a returned assessment was computed from. *)
Lemma assess_ok id clock cid obs as_of a :
  assess id clock cid obs as_of = Ok a →
  let now := default clock as_of in
  ∃ g acc caveats context risk conf,
    (∀ f, grouped_by g f = obs |? counts_for now f) ∧
    Forall (λ o, validate_observation_source o = Ok tt) obs ∧
    foldM (factor_step now g)
      {| acc_assessments := []; acc_weighted_risk := f0; acc_weight_used := f0;
         acc_confidence_values := [] |} CorridorFactor_all = Ok acc ∧
    let missing := missing_metrics (obs_metric <$> obs |? (λ o, is_current now o && operative o)) in
    overall_scores acc missing = Ok (risk, conf) ∧
    is_score (fround 6 risk) = true ∧ is_score (fround 6 conf) = true ∧
    a = {| ca_assessment_id := id; ca_corridor_id := cid; ca_generated_at := clock;
           ca_overall_risk := fround 6 risk; ca_confidence := fround 6 conf;
           ca_state := classify risk g;
           ca_factors := sort_by factor_leb (acc_assessments acc);
           ca_missing_required_metrics := missing;
           ca_caveats := final_caveats caveats context missing |}.
Proof.
  unfold assess. intros K. set (now := match as_of with Some t => t | None => clock end) in K.
  change (default clock as_of) with now. clearbody now.
  apply bind_ok in K as (_ & _ & K). apply bind_ok in K as (_ & _ & K).
  apply bind_ok in K as ([valid caveats] & K1 & K). apply bind_ok in K as (_ & _ & K).
  apply bind_ok in K as ([[g present] context] & K2 & K). apply bind_ok in K as (acc & K3 & K).
  apply bind_ok in K as ([risk conf] & K4 & K). unfold new_CorridorAssessment in K. inv_ok.
  pose proof (screen_validated _ _ _ _ _ K1) as Hv. apply screen_ok in K1. cbn in K1. subst valid.
  apply group_ok in K2 as [Hg Hp]. cbn in Hp. subst present. rewrite filter_filter in K4.
  exists g, acc, caveats, context, risk, conf. split_and!; try done.
  - intros f. rewrite Hg. cbn. rewrite filter_filter. apply filter_ext_eq. intros o.
    unfold counts_for, bears_on. by rewrite andb_assoc.
  - by rewrite filter_filter.
Qed.
End FusionFacts.

(** ** The tables are total on the observations that pass the gate *)

Definition tables_defined (m : MetricName) : bool :=
  match METRIC_ASSERTIONS m with
  | None => true
  | Some _ =>
      bool_decide (is_Some (MAX_AGE_HOURS m))
      && (mem_metric m CONTEXT_ONLY_METRICS
          || (bool_decide (is_Some (METRIC_TO_FACTOR m)) && match transforms m f0 with Some _ => true | None => false end))
  end.

Lemma tables_total m : tables_defined m = true.
Proof. destruct m; reflexivity. Qed.

Lemma transforms_domain m x y : is_Some (transforms m x) → is_Some (transforms m y).
Proof. destruct m; cbn; intros [? ?]; try done; by eexists. Qed.

Lemma gate_tables o : validate_observation_source o = Ok tt →
  is_Some (MAX_AGE_HOURS (obs_metric o)) ∧
  (mem_metric (obs_metric o) CONTEXT_ONLY_METRICS = true ∨
   is_Some (METRIC_TO_FACTOR (obs_metric o)) ∧ is_Some (transforms (obs_metric o) (obs_value o))).
Proof.
  intros (s & l & _ & _ & _ & Hl & _)%validate_observation_source_ok.
  pose proof (tables_total (obs_metric o)) as T. unfold tables_defined in T. rewrite Hl in T.
  apply andb_prop in T as [T1 T2]. split; [by apply bool_decide_eq_true in T1|].
  apply orb_true_iff in T2 as [T2|[T2 T3]%andb_prop]; [by left|right].
  apply bool_decide_eq_true in T2. split; [done|]. eapply (transforms_domain _ f0).
  by destruct (transforms (obs_metric o) f0).
Qed.

(** [raises_key m]: the computation fails with a [KeyError]. *)
Definition raises_key {A} (m : res A) : Prop := ∃ k, m = Raise (KeyError k).

Lemma raises_key_bind {A B} (m : res A) (k : A → res B) :
  raises_key (m ≫= k) → raises_key m ∨ ∃ a, m = Ok a ∧ raises_key (k a).
Proof. destruct m as [a|e]; cbn; [right; eauto | intros [? [= ->]]; left; by eexists]. Qed.

Lemma foldM_raises_key {A S} (f : S → A → res S) s l :
  raises_key (foldM f s l) → ∃ x s', x ∈ l ∧ raises_key (f s' x).
Proof.
  revert s; induction l as [|x l IH]; intros s K; cbn in K; [by destruct K|].
  apply raises_key_bind in K as [K|(s' & _ & K)].
  - exists x, s. split; [by left | done].
  - apply IH in K as (y & t & ? & ?). exists y, t. split; [by right | done].
Qed.

Lemma fdiv_no_key x y : ¬ raises_key (fdiv x y).
Proof. unfold fdiv. intros [k K]. repeat case_match; done. Qed.

Lemma int_div_no_key a b : ¬ raises_key (int_div a b).
Proof. unfold int_div. intros [k K]. repeat case_match; done. Qed.

Lemma fmean_no_key l : ¬ raises_key (fmean l).
Proof. unfold fmean. case_match; [apply fdiv_no_key | by intros []]. Qed.

Lemma hours_between_no_key a b : ¬ raises_key (hours_between a b).
Proof.
  unfold hours_between. intros [K|(x & _ & K)]%raises_key_bind;
    [by eapply int_div_no_key | by eapply fdiv_no_key].
Qed.

Lemma lookup_metric_some {A} m (v : option A) : is_Some v → ¬ raises_key (lookup_metric m v).
Proof. intros [a ->]. by intros []. Qed.

Lemma require_no_key b w : ¬ raises_key (require b w).
Proof. unfold require. destruct b; by intros []. Qed.

(** Follow a [KeyError] through the binds of a computation, closing the steps
    that cannot raise one. *)
Ltac chase_key K :=
  repeat match type of K with
  | raises_key (_ ≫= _) =>
      let x := fresh "x" in let E := fresh "E" in
      apply raises_key_bind in K as [K|(x & E & K)]
  end;
  lazymatch type of K with
  | raises_key (fdiv _ _) => case (fdiv_no_key _ _ K)
  | raises_key (int_div _ _) => case (int_div_no_key _ _ K)
  | raises_key (fmean _) => case (fmean_no_key _ K)
  | raises_key (hours_between _ _) => case (hours_between_no_key _ _ K)
  | raises_key (require _ _) => case (require_no_key _ _ K)
  | raises_key (raise_if ?b _) => destruct b; destruct K as [? K]; discriminate K
  | raises_key (lookup_metric _ _) => eapply lookup_metric_some in K; [case K | eassumption]
  | raises_key (Ok _) => destruct K as [? K]; discriminate K
  | raises_key (Raise _) => destruct K as [? K]; discriminate K
  | _ => idtac
  end.

Section KeyErrors.
Context `{LibM}.

Lemma freshness_no_key a b m : ¬ raises_key (freshness a b m).
Proof. unfold freshness. intros K. chase_key K. Qed.

Lemma metric_risk_no_key o : is_Some (transforms (obs_metric o) (obs_value o)) → ¬ raises_key (metric_risk o).
Proof.
  intros [t Ht] K. unfold metric_risk in K. rewrite Ht in K. cbn in K. chase_key K.
  destruct (obs_metric o); cbn in Ht; try done; injection Ht as <-; try destruct (fltb _ _); chase_key K.
Qed.

Lemma item_step_no_key now acc o :
  validate_observation_source o = Ok tt → mem_metric (obs_metric o) CONTEXT_ONLY_METRICS = false →
  ¬ raises_key (item_step now acc o).
Proof.
  intros [HA [?|[HM HT]]]%gate_tables HC K; [congruence|]. destruct acc as [wi tc].
  unfold item_step in K. chase_key K.
  - by eapply freshness_no_key.
  - by eapply metric_risk_no_key.
Qed.

Lemma factor_step_no_key now g acc f :
  Forall (λ o, validate_observation_source o = Ok tt
               ∧ mem_metric (obs_metric o) CONTEXT_ONLY_METRICS = false) (grouped_by g f) →
  ¬ raises_key (factor_step now g acc f).
Proof.
  intros HF K. unfold factor_step in K. destruct (grouped_by g f) as [|i items] eqn:E; [chase_key K|].
  apply raises_key_bind in K as [K|([wi tc] & _ & K)].
  { apply foldM_raises_key in K as (o & s' & Ho & K). rewrite Forall_forall in HF.
    apply HF in Ho as [? ?]. by eapply item_step_no_key. }
  apply raises_key_bind in K as [K|([risk fc] & _ & K)]; [destruct (feqb _ _); chase_key K|].
  unfold new_FactorAssessment in K. chase_key K.
Qed.

Lemma screen_step_key now acc o :
  raises_key (screen_step now acc o) → raises_key (validate_observation_source o).
Proof.
  destruct acc as [v c]. unfold screen_step. intros [K|([] & HV & K)]%raises_key_bind; [done|exfalso].
  destruct (gate_tables o HV) as [HA _].
  destruct (dt_us now <? _); [chase_key K|].
  destruct (match obs_valid_until o with Some _ => _ | None => _ end); [chase_key K|].
  chase_key K. destruct (fltb _ _); chase_key K.
Qed.

Lemma group_step_no_key acc o : validate_observation_source o = Ok tt → ¬ raises_key (group_step acc o).
Proof.
  intros [HA HT]%gate_tables K. destruct acc as [[g p] c]. unfold group_step in K.
  destruct (mem_metric _ _) eqn:E; [chase_key K|]. destruct HT as [?|[HM _]]; [congruence|]. chase_key K.
Qed.

Lemma grouped_elem obs now g f o :
  (∀ f, grouped_by g f = obs |? counts_for now f) → o ∈ grouped_by g f →
  o ∈ obs ∧ is_current now o = true ∧ mem_metric (obs_metric o) CONTEXT_ONLY_METRICS = false
  ∧ METRIC_TO_FACTOR (obs_metric o) = Some f.
Proof.
  intros -> [? K]%elem_of_bfilter. unfold counts_for in K. bool_norm. done.
Qed.

Lemma gate_key_error o :
  raises_key (validate_observation_source o) → METRIC_ASSERTIONS (obs_metric o) = None.
Proof.
  unfold validate_observation_source, get_source. intros K.
  destruct (dget SOURCES (obs_source_id o)); [|by destruct K]. cbn in K.
  destruct (METRIC_ASSERTIONS (obs_metric o)); [|done]. exfalso. cbn in K. chase_key K.
  destruct (bool_decide (_ = ST_ANALYST_ASSESSMENT)); [|chase_key K]. chase_key K. unfold not_in_str_set in K.
  destruct (dget (obs_metadata o) "judgment_type") as [[]|]; destruct K as [? K]; discriminate K.
Qed.

(** [FusionEngine.assess] looks its policy tables up without ever missing
    a key: a [KeyError] can only come from the source gate, for an observation
    whose metric [METRIC_ASSERTIONS] does not list. *)
Theorem assess_key_error_only_from_gate id clock cid obs as_of :
  raises_key (assess id clock cid obs as_of) →
  ∃ o, o ∈ obs ∧ raises_key (validate_observation_source o) ∧ METRIC_ASSERTIONS (obs_metric o) = None.
Proof.
  unfold assess. set (now := match as_of with Some t => t | None => clock end). clearbody now. intros K.
  do 2 (apply raises_key_bind in K as [K|(? & _ & K)]; [chase_key K|]).
  apply raises_key_bind in K as [K|([valid caveats] & K1 & K)].
  { apply foldM_raises_key in K as (o & s' & Ho & K%screen_step_key). eauto using gate_key_error. }
  exfalso. apply raises_key_bind in K as [K|(? & _ & K)]; [chase_key K|].
  pose proof (screen_validated _ _ _ _ _ K1) as Hv. rewrite Forall_forall in Hv.
  apply screen_ok in K1. cbn in K1. subst valid.
  apply raises_key_bind in K as [K|([[g p] c] & K2 & K)].
  { apply foldM_raises_key in K as (o & s' & [Ho _]%elem_of_bfilter & K).
    by eapply group_step_no_key, K; apply Hv. }
  apply group_ok in K2 as [Hg _].
  apply raises_key_bind in K as [K|(acc & _ & K)].
  { apply foldM_raises_key in K as (f & s' & _ & K). eapply factor_step_no_key, K.
    rewrite Hg. cbn. rewrite filter_filter. apply Forall_forall.
    intros o [Ho Hc]%elem_of_bfilter. unfold bears_on in Hc. bool_norm. split; [by apply Hv | done]. }
  apply raises_key_bind in K as [K|([r cf] & _ & K)].
  - unfold overall_scores in K. apply raises_key_bind in K as [K|(? & _ & K)];
      [destruct (feqb _ _); chase_key K|].
    apply raises_key_bind in K as [K|(? & _ & K)]; [destruct (acc_confidence_values acc); chase_key K|].
    chase_key K.
  - unfold new_CorridorAssessment in K. chase_key K.
Qed.
End KeyErrors.

(** ** What an assessment reports *)

Section Reports.
Context `{LibM}.

(** C1.  Evidence is exact: the factors of a returned assessment are the ones
    with at least one observation that is current at the assessment time
    (source accepted, not future, not expired, not stale), and the evidence
    of each is the list of precisely those observations, in input order. *)
Theorem assess_evidence_exact id clock cid obs as_of a :
  assess id clock cid obs as_of = Ok a →
  let now := default clock as_of in
  (∀ f, f ∈ fa_factor <$> ca_factors a ↔ obs |? counts_for now f ≠ []) ∧
  ∀ fa, fa ∈ ca_factors a →
    fa_evidence_ids fa = obs_observation_id <$> obs |? counts_for now (fa_factor fa).
Proof.
  intros (g & acc & cav & ctx & risk & conf & Hg & _ & Hf & _ & _ & _ & ->)%assess_ok now. cbn.
  apply factors_ok in Hf as (l & Hl & Hfs & He). cbn in Hl. rewrite Hl. split.
  - intros f. rewrite sort_by_perm, Hfs, elem_of_bfilter, Hg.
    rewrite negb_true_iff, bool_decide_eq_false. pose proof (CorridorFactor_all_complete f). tauto.
  - intros fa Hfa%elem_of_sort_by. rewrite <-Hg. by apply He.
Qed.

(** The missing metrics of a returned assessment are exactly the required
    metrics for which no current observation was supplied. *)
Theorem assess_missing_exact id clock cid obs as_of a m :
  assess id clock cid obs as_of = Ok a →
  m ∈ ca_missing_required_metrics a ↔
  m ∈ REQUIRED_METRICS ∧
  ∀ o, o ∈ obs → is_current (default clock as_of) o = true → obs_metric o ≠ m.
Proof.
  intros (g & acc & cav & ctx & risk & conf & _ & _ & _ & _ & _ & _ & ->)%assess_ok.
  cbn [ca_missing_required_metrics]. unfold missing_metrics. rewrite elem_of_sort_by, list_elem_of_filter, list_elem_of_fmap.
  split.
  - intros [Hn Hm]. split; [done|]. intros o Ho Hc E. apply Hn. exists o. split; [done|].
    apply elem_of_bfilter. split; [done|]. rewrite Hc. unfold operative. rewrite E.
    clear -Hm. unfold REQUIRED_METRICS in Hm. repeat (apply elem_of_cons in Hm as [->|Hm]; [reflexivity|]).
    by apply elem_of_nil in Hm.
  - intros [Hm Hn]. split; [|done]. intros (o & -> & [Ho Hc]%elem_of_bfilter).
    apply andb_prop in Hc as [Hc _]. by apply (Hn o).
Qed.

Lemma foldl_fmax_le l x b : is_nan x = false → Forall (λ y, is_nan y = false) l →
  fleb (foldl fmax x l) b = true ↔ fleb x b = true ∧ Forall (λ y, fleb y b = true) l.
Proof.
  revert x; induction l as [|y l IH]; intros x Hx Hl; cbn.
  { split; [by intros; split; [|constructor] | by intros [? _]]. }
  apply Forall_cons in Hl as [Hy Hl]. rewrite IH, Forall_cons; [|by unfold fmax; destruct (fltb x y)|done].
  enough (fleb (fmax x y) b = true ↔ fleb x b = true ∧ fleb y b = true) by tauto. unfold fmax.
  destruct (fltb x y) eqn:E.
  - split; [|by intros [_ ?]]. intros Hb. split; [|done]. eapply fleb_trans; [by apply fltb_fleb|done].
  - split; [|by intros [? _]]. intros Hb. split; [done|]. eapply fleb_trans; [|done].
    rewrite fltb_negb in E by (intros ->; done). by apply negb_false_iff in E.
Qed.

Lemma all_below_iff l b : Forall (λ y, is_nan y = false) l →
  all_below l b = true ↔ l ≠ [] ∧ Forall (λ y, fleb y b = true) l.
Proof.
  destruct l as [|x l]; cbn; [by intros _; split; [|intros [? _]]|]. intros [Hx Hl]%Forall_cons.
  rewrite foldl_fmax_le, Forall_cons by done. split; [by intros | by intros [_ ?]].
Qed.

(** C7.  The physical state has precedence over every risk score: the
    assessed state is [PHYSICALLY_CLOSED] exactly when the current port
    availability observations exist and none exceeds 0.01. *)
Theorem assess_physically_closed_iff id clock cid obs as_of a :
  assess id clock cid obs as_of = Ok a →
  Forall (λ o, isfinite (obs_value o) = true) obs →
  let ports := obs |? (λ o, is_current (default clock as_of) o
                            && bool_decide (obs_metric o = M_PORT_AVAILABILITY)) in
  ca_state a = CS_PHYSICALLY_CLOSED ↔
  ports ≠ [] ∧ ∀ o, o ∈ ports → (obs_value o <=? lit 0.01)%F = true.
Proof.
  intros (g & acc & cav & ctx & risk & conf & Hg & _ & _ & _ & _ & _ & ->)%assess_ok Hfin ports. cbn.
  assert (values_of g CF_PORT M_PORT_AVAILABILITY = obs_value <$> ports) as E.
  { unfold values_of, ports. rewrite Hg. f_equal. clear. induction obs as [|o obs IH]; cbn; [done|].
    unfold counts_for at 1. destruct (is_current _ o); cbn; [|done].
    destruct (decide (obs_metric o = M_PORT_AVAILABILITY)) as [Em|Em].
    - rewrite (bool_decide_true (obs_metric o = _)) by done.
      assert (negb (mem_metric (obs_metric o) CONTEXT_ONLY_METRICS)
              && bool_decide (METRIC_TO_FACTOR (obs_metric o) = Some CF_PORT) = true) as ->
        by (by rewrite Em).
      rewrite filter_cons_True by done. by rewrite IH.
    - rewrite (bool_decide_false (obs_metric o = _)) by done. case_match; [|done].
      by rewrite filter_cons_False. }
  assert (classify risk g = CS_PHYSICALLY_CLOSED ↔ all_below (obs_value <$> ports) (lit 0.01) = true) as ->.
  { unfold classify. rewrite E. destruct (all_below (obs_value <$> ports) (lit 0.01)); [done|].
    split; [|done]. repeat case_match; done. }
  rewrite all_below_iff.
  - rewrite Forall_fmap, Forall_forall. split; intros [H1 H2]; (split; [|done]);
      by (intros Hn; apply H1; destruct ports).
  - apply Forall_fmap, Forall_forall. intros o [Ho _]%elem_of_bfilter.
    rewrite Forall_forall in Hfin. apply Hfin in Ho. cbn. by destruct (obs_value o).
Qed.
End Reports.

(** ** Concrete inputs *)

(** A function with the law of [math.exp] that the code relies on. *)
Definition example_exp (x : float) : float :=
  match x with
  | Fin q => if Qle_bool q 0 then fl (1 / (1 - q)) else f1
  | Inf true => f0
  | _ => f1
  end.

Lemma example_exp_nonpos x : fleb x f0 = true → is_score (example_exp x) = true.
Proof.
  destruct x as [q|[]|]; try done. rewrite f0_eq, fleb_Fin. intros H. cbn.
  destruct (Qle_bool q 0); [|done].
  apply score_fl; [apply Qle_shift_div_l | apply Qle_shift_div_r]; Lqa.lra.
Qed.

#[local] Instance example_LibM : LibM := {| m_exp := example_exp; m_exp_nonpos := example_exp_nonpos |}.

Definition example_observations : list Observation :=
  [operator_obs "p1" AC_LIVE_AVAILABILITY M_PORT_AVAILABILITY 0.005 0;
   operator_obs "c1" AC_CYBER_HEALTH M_CYBER_CONTROL_HEALTH 0.9 1800;
   operator_obs "p2" AC_LIVE_AVAILABILITY M_PORT_AVAILABILITY 0.9 (-90000)].

(** One hour after the first observation: the third one is stale. *)
Definition example_assessment : res CorridorAssessment :=
  assess "a-1" (utc 3600) "corridor/nsr" example_observations None.

Lemma assess_evidence_exact_witness :
  ∃ a, example_assessment = Ok a ∧
    ∀ fa, fa ∈ ca_factors a →
      fa_evidence_ids fa = obs_observation_id <$> example_observations |? counts_for (utc 3600) (fa_factor fa).
Proof.
  eexists. split; [vm_compute; reflexivity|].
  apply (assess_evidence_exact "a-1" (utc 3600) "corridor/nsr" example_observations None).
  vm_compute. reflexivity.
Defined.

Lemma assess_missing_exact_witness :
  ∃ a, example_assessment = Ok a ∧
    (M_CYBER_CONTROL_HEALTH ∈ ca_missing_required_metrics a ↔
     M_CYBER_CONTROL_HEALTH ∈ REQUIRED_METRICS ∧
     ∀ o, o ∈ example_observations → is_current (utc 3600) o = true → obs_metric o ≠ M_CYBER_CONTROL_HEALTH).
Proof.
  eexists. split; [vm_compute; reflexivity|].
  apply (assess_missing_exact "a-1" (utc 3600) "corridor/nsr" example_observations None).
  vm_compute. reflexivity.
Defined.

Lemma assess_physically_closed_iff_witness :
  ∃ a, example_assessment = Ok a ∧ ca_state a = CS_PHYSICALLY_CLOSED.
Proof.
  eexists. split; [vm_compute; reflexivity|].
  apply (assess_physically_closed_iff "a-1" (utc 3600) "corridor/nsr" example_observations None).
  - vm_compute. reflexivity.
  - apply (bool_decide_unpack _). vm_compute. exact I.
  - split; [vm_compute; discriminate|].
    apply Forall_forall, (bool_decide_unpack _). vm_compute. exact I.
Defined.

Lemma assess_key_error_only_from_gate_witness :
  ∃ o, o ∈ [operator_obs "s1" AC_LIVE_AVAILABILITY M_STARLINK_LATENCY_MS 40 0] ∧
    METRIC_ASSERTIONS (obs_metric o) = None.
Proof.
  destruct (assess_key_error_only_from_gate "a-1" (utc 60) "corridor/nsr"
              [operator_obs "s1" AC_LIVE_AVAILABILITY M_STARLINK_LATENCY_MS 40 0] None)
    as (o & Ho & _ & Hm).
  - exists "starlink_latency_ms". vm_compute. reflexivity.
  - exists o. split; assumption.
Defined.
