(* ===== verification/Compiler.v ===== *)
(** * compiler.py: the bounded exact mitigation compiler

    [evaluate], [project_risk] and [better] are the methods of
    [ContinuityCompiler]; [compile] enumerates every subset of the available
    actions ([combinations] of each size, in order) and keeps the best
    candidate.  The theorems show that the enumeration is exact: the plan is
    feasible, and no feasible subset of the actions is strictly better. *)

From Stdlib Require Import ZArith QArith Lqa.
From S2P Require Import Prelude PyFloat FloatError PyFormat Domain Sources Fusion.

Open Scope Z_scope.

Record Candidate := {
  cand_actions : list MitigationAction;
  cand_cost : float;
  cand_continuity : float;
  cand_risk : float
}.

Definition fdiv_all (num : list float) (den : float) : res float := fdiv (fsum num) den.

(** [{factor.factor: factor.risk for factor in request.assessment.factors}] *)
Definition factor_risks_of (a : CorridorAssessment) : dict CorridorFactor float :=
  foldl (λ d f, dset d (fa_factor f) (fa_risk f)) [] (ca_factors a).

(** [sum(factor_risks[factor] * weights[factor] for factor in factor_risks) / weight_used] *)
Definition weighted_mean (factor_risks : dict CorridorFactor float) (weight_used : float) : res float :=
  fdiv_all ((λ kv, (kv.2 * FACTOR_WEIGHTS kv.1)%F) <$> factor_risks) weight_used.

(** One entry of [action.risk_reductions]. *)
Definition reduce_factor (d : dict CorridorFactor float) (kv : CorridorFactor * float)
    : dict CorridorFactor float :=
  match dget d kv.1 with
  | Some r => dset d kv.1 (r * (f1 - fmin (lit 0.95) kv.2))%F
  | None => d
  end.

Definition apply_reductions (d : dict CorridorFactor float) (subset : list MitigationAction)
    : dict CorridorFactor float :=
  foldl (λ d action, foldl reduce_factor d (ma_risk_reductions action)) d subset.

(** The generic gain of an action without factor reductions. *)
Definition apply_gain (projected_risk : float) (action : MitigationAction) : float :=
  match ma_risk_reductions action with
  | [] => (projected_risk * (f1 - fmin (lit 0.95) (ma_continuity_gain action)))%F
  | _ => projected_risk
  end.

Definition project_risk (request : CompileRequest) (subset : list MitigationAction) : res float :=
  let a := cr_assessment request in
  let factor_risks := factor_risks_of a in
  projected_risk ←
    (match factor_risks with
     | [] => Ok (ca_overall_risk a)
     | _ =>
       let weight_used := fsum ((λ kv, FACTOR_WEIGHTS kv.1) <$> factor_risks) in
       base_factor_risk ← weighted_mean factor_risks weight_used;
       let non_factor_penalty := fmax f0 (ca_overall_risk a - base_factor_risk)%F in
       projected_factor_risk ← weighted_mean (apply_reductions factor_risks subset) weight_used;
       Ok (fmin f1 (projected_factor_risk + non_factor_penalty)%F)
     end);
  Ok (fmax f0 (fmin f1 (foldl apply_gain projected_risk subset))).

Definition action_ids (subset : list MitigationAction) : list string := ma_action_id <$> subset.

(** [prerequisites.issubset(ids)] and [incompatible_with.intersection(ids)]. *)
Definition prerequisites_met (ids : list string) (a : MitigationAction) : bool :=
  forallb (λ p, mem_str p ids) (ma_prerequisites a).
Definition incompatible (ids : list string) (a : MitigationAction) : bool :=
  existsb (λ p, mem_str p ids) (ma_incompatible_with a).

Definition total_cost (subset : list MitigationAction) : float := fsum (ma_cost <$> subset).

Definition evaluate (request : CompileRequest) (subset : list MitigationAction) : res (option Candidate) :=
  let ids := action_ids subset in
  if (total_cost subset >? co_budget (cr_objective request))%F then Ok None
  else if negb (forallb (λ a, prerequisites_met ids a && negb (incompatible ids a)) subset) then Ok None
  else
    projected_risk ← project_risk request subset;
    let projected_continuity := (f1 - projected_risk)%F in
    Ok (Some {| cand_actions := subset; cand_cost := total_cost subset;
                cand_continuity := fmin f1 projected_continuity;
                cand_risk := fmax f0 projected_risk |}).

(** Python's [<] on the key tuples: the first component that differs decides. *)
Fixpoint ids_ltb (a b : list string) : bool :=
  match a, b with
  | _, [] => false
  | [], _ :: _ => true
  | x :: a, y :: b => if str_eqb x y then ids_ltb a b else str_ltb x y
  end.

Definition key : Type := float * float * list string.

Definition key_ltb (a b : key) : bool :=
  let '(a1, a2, a3) := a in
  let '(b1, b2, b3) := b in
  if feqb a1 b1 then (if feqb a2 b2 then ids_ltb a3 b3 else fltb a2 b2) else fltb a1 b1.

Definition meets (target : float) (c : Candidate) : bool := (cand_continuity c >=? target)%F.

Definition better (candidate incumbent : Candidate) (target : float) : bool :=
  let candidate_meets := meets target candidate in
  let incumbent_meets := meets target incumbent in
  if negb (Bool.eqb candidate_meets incumbent_meets) then candidate_meets
  else if candidate_meets then
    key_ltb (cand_cost candidate, fneg (cand_continuity candidate), action_ids (cand_actions candidate))
            (cand_cost incumbent, fneg (cand_continuity incumbent), action_ids (cand_actions incumbent))
  else
    key_ltb (fneg (cand_continuity candidate), cand_cost candidate, action_ids (cand_actions candidate))
            (fneg (cand_continuity incumbent), cand_cost incumbent, action_ids (cand_actions incumbent)).

Definition action_leb (a b : MitigationAction) : bool := str_leb (ma_action_id a) (ma_action_id b).

(** [sorted(request.available_actions, key=...)] *)
Definition sorted_actions (request : CompileRequest) : list MitigationAction :=
  sort_by action_leb (cr_available_actions request).

(** Every subset, by size and then in [combinations] order. *)
Definition all_subsets {A} (l : list A) : list (list A) :=
  mjoin (combinations l <$> seq 0 (S (length l))).

(** The body of the enumeration loop. *)
Definition search_step (request : CompileRequest) (best : option Candidate) (subset : list MitigationAction)
    : res (option Candidate) :=
  candidate ← evaluate request subset;
  Ok (match candidate with
      | None => best
      | Some c =>
          match best with
          | None => Some c
          | Some b => if better c b (co_minimum_continuity (cr_objective request)) then Some c else best
          end
      end).

Definition compile (max_actions : Z) (plan_id : string) (request : CompileRequest) : res CompiledPlan :=
  let actions := sorted_actions request in
  let count := Z.of_nat (length actions) in
  let a := cr_assessment request in
  let objective := cr_objective request in
  _ ← raise_if (max_actions <? count)
        (ValueError ("action count " +:+ str_Z count +:+ " exceeds deterministic compiler limit "
                     +:+ str_Z max_actions));
  let base_continuity := fmax f0 (f1 - ca_overall_risk a)%F in
  best ← foldM (search_step request) None (all_subsets actions);
  match best with
  | None =>
      new_CompiledPlan
        {| cp_plan_id := plan_id; cp_assessment_id := ca_assessment_id a; cp_selected_actions := [];
           cp_total_cost := f0; cp_projected_continuity := base_continuity;
           cp_projected_risk := ca_overall_risk a; cp_objective_met := false;
           cp_deterministic_solver := "bounded-exact-v1";
           cp_approval_required := co_human_approval_required objective;
           cp_rejected_reason := Some "no feasible action set within budget and compatibility constraints" |}
  | Some best =>
      let objective_met := meets (co_minimum_continuity objective) best in
      new_CompiledPlan
        {| cp_plan_id := plan_id; cp_assessment_id := ca_assessment_id a;
           cp_selected_actions := cand_actions best;
           cp_total_cost := fround 2 (cand_cost best);
           cp_projected_continuity := fround 6 (cand_continuity best);
           cp_projected_risk := fround 6 (cand_risk best); cp_objective_met := objective_met;
           cp_deterministic_solver := "bounded-exact-v1";
           cp_approval_required := co_human_approval_required objective
                                   || existsb ma_requires_human_approval (cand_actions best);
           cp_rejected_reason := if objective_met then None
                                 else Some "objective not achievable with available actions" |}
  end.

(** ** The order on candidates *)

Definition key_ok (k : key) : Prop := k.1.1 ≠ NaN ∧ k.1.2 ≠ NaN.

Lemma ids_ltb_irrefl a : ids_ltb a a = false.
Proof. induction a as [|x a IH]; cbn; [done|]. unfold str_eqb. by rewrite String.eqb_refl. Qed.

Lemma str_ltb_trans s t u : str_ltb s t = true → str_ltb t u = true → str_ltb s u = true.
Proof.
  unfold str_ltb, String.ltb. intros H1 H2.
  destruct (String.compare s t) eqn:A; try done. destruct (String.compare t u) eqn:B; try done.
  pose proof (str_compare_trans_le s t u) as T. rewrite A, B in T.
  destruct (String.compare s u) eqn:C; [|done|exfalso; by apply T].
  apply String.compare_eq_iff in C. subst u. rewrite String.compare_antisym, A in B. done.
Qed.

Lemma ids_ltb_trans a b c : ids_ltb a b = true → ids_ltb b c = true → ids_ltb a c = true.
Proof.
  revert b c; induction a as [|x a IH]; intros [|y b] [|z c]; cbn; try done.
  unfold str_eqb. destruct (String.eqb_spec x y) as [->|Hxy].
  - destruct (String.eqb_spec y z); [apply IH | done].
  - destruct (String.eqb_spec y z) as [->|Hyz].
    + by rewrite (proj2 (String.eqb_neq x z)) by done.
    + intros H1 H2. pose proof (str_ltb_trans _ _ _ H1 H2) as H3.
      destruct (String.eqb_spec x z) as [->|]; [|done].
      unfold str_ltb, String.ltb in H3. destruct (String.compare z z) eqn:E; try done.
      pose proof (String.compare_antisym z z) as F. rewrite E in F. done.
Qed.

Lemma key_ltb_irrefl k : key_ok k → key_ltb k k = false.
Proof.
  destruct k as [[x y] l]. intros [Hx Hy]. cbn in *. rewrite !feqb_refl by done. apply ids_ltb_irrefl.
Qed.

(** Lexicographic composition of the strict order on floats with another one. *)
Lemma lex_trans x y z (P Q R : bool) :
  (P = true → Q = true → R = true) →
  (if feqb x y then P else fltb x y) = true → (if feqb y z then Q else fltb y z) = true →
  (if feqb x z then R else fltb x z) = true.
Proof.
  intros HR H1 H2. destruct (feqb x y) eqn:E1, (feqb y z) eqn:E2.
  - rewrite (feqb_trans _ _ _ E1 E2). auto.
  - pose proof (feqb_fleb _ _ E1) as [L _]. pose proof (fleb_fltb_trans _ _ _ L H2) as L2.
    by rewrite (fltb_feqb_excl _ _ L2).
  - pose proof (feqb_fleb _ _ E2) as [L _]. pose proof (fltb_fleb_trans _ _ _ H1 L) as L2.
    by rewrite (fltb_feqb_excl _ _ L2).
  - pose proof (fltb_trans _ _ _ H1 H2) as L2. by rewrite (fltb_feqb_excl _ _ L2).
Qed.

Lemma key_ltb_trans a b c : key_ltb a b = true → key_ltb b c = true → key_ltb a c = true.
Proof.
  destruct a as [[a1 a2] a3], b as [[b1 b2] b3], c as [[c1 c2] c3]. cbn. intros H1 H2.
  refine (lex_trans a1 b1 c1 _ _ _ _ H1 H2). intros H3 H4.
  refine (lex_trans a2 b2 c2 _ _ _ _ H3 H4). apply ids_ltb_trans.
Qed.

#[local] Arguments key_ltb : simpl never.

Definition cand_ok (c : Candidate) : Prop := cand_cost c ≠ NaN ∧ is_score (cand_continuity c) = true.

Lemma better_irrefl c t : cand_ok c → better c c t = false.
Proof.
  intros [H1 H2%score_not_NaN]. unfold better. rewrite Bool.eqb_reflx. cbn [negb].
  destruct (meets t c); match goal with |- key_ltb ?k ?k = false => apply (key_ltb_irrefl k) end;
    split; cbn; auto using fneg_not_NaN.
Qed.

Lemma better_trans a b c t : better a b t = true → better b c t = true → better a c t = true.
Proof.
  unfold better. destruct (meets t a), (meets t b), (meets t c); cbn; try done; apply key_ltb_trans.
Qed.

(** Being not better than an incumbent, in the terms of the objective. *)
Lemma not_better_meets a b t :
  cand_ok a → cand_ok b → better a b t = false → meets t a = true →
  meets t b = true ∧ fleb (cand_cost b) (cand_cost a) = true.
Proof.
  intros [Ha _] [Hb _]. unfold better, key_ltb. destruct (meets t a), (meets t b); cbn; try done. intros E _. split; [done|].
  destruct (feqb (cand_cost a) (cand_cost b)) eqn:F; [by apply feqb_fleb in F as [_ ?]|].
  apply fltb_fleb, fltb_tricho; done.
Qed.

Lemma not_better_continuity a b t :
  cand_ok a → cand_ok b → better a b t = false → meets t b = false →
  fleb (cand_continuity a) (cand_continuity b) = true.
Proof.
  intros [_ Ha%score_not_NaN] [_ Hb%score_not_NaN]. unfold better, key_ltb.
  destruct (meets t a), (meets t b); cbn; try done. intros E _. rewrite <-fneg_le.
  destruct (feqb (fneg (cand_continuity a)) (fneg (cand_continuity b))) eqn:F; [by apply feqb_fleb in F as [_ ?]|].
  apply fltb_fleb, fltb_tricho; auto using fneg_not_NaN.
Qed.

(** ** The projection is total *)

Definition fin_val (x : float) : Q := match x with Fin q => q | _ => 0%Q end.

Lemma weight_bounds f : ∃ q, FACTOR_WEIGHTS f = Fin q ∧ (1#25 <= q)%Q ∧ (q <= 1)%Q.
Proof.
  exists (fin_val (FACTOR_WEIGHTS f)). split; [by destruct f|].
  split; apply Qle_bool_iff; destruct f; vm_compute; reflexivity.
Qed.

Lemma factors_few (l : list CorridorFactor) : NoDup l → (length l <= 11)%nat.
Proof.
  intros Hl. change 11%nat with (length CorridorFactor_all). apply submseteq_length, NoDup_submseteq; [done|].
  intros f _. apply CorridorFactor_all_complete.
Qed.

(** The weights of a nonempty set of factors never add up to zero. *)
Lemma weight_used_nonzero (l : list CorridorFactor) :
  l ≠ [] → NoDup l → ∃ q, fsum (FACTOR_WEIGHTS <$> l) = Fin q ∧ ¬ (q == 0)%Q.
Proof.
  intros Hne Hl%factors_few.
  assert (∃ qs, FACTOR_WEIGHTS <$> l = Fin <$> qs ∧ length qs = length l ∧
            Forall (λ q, 0 <= q)%Q qs ∧ (qsum qs <= nQ (length qs))%Q ∧ (qs ≠ [] → (1#25 <= qsum qs)%Q))
    as (qs & -> & Elen & Hpos & Hup & Hlow).
  { clear. induction l as [|f l (qs & IH1 & IH2 & IH3 & IH4 & IH5)].
    { exists []. repeat split; try done. }
    destruct (weight_bounds f) as (q & Hq & Q1 & Q2). exists (q :: qs). cbn [fmap list_fmap length qsum].
    pose proof (qsum_nonneg qs IH3). rewrite nQ_S. split_and!; [by rewrite Hq, IH1|congruence|by constructor; [lra|]|lra|intros _; lra]. }
  destruct (fsum_near 10 ltac:(lia) qs) as (r & -> & [N1 N2]); [done| | |].
  - rewrite Elen. unfold nQ. rewrite <-Zle_Qle. lia.
  - change (inject_Z (2 ^ 50) * ulp 10)%Q with (inject_Z (2 ^ 50) * (1 # (2 ^ 43)))%Q.
    assert (nQ (length qs) <= 11)%Q by (rewrite Elen; unfold nQ; change 11%Q with (inject_Z 11); rewrite <-Zle_Qle; lia).
    change (inject_Z (2 ^ 50) * (1 # 2 ^ 43))%Q with (1125899906842624 # 8796093022208)%Q. lra.
  - exists r. split; [done|]. intros Hr.
    assert (nQ (length qs) <= 11)%Q by (rewrite Elen; unfold nQ; change 11%Q with (inject_Z 11); rewrite <-Zle_Qle; lia).
    specialize (Hlow ltac:(by destruct qs, l)). change (ulp 10) with (1 # (2 ^ 43))%Q in N1.
    change (2 ^ 43)%positive with 8796093022208%positive in N1. lra.
Qed.

Lemma factor_risks_NoDup a : NoDup (dkeys (factor_risks_of a)).
Proof.
  unfold factor_risks_of. assert (∀ l (d : dict CorridorFactor float), NoDup (dkeys d) →
    NoDup (dkeys (foldl (λ d f, dset d (fa_factor f) (fa_risk f)) d l))) as H.
  { induction l as [|x l IH]; intros d Hd; cbn; [done|]. apply IH, dset_NoDup, Hd. }
  apply H. constructor.
Qed.

Lemma fdiv_total x q : ¬ (q == 0)%Q → ∃ r, fdiv x (Fin q) = Ok r.
Proof.
  intros Hq. unfold fdiv. destruct (Qeq_bool q 0) eqn:E; [by apply Qeq_bool_eq in E|].
  destruct x; eauto.
Qed.

Lemma project_risk_total request subset :
  ∃ r, project_risk request subset = Ok r ∧ is_score r = true.
Proof.
  unfold project_risk. pose proof (factor_risks_NoDup (cr_assessment request)) as Hn.
  destruct (factor_risks_of (cr_assessment request)) as [|kv d] eqn:E;
    [eexists; split; [reflexivity|apply score_clamp]|].
  destruct (weight_used_nonzero (dkeys (kv :: d))) as (q & Hq & Hq0); [done|done|].
  unfold dkeys in Hq. rewrite <-list_fmap_compose in Hq. unfold compose in Hq. cbv zeta. rewrite Hq.
  unfold weighted_mean, fdiv_all.
  edestruct (fdiv_total (fsum ((λ kv, (kv.2 * FACTOR_WEIGHTS kv.1)%F) <$> kv :: d)) q Hq0) as [r1 ->].
  edestruct (fdiv_total (fsum ((λ kv, (kv.2 * FACTOR_WEIGHTS kv.1)%F) <$> apply_reductions (kv :: d) subset)) q Hq0) as [r2 ->].
  eexists; split; [reflexivity|apply score_clamp].
Qed.

(** ** Feasible subsets and the candidates they yield *)

(** The constraints that pydantic checks on the parts of a request. *)
Definition request_valid (request : CompileRequest) : bool :=
  ContinuityObjective_valid (cr_objective request)
  && forallb MitigationAction_valid (cr_available_actions request).

(** A subset can be carried out: its cost is within the budget, it contains the
    prerequisites of its actions and no two of them are incompatible. *)
Record feasible (request : CompileRequest) (subset : list MitigationAction) : Prop := {
  feasible_budget : (total_cost subset <=? co_budget (cr_objective request))%F = true;
  feasible_prerequisites a p : a ∈ subset → p ∈ ma_prerequisites a → p ∈ action_ids subset;
  feasible_compatible a p : a ∈ subset → p ∈ ma_incompatible_with a → p ∉ action_ids subset
}.

(** The residual risk of a subset ([project_risk] is total). *)
Definition residual_risk (request : CompileRequest) (subset : list MitigationAction) : float :=
  match project_risk request subset with Ok r => r | Raise _ => f1 end.

Definition candidate_of (request : CompileRequest) (subset : list MitigationAction) : Candidate :=
  {| cand_actions := subset; cand_cost := total_cost subset;
     cand_continuity := fmin f1 (f1 - residual_risk request subset)%F;
     cand_risk := fmax f0 (residual_risk request subset) |}.

Lemma residual_risk_score request subset : is_score (residual_risk request subset) = true.
Proof. unfold residual_risk. by destruct (project_risk_total request subset) as (r & -> & ?). Qed.

Section search.
Context (request : CompileRequest) (Hvalid : request_valid request = true).

Lemma budget_not_NaN : co_budget (cr_objective request) ≠ NaN.
Proof using Hvalid.
  unfold request_valid, ContinuityObjective_valid in Hvalid. bool_norm.
  intros E. match goal with H : (f0 <? _)%F = true |- _ => rewrite E in H; by rewrite f0_eq in H end.
Qed.

Lemma total_cost_not_NaN subset :
  (∀ a, a ∈ subset → a ∈ cr_available_actions request) → total_cost subset ≠ NaN.
Proof using Hvalid.
  intros Hs. apply fsum_not_NaN, Forall_fmap, Forall_forall. intros a Ha%Hs.
  unfold request_valid in Hvalid. bool_norm. rewrite forallb_forall in H0.
  apply list_elem_of_In in Ha. apply H0 in Ha. unfold MitigationAction_valid in Ha. by bool_norm.
Qed.

Lemma compatible_iff subset :
  forallb (λ a, prerequisites_met (action_ids subset) a && negb (incompatible (action_ids subset) a)) subset = true ↔
  (∀ a p, a ∈ subset → p ∈ ma_prerequisites a → p ∈ action_ids subset) ∧
  (∀ a p, a ∈ subset → p ∈ ma_incompatible_with a → p ∉ action_ids subset).
Proof using.
  rewrite forallb_forall. unfold prerequisites_met, incompatible. split.
  - intros H; split; intros a p Ha%list_elem_of_In Hp; specialize (H a Ha);
      apply andb_prop in H as [H1 H2]; apply list_elem_of_In in Hp.
    + rewrite forallb_forall in H1. by apply mem_str_true, H1.
    + intros Hq%mem_str_true. apply negb_true_iff in H2. apply not_true_iff_false in H2.
      apply H2, existsb_exists. eauto.
  - intros [H1 H2] a Ha%list_elem_of_In. apply andb_true_intro; split.
    + apply forallb_forall. intros p Hp%list_elem_of_In. apply mem_str_true. eauto.
    + apply negb_true_iff, not_true_iff_false. rewrite existsb_exists.
      intros (p & Hp%list_elem_of_In & Hq%mem_str_true). by apply (H2 a p).
Qed.

Lemma evaluate_spec subset :
  (∀ a, a ∈ subset → a ∈ cr_available_actions request) →
  (feasible request subset ∧ evaluate request subset = Ok (Some (candidate_of request subset))) ∨
  (¬ feasible request subset ∧ evaluate request subset = Ok None).
Proof using Hvalid.
  intros Hs. unfold evaluate, candidate_of, residual_risk.
  destruct (project_risk_total request subset) as (r & -> & _).
  rewrite fltb_negb by auto using budget_not_NaN, total_cost_not_NaN.
  destruct (total_cost subset <=? _)%F eqn:E1; cbn; [|right; split; [intros []; congruence|done]].
  destruct (forallb _ subset) eqn:E2; cbn.
  - left. apply compatible_iff in E2 as [H1 H2]. by repeat split.
  - right. split; [|done]. intros [_ H1 H2]. apply not_true_iff_false in E2. apply E2, compatible_iff. done.
Qed.

Lemma candidate_ok subset :
  (∀ a, a ∈ subset → a ∈ cr_available_actions request) → cand_ok (candidate_of request subset).
Proof using Hvalid.
  intros Hs. split; [by apply total_cost_not_NaN|]. cbn.
  apply score_fmin; [apply score_1|apply score_compl, residual_risk_score].
Qed.

Let target := co_minimum_continuity (cr_objective request).

(** One pass of the loop. *)
Lemma search_step_spec best s :
  (∀ a, a ∈ s → a ∈ cr_available_actions request) →
  (∀ b, best = Some b → cand_ok b) →
  ∃ best1, search_step request best s = Ok best1 ∧ (∀ b, best1 = Some b → cand_ok b) ∧
    (best1 = None → best = None ∧ ¬ feasible request s) ∧
    (∀ b, best = Some b → ∃ b1, best1 = Some b1 ∧ (b1 = b ∨ better b1 b target = true)) ∧
    (∀ b1, best1 = Some b1 → best = Some b1 ∨ (feasible request s ∧ b1 = candidate_of request s)) ∧
    (feasible request s → ∃ b1, best1 = Some b1 ∧ better (candidate_of request s) b1 target = false).
Proof using Hvalid.
  intros Hs Hok. pose proof (candidate_ok s Hs) as Hc. unfold search_step.
  destruct (evaluate_spec s Hs) as [[Hf ->]|[Hf ->]]; cbn [mbind res_bind];
    (eexists; split; [reflexivity|]).
  - change (co_minimum_continuity (cr_objective request)) with target.
    destruct best as [b|]; [destruct (better (candidate_of request s) b target) eqn:E|]; split_and!; try done;
      try (intros ? [= <-]; eauto); try (intros _; eexists; split; [reflexivity|]); auto using better_irrefl.
  - split_and!; [done..| |by auto|by intros ?%Hf]. intros b ->. eauto.
Qed.

(** The loop keeps a candidate that nothing examined so far improves on. *)
Lemma search_spec L best :
  (∀ s a, s ∈ L → a ∈ s → a ∈ cr_available_actions request) →
  (∀ b, best = Some b → cand_ok b) →
  ∃ best', foldM (search_step request) best L = Ok best' ∧
    (best' = None → best = None ∧ ∀ s, s ∈ L → ¬ feasible request s) ∧
    ∀ b', best' = Some b' →
      (best = Some b' ∨ ∃ s, s ∈ L ∧ feasible request s ∧ b' = candidate_of request s) ∧
      (∀ b, best = Some b → b' = b ∨ better b' b target = true) ∧
      (∀ s, s ∈ L → feasible request s → better (candidate_of request s) b' target = false).
Proof using Hvalid.
  revert best. induction L as [|s L IH]; intros best HL Hok.
  { exists best. cbn. split; [done|]. split; [intros ->; split; [done|by intros ? ?%elem_of_nil]|].
    intros b' ->. split; [by left|]. split; [intros b [= ->]; by left|by intros ? ?%elem_of_nil]. }
  assert (∀ a, a ∈ s → a ∈ cr_available_actions request) as Hs by (intros a; apply (HL s), list_elem_of_here).
  assert (∀ s a, s ∈ L → a ∈ s → a ∈ cr_available_actions request) as HL' by (intros; eapply HL; [by right|done]).
  pose proof (search_step_spec best s Hs Hok) as (best1 & Hstep & Hok1 & Hnone & Hkeep & Horigin & Hnew).
  cbn [foldM]. rewrite Hstep. cbn.
  destruct (IH best1 HL' Hok1) as (best' & -> & H1 & H2). exists best'. split; [done|]. split.
  - intros [E H]%H1. destruct (Hnone E) as [Hb0 Hf0]. split; [done|]. intros s' [->| ?]%elem_of_cons; [done|by apply H].
  - intros b' Eb. destruct (H2 b' Eb) as (H3 & H4 & H5). split_and!.
    + destruct H3 as [E|(s' & ? & ? & ?)]; [|right; exists s'; split_and!; [by right|done..]].
      destruct (Horigin b' E) as [?|[? ?]]; [by left|right; exists s; split_and!; [by left|done..]].
    + intros b Hb. destruct (Hkeep b Hb) as (b1 & E1 & Hb1). destruct (H4 b1 E1) as [->|Hb']; [done|right].
      destruct Hb1 as [->|Hb1]; [done|by eapply better_trans].
    + intros s' [->| ?]%elem_of_cons Hf; [|by apply H5]. destruct (Hnew Hf) as (b1 & E1 & Hb1).
      destruct (H4 b1 E1) as [->|Hb']; [done|].
      destruct (better (candidate_of request s) b' target) eqn:F; [|done].
      by rewrite (better_trans _ _ _ _ F Hb') in Hb1.
Qed.
End search.

Lemma elem_of_all_subsets {A} (l s : list A) : s ∈ all_subsets l ↔ sublist s l.
Proof.
  unfold all_subsets. rewrite list_elem_of_join. split.
  - intros (L & HL & (k & -> & _)%list_elem_of_fmap). by apply combinations_spec in HL as [? _].
  - intros Hs. exists (combinations l (length s)). split; [by apply combinations_spec|].
    apply list_elem_of_fmap. exists (length s). split; [done|].
    apply elem_of_seq. pose proof (sublist_length _ _ Hs). lia.
Qed.

Lemma subset_available request s :
  s ∈ all_subsets (sorted_actions request) → ∀ a, a ∈ s → a ∈ cr_available_actions request.
Proof.
  intros Hs%elem_of_all_subsets a Ha. apply (elem_of_sort_by action_leb).
  by eapply sublist_submseteq, elem_of_submseteq in Hs.
Qed.

Lemma empty_feasible request : request_valid request = true → feasible request [].
Proof.
  intros Hv. split; [|by intros ?? ?%elem_of_nil..].
  unfold request_valid, ContinuityObjective_valid in Hv. bool_norm. by apply fltb_fleb.
Qed.

(** The result of [compile] on a valid request within the limit. *)
Lemma compile_ok max_actions plan_id request :
  request_valid request = true → Z.of_nat (length (cr_available_actions request)) ≤ max_actions →
  ∃ s, sublist s (sorted_actions request) ∧ feasible request s ∧
    (∀ s', sublist s' (sorted_actions request) → feasible request s' →
       better (candidate_of request s') (candidate_of request s)
              (co_minimum_continuity (cr_objective request)) = false) ∧
    compile max_actions plan_id request = Ok
      (let c := candidate_of request s in
       let objective_met := meets (co_minimum_continuity (cr_objective request)) c in
       {| cp_plan_id := plan_id; cp_assessment_id := ca_assessment_id (cr_assessment request);
          cp_selected_actions := s; cp_total_cost := fround 2 (cand_cost c);
          cp_projected_continuity := fround 6 (cand_continuity c);
          cp_projected_risk := fround 6 (cand_risk c); cp_objective_met := objective_met;
          cp_deterministic_solver := "bounded-exact-v1";
          cp_approval_required := co_human_approval_required (cr_objective request)
                                  || existsb ma_requires_human_approval s;
          cp_rejected_reason := if objective_met then None
                                else Some "objective not achievable with available actions" |}).
Proof.
  intros Hv Hn. unfold compile, sorted_actions. rewrite sort_by_length. fold (sorted_actions request).
  rewrite (proj2 (Z.ltb_ge _ _)) by exact Hn. cbn [raise_if mbind res_bind]. cbv zeta.
  destruct (search_spec request Hv (all_subsets (sorted_actions request)) None) as (best & -> & Hnone & Hbest);
    [intros s a Hs; by apply subset_available|done|]. cbn [mbind res_bind].
  destruct best as [b|].
  2:{ destruct Hnone as [_ H]; [done|]. exfalso. apply (H []), empty_feasible; [|done].
      apply elem_of_all_subsets, sublist_nil_l. }
  destruct (Hbest b eq_refl) as ([?|(s & Hs & Hf & ->)] & _ & Hopt); [done|].
  exists s. split_and!; [by apply elem_of_all_subsets|done| |].
  - intros s' Hs' Hf'. apply Hopt; [by apply elem_of_all_subsets|done].
  - unfold new_CompiledPlan. cbn.
    rewrite (score_round 6 (fmin _ _)), (score_round 6 (fmax _ _)); [done| |];
      auto using score_fmin, score_fmax, score_compl, residual_risk_score, score_0, score_1.
Qed.

(** C2.  For a valid request with at most [max_actions] actions the compiler
    always returns a plan.  The selected actions are a feasible subset of the
    available ones (within the budget, closed under prerequisites, pairwise
    compatible), and no feasible subset is better in the documented order: the
    exhaustive search is exact. *)
Theorem compile_exact max_actions plan_id request :
  request_valid request = true → Z.of_nat (length (cr_available_actions request)) ≤ max_actions →
  ∃ p, compile max_actions plan_id request = Ok p ∧
    sublist (cp_selected_actions p) (sorted_actions request) ∧
    feasible request (cp_selected_actions p) ∧
    ∀ s, sublist s (sorted_actions request) → feasible request s →
      better (candidate_of request s) (candidate_of request (cp_selected_actions p))
             (co_minimum_continuity (cr_objective request)) = false.
Proof.
  intros Hv Hn. destruct (compile_ok max_actions plan_id request Hv Hn) as (s & H1 & H2 & H3 & E).
  eexists. split; [exact E|]. done.
Qed.

(** What the plan reports is what the search found: the objective is
    met exactly when some feasible subset reaches the target; then the selected
    subset is a cheapest one of those that reach it, and otherwise it has the
    largest continuity among the feasible ones and a rejection reason is given. *)
Theorem compile_objective_met_iff max_actions plan_id request p :
  request_valid request = true → compile max_actions plan_id request = Ok p →
  let target := co_minimum_continuity (cr_objective request) in
  let option s := sublist s (sorted_actions request) ∧ feasible request s in
  let continuity s := cand_continuity (candidate_of request s) in
  (cp_objective_met p = true ↔ ∃ s, option s ∧ (continuity s >=? target)%F = true) ∧
  (cp_objective_met p = true → cp_rejected_reason p = None ∧
     ∀ s, option s → (continuity s >=? target)%F = true →
       (total_cost (cp_selected_actions p) <=? total_cost s)%F = true) ∧
  (cp_objective_met p = false → is_Some (cp_rejected_reason p) ∧
     ∀ s, option s → (continuity s <=? continuity (cp_selected_actions p))%F = true).
Proof.
  intros Hv Hc target option continuity.
  assert (Z.of_nat (length (cr_available_actions request)) ≤ max_actions) as Hn.
  { unfold compile, sorted_actions in Hc. rewrite sort_by_length in Hc.
    destruct (max_actions <? _) eqn:E; [done|]. by bool_norm. }
  destruct (compile_ok max_actions plan_id request Hv Hn) as (s & H1 & H2 & H3 & E).
  rewrite E in Hc. injection Hc as Hc. subst p. cbn [cp_objective_met cp_rejected_reason cp_selected_actions].
  fold target in H3 |- *.
  assert (∀ s', option s' → cand_ok (candidate_of request s')) as Hok.
  { intros s' [Hs _]. apply candidate_ok; [done|]. apply subset_available, elem_of_all_subsets, Hs. }
  pose proof (Hok s (conj H1 H2)) as Hs. unfold meets at 1 2 3 4.
  split_and!.
  - split; [intros Hm; by exists s|]. intros (s' & Hs' & Hm).
    by apply (not_better_meets _ _ target (Hok s' Hs') Hs (H3 s' (proj1 Hs') (proj2 Hs'))).
  - intros Hm. unfold meets. rewrite Hm. split; [done|]. intros s' Hs' Hm'.
    by apply (not_better_meets _ _ target (Hok s' Hs') Hs (H3 s' (proj1 Hs') (proj2 Hs'))).
  - intros Hm. unfold meets. rewrite Hm. split; [by eexists|]. intros s' Hs'.
    by apply (not_better_continuity _ _ target (Hok s' Hs') Hs (H3 s' (proj1 Hs') (proj2 Hs'))).
Qed.

(** Human approval is never lost: whenever [compile] returns a plan
    it requires approval if the objective does or if any selected action does,
    and it is refused, by the error that names both numbers, only when the
    request holds more actions than the limit. *)
Theorem compile_approval max_actions plan_id request :
  request_valid request = true →
  match compile max_actions plan_id request with
  | Ok p => cp_approval_required p = true ↔
      co_human_approval_required (cr_objective request) = true ∨
      ∃ a, a ∈ cp_selected_actions p ∧ ma_requires_human_approval a = true
  | Raise e => max_actions < Z.of_nat (length (cr_available_actions request)) ∧
      e = ValueError ("action count " +:+ str_nat (length (cr_available_actions request))
                      +:+ " exceeds deterministic compiler limit " +:+ str_Z max_actions)
  end.
Proof.
  intros Hv. destruct (decide (Z.of_nat (length (cr_available_actions request)) ≤ max_actions)) as [Hn|Hn].
  - destruct (compile_ok max_actions plan_id request Hv Hn) as (s & _ & _ & _ & ->).
    cbn. rewrite orb_true_iff, existsb_exists. setoid_rewrite <-list_elem_of_In. done.
  - unfold compile, sorted_actions. rewrite sort_by_length.
    rewrite (proj2 (Z.ltb_lt _ _)) by lia. cbn. split; [lia|done].
Qed.

(** ** Concrete inputs *)

Definition example_action (id : string) (cost gain : float) (reductions : dict CorridorFactor float)
    (prereq incompat : list string) (approval : bool) : MitigationAction :=
  {| ma_action_id := id; ma_name := id; ma_cost := cost; ma_continuity_gain := gain;
     ma_risk_reductions := reductions; ma_prerequisites := prereq; ma_incompatible_with := incompat;
     ma_lead_time_hours := 24; ma_requires_human_approval := approval; ma_rationale := "" |}.

Definition example_base : CorridorAssessment :=
  {| ca_assessment_id := "a-1"; ca_corridor_id := "corridor/nsr"; ca_generated_at := utc 0;
     ca_overall_risk := lit 0.6; ca_confidence := lit 0.8; ca_state := CS_OPEN_DEGRADED;
     ca_factors :=
       [{| fa_factor := CF_ICE; fa_risk := lit 0.8; fa_confidence := f1; fa_evidence_ids := ["o1"]; fa_rationale := "" |};
        {| fa_factor := CF_PORT; fa_risk := lit 0.4; fa_confidence := f1; fa_evidence_ids := ["o2"]; fa_rationale := "" |}];
     ca_missing_required_metrics := []; ca_caveats := [] |}.

Definition example_request (budget : float) : CompileRequest :=
  {| cr_assessment := example_base;
     cr_objective :=
       {| co_minimum_continuity := lit 0.7;
          co_maximum_shortage_days := 5; co_maximum_recovery_days := 30; co_budget := budget;
          co_human_approval_required := false |};
     cr_available_actions :=
       [example_action "reroute" (lit 40) (lit 0.5) [] [] ["escort"] true;
        example_action "escort" (lit 30) f0 [(CF_ICE, lit 0.9)] ["notice"] [] false;
        example_action "notice" (lit 5) f0 [(CF_PORT, lit 0.5)] [] [] false] |}.

Lemma compile_exact_witness :
  ∃ p, compile 24 "plan-1" (example_request (lit 50)) = Ok p ∧
    feasible (example_request (lit 50)) (cp_selected_actions p).
Proof.
  destruct (compile_exact 24 "plan-1" (example_request (lit 50))) as (p & E & _ & Hf & _);
    [vm_compute; reflexivity|vm_compute; discriminate|].
  exists p. split; assumption.
Defined.

Lemma compile_objective_met_iff_witness :
  ∃ p, compile 24 "plan-1" (example_request (lit 50)) = Ok p ∧ cp_objective_met p = true ∧
    cp_rejected_reason p = None.
Proof.
  eexists. split; [vm_compute; reflexivity|]. split; [reflexivity|].
  apply (compile_objective_met_iff 24 "plan-1" (example_request (lit 50)));
    [vm_compute; reflexivity..].
Defined.

Lemma compile_approval_witness :
  ∃ e, compile 2 "plan-1" (example_request (lit 50)) = Raise e ∧ 2 < 3.
Proof.
  pose proof (compile_approval 2 "plan-1" (example_request (lit 50)) ltac:(vm_compute; reflexivity)) as H.
  eexists. split; [vm_compute; reflexivity|]. exact (proj1 H).
Defined.
