(* ===== verification/Graph.v ===== *)
(** * graph.py: the dependency graph and its propagation engine

    An edge runs from a dependency ([edge_source]) to the system that depends on
    it ([edge_target]); an outage propagates along edges.  Every [while] loop of
    the module is a fixpoint on fuel that raises [OutOfFuel] when the fuel is
    spent; the theorems give an explicit amount of fuel that is always enough.
    A Python set argument is the list of its members in iteration order. *)

From Stdlib Require Import ZArith QArith Lqa.
From S2P Require Import Prelude PyFloat FloatError PyFormat Domain.

Open Scope Z_scope.

(** ** Data *)

Inductive NodeType :=
| NT_CORRIDOR
| NT_PORT
| NT_AIRFIELD
| NT_VESSEL
| NT_ICEBREAKER
| NT_FUEL
| NT_POWER
| NT_INVENTORY
| NT_SATCOM
| NT_TERRESTRIAL_NETWORK
| NT_IDENTITY_PROVIDER
| NT_CLOUD_SERVICE
| NT_PORT_OT
| NT_DATA_FEED
| NT_SUPPLIER
| NT_CARRIER
| NT_COMMUNITY
| NT_FACILITY
| NT_RAIL_HUB
| NT_PIPELINE
| NT_MINE_OR_REFINERY
| NT_MANUFACTURING_PLANT
| NT_INTERMODAL_TERMINAL
| NT_CUSTOMS_BORDER
| NT_STRATEGIC_STOCKPILE
| NT_SUBSEA_CABLE
| NT_PERMAFROST_CORRIDOR
| NT_SEABED_SENSOR
| NT_MICROWAVE_RELAY
| NT_SATELLITE_UPLINK.

#[export] Instance NodeType_eq_dec : EqDecision NodeType.
Proof. solve_decision. Defined.

Definition NodeType_value (t : NodeType) : string :=
  match t with
  | NT_CORRIDOR => "corridor"
  | NT_PORT => "port"
  | NT_AIRFIELD => "airfield"
  | NT_VESSEL => "vessel"
  | NT_ICEBREAKER => "icebreaker"
  | NT_FUEL => "fuel"
  | NT_POWER => "power"
  | NT_INVENTORY => "inventory"
  | NT_SATCOM => "satcom"
  | NT_TERRESTRIAL_NETWORK => "terrestrial_network"
  | NT_IDENTITY_PROVIDER => "identity_provider"
  | NT_CLOUD_SERVICE => "cloud_service"
  | NT_PORT_OT => "port_ot"
  | NT_DATA_FEED => "data_feed"
  | NT_SUPPLIER => "supplier"
  | NT_CARRIER => "carrier"
  | NT_COMMUNITY => "community"
  | NT_FACILITY => "facility"
  | NT_RAIL_HUB => "rail_hub"
  | NT_PIPELINE => "pipeline"
  | NT_MINE_OR_REFINERY => "mine_or_refinery"
  | NT_MANUFACTURING_PLANT => "manufacturing_plant"
  | NT_INTERMODAL_TERMINAL => "intermodal_terminal"
  | NT_CUSTOMS_BORDER => "customs_border"
  | NT_STRATEGIC_STOCKPILE => "strategic_stockpile"
  | NT_SUBSEA_CABLE => "subsea_cable"
  | NT_PERMAFROST_CORRIDOR => "permafrost_corridor"
  | NT_SEABED_SENSOR => "seabed_sensor"
  | NT_MICROWAVE_RELAY => "microwave_relay"
  | NT_SATELLITE_UPLINK => "satellite_uplink"
  end.

Inductive DependencyKind :=
| DK_REQUIRES
| DK_TRANSPORTS
| DK_AUTHENTICATES
| DK_POWERS
| DK_CONNECTS
| DK_SUPPLIES
| DK_VALIDATES
| DK_REFINES
| DK_MANUFACTURES
| DK_CLEARS_CUSTOMS
| DK_SUBSEA_CONNECTS
| DK_TRAVERSES_PERMAFROST
| DK_RELAYS_MICROWAVE.

#[export] Instance DependencyKind_eq_dec : EqDecision DependencyKind.
Proof. solve_decision. Defined.

Record DependencyNode := {
  node_id : string;
  node_name : string;
  node_type : NodeType;
  node_criticality : float;
  node_location : option GeoPoint;
  node_provider_id : option string;
  node_attributes : dict string pyval
}.

Record DependencyEdge := {
  edge_source : string;
  edge_target : string;
  edge_kind : DependencyKind;
  edge_strength : float;
  edge_substitutable : bool;
  edge_substitute_group : option string
}.

Record DependencyGraph := {
  graph_id : string;
  graph_nodes : list DependencyNode;
  graph_edges : list DependencyEdge
}.

Definition node_ids (g : DependencyGraph) : list string := node_id <$> graph_nodes g.

Definition edge_known (ids : list string) (e : DependencyEdge) : bool :=
  mem_str (edge_source e) ids && mem_str (edge_target e) ids.

(** The model validator (pydantic reports the [ValueError] as a validation error). *)
Definition validate_references (g : DependencyGraph) : res DependencyGraph :=
  let ids := set_of (node_ids g) in
  _ ← require (Nat.eqb (length ids) (length (graph_nodes g))) "node ids must be unique";
  match List.find (λ e, negb (edge_known ids e)) (graph_edges g) with
  | Some e => Raise (ValidationError ("edge references unknown node: " +:+ edge_source e +:+ "->" +:+ edge_target e))
  | None => Ok g
  end.

(** The field constraints of nodes and edges ([Score]). *)
Definition node_valid (n : DependencyNode) : bool := is_score (node_criticality n).
Definition edge_valid (e : DependencyEdge) : bool := is_score (edge_strength e).

Record ImpactedNode := {
  imp_node_id : string;
  imp_probability : float;
  imp_weighted : float;
  imp_path : list string
}.

Definition new_ImpactedNode (i : ImpactedNode) : res ImpactedNode :=
  _ ← require (is_score (imp_probability i)) "impact_probability";
  _ ← require (f0 <=? imp_weighted i)%F "weighted_impact";
  Ok i.

Record GraphAssessment := {
  ga_graph_id : string;
  ga_failed_nodes : list string;
  ga_impacted_nodes : list ImpactedNode;
  ga_total_weighted_impact : float;
  ga_provider_concentration : dict string Z;
  ga_single_points_of_failure : list string
}.

Definition new_GraphAssessment (a : GraphAssessment) : res GraphAssessment :=
  _ ← require (f0 <=? ga_total_weighted_impact a)%F "total_weighted_impact";
  Ok a.

(** ** Indices of a graph *)

(** [{node.node_id: node for node in graph.nodes}] *)
Definition nodes_of (g : DependencyGraph) : dict string DependencyNode :=
  foldl (λ d n, dset d (node_id n) n) [] (graph_nodes g).

(** [outgoing.get(current, [])] *)
Definition outgoing (g : DependencyGraph) (current : string) : list DependencyEdge :=
  List.filter (λ e, str_eqb (edge_source e) current) (graph_edges g).

Definition truthy (s : option string) : option string :=
  match s with Some s => if str_empty s then None else Some s | None => None end.

(** [substitute_members[group]] *)
Definition substitute_members (g : DependencyGraph) (group : string) : list string :=
  set_of (edge_source <$> List.filter
    (λ e, match truthy (edge_substitute_group e) with Some s => str_eqb s group | None => false end)
    (graph_edges g)).

Definition count_provider (d : dict string Z) (n : DependencyNode) : dict string Z :=
  match truthy (node_provider_id n) with
  | Some p => dset d p (dget_default d p 0 + 1)
  | None => d
  end.

Definition provider_counts (g : DependencyGraph) : dict string Z :=
  foldl count_provider [] (graph_nodes g).

Definition lookup_node (nodes : dict string DependencyNode) (id : string) : res DependencyNode :=
  match dget nodes id with Some n => Ok n | None => Raise (KeyError id) end.

(** ** Propagation *)

(** An edge is attenuated when a member of its substitute group is healthy. *)
Definition attenuation (g : DependencyGraph) (excluded : list string) (e : DependencyEdge) : float :=
  match (if edge_substitutable e then truthy (edge_substitute_group e) else None) with
  | Some group =>
      if existsb (λ m, negb (mem_str m excluded)) (substitute_members g group) then lit 0.25 else f1
  | None => f1
  end.

Definition propagated (g : DependencyGraph) (excluded : list string) (p : float) (e : DependencyEdge) : float :=
  (p * edge_strength e * attenuation g excluded e)%F.

Definition combined (existing propagated : float) : float := (f1 - (f1 - existing) * (f1 - propagated))%F.

Definition significant (existing combined : float) : bool := (combined >? existing + lit 1e-9)%F.

Record prop_state := {
  st_probability : dict string float;
  st_path : dict string (list string);
  st_queue : list string
}.

Definition get_probability (d : dict string float) (id : string) : res float :=
  match dget d id with Some p => Ok p | None => Raise (KeyError id) end.
Definition get_path (d : dict string (list string)) (id : string) : res (list string) :=
  match dget d id with Some p => Ok p | None => Raise (KeyError id) end.

(** The body of the loop over the edges of [current], given its probability. *)
Definition relax (g : DependencyGraph) (failed : list string) (current : string) (p : float)
    (s : prop_state) (e : DependencyEdge) : res prop_state :=
  let existing := dget_default (st_probability s) (edge_target e) f0 in
  let c := combined existing (propagated g (current :: failed) p e) in
  if significant existing c then
    path ← get_path (st_path s) current;
    Ok {| st_probability := dset (st_probability s) (edge_target e) (fmin f1 c);
          st_path := dset (st_path s) (edge_target e) (path ++ [edge_target e]);
          st_queue := st_queue s ++ [edge_target e] |}
  else Ok s.

Definition edge_leb (a b : DependencyEdge) : bool := str_leb (edge_target a) (edge_target b).

(** The [while queue] loop of [analyze]. *)
Fixpoint analyze_loop (fuel : nat) (g : DependencyGraph) (failed : list string) (s : prop_state) : res prop_state :=
  match st_queue s with
  | [] => Ok s
  | current :: queue =>
      match fuel with
      | O => Raise OutOfFuel
      | S fuel =>
          current_probability ← get_probability (st_probability s) current;
          s ← foldM (relax g failed current current_probability)
                {| st_probability := st_probability s; st_path := st_path s; st_queue := queue |}
                (sort_by edge_leb (outgoing g current));
          analyze_loop fuel g failed s
      end
  end.

(** The initial state: the failed nodes have probability one. *)
Definition initial_state (failed : list string) : prop_state :=
  {| st_probability := (λ id, (id, f1)) <$> failed;
     st_path := (λ id, (id, [id])) <$> failed;
     st_queue := sort_by str_leb failed |}.

(** The [ImpactedNode] of one entry of [probability]. *)
Definition impacted_node (nodes : dict string DependencyNode) (paths : dict string (list string))
    (kv : string * float) : res ImpactedNode :=
  n ← lookup_node nodes kv.1;
  path ← get_path paths kv.1;
  new_ImpactedNode {| imp_node_id := kv.1; imp_probability := fround 6 kv.2;
                      imp_weighted := fround 6 (kv.2 * node_criticality n)%F; imp_path := path |}.

(** [(-item.weighted_impact, item.node_id)] in lexicographic order. *)
Definition impact_leb (a b : ImpactedNode) : bool :=
  if feqb (imp_weighted a) (imp_weighted b) then str_leb (imp_node_id a) (imp_node_id b)
  else (imp_weighted b <? imp_weighted a)%F.

(** ** Single points of failure *)

(** One edge of the early-exit propagation: [Some] state and whether the
    critical condition was met. *)
Definition spof_relax (g : DependencyGraph) (nodes : dict string DependencyNode) (candidate curr : string)
    (probability : dict string float) (queue : list string) (e : DependencyEdge)
    : res (dict string float * list string * bool) :=
  p ← get_probability probability curr;
  let existing := dget_default probability (edge_target e) f0 in
  let c := combined existing (propagated g [candidate; curr] p e) in
  if significant existing c then
    let probability := dset probability (edge_target e) (fmin f1 c) in
    if str_eqb (edge_target e) candidate then Ok (probability, queue ++ [edge_target e], false)
    else
      n ← lookup_node nodes (edge_target e);
      if (node_criticality n >=? lit 0.8)%F && (fmin f1 c >=? lit 0.7)%F
      then Ok (probability, queue, true)
      else Ok (probability, queue ++ [edge_target e], false)
  else Ok (probability, queue, false).

(** The loop over the edges of [curr], left by [break] when a critical node is hit. *)
Fixpoint spof_edges (g : DependencyGraph) (nodes : dict string DependencyNode) (candidate curr : string)
    (probability : dict string float) (queue : list string) (es : list DependencyEdge)
    : res (dict string float * list string * bool) :=
  match es with
  | [] => Ok (probability, queue, false)
  | e :: es =>
      r ← spof_relax g nodes candidate curr probability queue e;
      let '(probability, queue, found) := (r : dict string float * list string * bool) in
      if found then Ok (probability, queue, true)
      else spof_edges g nodes candidate curr probability queue es
  end.

Fixpoint spof_loop (fuel : nat) (g : DependencyGraph) (nodes : dict string DependencyNode) (candidate : string)
    (probability : dict string float) (queue : list string) : res bool :=
  match queue with
  | [] => Ok false
  | curr :: queue =>
      match fuel with
      | O => Raise OutOfFuel
      | S fuel =>
          r ← spof_edges g nodes candidate curr probability queue (outgoing g curr);
          let '(probability, queue, found) := (r : dict string float * list string * bool) in
          if found then Ok true else spof_loop fuel g nodes candidate probability queue
      end
  end.

Definition spof_step (fuel : nat) (g : DependencyGraph) (nodes : dict string DependencyNode)
    (result : list string) (candidate : string) : res (list string) :=
  found ← spof_loop fuel g nodes candidate [(candidate, f1)] [candidate];
  Ok (if found : bool then result ++ [candidate] else result).

Definition spof_candidates (g : DependencyGraph) : list string :=
  List.filter (λ id, match outgoing g id with [] => false | _ => true end)
    (sort_by str_leb (dkeys (nodes_of g))).

Definition single_points_fast (fuel : nat) (g : DependencyGraph) : res (list string) :=
  foldM (spof_step fuel g (nodes_of g)) [] (spof_candidates g).

(** ** The operations *)

Definition item_leb (a b : string * Z) : bool := str_leb a.1 b.1.

Definition analyze (fuel : nat) (g : DependencyGraph) (failed_nodes : list string) (calculate_spof : bool)
    : res GraphAssessment :=
  let nodes := nodes_of g in
  let unknown := List.filter (λ f, negb (dmem nodes f)) failed_nodes in
  _ ← raise_if (match unknown with [] => false | _ => true end)
        (ValueError ("unknown failed nodes: " +:+ list_repr (sort_by str_leb unknown)));
  s ← analyze_loop fuel g failed_nodes (initial_state failed_nodes);
  impacted ← mapM_res (impacted_node nodes (st_path s)) (st_probability s);
  let impacted := sort_by impact_leb impacted in
  single_points ← (if calculate_spof then single_points_fast fuel g else Ok []);
  new_GraphAssessment
    {| ga_graph_id := graph_id g; ga_failed_nodes := sort_by str_leb failed_nodes;
       ga_impacted_nodes := impacted;
       ga_total_weighted_impact := fround 6 (fsum (imp_weighted <$> impacted));
       ga_provider_concentration := sort_by item_leb (provider_counts g);
       ga_single_points_of_failure := single_points |}.

(** [analyze_without_spof] takes the edges in graph order and reads
    [probability[current]] anew for each of them. *)
Definition relax_live (g : DependencyGraph) (failed : list string) (current : string)
    (s : prop_state) (e : DependencyEdge) : res prop_state :=
  p ← get_probability (st_probability s) current; relax g failed current p s e.

Fixpoint without_spof_loop (fuel : nat) (g : DependencyGraph) (failed : list string) (s : prop_state) : res prop_state :=
  match st_queue s with
  | [] => Ok s
  | current :: queue =>
      match fuel with
      | O => Raise OutOfFuel
      | S fuel =>
          s ← foldM (relax_live g failed current)
                {| st_probability := st_probability s; st_path := st_path s; st_queue := queue |}
                (outgoing g current);
          without_spof_loop fuel g failed s
      end
  end.

Definition impacted_node_exact (nodes : dict string DependencyNode) (paths : dict string (list string))
    (kv : string * float) : res ImpactedNode :=
  n ← lookup_node nodes kv.1;
  path ← get_path paths kv.1;
  new_ImpactedNode {| imp_node_id := kv.1; imp_probability := kv.2;
                      imp_weighted := (kv.2 * node_criticality n)%F; imp_path := path |}.

Definition analyze_without_spof (fuel : nat) (g : DependencyGraph) (failed_nodes : list string)
    : res (list ImpactedNode) :=
  s ← without_spof_loop fuel g failed_nodes (initial_state failed_nodes);
  mapM_res (impacted_node_exact (nodes_of g) (st_path s)) (st_probability s).

Definition calculate_blast_radius (fuel : nat) (g : DependencyGraph) (failed_nodes : list string)
    : res (dict string float) :=
  impacted ← analyze_without_spof fuel g failed_nodes;
  Ok (foldl (λ (d : dict string float) i, dset d (imp_node_id i) (imp_probability i)) [] impacted).

(** ** Alternative paths *)

Record path_item := { pi_current : string; pi_path : list string; pi_visited : list string }.

(** The items pushed for the edges of the popped item, the last one on top. *)
Definition push_edge (failed : list string) (item : path_item) (stack : list path_item) (e : DependencyEdge)
    : list path_item :=
  if negb (mem_str (edge_target e) (pi_visited item)) && negb (mem_str (edge_target e) failed)
  then {| pi_current := edge_target e; pi_path := pi_path item ++ [edge_target e];
          pi_visited := edge_target e :: pi_visited item |} :: stack
  else stack.

Fixpoint paths_loop (fuel : nat) (g : DependencyGraph) (target : string) (failed : list string)
    (stack : list path_item) (paths : list (list string)) : res (list (list string)) :=
  match stack with
  | [] => Ok paths
  | item :: stack =>
      match fuel with
      | O => Raise OutOfFuel
      | S fuel =>
          if str_eqb (pi_current item) target
          then paths_loop fuel g target failed stack (paths ++ [pi_path item])
          else paths_loop fuel g target failed
                 (foldl (push_edge failed item) stack (outgoing g (pi_current item))) paths
      end
  end.

Definition length_leb (a b : list string) : bool := Nat.leb (length a) (length b).

Definition find_alternative_paths (fuel : nat) (g : DependencyGraph) (source target : string)
    (failed : list string) : res (list (list string)) :=
  paths ← paths_loop fuel g target failed
            [{| pi_current := source; pi_path := [source]; pi_visited := [source] |}] [];
  Ok (sort_by length_leb paths).

(** ** Cycle detection *)

Inductive color := WHITE | GRAY | BLACK.

#[export] Instance color_eq_dec : EqDecision color.
Proof. solve_decision. Defined.

Record dfs_state := {
  ds_color : dict string color;
  ds_parent : dict string (option string);
  ds_cycles : list (list string)
}.

Definition adjacency (g : DependencyGraph) (node : string) : list string :=
  edge_target <$> outgoing g node.

(** The [while current != neighbor] loop that walks the parents. *)
Fixpoint walk_parents (fuel : nat) (parent : dict string (option string)) (neighbor current : string)
    (cycle : list string) : res (list string) :=
  if str_eqb current neighbor then Ok cycle
  else
    match fuel with
    | O => Raise OutOfFuel
    | S fuel =>
        let cycle := cycle ++ [current] in
        match dget_default parent current None with
        | None => Ok cycle
        | Some p => walk_parents fuel parent neighbor p cycle
        end
    end.

Definition get_color (d : dict string color) (id : string) : res color :=
  match dget d id with Some c => Ok c | None => Raise (KeyError id) end.

Definition set_color (s : dfs_state) (id : string) (c : color) : dfs_state :=
  {| ds_color := dset (ds_color s) id c; ds_parent := ds_parent s; ds_cycles := ds_cycles s |}.

(** [_dfs]; the fuel bounds the depth of the recursion and the parent walks. *)
Fixpoint dfs (fuel : nat) (g : DependencyGraph) (node : string) (s : dfs_state) : res dfs_state :=
  match fuel with
  | O => Raise OutOfFuel
  | S fuel' =>
      s ← foldM (λ s neighbor,
                   c ← get_color (ds_color s) neighbor;
                   match c with
                   | GRAY =>
                       cycle ← walk_parents (S (length (graph_nodes g))) (ds_parent s) neighbor node [neighbor];
                       Ok {| ds_color := ds_color s; ds_parent := ds_parent s;
                             ds_cycles := ds_cycles s ++ [rev (cycle ++ [neighbor])] |}
                   | WHITE =>
                       dfs fuel' g neighbor
                         {| ds_color := ds_color s; ds_parent := dset (ds_parent s) neighbor (Some node);
                            ds_cycles := ds_cycles s |}
                   | BLACK => Ok s
                   end)
                (set_color s node GRAY) (sort_by str_leb (adjacency g node));
      Ok (set_color s node BLACK)
  end.

Definition detect_cycles (fuel : nat) (g : DependencyGraph) : res (list (list string)) :=
  let keys := dkeys (nodes_of g) in
  s ← foldM (λ s node,
               c ← get_color (ds_color s) node;
               match c with WHITE => dfs fuel g node s | _ => Ok s end)
            {| ds_color := (λ id, (id, WHITE)) <$> keys; ds_parent := (λ id, (id, None)) <$> keys;
               ds_cycles := [] |}
            (sort_by str_leb keys);
  Ok (ds_cycles s).

(** ** Well-formed graphs *)

Definition graph_valid (g : DependencyGraph) : bool :=
  is_ok (validate_references g) && forallb node_valid (graph_nodes g) && forallb edge_valid (graph_edges g).

(** The value of a finite float. *)
Definition qv (x : float) : Q := match x with Fin q => q | _ => 0%Q end.

Lemma score_qv x : is_score x = true → x = Fin (qv x) ∧ (0 <= qv x)%Q ∧ (qv x <= 1)%Q.
Proof. intros (q & -> & ?)%is_score_iff. done. Qed.

Lemma score_combined e p : is_score e = true → is_score p = true → is_score (combined e p) = true.
Proof. intros. unfold combined. auto using score_compl, score_mul. Qed.

Lemma score_attenuation g ex e : is_score (attenuation g ex e) = true.
Proof. unfold attenuation. repeat case_match; reflexivity. Qed.

Lemma score_fmin1 c : is_score c = true → is_score (fmin f1 c) = true ∧ (qv (fmin f1 c) == qv c)%Q.
Proof.
  intros (q & -> & H0 & H1)%is_score_iff. unfold fmin. destruct (fltb (Fin q) f1) eqn:E.
  - split; [apply is_score_iff; eauto|reflexivity].
  - split; [apply score_1|]. rewrite f1_eq in *. cbn. apply not_true_iff_false in E. rewrite fltb_Fin in E.
    apply Qnot_lt_le in E. lra.
Qed.

(** A significant change raises the probability by more than half a billionth. *)
Lemma significant_gap e c : is_score e = true → is_score c = true → significant e c = true →
  (qv e + (1 # 2000000000) <= qv c)%Q.
Proof.
  intros (He & E0 & E1)%score_qv (Hc & C0 & C1)%score_qv. unfold significant. rewrite He, Hc. cbn [qv].
  set (a := qv e) in *. set (b := qv c) in *.
  assert (∃ l, lit 1e-9 = Fin l ∧ (999999999 # 1000000000000000000 <= l)%Q ∧ (l <= 1)%Q) as (l & -> & L0 & L1).
  { eexists. split; [vm_compute; reflexivity|]. split; apply Qle_bool_iff; vm_compute; reflexivity. }
  destruct (fl_near 1 (a + l)) as (r & Hr & R1 & R2); [lia| | |].
  1-2: change (pow2 1) with 2%Q; lra.
  unfold fadd. rewrite Hr, fltb_Fin. change (pow2 (1 - 53))%Q with (1 # (2 ^ 52))%Q in R1.
  change (2 ^ 52)%positive with 4503599627370496%positive in R1. lra.
Qed.

(** Without a significant change the old probability already dominates. *)
Lemma insignificant_gap e c : is_score e = true → is_score c = true → significant e c = false →
  (qv c <= qv e + (10001 # 10000000000000))%Q.
Proof.
  intros (He & E0 & E1)%score_qv (Hc & C0 & C1)%score_qv. unfold significant. rewrite He, Hc. cbn [qv].
  set (a := qv e) in *. set (b := qv c) in *.
  assert (∃ l, lit 1e-9 = Fin l ∧ (0 <= l)%Q ∧ (l <= 1000000001 # 1000000000000000000)%Q) as (l & -> & L0 & L1).
  { eexists. split; [vm_compute; reflexivity|]. split; apply Qle_bool_iff; vm_compute; reflexivity. }
  destruct (fl_near 1 (a + l)) as (r & Hr & R1 & R2); [lia| | |].
  1-2: change (pow2 1) with 2%Q; lra.
  unfold fadd. rewrite Hr, fltb_negb by done. intros F%negb_false_iff%fleb_Fin.
  change (pow2 (1 - 53))%Q with (1 # (2 ^ 52))%Q in R2.
  change (2 ^ 52)%positive with 4503599627370496%positive in R2. lra.
Qed.

(** Combining with an existing probability never loses the propagated one. *)
Lemma combined_dominates e p : is_score e = true → is_score p = true →
  (qv p - (1 # 1000000000000) <= qv (combined e p))%Q.
Proof.
  intros (He & E0 & E1)%score_qv (Hp & P0 & P1)%score_qv. rewrite He, Hp. cbn [qv].
  set (a := qv e) in *. set (b := qv p) in *. unfold combined, fsub. rewrite f1_eq. cbn [fneg].
  pose proof (eq_refl : pow2 (0 - 53) = 1 # 9007199254740992)%Q as U. pose proof (eq_refl : pow2 0 = 1)%Q as V.
  assert (∀ x : Q, 0 <= x → x <= 1 → ∃ r, fl x = Fin r ∧ 0 <= r ∧ r <= 1 ∧
            r <= x + (1 # 9007199254740992) ∧ x <= r + (1 # 9007199254740992))%Q as N.
  { intros x X0 X1. destruct (fl_near 0 x) as (r & Hr & R1 & R2); [lia|rewrite V; lra..|]. exists r.
    pose proof (score_fl x X0 X1) as S. rewrite Hr in S. apply is_score_iff in S as (? & [= <-] & ? & ?).
    rewrite U in *. repeat split; try done; lra. }
  destruct (N (1 + - a)%Q) as (x & Hx & X0 & X1 & X2 & X3); [lra..|].
  destruct (N (1 + - b)%Q) as (y & Hy & Y0 & Y1 & Y2 & Y3); [lra..|].
  unfold fadd. rewrite Hx, Hy. unfold fmul.
  assert (0 <= x * y)%Q as M0 by (apply Qmult_le_0_compat; done).
  assert (x * y <= 1 * y)%Q as M1 by (apply Qmult_le_compat_r; done).
  destruct (N (x * y)%Q) as (z & Hz & Z0 & Z1 & Z2 & Z3); [lra..|]. rewrite Hz. cbn [fneg].
  destruct (N (1 + - z)%Q) as (w & Hw & W0 & W1 & W2 & W3); [lra..|]. rewrite Hw. cbn [qv]. lra.
Qed.

(** ** The invariant of the propagation loops *)

(** Consecutive edges from [u] to the last node of the list. *)
Inductive edge_path (g : DependencyGraph) (u : string) : string → list string → Prop :=
| path_one : edge_path g u u [u]
| path_snoc v l e : edge_path g u v l → e ∈ graph_edges g → edge_source e = v →
    edge_path g u (edge_target e) (l ++ [edge_target e]).

Definition prob_of (s : prop_state) (id : string) : float := dget_default (st_probability s) id f0.

(** How many significant changes a probability can still undergo. *)
Definition pot (x : float) : Z := Qround.Qfloor ((1 - qv x) * 2000000000)%Q.

Fixpoint sum_pot (d : dict string float) (ids : list string) : Z :=
  match ids with [] => 0 | id :: ids => pot (dget_default d id f0) + sum_pot d ids end.

Definition measure (g : DependencyGraph) (s : prop_state) : Z :=
  Z.of_nat (length (st_queue s)) + sum_pot (st_probability s) (node_ids g).

Lemma pot_bounds x : is_score x = true → 0 <= pot x <= 2000000000.
Proof.
  intros (_ & H0 & H1)%score_qv. unfold pot. split.
  - change 0 with (Qround.Qfloor 0). apply Qround.Qfloor_resp_le. lra.
  - change 2000000000 with (Qround.Qfloor 2000000000) at 2. apply Qround.Qfloor_resp_le. lra.
Qed.

Lemma pot_drop e c : (qv e + (1 # 2000000000) <= qv c)%Q → pot c + 1 <= pot e.
Proof.
  intros H. unfold pot. set (y := ((1 - qv e) * 2000000000)%Q).
  assert (Qround.Qfloor ((1 - qv c) * 2000000000) <= Qround.Qfloor (y - 1)) as H1.
  { apply Qround.Qfloor_resp_le. unfold y. lra. }
  pose proof (Qround.Qfloor_le (y - 1)) as H2.
  assert (inject_Z (Qround.Qfloor (y - 1) + 1) <= y)%Q as H3 by (rewrite inject_Z_plus; change (inject_Z 1) with 1%Q; lra).
  apply Qround.Qfloor_resp_le in H3. rewrite Qround.Qfloor_Z in H3. fold y. lia.
Qed.

Lemma sum_pot_dset_notin d t x ids : t ∉ ids → sum_pot (dset d t x) ids = sum_pot d ids.
Proof.
  induction ids as [|id ids IH]; cbn; [done|]. intros [? ?]%not_elem_of_cons.
  rewrite dget_default_dset, decide_False, IH by done. done.
Qed.

Lemma sum_pot_dset d t x ids : NoDup ids → t ∈ ids → pot x + 1 <= pot (dget_default d t f0) →
  sum_pot (dset d t x) ids + 1 <= sum_pot d ids.
Proof.
  induction 1 as [|id ids Hn Hd IH]; [by intros ?%elem_of_nil|]. cbn [sum_pot]. intros Hin Hp.
  rewrite dget_default_dset. case_decide as E.
  - subst. rewrite sum_pot_dset_notin by done. lia.
  - apply elem_of_cons in Hin as [?|Hin]; [congruence|]. specialize (IH Hin Hp). lia.
Qed.

Lemma sum_pot_nonneg d ids : (∀ id, is_score (dget_default d id f0) = true) →
  0 <= sum_pot d ids <= 2000000000 * Z.of_nat (length ids).
Proof.
  intros Hd. induction ids as [|id ids IH]; cbn [sum_pot length]; [lia|]. pose proof (pot_bounds _ (Hd id)). lia.
Qed.

Section graph.
Context (g : DependencyGraph) (Hg : graph_valid g = true).

Lemma find_none {A} (f : A → bool) l : List.find f l = None → ∀ x, x ∈ l → f x = false.
Proof using. intros H x Hx%list_elem_of_In. by apply (List.find_none f l). Qed.

Lemma graph_facts :
  NoDup (node_ids g) ∧ (∀ n, n ∈ graph_nodes g → is_score (node_criticality n) = true) ∧
  ∀ e, e ∈ graph_edges g → is_score (edge_strength e) = true ∧ edge_source e ∈ node_ids g ∧ edge_target e ∈ node_ids g.
Proof using Hg.
  unfold graph_valid in Hg. apply andb_prop in Hg as [[Hr Hn]%andb_prop He].
  rewrite forallb_forall in Hn, He. split; [|split].
  - unfold validate_references, set_of in Hr. cbn in Hr.
    destruct (Nat.eqb _ _) eqn:E; [|done]. apply Nat.eqb_eq in E. clear -E.
    assert (length (graph_nodes g) = length (node_ids g)) as L by (unfold node_ids; by rewrite length_fmap).
    rewrite L in E. clear L. revert E. induction (node_ids g) as [|x l IH]; [constructor|].
    cbn. case_decide as D; cbn; intros E.
    + exfalso. assert (length (remove_dups l) <= length l)%nat; [|lia]. clear.
      induction l as [|y l IH]; cbn; [lia|]. case_decide; cbn; lia.
    + constructor; [done|]. apply IH. lia.
  - intros n Hin%list_elem_of_In. by apply Hn.
  - intros e Hin. split; [apply list_elem_of_In in Hin; by apply He|].
    unfold validate_references in Hr. cbn in Hr. destruct (Nat.eqb _ _); [|done]. cbn in Hr.
    destruct (List.find _ _) eqn:F; [done|]. apply (find_none _ _ F) in Hin. apply negb_false_iff in Hin.
    unfold edge_known in Hin. apply andb_prop in Hin as [H1%mem_str_true H2%mem_str_true].
    unfold set_of in *. rewrite elem_of_remove_dups in H1, H2. done.
Qed.

Lemma nodes_of_spec id : id ∈ node_ids g ↔ is_Some (dget (nodes_of g) id).
Proof using.
  unfold nodes_of, node_ids. rewrite (dget_foldl_dset node_id (λ n, n)). cbn.
  split; [by left|]. by intros [?|[? ?]].
Qed.

Lemma nodes_of_elem id n : dget (nodes_of g) id = Some n → n ∈ graph_nodes g ∧ node_id n = id.
Proof using.
  unfold nodes_of.
  assert (∀ l (d : dict string DependencyNode), (∀ n, n ∈ l → n ∈ graph_nodes g) →
    (∀ n, dget d id = Some n → n ∈ graph_nodes g ∧ node_id n = id) →
    ∀ n, dget (foldl (λ d n, dset d (node_id n) n) d l) id = Some n → n ∈ graph_nodes g ∧ node_id n = id) as H.
  { induction l as [|n' l IH]; intros d Hl Hd; cbn; [done|]. apply IH; [intros; apply Hl; by right|].
    intros n1. destruct (decide (node_id n' = id)) as [<-|Hne].
    - rewrite dget_dset_eq. intros [= <-]. split; [apply Hl; by left|done].
    - rewrite dget_dset_ne by done. apply Hd. }
  by apply (H _ []).
Qed.

Lemma nodes_of_score id n : dget (nodes_of g) id = Some n → is_score (node_criticality n) = true.
Proof using Hg. intros [H _]%nodes_of_elem. by apply graph_facts. Qed.

Context (failed : list string).

Record state_ok (s : prop_state) : Prop := {
  ok_scores id : is_score (prob_of s id) = true;
  ok_keys id : is_Some (dget (st_probability s) id) → id ∈ node_ids g;
  ok_queue id : id ∈ st_queue s → is_Some (dget (st_probability s) id);
  ok_paths id : is_Some (dget (st_probability s) id) →
    ∃ l f, dget (st_path s) id = Some l ∧ f ∈ failed ∧ edge_path g f id l;
  ok_failed f : f ∈ failed → is_Some (dget (st_probability s) f);
  ok_NoDup : NoDup (dkeys (st_probability s))
}.

(** What an iteration may change: probabilities grow, and a node whose
    probability changed is in the queue. *)
Record grows (s s' : prop_state) : Prop := {
  grows_prob id : (qv (prob_of s id) <= qv (prob_of s' id))%Q;
  grows_queue id : id ∈ st_queue s → id ∈ st_queue s';
  grows_changed id : id ∈ st_queue s' ∨ dget (st_probability s') id = dget (st_probability s) id
}.

Lemma grows_refl s : grows s s.
Proof using. split; [intros; apply Qle_refl|done|by right]. Qed.

Lemma grows_trans s1 s2 s3 : grows s1 s2 → grows s2 s3 → grows s1 s3.
Proof using.
  intros [P1 Q1 C1] [P2 Q2 C2]. split; [|auto|].
  - intros id. by eapply Qle_trans.
  - intros id. destruct (C2 id) as [?|E2]; [by left|]. destruct (C1 id) as [?|E1]; [left; auto|right; congruence].
Qed.

(** The bound of the domination: an edge never carries more than this over
    what its target has. *)
Definition slack : Q := 11 # 10000000000.

Definition carried (s : prop_state) (p : float) (e : DependencyEdge) : Prop :=
  (qv (propagated g (edge_source e :: failed) p e) <= qv (prob_of s (edge_target e)) + slack)%Q.

Lemma carried_grows s s' p e : grows s s' → carried s p e → carried s' p e.
Proof using. intros [Hp _ _]. unfold carried. specialize (Hp (edge_target e)). lra. Qed.

Lemma score_propagated ex p e : is_score p = true → e ∈ graph_edges g → is_score (propagated g ex p e) = true.
Proof using Hg.
  intros Hp He. unfold propagated. destruct graph_facts as (_ & _ & H). apply H in He as (He & _).
  auto using score_mul, score_attenuation.
Qed.

Lemma relax_spec s p e :
  state_ok s → is_Some (dget (st_probability s) (edge_source e)) → is_score p = true → e ∈ graph_edges g →
  ∃ s', relax g failed (edge_source e) p s e = Ok s' ∧ state_ok s' ∧ grows s s' ∧ measure g s' ≤ measure g s ∧
    carried s' p e.
Proof using Hg.
  intros Hs Hsrc Hp He. pose proof Hs as [Hsc Hk Hq Hpa Hf Hnd]. unfold relax.
  pose proof (score_propagated (edge_source e :: failed) p e Hp He) as Hpp.
  pose proof (Hsc (edge_target e)) as Hex. fold (prob_of s (edge_target e)).
  pose proof (score_combined _ _ Hex Hpp) as Hc. pose proof (combined_dominates _ _ Hex Hpp) as Hdom.
  destruct (significant _ _) eqn:Sig.
  2:{ exists s. split_and!; [done..|apply grows_refl|lia|]. unfold carried, slack.
      pose proof (insignificant_gap _ _ Hex Hc Sig). lra. }
  destruct (Hpa _ Hsrc) as (l & f & El & Hfin & Hpath). unfold get_path. rewrite El. cbn [mbind res_bind].
  eexists. split; [reflexivity|]. set (c := combined _ _) in *.
  destruct (score_fmin1 c Hc) as [Hc1 Hc2]. pose proof (significant_gap _ _ Hex Hc Sig) as Hgap.
  assert (∀ id, prob_of {| st_probability := dset (st_probability s) (edge_target e) (fmin f1 c);
     st_path := dset (st_path s) (edge_target e) (l ++ [edge_target e]);
     st_queue := st_queue s ++ [edge_target e] |} id = if decide (edge_target e = id) then fmin f1 c else prob_of s id) as Epr.
  { intros id. apply dget_default_dset. }
  destruct graph_facts as (Hids & _ & Hedge). destruct (Hedge e He) as (_ & _ & Htgt).
  split_and!.
  - split; cbn [st_probability st_path st_queue].
    + intros id. rewrite Epr. by case_decide.
    + intros id. destruct (decide (edge_target e = id)) as [<-|]; [done|]. rewrite dget_dset_ne by done. apply Hk.
    + intros id [Hin| ->%list_elem_of_singleton]%elem_of_app; [|by rewrite dget_dset_eq].
      destruct (decide (edge_target e = id)) as [<-|]; [by rewrite dget_dset_eq|rewrite dget_dset_ne by done; auto].
    + intros id. destruct (decide (edge_target e = id)) as [<-|].
      * intros _. rewrite dget_dset_eq. do 2 eexists. split_and!; [done|exact Hfin|]. by econstructor.
      * rewrite !dget_dset_ne by done. apply Hpa.
    + intros f'. destruct (decide (edge_target e = f')) as [<-|]; [by rewrite dget_dset_eq|rewrite dget_dset_ne by done; auto].
    + by apply dset_NoDup.
  - split; cbn [st_probability st_path st_queue].
    + intros id. rewrite Epr. case_decide as E; [|apply Qle_refl]. subst id. rewrite Hc2. lra.
    + intros id ?. apply elem_of_app. by left.
    + intros id. destruct (decide (edge_target e = id)) as [<-|]; [left; apply elem_of_app; right; by left|].
      right. by rewrite dget_dset_ne.
  - unfold measure. cbn [st_probability st_path st_queue]. rewrite length_app. cbn [length].
    enough (sum_pot (dset (st_probability s) (edge_target e) (fmin f1 c)) (node_ids g) + 1
            <= sum_pot (st_probability s) (node_ids g)) by lia.
    apply sum_pot_dset; [done..|]. apply pot_drop. fold (prob_of s (edge_target e)). rewrite Hc2. done.
  - unfold carried, slack. rewrite Epr, decide_True by done. rewrite Hc2. lra.
Qed.

(** One pass over the edges of [current], whichever probability the pass reads:
    [p0], or the present one, which differs only once [current] is queued again. *)
Lemma edges_spec (f : prop_state → DependencyEdge → res prop_state) current p0 es s :
  (∀ s e, state_ok s → edge_source e = current → is_Some (dget (st_probability s) current) →
     current ∈ st_queue s ∨ dget (st_probability s) current = Some p0 →
     ∃ p, is_score p = true ∧ (current ∈ st_queue s ∨ p = p0) ∧ f s e = relax g failed current p s e) →
  (∀ e, e ∈ es → e ∈ graph_edges g ∧ edge_source e = current) →
  state_ok s → is_Some (dget (st_probability s) current) →
  current ∈ st_queue s ∨ dget (st_probability s) current = Some p0 →
  ∃ s', foldM f s es = Ok s' ∧ state_ok s' ∧ grows s s' ∧ measure g s' ≤ measure g s ∧
    ∀ e, e ∈ es → current ∈ st_queue s' ∨ carried s' p0 e.
Proof using Hg.
  intros Hf. revert s. induction es as [|e es IH]; intros s Hes Hs Hcur Hp; cbn [foldM].
  { exists s. split_and!; [done..|apply grows_refl|lia|by intros ? ?%elem_of_nil]. }
  destruct (Hes e) as [Hin <-]; [by left|].
  destruct (Hf s e) as (p & Hps & Hpq & ->); [done..|].
  destruct (relax_spec s p e) as (s1 & -> & Hs1 & Hg1 & Hm1 & Hc1); [done..|]. cbn [mbind res_bind].
  destruct (IH s1) as (s2 & -> & Hs2 & Hg2 & Hm2 & Hc2); [|done| | |].
  - intros e' He'. apply Hes. by right.
  - destruct (grows_changed _ _ Hg1 (edge_source e)) as [Hq| ->]; [by apply (ok_queue _ Hs1)|done].
  - destruct (grows_changed _ _ Hg1 (edge_source e)) as [Hq| ->]; [by left|].
    destruct Hp; [left; by apply (grows_queue _ _ Hg1)|by right].
  - exists s2. split_and!; [done..|by eapply grows_trans|lia|].
    intros e' [->|He']%elem_of_cons; [|by apply Hc2].
    destruct Hpq as [Hq| ->]; [left; by apply (grows_queue _ _ Hg2), (grows_queue _ _ Hg1)|].
    right. by eapply carried_grows.
Qed.

(** Every edge out of a reached node that is not queued is accounted for. *)
Definition dominated (s : prop_state) : Prop :=
  ∀ e p, e ∈ graph_edges g → dget (st_probability s) (edge_source e) = Some p →
    edge_source e ∈ st_queue s ∨ carried s p e.

Definition pop (s : prop_state) (queue : list string) : prop_state :=
  {| st_probability := st_probability s; st_path := st_path s; st_queue := queue |}.

Lemma pop_step f current queue s p0 es :
  (∀ s e, state_ok s → edge_source e = current → is_Some (dget (st_probability s) current) →
     current ∈ st_queue s ∨ dget (st_probability s) current = Some p0 →
     ∃ p, is_score p = true ∧ (current ∈ st_queue s ∨ p = p0) ∧ f s e = relax g failed current p s e) →
  (∀ e, e ∈ es ↔ e ∈ graph_edges g ∧ edge_source e = current) →
  state_ok s → dominated s → st_queue s = current :: queue → dget (st_probability s) current = Some p0 →
  ∃ s', foldM f (pop s queue) es = Ok s' ∧ state_ok s' ∧ dominated s' ∧ measure g s' < measure g s.
Proof using Hg.
  intros Hf Hes Hs Hd Eq Hp.
  assert (state_ok (pop s queue)) as Hpop.
  { destruct Hs. split; try done. cbn. intros id ?. apply ok_queue0. rewrite Eq. by right. }
  destruct (edges_spec f current p0 es (pop s queue)) as (s' & -> & Hs' & Hg' & Hm' & Hc');
    [done|by intros e ?%Hes|done|by eexists|by right|].
  exists s'. split_and!; [done..| |].
  - intros e p He Hpe. destruct (grows_changed _ _ Hg' (edge_source e)) as [?|E]; [by left|].
    rewrite E in Hpe. destruct (decide (edge_source e = current)) as [Ec|Ec].
    + cbn in Hpe. rewrite Ec, Hp in Hpe. injection Hpe as <-. rewrite Ec. apply Hc'. by apply Hes.
    + destruct (Hd e p He Hpe) as [Hq|Hcar].
      * rewrite Eq in Hq. apply elem_of_cons in Hq as [?|Hq]; [done|left; by apply (grows_queue _ _ Hg')].
      * right. by eapply (carried_grows (pop s queue)).
  - unfold measure in *. cbn [st_queue st_probability pop] in *. rewrite Eq. cbn [length]. lia.
Qed.

Lemma elem_of_outgoing current e : e ∈ outgoing g current ↔ e ∈ graph_edges g ∧ edge_source e = current.
Proof using.
  unfold outgoing. rewrite list_elem_of_In, List.filter_In, <-list_elem_of_In. unfold str_eqb.
  by rewrite String.eqb_eq.
Qed.

Lemma measure_nonneg s : state_ok s → 0 <= measure g s.
Proof using. intros [Hs _ _ _ _ _]. unfold measure. pose proof (sum_pot_nonneg _ (node_ids g) Hs). lia. Qed.

Lemma analyze_loop_spec fuel s : state_ok s → dominated s → measure g s <= Z.of_nat fuel →
  ∃ s', analyze_loop fuel g failed s = Ok s' ∧ state_ok s' ∧ dominated s' ∧ st_queue s' = [].
Proof using Hg.
  revert s; induction fuel as [|fuel IH]; intros s Hs Hd Hm; cbn [analyze_loop];
    destruct (st_queue s) as [|current queue] eqn:Eq; try (by exists s).
  { exfalso. unfold measure in Hm. rewrite Eq in Hm. cbn [length] in Hm.
    destruct Hs as [Hsc _ _ _ _ _]. pose proof (sum_pot_nonneg _ (node_ids g) Hsc). lia. }
  destruct (ok_queue s Hs current) as [p0 Hp]; [rewrite Eq; by left|].
  unfold get_probability. rewrite Hp. cbn [mbind res_bind].
  destruct (pop_step (relax g failed current p0) current queue s p0 (sort_by edge_leb (outgoing g current)))
    as (s' & E & Hs' & Hd' & Hm'); [|by intros e; rewrite elem_of_sort_by, elem_of_outgoing|done..|].
  - intros s1 e1 _ _ _ _. exists p0. split_and!; [|by right|done].
    pose proof (ok_scores s Hs current) as Hsc. unfold prob_of, dget_default in Hsc. by rewrite Hp in Hsc.
  - unfold pop in E. rewrite E. cbn [mbind res_bind]. apply IH; [done..|lia].
Qed.

Lemma without_spof_loop_spec fuel s : state_ok s → dominated s → measure g s <= Z.of_nat fuel →
  ∃ s', without_spof_loop fuel g failed s = Ok s' ∧ state_ok s' ∧ dominated s' ∧ st_queue s' = [].
Proof using Hg.
  revert s; induction fuel as [|fuel IH]; intros s Hs Hd Hm; cbn [without_spof_loop];
    destruct (st_queue s) as [|current queue] eqn:Eq; try (by exists s).
  { exfalso. unfold measure in Hm. rewrite Eq in Hm. cbn [length] in Hm.
    destruct Hs as [Hsc _ _ _ _ _]. pose proof (sum_pot_nonneg _ (node_ids g) Hsc). lia. }
  destruct (ok_queue s Hs current) as [p0 Hp]; [rewrite Eq; by left|].
  destruct (pop_step (relax_live g failed current) current queue s p0 (outgoing g current))
    as (s' & E & Hs' & Hd' & Hm'); [|apply elem_of_outgoing|done..|].
  - intros s1 e1 Hs1 _ [p Hp1] Hor. exists p. split_and!.
    + pose proof (ok_scores s1 Hs1 current) as Hsc. unfold prob_of, dget_default in Hsc. by rewrite Hp1 in Hsc.
    + destruct Hor as [?|Hor]; [by left|right; congruence].
    + unfold relax_live, get_probability. by rewrite Hp1.
  - unfold pop in E. rewrite E. cbn [mbind res_bind]. apply IH; [done..|lia].
Qed.

(** The initial state satisfies the invariants. *)

Definition fuel_bound : Z := Z.of_nat (length failed) + 2000000000 * Z.of_nat (length (graph_nodes g)).

(** The initial state satisfies the invariants. *)
Lemma initial_ok : NoDup failed → (∀ f, f ∈ failed → f ∈ node_ids g) →
  state_ok (initial_state failed) ∧ dominated (initial_state failed) ∧ measure g (initial_state failed) <= fuel_bound.
Proof using Hg.
  intros Hnd Hf.
  assert (state_ok (initial_state failed)) as Hok.
  { unfold initial_state. split; cbn [st_probability st_path st_queue].
    - intros id. unfold prob_of, dget_default. cbn. rewrite (dget_const (λ _, f1)). by case_decide.
    - intros id. rewrite (dget_const (λ _, f1)). case_decide; [auto|by intros []].
    - intros id. rewrite elem_of_sort_by, (dget_const (λ _, f1)). intros ?. rewrite decide_True by done. eauto.
    - intros id. rewrite (dget_const (λ _, f1)), (dget_const (λ id, [id])). case_decide; [|by intros []].
      intros _. exists [id], id. split_and!; [done..|constructor].
    - intros f ?. rewrite (dget_const (λ _, f1)), decide_True by done. eauto.
    - unfold dkeys. rewrite <-list_fmap_compose. cbn. change (fst ∘ _) with (@id string). by rewrite list_fmap_id. }
  split_and!; [done| |].
  - intros e p _ Hp. left. cbn [initial_state st_queue]. apply elem_of_sort_by.
    cbn [initial_state st_probability] in Hp. rewrite (dget_const (λ _, f1)) in Hp. by case_decide.
  - unfold measure, fuel_bound. cbn [initial_state st_queue]. rewrite sort_by_length.
    pose proof (sum_pot_nonneg _ (node_ids g) (ok_scores _ Hok)) as [_ H].
    unfold node_ids in *. rewrite length_fmap in H. lia.
Qed.

(** ** The early-exit propagation *)

(** [candidate] reaches a critical node other than itself. *)
Definition cascades (candidate : string) : Prop :=
  ∃ n l, n ∈ graph_nodes g ∧ node_id n ≠ candidate ∧ (node_criticality n >=? lit 0.8)%F = true ∧
    edge_path g candidate (node_id n) l.

Record spof_ok (candidate : string) (d : dict string float) (queue : list string) : Prop := {
  spof_scores id : is_score (dget_default d id f0) = true;
  spof_reach id : is_Some (dget d id) → ∃ l, edge_path g candidate id l;
  spof_queue id : id ∈ queue → is_Some (dget d id)
}.

Definition spof_measure (d : dict string float) (queue : list string) : Z :=
  Z.of_nat (length queue) + sum_pot d (node_ids g).

Lemma spof_relax_spec candidate curr d queue e :
  spof_ok candidate d queue → is_Some (dget d curr) → e ∈ graph_edges g → edge_source e = curr →
  ∃ d' queue' found, spof_relax g (nodes_of g) candidate curr d queue e = Ok (d', queue', found) ∧
    spof_ok candidate d' queue' ∧ is_Some (dget d' curr) ∧
    spof_measure d' queue' <= spof_measure d queue ∧ (found = true → cascades candidate).
Proof using Hg.
  intros [Hsc Hre Hq] [p Hp] He Hsrc. unfold spof_relax, get_probability. rewrite Hp. cbn [mbind res_bind].
  pose proof (Hsc curr) as Hps. unfold dget_default in Hps. rewrite Hp in Hps.
  pose proof (score_propagated [candidate; curr] p e Hps He) as Hpp.
  pose proof (score_combined _ _ (Hsc (edge_target e)) Hpp) as Hc.
  destruct (significant _ _) eqn:Sig; [|by exists d, queue, false].
  pose proof (significant_gap _ _ (Hsc _) Hc Sig) as Hgap. set (c := combined _ _) in *.
  destruct (score_fmin1 c Hc) as [Hc1 Hc2]. destruct graph_facts as (Hids & _ & Hedge).
  destruct (Hedge e He) as (_ & _ & Htgt). destruct (Hre curr) as [l Hl]; [eauto|].
  assert (edge_path g candidate (edge_target e) (l ++ [edge_target e])) as Hpath by (by econstructor).
  set (d' := dset d (edge_target e) (fmin f1 c)).
  assert (∀ id, is_Some (dget d id) → is_Some (dget d' id)) as Hgrow.
  { intros id ?. unfold d'. destruct (decide (edge_target e = id)) as [<-|]; [rewrite dget_dset_eq|rewrite dget_dset_ne]; eauto. }
  assert (∀ q, (∀ id, id ∈ q → id ∈ queue ∨ id = edge_target e) → spof_ok candidate d' q) as Hok.
  { intros q Hqq. split.
    - intros id. unfold d'. rewrite dget_default_dset. by case_decide.
    - intros id. unfold d'. destruct (decide (edge_target e = id)) as [<-|]; [eauto|rewrite dget_dset_ne by done; auto].
    - intros id [?| ->]%Hqq; [auto|]. unfold d'. rewrite dget_dset_eq. eauto. }
  assert (sum_pot d' (node_ids g) + 1 <= sum_pot d (node_ids g)) as Hm.
  { apply sum_pot_dset; [done..|]. apply pot_drop. by rewrite Hc2. }
  assert (spof_ok candidate d' (queue ++ [edge_target e]) ∧ spof_measure d' (queue ++ [edge_target e]) <= spof_measure d queue) as [Hok1 Hm1].
  { split; [apply Hok; intros id; rewrite elem_of_app, list_elem_of_singleton; tauto|].
    unfold spof_measure. rewrite length_app. cbn [length]. lia. }
  assert (is_Some (dget d' curr)) as Hcur by eauto.
  unfold str_eqb. destruct (String.eqb_spec (edge_target e) candidate) as [Et|Et]; [eexists _, _, false; split; [reflexivity|]; split_and!; first [assumption|discriminate]|].
  destruct (proj1 (nodes_of_spec _) Htgt) as [n Hn]. unfold lookup_node. rewrite Hn. cbn [mbind res_bind].
  apply nodes_of_elem in Hn as [Hn1 Hn2]. destruct (node_criticality n >=? lit 0.8)%F eqn:Ecr; [|eexists _, _, false; split; [reflexivity|]; split_and!; first [assumption|discriminate]].
  cbn [andb]. destruct (fmin f1 c >=? lit 0.7)%F; [|eexists _, _, false; split; [reflexivity|]; split_and!; first [assumption|discriminate]].
  eexists _, _, true. split; [reflexivity|]. split_and!; [apply Hok; tauto|assumption| |].
  - unfold spof_measure. lia.
  - intros _. exists n, (l ++ [edge_target e]). rewrite Hn2. split_and!; assumption.
Qed.

Lemma spof_edges_spec candidate curr es d queue :
  spof_ok candidate d queue → is_Some (dget d curr) →
  (∀ e, e ∈ es → e ∈ graph_edges g ∧ edge_source e = curr) →
  ∃ d' queue' found, spof_edges g (nodes_of g) candidate curr d queue es = Ok (d', queue', found) ∧
    spof_ok candidate d' queue' ∧ spof_measure d' queue' <= spof_measure d queue ∧ (found = true → cascades candidate).
Proof using Hg.
  revert d queue; induction es as [|e es IH]; intros d queue Hok Hcur Hes; cbn [spof_edges].
  { by exists d, queue, false. }
  destruct (Hes e) as [He Hsrc]; [by left|].
  destruct (spof_relax_spec candidate curr d queue e) as (d1 & q1 & [] & -> & Hok1 & Hcur1 & Hm1 & Hf1); [done..| |];
    cbn [mbind res_bind]; [by exists d1, q1, true|].
  destruct (IH d1 q1) as (d2 & q2 & f2 & -> & ? & ? & ?); [done|done| |].
  - intros e' ?. apply Hes. by right.
  - exists d2, q2, f2. split_and!; [done|done|lia|done].
Qed.

Lemma spof_loop_spec fuel candidate d queue :
  spof_ok candidate d queue → spof_measure d queue <= Z.of_nat fuel →
  ∃ found, spof_loop fuel g (nodes_of g) candidate d queue = Ok found ∧ (found = true → cascades candidate).
Proof using Hg.
  revert d queue; induction fuel as [|fuel IH]; intros d [|curr queue] Hok Hm; cbn [spof_loop]; try (by exists false).
  { exfalso. unfold spof_measure in Hm. cbn [length] in Hm.
    pose proof (sum_pot_nonneg _ (node_ids g) (spof_scores _ _ _ Hok)). lia. }
  destruct (spof_edges_spec candidate curr (outgoing g curr) d queue) as (d' & q' & [] & -> & Hok' & Hm' & Hf).
  - destruct Hok. split; try done. intros id ?. apply spof_queue0. by right.
  - apply (spof_queue _ _ _ Hok). by left.
  - by intros e ?%elem_of_outgoing.
  - exists true. cbn. auto.
  - cbn [mbind res_bind]. apply IH; [done|]. unfold spof_measure in *. cbn [length] in Hm. lia.
Qed.

Lemma single_points_spec fuel : 1 + 2000000000 * Z.of_nat (length (graph_nodes g)) <= Z.of_nat fuel →
  ∃ l, single_points_fast fuel g = Ok l ∧ ∀ c, c ∈ l → cascades c.
Proof using Hg.
  intros Hfuel. unfold single_points_fast.
  assert (∀ cs r, (∀ c, c ∈ r → cascades c) →
    ∃ l, foldM (spof_step fuel g (nodes_of g)) r cs = Ok l ∧ ∀ c, c ∈ l → cascades c) as H.
  { induction cs as [|c cs IH]; intros r Hr; cbn [foldM]; [by exists r|].
    destruct (spof_loop_spec fuel c [(c, f1)] [c]) as (found & E & Hf).
    - split.
      + intros id. unfold dget_default. cbn. by case_decide.
      + intros id. cbn. case_decide; [|by intros []]. intros _. subst. eexists. constructor.
      + intros id ->%list_elem_of_singleton. cbn. rewrite decide_True by done. eauto.
    - unfold spof_measure. cbn [length]. assert (∀ id, is_score (dget_default [(c, f1)] id f0) = true) as Hs.
      { intros id. unfold dget_default. cbn. by case_decide. }
      pose proof (sum_pot_nonneg _ (node_ids g) Hs) as [_ Hb].
      unfold node_ids in *. rewrite length_fmap in Hb. lia.
    - assert (spof_step fuel g (nodes_of g) r c = Ok (if found then r ++ [c] else r)) as ->
        by (unfold spof_step; by rewrite E).
      cbn [mbind res_bind]. apply IH. destruct found; [|done].
      intros c' [?| ->%list_elem_of_singleton]%elem_of_app; auto. }
  apply H. by intros ? ?%elem_of_nil.
Qed.
End graph.

(** ** The assessment *)

(** What [analyze] promises of its result. *)
Record assessment_sound (g : DependencyGraph) (failed : list string) (a : GraphAssessment) : Prop := {
  sound_failed f : f ∈ failed → ∃ i, i ∈ ga_impacted_nodes a ∧ imp_node_id i = f;
  sound_path i : i ∈ ga_impacted_nodes a → ∃ f, f ∈ failed ∧ edge_path g f (imp_node_id i) (imp_path i);
  sound_scores i : i ∈ ga_impacted_nodes a → is_score (imp_probability i) = true;
  sound_NoDup : NoDup (imp_node_id <$> ga_impacted_nodes a);
  sound_single c : c ∈ ga_single_points_of_failure a → cascades g c
}.

(** The list of impacted nodes of a final state. *)
Lemma impacted_nodes_spec g failed s (mk : prop_state → DependencyNode → list string → string * float → ImpactedNode)
    (f : string * float → res ImpactedNode) :
  graph_valid g = true → state_ok g failed s →
  (∀ kv n l, kv ∈ st_probability s → is_score kv.2 = true → is_score (node_criticality n) = true →
     dget (nodes_of g) kv.1 = Some n → dget (st_path s) kv.1 = Some l → f kv = Ok (mk s n l kv)) →
  ∃ ims, mapM_res f (st_probability s) = Ok ims ∧
    Forall2 (λ kv i, ∃ n l, i = mk s n l kv ∧ is_score kv.2 = true ∧ is_score (node_criticality n) = true ∧
               dget (st_path s) kv.1 = Some l ∧ ∃ f, f ∈ failed ∧ edge_path g f kv.1 l) (st_probability s) ims.
Proof.
  intros Hg [Hsc Hk _ Hpa _ Hnd] Hf.
  assert (∀ kv, kv ∈ st_probability s → ∃ i, f kv = Ok i ∧ ∃ n l, i = mk s n l kv ∧ is_score kv.2 = true ∧
            is_score (node_criticality n) = true ∧ dget (st_path s) kv.1 = Some l ∧ ∃ f, f ∈ failed ∧ edge_path g f kv.1 l) as H.
  { intros [k v] Hin. pose proof (elem_dget _ _ _ Hnd Hin) as E. pose proof (Hsc k) as Hs.
    unfold prob_of, dget_default in Hs. rewrite E in Hs.
    destruct (Hpa k) as (l & f' & El & ? & ?); [eauto|].
    destruct (proj1 (nodes_of_spec g k) (Hk k ltac:(eauto))) as [n En].
    pose proof (nodes_of_score g Hg k n En). exists (mk s n l (k, v)). split; [by apply Hf|]. eauto 10. }
  clear -H. induction (st_probability s) as [|kv d IH]; cbn [mapM_res]; [by exists []|].
  destruct (H kv) as (i & -> & Hi); [by left|]. destruct IH as (ims & -> & His); [intros; apply H; by right|].
  exists (i :: ims). split; [done|]. by constructor.
Qed.

Lemma Forall2_same_key {A B K} (P : A → B → Prop) (ka : A → K) (kb : B → K) l k :
  Forall2 P l k → (∀ x y, P x y → kb y = ka x) → kb <$> k = ka <$> l.
Proof. intros H Hk. induction H; cbn; [done|]. f_equal; auto. Qed.

Lemma impact_weights_coarse g (failed : list string) s ims :
  Forall2 (λ kv i, ∃ n l, i = {| imp_node_id := kv.1; imp_probability := fround 6 kv.2;
        imp_weighted := fround 6 (kv.2 * node_criticality n)%F; imp_path := l |} ∧ is_score kv.2 = true ∧
      is_score (node_criticality n) = true ∧ dget (st_path s) kv.1 = Some l ∧ ∃ f, f ∈ failed ∧ edge_path g f kv.1 l)
    (st_probability s) ims →
  Forall coarse (imp_weighted <$> ims).
Proof.
  intros H. apply Forall_fmap. induction H as [|kv i d ims (n & l & -> & ? & ? & _) H IH]; constructor; [|done].
  cbn. by apply coarse_round6, score_mul.
Qed.

(** The analysis returns a sound report. *)
Lemma analyze_sound fuel g failed calculate_spof :
  graph_valid g = true → Z.of_nat (length (graph_nodes g)) ≤ 2 ^ 30 →
  NoDup failed → (∀ f, f ∈ failed → f ∈ node_ids g) →
  1 + fuel_bound g failed ≤ Z.of_nat fuel →
  ∃ a, analyze fuel g failed calculate_spof = Ok a ∧ assessment_sound g failed a.
Proof.
  intros Hg Hn Hnd Hf Hfuel. destruct (initial_ok g Hg failed Hnd Hf) as (H1 & H2 & H3).
  destruct (analyze_loop_spec g Hg failed fuel (initial_state failed) H1 H2 ltac:(lia)) as (s & E & Hok & _ & _).
  unfold analyze. destruct (List.filter _ failed) as [|x l] eqn:Eu.
  2:{ exfalso. assert (In x (x :: l)) as Hx by (by left). rewrite <-Eu in Hx.
      apply List.filter_In in Hx as [Hx1%list_elem_of_In%Hf%nodes_of_spec Hx2]. unfold dmem in Hx2. destruct Hx1 as [? E1].
      by rewrite E1 in Hx2. }
  cbn [raise_if mbind res_bind]. rewrite E. cbn [mbind res_bind].
  destruct (impacted_nodes_spec g failed s (λ _ n l kv, {| imp_node_id := kv.1; imp_probability := fround 6 kv.2;
      imp_weighted := fround 6 (kv.2 * node_criticality n)%F; imp_path := l |})
      (impacted_node (nodes_of g) (st_path s)) Hg Hok) as (ims & -> & His).
  { intros kv n l _ S1 S2 En El. unfold impacted_node, lookup_node, get_path. rewrite En, El. cbn.
    unfold new_ImpactedNode. cbn. rewrite score_round by done. cbn.
    by rewrite fround_nonneg by by apply score_nonneg, score_mul. }
  cbn [mbind res_bind].
  assert (∃ sp, (if calculate_spof then single_points_fast fuel g else Ok []) = Ok sp ∧ ∀ c, c ∈ sp → cascades g c)
    as (sp & -> & Hsp).
  { destruct calculate_spof; [apply single_points_spec; [done|unfold fuel_bound in Hfuel; lia]|].
    exists []. split; [done|]. by intros ? ?%elem_of_nil. }
  cbn [mbind res_bind]. unfold new_GraphAssessment. cbn [ga_total_weighted_impact].
  pose proof (Forall2_same_key _ fst imp_node_id _ _ His) as Hkeys.
  rewrite fround_nonneg.
  2:{ apply fsum_coarse_nonneg.
      - rewrite (sort_by_perm impact_leb ims). by apply impact_weights_coarse in His.
      - rewrite length_fmap, sort_by_length, <-(Forall2_length _ _ _ His).
        assert (length (st_probability s) <= length (graph_nodes g))%nat; [|lia].
        rewrite <-(length_fmap fst (st_probability s)), <-(length_fmap node_id (graph_nodes g)).
        apply submseteq_length, NoDup_submseteq; [apply Hok|]. intros id Hid. apply (ok_keys _ _ _ Hok).
        by apply dget_some_key. }
  eexists. split; [reflexivity|].
  assert (∀ i, i ∈ ims → ∃ kv, kv ∈ st_probability s ∧ imp_node_id i = kv.1 ∧ is_score (imp_probability i) = true ∧
            ∃ f, f ∈ failed ∧ edge_path g f (imp_node_id i) (imp_path i)) as Hi.
  { intros i Hin. clear -His Hin. induction His as [|kv i' d ims (n & l & -> & ? & ? & ? & ?) H IH]; [by apply elem_of_nil in Hin|].
    apply elem_of_cons in Hin as [->|Hin].
    - exists kv. cbn. split_and!; [by left|done|by apply score_round|done].
    - destruct (IH Hin) as (kv' & ? & ?). exists kv'. split; [by right|done]. }
  assert (imp_node_id <$> ims = dkeys (st_probability s)) as Eids.
  { apply Hkeys. by intros kv i (n & l & -> & _). }
  split; cbn.
  - intros f Hff. apply (ok_failed _ _ _ Hok), dget_some_key in Hff. rewrite <-Eids in Hff.
    apply list_elem_of_fmap in Hff as (i & -> & ?). exists i. by rewrite elem_of_sort_by.
  - intros i. rewrite elem_of_sort_by. by intros (? & _ & _ & _ & ?)%Hi.
  - intros i. rewrite elem_of_sort_by. by intros (? & _ & _ & ? & _)%Hi.
  - rewrite (sort_by_perm impact_leb ims), Eids. apply Hok.
  - done.
Qed.

(** C8.  Failure propagation terminates and its report is sound: on a valid
    graph the analysis of known failed nodes always returns an assessment.
    Every failed node is reported, every reported node has a chain of
    dependency edges from a failed node (the reported path), no node is
    reported twice, the probabilities lie in [0, 1], and every reported single
    point of failure reaches another node of criticality at least 0.8.  The
    number of iterations is at most the number of failed nodes plus two
    thousand million per node, since each new queue entry raises a probability
    by more than half a billionth. *)
Theorem analyze_total_sound fuel g failed calculate_spof :
  graph_valid g = true → Z.of_nat (length (graph_nodes g)) ≤ 2 ^ 30 →
  NoDup failed → (∀ f, f ∈ failed → f ∈ node_ids g) →
  1 + fuel_bound g failed ≤ Z.of_nat fuel →
  ∃ a, analyze fuel g failed calculate_spof = Ok a ∧ assessment_sound g failed a.
Proof. exact (analyze_sound fuel g failed calculate_spof). Qed.

(** Unknown failed nodes are refused before anything is computed, with
    the sorted list of the unknown ones in the message. *)
Theorem analyze_unknown fuel g failed calculate_spof f :
  f ∈ failed → f ∉ node_ids g →
  ∃ unknown, analyze fuel g failed calculate_spof =
      Raise (ValueError ("unknown failed nodes: " +:+ list_repr unknown)) ∧
    sorted_by str_leb unknown ∧ ∀ x, x ∈ unknown ↔ x ∈ failed ∧ x ∉ node_ids g.
Proof.
  intros Hf Hn. unfold analyze. set (unknown := List.filter _ failed).
  assert (∀ x, x ∈ unknown ↔ x ∈ failed ∧ x ∉ node_ids g) as Hu.
  { intros x. unfold unknown. rewrite list_elem_of_In, List.filter_In, <-list_elem_of_In, nodes_of_spec.
    unfold dmem. destruct (dget (nodes_of g) x); cbn; split; intros [? Hx]; split; try done; exfalso; eauto. }
  exists (sort_by str_leb unknown). split_and!.
  - destruct unknown as [|y l]; [|done]. exfalso. eapply elem_of_nil, Hu. eauto.
  - apply sort_by_sorted; [apply str_leb_total|apply str_leb_trans].
  - intros x. by rewrite elem_of_sort_by.
Qed.

(** The blast radius accounts for every dependency: a node of the
    result passes on its probability along each of its edges (times the
    strength, and times 0.25 when a substitute is healthy), up to 1.1e-9.  So
    a system that depends on a failed one by an edge of strength one without
    substitute is given probability at least [1 - 1.1e-9]. *)
Theorem blast_radius_dominates fuel g failed :
  graph_valid g = true → NoDup failed → (∀ f, f ∈ failed → f ∈ node_ids g) →
  fuel_bound g failed ≤ Z.of_nat fuel →
  ∃ d, calculate_blast_radius fuel g failed = Ok d ∧
    (∀ f, f ∈ failed → is_Some (dget d f)) ∧
    ∀ e p, e ∈ graph_edges g → dget d (edge_source e) = Some p →
      (qv (propagated g (edge_source e :: failed) p e) <= qv (dget_default d (edge_target e) f0) + slack)%Q.
Proof.
  intros Hg Hnd Hf Hfuel. destruct (initial_ok g Hg failed Hnd Hf) as (H1 & H2 & H3).
  destruct (without_spof_loop_spec g Hg failed fuel (initial_state failed) H1 H2 ltac:(lia)) as (s & E & Hok & Hdom & Hq).
  unfold calculate_blast_radius, analyze_without_spof. rewrite E. cbn [mbind res_bind].
  destruct (impacted_nodes_spec g failed s (λ _ n l kv, {| imp_node_id := kv.1; imp_probability := kv.2;
      imp_weighted := (kv.2 * node_criticality n)%F; imp_path := l |})
      (impacted_node_exact (nodes_of g) (st_path s)) Hg Hok) as (ims & -> & His).
  { intros kv n l _ S1 S2 En El. unfold impacted_node_exact, lookup_node, get_path. rewrite En, El. cbn.
    unfold new_ImpactedNode. cbn. rewrite S1. cbn. by rewrite score_nonneg by by apply score_mul. }
  cbn [mbind res_bind]. eexists. split; [reflexivity|].
  assert (foldl (λ (d : dict string float) i, dset d (imp_node_id i) (imp_probability i)) [] ims
          = st_probability s) as ->.
  { pose proof (ok_NoDup _ _ _ Hok) as Hnd'. rewrite <-(app_nil_l (st_probability s)) in Hnd' |- *.
    revert Hnd'. generalize (@nil (string * float)) as d0. clear -His.
    induction His as [|kv i d ims (n & l & -> & _) H IH]; intros d0 Hnd; cbn [foldl]; [by rewrite app_nil_r|].
    cbn. assert (dset d0 kv.1 kv.2 = d0 ++ [kv]) as ->.
    { destruct kv as [k v]. cbn [fst snd]. unfold dkeys in Hnd. rewrite fmap_app in Hnd.
      apply NoDup_app in Hnd as (_ & Hdis & _). cbn in Hdis. clear -Hdis.
      induction d0 as [|[k1 v1] d0 IH]; cbn; [done|]. case_decide as Ek; [|rewrite IH; [done|]].
      - exfalso. subst. apply (Hdis k1); [by left|by left].
      - intros x Hx. apply Hdis. by right. }
    replace (d0 ++ kv :: d) with ((d0 ++ [kv]) ++ d) in Hnd |- * by by rewrite <-app_assoc.
    by apply IH. }
  split; [apply Hok|]. intros e p He Hp. destruct (Hdom e p He Hp) as [Hin|Hc]; [|exact Hc].
  rewrite Hq in Hin. by apply elem_of_nil in Hin.
Qed.

(** ** Alternative paths: exactly the simple paths *)

Lemma elem_of_adjacency g u v : v ∈ adjacency g u ↔ ∃ e, e ∈ graph_edges g ∧ edge_source e = u ∧ edge_target e = v.
Proof.
  unfold adjacency. rewrite list_elem_of_fmap. split.
  - intros (e & -> & [? ?]%elem_of_outgoing). eauto.
  - intros (e & ? & ? & <-). exists e. by rewrite elem_of_outgoing.
Qed.

Lemma edge_path_cons g e w l :
  e ∈ graph_edges g → edge_path g (edge_target e) w l → edge_path g (edge_source e) w (edge_source e :: l).
Proof.
  intros He. induction 1 as [|v l e' H IH He' Hv].
  - apply (path_snoc g _ (edge_source e) [edge_source e] e); [constructor|done..].
  - change (edge_source e :: l ++ [edge_target e']) with ((edge_source e :: l) ++ [edge_target e']).
    by econstructor.
Qed.

Lemma edge_path_inv g u w l : edge_path g u w l →
  (u = w ∧ l = [u]) ∨ ∃ e l', e ∈ graph_edges g ∧ edge_source e = u ∧ l = u :: l' ∧ edge_path g (edge_target e) w l'.
Proof.
  induction 1 as [|v l e H IH He Hv]; [by left|]. right. destruct IH as [[-> ->]|(e1 & l' & ? & ? & -> & ?)].
  - exists e, [edge_target e]. split_and!; [done..|constructor].
  - exists e1, (l' ++ [edge_target e]). split_and!; [done..|by econstructor].
Qed.

Section paths.
Context (g : DependencyGraph) (Hg : graph_valid g = true) (target : string) (failed : list string).

(** The continuations of a search item. *)
Inductive route : string → list string → list string → Prop :=
| route_stop visited : route target visited []
| route_step e visited p : edge_source e ≠ target → e ∈ graph_edges g →
    edge_target e ∉ visited → edge_target e ∉ failed →
    route (edge_target e) (edge_target e :: visited) p →
    route (edge_source e) visited (edge_target e :: p).

Lemma route_iff u visited p : u ∈ visited →
  route u visited p ↔
  edge_path g u target (u :: p) ∧ NoDup (u :: p) ∧ (∀ x, x ∈ p → x ∉ visited ∧ x ∉ failed).
Proof using.
  intros Hu. split.
  - induction 1 as [visited|e visited p Hne He Hv Hf H IH].
    { split_and!; [constructor|apply NoDup_singleton|by intros ? ?%elem_of_nil]. }
    destruct IH as (IH1 & IH2 & IH3); [by left|]. split_and!.
    + by apply edge_path_cons.
    + apply NoDup_cons. split; [|done]. intros [E|Hin]%elem_of_cons; [by rewrite E in Hu|].
      apply IH3 in Hin as [Hin _]. apply Hin. by right.
    + intros x [->|Hin]%elem_of_cons; [done|]. apply IH3 in Hin as [Hin ?]. split; [|done].
      intros ?. apply Hin. by right.
  - revert u visited Hu. induction p as [|v p IH]; intros u visited Hu (Hp & Hn & Hx).
    { apply edge_path_inv in Hp as [[-> _]|(e & l' & _ & _ & [= <-] & Hp)]; [constructor|].
      by apply edge_path_inv in Hp as [[_ ?]|(? & ? & _ & _ & ? & _)]. }
    apply edge_path_inv in Hp as [[_ ?]|(e & l' & He & <- & [= <-] & Hp)]; [done|].
    assert (v = edge_target e) as -> by (by apply edge_path_inv in Hp as [[_ [= ? _]]|(? & ? & _ & _ & [= ? _] & _)]).
    destruct (Hx (edge_target e)) as [Hv Hf]; [by left|].
    constructor; [|done..|].
    + intros Et. assert (target ∈ edge_target e :: p) as Hin.
      { clear -Hp. remember (edge_target e :: p) as l. clear Heql. induction Hp; [by left|].
        apply elem_of_app. right. by left. }
      apply NoDup_cons in Hn as [Hn _]. by rewrite Et in Hn.
    + apply NoDup_cons in Hn as [_ Hn]. apply IH; [by left|]. split_and!; [done..|].
      intros x Hin. destruct (Hx x) as [? ?]; [by right|]. split; [|done].
      intros [->|?]%elem_of_cons; [by apply NoDup_cons in Hn as [? _]|done].
Qed.

Definition item_done (item : path_item) (k : nat) (out : list (list string)) : Prop :=
  (∀ f stack paths, paths_loop (k + f) g target failed (item :: stack) paths
                    = paths_loop f g target failed stack (paths ++ out)) ∧
  ∀ l, l ∈ out ↔ ∃ p, l = pi_path item ++ p ∧ route (pi_current item) (pi_visited item) p.

Lemma items_done items : (∀ i, i ∈ items → ∃ k out, item_done i k out) →
  ∃ k out, (∀ f stack paths, paths_loop (k + f) g target failed (items ++ stack) paths
                             = paths_loop f g target failed stack (paths ++ out)) ∧
    ∀ l, l ∈ out ↔ ∃ i p, i ∈ items ∧ l = pi_path i ++ p ∧ route (pi_current i) (pi_visited i) p.
Proof using.
  induction items as [|i items IH]; intros H.
  { exists 0%nat, []. split; [intros; cbn; by rewrite app_nil_r|]. intros l.
    split; [by intros ?%elem_of_nil|by intros (? & ? & ?%elem_of_nil & _)]. }
  destruct (H i) as (k1 & out1 & L1 & M1); [by left|].
  destruct IH as (k2 & out2 & L2 & M2); [intros; apply H; by right|].
  exists (k1 + k2)%nat, (out1 ++ out2). split.
  - intros f stack paths. rewrite <-Nat.add_assoc. cbn [app]. rewrite L1, L2. by rewrite app_assoc.
  - intros l. rewrite elem_of_app, M1, M2. split.
    + intros [(p & ? & ?)|(i' & p & ? & ? & ?)]; [exists i, p; by split; [left|]|exists i', p; by split; [right|]].
    + intros (i' & p & [->|?]%elem_of_cons & ? & ?); [left; eauto|right; eauto].
Qed.

(** The children of an item, in the order in which they were pushed. *)
Definition children (item : path_item) : list path_item :=
  (λ e, {| pi_current := edge_target e; pi_path := pi_path item ++ [edge_target e];
           pi_visited := edge_target e :: pi_visited item |}) <$>
  List.filter (λ e, negb (mem_str (edge_target e) (pi_visited item)) && negb (mem_str (edge_target e) failed))
    (outgoing g (pi_current item)).

Lemma push_edges item es stack :
  foldl (push_edge failed item) stack es =
  rev ((λ e, {| pi_current := edge_target e; pi_path := pi_path item ++ [edge_target e];
           pi_visited := edge_target e :: pi_visited item |}) <$>
  List.filter (λ e, negb (mem_str (edge_target e) (pi_visited item)) && negb (mem_str (edge_target e) failed)) es) ++ stack.
Proof using.
  revert stack; induction es as [|e es IH]; intros stack; cbn; [done|]. rewrite IH. unfold push_edge.
  destruct (_ && _); cbn; [|done]. by rewrite <-app_assoc.
Qed.

Definition unvisited (visited : list string) : nat :=
  length (List.filter (λ id, negb (mem_str id visited)) (node_ids g)).

Lemma mem_str_false s l : mem_str s l = false ↔ s ∉ l.
Proof using. unfold mem_str. apply bool_decide_eq_false. Qed.

Lemma unvisited_drop visited v : v ∈ node_ids g → v ∉ visited → (unvisited (v :: visited) < unvisited visited)%nat.
Proof using.
  unfold unvisited. intros Hin Hv.
  assert (∀ ids, (length (List.filter (λ id, negb (mem_str id (v :: visited))) ids)
                  <= length (List.filter (λ id, negb (mem_str id visited)) ids))%nat ∧
     (v ∈ ids → (length (List.filter (λ id, negb (mem_str id (v :: visited))) ids)
                  < length (List.filter (λ id, negb (mem_str id visited)) ids))%nat)) as H; [|by apply H].
  induction ids as [|x ids [IH1 IH2]]; cbn; [split; [lia|by intros ?%elem_of_nil]|].
  destruct (mem_str x (v :: visited)) eqn:E1, (mem_str x visited) eqn:E2; cbn.
  - split; [done|]. intros [->|?]%elem_of_cons; [by apply mem_str_true in E2|auto].
  - split; [lia|]. intros _. lia.
  - exfalso. apply mem_str_true in E2. apply mem_str_false in E1. apply E1. by right.
  - split; [lia|]. intros [->|?]%elem_of_cons; [|apply IH2 in H; lia].
    exfalso. apply mem_str_false in E1. apply E1. by left.
Qed.

Lemma elem_of_children item i : i ∈ children item ↔
  ∃ e, e ∈ graph_edges g ∧ edge_source e = pi_current item ∧
    edge_target e ∉ pi_visited item ∧ edge_target e ∉ failed ∧
    i = {| pi_current := edge_target e; pi_path := pi_path item ++ [edge_target e];
           pi_visited := edge_target e :: pi_visited item |}.
Proof using.
  unfold children. rewrite list_elem_of_fmap. split.
  - intros (e & -> & [Hi Hb]%list_elem_of_In%List.filter_In).
    apply list_elem_of_In, elem_of_outgoing in Hi as [He Hs].
    apply andb_prop in Hb as [Hb1%negb_true_iff%mem_str_false Hb2%negb_true_iff%mem_str_false]. by exists e.
  - intros (e & He & Hs & Hv & Hf & ->). exists e. split; [done|].
    apply list_elem_of_In, List.filter_In. split; [by apply list_elem_of_In, elem_of_outgoing|].
    apply andb_true_intro; split; apply negb_true_iff; by apply mem_str_false.
Qed.

Lemma item_terminates item : ∃ k out, item_done item k out.
Proof using Hg.
  remember (unvisited (pi_visited item)) as n eqn:En. revert item En.
  induction (lt_wf n) as [n _ IH]; intros item ->. destruct (decide (pi_current item = target)) as [Et|Et].
  - exists 1%nat, [pi_path item]. split.
    { intros. cbn. unfold str_eqb. by rewrite (proj2 (String.eqb_eq _ _)) by done. }
    intros l. rewrite list_elem_of_singleton. split.
    + intros ->. exists []. rewrite app_nil_r, Et. by split; [|constructor].
    + intros (p & -> & Hr). inversion Hr; subst; [by rewrite app_nil_r|congruence].
  - destruct (items_done (rev (children item))) as (k & out & L & M).
    { intros i Hi. rewrite list_elem_of_In, <-in_rev, <-list_elem_of_In in Hi.
      apply elem_of_children in Hi as (e & He & _ & Hv & _ & ->).
      eapply IH; [|done]. cbn. apply unvisited_drop; [|done]. by apply graph_facts. }
    exists (S k), out. split.
    { intros f stack paths. cbn [Nat.add paths_loop]. unfold str_eqb.
      rewrite (proj2 (String.eqb_neq _ _)) by done. rewrite push_edges. apply L. }
    intros l. rewrite M. setoid_rewrite list_elem_of_In. setoid_rewrite <-in_rev.
    setoid_rewrite <-list_elem_of_In. setoid_rewrite elem_of_children. split.
    + intros (i & p & (e & He & Hs & Hv & Hf & ->) & -> & Hr). cbn in Hr |- *.
      exists (edge_target e :: p). rewrite <-app_assoc. split; [done|]. rewrite <-Hs in *. by constructor.
    + intros (p & -> & Hr). inversion Hr as [|e visited p' Hne He Hv Hf Hr' E1 E2 E3]; subst; [done|].
      eexists _, p'. split; [by exists e|]. cbn. by rewrite <-app_assoc.
Qed.
End paths.

Lemma length_leb_total a b : length_leb a b = true ∨ length_leb b a = true.
Proof. unfold length_leb. rewrite !Nat.leb_le. lia. Qed.

Lemma length_leb_trans a b c : length_leb a b = true → length_leb b c = true → length_leb a c = true.
Proof. unfold length_leb. rewrite !Nat.leb_le. lia. Qed.

(** The search for alternative paths is exact and terminates: with
    enough fuel it returns precisely the simple paths of the graph from the
    source to the target whose later nodes have not failed, shortest first. *)
Theorem find_alternative_paths_exact g source target failed :
  graph_valid g = true →
  ∃ enough paths, (∀ fuel, (enough <= fuel)%nat → find_alternative_paths fuel g source target failed = Ok paths) ∧
    (∀ l, l ∈ paths ↔ edge_path g source target l ∧ NoDup l ∧ ∀ x, x ∈ tail l → x ∉ failed) ∧
    sorted_by length_leb paths.
Proof.
  intros Hg. set (item := {| pi_current := source; pi_path := [source]; pi_visited := [source] |}).
  destruct (item_terminates g Hg target failed item) as (k & out & L & M).
  exists k, (sort_by length_leb out). split_and!.
  - intros fuel Hk. unfold find_alternative_paths. fold item. replace fuel with (k + (fuel - k))%nat by lia.
    rewrite L. by destruct (fuel - k)%nat.
  - intros l. rewrite elem_of_sort_by, M. cbn [item pi_current pi_path pi_visited]. split.
    + intros (p & -> & Hr). apply route_iff in Hr as (H1 & H2 & H3); [|by left].
      split_and!; [done..|]. intros x Hx. by apply H3.
    + intros (H1 & H2 & H3). destruct (edge_path_inv _ _ _ _ H1) as [[_ ->]|(e & l' & _ & _ & -> & _)].
      * exists []. split; [done|]. apply route_iff; [by left|]. split_and!; [done..|by intros ? ?%elem_of_nil].
      * exists l'. split; [done|]. apply route_iff; [by left|]. split_and!; [done..|].
        intros x Hx. split; [|by apply H3]. intros ->%list_elem_of_singleton. by apply NoDup_cons in H2 as [? _].
  - apply sort_by_sorted; [apply length_leb_total|apply length_leb_trans].
Qed.

(** ** Cycle detection: sound and complete *)

(** A closed chain of at least one edge. *)
Definition is_cycle (g : DependencyGraph) (c : list string) : Prop :=
  ∃ u, edge_path g u u c ∧ (2 <= length c)%nat.

Section cycles.
Context (g : DependencyGraph) (Hg : graph_valid g = true).

Lemma edge_path_snoc u v w l : edge_path g u v l → w ∈ adjacency g v → edge_path g u w (l ++ [w]).
Proof using. intros H (e & He & Hs & <-)%elem_of_adjacency. by econstructor. Qed.

(** Finished nodes, the last one first: their successors finished before them. *)
Fixpoint topo (ord : list string) : Prop :=
  match ord with [] => True | u :: ord => (∀ v, v ∈ adjacency g u → v ∈ ord) ∧ topo ord end.

Lemma topo_acyclic ord : topo ord → NoDup ord → ∀ u c, u ∈ ord → edge_path g u u c → (length c < 2)%nat.
Proof using.
  induction ord as [|x ord IH]; intros Ht Hn u c Hu Hc; [by apply elem_of_nil in Hu|].
  destruct Ht as [Hx Ht]. apply NoDup_cons in Hn as [Hnx Hn].
  assert (∀ a b l, a ∈ ord → edge_path g a b l → b ∈ ord) as Hclosed.
  { intros a b l Ha. induction 1 as [|v l e H IHp He Hs]; [done|].
    assert (edge_target e ∈ adjacency g v) as Hadj by (apply elem_of_adjacency; eauto).
    clear -Ht IHp Hadj. induction ord as [|y ord IH]; [by apply elem_of_nil in IHp|]. destruct Ht as [Hy Ht].
    apply elem_of_cons in IHp as [->|Hv]; right; auto. }
  apply elem_of_cons in Hu as [->|Hu]; [|by eapply IH].
  apply edge_path_inv in Hc as [[_ ->]|(e & l' & He & Hs & -> & Hp)]; [cbn; lia|].
  exfalso. apply Hnx. eapply Hclosed; [|exact Hp]. apply Hx, elem_of_adjacency. eauto.
Qed.

(** The chain of parents from the node in progress to the root of the search. *)
Fixpoint chained (parent : dict string (option string)) (stack : list string) : Prop :=
  match stack with
  | x :: ((y :: _) as rest) => dget parent x = Some (Some y) ∧ x ∈ adjacency g y ∧ chained parent rest
  | _ => True
  end.

Lemma chained_dset parent stack n v : n ∉ stack → chained parent stack → chained (dset parent n v) stack.
Proof using.
  induction stack as [|x [|y stack] IH]; [done|done|]. intros [Hne Hn]%not_elem_of_cons (A & B & C).
  split; [by rewrite dget_dset_ne|]. split; [done|]. by apply IH.
Qed.

Lemma walk_parents_spec fuel parent neighbor stack node c :
  chained parent (node :: stack) → neighbor ∈ node :: stack → NoDup (node :: stack) →
  (length stack < fuel)%nat →
  ∃ seg, walk_parents fuel parent neighbor node c = Ok (c ++ seg) ∧
    edge_path g neighbor node (neighbor :: rev seg).
Proof using.
  revert node stack c. induction fuel as [|fuel IH]; intros node stack c Hc Hin Hn Hf; [lia|].
  cbn [walk_parents]. unfold str_eqb. destruct (String.eqb_spec node neighbor) as [->|Hne].
  { exists []. rewrite app_nil_r. split; [done|constructor]. }
  apply elem_of_cons in Hin as [?|Hin]; [congruence|]. destruct stack as [|y stack]; [by apply elem_of_nil in Hin|].
  destruct Hc as (Hpar & Hadj & Hc). apply NoDup_cons in Hn as [_ Hn]. unfold dget_default. rewrite Hpar.
  destruct (IH y stack (c ++ [node])) as (seg & -> & Hp); [done..|cbn in Hf; lia|].
  exists (node :: seg). rewrite <-app_assoc. split; [done|]. cbn [rev].
  change (neighbor :: rev seg ++ [node]) with ((neighbor :: rev seg) ++ [node]). by eapply edge_path_snoc.
Qed.

Record dfs_ok (s : dfs_state) (stack ord : list string) : Prop := {
  dfs_keys id : is_Some (dget (ds_color s) id) ↔ id ∈ node_ids g;
  dfs_gray id : dget (ds_color s) id = Some GRAY ↔ id ∈ stack;
  dfs_black id : dget (ds_color s) id = Some BLACK ↔ id ∈ ord;
  dfs_stack : NoDup stack;
  dfs_ord : NoDup ord;
  dfs_chain : chained (ds_parent s) stack;
  dfs_sound c : c ∈ ds_cycles s → is_cycle g c;
  dfs_topo : ds_cycles s = [] → topo ord
}.

(** The number of white nodes bounds the depth of the recursion. *)
Fixpoint whites (d : dict string color) (ids : list string) : nat :=
  match ids with
  | [] => 0
  | id :: ids => (if decide (dget d id = Some WHITE) then 1 else 0) + whites d ids
  end.

Lemma whites_dset d id c ids : c ≠ WHITE →
  (whites (dset d id c) ids <= whites d ids)%nat ∧
  (id ∈ ids → dget d id = Some WHITE → whites (dset d id c) ids < whites d ids)%nat.
Proof using.
  intros Hc. induction ids as [|x ids [IH1 IH2]]; cbn [whites]; [split; [lia|by intros ?%elem_of_nil]|].
  destruct (decide (id = x)) as [->|Hne].
  - rewrite dget_dset_eq. destruct (decide (Some c = Some WHITE)) as [[= ?]|]; [done|]. split; [lia|].
    intros _ Hw. rewrite (decide_True (P:=dget d x = Some WHITE)) by done. lia.
  - rewrite dget_dset_ne by done. split; [lia|]. intros [?|Hin]%elem_of_cons Hw; [done|]. specialize (IH2 Hin Hw). lia.
Qed.

Definition node_count : nat := length (graph_nodes g).

Lemma stack_short s stack ord : dfs_ok s stack ord → (length stack <= node_count)%nat.
Proof using.
  intros Hs. unfold node_count. rewrite <-(length_fmap node_id). apply submseteq_length, NoDup_submseteq; [apply Hs|].
  intros id Hid. apply (dfs_keys _ _ _ Hs). apply (dfs_gray _ _ _ Hs) in Hid. eauto.
Qed.

(** What a completed visit of [node] under [stack] leaves. *)
Definition visited_ok (s : dfs_state) (stack ord : list string) (s' : dfs_state) (ord' : list string) : Prop :=
  dfs_ok s' stack ord' ∧ (∀ x, x ∈ ord → x ∈ ord') ∧ (ds_cycles s' = [] → ds_cycles s = []) ∧
  (whites (ds_color s') (node_ids g) <= whites (ds_color s) (node_ids g))%nat.

Lemma visited_refl s stack ord : dfs_ok s stack ord → visited_ok s stack ord s ord.
Proof using. intros. unfold visited_ok. split_and!; auto. Qed.

Lemma visited_trans s1 s2 s3 stack o1 o2 o3 :
  visited_ok s1 stack o1 s2 o2 → visited_ok s2 stack o2 s3 o3 → visited_ok s1 stack o1 s3 o3.
Proof using. intros (_ & A1 & A2 & A3) (B0 & B1 & B2 & B3). unfold visited_ok. split_and!; [done|auto|auto|lia]. Qed.

(** Colouring the start of a visit. *)
Lemma enter_ok s stack ord node parent :
  dfs_ok s stack ord → dget (ds_color s) node = Some WHITE → chained parent (node :: stack) →
  dfs_ok {| ds_color := dset (ds_color s) node GRAY; ds_parent := parent; ds_cycles := ds_cycles s |} (node :: stack) ord.
Proof using.
  intros Hs Hw Hc. split; cbn.
  - intros id. destruct (decide (node = id)) as [<-|]; [rewrite dget_dset_eq|rewrite dget_dset_ne by done; apply Hs].
    split; [|eauto]. intros _. apply (dfs_keys _ _ _ Hs). eauto.
  - intros id. rewrite elem_of_cons. destruct (decide (node = id)) as [<-|].
    + rewrite dget_dset_eq. split; [by left|done].
    + rewrite dget_dset_ne, (dfs_gray _ _ _ Hs) by done. split; [by right|by intros [?|?]].
  - intros id. destruct (decide (node = id)) as [<-|].
    + rewrite dget_dset_eq, <-(dfs_black _ _ _ Hs), Hw. done.
    + rewrite dget_dset_ne by done. apply Hs.
  - apply NoDup_cons. split; [|apply Hs]. intros Hin%(dfs_gray _ _ _ Hs). congruence.
  - apply Hs.
  - exact Hc.
  - apply Hs.
  - apply Hs.
Qed.

(** Colouring the end of a visit. *)
Lemma leave_ok s stack ord node :
  dfs_ok s (node :: stack) ord →
  (ds_cycles s = [] → ∀ v, v ∈ adjacency g node → v ∈ ord) →
  dfs_ok (set_color s node BLACK) stack (node :: ord).
Proof using.
  intros Hs Hadj. pose proof (dfs_stack _ _ _ Hs) as [Hns Hnd]%NoDup_cons.
  assert (dget (ds_color s) node = Some GRAY) as Hgray by (apply (dfs_gray _ _ _ Hs); by left).
  split; cbn.
  - intros id. destruct (decide (node = id)) as [<-|]; [rewrite dget_dset_eq|rewrite dget_dset_ne by done; apply Hs].
    split; [|eauto]. intros _. apply (dfs_keys _ _ _ Hs). eauto.
  - intros id. destruct (decide (node = id)) as [<-|].
    + rewrite dget_dset_eq. by split.
    + rewrite dget_dset_ne, (dfs_gray _ _ _ Hs), elem_of_cons by done. split; [by intros [?|?]|by right].
  - intros id. rewrite elem_of_cons. destruct (decide (node = id)) as [<-|].
    + rewrite dget_dset_eq. split; [by left|done].
    + rewrite dget_dset_ne, (dfs_black _ _ _ Hs) by done. split; [by right|by intros [?|?]].
  - exact Hnd.
  - apply NoDup_cons. split; [|apply Hs]. intros Hin%(dfs_black _ _ _ Hs). congruence.
  - pose proof (dfs_chain _ _ _ Hs) as Hc. destruct stack; [done|]. apply Hc.
  - apply Hs.
  - intros E. split; [by apply Hadj|by apply (dfs_topo _ _ _ Hs)].
Qed.

(** The body of the loop over the neighbours. *)
Definition dfs_neighbor (fuel : nat) (node : string) (s : dfs_state) (neighbor : string) : res dfs_state :=
  c ← get_color (ds_color s) neighbor;
  match c with
  | GRAY =>
      cycle ← walk_parents (S (length (graph_nodes g))) (ds_parent s) neighbor node [neighbor];
      Ok {| ds_color := ds_color s; ds_parent := ds_parent s;
            ds_cycles := ds_cycles s ++ [rev (cycle ++ [neighbor])] |}
  | WHITE =>
      dfs fuel g neighbor
        {| ds_color := ds_color s; ds_parent := dset (ds_parent s) neighbor (Some node);
           ds_cycles := ds_cycles s |}
  | BLACK => Ok s
  end.

(** A back edge closes a real cycle, which is recorded. *)
Lemma back_edge_ok s node stack ord neighbor :
  dfs_ok s (node :: stack) ord → neighbor ∈ adjacency g node → neighbor ∈ node :: stack →
  ∃ cycle, walk_parents (S (length (graph_nodes g))) (ds_parent s) neighbor node [neighbor] = Ok cycle ∧
    is_cycle g (rev (cycle ++ [neighbor])).
Proof using.
  intros Hs Hadj Hin. pose proof (stack_short _ _ _ Hs) as Hlen. unfold node_count in Hlen. cbn [length] in Hlen.
  destruct (walk_parents_spec (S (length (graph_nodes g))) (ds_parent s) neighbor stack node [neighbor])
    as (seg & -> & Hp); [by destruct Hs|done|by destruct Hs|lia|].
  eexists; split; [reflexivity|]. exists neighbor. rewrite !rev_app_distr. cbn [rev app].
  split; [by eapply (edge_path_snoc _ _ _ _ Hp)|]. cbn [length]. rewrite length_app. cbn. lia.
Qed.

Definition dfs_correct (fuel : nat) : Prop := ∀ node s stack ord,
  dfs_ok s stack ord → dget (ds_color s) node = Some WHITE → chained (ds_parent s) (node :: stack) →
  (whites (ds_color s) (node_ids g) <= fuel)%nat →
  ∃ s' ord', dfs fuel g node s = Ok s' ∧ visited_ok s stack ord s' ord' ∧ node ∈ ord'.

Lemma neighbors_ok fuel node stack : dfs_correct fuel → ∀ ns s ord,
  dfs_ok s (node :: stack) ord → (∀ n, n ∈ ns → n ∈ adjacency g node) →
  (whites (ds_color s) (node_ids g) <= fuel)%nat →
  ∃ s' ord', foldM (dfs_neighbor fuel node) s ns = Ok s' ∧ visited_ok s (node :: stack) ord s' ord' ∧
    (ds_cycles s' = [] → ∀ n, n ∈ ns → n ∈ ord').
Proof using Hg.
  intros IHdfs. induction ns as [|n ns IH]; intros s ord Hs Hadj Hf; cbn [foldM].
  { exists s, ord. split_and!; [done|by apply visited_refl|by intros _ ? ?%elem_of_nil]. }
  assert (n ∈ adjacency g node) as Hn by (apply Hadj; by left).
  assert (∃ s1 ord1, dfs_neighbor fuel node s n = Ok s1 ∧ visited_ok s (node :: stack) ord s1 ord1 ∧
            (ds_cycles s1 = [] → n ∈ ord1)) as (s1 & ord1 & -> & Hv1 & Hn1).
  { assert (n ∈ node_ids g) as Hid.
    { apply elem_of_adjacency in Hn as (e & He & _ & <-). by apply graph_facts. }
    destruct (proj2 (dfs_keys _ _ _ Hs n) Hid) as [c Ec]. unfold dfs_neighbor, get_color. rewrite Ec. cbn [mbind res_bind].
    destruct c.
    - destruct (IHdfs n {| ds_color := ds_color s; ds_parent := dset (ds_parent s) n (Some node); ds_cycles := ds_cycles s |}
                  (node :: stack) ord) as (s1 & ord1 & -> & Hv & Hin); [|done| |done|].
      + destruct Hs. split; try done. cbn. apply (chained_dset (ds_parent s) (node :: stack)); [|done].
        intros Hin%dfs_gray0. congruence.
      + cbn [ds_parent]. assert (dfs_ok s (node :: stack) ord) as Hs' by done. destruct Hs'.
        split; [apply dget_dset_eq|]. split; [done|]. apply (chained_dset (ds_parent s) (node :: stack)); [|done].
        intros Hin%dfs_gray0. congruence.
      + exists s1, ord1. split_and!; [done|exact Hv|done].
    - apply (dfs_gray _ _ _ Hs) in Ec. destruct (back_edge_ok s node stack ord n Hs Hn Ec) as (cycle & -> & Hcyc).
      eexists _, ord. split; [reflexivity|]. unfold visited_ok. split_and!; cbn.
      + destruct Hs. split; try done; cbn.
        * intros c [?| ->%list_elem_of_singleton]%elem_of_app; auto.
        * intros E. by apply app_nil in E as [_ ?].
      + done.
      + intros E. by apply app_nil in E as [_ ?].
      + done.
      + intros E. by apply app_nil in E as [_ ?].
    - exists s, ord. split_and!; [done|by apply visited_refl|]. intros _. by apply (dfs_black _ _ _ Hs). }
  cbn [mbind res_bind].
  destruct (IH s1 ord1) as (s2 & ord2 & -> & Hv2 & Hns); [apply Hv1|intros; apply Hadj; by right| |].
  { destruct Hv1 as (_ & _ & _ & ?). lia. }
  exists s2, ord2. split_and!; [done|by eapply visited_trans|].
  intros E n' [->|?]%elem_of_cons; [|auto]. destruct Hv2 as (_ & H1 & H2 & _). auto.
Qed.

Lemma dfs_unfold fuel node s : dfs (S fuel) g node s =
  (s' ← foldM (dfs_neighbor fuel node) (set_color s node GRAY) (sort_by str_leb (adjacency g node));
   Ok (set_color s' node BLACK)).
Proof using. reflexivity. Qed.

Lemma dfs_spec fuel : dfs_correct fuel.
Proof using Hg.
  induction fuel as [|fuel IH]; intros node s stack ord Hs Hw Hc Hf;
    assert (node ∈ node_ids g) as Hid by (apply (dfs_keys _ _ _ Hs); eauto);
    pose proof (proj2 (whites_dset (ds_color s) node GRAY (node_ids g) ltac:(done)) Hid Hw) as Hlt; [lia|].
  rewrite dfs_unfold. pose proof (enter_ok s stack ord node (ds_parent s) Hs Hw Hc) as Hent.
  destruct (neighbors_ok fuel node stack IH (sort_by str_leb (adjacency g node)) (set_color s node GRAY) ord)
    as (s1 & ord1 & -> & (Hv1 & Hv2 & Hv3 & Hv4) & Hn); [exact Hent| |cbn; lia|].
  { intros n. by rewrite elem_of_sort_by. }
  cbn [mbind res_bind]. exists (set_color s1 node BLACK), (node :: ord1). split; [done|]. split; [|by left].
  split_and!.
  - apply leave_ok; [done|]. intros E v Hv. apply Hn; [done|]. by apply elem_of_sort_by.
  - intros x ?. right. auto.
  - exact Hv3.
  - cbn in Hv4 |- *. pose proof (proj1 (whites_dset (ds_color s1) node BLACK (node_ids g) ltac:(done))). lia.
Qed.

Lemma roots_ok fuel keys s ord :
  (∀ k, k ∈ keys → k ∈ node_ids g) → dfs_ok s [] ord → (whites (ds_color s) (node_ids g) <= fuel)%nat →
  ∃ s' ord', foldM (λ s node, c ← get_color (ds_color s) node;
                       match c with WHITE => dfs fuel g node s | _ => Ok s end) s keys = Ok s' ∧
    visited_ok s [] ord s' ord' ∧ ∀ k, k ∈ keys → k ∈ ord'.
Proof using Hg.
  revert s ord. induction keys as [|k keys IH]; intros s ord Hk Hs Hf; cbn [foldM].
  { exists s, ord. split_and!; [done|by apply visited_refl|by intros ? ?%elem_of_nil]. }
  destruct (proj2 (dfs_keys _ _ _ Hs k)) as [c Ec]; [apply Hk; by left|].
  assert (∃ s1 ord1, match c with WHITE => dfs fuel g k s | _ => Ok s end = Ok s1 ∧ visited_ok s [] ord s1 ord1 ∧ k ∈ ord1)
    as (s1 & ord1 & E1 & Hv1 & Hk1).
  { destruct c.
    - by apply dfs_spec.
    - apply (dfs_gray _ _ _ Hs) in Ec. by apply elem_of_nil in Ec.
    - exists s, ord. split_and!; [done|by apply visited_refl|by apply (dfs_black _ _ _ Hs)]. }
  assert (get_color (ds_color s) k = Ok c) as -> by (unfold get_color; by rewrite Ec).
  cbn [mbind res_bind]. rewrite E1. cbn [mbind res_bind].
  destruct (IH s1 ord1) as (s2 & ord2 & -> & Hv2 & Hk2); [intros; apply Hk; by right|apply Hv1| |].
  { destruct Hv1 as (_ & _ & _ & ?). lia. }
  exists s2, ord2. split_and!; [done|by eapply visited_trans|].
  intros k' [->|?]%elem_of_cons; [|auto]. by apply Hv2.
Qed.

Lemma dkeys_nodes_of id : id ∈ dkeys (nodes_of g) ↔ id ∈ node_ids g.
Proof using. by rewrite <-dget_some_key, <-nodes_of_spec. Qed.
End cycles.

(** Cycle detection is sound and complete: on a valid graph it returns
    (within a recursion depth of one level per node), every reported list is a
    closed chain of dependency edges, and nothing is reported exactly when the
    graph has no cycle. *)
Theorem detect_cycles_correct fuel g :
  graph_valid g = true → (length (graph_nodes g) <= fuel)%nat →
  ∃ cs, detect_cycles fuel g = Ok cs ∧ (∀ c, c ∈ cs → is_cycle g c) ∧ (cs = [] ↔ ∀ c, ¬ is_cycle g c).
Proof.
  intros Hg Hf. unfold detect_cycles.
  set (s0 := {| ds_color := (λ id, (id, WHITE)) <$> dkeys (nodes_of g);
                ds_parent := (λ id, (id, None)) <$> dkeys (nodes_of g); ds_cycles := [] |}).
  assert (∀ id, dget (ds_color s0) id = if decide (id ∈ dkeys (nodes_of g)) then Some WHITE else None) as Ecol
    by (intros; apply (dget_const (λ _, WHITE))).
  assert (dfs_ok g s0 [] []) as Hs0.
  { split; try (by constructor); try (by intros ? ?%elem_of_nil); intros id; rewrite Ecol;
      destruct (decide (id ∈ dkeys (nodes_of g))) as [Hin|Hin]; rewrite dkeys_nodes_of in Hin;
      (split; [try done; by intros []|try done; try (by intros ?%elem_of_nil)]). }
  destruct (roots_ok g Hg fuel (sort_by str_leb (dkeys (nodes_of g))) s0 []) as (s & ord & -> & (Hs & _) & Hall); [|done| |].
  { intros k. by rewrite elem_of_sort_by, dkeys_nodes_of. }
  { transitivity (length (node_ids g)); [|by unfold node_ids; rewrite length_fmap].
    clear. induction (node_ids g) as [|x l IH]; cbn [whites length]; [lia|]. case_decide; lia. }
  cbn [mbind res_bind]. exists (ds_cycles s). split; [done|]. split; [apply Hs|]. split.
  - intros E c (u & Hc & Hlen). pose proof (dfs_topo _ _ _ _ Hs E) as Ht.
    assert (length c < 2)%nat; [|lia]. eapply topo_acyclic; [exact Ht|apply Hs| |exact Hc].
    apply Hall. rewrite elem_of_sort_by, dkeys_nodes_of.
    destruct (edge_path_inv _ _ _ _ Hc) as [[_ ->]|(e & l' & He & <- & _)]; [cbn in Hlen; lia|by apply graph_facts].
  - intros Hno. destruct (ds_cycles s) as [|c cs] eqn:E; [done|]. exfalso. apply (Hno c), (dfs_sound _ _ _ _ Hs).
    rewrite E. by left.
Qed.

(** ** Concrete inputs *)

Definition example_node (id : string) (crit : float) (provider : option string) : DependencyNode :=
  {| node_id := id; node_name := id; node_type := NT_FACILITY; node_criticality := crit;
     node_location := None; node_provider_id := provider; node_attributes := [] |}.

Definition example_edge (s t : string) (strength : float) (group : option string) : DependencyEdge :=
  {| edge_source := s; edge_target := t; edge_kind := DK_REQUIRES; edge_strength := strength;
     edge_substitutable := match group with Some _ => true | None => false end; edge_substitute_group := group |}.

(** Power feeds a port, which a corridor needs; two satellite links are
    substitutes for each other. *)
Definition example_graph (extra : list DependencyEdge) : DependencyGraph :=
  {| graph_id := "g";
     graph_nodes := [example_node "power" (lit 0.5) (Some "utility"); example_node "port" (lit 0.9) None;
                     example_node "corridor" f1 None; example_node "sat-a" (lit 0.4) (Some "orbit");
                     example_node "sat-b" (lit 0.4) (Some "orbit")];
     graph_edges := [example_edge "power" "port" f1 None; example_edge "port" "corridor" (lit 0.9) None;
                     example_edge "sat-a" "corridor" (lit 0.8) (Some "satcom");
                     example_edge "sat-b" "corridor" (lit 0.8) (Some "satcom")] ++ extra |}.

(** The analysis of a power failure, evaluated. *)
Example analyze_power :
  (λ a, ((λ i, (imp_node_id i, imp_path i)) <$> ga_impacted_nodes a, ga_single_points_of_failure a)) <$>
    analyze 100 (example_graph []) ["power"] true =
  Ok ([("corridor", ["power"; "port"; "corridor"]); ("port", ["power"; "port"]); ("power", ["power"])],
      ["port"; "power"]).
Proof. vm_compute. reflexivity. Qed.

Lemma analyze_total_sound_witness :
  ∃ a, analyze (Z.to_nat 20000000000) (example_graph []) ["power"] true = Ok a ∧
    ∃ i, i ∈ ga_impacted_nodes a ∧ imp_node_id i = "power".
Proof.
  destruct (analyze_total_sound (Z.to_nat 20000000000) (example_graph []) ["power"] true) as (a & E & Hs).
  - vm_compute. reflexivity.
  - vm_compute. discriminate.
  - apply NoDup_singleton.
  - intros f ->%list_elem_of_singleton. apply (bool_decide_unpack _). vm_compute. exact I.
  - rewrite Z2Nat.id by lia. vm_compute. discriminate.
  - exists a. split; [exact E|]. apply (sound_failed _ _ _ Hs). apply list_elem_of_singleton. reflexivity.
Defined.

Lemma analyze_unknown_witness :
  ∃ unknown, analyze 100 (example_graph []) ["power"; "dam"] false =
    Raise (ValueError ("unknown failed nodes: " +:+ list_repr unknown)).
Proof.
  destruct (analyze_unknown 100 (example_graph []) ["power"; "dam"] false "dam") as (u & E & _).
  - apply (bool_decide_unpack _). vm_compute. exact I.
  - apply (bool_decide_unpack _). vm_compute. exact I.
  - exists u. exact E.
Defined.

Lemma blast_radius_dominates_witness :
  ∃ d, calculate_blast_radius (Z.to_nat 20000000000) (example_graph []) ["power"] = Ok d ∧
    is_Some (dget d "power").
Proof.
  destruct (blast_radius_dominates (Z.to_nat 20000000000) (example_graph []) ["power"]) as (d & E & Hf & _).
  - vm_compute. reflexivity.
  - apply NoDup_singleton.
  - intros f ->%list_elem_of_singleton. apply (bool_decide_unpack _). vm_compute. exact I.
  - rewrite Z2Nat.id by lia. vm_compute. discriminate.
  - exists d. split; [exact E|]. apply Hf, list_elem_of_singleton. reflexivity.
Defined.

Lemma find_alternative_paths_exact_witness :
  ∃ enough paths, find_alternative_paths enough (example_graph []) "power" "corridor" [] = Ok paths ∧
    ["power"; "port"; "corridor"] ∈ paths.
Proof.
  destruct (find_alternative_paths_exact (example_graph []) "power" "corridor" []) as (k & paths & E & M & _).
  - vm_compute. reflexivity.
  - exists k, paths. split; [apply E; apply le_n|]. apply M.
    split; [|split; [apply (bool_decide_unpack _); vm_compute; exact I|intros x _ Hx; by apply elem_of_nil in Hx]].
    apply (path_snoc _ _ "port" ["power"; "port"] (example_edge "port" "corridor" (lit 0.9) None));
      [|cbn; set_solver|reflexivity].
    apply (path_snoc _ _ "power" ["power"] (example_edge "power" "port" f1 None));
      [constructor|cbn; set_solver|reflexivity].
Defined.

Lemma detect_cycles_correct_witness :
  ∃ cs, detect_cycles 5 (example_graph [example_edge "corridor" "power" f1 None]) = Ok cs ∧ cs ≠ [] ∧
    ∀ c, c ∈ cs → is_cycle (example_graph [example_edge "corridor" "power" f1 None]) c.
Proof.
  destruct (detect_cycles_correct 5 (example_graph [example_edge "corridor" "power" f1 None])) as (cs & E & H & _).
  - vm_compute. reflexivity.
  - vm_compute. apply le_n.
  - exists cs. split; [exact E|]. split; [|exact H]. vm_compute in E. intros ->. discriminate E.
Defined.
