(* ===== verification/Independence.v ===== *)
(** * independence.py: the provider independence analyser

    [get_upstream_dependencies] is the recursive search with its shared
    [visited] set threaded as state; [analyze_category] intersects the upstream
    sets and the attributes of the providers and merges the providers that share
    something with the union-find structure of the code (path compression
    included).  The theorems show that the search computes exactly the
    transitive dependencies, and that the number of independent providers is
    the number of classes of the relation "shares a dependency". *)

From Stdlib Require Import ZArith QArith Relations.
From S2P Require Import Prelude PyFloat PyFormat Domain Graph.

Open Scope Z_scope.

Record SharedDependency := {
  sd_id : string;
  sd_name : string;
  sd_type : string;
  sd_shared_by : list string
}.

Record IndependenceResult := {
  ir_category : string;
  ir_declared_providers : list string;
  ir_declared_count : Z;
  ir_independent_count : Z;
  ir_shared_dependencies : list SharedDependency;
  ir_redundancy_valid : bool;
  ir_justification : string
}.

Definition format_shared (sd : SharedDependency) : string :=
  "  * " +:+ sd_id sd +:+ " (" +:+ sd_type sd +:+ ") -> shared by: " +:+ str_join ", " (sd_shared_by sd).

(** [IndependenceResult.format_text] *)
Definition format_text (r : IndependenceResult) : string :=
  let lines :=
    ["Category:             " +:+ str_upper (ir_category r);
     "Declared providers:   " +:+ str_Z (ir_declared_count r) +:+ " (" +:+ str_join ", " (ir_declared_providers r) +:+ ")";
     "Independent providers:" +:+ str_Z (ir_independent_count r);
     ""] in
  let lines := lines ++
    match ir_shared_dependencies r with
    | [] => ["No shared upstream dependencies detected."; ""]
    | sds => ["Shared dependencies:"] ++ (format_shared <$> sds) ++ [""]
    end in
  let status := if ir_redundancy_valid r then "REDUNDANCY VALID" else "REDUNDANCY INVALID" in
  str_join newline (lines ++ ["Result:" +:+ newline +:+ status]).

Record ProviderIndependenceReport := {
  pir_report_id : string;
  pir_overall_valid : bool;
  pir_results : dict string IndependenceResult;
  pir_summary : string
}.

Definition format_report (r : ProviderIndependenceReport) : string :=
  let rule := str_repeat 78 "=" in
  let lines :=
    [rule; "PROVIDER INDEPENDENCE & FALSE REDUNDANCY AUDIT"; rule;
     "Overall Status: " +:+ (if pir_overall_valid r then "VALID (NO FALSE REDUNDANCY)" else "INVALID (FALSE REDUNDANCY DETECTED)");
     "Summary:        " +:+ pir_summary r; rule; ""] in
  str_join newline (lines ++ mjoin ((λ kv, [format_text kv.2; str_repeat 78 "-"]) <$> pir_results r)).

(** ** Upstream dependencies *)

(** The edges that make [node] depend on another node. *)
Definition upstream_edge (node : string) (e : DependencyEdge) : bool :=
  str_eqb (edge_target e) node && negb (str_eqb (edge_source e) node).

(** Returns the upstream set and the [visited] set, which the recursion shares. *)
Fixpoint get_upstream_dependencies (fuel : nat) (g : DependencyGraph) (node : string) (visited : list string)
    : res (list string * list string) :=
  if mem_str node visited then Ok ([], visited)
  else
    match fuel with
    | O => Raise OutOfFuel
    | S fuel =>
        foldM (λ acc e,
                 if upstream_edge node e then
                   r ← get_upstream_dependencies fuel g (edge_source e) acc.2;
                   Ok (set_update (set_add acc.1 (edge_source e)) r.1, r.2)
                 else Ok acc)
              ([], set_add visited node) (graph_edges g)
    end.

(** ** Shared dependencies *)

Definition attr_keys : list string :=
  ["gateway"; "ground_station"; "backhaul_provider"; "transit_provider"; "power_source"; "power_grid";
   "jurisdiction"; "satellite_provider"; "upstream_supplier"; "port_terminal"].

(** [str(v)] of an attribute value ([str | float | int | bool]). *)
Definition str_attribute (v : pyval) : string :=
  match v with
  | VBool b => str_bool b
  | VInt z => str_Z z
  | VFloat x => str_float x
  | VStr s => s
  | VNone => "None"
  | VList _ => "[]"
  | VDict _ => "{}"
  end.

(** [sorted(set(pids))] *)
Definition sorted_set (pids : list string) : list string := sort_by str_leb (set_of pids).

Definition many (pids : list string) : bool := (1 <? length (set_of pids))%nat.

Definition provider_upstreams (fuel : nat) (g : DependencyGraph) (pids : list string)
    : res (dict string (list string)) :=
  foldM (λ d pid, up ← get_upstream_dependencies fuel g pid []; Ok (dset d pid up.1)) [] pids.

Definition upstream_counts (ups : dict string (list string)) : dict string (list string) :=
  foldl (λ d kv, foldl (λ d u, dappend d u kv.1) d kv.2) [] ups.

Definition upstream_shared (g : DependencyGraph) (m : dict string SharedDependency) (kv : string * list string)
    : dict string SharedDependency :=
  if many kv.2 then
    let node := dget (nodes_of g) kv.1 in
    dset m kv.1
      {| sd_id := kv.1;
         sd_name := match node with Some n => node_name n | None => kv.1 end;
         sd_type := match node with Some n => NodeType_value (node_type n) | None => "upstream_node" end;
         sd_shared_by := sorted_set kv.2 |}
  else m.

(** [val_to_pids] for one attribute key. *)
Definition attribute_values (g : DependencyGraph) (pids : list string) (key : string) : dict string (list string) :=
  foldl (λ d pid,
           match dget (nodes_of g) pid with
           | Some n => match dget (node_attributes n) key with
                       | Some v => dappend d (str_attribute v) pid
                       | None => d
                       end
           | None => d
           end) [] pids.

Definition attribute_shared (key : string) (m : dict string SharedDependency) (kv : string * list string)
    : dict string SharedDependency :=
  let dep_key := key +:+ "/" +:+ kv.1 in
  if many kv.2 && negb (dmem m dep_key) then
    dset m dep_key
      {| sd_id := dep_key; sd_name := "Shared " +:+ key +:+ ": " +:+ kv.1; sd_type := key;
         sd_shared_by := sorted_set kv.2 |}
  else m.

Definition shared_deps_map (g : DependencyGraph) (ups : dict string (list string)) (pids : list string)
    : dict string SharedDependency :=
  let m := foldl (upstream_shared g) [] (upstream_counts ups) in
  foldl (λ m key, foldl (attribute_shared key) m (attribute_values g pids key)) m attr_keys.

Definition sd_leb (a b : SharedDependency) : bool := str_leb (sd_id a) (sd_id b).

(** ** The disjoint sets *)

(** [find] with path compression; returns the new [parent] and the root. *)
Fixpoint find (fuel : nat) (parent : dict string string) (i : string) : res (dict string string * string) :=
  match dget parent i with
  | None => Raise (KeyError i)
  | Some p =>
      if str_eqb p i then Ok (parent, i)
      else match fuel with
           | O => Raise OutOfFuel
           | S fuel =>
               r ← find fuel parent p;
               Ok (dset r.1 i r.2, r.2)
           end
  end.

Definition union (fuel : nat) (parent : dict string string) (i j : string) : res (dict string string) :=
  ri ← find fuel parent i;
  rj ← find fuel ri.1 j;
  Ok (if str_eqb ri.2 rj.2 then rj.1 else dset rj.1 ri.2 rj.2).

(** [union(pids[i], pids[i + 1])] for every [i]. *)
Fixpoint union_all (fuel : nat) (parent : dict string string) (pids : list string) : res (dict string string) :=
  match pids with
  | x :: ((y :: _) as rest) => p ← union fuel parent x y; union_all fuel p rest
  | _ => Ok parent
  end.

Definition find_step (fuel : nat) (acc : dict string string * list string) (pid : string)
    : res (dict string string * list string) :=
  r ← find fuel acc.1 pid; Ok (r.1, set_add acc.2 r.2).

(** [len({find(pid) for pid in provider_node_ids})] after the unions. *)
Definition count_roots (fuel : nat) (pids : list string) (shared : list SharedDependency) : res Z :=
  let parent := foldl (λ (d : dict string string) pid, dset d pid pid) [] pids in
  parent ← foldM (λ p sd, union_all fuel p (sd_shared_by sd)) parent shared;
  r ← foldM (find_step fuel) (parent, []) pids;
  Ok (Z.of_nat (length r.2)).

(** ** The operations *)

Definition redundancy_valid (independent declared minimum : Z) : bool :=
  if minimum <=? declared then minimum <=? independent else independent =? declared.

Definition analyze_category (fuel : nat) (g : DependencyGraph) (category : string)
    (provider_node_ids : list string) (minimum_required : Z) : res IndependenceResult :=
  let declared_count := Z.of_nat (length provider_node_ids) in
  if declared_count =? 0 then
    Ok {| ir_category := category; ir_declared_providers := []; ir_declared_count := 0;
          ir_independent_count := 0; ir_shared_dependencies := []; ir_redundancy_valid := false;
          ir_justification := "No providers declared for category" |}
  else
    ups ← provider_upstreams fuel g provider_node_ids;
    let shared_list := sort_by sd_leb (shared_deps_map g ups provider_node_ids).*2 in
    independent_count ← count_roots fuel provider_node_ids shared_list;
    let valid := redundancy_valid independent_count declared_count minimum_required in
    let justification :=
      if negb valid && (minimum_required <=? declared_count) then
        "Declared " +:+ str_Z declared_count +:+ " providers, but shared upstream dependencies ("
        +:+ str_join ", " (sd_id <$> shared_list) +:+ ") reduce effective independent providers to "
        +:+ str_Z independent_count +:+ "."
      else "All " +:+ str_Z independent_count
           +:+ " declared provider(s) have verified independent upstream dependencies." in
    Ok {| ir_category := category; ir_declared_providers := sort_by str_leb provider_node_ids;
          ir_declared_count := declared_count; ir_independent_count := independent_count;
          ir_shared_dependencies := shared_list; ir_redundancy_valid := valid;
          ir_justification := justification |}.

(** The category of a node type in the automatic grouping. *)
Definition auto_category (t : NodeType) : option string :=
  let nt := NodeType_value t in
  if mem_str nt ["satcom"; "terrestrial_network"] then Some "communications"
  else if mem_str nt ["data_feed"] then Some "data_sources"
  else if mem_str nt ["port"; "port_ot"] then Some "ports"
  else if mem_str nt ["carrier"; "vessel"] then Some "carriers"
  else if mem_str nt ["supplier"; "mine_or_refinery"] then Some "suppliers"
  else if mem_str nt ["corridor"] then Some "routes"
  else if mem_str nt ["fuel"; "inventory"; "strategic_stockpile"] then Some "fuel_and_inventory"
  else None.

Definition auto_groups (g : DependencyGraph) : dict string (list string) :=
  foldl (λ d n, match auto_category (node_type n) with
                | Some c => dappend d c (node_id n)
                | None => d
                end) [] (graph_nodes g).

Definition category_step (fuel : nat) (g : DependencyGraph) (results : dict string IndependenceResult)
    (kv : string * list string) : res (dict string IndependenceResult) :=
  if 2 <=? Z.of_nat (length kv.2) then
    r ← analyze_category fuel g kv.1 kv.2 2; Ok (dset results kv.1 r)
  else Ok results.

Definition analyze_graph (fuel : nat) (report_id : string) (g : DependencyGraph)
    (provider_categories : option (dict string (list string))) : res ProviderIndependenceReport :=
  let categories := default (auto_groups g) provider_categories in
  results ← foldM (category_step fuel g) [] categories;
  let invalid := List.filter (λ kv, negb (ir_redundancy_valid kv.2)) results in
  let all_valid := forallb (λ kv, ir_redundancy_valid kv.2) results in
  Ok {| pir_report_id := report_id; pir_overall_valid := all_valid; pir_results := results;
        pir_summary :=
          if all_valid then "All provider groups verified truly independent."
          else "False redundancy detected in " +:+ str_nat (length invalid) +:+ " category/categories: "
               +:+ str_join ", " invalid.*1 +:+ "." |}.

(** ** The search computes the transitive dependencies *)

(** [x] is a direct dependency of [y]. *)
Definition dep (g : DependencyGraph) (x y : string) : Prop :=
  ∃ e, e ∈ graph_edges g ∧ edge_source e = x ∧ edge_target e = y ∧ x ≠ y.

Lemma upstream_edge_dep g node e : e ∈ graph_edges g → upstream_edge node e = true → dep g (edge_source e) node.
Proof.
  unfold upstream_edge, str_eqb. intros He [H1%String.eqb_eq H2%negb_true_iff%String.eqb_neq]%andb_prop.
  exists e. by subst.
Qed.

Section upstream.
Context (g : DependencyGraph) (Hg : graph_valid g = true).

Lemma unvisited_antitone v w : (∀ x, x ∈ v → x ∈ w) → (unvisited g w <= unvisited g v)%nat.
Proof using.
  intros H. unfold unvisited. induction (node_ids g) as [|x l IH]; cbn; [done|].
  destruct (mem_str x w) eqn:E1, (mem_str x v) eqn:E2; cbn; try lia.
  exfalso. apply mem_str_true, H, mem_str_true in E2. congruence.
Qed.

Definition search_ok (node : string) (visited up visited' : list string) : Prop :=
  (∀ x, x ∈ visited → x ∈ visited') ∧ node ∈ visited' ∧
  (∀ u, u ∈ up → tc (dep g) u node) ∧
  ∀ x y, x ∈ visited' → x ∉ visited → dep g y x → y ∈ up ∧ y ∈ visited'.

Definition search_correct (fuel : nat) : Prop := ∀ node visited, (unvisited g visited < fuel)%nat →
  ∃ up visited', get_upstream_dependencies fuel g node visited = Ok (up, visited') ∧ search_ok node visited up visited'.

(** The loop over the edges, part of which has been done. *)
Lemma upstream_loop fuel node visited es up w :
  (∀ e, e ∈ es → e ∈ graph_edges g) → search_correct fuel →
  (unvisited g (set_add visited node) < fuel ∨ ∀ e, e ∈ es → upstream_edge node e = false)%nat →
  (∀ x, x ∈ set_add visited node → x ∈ w) → (∀ u, u ∈ up → tc (dep g) u node) →
  (∀ x y, x ∈ w → x ∉ set_add visited node → dep g y x → y ∈ up ∧ y ∈ w) →
  ∃ up' w', foldM (λ acc e,
               if upstream_edge node e then
                 r ← get_upstream_dependencies fuel g (edge_source e) acc.2;
                 Ok (set_update (set_add acc.1 (edge_source e)) r.1, r.2)
               else Ok acc) (up, w) es = Ok (up', w') ∧
    (∀ x, x ∈ w → x ∈ w') ∧ (∀ x, x ∈ up → x ∈ up') ∧ (∀ u, u ∈ up' → tc (dep g) u node) ∧
    (∀ x y, x ∈ w' → x ∉ set_add visited node → dep g y x → y ∈ up' ∧ y ∈ w') ∧
    ∀ e, e ∈ es → upstream_edge node e = true → edge_source e ∈ up' ∧ edge_source e ∈ w'.
Proof using.
  intros Hes Hrec. revert up w. induction es as [|e es IH]; intros up w Hf Hw Hup Hcl; cbn [foldM].
  { exists up, w. split_and!; try done. by intros ? ?%elem_of_nil. }
  assert (∀ e, e ∈ es → e ∈ graph_edges g) as Hes' by (intros; apply Hes; by right).
  assert (unvisited g (set_add visited node) < fuel ∨ ∀ e, e ∈ es → upstream_edge node e = false)%nat as Hf'.
  { destruct Hf as [?|Hf]; [by left|right; intros; apply Hf; by right]. }
  destruct (upstream_edge node e) eqn:Ee.
  2:{ cbn [mbind res_bind]. destruct (IH Hes' up w Hf' Hw Hup Hcl) as (up' & w' & -> & ? & ? & ? & ? & Hall).
      exists up', w'. split_and!; try done. intros e' [->|?]%elem_of_cons ?; [congruence|by apply Hall]. }
  assert (dep g (edge_source e) node) as Hdep by (apply upstream_edge_dep; [apply Hes; by left|done]).
  destruct Hf as [Hf|Hf]; [|by rewrite Hf in Ee by by left]. cbn [fst snd].
  destruct (Hrec (edge_source e) w) as (u1 & w1 & -> & Hw1 & Hin1 & Hu1 & Hcl1).
  { pose proof (unvisited_antitone _ _ Hw). lia. }
  cbn [mbind res_bind fst snd].
  destruct (IH Hes' (set_update (set_add up (edge_source e)) u1) w1 Hf') as (up' & w' & -> & A & B & C & D & E).
  - auto.
  - intros u. rewrite elem_of_set_update, elem_of_set_add.
    intros [[?| ->]|Hin]; [auto|by apply tc_once|]. eapply tc_r; [by apply Hu1|done].
  - intros x y Hx Hnx Hd. rewrite elem_of_set_update, elem_of_set_add.
    destruct (decide (x ∈ w)) as [Hxw|Hxw].
    + destruct (Hcl x y) as [? ?]; [done..|]. auto.
    + destruct (Hcl1 x y) as [? ?]; [done..|]. auto.
  - exists up', w'. split_and!; try done; [auto|intros; apply B, elem_of_set_update; left; apply elem_of_set_add; by left|].
    intros e' [->|?]%elem_of_cons ?; [|by apply E]. split; [|auto].
    apply B, elem_of_set_update. left. apply elem_of_set_add. by right.
Qed.

Lemma get_upstream_spec fuel : search_correct fuel.
Proof using Hg.
  induction fuel as [|fuel IH]; intros node visited Hf; [lia|]. cbn [get_upstream_dependencies].
  destruct (mem_str node visited) eqn:Em.
  { apply mem_str_true in Em. exists [], visited. split; [done|]. split_and!; try done. by intros ? ?%elem_of_nil. }
  apply mem_str_false in Em.
  destruct (upstream_loop fuel node visited (graph_edges g) [] (set_add visited node)) as (up & w & -> & A & _ & C & D & E);
    [done|exact IH| |done|by intros ? ?%elem_of_nil|done|].
  { destruct (decide (node ∈ node_ids g)) as [Hin|Hin].
    - left. pose proof (unvisited_drop g visited node Hin Em).
      assert (unvisited g (set_add visited node) <= unvisited g (node :: visited))%nat; [|lia].
      apply unvisited_antitone. intros x. rewrite elem_of_set_add, elem_of_cons. tauto.
    - right. intros e He. apply not_true_is_false. intros Hue. apply Hin.
      apply (upstream_edge_dep g node e He) in Hue as (e' & He' & _ & <- & _). by apply (graph_facts g Hg). }
  exists up, w. split; [done|]. split_and!.
  - intros x Hx. apply A, elem_of_set_add. by left.
  - apply A, elem_of_set_add. by right.
  - exact C.
  - intros x y Hx Hnx Hd. destruct (decide (x = node)) as [->|Hne].
    + destruct Hd as (e & He & <- & Ht & Hne). apply E; [done|]. unfold upstream_edge, str_eqb.
      rewrite (proj2 (String.eqb_eq _ _)) by done. by rewrite (proj2 (String.eqb_neq _ _)) by done.
    + apply (D x y); [done| |done]. rewrite elem_of_set_add. by intros [?|?].
Qed.

(** The recursive upstream search terminates and, although it shares
    its visited set between the branches, returns exactly the transitive
    dependencies of the node. *)
Theorem upstream_exact fuel node :
  (length (graph_nodes g) < fuel)%nat →
  ∃ up visited, get_upstream_dependencies fuel g node [] = Ok (up, visited) ∧
    ∀ u, u ∈ up ↔ tc (dep g) u node.
Proof using Hg.
  intros Hf. destruct (get_upstream_spec fuel node []) as (up & w & E & _ & Hin & Hs & Hc).
  { unfold unvisited. pose proof (List.filter_length_le (λ id, negb (mem_str id [])) (node_ids g)) as H.
    unfold node_ids in H at 2. rewrite length_fmap in H. lia. }
  exists up, w. split; [done|]. intros u. split; [apply Hs|]. intros Htc.
  assert (u ∈ up ∧ u ∈ w) as [? _]; [|done].
  induction Htc as [u v Huv|u v node Huv Hvn IH].
  - apply (Hc v u); [done|by intros ?%elem_of_nil|done].
  - destruct IH as [_ Hv]; [done..|]. apply (Hc v u); [done|by intros ?%elem_of_nil|done].
Qed.
End upstream.

(** ** The disjoint sets *)

Section disjoint_sets.
Context (keys : list string).

(** [r] gives the root of a class, [d] bounds the depth below it. *)
Record uf_ok (parent : dict string string) (r : string → string) (d : string → nat) (m : nat) : Prop := {
  uf_keys i : is_Some (dget parent i) ↔ i ∈ keys;
  uf_parent i j : dget parent i = Some j → j ∈ keys ∧ r j = r i ∧ (j ≠ i → (d j < d i)%nat);
  uf_self i : dget parent i = Some i → r i = i;
  uf_root i : i ∈ keys → r i ∈ keys ∧ dget parent (r i) = Some (r i) ∧ d (r i) = 0%nat;
  uf_depth i : (d i <= m)%nat
}.

Lemma uf_idem parent r d m i : uf_ok parent r d m → i ∈ keys → r (r i) = r i.
Proof using. intros H Hi. destruct (uf_root _ _ _ _ H i Hi) as (_ & Hr & _). by apply (uf_self _ _ _ _ H). Qed.

Lemma uf_parent_in parent r d m i j : uf_ok parent r d m → dget parent i = Some j → i ∈ keys.
Proof using. intros H Hi. apply (uf_keys _ _ _ _ H). eauto. Qed.

Lemma compress_ok parent r d m i : uf_ok parent r d m → i ∈ keys → r i ≠ i → uf_ok (dset parent i (r i)) r d m.
Proof using.
  intros H Hi Hne. pose proof (uf_idem _ _ _ _ _ H Hi) as Hidem.
  destruct (uf_root _ _ _ _ H i Hi) as (Hrk & Hrp & Hrd).
  split.
  - intros x. destruct (decide (i = x)) as [<-|]; [|rewrite dget_dset_ne by done; apply H].
    rewrite dget_dset_eq. by split; [|eauto].
  - intros x j. destruct (decide (i = x)) as [<-|]; [|rewrite dget_dset_ne by done; apply H].
    rewrite dget_dset_eq. intros [= <-]. split_and!; [done..|]. intros _. rewrite Hrd.
    destruct (proj2 (uf_keys _ _ _ _ H i) Hi) as [p Hp]. destruct (decide (p = i)) as [->|Hpi].
    + by apply (uf_self _ _ _ _ H) in Hp.
    + apply (uf_parent _ _ _ _ H) in Hp as (_ & _ & Hd). specialize (Hd Hpi). lia.
  - intros x. destruct (decide (i = x)) as [<-|]; [|rewrite dget_dset_ne by done; apply H].
    by rewrite dget_dset_eq; intros [= ?].
  - intros x Hx. destruct (uf_root _ _ _ _ H x Hx) as (? & ? & ?). split_and!; [done| |done].
    destruct (decide (i = r x)) as [E|]; [|by rewrite dget_dset_ne].
    exfalso. apply Hne. rewrite E. by eapply uf_idem.
  - apply H.
Qed.

Lemma find_spec fuel parent r d m i :
  uf_ok parent r d m → i ∈ keys → (d i <= fuel)%nat →
  ∃ parent', find fuel parent i = Ok (parent', r i) ∧ uf_ok parent' r d m.
Proof using.
  intros H. revert i. induction fuel as [|fuel IH]; intros i Hi Hf; cbn [find];
    destruct (proj2 (uf_keys _ _ _ _ H i) Hi) as [p Hp]; rewrite Hp; unfold str_eqb;
    (destruct (String.eqb_spec p i) as [->|Hne]; [rewrite (uf_self _ _ _ _ H i Hp); by exists parent|]);
    destruct (uf_parent _ _ _ _ H i p Hp) as (Hpk & Hr & Hd); specialize (Hd Hne); [lia|].
  destruct (IH p) as (p' & -> & H'); [done|lia|].
  cbn. rewrite Hr. eexists. split; [done|]. apply compress_ok; [done..|].
  intros E. destruct (uf_root _ _ _ _ H i Hi) as (_ & Hroot & _). rewrite E in Hroot. congruence.
Qed.

(** The classes are those of the pairs that were merged. *)
Definition merged (pairs : list (string * string)) (x y : string) : Prop := (x, y) ∈ pairs.

Definition classes (r : string → string) (pairs : list (string * string)) : Prop :=
  ∀ x y, r x = r y ↔ clos_refl_sym_trans _ (merged pairs) x y.

Lemma rst_mono {A} (R S : relation A) : (∀ x y, R x y → clos_refl_sym_trans _ S x y) →
  ∀ x y, clos_refl_sym_trans _ R x y → clos_refl_sym_trans _ S x y.
Proof using.
  intros H x y. induction 1; [auto|apply rst_refl|by apply rst_sym|by eapply rst_trans].
Qed.

Lemma classes_merge r pairs i j : classes r pairs →
  classes (λ x, if decide (r x = r i) then r j else r x) ((i, j) :: pairs).
Proof using.
  intros Hc x y. set (S := clos_refl_sym_trans _ (merged ((i, j) :: pairs))).
  assert (∀ a b, r a = r b → S a b) as Hmono.
  { intros a b Hab%Hc. eapply rst_mono; [|exact Hab]. intros ? ? ?. apply rst_step. by right. }
  assert (S i j) as Hij by (apply rst_step; by left).
  split.
  - intros E. repeat case_decide.
    + apply Hmono. congruence.
    + eapply rst_trans; [by apply Hmono|]. eapply rst_trans; [exact Hij|]. by apply Hmono.
    + eapply rst_trans; [by apply Hmono|]. eapply rst_trans; [apply rst_sym; exact Hij|]. by apply Hmono.
    + by apply Hmono.
  - induction 1 as [a b [[= -> ->]|Hab]%elem_of_cons| | |]; try congruence.
    + rewrite (decide_True (P := r i = r i)) by done. by case_decide.
    + assert (r a = r b) as -> by (apply Hc; by apply rst_step). done.
Qed.

Lemma classes_redundant r pairs i j : classes r pairs → r i = r j → classes r ((i, j) :: pairs).
Proof using.
  intros Hc Hij x y. rewrite (Hc x y). split; apply rst_mono.
  - intros a b ?. apply rst_step. by right.
  - intros a b [[= -> ->]|?]%elem_of_cons; [by apply Hc|by apply rst_step].
Qed.

(** Every effective merge removes a root, so the depth stays below the number of keys. *)
Definition uf_inv (parent : dict string string) (pairs : list (string * string)) (r : string → string) : Prop :=
  ∃ d m, uf_ok parent r d m ∧ classes r pairs ∧ (m + length (set_of (r <$> keys)) <= length keys)%nat.

Lemma roots_drop (r : string → string) i j : i ∈ keys → j ∈ keys → r i ≠ r j →
  (length (set_of ((λ x, if decide (r x = r i) then r j else r x) <$> keys)) < length (set_of (r <$> keys)))%nat.
Proof using.
  intros Hi Hj Hne. unfold set_of. set (r' := λ x, _).
  change (length (r i :: remove_dups (r' <$> keys)) <= length (remove_dups (r <$> keys)))%nat.
  apply submseteq_length, NoDup_submseteq.
  - apply NoDup_cons. split; [|apply NoDup_remove_dups]. rewrite elem_of_remove_dups.
    intros (x & Hx & _)%list_elem_of_fmap. unfold r' in Hx. case_decide; congruence.
  - intros y. rewrite elem_of_cons, !elem_of_remove_dups, !list_elem_of_fmap. unfold r'.
    intros [->|(x & -> & Hx)]; [by exists i|]. case_decide; [by exists j|by exists x].
Qed.

Lemma union_spec fuel parent pairs r i j :
  uf_inv parent pairs r → i ∈ keys → j ∈ keys → (length keys <= fuel)%nat →
  ∃ parent' r', union fuel parent i j = Ok parent' ∧ uf_inv parent' ((i, j) :: pairs) r'.
Proof using.
  intros (d & m & H & Hc & Hm) Hi Hj Hf. unfold union. pose proof (uf_depth _ _ _ _ H) as Hdep.
  destruct (find_spec fuel parent r d m i H Hi) as (p1 & -> & H1); [specialize (Hdep i); lia|].
  cbn [mbind res_bind fst snd].
  destruct (find_spec fuel p1 r d m j H1 Hj) as (p2 & -> & H2); [specialize (Hdep j); lia|].
  cbn [mbind res_bind fst snd]. unfold str_eqb. destruct (String.eqb_spec (r i) (r j)) as [E|E].
  { exists p2, r. split; [done|]. exists d, m. split_and!; [done|by apply classes_redundant|done]. }
  pose proof (roots_drop r i j Hi Hj E) as Hdrop.
  eexists _, (λ x, if decide (r x = r i) then r j else r x). split; [done|].
  exists (λ x, if decide (r x = r i) then S (d x) else d x), (S m).
  split_and!; [|by apply classes_merge|lia]. clear Hm Hdrop.
  destruct (uf_root _ _ _ _ H2 i Hi) as (Rik & Rip & Rid). destruct (uf_root _ _ _ _ H2 j Hj) as (Rjk & Rjp & Rjd).
  pose proof (uf_idem _ _ _ _ _ H2 Hi) as Ii. pose proof (uf_idem _ _ _ _ _ H2 Hj) as Ij.
  split.
  - intros x. destruct (decide (r i = x)) as [<-|]; [|rewrite dget_dset_ne by done; apply H2].
    rewrite dget_dset_eq. by split; [|eauto].
  - intros x y. destruct (decide (r i = x)) as [<-|Hx].
    + rewrite dget_dset_eq. intros [= <-]. split; [done|].
      rewrite Ij, Ii. rewrite !(decide_True (P := r i = r i)) by done. rewrite !(decide_False (P := r j = r i)) by congruence.
      split; [done|]. intros _. lia.
    + rewrite dget_dset_ne by done. intros (Hyk & Hr & Hd)%(uf_parent _ _ _ _ H2). rewrite Hr.
      split; [done|]. split; [done|]. intros Hy. specialize (Hd Hy). case_decide; lia.
  - intros x. destruct (decide (r i = x)) as [<-|Hx].
    + rewrite dget_dset_eq. by intros [= ?].
    + rewrite dget_dset_ne by done. intros Hp. pose proof (uf_self _ _ _ _ H2 x Hp) as Hs.
      rewrite decide_False; [done|]. intros ?. congruence.
  - intros x Hx. destruct (uf_root _ _ _ _ H2 x Hx) as (Rxk & Rxp & Rxd). pose proof (uf_idem _ _ _ _ _ H2 Hx) as Ix.
    case_decide as Ex.
    + rewrite Ij, decide_False by congruence. split_and!; [done| |done]. by rewrite dget_dset_ne.
    + rewrite Ix, decide_False by done. split_and!; [done| |done]. rewrite dget_dset_ne by congruence. done.
  - intros x. specialize (Hdep x). case_decide; lia.
Qed.

Fixpoint adjacent (l : list string) : list (string * string) :=
  match l with
  | x :: ((y :: _) as rest) => (x, y) :: adjacent rest
  | _ => []
  end.

Lemma classes_perm r ps qs : (∀ p, p ∈ ps ↔ p ∈ qs) → classes r ps → classes r qs.
Proof using.
  intros Heq Hc x y. rewrite (Hc x y). split; apply rst_mono; intros a b ?; apply rst_step; by apply Heq.
Qed.

Lemma union_all_spec fuel l parent pairs r :
  uf_inv parent pairs r → (∀ x, x ∈ l → x ∈ keys) → (length keys <= fuel)%nat →
  ∃ parent' r', union_all fuel parent l = Ok parent' ∧ uf_inv parent' (pairs ++ adjacent l) r'.
Proof using.
  revert parent pairs r. induction l as [|x [|y l] IH]; intros parent pairs r H Hk Hf.
  1-2: cbn; rewrite app_nil_r; by exists parent, r.
  destruct (union_spec fuel parent pairs r x y) as (p1 & r1 & E & H1);
    [done|apply Hk; by left|apply Hk; right; by left|done|].
  change (union_all fuel parent (x :: y :: l)) with (p ← union fuel parent x y; union_all fuel p (y :: l)).
  rewrite E. cbn [mbind res_bind].
  destruct (IH p1 ((x, y) :: pairs) r1 H1) as (p2 & r2 & -> & (d & m & H2 & Hc & Hm)); [intros; apply Hk; by right|done|].
  exists p2, r2. split; [done|]. exists d, m. split_and!; [done| |done].
  eapply classes_perm; [|exact Hc]. intros p. cbn. rewrite !elem_of_cons, !elem_of_app, elem_of_cons. tauto.
Qed.

Definition shared_pairs (shared : list SharedDependency) : list (string * string) :=
  mjoin ((λ sd, adjacent (sd_shared_by sd)) <$> shared).

Lemma union_shared_spec fuel shared parent pairs r :
  uf_inv parent pairs r → (∀ sd x, sd ∈ shared → x ∈ sd_shared_by sd → x ∈ keys) → (length keys <= fuel)%nat →
  ∃ parent' r', foldM (λ p sd, union_all fuel p (sd_shared_by sd)) parent shared = Ok parent' ∧
    uf_inv parent' (pairs ++ shared_pairs shared) r'.
Proof using.
  revert parent pairs r. induction shared as [|sd shared IH]; intros parent pairs r H Hk Hf; cbn [foldM].
  { exists parent, r. unfold shared_pairs. cbn. by rewrite app_nil_r. }
  destruct (union_all_spec fuel (sd_shared_by sd) parent pairs r) as (p1 & r1 & -> & H1);
    [done|intros x; apply (Hk sd); by left|done|].
  cbn [mbind res_bind]. destruct (IH p1 (pairs ++ adjacent (sd_shared_by sd)) r1 H1) as (p2 & r2 & -> & H2);
    [intros sd' x ?; apply (Hk sd'); by right|done|].
  exists p2, r2. split; [done|]. unfold shared_pairs in *. cbn. by rewrite app_assoc.
Qed.

(** The roots that are collected are the representatives of the identifiers. *)
Lemma find_steps_spec fuel parent r d m pids roots :
  uf_ok parent r d m → (m <= fuel)%nat → (∀ x, x ∈ pids → x ∈ keys) → NoDup roots →
  ∃ acc, foldM (find_step fuel) (parent, roots) pids = Ok acc ∧ NoDup acc.2 ∧
    ∀ x, x ∈ acc.2 ↔ x ∈ roots ∨ x ∈ r <$> pids.
Proof using.
  revert parent roots. induction pids as [|pid pids IH]; intros parent roots H Hf Hk Hn; cbn [foldM].
  { eexists. split; [done|]. split; [done|]. intros x. cbn. split; [by left|]. by intros [?|?%elem_of_nil]. }
  destruct (find_spec fuel parent r d m pid H) as (p1 & E & H1); [apply Hk; by left| |].
  { pose proof (uf_depth _ _ _ _ H pid). lia. }
  assert (find_step fuel (parent, roots) pid = Ok (p1, set_add roots (r pid))) as ->
    by (unfold find_step; cbn [fst snd]; by rewrite E).
  cbn [mbind res_bind]. destruct (IH p1 (set_add roots (r pid))) as (acc & -> & Hn' & Hacc);
    [done|done|intros; apply Hk; by right|by apply set_add_NoDup|].
  exists acc. split_and!; [done..|]. intros x. rewrite Hacc, elem_of_set_add. cbn. rewrite elem_of_cons. tauto.
Qed.
End disjoint_sets.

(** ** What the shared dependencies contain *)

Section category.
Context (g : DependencyGraph) (Hg : graph_valid g = true) (pids : list string).

Definition initial_parent : dict string string := foldl (λ (d : dict string string) pid, dset d pid pid) [] pids.

Lemma dget_initial_parent i : dget initial_parent i = if decide (i ∈ pids) then Some i else None.
Proof using.
  unfold initial_parent.
  assert (∀ (d : dict string string), (∀ k v, dget d k = Some v → v = k) →
    dget (foldl (λ (d : dict string string) pid, dset d pid pid) d pids) i =
    if decide (i ∈ pids) then Some i else dget d i) as H; [|by apply H].
  induction pids as [|x l IH]; intros d Hd; cbn [foldl]; [by rewrite decide_False by by intros ?%elem_of_nil|].
  rewrite IH.
  - destruct (decide (i ∈ l)), (decide (i ∈ x :: l)) as [Hi|Hi]; try done.
    + exfalso. apply Hi. by right.
    + apply elem_of_cons in Hi as [->|?]; [|done]. by rewrite dget_dset_eq.
    + rewrite dget_dset_ne; [done|]. intros ->. apply Hi. by left.
  - intros k v. destruct (decide (x = k)) as [->|]; [by rewrite dget_dset_eq; intros [= ->]|].
    rewrite dget_dset_ne by done. apply Hd.
Qed.

Lemma initial_uf : uf_inv pids initial_parent [] (λ x, x).
Proof using.
  exists (λ _, 0%nat), 0%nat. split_and!.
  - split; try done.
    + intros i. rewrite dget_initial_parent. case_decide; split; try done; eauto; by intros [].
    + intros i j. rewrite dget_initial_parent. case_decide; [|done]. by intros [= <-].
    + intros i Hi. rewrite dget_initial_parent. by rewrite decide_True.
  - intros x y. split; [intros ->; apply rst_refl|].
    induction 1 as [a b []%elem_of_nil| | |]; congruence.
  - rewrite list_fmap_id. apply submseteq_length, NoDup_submseteq; [apply NoDup_remove_dups|].
    intros x. unfold set_of. by rewrite elem_of_remove_dups.
Qed.

Definition shares (shared : list SharedDependency) (p q : string) : Prop :=
  ∃ sd, sd ∈ shared ∧ p ∈ sd_shared_by sd ∧ q ∈ sd_shared_by sd.

Lemma adjacent_in l p : p ∈ adjacent l → p.1 ∈ l ∧ p.2 ∈ l.
Proof using.
  induction l as [|x [|y l] IH]; [by intros ?%elem_of_nil|by intros ?%elem_of_nil|].
  intros [->|Hin]%elem_of_cons; cbn [fst snd].
  - split; [by left|right; by left].
  - apply IH in Hin as [? ?]. split; by right.
Qed.

Lemma adjacent_connected l x y : x ∈ l → y ∈ l → clos_refl_sym_trans _ (merged (adjacent l)) x y.
Proof using.
  assert (∀ x l z, z ∈ x :: l → clos_refl_sym_trans _ (merged (adjacent (x :: l))) x z) as H.
  { clear. intros x l. revert x; induction l as [|y l IH]; intros x z.
    - intros ->%list_elem_of_singleton. apply rst_refl.
    - intros [->|Hz]%elem_of_cons; [apply rst_refl|]. apply (rst_trans _ _ x y z).
      + apply rst_step. by left.
      + eapply rst_mono; [|by apply IH]. intros a b ?. apply rst_step. by right. }
  destruct l as [|a l]; [by intros ?%elem_of_nil|]. intros Hx Hy.
  apply (rst_trans _ _ x a y); [apply rst_sym|]; by apply H.
Qed.

Lemma shared_pairs_shares shared x y :
  clos_refl_sym_trans _ (merged (shared_pairs shared)) x y ↔ clos_refl_sym_trans _ (shares shared) x y.
Proof using.
  unfold shared_pairs. split; apply rst_mono; intros a b.
  - intros (l & Hin & (sd & -> & Hsd)%list_elem_of_fmap)%list_elem_of_join. apply adjacent_in in Hin as [? ?].
    apply rst_step. by exists sd.
  - intros (sd & Hsd & Ha & Hb). eapply rst_mono; [|by apply adjacent_connected]. intros c d Hcd. apply rst_step.
    apply list_elem_of_join. exists (adjacent (sd_shared_by sd)). split; [exact Hcd|].
    apply list_elem_of_fmap. by exists sd.
Qed.

(** The number of roots is the number of classes of the providers. *)
Lemma count_roots_spec fuel shared :
  (∀ sd x, sd ∈ shared → x ∈ sd_shared_by sd → x ∈ pids) → (length pids <= fuel)%nat →
  ∃ rep : string → string, count_roots fuel pids shared = Ok (Z.of_nat (length (set_of (rep <$> pids)))) ∧
    ∀ p q, rep p = rep q ↔ clos_refl_sym_trans _ (shares shared) p q.
Proof using.
  intros Hin Hf. unfold count_roots. fold initial_parent.
  destruct (union_shared_spec pids fuel shared initial_parent [] (λ x, x) initial_uf Hin Hf)
    as (p1 & r & -> & (d & m & H & Hc & Hm)). cbn [mbind res_bind].
  destruct (find_steps_spec pids fuel p1 r d m pids [] H) as (acc & -> & Hn & Hacc); [lia|done|constructor|].
  cbn [mbind res_bind]. exists r. split.
  - do 2 f_equal. apply Permutation_length, NoDup_Permutation; [done|apply NoDup_remove_dups|].
    intros x. rewrite Hacc. unfold set_of. rewrite elem_of_remove_dups. split; [|by right]. by intros [?%elem_of_nil|?].
  - intros p q. rewrite <-shared_pairs_shares. apply Hc.
Qed.

Lemma provider_upstreams_spec fuel : (length (graph_nodes g) < fuel)%nat →
  ∃ ups, provider_upstreams fuel g pids = Ok ups ∧
    (∀ p, p ∈ pids → is_Some (dget ups p)) ∧
    ∀ p l, (p, l) ∈ ups → p ∈ pids ∧ ∀ u, u ∈ l ↔ tc (dep g) u p.
Proof using Hg.
  intros Hf. unfold provider_upstreams.
  assert (∀ l (d : dict string (list string)), (∀ p, p ∈ l → p ∈ pids) →
    (∀ p l, (p, l) ∈ d → p ∈ pids ∧ ∀ u, u ∈ l ↔ tc (dep g) u p) →
    ∃ ups, foldM (λ d pid, up ← get_upstream_dependencies fuel g pid []; Ok (dset d pid up.1)) d l = Ok ups ∧
      (∀ p, p ∈ l ∨ is_Some (dget d p) → is_Some (dget ups p)) ∧
      ∀ p l, (p, l) ∈ ups → p ∈ pids ∧ ∀ u, u ∈ l ↔ tc (dep g) u p) as H.
  { induction l as [|p l IH]; intros d Hl Hd; cbn [foldM].
    { exists d. split_and!; try done. by intros p [?%elem_of_nil|?]. }
    destruct (upstream_exact g Hg fuel p Hf) as (up & w & -> & Hup). cbn [mbind res_bind fst].
    destruct (IH (dset d p up)) as (ups & -> & H1 & H2).
    - intros; apply Hl; by right.
    - intros q m [[= -> ->]|?]%elem_of_dset; [|by apply Hd]. split; [apply Hl; by left|done].
    - exists ups. split_and!; [done| |done]. intros q Hq. apply H1.
      destruct (decide (p = q)) as [->|]; [right; rewrite dget_dset_eq; eauto|rewrite dget_dset_ne by done].
      destruct Hq as [[?|?]%elem_of_cons|?]; [done|by left|by right]. }
  destruct (H pids []) as (ups & E & H1 & H2); [done|by intros ? ? ?%elem_of_nil|].
  exists ups. split_and!; [done| |done]. intros p ?. apply H1. by left.
Qed.

Lemma upstream_counts_spec ups u p :
  p ∈ dget_default (upstream_counts ups) u [] ↔ ∃ l, (p, l) ∈ ups ∧ u ∈ l.
Proof using.
  unfold upstream_counts.
  assert (∀ d : dict string (list string), p ∈ dget_default (foldl (λ d kv, foldl (λ d u, dappend d u kv.1) d kv.2) d ups) u []
    ↔ p ∈ dget_default d u [] ∨ ∃ l, (p, l) ∈ ups ∧ u ∈ l) as H.
  2:{ rewrite H. cbn. split; [intros [?%elem_of_nil|?]; done|by right]. }
  induction ups as [|[q l] ups IH]; intros d; cbn [foldl].
  { split; [by left|]. intros [?|(? & ?%elem_of_nil & _)]; done. }
  rewrite IH. clear IH. cbn [fst snd].
  assert (p ∈ dget_default (foldl (λ d u, dappend d u q) d l) u [] ↔ p ∈ dget_default d u [] ∨ (p = q ∧ u ∈ l)) as ->.
  { revert d. induction l as [|v l IH]; intros d; cbn [foldl].
    - split; [by left|]. intros [?|[_ ?%elem_of_nil]]; done.
    - rewrite IH, dget_default_dappend, elem_of_app, elem_of_cons.
      destruct (decide (v = u)) as [->|Hne]; rewrite ?list_elem_of_singleton, ?elem_of_nil; [tauto|].
      split; [by intros [[?|[]]|[? ?]]; auto|]. intros [?|[? [?|?]]]; auto. }
  setoid_rewrite elem_of_cons. split.
  - intros [[?|[-> ?]]|(m & ? & ?)]; [by left|right; exists l; auto|right; exists m; auto].
  - intros [?|(m & [[= -> ->]|?] & ?)]; [auto|auto|right; eauto].
Qed.

Lemma sorted_set_in ps x : x ∈ sorted_set ps ↔ x ∈ ps.
Proof using. unfold sorted_set, set_of. by rewrite elem_of_sort_by, elem_of_remove_dups. Qed.

Lemma many_two ps p q : p ∈ ps → q ∈ ps → p ≠ q → many ps = true.
Proof using.
  intros Hp Hq Hne. unfold many, set_of. apply Nat.ltb_lt.
  assert (length [p; q] <= length (remove_dups ps))%nat as H; [|exact H].
  apply submseteq_length, NoDup_submseteq.
  - repeat constructor; [|by intros ?%elem_of_nil]. by intros ->%list_elem_of_singleton.
  - intros x. rewrite elem_of_remove_dups. by intros [->| ->%list_elem_of_singleton]%elem_of_cons.
Qed.

(** Entries are only added, and name providers only. *)
Definition entries_ok (m : dict string SharedDependency) : Prop :=
  ∀ k sd, (k, sd) ∈ m → ∀ x, x ∈ sd_shared_by sd → x ∈ pids.

Lemma attribute_values_spec key v l x : (v, l) ∈ attribute_values g pids key → x ∈ l → x ∈ pids.
Proof using.
  unfold attribute_values.
  assert (∀ ps (d : dict string (list string)), (∀ p, p ∈ ps → p ∈ pids) → (∀ v l x, (v, l) ∈ d → x ∈ l → x ∈ pids) →
    ∀ v l x, (v, l) ∈ foldl (λ d pid, match dget (nodes_of g) pid with
           | Some n => match dget (node_attributes n) key with
                       | Some v => dappend d (str_attribute v) pid
                       | None => d
                       end
           | None => d
           end) d ps → x ∈ l → x ∈ pids) as H.
  2:{ apply (H pids []); [done|by intros ? ? ? ?%elem_of_nil]. }
  induction ps as [|p ps IH]; intros d Hps Hd; cbn [foldl]; [exact Hd|].
  apply IH; [intros; apply Hps; by right|]. cbn beta. repeat case_match; try exact Hd.
  intros v' l' y Hin Hy. unfold dappend in Hin. apply elem_of_dset in Hin as [[= -> ->]|Hin]; [|by eapply Hd].
  apply elem_of_app in Hy as [Hy| ->%list_elem_of_singleton]; [|apply Hps; by left].
  unfold dget_default in Hy. case_match eqn:E; [|by apply elem_of_nil in Hy]. apply dget_elem in E. by eapply Hd.
Qed.

Lemma attribute_shared_spec key vs m :
  (∀ v l x, (v, l) ∈ vs → x ∈ l → x ∈ pids) → entries_ok m →
  entries_ok (foldl (attribute_shared key) m vs) ∧
  ∀ k sd, dget m k = Some sd → dget (foldl (attribute_shared key) m vs) k = Some sd.
Proof using.
  revert m. induction vs as [|[v l] vs IH]; intros m Hvs Hm; cbn [foldl]; [done|].
  destruct (IH (attribute_shared key m (v, l))) as [H1 H2]; [intros; eapply Hvs; [by right|done]| |].
  - unfold attribute_shared. cbn [fst snd]. destruct (_ && _); [|done].
    intros k sd [[= -> ->]|Hin]%elem_of_dset x Hx; [|by eapply Hm].
    cbn in Hx. rewrite sorted_set_in in Hx. eapply Hvs; [by left|done].
  - split; [done|]. intros k sd Hk. apply H2. unfold attribute_shared. cbn [fst snd].
    destruct (many l); cbn [andb]; [|done]. unfold dmem. destruct (dget m (key +:+ "/" +:+ v)) eqn:E; cbn [negb]; [done|].
    rewrite dget_dset_ne; [done|]. intros <-. congruence.
Qed.

Lemma shared_deps_spec ups :
  (∀ p l, (p, l) ∈ ups → p ∈ pids) →
  entries_ok (shared_deps_map g ups pids) ∧
  ∀ u p q, p ≠ q → (∃ l, (p, l) ∈ ups ∧ u ∈ l) → (∃ l, (q, l) ∈ ups ∧ u ∈ l) →
    shares (shared_deps_map g ups pids).*2 p q.
Proof using.
  intros Hups. unfold shared_deps_map. set (m0 := foldl (upstream_shared g) [] (upstream_counts ups)).
  assert (∀ ks m, entries_ok m →
    entries_ok (foldl (λ m key, foldl (attribute_shared key) m (attribute_values g pids key)) m ks) ∧
    ∀ k sd, dget m k = Some sd →
      dget (foldl (λ m key, foldl (attribute_shared key) m (attribute_values g pids key)) m ks) k = Some sd) as Hattr.
  { induction ks as [|key ks IH]; intros m Hm; cbn [foldl]; [done|].
    destruct (attribute_shared_spec key (attribute_values g pids key) m) as [H1 H2];
      [intros v l x; apply attribute_values_spec|done|].
    destruct (IH _ H1) as [H3 H4]. split; [done|]. auto. }
  assert (NoDup (dkeys (upstream_counts ups))) as Hnd.
  { unfold upstream_counts. apply foldl_dset_NoDup; [|constructor]. intros d [p l] Hd. cbn [fst snd].
    apply foldl_dset_NoDup; [|done]. intros. by apply dset_NoDup. }
  assert (∀ cs m, NoDup (dkeys cs) → (∀ kv x, kv ∈ cs → x ∈ kv.2 → x ∈ pids) → entries_ok m →
    entries_ok (foldl (upstream_shared g) m cs) ∧
    (∀ u ps, (u, ps) ∈ cs → many ps = true → ∃ sd, dget (foldl (upstream_shared g) m cs) u = Some sd ∧
       sd_shared_by sd = sorted_set ps) ∧
    ∀ u, u ∉ dkeys cs → dget (foldl (upstream_shared g) m cs) u = dget m u) as Hup.
  { induction cs as [|[u ps] cs IH]; intros m Hn Hin Hm; cbn [foldl].
    { split_and!; [done|by intros ? ? ?%elem_of_nil|done]. }
    apply NoDup_cons in Hn as [Hu Hn]. cbn [fst] in Hu.
    destruct (IH (upstream_shared g m (u, ps)) Hn) as (H1 & H2 & H3); [intros; eapply Hin; [by right|done]| |].
    - unfold upstream_shared. cbn [fst snd]. destruct (many ps); [|done].
      intros k sd [[= -> ->]|Hk]%elem_of_dset x Hx; [|by eapply Hm]. cbn in Hx. rewrite sorted_set_in in Hx. apply (Hin (u, ps)); [by left|done].
    - split_and!; [done| |].
      + intros u' ps' [[= -> ->]|Hin']%elem_of_cons Hm'; [|by apply H2]. rewrite H3 by done.
        unfold upstream_shared. cbn [fst snd]. rewrite Hm', dget_dset_eq. by eexists.
      + intros u' [Hne Hu']%not_elem_of_cons. rewrite H3 by done. unfold upstream_shared. cbn [fst snd] in *.
        destruct (many ps); [|done]. by rewrite dget_dset_ne. }
  destruct (Hup (upstream_counts ups) [] Hnd) as (H1 & H2 & _); [|by intros ? ? ?%elem_of_nil|].
  { intros [u ps] x Hin Hx. pose proof (elem_dget _ _ _ Hnd Hin) as E. cbn [snd] in Hx.
    assert (x ∈ dget_default (upstream_counts ups) u []) as Hd by (unfold dget_default; by rewrite E).
    apply upstream_counts_spec in Hd as (l & ? & _). by eapply Hups. }
  fold m0 in H1, H2. destruct (Hattr attr_keys m0 H1) as [H3 H4]. split; [done|].
  intros u p q Hne Hp%upstream_counts_spec Hq%upstream_counts_spec. unfold dget_default in Hp, Hq.
  destruct (dget (upstream_counts ups) u) as [ps|] eqn:E; [|by apply elem_of_nil in Hp].
  destruct (H2 u ps (dget_elem _ _ _ E) (many_two ps p q Hp Hq Hne)) as (sd & Esd & Hsd).
  exists sd. rewrite Hsd, !sorted_set_in. split_and!; [|done..].
  apply H4, dget_elem in Esd. apply list_elem_of_fmap. exists (u, sd). split; [done|exact Esd].
Qed.
End category.


(** The result of [analyze_category] on a non-empty list of providers. *)
Lemma analyze_category_ok fuel g category pids minimum :
  graph_valid g = true → pids ≠ [] → (length (graph_nodes g) < fuel)%nat → (length pids <= fuel)%nat →
  ∃ r (rep : string → string), analyze_category fuel g category pids minimum = Ok r ∧
    (∀ p q, rep p = rep q ↔ clos_refl_sym_trans _ (shares (ir_shared_dependencies r)) p q) ∧
    ir_independent_count r = Z.of_nat (length (set_of (rep <$> pids))) ∧
    ir_redundancy_valid r = redundancy_valid (ir_independent_count r) (Z.of_nat (length pids)) minimum ∧
    ∀ u p q, p ∈ pids → q ∈ pids → p ≠ q → tc (dep g) u p → tc (dep g) u q →
      shares (ir_shared_dependencies r) p q.
Proof.
  intros Hg Hne Hf1 Hf2. destruct (provider_upstreams_spec g Hg pids fuel Hf1) as (ups & E & Hall & Hups).
  unfold analyze_category. rewrite (proj2 (Z.eqb_neq _ _)) by (destruct pids; [done|cbn; lia]).
  rewrite E. cbn [mbind res_bind].
  destruct (shared_deps_spec g pids ups) as [H1 H2]; [by intros p l [? _]%Hups|].
  destruct (count_roots_spec pids fuel (sort_by sd_leb (shared_deps_map g ups pids).*2)) as (rep & -> & Hrep); [|done|].
  { intros sd x. rewrite elem_of_sort_by, list_elem_of_fmap. intros ([k sd'] & -> & Hin). by apply (H1 k). }
  cbn [mbind res_bind]. eexists _, rep. split; [reflexivity|]. cbn. split_and!; [done..|].
  intros u p q Hp Hq Hpq Hup Huq.
  assert (∀ p, p ∈ pids → tc (dep g) u p → ∃ l, (p, l) ∈ ups ∧ u ∈ l) as Hl.
  { intros x Hx Hux. destruct (Hall x Hx) as [l El]. exists l. apply dget_elem in El. split; [done|].
    by apply (Hups x l El). }
  destruct (H2 u p q Hpq (Hl p Hp Hup) (Hl q Hq Huq)) as (sd & Hsd & ? & ?).
  exists sd. by rewrite elem_of_sort_by.
Qed.

(** The number of independent providers is the number of classes of
    the declared providers under the equivalence generated by "both appear in
    one shared dependency": the union-find of the code, with its path
    compression, computes this partition, and it always returns. *)
Theorem independent_count_classes fuel g category pids minimum :
  graph_valid g = true → pids ≠ [] → (length (graph_nodes g) < fuel)%nat → (length pids <= fuel)%nat →
  ∃ r (rep : string → string), analyze_category fuel g category pids minimum = Ok r ∧
    (∀ p q, rep p = rep q ↔ clos_refl_sym_trans _ (shares (ir_shared_dependencies r)) p q) ∧
    ir_independent_count r = Z.of_nat (length (set_of (rep <$> pids))) ∧
    (ir_redundancy_valid r = true ↔
       (minimum ≤ Z.of_nat (length pids) ∧ minimum ≤ ir_independent_count r) ∨
       (Z.of_nat (length pids) < minimum ∧ ir_independent_count r = Z.of_nat (length pids))).
Proof.
  intros Hg Hne Hf1 Hf2. destruct (analyze_category_ok fuel g category pids minimum Hg Hne Hf1 Hf2)
    as (r & rep & E & H1 & H2 & H3 & _).
  exists r, rep. split_and!; [done..|]. rewrite H3. unfold redundancy_valid.
  destruct (Z.leb_spec minimum (Z.of_nat (length pids))); [rewrite Z.leb_le|rewrite Z.eqb_eq]; lia.
Qed.

(** Two identifiers with one representative make the set of representatives smaller. *)
Lemma collapse_length (rep : string → string) pids p q :
  p ∈ pids → q ∈ pids → p ≠ q → rep p = rep q → (length (set_of (rep <$> pids)) < length pids)%nat.
Proof.
  intros Hp Hq Hne E. destruct (list_elem_of_split pids p Hp) as (a & b & ->).
  rewrite length_app. cbn [length]. enough (length (set_of (rep <$> a ++ p :: b)) <= length (rep <$> (a ++ b)))%nat as H
    by (rewrite length_fmap, length_app in H; lia).
  apply submseteq_length, NoDup_submseteq; [apply NoDup_remove_dups|].
  intros y. unfold set_of. rewrite elem_of_remove_dups, !list_elem_of_fmap.
  intros (x & -> & [Hx|[->|Hx]%elem_of_cons]%elem_of_app).
  - exists x. split; [done|]. apply elem_of_app. by left.
  - exists q. split; [done|]. apply elem_of_app. apply elem_of_app in Hq as [?|[?|?]%elem_of_cons]; [by left|congruence|by right].
  - exists x. split; [done|]. apply elem_of_app. by right.
Qed.

(** False redundancy through the graph is always detected: when two
    different declared providers both depend, directly or through other
    systems, on the same node, the count of independent providers is strictly
    below the count declared; so two declared providers with such a common
    dependency are never reported as redundant. *)
Theorem common_upstream_detected fuel g category pids u p q :
  graph_valid g = true → (length (graph_nodes g) < fuel)%nat → (length pids <= fuel)%nat →
  p ∈ pids → q ∈ pids → p ≠ q → tc (dep g) u p → tc (dep g) u q →
  ∃ r, analyze_category fuel g category pids 2 = Ok r ∧
    ir_independent_count r < Z.of_nat (length pids) ∧
    (length pids = 2%nat → ir_redundancy_valid r = false).
Proof.
  intros Hg Hf1 Hf2 Hp Hq Hne Hup Huq.
  destruct (analyze_category_ok fuel g category pids 2 Hg) as (r & rep & E & H1 & H2 & H3 & H4);
    [intros ->; by apply elem_of_nil in Hp|done..|].
  assert (rep p = rep q) as Erep by (apply H1, rst_step; by apply (H4 u)).
  assert (ir_independent_count r < Z.of_nat (length pids)) as Hlt.
  { rewrite H2. enough (length (set_of (rep <$> pids)) < length pids)%nat by lia. by apply (collapse_length rep pids p q). }
  exists r. split_and!; [done..|]. intros E2. rewrite H3, E2. unfold redundancy_valid.
  rewrite E2 in Hlt. cbn in Hlt |- *. by apply Z.leb_gt.
Qed.

(** ** Concrete inputs *)

Definition example_report : res IndependenceResult :=
  analyze_category 10 (example_graph [example_edge "power" "sat-a" f1 None; example_edge "power" "sat-b" f1 None])
    "communications" ["sat-a"; "sat-b"] 2.

Lemma upstream_exact_witness :
  ∃ up visited, get_upstream_dependencies 6 (example_graph []) "corridor" [] = Ok (up, visited) ∧ "power" ∈ up.
Proof.
  destruct (upstream_exact (example_graph []) ltac:(vm_compute; reflexivity) 6 "corridor") as (up & w & E & M);
    [vm_compute; apply le_n|].
  exists up, w. split; [exact E|]. apply M. apply (tc_l _ _ "port"); [|apply tc_once].
  - exists (example_edge "power" "port" f1 None). repeat split; [left|discriminate].
  - exists (example_edge "port" "corridor" (lit 0.9) None). repeat split; [right; left|discriminate].
Defined.

Lemma independent_count_classes_witness :
  ∃ r, example_report = Ok r ∧ ir_independent_count r = 1 ∧ ir_redundancy_valid r = false.
Proof.
  destruct (independent_count_classes 10
      (example_graph [example_edge "power" "sat-a" f1 None; example_edge "power" "sat-b" f1 None])
      "communications" ["sat-a"; "sat-b"] 2) as (r & rep & E & _ & _ & H).
  - vm_compute. reflexivity.
  - discriminate.
  - vm_compute. lia.
  - vm_compute. lia.
  - exists r. split; [exact E|]. vm_compute in E. injection E as <-. split; reflexivity.
Defined.

Lemma common_upstream_detected_witness :
  ∃ r, example_report = Ok r ∧ ir_redundancy_valid r = false.
Proof.
  destruct (common_upstream_detected 10
      (example_graph [example_edge "power" "sat-a" f1 None; example_edge "power" "sat-b" f1 None])
      "communications" ["sat-a"; "sat-b"] "power" "sat-a" "sat-b") as (r & E & _ & H).
  - vm_compute. reflexivity.
  - vm_compute. lia.
  - vm_compute. lia.
  - left.
  - right. left.
  - discriminate.
  - apply tc_once. exists (example_edge "power" "sat-a" f1 None). repeat split; [|discriminate].
    cbn. do 4 right. left.
  - apply tc_once. exists (example_edge "power" "sat-b" f1 None). repeat split; [|discriminate].
    cbn. do 5 right. left.
  - exists r. split; [exact E|]. apply H. reflexivity.
Defined.
