(* ===== verification/Closure.v ===== *)
(** * closure.py: functional closure

    [assess_closure] decomposes the state of a resource into five layers and
    derives the effective corridor state from them by a fixed precedence.  The
    theorems characterise the derived state on the inputs, show that it is
    monotone (worse inputs never open what was closed), and that the converted
    composite state agrees with it. *)

From Stdlib Require Import ZArith QArith.
From S2P Require Import Prelude PyFloat PyFormat Domain.

Open Scope Z_scope.

Inductive LayerState :=
| LS_AVAILABLE
| LS_DEGRADED
| LS_UNAVAILABLE
| LS_UNKNOWN.

Definition LayerState_value (s : LayerState) : string :=
  match s with
  | LS_AVAILABLE => "available"
  | LS_DEGRADED => "degraded"
  | LS_UNAVAILABLE => "unavailable"
  | LS_UNKNOWN => "unknown"
  end.

Definition is_state (s t : LayerState) : bool :=
  match s, t with
  | LS_AVAILABLE, LS_AVAILABLE | LS_DEGRADED, LS_DEGRADED
  | LS_UNAVAILABLE, LS_UNAVAILABLE | LS_UNKNOWN, LS_UNKNOWN => true
  | _, _ => false
  end.

Record ClosureLayer := {
  cl_layer : string;
  cl_state : LayerState;
  cl_confidence : float;
  cl_reason_codes : list string;
  cl_supporting_evidence : list string
}.

Record ClosureAssessment := {
  cla_assessment_id : string;
  cla_resource_ref : string;
  cla_physical_state : ClosureLayer;
  cla_operational_state : ClosureLayer;
  cla_commercial_state : ClosureLayer;
  cla_trust_state : ClosureLayer;
  cla_recovery_state : ClosureLayer;
  cla_effective_state : CorridorState;
  cla_reason_codes : list string;
  cla_confidence : float;
  cla_policy_violations : list string;
  cla_dependency_trace : list string;
  cla_evidence_refs : list string;
  cla_supporting_evidence : list string;
  cla_timestamp : datetime
}.

Record ClosureInput := {
  ci_resource_ref : string;
  ci_physically_accessible : bool;
  ci_physical_capacity_ratio : float;
  ci_navigation_available : bool;
  ci_navigation_trust : float;
  ci_communications_available : bool;
  ci_communications_trust : float;
  ci_escort_available : bool;
  ci_escort_dependent : bool;
  ci_weather_safe : bool;
  ci_insurance_available : bool;
  ci_insurance_coverage : float;
  ci_carrier_capacity_available : bool;
  ci_carrier_capacity_ratio : float;
  ci_commercial_viability : float;
  ci_data_integrity : float;
  ci_observation_confidence : float;
  ci_source_diversity : Z;
  ci_recovery_backlog_active : bool;
  ci_policy_violations : list string;
  ci_dependency_trace : list string;
  ci_evidence_refs : list string;
  ci_timestamp : datetime
}.

(** The constraints of the class [ClosureInput]. *)
Definition ClosureInput_valid (i : ClosureInput) : bool :=
  (1 <=? str_len (ci_resource_ref i)) && (str_len (ci_resource_ref i) <=? 256)
  && is_score (ci_physical_capacity_ratio i) && is_score (ci_navigation_trust i)
  && is_score (ci_communications_trust i) && is_score (ci_insurance_coverage i)
  && is_score (ci_carrier_capacity_ratio i) && is_score (ci_commercial_viability i)
  && is_score (ci_data_integrity i) && is_score (ci_observation_confidence i)
  && (0 <=? ci_source_diversity i).

(** ** The layers *)

(** [if test: reasons.append(code)] *)
Definition reason (test : bool) (code : string) : list string := if test then [code] else [].

Definition layer (name : string) (s : LayerState) (confidence : float) (reasons : list string) : ClosureLayer :=
  {| cl_layer := name; cl_state := s; cl_confidence := confidence; cl_reason_codes := reasons;
     cl_supporting_evidence := [] |}.

Definition assess_physical (i : ClosureInput) : ClosureLayer :=
  if negb (ci_physically_accessible i) then
    layer "physical" LS_UNAVAILABLE (lit 0.95) ["physically_inaccessible"]
  else if (ci_physical_capacity_ratio i <=? lit 0.2)%F then
    layer "physical" LS_DEGRADED (lit 0.85) ["physical_capacity_severely_constrained"]
  else layer "physical" LS_AVAILABLE (lit 0.9) [].

Definition operational_reasons (i : ClosureInput) : list string :=
  reason (negb (ci_navigation_available i)) "navigation_unavailable"
  ++ reason (ci_navigation_trust i <? lit 0.5)%F "navigation_untrusted"
  ++ reason (negb (ci_communications_available i)) "communications_unavailable"
  ++ reason (ci_communications_trust i <? lit 0.5)%F "communications_degraded"
  ++ reason (negb (ci_escort_available i)) "escort_unavailable"
  ++ reason (ci_escort_dependent i && negb (ci_escort_available i)) "service_dependent"
  ++ reason (negb (ci_weather_safe i)) "weather_unsafe".

Definition assess_operational (i : ClosureInput) : ClosureLayer :=
  let reasons := operational_reasons i in
  if negb (ci_navigation_available i) || negb (ci_communications_available i) then
    layer "operational" LS_UNAVAILABLE (lit 0.9) reasons
  else match reasons with
       | [] => layer "operational" LS_AVAILABLE (lit 0.9) []
       | _ => layer "operational" LS_DEGRADED (lit 0.8) reasons
       end.

Definition commercial_reasons (i : ClosureInput) : list string :=
  reason (negb (ci_insurance_available i) || (ci_insurance_coverage i <=? lit 0.1)%F) "uninsurable"
  ++ reason (negb (ci_carrier_capacity_available i) || (ci_carrier_capacity_ratio i <=? lit 0.1)%F) "no_carrier_capacity"
  ++ reason (ci_commercial_viability i <=? lit 0.2)%F "commercially_unviable".

Definition assess_commercial (i : ClosureInput) : ClosureLayer :=
  let reasons := commercial_reasons i in
  if mem_str "uninsurable" reasons && mem_str "no_carrier_capacity" reasons then
    layer "commercial" LS_UNAVAILABLE (lit 0.85) reasons
  else match reasons with
       | [] => layer "commercial" LS_AVAILABLE (lit 0.85) []
       | _ => layer "commercial" LS_DEGRADED (lit 0.8) reasons
       end.

Definition trust_reasons (i : ClosureInput) : list string :=
  reason (ci_data_integrity i <? lit 0.5)%F "data_integrity_low"
  ++ reason (ci_observation_confidence i <? lit 0.5)%F "observation_confidence_low"
  ++ reason (ci_source_diversity i <? 2) "insufficient_source_diversity".

Definition assess_trust (i : ClosureInput) : ClosureLayer :=
  let reasons := trust_reasons i in
  if (ci_data_integrity i <? lit 0.3)%F || (ci_observation_confidence i <? lit 0.3)%F then
    layer "trust" LS_UNAVAILABLE (lit 0.7) reasons
  else match reasons with
       | [] => layer "trust" LS_AVAILABLE (lit 0.85) []
       | _ => layer "trust" LS_DEGRADED (lit 0.75) reasons
       end.

Definition assess_recovery (i : ClosureInput) : ClosureLayer :=
  if ci_recovery_backlog_active i then layer "recovery" LS_DEGRADED (lit 0.85) ["recovery_backlogged"]
  else layer "recovery" LS_AVAILABLE (lit 0.95) [].

(** ** The effective state *)

Definition derive_effective_state (physical operational commercial trust : ClosureLayer)
    (recovery : option ClosureLayer) : CorridorState :=
  let degraded l := is_state (cl_state l) LS_DEGRADED in
  let unavailable l := is_state (cl_state l) LS_UNAVAILABLE in
  if unavailable physical then CS_PHYSICALLY_CLOSED
  else if unavailable operational || (unavailable commercial && unavailable trust) then CS_FUNCTIONALLY_CLOSED
  else if mem_str "uninsurable" (cl_reason_codes commercial) then CS_OPEN_BUT_UNINSURABLE
  else if mem_str "no_carrier_capacity" (cl_reason_codes commercial) then CS_OPEN_BUT_NO_CARRIER_CAPACITY
  else if mem_str "navigation_untrusted" (cl_reason_codes operational) then CS_OPEN_BUT_NAVIGATION_UNTRUSTED
  else if mem_str "communications_degraded" (cl_reason_codes operational) then CS_OPEN_BUT_COMMUNICATIONS_DEGRADED
  else if mem_str "service_dependent" (cl_reason_codes operational) then CS_OPEN_BUT_SERVICE_DEPENDENT
  else if match recovery with Some r => mem_str "recovery_backlogged" (cl_reason_codes r) | None => false end
  then CS_RECOVERY_BACKLOGGED
  else if degraded physical then CS_OPEN_CAPACITY_CONSTRAINED
  else if degraded operational || degraded commercial || degraded trust
          || match recovery with Some r => degraded r | None => false end
  then CS_OPEN_DEGRADED
  else if is_state (cl_state trust) LS_UNKNOWN then CS_UNKNOWN
  else CS_OPEN.

Definition assess_closure (assessment_id : string) (i : ClosureInput) : res ClosureAssessment :=
  let physical := assess_physical i in
  let operational := assess_operational i in
  let commercial := assess_commercial i in
  let trust := assess_trust i in
  let recovery := assess_recovery i in
  let effective_state := derive_effective_state physical operational commercial trust (Some recovery) in
  let layers := [physical; operational; commercial; trust; recovery] in
  let overall_confidence :=
    foldl fmin (cl_confidence physical)
      [cl_confidence operational; cl_confidence commercial; cl_confidence trust; cl_confidence recovery] in
  let confidence := fround 6 overall_confidence in
  _ ← require (is_score confidence) "confidence";
  Ok {| cla_assessment_id := assessment_id; cla_resource_ref := ci_resource_ref i;
        cla_physical_state := physical; cla_operational_state := operational;
        cla_commercial_state := commercial; cla_trust_state := trust; cla_recovery_state := recovery;
        cla_effective_state := effective_state; cla_reason_codes := mjoin (cl_reason_codes <$> layers);
        cla_confidence := confidence; cla_policy_violations := ci_policy_violations i;
        cla_dependency_trace := ci_dependency_trace i; cla_evidence_refs := ci_evidence_refs i;
        cla_supporting_evidence := mjoin (cl_supporting_evidence <$> layers) ++ ci_evidence_refs i;
        cla_timestamp := ci_timestamp i |}.

(** ** The composite state *)

Definition to_composite_state (a : ClosureAssessment) : EffectiveCorridorState :=
  let operational := cl_reason_codes (cla_operational_state a) in
  let commercial := cl_reason_codes (cla_commercial_state a) in
  let backlogged := mem_str "recovery_backlogged" (cl_reason_codes (cla_recovery_state a)) in
  {| ecs_physical_state :=
       match cl_state (cla_physical_state a) with
       | LS_UNAVAILABLE => PS_PHYSICALLY_CLOSED
       | LS_DEGRADED => PS_CAPACITY_CONSTRAINED
       | _ => PS_OPEN
       end;
     ecs_operational_state :=
       {| os_navigation :=
            if mem_str "navigation_untrusted" operational then "degraded"
            else if mem_str "navigation_unavailable" operational then "unavailable" else "healthy";
          os_communications :=
            if mem_str "communications_degraded" operational then "degraded"
            else if mem_str "communications_unavailable" operational then "unavailable" else "healthy";
          os_escort_service := if mem_str "service_dependent" operational then "dependent" else "available";
          os_weather_clearance := "clear" |};
     ecs_commercial_state :=
       {| cms_carrier_capacity := if mem_str "no_carrier_capacity" commercial then "unavailable" else "available";
          cms_insurance := if mem_str "uninsurable" commercial then "uninsurable" else "available";
          cms_commercial_viability := cl_confidence (cla_commercial_state a) |};
     ecs_digital_trust_state :=
       {| dts_navigation_integrity := if mem_str "navigation_untrusted" operational then lit 0.3 else f1;
          dts_communications_integrity := if mem_str "communications_degraded" operational then lit 0.4 else f1;
          dts_cyber_integrity := cl_confidence (cla_trust_state a);
          dts_data_integrity := cl_confidence (cla_trust_state a) |};
     ecs_recovery_state :=
       {| rst_phase := if backlogged then RS_BACKLOG_ACTIVE else RS_NORMAL; rst_backlog_active := backlogged;
          rst_days_elapsed := 0; rst_estimated_full_restoration_days := 0 |};
     ecs_effective_state := cla_effective_state a;
     ecs_reason_codes := cla_reason_codes a |}.

(** ** The explanation *)

Definition explain_layer (tag : string) (l : ClosureLayer) : string :=
  tag +:+ ljust 12 (str_upper (LayerState_value (cl_state l))) +:+ " (conf: " +:+ fmt_fixed 2 (cl_confidence l) +:+ ")"
  +:+ match cl_reason_codes l with [] => "" | rs => " -> " +:+ str_join ", " rs end.

(** A titled block of lines, absent when there are none. *)
Definition explain_block (title mark : string) (items : list string) : list string :=
  match items with [] => [] | _ => ["" ; title] ++ ((λ s, mark +:+ s) <$> items) end.

Definition explain (a : ClosureAssessment) : string :=
  let rule := str_repeat 78 "=" in
  let lines :=
    [rule; "CONTINUITYOS FUNCTIONAL CLOSURE EXPLANATION TRACE"; rule;
     "Resource:        " +:+ cla_resource_ref a;
     "Effective State: " +:+ str_upper (CorridorState_value (cla_effective_state a));
     "Confidence:      " +:+ fmt_percent 1 (cla_confidence a);
     "Timestamp:       " +:+ isoformat (cla_timestamp a);
     "";
     "Four-Layer Decomposition + Recovery Status:";
     explain_layer "  [PHYSICAL]      " (cla_physical_state a);
     explain_layer "  [OPERATIONAL]   " (cla_operational_state a);
     explain_layer "  [COMMERCIAL]    " (cla_commercial_state a);
     explain_layer "  [DIGITAL TRUST] " (cla_trust_state a);
     explain_layer "  [RECOVERY]      " (cla_recovery_state a);
     "";
     "Reason Codes:"]
    ++ match cla_reason_codes a with
       | [] => ["  (none - nominal operational conditions)"]
       | rs => (λ s, "  - " +:+ s) <$> rs
       end
    ++ explain_block "Policy Violations:" "  ! " (cla_policy_violations a)
    ++ explain_block "Dependency Trace:" "  -> " (cla_dependency_trace a)
    ++ explain_block "Evidence References:" "  * "
         match cla_evidence_refs a with [] => cla_supporting_evidence a | refs => refs end
    ++ [rule] in
  str_join newline lines.

(** ** What the layers say *)

Lemma is_state_true s t : is_state s t = true ↔ s = t.
Proof. by destruct s, t. Qed.

(** The tests on the inputs that each layer makes. *)
Section tests.
Context (i : ClosureInput).

Definition uninsurable : bool := negb (ci_insurance_available i) || (ci_insurance_coverage i <=? lit 0.1)%F.
Definition no_carrier : bool := negb (ci_carrier_capacity_available i) || (ci_carrier_capacity_ratio i <=? lit 0.1)%F.
Definition trust_lost : bool := (ci_data_integrity i <? lit 0.3)%F || (ci_observation_confidence i <? lit 0.3)%F.
Definition cut_off : bool := negb (ci_navigation_available i) || negb (ci_communications_available i).

Lemma commercial_codes :
  mem_str "uninsurable" (cl_reason_codes (assess_commercial i)) = uninsurable ∧
  mem_str "no_carrier_capacity" (cl_reason_codes (assess_commercial i)) = no_carrier.
Proof using.
  unfold assess_commercial, commercial_reasons. fold uninsurable no_carrier.
  destruct uninsurable, no_carrier, (_ <=? _)%F; vm_compute; done.
Qed.

Lemma commercial_unavailable : is_state (cl_state (assess_commercial i)) LS_UNAVAILABLE = uninsurable && no_carrier.
Proof using.
  unfold assess_commercial, commercial_reasons. fold uninsurable no_carrier.
  destruct uninsurable, no_carrier, (_ <=? _)%F; vm_compute; done.
Qed.

Lemma operational_codes :
  cl_reason_codes (assess_operational i) = operational_reasons i ∧
  is_state (cl_state (assess_operational i)) LS_UNAVAILABLE = cut_off.
Proof using.
  unfold assess_operational. fold cut_off. destruct cut_off; [done|].
  by destruct (operational_reasons i).
Qed.

Lemma trust_unavailable : is_state (cl_state (assess_trust i)) LS_UNAVAILABLE = trust_lost.
Proof using. unfold assess_trust. fold trust_lost. destruct trust_lost; [done|]. by destruct (trust_reasons i). Qed.

Lemma physical_unavailable :
  is_state (cl_state (assess_physical i)) LS_UNAVAILABLE = negb (ci_physically_accessible i).
Proof using. unfold assess_physical. destruct (ci_physically_accessible i); cbn; [|done]. by destruct (_ <=? _)%F. Qed.
End tests.

Lemma layer_confidences i :
  is_score (cl_confidence (assess_physical i)) = true ∧ is_score (cl_confidence (assess_operational i)) = true ∧
  is_score (cl_confidence (assess_commercial i)) = true ∧ is_score (cl_confidence (assess_trust i)) = true ∧
  is_score (cl_confidence (assess_recovery i)) = true.
Proof.
  unfold assess_physical, assess_operational, assess_commercial, assess_trust, assess_recovery.
  split_and!; repeat case_match; reflexivity.
Qed.

(** [assess_closure] never raises; what it reports of the derivation. *)
Lemma assess_closure_ok id i : ∃ a, assess_closure id i = Ok a ∧
  cla_physical_state a = assess_physical i ∧ cla_operational_state a = assess_operational i ∧
  cla_commercial_state a = assess_commercial i ∧ cla_trust_state a = assess_trust i ∧
  cla_recovery_state a = assess_recovery i ∧
  cla_effective_state a = derive_effective_state (assess_physical i) (assess_operational i) (assess_commercial i)
                            (assess_trust i) (Some (assess_recovery i)) ∧
  cla_reason_codes a = cl_reason_codes (assess_physical i) ++ cl_reason_codes (assess_operational i)
    ++ cl_reason_codes (assess_commercial i) ++ cl_reason_codes (assess_trust i) ++ cl_reason_codes (assess_recovery i).
Proof.
  destruct (layer_confidences i) as (? & ? & ? & ? & ?). unfold assess_closure. cbn [foldl].
  rewrite score_round by auto 10 using score_fmin. cbn [require mbind res_bind].
  eexists. split; [reflexivity|]. cbn. by rewrite app_nil_r.
Qed.

(** The derivation as a decision list on the inputs. *)
Definition state_of_input (i : ClosureInput) : CorridorState :=
  if negb (ci_physically_accessible i) then CS_PHYSICALLY_CLOSED
  else if cut_off i || (uninsurable i && no_carrier i && trust_lost i) then CS_FUNCTIONALLY_CLOSED
  else if uninsurable i then CS_OPEN_BUT_UNINSURABLE
  else if no_carrier i then CS_OPEN_BUT_NO_CARRIER_CAPACITY
  else if (ci_navigation_trust i <? lit 0.5)%F then CS_OPEN_BUT_NAVIGATION_UNTRUSTED
  else if (ci_communications_trust i <? lit 0.5)%F then CS_OPEN_BUT_COMMUNICATIONS_DEGRADED
  else if ci_escort_dependent i && negb (ci_escort_available i) then CS_OPEN_BUT_SERVICE_DEPENDENT
  else if ci_recovery_backlog_active i then CS_RECOVERY_BACKLOGGED
  else if (ci_physical_capacity_ratio i <=? lit 0.2)%F then CS_OPEN_CAPACITY_CONSTRAINED
  else if negb (ci_escort_available i) || negb (ci_weather_safe i) || (ci_commercial_viability i <=? lit 0.2)%F
          || (negb (trust_lost i) && match trust_reasons i with [] => false | _ => true end)
  then CS_OPEN_DEGRADED
  else CS_OPEN.

Lemma mem_operational i :
  mem_str "navigation_untrusted" (operational_reasons i) = (ci_navigation_trust i <? lit 0.5)%F ∧
  mem_str "communications_degraded" (operational_reasons i) = (ci_communications_trust i <? lit 0.5)%F ∧
  mem_str "service_dependent" (operational_reasons i) = ci_escort_dependent i && negb (ci_escort_available i) ∧
  mem_str "navigation_unavailable" (operational_reasons i) = negb (ci_navigation_available i).
Proof.
  unfold operational_reasons.
  destruct (ci_navigation_available i), (ci_navigation_trust i <? _)%F, (ci_communications_available i),
    (ci_communications_trust i <? _)%F, (ci_escort_available i), (ci_escort_dependent i), (ci_weather_safe i);
    vm_compute; done.
Qed.

Lemma state_of_input_spec i :
  derive_effective_state (assess_physical i) (assess_operational i) (assess_commercial i) (assess_trust i)
    (Some (assess_recovery i)) = state_of_input i.
Proof.
  destruct (commercial_codes i) as [C1 C2]. destruct (operational_codes i) as [O1 O2].
  destruct (mem_operational i) as (M1 & M2 & M3 & _).
  unfold derive_effective_state, state_of_input.
  rewrite physical_unavailable, O2, commercial_unavailable, trust_unavailable, C1, C2, O1, M1, M2, M3.
  destruct (ci_physically_accessible i) eqn:Ep; [cbn [negb]|done].
  destruct (cut_off i) eqn:Ec; [done|]. destruct (uninsurable i) eqn:Eu; [by destruct (no_carrier i), (trust_lost i)|].
  cbn [orb andb]. destruct (no_carrier i) eqn:En; [done|].
  destruct (ci_navigation_trust i <? _)%F eqn:E1; [done|]. destruct (ci_communications_trust i <? _)%F eqn:E2; [done|].
  destruct (ci_escort_dependent i && negb (ci_escort_available i)) eqn:E3; [done|].
  unfold assess_recovery. destruct (ci_recovery_backlog_active i) eqn:E4; [done|]. cbn [cl_reason_codes layer].
  change (mem_str "recovery_backlogged" []) with false. cbv iota.
  unfold assess_physical. rewrite Ep. cbn [negb]. destruct (ci_physical_capacity_ratio i <=? _)%F eqn:E5; [done|].
  unfold assess_operational, assess_commercial, assess_trust. fold (cut_off i). rewrite Ec.
  unfold operational_reasons, commercial_reasons. fold (uninsurable i) (no_carrier i) (trust_lost i). rewrite Eu, En.
  unfold cut_off in Ec. apply orb_false_iff in Ec as [N1 N2]. rewrite N1, N2, E1, E2, E3.
  destruct (ci_escort_available i), (ci_weather_safe i), (ci_commercial_viability i <=? _)%F; cbn;
    change (mem_str _ _ && mem_str _ _) with false; cbn; destruct (trust_lost i); cbn; try done;
    by destruct (trust_reasons i).
Qed.

(** The effective state is exactly the documented precedence on the
    inputs, and the assessment never fails: physical inaccessibility first,
    then loss of navigation or communications (or no insurance, no carrier and
    no trust together), then the commercial, navigation, communications,
    service, recovery and capacity conditions in this order. *)
Theorem closure_state_exact id i : ∃ a, assess_closure id i = Ok a ∧ cla_effective_state a = state_of_input i.
Proof.
  destruct (assess_closure_ok id i) as (a & E & _ & _ & _ & _ & _ & Hs & _). exists a. split; [done|].
  by rewrite Hs, state_of_input_spec.
Qed.

(** [j] is at least as bad as [i] in every respect but the trust scores. *)
Record worse (i j : ClosureInput) : Prop := {
  worse_accessible : ci_physically_accessible j = true → ci_physically_accessible i = true;
  worse_navigation : ci_navigation_available j = true → ci_navigation_available i = true;
  worse_communications : ci_communications_available j = true → ci_communications_available i = true;
  worse_insurance : ci_insurance_available j = true → ci_insurance_available i = true;
  worse_coverage : (ci_insurance_coverage j <=? ci_insurance_coverage i)%F = true;
  worse_carrier : ci_carrier_capacity_available j = true → ci_carrier_capacity_available i = true;
  worse_carrier_ratio : (ci_carrier_capacity_ratio j <=? ci_carrier_capacity_ratio i)%F = true;
  worse_integrity : (ci_data_integrity j <=? ci_data_integrity i)%F = true;
  worse_confidence : (ci_observation_confidence j <=? ci_observation_confidence i)%F = true
}.

Definition closed (s : CorridorState) : bool :=
  match s with CS_PHYSICALLY_CLOSED | CS_FUNCTIONALLY_CLOSED => true | _ => false end.

(** Closure is monotone: when every input is at least as bad as in a
    situation assessed closed (physically or functionally), the assessment is
    closed too; better weather, escort or capacity elsewhere cannot reopen it. *)
Theorem closure_monotone id i j :
  worse i j →
  ∃ a b, assess_closure id i = Ok a ∧ assess_closure id j = Ok b ∧
    (closed (cla_effective_state a) = true → closed (cla_effective_state b) = true).
Proof.
  intros H. destruct (assess_closure_ok id i) as (a & Ea & _ & _ & _ & _ & _ & Sa & _).
  destruct (assess_closure_ok id j) as (b & Eb & _ & _ & _ & _ & _ & Sb & _).
  exists a, b. split_and!; [done..|]. rewrite Sa, Sb, !state_of_input_spec.
  assert (∀ k, closed (state_of_input k) =
    negb (ci_physically_accessible k) || (cut_off k || (uninsurable k && no_carrier k && trust_lost k))) as Hk.
  { intros k. unfold state_of_input. destruct (ci_physically_accessible k); [|done]. cbn [negb orb].
    destruct (cut_off k || _); [done|]. repeat case_match; done. }
  rewrite !Hk. clear Hk Ea Eb Sa Sb a b.
  assert (∀ p q : bool, (q = true → p = true) → negb p = true → negb q = true) as Hneg by (intros [] []; auto).
  destruct H as [A N C I V R Q T O].
  assert (∀ p q, (p = true → q = true) → ∀ p' q', (p' = true → q' = true) → p || p' = true → q || q' = true) as Hor
    by (intros [] [] ? [] []; auto).
  assert (∀ p q, (p = true → q = true) → ∀ p' q', (p' = true → q' = true) → p && p' = true → q && q' = true) as Hand
    by (intros [] [] ? [] []; auto).
  assert (∀ x y b, fleb x y = true → fltb y b = true → fltb x b = true) as Hlt by (intros; by eapply fleb_fltb_trans).
  unfold cut_off, uninsurable, no_carrier, trust_lost.
  repeat first [apply Hor | apply Hand | apply Hneg]; auto; eauto using fleb_trans.
Qed.

(** The trust layer alone never closes a corridor, and losing it
    entirely is reported as less than degrading it: with everything else
    nominal, a data integrity below 0.3 gives the state [OPEN], although the
    trust layer is [UNAVAILABLE], while between 0.3 and 0.5 it is degraded. *)
Theorem trust_loss_reported_open id i :
  ci_physically_accessible i = true → (ci_physical_capacity_ratio i <=? lit 0.2)%F = false →
  operational_reasons i = [] → commercial_reasons i = [] → ci_recovery_backlog_active i = false →
  (ci_data_integrity i <? lit 0.5)%F = true →
  ∃ a, assess_closure id i = Ok a ∧
    (trust_lost i = true → cl_state (cla_trust_state a) = LS_UNAVAILABLE ∧ cla_effective_state a = CS_OPEN) ∧
    (trust_lost i = false → cl_state (cla_trust_state a) = LS_DEGRADED ∧ cla_effective_state a = CS_OPEN_DEGRADED).
Proof.
  intros Hp Hr Ho Hc Hb Hd. destruct (assess_closure_ok id i) as (a & E & _ & _ & _ & Ht & _ & Hs & _).
  exists a. split; [done|]. rewrite Ht, Hs. unfold derive_effective_state.
  assert (assess_physical i = layer "physical" LS_AVAILABLE (lit 0.9) []) as -> by (unfold assess_physical; by rewrite Hp, Hr).
  assert (assess_commercial i = layer "commercial" LS_AVAILABLE (lit 0.85) []) as -> by (unfold assess_commercial; by rewrite Hc).
  assert (assess_operational i = layer "operational" LS_AVAILABLE (lit 0.9) []) as ->.
  { destruct (operational_codes i) as [_ H]. unfold assess_operational in *. fold (cut_off i) in *. rewrite Ho in *.
    unfold operational_reasons in Ho. unfold cut_off in *.
    destruct (ci_navigation_available i), (ci_communications_available i); try done; cbn in Ho; by destruct (_ <? _)%F. }
  unfold assess_recovery, assess_trust. rewrite Hb. fold (trust_lost i). unfold trust_reasons. rewrite Hd.
  destruct (trust_lost i); split; try done; intros _; repeat case_match; done.
Qed.

(** The composite state agrees with the assessment on closure and
    availability: it is physically closed exactly when the effective state is,
    navigation is healthy exactly when it is available and trusted (at least
    0.5).  Unavailable navigation whose trust is low is reported as "degraded",
    not as "unavailable". *)
Theorem composite_agrees id i :
  ∃ a, assess_closure id i = Ok a ∧
    let c := to_composite_state a in
    (ecs_physical_state c = PS_PHYSICALLY_CLOSED ↔ cla_effective_state a = CS_PHYSICALLY_CLOSED) ∧
    (os_navigation (ecs_operational_state c) = "healthy" ↔
       ci_navigation_available i = true ∧ (ci_navigation_trust i <? lit 0.5)%F = false) ∧
    ((ci_navigation_trust i <? lit 0.5)%F = true →
       os_navigation (ecs_operational_state c) = "degraded" ∧
       (ci_physically_accessible i = true → ci_navigation_available i = false →
          cla_effective_state a = CS_FUNCTIONALLY_CLOSED)).
Proof.
  destruct (assess_closure_ok id i) as (a & E & Hp & Ho & _ & _ & _ & Hs & _).
  exists a. split; [done|]. cbn. rewrite Hp, Ho, Hs, state_of_input_spec.
  destruct (operational_codes i) as [-> _]. destruct (mem_operational i) as (M1 & _ & _ & M2). rewrite M1, M2.
  pose proof (physical_unavailable i) as P. unfold state_of_input, cut_off. split_and!.
  - unfold assess_physical. destruct (ci_physically_accessible i); cbn [negb]; [|done].
    assert (∀ x : bool, cl_state (if x then layer "physical" LS_DEGRADED (lit 0.85) ["physical_capacity_severely_constrained"]
      else layer "physical" LS_AVAILABLE (lit 0.9) []) = if x then LS_DEGRADED else LS_AVAILABLE) as -> by (by intros []).
    split; [by destruct (_ <=? _)%F|]. repeat case_match; done.
  - destruct (ci_navigation_trust i <? _)%F, (ci_navigation_available i); cbn; split; try done; by intros [].
  - intros Ht. rewrite Ht. split; [done|]. intros -> ->. done.
Qed.

(** ** Concrete inputs *)

Definition nominal_input : ClosureInput :=
  {| ci_resource_ref := "corridor/nsr"; ci_physically_accessible := true; ci_physical_capacity_ratio := f1;
     ci_navigation_available := true; ci_navigation_trust := f1; ci_communications_available := true;
     ci_communications_trust := f1; ci_escort_available := true; ci_escort_dependent := false;
     ci_weather_safe := true; ci_insurance_available := true; ci_insurance_coverage := f1;
     ci_carrier_capacity_available := true; ci_carrier_capacity_ratio := f1; ci_commercial_viability := f1;
     ci_data_integrity := lit 0.2; ci_observation_confidence := f1; ci_source_diversity := 2;
     ci_recovery_backlog_active := false; ci_policy_violations := []; ci_dependency_trace := [];
     ci_evidence_refs := []; ci_timestamp := {| dt_us := 1709210096000250; dt_aware := true |} |}.

Definition without_navigation (i : ClosureInput) : ClosureInput :=
  {| ci_resource_ref := ci_resource_ref i; ci_physically_accessible := true; ci_physical_capacity_ratio := f1;
     ci_navigation_available := false; ci_navigation_trust := lit 0.1; ci_communications_available := true;
     ci_communications_trust := f1; ci_escort_available := true; ci_escort_dependent := false;
     ci_weather_safe := true; ci_insurance_available := true; ci_insurance_coverage := f1;
     ci_carrier_capacity_available := true; ci_carrier_capacity_ratio := f1; ci_commercial_viability := f1;
     ci_data_integrity := lit 0.2; ci_observation_confidence := f1; ci_source_diversity := 2;
     ci_recovery_backlog_active := false; ci_policy_violations := []; ci_dependency_trace := [];
     ci_evidence_refs := []; ci_timestamp := ci_timestamp i |}.

Lemma closure_monotone_witness :
  ∃ b, assess_closure "c" (without_navigation nominal_input) = Ok b ∧ closed (cla_effective_state b) = true.
Proof.
  destruct (closure_monotone "c" (without_navigation nominal_input) (without_navigation nominal_input))
    as (a & b & Ea & Eb & H).
  - split; first [exact (λ x, x) | vm_compute; reflexivity].
  - exists b. split; [exact Eb|]. apply H. vm_compute in Ea. injection Ea as <-. reflexivity.
Defined.

Lemma trust_loss_reported_open_witness :
  ∃ a, assess_closure "c" nominal_input = Ok a ∧ cla_effective_state a = CS_OPEN ∧
    cl_state (cla_trust_state a) = LS_UNAVAILABLE.
Proof.
  destruct (trust_loss_reported_open "c" nominal_input) as (a & E & H & _); [vm_compute; reflexivity..|].
  exists a. split; [exact E|]. destruct H as [H1 H2]; [vm_compute; reflexivity|]. split; [exact H2|exact H1].
Defined.
