(* ===== verification/Trust.v ===== *)
(** * trust.py: the multi-dimensional dependency trust model

    The nine dimensions, the three aggregation strategies and the penalty for
    missing provenance.  Python's [min] over a list keeps the first of equal
    minima; [sorted] on the values is stable, so the order of the dimensions
    breaks ties. *)

From Stdlib Require Import ZArith QArith Lqa.
From S2P Require Import Prelude PyFloat FloatError PyFormat Domain.

Open Scope Z_scope.

Inductive TrustAggregation :=
| TA_MINIMUM
| TA_WEIGHTED
| TA_MEAN.

Record TrustDimensions := {
  td_physical_availability : float;
  td_cyber_integrity : float;
  td_legal_availability : float;
  td_commercial_availability : float;
  td_insurance_availability : float;
  td_communications_integrity : float;
  td_navigation_integrity : float;
  td_operator_confidence : float;
  td_information_confidence : float
}.

Definition all_values (d : TrustDimensions) : list float :=
  [td_physical_availability d; td_cyber_integrity d; td_legal_availability d; td_commercial_availability d;
   td_insurance_availability d; td_communications_integrity d; td_navigation_integrity d;
   td_operator_confidence d; td_information_confidence d].

Definition dimension_names : list string :=
  ["physical_availability"; "cyber_integrity"; "legal_availability"; "commercial_availability";
   "insurance_availability"; "communications_integrity"; "navigation_integrity"; "operator_confidence";
   "information_confidence"].

Definition as_dict (d : TrustDimensions) : dict string float := zip dimension_names (all_values d).

(** [key=lambda item: item[1]] *)
Definition value_leb (a b : string * float) : bool := (a.2 <=? b.2)%F.

Definition lowest_dimensions (d : TrustDimensions) (n : nat) : list (string * float) :=
  firstn n (sort_by value_leb (as_dict d)).

Record TrustProvenance := {
  tp_minimum_independent_sources : Z;
  tp_actual_independent_sources : Z;
  tp_source_ids : list string
}.

Record DependencyTrust := {
  dt_dependency_ref : string;
  dt_dimensions : TrustDimensions;
  dt_aggregation : TrustAggregation;
  dt_provenance : TrustProvenance
}.

(** The constraints of the three classes. *)
Definition TrustDimensions_valid (d : TrustDimensions) : bool := forallb is_score (all_values d).
Definition DependencyTrust_valid (t : DependencyTrust) : bool :=
  TrustDimensions_valid (dt_dimensions t)
  && (1 <=? str_len (dt_dependency_ref t)) && (str_len (dt_dependency_ref t) <=? 256)
  && (1 <=? tp_minimum_independent_sources (dt_provenance t))
  && (tp_minimum_independent_sources (dt_provenance t) <=? 20)
  && (0 <=? tp_actual_independent_sources (dt_provenance t)).

Definition trust_weights : list float :=
  [lit 0.15; lit 0.15; lit 0.10; lit 0.10; lit 0.10; lit 0.10; lit 0.10; lit 0.10; lit 0.10].

(** [min(values)] of a non-empty list: the first of the least values. *)
Definition min_list (x : float) (l : list float) : float := foldl fmin x l.

Definition aggregate_score (t : DependencyTrust) : res float :=
  let d := dt_dimensions t in
  match dt_aggregation t with
  | TA_MINIMUM => Ok (min_list (td_physical_availability d) (tail (all_values d)))
  | TA_MEAN => fmean (all_values d)
  | TA_WEIGHTED =>
      fdiv (fsum ((λ vw, (vw.1 * vw.2)%F) <$> zip (all_values d) trust_weights)) (fsum trust_weights)
  end.

Definition provenance_met (t : DependencyTrust) : bool :=
  tp_minimum_independent_sources (dt_provenance t) <=? tp_actual_independent_sources (dt_provenance t).

(** [min(pairs.items(), key=lambda item: item[1])] *)
Definition min_pair (acc p : string * float) : string * float := if (p.2 <? acc.2)%F then p else acc.
Definition weakest_dimension (t : DependencyTrust) : string * float :=
  let d := dt_dimensions t in
  foldl min_pair ("physical_availability", td_physical_availability d) (tail (as_dict d)).

Record TrustAssessment := {
  ta_dependency_ref : string;
  ta_aggregate_score : float;
  ta_weakest_dimension : string;
  ta_weakest_value : float;
  ta_provenance_met : bool;
  ta_dimension_values : dict string float;
  ta_reason_codes : list string
}.

Definition new_TrustAssessment (a : TrustAssessment) : res TrustAssessment :=
  _ ← require (is_score (ta_aggregate_score a)) "aggregate_score";
  _ ← require (is_score (ta_weakest_value a)) "weakest_value";
  Ok a.

Definition low_reason (p : string * float) : list string :=
  if (p.2 <? lit 0.5)%F then [p.1 +:+ " critically low: " +:+ fmt_fixed 2 p.2] else [].

Definition evaluate_trust (t : DependencyTrust) : res TrustAssessment :=
  score ← aggregate_score t;
  let '(weakest_name, weakest_value) := weakest_dimension t in
  let met := provenance_met t in
  let reasons := if met then [] else
    ["insufficient independent sources: " +:+ str_Z (tp_actual_independent_sources (dt_provenance t))
     +:+ " < " +:+ str_Z (tp_minimum_independent_sources (dt_provenance t))] in
  let score := if met then score else fmax f0 (score * lit 0.8)%F in
  let reasons := reasons ++ mjoin (low_reason <$> lowest_dimensions (dt_dimensions t) 3) in
  new_TrustAssessment
    {| ta_dependency_ref := dt_dependency_ref t; ta_aggregate_score := fround 6 (fmin f1 score);
       ta_weakest_dimension := weakest_name; ta_weakest_value := fround 6 weakest_value;
       ta_provenance_met := met; ta_dimension_values := as_dict (dt_dimensions t);
       ta_reason_codes := reasons |}.

(** ** Minima *)

Lemma fmin_le x y : x ≠ NaN → y ≠ NaN → fleb (fmin x y) x = true ∧ fleb (fmin x y) y = true.
Proof.
  intros Hx Hy. unfold fmin. destruct (fltb y x) eqn:E.
  - split; [by apply fltb_fleb|by apply fleb_refl].
  - split; [by apply fleb_refl|]. rewrite fltb_negb in E by done. by apply negb_false_iff in E.
Qed.

Lemma min_list_spec x l : Forall (λ y, y ≠ NaN) (x :: l) →
  min_list x l ∈ x :: l ∧ ∀ y, y ∈ x :: l → fleb (min_list x l) y = true.
Proof.
  unfold min_list. revert x. induction l as [|z l IH]; intros x [Hx Hl]%Forall_cons; cbn [foldl].
  - split; [by left|]. intros y ->%list_elem_of_singleton. by apply fleb_refl.
  - apply Forall_cons in Hl as [Hz Hl]. destruct (fmin_le x z Hx Hz) as [L1 L2].
    assert (fmin x z ≠ NaN) as Hm by (unfold fmin; by destruct (fltb z x)).
    destruct (IH (fmin x z)) as [I1 I2]; [by constructor|].
    assert (fleb (foldl fmin (fmin x z) l) (fmin x z) = true) as L3 by (apply I2; by left).
    split.
    + apply elem_of_cons in I1 as [->|?]; [|by right; right]. unfold fmin. destruct (fltb z x); [right|]; by left.
    + intros y [->|[->|Hy]%elem_of_cons]%elem_of_cons; [by eapply fleb_trans|by eapply fleb_trans|].
      apply I2. by right.
Qed.

Lemma min_pair_spec p l : Forall (λ q, q.2 ≠ NaN) (p :: l) →
  foldl min_pair p l ∈ p :: l ∧ ∀ q, q ∈ p :: l → fleb (foldl min_pair p l).2 q.2 = true.
Proof.
  revert p. induction l as [|z l IH]; intros p [Hp Hl]%Forall_cons; cbn [foldl].
  - split; [by left|]. intros q ->%list_elem_of_singleton. by apply fleb_refl.
  - apply Forall_cons in Hl as [Hz Hl].
    assert ((min_pair p z).2 ≠ NaN ∧ (min_pair p z = p ∨ min_pair p z = z) ∧
            fleb (min_pair p z).2 p.2 = true ∧ fleb (min_pair p z).2 z.2 = true) as (Hm & Hor & L1 & L2).
    { unfold min_pair. destruct (fltb z.2 p.2) eqn:E; split_and!; auto using fleb_refl, fltb_fleb.
      rewrite fltb_negb in E by done. by apply negb_false_iff in E. }
    destruct (IH (min_pair p z)) as [I1 I2]; [by constructor|].
    assert (fleb (foldl min_pair (min_pair p z) l).2 (min_pair p z).2 = true) as L3 by (apply I2; by left).
    split.
    + apply elem_of_cons in I1 as [->|?]; [|by right; right]. destruct Hor as [->| ->]; [by left|right; by left].
    + intros y [->|[->|Hy]%elem_of_cons]%elem_of_cons; [by eapply fleb_trans|by eapply fleb_trans|].
      apply I2. by right.
Qed.

Section evaluation.
Context (t : DependencyTrust) (Hvalid : DependencyTrust_valid t = true).

Lemma values_scores : Forall (λ v, is_score v = true) (all_values (dt_dimensions t)).
Proof using Hvalid.
  pose proof Hvalid as H. unfold DependencyTrust_valid, TrustDimensions_valid in H. rewrite !andb_true_iff in H.
  destruct H as [[[[[H _] _] _] _] _]. rewrite forallb_forall in H.
  apply Forall_forall. intros v Hv%list_elem_of_In. auto.
Qed.

Lemma weakest_spec :
  weakest_dimension t ∈ as_dict (dt_dimensions t) ∧ is_score (weakest_dimension t).2 = true ∧
  ∀ v, v ∈ all_values (dt_dimensions t) → fleb (weakest_dimension t).2 v = true.
Proof using Hvalid.
  pose proof values_scores as Hs. unfold weakest_dimension.
  change ("physical_availability", td_physical_availability (dt_dimensions t)) with
    (hd ("", NaN) (as_dict (dt_dimensions t))).
  assert ((as_dict (dt_dimensions t)).*2 = all_values (dt_dimensions t)) as E2 by reflexivity.
  assert (Forall (λ q : string * float, is_score q.2 = true) (as_dict (dt_dimensions t))) as Hp.
  { rewrite <-E2 in Hs. by apply Forall_fmap in Hs. }
  destruct (as_dict (dt_dimensions t)) as [|p l] eqn:Ed; [done|]. cbn [hd tail].
  destruct (min_pair_spec p l) as [I1 I2].
  { eapply Forall_impl; [exact Hp|]. intros q. apply score_not_NaN. }
  split; [done|]. split; [by rewrite Forall_forall in Hp; apply Hp|].
  intros v Hv. rewrite <-E2 in Hv. apply list_elem_of_fmap in Hv as (q & -> & Hq). by apply I2.
Qed.

Lemma minimum_spec :
  ∃ v, min_list (td_physical_availability (dt_dimensions t)) (tail (all_values (dt_dimensions t))) = v ∧
    is_score v = true ∧ ∀ w, w ∈ all_values (dt_dimensions t) → fleb v w = true.
Proof using Hvalid.
  pose proof values_scores as Hs. eexists. split; [reflexivity|].
  destruct (min_list_spec (td_physical_availability (dt_dimensions t)) (tail (all_values (dt_dimensions t)))) as [I1 I2].
  { eapply Forall_impl; [exact Hs|]. intros v. apply score_not_NaN. }
  split; [|exact I2]. rewrite Forall_forall in Hs. by apply Hs.
Qed.

End evaluation.

(** Zero, or not so small that its products underflow. *)
Definition not_minute (v : float) : Prop := ∃ q, v = Fin q ∧ (q == 0 ∨ pow2 (-800) <= q)%Q.

Lemma coarse_product v w : is_score v = true → not_minute v → w ∈ trust_weights → coarse (v * w)%F.
Proof.
  intros (q & -> & Q0 & Q1)%is_score_iff (q' & [= <-] & Hq) Hw.
  assert (∃ l, w = Fin l ∧ (1 # 16 <= l)%Q ∧ (l <= 1)%Q) as (l & -> & L0 & L1).
  { unfold trust_weights in Hw.
    repeat (apply elem_of_cons in Hw as [->|Hw];
            [eexists; split; [vm_compute; reflexivity|]; split; apply Qle_bool_iff; vm_compute; reflexivity|]).
    by apply elem_of_nil in Hw. }
  unfold fmul. assert (is_score (fl (q * l)) = true) as Hs.
  { apply score_fl; [apply Qmult_le_0_compat; lra|]. assert (q * l <= 1 * l)%Q by (apply Qmult_le_compat_r; lra). lra. }
  apply is_score_iff in Hs as (r & Hr & R0 & R1). exists r. split_and!; [done| |done].
  destruct Hq as [Hq|Hq].
  - left. rewrite (fl_proper (q * l) 0), fl_0 in Hr by (rewrite Hq; ring). by injection Hr as <-.
  - right. assert (fleb (fl (pow2 (-804))) (fl (q * l)) = true) as M.
    { apply fl_mono. apply Qle_trans with (pow2 (-800) * (1 # 16))%Q; [apply Qle_bool_iff; vm_compute; reflexivity|].
      apply Qle_trans with (q * (1 # 16))%Q; [by apply Qmult_le_compat_r|].
      rewrite !(Qmult_comm q). by apply Qmult_le_compat_r. }
    rewrite Hr in M. assert (∃ c, fl (pow2 (-804)) = Fin c ∧ (pow2 (-900) <= c)%Q) as (c & Hc & C).
    { eexists. split; [vm_compute; reflexivity|]. apply Qle_bool_iff. vm_compute. reflexivity. }
    rewrite Hc in M. apply fleb_Fin in M. lra.
Qed.

Lemma weighted_nonneg d : TrustDimensions_valid d = true → Forall not_minute (all_values d) →
  ∃ s, fdiv (fsum ((λ vw, (vw.1 * vw.2)%F) <$> zip (all_values d) trust_weights)) (fsum trust_weights) = Ok s ∧
    fltb s f0 = false.
Proof.
  intros Hv Hm. unfold TrustDimensions_valid in Hv. rewrite forallb_forall in Hv.
  set (l := (λ vw, (vw.1 * vw.2)%F) <$> zip (all_values d) trust_weights).
  assert (Forall coarse l) as Hc.
  { apply Forall_fmap, Forall_forall. intros [v w] Hin. cbn [fst snd].
    assert (v ∈ all_values d ∧ w ∈ trust_weights) as [Hv' Hw].
    { split; [by apply elem_of_zip_l in Hin|by apply elem_of_zip_r in Hin]. }
    apply coarse_product; [apply list_elem_of_In in Hv'; auto| |done]. rewrite Forall_forall in Hm. auto. }
  assert (fleb f0 (fsum l) = true) as Hs by (apply fsum_coarse_nonneg; [done|cbn; lia]).
  clearbody l.
  assert (∃ w, fsum trust_weights = Fin w ∧ (0 < w)%Q) as (w & -> & Hw)
    by (eexists; split; [vm_compute; reflexivity|vm_compute; reflexivity]).
  unfold fdiv. destruct (Qeq_bool w 0) eqn:E; [apply Qeq_bool_eq in E; lra|].
  destruct (fsum l) as [q|[]|]; try done.
  - eexists. split; [done|]. rewrite f0_eq in *. apply fleb_Fin in Hs. apply fltb_irrefl_le.
    rewrite <-fl_0. apply fl_mono. by apply Qle_shift_div_l; [|rewrite Qmult_0_l].
  - eexists. split; [done|]. unfold Qneg. by rewrite (proj2 (Qle_bool_iff _ _)) by lra.
Qed.

Lemma aggregate_ok t : DependencyTrust_valid t = true → Forall not_minute (all_values (dt_dimensions t)) →
  ∃ s, aggregate_score t = Ok s ∧ fltb s f0 = false.
Proof.
  intros Hv Hm. pose proof (values_scores t Hv) as Hs. unfold aggregate_score.
  assert (∀ v, is_score v = true → fltb v f0 = false) as Hsc.
  { intros v (q & -> & ? & ?)%is_score_iff. apply fltb_irrefl_le. rewrite f0_eq. by apply fleb_Fin. }
  destruct (dt_aggregation t).
  - destruct (minimum_spec t Hv) as (v & -> & Hv1 & _). eauto.
  - apply weighted_nonneg; [|done]. unfold DependencyTrust_valid in Hv. rewrite !andb_true_iff in Hv. tauto.
  - destruct (fmean_scores (all_values (dt_dimensions t))) as (m & -> & Hm'); [done|cbn; lia|done|]. eauto.
Qed.

(** A trust evaluation of a valid dependency always succeeds: whatever
    the aggregation strategy, the penalised and rounded score is again a score,
    the weakest dimension named is a dimension of least value, and missing
    provenance is always listed as a reason. *)
Theorem evaluate_trust_total t :
  DependencyTrust_valid t = true → Forall not_minute (all_values (dt_dimensions t)) →
  ∃ a, evaluate_trust t = Ok a ∧ is_score (ta_aggregate_score a) = true ∧
    (∃ v, (ta_weakest_dimension a, v) ∈ as_dict (dt_dimensions t) ∧ ta_weakest_value a = fround 6 v ∧
       ∀ w, w ∈ all_values (dt_dimensions t) → (v <=? w)%F = true) ∧
    (ta_provenance_met a = false → ta_reason_codes a ≠ []).
Proof.
  intros Hv Hm. destruct (aggregate_ok t Hv Hm) as (s & Es & Hs).
  destruct (weakest_spec t Hv) as (W1 & W2 & W3). unfold evaluate_trust. rewrite Es. cbn [mbind res_bind].
  destruct (weakest_dimension t) as [name v] eqn:Ew. cbn [snd] in *.
  assert (∀ x, fltb x f0 = false → is_score (fround 6 (fmin f1 x)) = true) as Hx
    by (intros; by apply score_round, score_min1).
  assert (fltb (if provenance_met t then s else fmax f0 (s * lit 0.8)%F) f0 = false) as Hp.
  { destruct (provenance_met t); [done|]. unfold fmax. destruct (fltb f0 (s * lit 0.8)%F) eqn:E; [|reflexivity].
    by apply fltb_irrefl_le, fltb_fleb. }
  unfold new_TrustAssessment. cbn [ta_aggregate_score ta_weakest_value].
  rewrite (Hx _ Hp), (score_round 6 v W2). cbn [require mbind res_bind].
  eexists. split; [reflexivity|]. cbn. split_and!; [by apply Hx|by exists v|].
  intros ->. done.
Qed.

(** Under the default strategy (the minimum) a strong dimension never
    compensates a weak one: when provenance is met, the reported score is at
    most every dimension (all of them rounded to six decimals). *)
Theorem minimum_never_compensates t a :
  DependencyTrust_valid t = true → dt_aggregation t = TA_MINIMUM → provenance_met t = true →
  evaluate_trust t = Ok a →
  ∀ w, w ∈ all_values (dt_dimensions t) → (ta_aggregate_score a <=? fround 6 w)%F = true.
Proof.
  intros Hv Ha Hp. unfold evaluate_trust, aggregate_score. rewrite Ha, Hp. cbn [mbind res_bind].
  destruct (weakest_dimension t) as [name v0]. unfold new_TrustAssessment. intros H. inv_ok.
  intros w Hw. cbn. destruct (minimum_spec t Hv) as (v & E & Hv1 & Hv2). unfold tail in E. cbn in E.
  apply fround_mono. eapply fleb_trans; [|by apply Hv2]. subst v.
  apply (fmin_le f1); [done|by apply score_not_NaN].
Qed.

(** ** Concrete inputs *)

Definition example_trust (aggregation : TrustAggregation) (sources : Z) : DependencyTrust :=
  {| dt_dependency_ref := "satcom/leo";
     dt_dimensions := {| td_physical_availability := f1; td_cyber_integrity := lit 0.4; td_legal_availability := f1;
       td_commercial_availability := lit 0.9; td_insurance_availability := f1; td_communications_integrity := lit 0.4;
       td_navigation_integrity := f1; td_operator_confidence := lit 0.7; td_information_confidence := f0 |};
     dt_aggregation := aggregation;
     dt_provenance := {| tp_minimum_independent_sources := 2; tp_actual_independent_sources := sources; tp_source_ids := [] |} |}.

Lemma evaluate_trust_total_witness :
  ∃ a, evaluate_trust (example_trust TA_WEIGHTED 1) = Ok a ∧ ta_reason_codes a ≠ [].
Proof.
  destruct (evaluate_trust_total (example_trust TA_WEIGHTED 1)) as (a & E & _ & _ & H).
  - vm_compute. reflexivity.
  - repeat (apply Forall_cons; split;
      [eexists; split; [vm_compute; reflexivity|
         first [left; vm_compute; reflexivity | right; apply Qle_bool_iff; vm_compute; reflexivity]]|]).
    apply Forall_nil. exact I.
  - exists a. split; [exact E|]. apply H. vm_compute in E. injection E as <-. reflexivity.
Defined.

Lemma minimum_never_compensates_witness :
  ∃ a, evaluate_trust (example_trust TA_MINIMUM 3) = Ok a ∧ (ta_aggregate_score a <=? fround 6 (lit 0.4))%F = true.
Proof.
  eexists. split; [vm_compute; reflexivity|].
  apply (minimum_never_compensates (example_trust TA_MINIMUM 3)); [vm_compute; reflexivity..|].
  right. left.
Defined.
