(* ===== verification/Policy.v ===== *)
(** * policy.py: policy as code

    [check_rule] tests the clauses of an assertion in order and returns the
    first violation; [evaluate_policy] collects the violations of all rules.
    Integers are compared with floats exactly, as Python does. *)

From Stdlib Require Import ZArith QArith.
From S2P Require Import Prelude PyFloat FloatError PyFormat Domain.

Open Scope Z_scope.

Record PolicyAssertion := {
  pa_minimum_providers : option Z;
  pa_minimum_reserve_days : option Z;
  pa_minimum_independent_routes : option Z;
  pa_minimum_continuity : option float;
  pa_maximum_single_dependency_concentration : option float;
  pa_minimum_trust_score : option float;
  pa_trust_dimension_thresholds : dict string float;
  pa_trust_dimension_required : dict string bool
}.

Record PolicyRule := {
  pr_rule_id : string;
  pr_description : string;
  pr_assertion : PolicyAssertion;
  pr_severity : string
}.

Record ContinuityPolicy := {
  pol_policy_id : string;
  pol_version : string;
  pol_rules : list PolicyRule
}.

Record ObservedState := {
  obs_provider_counts : dict string Z;
  obs_reserve_days : dict string float;
  obs_independent_route_count : Z;
  obs_overall_continuity : float;
  obs_dependency_concentration : dict string float;
  obs_trust_scores : dict string float;
  obs_dimensional_trust_scores : dict string (dict string float)
}.

Record PolicyViolation := {
  pv_rule_id : string;
  pv_description : string;
  pv_severity : string;
  pv_expected : string;
  pv_observed : string;
  pv_deficit : option string
}.

Record PolicyEvaluation := {
  pe_evaluation_id : string;
  pe_policy_id : string;
  pe_policy_version : string;
  pe_evaluated_at : datetime;
  pe_compliant : bool;
  pe_violations : list PolicyViolation;
  pe_rules_evaluated : Z;
  pe_rules_passed : Z
}.

Definition violation (rule : PolicyRule) (expected observed deficit : string) : PolicyViolation :=
  {| pv_rule_id := pr_rule_id rule; pv_description := pr_description rule; pv_severity := pr_severity rule;
     pv_expected := expected; pv_observed := observed; pv_deficit := Some deficit |}.

(** An integer as the exact real it is compared with. *)
Definition exact (n : Z) : float := Fin (inject_Z n).

(** The first violation found by a loop over the items of a dictionary. *)
Fixpoint first_some {A B} (f : A → option B) (l : list A) : option B :=
  match l with
  | [] => None
  | x :: l => match f x with Some v => Some v | None => first_some f l end
  end.

(** ** The clauses, in the order of the code *)

Section clauses.
Context (rule : PolicyRule) (state : ObservedState).

Definition check_providers (minimum : Z) : option PolicyViolation :=
  match obs_provider_counts state with
  | [] => Some (violation rule (">= " +:+ str_Z minimum +:+ " providers") "0 providers (UNKNOWN/MISSING)"
                  (str_Z minimum +:+ " additional required"))
  | counts => first_some (λ kv,
      if kv.2 <? minimum then
        Some (violation rule (">= " +:+ str_Z minimum +:+ " providers (" +:+ kv.1 +:+ ")")
                (str_Z kv.2 +:+ " providers") (str_Z (minimum - kv.2) +:+ " additional required"))
      else None) counts
  end.

Definition check_reserve (minimum : Z) : option PolicyViolation :=
  match obs_reserve_days state with
  | [] => Some (violation rule (">= " +:+ str_Z minimum +:+ " days") "0 days (UNKNOWN/MISSING)"
                  (str_Z minimum +:+ " days short"))
  | days => first_some (λ kv,
      if (kv.2 <? exact minimum)%F then
        Some (violation rule (">= " +:+ str_Z minimum +:+ " days (" +:+ kv.1 +:+ ")")
                (fmt_fixed 1 kv.2 +:+ " days") (fmt_fixed 1 (f_of_Z minimum - kv.2)%F +:+ " days short"))
      else None) days
  end.

Definition check_routes (minimum : Z) : option PolicyViolation :=
  let count := obs_independent_route_count state in
  if count <? minimum then
    Some (violation rule (">= " +:+ str_Z minimum +:+ " independent routes") (str_Z count +:+ " routes")
            (str_Z (minimum - count) +:+ " additional required"))
  else None.

Definition check_continuity (minimum : float) : option PolicyViolation :=
  let c := obs_overall_continuity state in
  if (c <? minimum)%F then
    Some (violation rule (">= " +:+ fmt_percent 1 minimum +:+ " continuity") (fmt_percent 1 c)
            (fmt_percent 1 (minimum - c)%F +:+ " below target"))
  else None.

Definition check_trust (minimum : float) : option PolicyViolation :=
  match obs_trust_scores state with
  | [] => Some (violation rule (">= " +:+ fmt_fixed 2 minimum +:+ " trust score") "0 trust scores (UNKNOWN/MISSING)"
                  "Missing trust score telemetry")
  | scores => first_some (λ kv,
      if (kv.2 <? minimum)%F then
        Some (violation rule (">= " +:+ fmt_fixed 2 minimum +:+ " trust (" +:+ kv.1 +:+ ")")
                (fmt_fixed 2 kv.2) (fmt_fixed 2 (minimum - kv.2)%F +:+ " below threshold"))
      else None) scores
  end.

Definition check_threshold (dim : string) (minimum : float) (dep : string * dict string float) : option PolicyViolation :=
  match dget dep.2 dim with
  | Some actual =>
      if (actual <? minimum)%F then
        Some (violation rule (">= " +:+ fmt_fixed 2 minimum +:+ " " +:+ dim +:+ " (" +:+ dep.1 +:+ ")")
                (fmt_fixed 2 actual) (fmt_fixed 2 (minimum - actual)%F +:+ " below threshold"))
      else None
  | None => None
  end.

Definition check_required (dim : string) (dep : string * dict string float) : option PolicyViolation :=
  if (dget_default dep.2 dim f0 <=? f0)%F then
    Some (violation rule ("required active " +:+ dim +:+ " (" +:+ dep.1 +:+ ")") "unavailable"
            "required but missing or unavailable")
  else None.

(** A clause that is absent from the assertion is skipped. *)
Definition clause {A} (o : option A) (check : A → option PolicyViolation) : option PolicyViolation :=
  match o with Some a => check a | None => None end.

Definition check_rule : option PolicyViolation :=
  let a := pr_assertion rule in
  first_some id
    [clause (pa_minimum_providers a) check_providers;
     clause (pa_minimum_reserve_days a) check_reserve;
     clause (pa_minimum_independent_routes a) check_routes;
     clause (pa_minimum_continuity a) check_continuity;
     clause (pa_minimum_trust_score a) check_trust;
     first_some (λ t, first_some (check_threshold t.1 t.2) (obs_dimensional_trust_scores state))
       (pa_trust_dimension_thresholds a);
     first_some (λ t, if t.2 : bool then first_some (check_required t.1) (obs_dimensional_trust_scores state) else None)
       (pa_trust_dimension_required a)].
End clauses.

Definition policy_step (state : ObservedState) (acc : list PolicyViolation * Z) (rule : PolicyRule)
    : list PolicyViolation * Z :=
  match check_rule rule state with
  | Some v => (acc.1 ++ [v], acc.2)
  | None => (acc.1, acc.2 + 1)
  end.

Definition evaluate_policy (evaluation_id : string) (now : datetime) (policy : ContinuityPolicy)
    (state : ObservedState) : PolicyEvaluation :=
  let '(violations, rules_passed) := foldl (policy_step state) ([], 0) (pol_rules policy) in
  {| pe_evaluation_id := evaluation_id; pe_policy_id := pol_policy_id policy;
     pe_policy_version := pol_version policy; pe_evaluated_at := now;
     pe_compliant := match violations with [] => true | _ => false end;
     pe_violations := violations; pe_rules_evaluated := Z.of_nat (length (pol_rules policy));
     pe_rules_passed := rules_passed |}.

(** ** The meaning of a rule *)

(** What the clauses of a rule require of an observed state. *)
Record satisfied (a : PolicyAssertion) (s : ObservedState) : Prop := {
  sat_providers n : pa_minimum_providers a = Some n →
    obs_provider_counts s ≠ [] ∧ ∀ kv, kv ∈ obs_provider_counts s → n ≤ kv.2;
  sat_reserve n : pa_minimum_reserve_days a = Some n →
    obs_reserve_days s ≠ [] ∧ ∀ kv, kv ∈ obs_reserve_days s → (kv.2 <? exact n)%F = false;
  sat_routes n : pa_minimum_independent_routes a = Some n → n ≤ obs_independent_route_count s;
  sat_continuity c : pa_minimum_continuity a = Some c → (obs_overall_continuity s <? c)%F = false;
  sat_trust m : pa_minimum_trust_score a = Some m →
    obs_trust_scores s ≠ [] ∧ ∀ kv, kv ∈ obs_trust_scores s → (kv.2 <? m)%F = false;
  sat_threshold t dep v : t ∈ pa_trust_dimension_thresholds a → dep ∈ obs_dimensional_trust_scores s →
    dget dep.2 t.1 = Some v → (v <? t.2)%F = false;
  sat_required t dep : t ∈ pa_trust_dimension_required a → t.2 = true → dep ∈ obs_dimensional_trust_scores s →
    (dget_default dep.2 t.1 f0 <=? f0)%F = false
}.

Lemma first_some_none {A B} (f : A → option B) l : first_some f l = None ↔ ∀ x, x ∈ l → f x = None.
Proof.
  induction l as [|x l IH]; cbn; [split; [by intros _ ? ?%elem_of_nil|done]|].
  destruct (f x) eqn:E.
  - split; [done|]. intros H. rewrite H in E; [done|by left].
  - rewrite IH. split; [intros H y [->|?]%elem_of_cons; auto|]. intros H y ?. apply H. by right.
Qed.

Lemma check_if (b : bool) {A} (v : A) : (if b then Some v else None) = None ↔ b = false.
Proof. by destruct b. Qed.

Lemma check_items {A} (l : list A) (v0 : PolicyViolation) (f : A → option PolicyViolation) :
  match l with [] => Some v0 | x :: l => first_some f (x :: l) end = None ↔ l ≠ [] ∧ ∀ x, x ∈ l → f x = None.
Proof. destruct l as [|x l]; [split; [done|by intros []]|]. rewrite first_some_none. naive_solver. Qed.

Lemma clause_none {A} (o : option A) check : clause o check = None ↔ ∀ a, o = Some a → check a = None.
Proof. destruct o; cbn; split; [by intros ? ? [= <-]|auto|done|done]. Qed.

Lemma check_rule_none rule s : check_rule rule s = None ↔ satisfied (pr_assertion rule) s.
Proof.
  unfold check_rule. rewrite first_some_none. set (a := pr_assertion rule).
  transitivity (Forall (λ x, x = None)
    [clause (pa_minimum_providers a) (check_providers rule s); clause (pa_minimum_reserve_days a) (check_reserve rule s);
     clause (pa_minimum_independent_routes a) (check_routes rule s); clause (pa_minimum_continuity a) (check_continuity rule s);
     clause (pa_minimum_trust_score a) (check_trust rule s);
     first_some (λ t, first_some (check_threshold rule t.1 t.2) (obs_dimensional_trust_scores s)) (pa_trust_dimension_thresholds a);
     first_some (λ t, if t.2 : bool then first_some (check_required rule t.1) (obs_dimensional_trust_scores s) else None)
       (pa_trust_dimension_required a)]).
  { rewrite Forall_forall. done. }
  rewrite !Forall_cons, !clause_none, !first_some_none.
  assert (∀ n, check_providers rule s n = None ↔ obs_provider_counts s ≠ [] ∧
    ∀ kv, kv ∈ obs_provider_counts s → n ≤ kv.2) as Hp.
  { intros n. unfold check_providers. rewrite (check_items (A:=string * Z)). setoid_rewrite check_if. by setoid_rewrite Z.ltb_ge. }
  assert (∀ n, check_reserve rule s n = None ↔ obs_reserve_days s ≠ [] ∧
    ∀ kv, kv ∈ obs_reserve_days s → (kv.2 <? exact n)%F = false) as Hre.
  { intros n. unfold check_reserve. rewrite (check_items (A:=string * float)). by setoid_rewrite check_if. }
  assert (∀ m, check_trust rule s m = None ↔ obs_trust_scores s ≠ [] ∧
    ∀ kv, kv ∈ obs_trust_scores s → (kv.2 <? m)%F = false) as Htr.
  { intros m. unfold check_trust. rewrite (check_items (A:=string * float)). by setoid_rewrite check_if. }
  unfold check_routes, check_continuity. setoid_rewrite Hp. setoid_rewrite Hre. setoid_rewrite Htr.
  setoid_rewrite check_if. setoid_rewrite Z.ltb_ge.
  assert (∀ t dep, check_threshold rule t.1 t.2 dep = None ↔
    ∀ v, dget dep.2 t.1 = Some v → (v <? t.2)%F = false) as Ht.
  { intros t dep. unfold check_threshold. destruct (dget dep.2 t.1); [|naive_solver]. rewrite check_if. naive_solver. }
  assert (∀ t, first_some (check_threshold rule t.1 t.2) (obs_dimensional_trust_scores s) = None ↔
    ∀ dep v, dep ∈ obs_dimensional_trust_scores s → dget dep.2 t.1 = Some v → (v <? t.2)%F = false) as Ht'.
  { intros t. rewrite first_some_none. setoid_rewrite Ht. naive_solver. }
  assert (∀ t : string * bool, (if t.2 then first_some (check_required rule t.1) (obs_dimensional_trust_scores s) else None) = None ↔
    (t.2 = true → ∀ dep, dep ∈ obs_dimensional_trust_scores s → (dget_default dep.2 t.1 f0 <=? f0)%F = false)) as Hr.
  { intros [dim []]; cbn [fst snd]; [|naive_solver]. rewrite first_some_none. unfold check_required.
    setoid_rewrite check_if. naive_solver. }
  setoid_rewrite Ht'. setoid_rewrite Hr. split.
  - intros (H1 & H2 & H3 & H4 & H5 & H6 & H7 & _). split; eauto.
  - intros [H1 H2 H3 H4 H5 H6 H7]. split_and!; eauto.
Qed.

#[local] Arguments check_rule : simpl never.

Lemma policy_fold state rules acc :
  foldl (policy_step state) acc rules =
  (acc.1 ++ omap (λ r, check_rule r state) rules,
   acc.2 + Z.of_nat (length (List.filter (λ r, match check_rule r state with None => true | _ => false end) rules))).
Proof.
  revert acc. induction rules as [|r rules IH]; intros acc; cbn [foldl].
  { cbn. rewrite app_nil_r, Z.add_0_r. by destruct acc. }
  rewrite IH. unfold policy_step. cbn. destruct (check_rule r state); cbn.
  - by rewrite <-app_assoc.
  - f_equal. lia.
Qed.

(** A policy is reported compliant exactly when every rule's assertion
    is satisfied by the observed state; otherwise the violations are those of
    the unsatisfied rules, in the order of the policy, each attributed to its
    rule, and the counts add up. *)
Theorem evaluate_policy_exact eid now policy state :
  let e := evaluate_policy eid now policy state in
  (pe_compliant e = true ↔ ∀ r, r ∈ pol_rules policy → satisfied (pr_assertion r) state) ∧
  pv_rule_id <$> pe_violations e =
    pr_rule_id <$> List.filter (λ r, match check_rule r state with None => false | _ => true end) (pol_rules policy) ∧
  (∀ v, v ∈ pe_violations e → ∃ r, r ∈ pol_rules policy ∧ check_rule r state = Some v ∧
     ¬ satisfied (pr_assertion r) state) ∧
  pe_rules_evaluated e = pe_rules_passed e + Z.of_nat (length (pe_violations e)).
Proof.
  cbn. unfold evaluate_policy. rewrite policy_fold. cbn. set (rules := pol_rules policy).
  assert (∀ r v, check_rule r state = Some v → pv_rule_id v = pr_rule_id r) as Hid.
  { intros r v. unfold check_rule, clause, check_providers, check_reserve, check_routes, check_continuity, check_trust,
      check_threshold, check_required.
    assert (∀ {A} (f : A → option PolicyViolation) l, first_some f l = Some v → ∃ x, x ∈ l ∧ f x = Some v) as Hf.
    { intros A f l. induction l as [|x l IH]; cbn; [done|]. destruct (f x) eqn:E.
      - intros [= ->]. exists x. split; [by left|done].
      - intros (y & ? & ?)%IH. exists y. by split; [right|]. }
    intros (x & Hin & Hx)%Hf. unfold id in Hx. subst x.
    repeat (apply elem_of_cons in Hin as [Hin|Hin]); [..|by apply elem_of_nil in Hin];
      repeat (match type of Hin with
      | Some _ = match ?o with _ => _ end => destruct o
      | Some _ = (if ?b then _ else _) => destruct b
      | Some _ = first_some _ _ => symmetry in Hin; apply Hf in Hin as (? & _ & Hin); symmetry in Hin
      end; try done); by injection Hin as ->. }
  split_and!.
  - destruct (omap _ rules) as [|v l] eqn:E.
    + split; [|done]. intros _ r Hr. apply check_rule_none. destruct (check_rule r state) as [v|] eqn:F; [|done].
      assert (v ∈ omap (λ r, check_rule r state) rules) as Hin by (apply list_elem_of_omap; eauto).
      rewrite E in Hin. by apply elem_of_nil in Hin.
    + split; [done|]. intros H. exfalso. assert (v ∈ omap (λ r, check_rule r state) rules) as Hin by (rewrite E; by left).
      apply list_elem_of_omap in Hin as (r & Hr & F). apply H, (check_rule_none r state) in Hr. congruence.
  - clearbody rules. induction rules as [|r l IH]; cbn; [done|]. destruct (check_rule r state) as [v|] eqn:E; [|done].
    cbn. rewrite (Hid r v E). f_equal. exact IH.
  - intros v (r & Hr & F)%list_elem_of_omap. exists r. split_and!; [done..|]. intros Hs%(check_rule_none r state). congruence.
  - clearbody rules. clear Hid. induction rules as [|r l IH]; cbn; [done|]. destruct (check_rule r state); cbn in *; lia.
Qed.

(** The concentration limit of an assertion and the observed concentrations take
    no part in the evaluation. *)
Definition with_concentration (c : option float) (r : PolicyRule) : PolicyRule :=
  let a := pr_assertion r in
  {| pr_rule_id := pr_rule_id r; pr_description := pr_description r; pr_severity := pr_severity r;
     pr_assertion := {| pa_minimum_providers := pa_minimum_providers a;
       pa_minimum_reserve_days := pa_minimum_reserve_days a;
       pa_minimum_independent_routes := pa_minimum_independent_routes a;
       pa_minimum_continuity := pa_minimum_continuity a; pa_maximum_single_dependency_concentration := c;
       pa_minimum_trust_score := pa_minimum_trust_score a;
       pa_trust_dimension_thresholds := pa_trust_dimension_thresholds a;
       pa_trust_dimension_required := pa_trust_dimension_required a |} |}.

Lemma concentration_never_checked c r state :
  check_rule (with_concentration c r) state = None ↔ check_rule r state = None.
Proof.
  rewrite !check_rule_none. destruct r as [? ? [] ?]. cbn. split; intros []; split; assumption.
Qed.
