(* ===== verification/Reconcile.v ===== *)
(** * reconcile.py: desired against observed state

    [reconcile] runs one comparison per declared requirement and derives the
    overall status as the worst one.  The theorems give the exact integer
    thresholds of the status ladder (the float quotient never misplaces them)
    and the meaning of the overall status. *)

From Stdlib Require Import ZArith QArith Lqa.
From S2P Require Import Prelude PyFloat FloatError PyFormat Domain.

Open Scope Z_scope.

Inductive ReconciliationStatus :=
| RC_COMPLIANT
| RC_DRIFT
| RC_DEGRADED
| RC_FAIL
| RC_UNKNOWN.

#[export] Instance ReconciliationStatus_eq_dec : EqDecision ReconciliationStatus.
Proof. solve_decision. Defined.

Record ReconciliationCheck := {
  rc_check_id : string;
  rc_description : string;
  rc_desired : string;
  rc_observed : string;
  rc_status : ReconciliationStatus;
  rc_deficit : option string;
  rc_evidence_ids : list string
}.

Record ReconciliationResult := {
  rr_reconciliation_id : string;
  rr_generated_at : datetime;
  rr_overall_status : ReconciliationStatus;
  rr_checks : list ReconciliationCheck;
  rr_compliant_count : Z;
  rr_drift_count : Z;
  rr_degraded_count : Z;
  rr_fail_count : Z;
  rr_unknown_count : Z;
  rr_summary : string
}.

Record DesiredState := {
  ds_satcom_provider_count : option Z;
  ds_fuel_reserve_days : option float;
  ds_medical_reserve_days : option float;
  ds_minimum_routes : option Z;
  ds_minimum_continuity : option float;
  ds_navigation_source_count : option Z;
  ds_observation_source_count : option Z;
  ds_minimum_trust_score : option float;
  ds_custom_checks : dict string float
}.

Record ActualState := {
  as_satcom_provider_count : option Z;
  as_fuel_reserve_days : option float;
  as_medical_reserve_days : option float;
  as_route_count : option Z;
  as_overall_continuity : option float;
  as_navigation_source_count : option Z;
  as_observation_source_count : option Z;
  as_trust_scores : dict string float;
  as_custom_values : dict string float
}.

(** ** Comparisons *)

(** The status of a shortfall. *)
Definition shortfall_status (ratio : float) : ReconciliationStatus :=
  if (ratio >=? lit 0.8)%F then RC_DRIFT else if (ratio >=? lit 0.5)%F then RC_DEGRADED else RC_FAIL.

Definition check (id description desired observed : string) (status : ReconciliationStatus) (deficit : option string)
    : ReconciliationCheck :=
  {| rc_check_id := id; rc_description := description; rc_desired := desired; rc_observed := observed;
     rc_status := status; rc_deficit := deficit; rc_evidence_ids := [] |}.

Definition compare_int (check_id description : string) (desired : Z) (observed : option Z) : res ReconciliationCheck :=
  let want := ">= " +:+ str_Z desired in
  match observed with
  | None => Ok (check check_id description want "unknown" RC_UNKNOWN None)
  | Some observed =>
      if desired <=? observed then Ok (check check_id description want (str_Z observed) RC_COMPLIANT None)
      else
        ratio ← (if 0 <? desired then int_div observed desired else Ok f0);
        Ok (check check_id description want (str_Z observed) (shortfall_status ratio)
              (Some (str_Z (desired - observed) +:+ " below target")))
  end.

Definition compare_float (check_id description : string) (desired : float) (observed : option float) (unit : string)
    : res ReconciliationCheck :=
  let want := str_strip (">= " +:+ str_float desired +:+ " " +:+ unit) in
  match observed with
  | None => Ok (check check_id description want "unknown" RC_UNKNOWN None)
  | Some observed =>
      let got := str_strip (str_float observed +:+ " " +:+ unit) in
      if (observed >=? desired)%F then Ok (check check_id description want got RC_COMPLIANT None)
      else
        ratio ← (if (desired >? f0)%F then fdiv observed desired else Ok f0);
        Ok (check check_id description want got (shortfall_status ratio)
              (Some (str_strip (fmt_fixed 1 (desired - observed)%F +:+ " " +:+ unit +:+ " below target"))))
  end.

(** ** The reconciliation *)

(** [if desired is not None: checks.append(...)] *)
Definition when {A} (desired : option A) (f : A → res ReconciliationCheck) : res (list ReconciliationCheck) :=
  match desired with Some d => c ← f d; Ok [c] | None => Ok [] end.

Definition reconcile_checks (d : DesiredState) (a : ActualState) : res (list ReconciliationCheck) :=
  c1 ← when (ds_satcom_provider_count d) (λ x,
         compare_int "SATCOM_PROVIDER_COUNT" "SATCOM providers must meet redundancy requirement" x (as_satcom_provider_count a));
  c2 ← when (ds_fuel_reserve_days d) (λ x,
         compare_float "FUEL_RESERVE" "Fuel reserve must meet minimum days" x (as_fuel_reserve_days a) "days");
  c3 ← when (ds_medical_reserve_days d) (λ x,
         compare_float "MEDICAL_RESERVE" "Medical reserve must meet minimum days" x (as_medical_reserve_days a) "days");
  c4 ← when (ds_minimum_routes d) (λ x,
         compare_int "ROUTE_COUNT" "Independent routes must meet minimum" x (as_route_count a));
  c5 ← when (ds_minimum_continuity d) (λ x,
         compare_float "OVERALL_CONTINUITY" "Overall continuity must meet target" x (as_overall_continuity a) "ratio");
  c6 ← when (ds_navigation_source_count d) (λ x,
         compare_int "NAVIGATION_SOURCE_COUNT" "Navigation sources must meet minimum" x (as_navigation_source_count a));
  c7 ← when (ds_observation_source_count d) (λ x,
         compare_int "OBSERVATION_SOURCE_COUNT" "Observation sources must meet minimum" x (as_observation_source_count a));
  c8 ← mapM_res (λ kv : string * float,
         compare_float kv.1 ("Custom check: " +:+ kv.1) kv.2 (dget (as_custom_values a) kv.1) "") (ds_custom_checks d);
  Ok (c1 ++ c2 ++ c3 ++ c4 ++ c5 ++ c6 ++ c7 ++ c8).

(** [statuses.count(s)] *)
Definition count_status (s : ReconciliationStatus) (checks : list ReconciliationCheck) : Z :=
  Z.of_nat (length (List.filter (λ c, bool_decide (rc_status c = s)) checks)).

Definition overall (checks : list ReconciliationCheck) : ReconciliationStatus :=
  if 0 <? count_status RC_FAIL checks then RC_FAIL
  else if 0 <? count_status RC_DEGRADED checks then RC_DEGRADED
  else if 0 <? count_status RC_DRIFT checks then RC_DRIFT
  else if 0 <? count_status RC_UNKNOWN checks then RC_UNKNOWN
  else RC_COMPLIANT.

Definition reconcile (id : string) (now : datetime) (d : DesiredState) (a : ActualState) : res ReconciliationResult :=
  checks ← reconcile_checks d a;
  let n s := count_status s checks in
  Ok {| rr_reconciliation_id := id; rr_generated_at := now; rr_overall_status := overall checks; rr_checks := checks;
        rr_compliant_count := n RC_COMPLIANT; rr_drift_count := n RC_DRIFT; rr_degraded_count := n RC_DEGRADED;
        rr_fail_count := n RC_FAIL; rr_unknown_count := n RC_UNKNOWN;
        rr_summary := str_nat (length checks) +:+ " checks: " +:+ str_Z (n RC_COMPLIANT) +:+ " compliant, "
          +:+ str_Z (n RC_DRIFT) +:+ " drift, " +:+ str_Z (n RC_DEGRADED) +:+ " degraded, " +:+ str_Z (n RC_FAIL)
          +:+ " fail, " +:+ str_Z (n RC_UNKNOWN) +:+ " unknown" |}.

(** ** The overall status is the worst one *)

Definition rank (s : ReconciliationStatus) : Z :=
  match s with RC_COMPLIANT => 0 | RC_UNKNOWN => 1 | RC_DRIFT => 2 | RC_DEGRADED => 3 | RC_FAIL => 4 end.

Lemma count_status_pos s checks : 0 < count_status s checks ↔ ∃ c, c ∈ checks ∧ rc_status c = s.
Proof.
  unfold count_status. induction checks as [|c l IH]; cbn.
  - split; [lia|]. by intros (? & ?%elem_of_nil & _).
  - case_bool_decide as E; cbn [length].
    + split; [intros _; exists c; by split; [left|]|lia].
    + rewrite IH. split; intros (x & Hx & Hs); exists x; (split; [|done]); [by right|].
      apply elem_of_cons in Hx as [->|?]; done.
Qed.

Lemma count_status_nonneg s checks : 0 <= count_status s checks.
Proof. unfold count_status. lia. Qed.

Lemma count_status_total checks :
  count_status RC_COMPLIANT checks + count_status RC_DRIFT checks + count_status RC_DEGRADED checks
  + count_status RC_FAIL checks + count_status RC_UNKNOWN checks = Z.of_nat (length checks).
Proof.
  unfold count_status. induction checks as [|c l IH]; [done|]. cbn [List.filter length].
  destruct (rc_status c); cbn [bool_decide decide]; repeat (case_bool_decide; try done); cbn [length]; lia.
Qed.

Lemma overall_worst checks :
  (∀ c, c ∈ checks → rank (rc_status c) <= rank (overall checks)) ∧
  (checks ≠ [] → ∃ c, c ∈ checks ∧ rc_status c = overall checks) ∧ (checks = [] → overall checks = RC_COMPLIANT).
Proof.
  assert (∀ s c, (0 <? count_status s checks) = false → c ∈ checks → rc_status c ≠ s) as Hno.
  { intros s c H%Z.ltb_ge Hc E. assert (0 < count_status s checks) by (apply count_status_pos; eauto). lia. }
  assert (∀ s, (0 <? count_status s checks) = true → ∃ c, c ∈ checks ∧ rc_status c = s) as Hyes
    by (intros s H%Z.ltb_lt; by apply count_status_pos).
  unfold overall. destruct (0 <? count_status RC_FAIL checks) eqn:E1; [split_and!|].
  { intros c _. destruct (rc_status c); cbn; lia. } { auto. } { intros ->. done. }
  destruct (0 <? count_status RC_DEGRADED checks) eqn:E2; [split_and!|].
  { intros c Hc. pose proof (Hno _ c E1 Hc). destruct (rc_status c) eqn:?; cbn; congruence || lia. } { auto. } { intros ->. done. }
  destruct (0 <? count_status RC_DRIFT checks) eqn:E3; [split_and!|].
  { intros c Hc. pose proof (Hno _ c E1 Hc). pose proof (Hno _ c E2 Hc). destruct (rc_status c) eqn:?; cbn; congruence || lia. } { auto. } { intros ->. done. }
  assert (∀ c, c ∈ checks → rc_status c = RC_COMPLIANT ∨ rc_status c = RC_UNKNOWN) as Hc.
  { intros c Hc. pose proof (Hno _ c E1 Hc). pose proof (Hno _ c E2 Hc). pose proof (Hno _ c E3 Hc).
    destruct (rc_status c) eqn:?; auto; congruence. }
  destruct (0 <? count_status RC_UNKNOWN checks) eqn:E4; split_and!; auto.
  - intros c [->| ->]%Hc; cbn; lia.
  - intros ->. done.
  - intros c Hin. pose proof (Hno _ c E4 Hin). destruct (Hc c Hin) as [->|?]; [done|congruence].
  - destruct checks as [|c l]; [done|]. intros _. exists c. split; [by left|].
    pose proof (Hno _ c E4 (list_elem_of_here _ _)). destruct (Hc c); [by left|done|congruence].
Qed.

(** ** The thresholds *)

(** For numbers of this size the rounded quotient is on the same side of the
    threshold as the exact one. *)
Lemma quotient_threshold a b p (t : Q) :
  0 <= a → a < b → b < 2 ^ 45 → (0 < t)%Q → (t < 1)%Q → (t == inject_Z (Z.of_nat p) / 10)%Q →
  ∃ q, int_div a b = Ok (Fin q) ∧ (Fin q >=? lit t)%F = (Z.of_nat p * b <=? 10 * a).
Proof.
  intros Ha Hab Hb Ht0 Ht1 Ht. set (x := (inject_Z a / inject_Z b)%Q).
  assert (0 < inject_Z b)%Q as Pb by (change 0%Q with (inject_Z 0); rewrite <-Zlt_Qlt; lia).
  assert (0 <= inject_Z a)%Q as Pa by (change 0%Q with (inject_Z 0); rewrite <-Zle_Qle; lia).
  assert (0 <= x)%Q as X0 by (unfold x; apply Qle_shift_div_l; [done|lra]).
  assert (x <= 1)%Q as X1.
  { unfold x. apply Qle_shift_div_r; [done|]. rewrite Qmult_1_l, <-Zle_Qle. lia. }
  pose proof (eq_refl : pow2 (0 - 53) = 1 # 9007199254740992)%Q as U. pose proof (eq_refl : pow2 0 = 1)%Q as V.
  destruct (fl_near 0 x) as (q & Hq & Q1 & Q2); [lia|rewrite V; lra..|].
  destruct (fl_near 0 t) as (l & Hl & L1 & L2); [lia|rewrite V; lra..|]. rewrite U in *.
  exists q. split.
  { unfold int_div. rewrite (proj2 (Z.eqb_neq _ _)) by lia. fold x. by rewrite Hq. }
  assert (t * 10 == inject_Z (Z.of_nat p))%Q as Et by (rewrite Ht; field).
  assert (t * inject_Z b * 10 == inject_Z (Z.of_nat p) * inject_Z b)%Q as Etb by (rewrite <-Et; ring).
  unfold lit. rewrite Hl. assert (x * inject_Z b == inject_Z a)%Q as Ex by (unfold x; field; lra).
  destruct (Z.leb_spec (Z.of_nat p * b) (10 * a)) as [H|H].
  - rewrite <-Hl, <-Hq. apply fl_mono. unfold x. apply Qle_shift_div_l; [done|].
    rewrite Zle_Qle, !inject_Z_mult in H. change (inject_Z 10) with 10%Q in H. lra.
  - apply not_true_is_false. rewrite fleb_Fin. intros Hle.
    assert (inject_Z (10 * a + 1) <= inject_Z (Z.of_nat p * b))%Q as H2 by (rewrite <-Zle_Qle; lia).
    rewrite inject_Z_plus, !inject_Z_mult in H2. change (inject_Z 10) with 10%Q in H2. change (inject_Z 1) with 1%Q in H2.
    assert ((t - x) * (10 * inject_Z b) == inject_Z (Z.of_nat p) * inject_Z b - 10 * inject_Z a)%Q as Egap
      by (rewrite <-Et, <-Ex; ring).
    assert (t - x <= 2 * (1 # 9007199254740992))%Q as Hgap by lra.
    assert ((t - x) * (10 * inject_Z b) <= 2 * (1 # 9007199254740992) * (10 * inject_Z b))%Q as M
      by (apply Qmult_le_compat_r; lra).
    assert (inject_Z b <= inject_Z (2 ^ 45))%Q as Bb by (rewrite <-Zle_Qle; lia).
    change (inject_Z (2 ^ 45)) with 35184372088832%Q in Bb. lra.
Qed.

(** The status ladder of an integer requirement has exact thresholds:
    the float quotient the code compares with 0.8 and 0.5 never misplaces them
    (for requirements below 2^45).  A missing observation is UNKNOWN. *)
Theorem compare_int_exact id description desired observed :
  0 < desired < 2 ^ 45 → 0 ≤ observed →
  ∃ c, compare_int id description desired (Some observed) = Ok c ∧
    rc_status c = (if desired <=? observed then RC_COMPLIANT
                   else if 4 * desired <=? 5 * observed then RC_DRIFT
                   else if desired <=? 2 * observed then RC_DEGRADED else RC_FAIL) ∧
    (rc_deficit c = None ↔ desired ≤ observed).
Proof.
  intros Hd Ho. unfold compare_int. destruct (Z.leb_spec desired observed) as [H|H].
  { eexists. split; [reflexivity|]. by cbn. }
  rewrite (proj2 (Z.ltb_lt 0 desired)) by lia.
  destruct (quotient_threshold observed desired 8 0.8) as (q & E & E8); [done|done|lia|reflexivity..|].
  destruct (quotient_threshold observed desired 5 0.5) as (q' & E' & E5); [done|done|lia|reflexivity..|].
  rewrite E in E' |- *. injection E' as <-. cbn [mbind res_bind]. eexists. split; [reflexivity|].
  unfold check. cbn [rc_status rc_deficit]. unfold shortfall_status. rewrite E8, E5.
  split; [|split; [done|lia]].
  destruct (Z.leb_spec (Z.of_nat 8 * desired) (10 * observed)), (Z.leb_spec (4 * desired) (5 * observed)); try lia; [done|].
  destruct (Z.leb_spec (Z.of_nat 5 * desired) (10 * observed)), (Z.leb_spec desired (2 * observed)); try lia; done.
Qed.

(** The overall status is the worst status of the checks (UNKNOWN ranks
    below every measured shortfall), it is COMPLIANT exactly when all of them
    are, and the five counts add up to the number of checks. *)
Theorem reconcile_overall id now d a r :
  reconcile id now d a = Ok r →
  (rr_overall_status r = RC_COMPLIANT ↔ ∀ c, c ∈ rr_checks r → rc_status c = RC_COMPLIANT) ∧
  (rr_overall_status r = RC_FAIL ↔ ∃ c, c ∈ rr_checks r ∧ rc_status c = RC_FAIL) ∧
  (∀ c, c ∈ rr_checks r → rank (rc_status c) ≤ rank (rr_overall_status r)) ∧
  rr_compliant_count r + rr_drift_count r + rr_degraded_count r + rr_fail_count r + rr_unknown_count r
    = Z.of_nat (length (rr_checks r)).
Proof.
  unfold reconcile. intros H. inv_ok. cbn. rename a0 into checks. destruct (overall_worst checks) as (W1 & W2 & W3).
  assert (∀ s t, rank s = rank t → s = t) as Hinj by (by intros [] []).
  split_and!; [split|split|done|apply count_status_total].
  - intros E c Hc. apply W1 in Hc. rewrite E in Hc. destruct (rc_status c) eqn:?; cbn in Hc; done || lia.
  - intros Hall. destruct checks as [|c l]; [by apply W3|]. destruct W2 as (c' & Hc' & E); [done|]. rewrite <-E. auto.
  - intros E. destruct checks as [|c l]; [by rewrite W3 in E|]. destruct W2 as (c' & Hc' & E'); [done|].
    exists c'. split; [done|congruence].
  - intros (c & Hc & E). apply W1 in Hc. rewrite E in Hc. destruct (overall checks); cbn in Hc; done || lia.
Qed.

(** ** Concrete inputs *)

Definition example_desired : DesiredState :=
  {| ds_satcom_provider_count := Some 2; ds_fuel_reserve_days := Some (lit 30); ds_medical_reserve_days := None;
     ds_minimum_routes := Some 10; ds_minimum_continuity := None; ds_navigation_source_count := None;
     ds_observation_source_count := None; ds_minimum_trust_score := Some (lit 0.9);
     ds_custom_checks := [("power/backup_hours", lit 72)] |}.

Definition example_actual : ActualState :=
  {| as_satcom_provider_count := Some 2; as_fuel_reserve_days := Some (lit 20.5); as_medical_reserve_days := None;
     as_route_count := Some 8; as_overall_continuity := None; as_navigation_source_count := None;
     as_observation_source_count := None; as_trust_scores := [("satcom", lit 0.1)]; as_custom_values := [] |}.

Lemma compare_int_exact_witness :
  ∃ c, compare_int "ROUTE_COUNT" "routes" 10 (Some 8) = Ok c ∧ rc_status c = RC_DRIFT.
Proof.
  destruct (compare_int_exact "ROUTE_COUNT" "routes" 10 8) as (c & E & H & _); [lia|lia|].
  exists c. split; [exact E|]. rewrite H. reflexivity.
Defined.

Lemma reconcile_overall_witness :
  ∃ r, reconcile "r" {| dt_us := 0; dt_aware := true |} example_desired example_actual = Ok r ∧
    rr_overall_status r = RC_DEGRADED ∧ rank RC_UNKNOWN ≤ rank (rr_overall_status r).
Proof.
  eexists. split; [vm_compute; reflexivity|]. split; [reflexivity|].
  refine (proj1 (proj2 (proj2 (reconcile_overall "r" {| dt_us := 0; dt_aware := true |} example_desired example_actual _ _)))
    (check "power/backup_hours" "Custom check: power/backup_hours" ">= 72.0" "unknown" RC_UNKNOWN None) _).
  - vm_compute. reflexivity.
  - do 3 right. left.
Defined.

(** The declared trust score and the observed ones take no part. *)
Lemma trust_requirement_ignored d a (m : option float) (scores : dict string float) :
  reconcile_checks
    {| ds_satcom_provider_count := ds_satcom_provider_count d; ds_fuel_reserve_days := ds_fuel_reserve_days d;
       ds_medical_reserve_days := ds_medical_reserve_days d; ds_minimum_routes := ds_minimum_routes d;
       ds_minimum_continuity := ds_minimum_continuity d; ds_navigation_source_count := ds_navigation_source_count d;
       ds_observation_source_count := ds_observation_source_count d; ds_minimum_trust_score := m;
       ds_custom_checks := ds_custom_checks d |}
    {| as_satcom_provider_count := as_satcom_provider_count a; as_fuel_reserve_days := as_fuel_reserve_days a;
       as_medical_reserve_days := as_medical_reserve_days a; as_route_count := as_route_count a;
       as_overall_continuity := as_overall_continuity a; as_navigation_source_count := as_navigation_source_count a;
       as_observation_source_count := as_observation_source_count a; as_trust_scores := scores;
       as_custom_values := as_custom_values a |} = reconcile_checks d a.
Proof. reflexivity. Qed.
