(* ===== verification/Remediation.v ===== *)
(** * remediation.py: advisory remediation options

    The template table, the options generated for one failing check, and the
    plan: options sorted by priority and then by improvement (largest first). *)

From Stdlib Require Import ZArith QArith Lqa.
From S2P Require Import Prelude PyFloat FloatError PyFormat Domain Reconcile.

Open Scope Z_scope.

Record RemediationOption := {
  ro_option_id : string;
  ro_name : string;
  ro_description : string;
  ro_addresses_check : string;
  ro_improvement : float;
  ro_cost : option float;
  ro_dependency_changes : list string;
  ro_constraints : list string;
  ro_confidence : float;
  ro_requires_human_approval : bool;
  ro_priority : Z
}.

Definition new_RemediationOption (o : RemediationOption) : res RemediationOption :=
  _ ← require ((1 <=? str_len (ro_name o)) && (str_len (ro_name o) <=? 256)) "name";
  _ ← require ((1 <=? str_len (ro_description o)) && (str_len (ro_description o) <=? 1024)) "description";
  _ ← require (is_score (ro_improvement o)) "estimated_continuity_improvement";
  _ ← require (is_score (ro_confidence o)) "confidence";
  _ ← require ((1 <=? ro_priority o) && (ro_priority o <=? 5)) "priority";
  Ok o.

Record RemediationPlan := {
  rp_plan_id : string;
  rp_options : list RemediationOption;
  rp_total_estimated_improvement : float;
  rp_advisory_notice : string;
  rp_summary : string
}.

Definition new_RemediationPlan (p : RemediationPlan) : res RemediationPlan :=
  _ ← require (is_score (rp_total_estimated_improvement p)) "total_estimated_improvement"; Ok p.

Record template := { t_name : string; t_description : string; t_improvement : float; t_priority : Z }.

Definition tmpl (name description : string) (improvement : float) (priority : Z) : template :=
  {| t_name := name; t_description := description; t_improvement := improvement; t_priority := priority |}.

(** [_REMEDIATION_TEMPLATES] *)
Definition REMEDIATION_TEMPLATES : dict string (list template) :=
  [("SATCOM_PROVIDER_COUNT",
     [tmpl "Add second SATCOM provider"
        "Contract an independent satellite communications provider to eliminate single-provider dependency" (lit 0.15) 1;
      tmpl "Deploy backup HF radio" "Install HF radio as independent communications fallback" (lit 0.08) 2]);
   ("FUEL_RESERVE",
     [tmpl "Emergency fuel resupply" "Schedule priority fuel delivery via available route" (lit 0.12) 1;
      tmpl "Reduce non-essential fuel consumption" "Implement fuel conservation measures to extend reserves" (lit 0.06) 2]);
   ("MEDICAL_RESERVE",
     [tmpl "Emergency medical resupply" "Schedule priority medical supply delivery" (lit 0.10) 1]);
   ("ROUTE_COUNT",
     [tmpl "Activate alternate route" "Open secondary supply route through alternate corridor" (lit 0.15) 1;
      tmpl "Pre-position critical supplies" "Forward-deploy critical inventory to reduce route dependency" (lit 0.08) 2]);
   ("NAVIGATION_SOURCE_COUNT",
     [tmpl "Add independent navigation source" "Deploy additional GNSS/PNT receiver or inertial navigation backup" (lit 0.10) 1]);
   ("OVERALL_CONTINUITY",
     [tmpl "Reduce dependency concentration" "Diversify critical service providers across independent vendors" (lit 0.10) 1;
      tmpl "Increase reserve inventory" "Build additional strategic reserves for critical commodities" (lit 0.08) 2;
      tmpl "Add second communications provider" "Contract independent backup communications service" (lit 0.12) 1])].

Section options.
Context (new_id : nat → string).

(** [_generate_options_for_check]; [n] numbers the identifiers that are drawn. *)
Definition option_of (n : nat) (c : ReconciliationCheck) (name description : string) (improvement confidence : float)
    (priority : Z) : res RemediationOption :=
  new_RemediationOption
    {| ro_option_id := new_id n; ro_name := name; ro_description := description; ro_addresses_check := rc_check_id c;
       ro_improvement := improvement; ro_cost := None; ro_dependency_changes := []; ro_constraints := [];
       ro_confidence := confidence; ro_requires_human_approval := true; ro_priority := priority |}.

Definition generate_options_for_check (n : nat) (c : ReconciliationCheck) : res (list RemediationOption) :=
  match dget_default REMEDIATION_TEMPLATES (rc_check_id c) [] with
  | [] =>
      o ← option_of n c ("Address " +:+ rc_check_id c)
            (str_strip ("Remediate: " +:+ rc_description c +:+ ". " +:+ default "" (rc_deficit c)))
            (lit 0.05) (lit 0.3) 3;
      Ok [o]
  | templates =>
      mapM_res (λ t, option_of n c (t_name t) (t_description t) (t_improvement t) (lit 0.5) (t_priority t)) templates
  end.

Definition options_step (acc : list RemediationOption) (c : ReconciliationCheck) : res (list RemediationOption) :=
  match rc_status c with
  | RC_COMPLIANT => Ok acc
  | _ => os ← generate_options_for_check (length acc) c; Ok (acc ++ os)
  end.
End options.

(** [(o.priority, -o.estimated_continuity_improvement)] in lexicographic order. *)
Definition option_leb (a b : RemediationOption) : bool :=
  if ro_priority a =? ro_priority b then (fneg (ro_improvement a) <=? fneg (ro_improvement b))%F
  else ro_priority a <? ro_priority b.

Definition advisory_notice : string :=
  "All remediation options are advisory. Human review and approval is required before any action is taken. "
  +:+ "ContinuityOS does not automatically execute remediation actions.".

Definition generate_remediation (new_id : nat → string) (plan_id : string) (reconciliation : ReconciliationResult)
    : res RemediationPlan :=
  options ← foldM (options_step new_id) [] (rr_checks reconciliation);
  let options := sort_by option_leb options in
  let total_improvement := fmin f1 (fsum (ro_improvement <$> options)) in
  let failed := List.filter (λ c, bool_decide (rc_status c = RC_FAIL)) (rr_checks reconciliation) in
  let summary_parts :=
    [str_nat (length options) +:+ " remediation options generated"]
    ++ match options with [] => [] | _ => ["estimated total improvement: " +:+ fmt_percent 1 total_improvement] end
    ++ match failed with [] => [] | _ => [str_nat (length failed) +:+ " critical failures addressed"] end in
  new_RemediationPlan
    {| rp_plan_id := plan_id; rp_options := options;
       rp_total_estimated_improvement := fround 6 total_improvement;
       rp_advisory_notice := advisory_notice; rp_summary := str_join "; " summary_parts |}.

(** ** The options of a check *)

(** A check whose texts fit the bounds of the option model. *)
Definition check_fits (c : ReconciliationCheck) : bool :=
  (str_len (rc_check_id c) <=? 248)
  && (str_len (str_strip ("Remediate: " +:+ rc_description c +:+ ". " +:+ default "" (rc_deficit c))) <=? 1024)
  && (1 <=? str_len (str_strip ("Remediate: " +:+ rc_description c +:+ ". " +:+ default "" (rc_deficit c)))).

Lemma str_len_app s t : str_len (s +:+ t) = str_len s + str_len t.
Proof.
  induction s as [|c s IH]; [done|]. change (str_len (String c s +:+ t)) with (str_len (String c (s +:+ t))).
  cbn [str_len]. rewrite IH. lia.
Qed.

Lemma str_len_nonneg s : 0 <= str_len s.
Proof. induction s as [|c s IH]; cbn [str_len]; [lia|]. case_match; lia. Qed.

Definition option_sound (c : ReconciliationCheck) (o : RemediationOption) : Prop :=
  ro_addresses_check o = rc_check_id c ∧ ro_requires_human_approval o = true ∧ coarse (ro_improvement o).

Lemma new_RemediationOption_ok o o' : new_RemediationOption o = Ok o' → o' = o.
Proof. unfold new_RemediationOption. intros H. inv_ok. done. Qed.

Lemma templates_ok ts id : dget REMEDIATION_TEMPLATES id = Some ts → ts ≠ [] ∧
  Forall (λ t, coarse (t_improvement t) ∧ is_score (t_improvement t) = true ∧
    ((1 <=? str_len (t_name t)) && (str_len (t_name t) <=? 256)) = true ∧
    ((1 <=? str_len (t_description t)) && (str_len (t_description t) <=? 1024)) = true ∧
    ((1 <=? t_priority t) && (t_priority t <=? 5)) = true) ts.
Proof.
  assert (∀ q, Qle_bool (pow2 (-900)) q = true → Qle_bool q 1 = true → coarse (Fin q)) as Hco.
  { intros q H1%Qle_bool_iff H2%Qle_bool_iff. exists q. split_and!; [done|by right|done]. }
  intros Hin%dget_elem. unfold REMEDIATION_TEMPLATES in Hin.
  repeat (apply elem_of_cons in Hin as [[= _ ->]|Hin]; [split; [done|]; repeat (apply Forall_cons; split;
    [split; [match goal with |- coarse (t_improvement (tmpl _ _ ?v _)) =>
       let w := eval vm_compute in v in change (coarse w); apply Hco; vm_compute; reflexivity end|
       split_and!; vm_compute; reflexivity]|]); apply Forall_nil; exact I|]).
  by apply elem_of_nil in Hin.
Qed.

Lemma Forall2_all {A B} (P : B → Prop) (Q : A → B → Prop) l ys :
  Forall2 Q l ys → (∀ x y, x ∈ l → Q x y → P y) → Forall P ys.
Proof.
  induction 1 as [|x y l ys Hxy H IH]; intros HP; constructor; [apply (HP x); [by left|done]|].
  apply IH. intros x' y' ?. apply HP. by right.
Qed.

Lemma generate_options_sound new_id n c os :
  generate_options_for_check new_id n c = Ok os → os ≠ [] ∧ Forall (option_sound c) os.
Proof.
  unfold generate_options_for_check, dget_default.
  assert (coarse (lit 0.05)) as H05.
  { eexists. split; [vm_compute; reflexivity|]. split; [right|]; apply Qle_bool_iff; vm_compute; reflexivity. }
  assert (∀ os, (o ← option_of new_id n c ("Address " +:+ rc_check_id c)
            (str_strip ("Remediate: " +:+ rc_description c +:+ ". " +:+ default "" (rc_deficit c))) (lit 0.05) (lit 0.3) 3;
      Ok [o]) = Ok os → os ≠ [] ∧ Forall (option_sound c) os) as Hgen.
  { intros os' H. inv_ok. apply new_RemediationOption_ok in H0 as ->. split; [done|]. repeat constructor; done. }
  destruct (dget REMEDIATION_TEMPLATES (rc_check_id c)) as [ts|] eqn:E; [|apply Hgen].
  apply templates_ok in E as [Hne Hts]. destruct ts as [|t ts]; [done|]. intros Hm%mapM_res_Forall2.
  split; [by inversion Hm|]. eapply Forall2_all; [exact Hm|]. intros t' o Hin Ho.
  apply new_RemediationOption_ok in Ho as ->. rewrite Forall_forall in Hts. destruct (Hts t' Hin) as [? _]. done.
Qed.

Lemma generate_options_total new_id n c : check_fits c = true → ∃ os, generate_options_for_check new_id n c = Ok os.
Proof.
  unfold check_fits. intros [[H1 H2]%andb_prop H3]%andb_prop. unfold generate_options_for_check, dget_default.
  assert (∃ os, (o ← option_of new_id n c ("Address " +:+ rc_check_id c)
            (str_strip ("Remediate: " +:+ rc_description c +:+ ". " +:+ default "" (rc_deficit c))) (lit 0.05) (lit 0.3) 3;
      Ok [o]) = Ok os) as Hgen.
  { unfold option_of, new_RemediationOption. cbn [ro_name ro_description ro_improvement ro_confidence ro_priority].
    rewrite str_len_app, H2, H3. change (str_len "Address ") with 8. pose proof (str_len_nonneg (rc_check_id c)).
    apply Z.leb_le in H1. rewrite (proj2 (Z.leb_le 1 (8 + str_len (rc_check_id c)))), (proj2 (Z.leb_le _ 256)) by lia.
    change (is_score (lit 0.05)) with true. change (is_score (lit 0.3)) with true. cbn. eauto. }
  destruct (dget REMEDIATION_TEMPLATES (rc_check_id c)) as [ts|] eqn:E; [|apply Hgen].
  apply templates_ok in E as [_ Hts]. destruct ts as [|t ts]; [apply Hgen|].
  induction Hts as [|t' ts' (_ & S1 & S2 & S3 & S4) Hts IH]; cbn [mapM_res]; [eauto|].
  assert (∃ o, option_of new_id n c (t_name t') (t_description t') (t_improvement t') (lit 0.5) (t_priority t') = Ok o)
    as [o Eo].
  { unfold option_of, new_RemediationOption. cbn [ro_name ro_description ro_improvement ro_confidence ro_priority].
    rewrite S1, S2, S3, S4. change (is_score (lit 0.5)) with true. cbn. eauto. }
  cbn beta. rewrite Eo. destruct IH as [os ->]. cbn. eauto.
Qed.

(** The options collected so far answer the non-compliant checks seen so far. *)
Lemma options_fold new_id cs acc os :
  foldM (options_step new_id) acc cs = Ok os →
  (∀ o, o ∈ acc → o ∈ os) ∧
  (∀ c, c ∈ cs → rc_status c ≠ RC_COMPLIANT → ∃ o, o ∈ os ∧ option_sound c o) ∧
  (∀ o, o ∈ os → o ∈ acc ∨ ∃ c, c ∈ cs ∧ rc_status c ≠ RC_COMPLIANT ∧ option_sound c o).
Proof.
  revert acc. induction cs as [|c cs IH]; intros acc; cbn [foldM].
  { intros [= ->]. split_and!; [done|by intros ? ?%elem_of_nil|by left]. }
  intros H. inv_ok. rename a into acc'. apply IH in H1 as (K1 & K2 & K3).
  assert (acc' = acc ∧ rc_status c = RC_COMPLIANT ∨
    ∃ new, acc' = acc ++ new ∧ rc_status c ≠ RC_COMPLIANT ∧ new ≠ [] ∧ Forall (option_sound c) new) as Hstep.
  { unfold options_step in H0. destruct (rc_status c) eqn:E; [left; by injection H0 as <-|..];
      right; apply bind_ok in H0 as (new & Hn & [= <-]); exists new;
      apply generate_options_sound in Hn as [? ?]; by split_and!. }
  destruct Hstep as [[-> Ec]|(new & -> & Ec & Hne & Hnew)].
  - split_and!; [done| |].
    + intros c' [->|?]%elem_of_cons ?; [done|by apply K2].
    + intros o [?|(c' & ? & ? & ?)]%K3; [by left|right; exists c'; split_and!; [by right|done..]].
  - rewrite Forall_forall in Hnew. split_and!.
    + intros o ?. apply K1, elem_of_app. by left.
    + intros c' [->|?]%elem_of_cons ?; [|by apply K2]. destruct new as [|o new]; [done|].
      exists o. split; [apply K1, elem_of_app; right; by left|apply Hnew; by left].
    + intros o [[?|?]%elem_of_app|(c' & ? & ? & ?)]%K3; [by left|right; exists c; split_and!; [by left|done|auto]|].
      right. exists c'. split_and!; [by right|done..].
Qed.

(** The remediation plan is complete and advisory: every check that is
    not compliant is addressed by at least one option, every option addresses
    such a check and requires human approval, and the options are in order of
    priority. *)
Theorem remediation_covers new_id plan_id r p :
  generate_remediation new_id plan_id r = Ok p →
  (∀ c, c ∈ rr_checks r → rc_status c ≠ RC_COMPLIANT →
     ∃ o, o ∈ rp_options p ∧ ro_addresses_check o = rc_check_id c) ∧
  (∀ o, o ∈ rp_options p → ro_requires_human_approval o = true ∧
     ∃ c, c ∈ rr_checks r ∧ rc_status c ≠ RC_COMPLIANT ∧ ro_addresses_check o = rc_check_id c) ∧
  StronglySorted (λ a b, ro_priority a ≤ ro_priority b) (rp_options p).
Proof.
  unfold generate_remediation, new_RemediationPlan. intros H. inv_ok. cbn [rp_options].
  apply options_fold in H0 as (_ & K2 & K3). split_and!.
  - intros c Hc Hs. destruct (K2 c Hc Hs) as (o & Ho & E & _). exists o. by rewrite elem_of_sort_by.
  - intros o Ho. rewrite elem_of_sort_by in Ho. destruct (K3 o Ho) as [?%elem_of_nil|(c & ? & ? & ? & ? & _)]; [done|].
    split; [done|]. by exists c.
  - apply sort_by_rel; [..|lia].
    + intros x y. unfold option_leb. destruct (Z.eqb_spec (ro_priority x) (ro_priority y)); [lia|]. intros ?%Z.ltb_lt. lia.
    + intros x y. unfold option_leb. destruct (Z.eqb_spec (ro_priority x) (ro_priority y)); [lia|]. intros ?%Z.ltb_ge. lia.
Qed.

Lemma options_total new_id cs acc :
  (∀ c, c ∈ cs → check_fits c = true) → ∃ os, foldM (options_step new_id) acc cs = Ok os.
Proof.
  revert acc. induction cs as [|c cs IH]; intros acc Hc; cbn [foldM]; [eauto|].
  destruct (generate_options_total new_id (length acc) c) as [os Eos]; [apply Hc; by left|].
  assert (∃ acc', options_step new_id acc c = Ok acc') as [acc' ->].
  { unfold options_step. destruct (rc_status c); [eauto|..]; rewrite Eos; cbn; eauto. }
  cbn [mbind res_bind]. apply IH. intros. apply Hc. by right.
Qed.

(** A plan is always produced when the checks' texts fit the bounds of
    the option model (a check identifier of at most 248 characters): the capped
    and rounded total improvement is a score. *)
Theorem remediation_total new_id plan_id r :
  (∀ c, c ∈ rr_checks r → check_fits c = true) →
  (∀ os, foldM (options_step new_id) [] (rr_checks r) = Ok os → Z.of_nat (length os) ≤ 2 ^ 30) →
  ∃ p, generate_remediation new_id plan_id r = Ok p ∧ is_score (rp_total_estimated_improvement p) = true.
Proof.
  intros Hfit Hlen. destruct (options_total new_id (rr_checks r) [] Hfit) as [os E]. specialize (Hlen os E).
  unfold generate_remediation. rewrite E. cbn [mbind res_bind].
  assert (is_score (fround 6 (fmin f1 (fsum (ro_improvement <$> sort_by option_leb os)))) = true) as Hs.
  { apply score_round, score_min1. apply fltb_irrefl_le, fsum_coarse_nonneg.
    - rewrite (sort_by_perm option_leb os). apply Forall_fmap, Forall_forall. intros o Ho.
      apply options_fold in E as (_ & _ & K3). by destruct (K3 o Ho) as [?%elem_of_nil|(c & _ & _ & _ & _ & ?)].
    - by rewrite length_fmap, sort_by_length. }
  unfold new_RemediationPlan. cbn [rp_total_estimated_improvement]. rewrite Hs. eexists. split; [reflexivity|exact Hs].
Qed.

(** ** Concrete inputs *)

Definition example_result (checks : list ReconciliationCheck) : ReconciliationResult :=
  {| rr_reconciliation_id := "r"; rr_generated_at := {| dt_us := 0; dt_aware := true |}; rr_overall_status := overall checks;
     rr_checks := checks; rr_compliant_count := 0; rr_drift_count := 0; rr_degraded_count := 0; rr_fail_count := 0;
     rr_unknown_count := 0; rr_summary := "" |}.

Definition example_checks : list ReconciliationCheck :=
  [check "power/backup_hours" "Custom check: power/backup_hours" ">= 72.0" "10.0" RC_FAIL (Some "62.0 below target");
   check "FUEL_RESERVE" "Fuel reserve must meet minimum days" ">= 30.0 days" "20.5 days" RC_DEGRADED None;
   check "ROUTE_COUNT" "Independent routes must meet minimum" ">= 2" "2" RC_COMPLIANT None].

Lemma remediation_covers_witness :
  ∃ p, generate_remediation str_nat "p" (example_result example_checks) = Ok p ∧
    ∃ o, o ∈ rp_options p ∧ ro_addresses_check o = "power/backup_hours".
Proof.
  eexists. split; [vm_compute; reflexivity|].
  refine (proj1 (remediation_covers str_nat "p" (example_result example_checks) _ _)
    (check "power/backup_hours" "Custom check: power/backup_hours" ">= 72.0" "10.0" RC_FAIL (Some "62.0 below target")) _ _);
    [vm_compute; reflexivity|left|discriminate].
Defined.

Lemma remediation_total_witness :
  ∃ p, generate_remediation str_nat "p" (example_result example_checks) = Ok p.
Proof.
  destruct (remediation_total str_nat "p" (example_result example_checks)) as (p & E & _).
  - apply Forall_forall. repeat (apply Forall_cons; split; [vm_compute; reflexivity|]). apply Forall_nil. exact I.
  - intros os E. vm_compute in E. injection E as <-. vm_compute. discriminate.
  - exists p. exact E.
Defined.
