(* ===== verification/Inventory.v ===== *)
(** * inventory.py: day-by-day depletion of a strategic reserve

    The loop over the days is a fold of [day_step] over [range(simulation_days)].
    The theorems relate its bookkeeping to the trajectory [quantity_on], the
    quantity at the end of each day defined by recursion on the day. *)

From Stdlib Require Import ZArith QArith Lqa.
From S2P Require Import Prelude PyFloat FloatError PyFormat Domain.

Open Scope Z_scope.

Record InventoryProfile := {
  ip_resource_id : string;
  ip_name : string;
  ip_starting_quantity : float;
  ip_unit : string;
  ip_normal_consumption : float;
  ip_degraded_consumption : option float;
  ip_emergency_consumption : option float;
  ip_replenishment : float;
  ip_replenishment_delay : Z;
  ip_shipment_delay : Z;
  ip_route_capacity_factor : float;
  ip_substitution_factor : float;
  ip_minimum_reserve : float;
  ip_critical_threshold : float;
  ip_warning_threshold : option float;
  ip_storage_limit : option float;
  ip_alternate_rate : float;
  ip_alternate_delay : Z
}.

(** The constraints of the class (names and lengths aside). *)
Definition InventoryProfile_valid (p : InventoryProfile) : bool :=
  (f0 <? ip_starting_quantity p)%F && (f0 <? ip_normal_consumption p)%F && (f0 <=? ip_replenishment p)%F
  && (0 <=? ip_replenishment_delay p) && (ip_replenishment_delay p <=? 365)
  && (0 <=? ip_shipment_delay p) && (ip_shipment_delay p <=? 365)
  && is_score (ip_route_capacity_factor p) && is_score (ip_substitution_factor p)
  && (f0 <=? ip_minimum_reserve p)%F && (f0 <=? ip_critical_threshold p)%F
  && (f0 <=? ip_alternate_rate p)%F && (0 <=? ip_alternate_delay p) && (ip_alternate_delay p <=? 365).

Record InventoryDay := {
  id_day : Z;
  id_quantity : float;
  id_consumption : float;
  id_replenishment : float;
  id_status : string
}.

Record InventoryResult := {
  ir_resource_id : string;
  ir_name : string;
  ir_starting_quantity : float;
  ir_unit : string;
  ir_days_to_warning : option Z;
  ir_days_to_critical : option Z;
  ir_days_to_exhaustion : option Z;
  ir_days_to_replenishment : option Z;
  ir_minimum_inventory : float;
  ir_time_to_restore_reserve : option Z;
  ir_assured_replenishment_days : Z;
  ir_final_quantity : float;
  ir_final_status : string;
  ir_daily_log : list InventoryDay;
  ir_summary : string
}.

Section simulation.
Context (p : InventoryProfile) (simulation_days : nat) (degraded emergency disrupted : bool).

Definition consumption_rate : float :=
  match (if emergency then ip_emergency_consumption p else None) with
  | Some r => r
  | None => match (if degraded then ip_degraded_consumption p else None) with
            | Some r => r
            | None => ip_normal_consumption p
            end
  end.

Definition warning_threshold : float :=
  match ip_warning_threshold p with Some w => w | None => (ip_minimum_reserve p * lit 1.5)%F end.

Definition replenishment_start : Z := ip_replenishment_delay p + ip_shipment_delay p.

Definition assured_replenishment_days : Z :=
  if negb disrupted && (ip_replenishment p >? f0)%F then replenishment_start
  else if (ip_alternate_rate p >? f0)%F then ip_alternate_delay p
  else Z.of_nat simulation_days.

Definition replenishment_on (day : Z) : float :=
  let r := if negb disrupted && (replenishment_start <=? day) && (ip_replenishment p >? f0)%F
           then (f0 + ip_replenishment p * ip_route_capacity_factor p)%F else f0 in
  if disrupted && (ip_alternate_rate p >? f0)%F && (ip_alternate_delay p <=? day)
  then (r + ip_alternate_rate p)%F else r.

Definition effective_consumption : float := (consumption_rate * (f1 - ip_substitution_factor p))%F.

(** The quantity at the end of a day. *)
Definition next_quantity (quantity replenishment : float) : float :=
  let q := (quantity - effective_consumption + replenishment)%F in
  let q := match ip_storage_limit p with Some limit => fmin q limit | None => q end in
  fmax f0 q.

Definition status_of (quantity : float) : string :=
  if (quantity <=? f0)%F then "exhausted"
  else if (quantity <=? ip_critical_threshold p)%F then "critical"
  else if (quantity <=? warning_threshold)%F then "warning"
  else "normal".

Record sim_state := {
  si_quantity : float;
  si_warning : option Z;
  si_critical : option Z;
  si_exhaustion : option Z;
  si_replenishment : option Z;
  si_minimum : float;
  si_restored : option Z;
  si_dropped : bool;
  si_log : list InventoryDay
}.

(** [if x is None and test: x = day] *)
Definition first_time (x : option Z) (test : bool) (day : Z) : option Z :=
  match x with None => if test then Some day else None | Some _ => x end.

Definition day_step (s : sim_state) (day : nat) : sim_state :=
  let day := Z.of_nat day in
  let replenishment := replenishment_on day in
  let quantity := next_quantity (si_quantity s) replenishment in
  let below := (quantity <? ip_minimum_reserve p)%F in
  {| si_quantity := quantity;
     si_warning := first_time (si_warning s) (quantity <=? warning_threshold)%F day;
     si_critical := first_time (si_critical s) (quantity <=? ip_critical_threshold p)%F day;
     si_exhaustion := first_time (si_exhaustion s) (quantity <=? f0)%F day;
     si_replenishment := first_time (si_replenishment s) (replenishment >? f0)%F day;
     si_minimum := if (quantity <? si_minimum s)%F then quantity else si_minimum s;
     si_restored :=
       if below then si_restored s
       else first_time (si_restored s) (si_dropped s && (quantity >=? ip_minimum_reserve p)%F) day;
     si_dropped := si_dropped s || below;
     si_log := si_log s ++
       [{| id_day := day; id_quantity := fround 2 quantity; id_consumption := fround 2 effective_consumption;
           id_replenishment := fround 2 replenishment; id_status := status_of quantity |}] |}.

Definition initial_sim : sim_state :=
  {| si_quantity := ip_starting_quantity p; si_warning := None; si_critical := None; si_exhaustion := None;
     si_replenishment := None; si_minimum := ip_starting_quantity p; si_restored := None;
     si_dropped := (ip_starting_quantity p <? ip_minimum_reserve p)%F; si_log := [] |}.

Definition run (days : nat) : sim_state := foldl day_step initial_sim (seq 0 days).

Definition day_part (text : string) (d : option Z) : list string :=
  match d with Some d => [text +:+ str_Z d] | None => [] end.

Definition simulate_inventory : InventoryResult :=
  let s := run simulation_days in
  let final :=
    match last (si_log s) with
    | Some d => d
    | None => {| id_day := 0; id_quantity := si_quantity s; id_consumption := f0; id_replenishment := f0;
                 id_status := "normal" |}
    end in
  let parts :=
    [ip_name p +:+ ": " +:+ fmt_comma0 (ip_starting_quantity p) +:+ " " +:+ ip_unit p;
     "consumption: " +:+ fmt_comma0 consumption_rate +:+ "/" +:+ ip_unit p +:+ "/day";
     "assured replenishment: " +:+ str_Z assured_replenishment_days +:+ " days"]
    ++ day_part "warning at day " (si_warning s) ++ day_part "critical at day " (si_critical s)
    ++ match si_exhaustion s with
       | Some d => ["exhausted at day " +:+ str_Z d]
       | None => ["remaining after " +:+ str_nat simulation_days +:+ " days: " +:+ fmt_comma0 (id_quantity final)]
       end
    ++ day_part "reserve restored at day " (si_restored s) in
  {| ir_resource_id := ip_resource_id p; ir_name := ip_name p; ir_starting_quantity := ip_starting_quantity p;
     ir_unit := ip_unit p; ir_days_to_warning := si_warning s; ir_days_to_critical := si_critical s;
     ir_days_to_exhaustion := si_exhaustion s; ir_days_to_replenishment := si_replenishment s;
     ir_minimum_inventory := fround 2 (si_minimum s); ir_time_to_restore_reserve := si_restored s;
     ir_assured_replenishment_days := assured_replenishment_days;
     ir_final_quantity := fround 2 (id_quantity final); ir_final_status := id_status final;
     ir_daily_log := si_log s; ir_summary := str_join "; " parts |}.

(** ** The trajectory *)

(** The quantity before day [n], i.e. at the end of day [n - 1]. *)
Fixpoint quantity_on (n : nat) : float :=
  match n with
  | O => ip_starting_quantity p
  | S d => next_quantity (quantity_on d) (replenishment_on (Z.of_nat d))
  end.

(** [o] is the first day below [n] on which the test holds. *)
Definition is_first (test : nat → bool) (n : nat) (o : option Z) : Prop :=
  match o with
  | Some d => ∃ k, d = Z.of_nat k ∧ (k < n)%nat ∧ test k = true ∧ ∀ j, (j < k)%nat → test j = false
  | None => ∀ j, (j < n)%nat → test j = false
  end.

Lemma is_first_step test n o :
  is_first test n o → is_first test (S n) (first_time o (test n) (Z.of_nat n)).
Proof using.
  destruct o as [d|]; cbn.
  - intros (k & -> & Hk & Ht & Hj). exists k. split_and!; [done|lia|done|done].
  - intros H. destruct (test n) eqn:E; cbn.
    + exists n. split_and!; [done|lia|done|done].
    + intros j Hj. destruct (decide (j = n)) as [->|]; [done|]. apply H. lia.
Qed.

Lemma run_S n : run (S n) = day_step (run n) n.
Proof using. unfold run. rewrite seq_S, foldl_app. done. Qed.

Definition end_of_day (test : float → bool) (d : nat) : bool := test (quantity_on (S d)).

(** The quantity after [d] days is below the reserve. *)
Definition below (d : nat) : bool := (quantity_on d <? ip_minimum_reserve p)%F.

(** By the start of day [d] the reserve has been broken, and at its end the
    quantity is back at the reserve. *)
Definition restored (d : nat) : bool :=
  existsb below (seq 0 (S d)) && (quantity_on (S d) >=? ip_minimum_reserve p)%F.

(** [m] is a least quantity of the trajectory up to day [n]. *)
Definition is_minimum (n : nat) (m : float) : Prop :=
  m ≠ NaN ∧ (∃ d, (d <= n)%nat ∧ m = quantity_on d) ∧ ∀ d, (d <= n)%nat → (m <=? quantity_on d)%F = true.

Lemma quantity_not_NaN n : ip_starting_quantity p ≠ NaN → quantity_on n ≠ NaN.
Proof using.
  intros H. destruct n as [|n]; [done|]. cbn [quantity_on]. unfold next_quantity.
  match goal with |- fmax f0 ?x ≠ NaN => generalize x end. intros x. unfold fmax.
  destruct (fltb f0 x) eqn:E; [|done]. by intros ->.
Qed.

Lemma is_minimum_step n m :
  ip_starting_quantity p ≠ NaN → is_minimum n m →
  is_minimum (S n) (if (quantity_on (S n) <? m)%F then quantity_on (S n) else m).
Proof using.
  intros Hnan (Hm & (d & Hd & E) & Hmin). pose proof (quantity_not_NaN (S n) Hnan) as Hq.
  destruct (quantity_on (S n) <? m)%F eqn:Hlt; split_and!; try done; eauto with lia.
  - intros k Hk. destruct (decide (k = S n)) as [->|]; [by apply fleb_refl|].
    eapply fleb_trans; [by apply fltb_fleb|]. apply Hmin. lia.
  - intros k Hk. destruct (decide (k = S n)) as [->|]; [|apply Hmin; lia].
    rewrite fltb_negb in Hlt by done. by apply negb_false_iff in Hlt.
Qed.

Record run_spec (n : nat) (s : sim_state) : Prop := {
  run_quantity : si_quantity s = quantity_on n;
  run_warning : is_first (end_of_day (λ q, q <=? warning_threshold)%F) n (si_warning s);
  run_critical : is_first (end_of_day (λ q, q <=? ip_critical_threshold p)%F) n (si_critical s);
  run_exhaustion : is_first (end_of_day (λ q, q <=? f0)%F) n (si_exhaustion s);
  run_replenishment : is_first (λ d, replenishment_on (Z.of_nat d) >? f0)%F n (si_replenishment s);
  run_dropped : si_dropped s = existsb below (seq 0 (S n));
  run_restored : is_first restored n (si_restored s);
  run_minimum : ip_starting_quantity p ≠ NaN → is_minimum n (si_minimum s);
  run_log : si_log s = (λ d, {| id_day := Z.of_nat d; id_quantity := fround 2 (quantity_on (S d));
      id_consumption := fround 2 effective_consumption; id_replenishment := fround 2 (replenishment_on (Z.of_nat d));
      id_status := status_of (quantity_on (S d)) |}) <$> seq 0 n
}.

Lemma run_ok n : run_spec n (run n).
Proof using.
  induction n as [|n [Q W C E R D T M L]].
  { split; try done; try (intros j Hj; lia); cbn.
    - by rewrite orb_false_r.
    - intros Hn. split_and!; [done|by exists 0%nat|]. intros d Hd. replace d with 0%nat by lia. by apply fleb_refl. }
  rewrite run_S. unfold day_step. rewrite Q, D. split; cbn [si_quantity si_warning si_critical si_exhaustion
    si_replenishment si_dropped si_restored si_minimum si_log].
  - done.
  - exact (is_first_step _ n _ W).
  - exact (is_first_step _ n _ C).
  - exact (is_first_step _ n _ E).
  - exact (is_first_step _ n _ R).
  - rewrite (seq_S (S n)), existsb_app. cbn [existsb]. by rewrite orb_false_r.
  - pose proof (is_first_step _ n _ T) as H. revert H. unfold restored at 2. cbn [quantity_on].
    set (q := next_quantity _ _). destruct (fltb q (ip_minimum_reserve p)) eqn:Eb; [|done].
    destruct (fleb (ip_minimum_reserve p) q) eqn:El; [apply fltb_irrefl_le in El; congruence|].
    rewrite andb_false_r. by destruct (si_restored (run n)).
  - intros Hn. apply is_minimum_step; auto.
  - rewrite L, seq_S, fmap_app. done.
Qed.

(** The day counters of the result are exact: each is the first day whose
    end-of-day quantity is at or below the threshold, and absent when there is
    none; the day of restoration is the first day that ends at the reserve after
    the reserve was broken; the minimum reported is the rounded least quantity
    of the trajectory; the log has one entry per day, with the rounded quantity
    of that day and the status of the unrounded one. *)
Theorem simulate_days_exact :
  let r := simulate_inventory in
  is_first (end_of_day (λ q, q <=? warning_threshold)%F) simulation_days (ir_days_to_warning r) ∧
  is_first (end_of_day (λ q, q <=? ip_critical_threshold p)%F) simulation_days (ir_days_to_critical r) ∧
  is_first (end_of_day (λ q, q <=? f0)%F) simulation_days (ir_days_to_exhaustion r) ∧
  is_first (λ d, replenishment_on (Z.of_nat d) >? f0)%F simulation_days (ir_days_to_replenishment r) ∧
  is_first restored simulation_days (ir_time_to_restore_reserve r) ∧
  (ip_starting_quantity p ≠ NaN →
    ∃ m, is_minimum simulation_days m ∧ ir_minimum_inventory r = fround 2 m) ∧
  length (ir_daily_log r) = simulation_days ∧
  ∀ d, (d < simulation_days)%nat → ∃ e, ir_daily_log r !! d = Some e ∧ id_day e = Z.of_nat d ∧
    id_quantity e = fround 2 (quantity_on (S d)) ∧ id_status e = status_of (quantity_on (S d)).
Proof using.
  destruct (run_ok simulation_days) as [_ W C E R _ T M L]. cbn. split_and!; try done.
  - intros Hn. eexists. split; [by apply M|done].
  - by rewrite L, length_fmap, length_seq.
  - intros d Hd. rewrite L, list_lookup_fmap, lookup_seq_lt by done. cbn. by eexists.
Qed.

(** The reserve never goes negative and never exceeds the storage limit,
    and with thresholds in order the alarms come in order: exhaustion is never
    reported before critical, nor critical before warning. *)
Theorem simulate_ordered d :
  (f0 <=? ip_critical_threshold p)%F = true → (ip_critical_threshold p <=? warning_threshold)%F = true →
  let r := simulate_inventory in
  (∀ e, ir_days_to_exhaustion r = Some e → ∃ c, ir_days_to_critical r = Some c ∧ c ≤ e) ∧
  (∀ c, ir_days_to_critical r = Some c → ∃ w, ir_days_to_warning r = Some w ∧ w ≤ c) ∧
  (quantity_on (S d) <? f0)%F = false ∧
  (∀ limit, ip_storage_limit p = Some limit → (f0 <=? limit)%F = true → (quantity_on (S d) >? limit)%F = false).
Proof using.
  intros Hc Hw. destruct (run_ok simulation_days) as [_ W C E _ _ _ _ _]. cbn.
  assert (∀ (t1 t2 : nat → bool) n o1 o2, (∀ k, t1 k = true → t2 k = true) → is_first t1 n o1 → is_first t2 n o2 →
    ∀ x, o1 = Some x → ∃ y, o2 = Some y ∧ y ≤ x) as Horder.
  { intros t1 t2 n o1 o2 H12 H1 H2 x ->. destruct H1 as (k & -> & Hk & Ht & _). destruct o2 as [y|].
    - destruct H2 as (j & -> & _ & _ & Hj). exists (Z.of_nat j). split; [done|].
      destruct (decide (j <= k)%nat); [lia|]. assert (t2 k = false) by (apply Hj; lia). apply H12 in Ht. congruence.
    - apply H12 in Ht. rewrite H2 in Ht by done. done. }
  assert (∀ x y z, fleb x y = true → fleb y z = true → fleb x z = true) as Htr by (intros; by eapply fleb_trans).
  split_and!.
  - apply (Horder (end_of_day (λ q, q <=? f0)%F) (end_of_day (λ q, q <=? ip_critical_threshold p)%F) simulation_days);
      [|done|done]. unfold end_of_day. eauto.
  - apply (Horder (end_of_day (λ q, q <=? ip_critical_threshold p)%F) (end_of_day (λ q, q <=? warning_threshold)%F) simulation_days);
      [|done|done]. unfold end_of_day. eauto.
  - cbn [quantity_on]. unfold next_quantity. match goal with |- fltb (fmax f0 ?x) f0 = false => set (y := x) end.
    unfold fmax. destruct (fltb f0 y) eqn:El; [|apply fltb_irrefl]. by apply fltb_irrefl_le, fltb_fleb.
  - intros limit Hl H0. cbn [quantity_on]. unfold next_quantity. rewrite Hl.
    match goal with |- fltb limit (fmax f0 (fmin ?x limit)) = false => set (y := x) end.
    unfold fmax, fmin. destruct (fltb limit y) eqn:E1; destruct (fltb f0 _) eqn:E2;
      try (by rewrite fltb_irrefl); try (by apply fltb_irrefl_le). done.
Qed.
End simulation.

(** ** Concrete inputs *)

(** Fuel for a community: 1000 units, 100 a day, resupply disrupted. *)
Definition example_profile : InventoryProfile :=
  {| ip_resource_id := "fuel"; ip_name := "Fuel"; ip_starting_quantity := lit 1000; ip_unit := "liters";
     ip_normal_consumption := lit 100; ip_degraded_consumption := Some (lit 80); ip_emergency_consumption := None;
     ip_replenishment := lit 50; ip_replenishment_delay := 3; ip_shipment_delay := 2;
     ip_route_capacity_factor := lit 0.5; ip_substitution_factor := lit 0.1; ip_minimum_reserve := lit 400;
     ip_critical_threshold := lit 300; ip_warning_threshold := None; ip_storage_limit := Some (lit 1200);
     ip_alternate_rate := f0; ip_alternate_delay := 0 |}.

Example example_days :
  let r := simulate_inventory example_profile 30 false false true in
  (ir_days_to_warning r, ir_days_to_critical r, ir_days_to_exhaustion r, ir_final_status r) =
  (Some 4, Some 7, Some 11, "exhausted").
Proof. vm_compute. reflexivity. Qed.

Lemma simulate_ordered_witness :
  ∃ c, ir_days_to_critical (simulate_inventory example_profile 30 false false true) = Some c ∧ c ≤ 11.
Proof.
  apply (simulate_ordered example_profile 30 false false true 0);
    [vm_compute; reflexivity|vm_compute; reflexivity|vm_compute; reflexivity].
Defined.

Lemma simulate_days_exact_witness :
  let r := simulate_inventory example_profile 30 false false true in
  ∃ m, is_minimum example_profile false false true 30 m ∧ ir_minimum_inventory r = fround 2 m ∧ m = f0.
Proof.
  pose proof (simulate_days_exact example_profile 30 false false true) as (_ & _ & _ & _ & _ & H & _).
  destruct H as (m & Hm & E); [done|]. exists m. split_and!; [done|done|].
  destruct Hm as (_ & (d & Hd & ->) & Hmin). specialize (Hmin 30%nat ltac:(lia)). revert Hmin.
  do 31 (destruct d as [|d]; [vm_compute; intros; congruence|]). lia.
Defined.
