(* ===== verification/Recovery.v ===== *)
(** * recovery.py: recovery lag after a disruption

    A timeline has six milestones T0 to T5, each at the previous one plus the
    longest of the recovery factors of its phase.  The theorems state when a
    timeline is produced, and that a reopened resource is not yet a recovered
    one. *)

From Stdlib Require Import ZArith QArith Lqa Lia.
From S2P Require Import Prelude PyFloat FloatError PyFormat.

Open Scope Z_scope.

Inductive RecoveryPhase :=
| T0_INCIDENT
| T1_PHYSICAL_REOPENING
| T2_COMMERCIAL_NORMALIZATION
| T3_LOGISTICS_NORMALIZATION
| T4_INVENTORY_REPLENISHMENT
| T5_FULL_RESTORATION.

#[export] Instance RecoveryPhase_eq_dec : EqDecision RecoveryPhase.
Proof. solve_decision. Defined.

Definition RecoveryPhase_value (ph : RecoveryPhase) : string :=
  match ph with
  | T0_INCIDENT => "T0_incident"
  | T1_PHYSICAL_REOPENING => "T1_physical_reopening"
  | T2_COMMERCIAL_NORMALIZATION => "T2_commercial_normalization"
  | T3_LOGISTICS_NORMALIZATION => "T3_logistics_normalization"
  | T4_INVENTORY_REPLENISHMENT => "T4_inventory_replenishment"
  | T5_FULL_RESTORATION => "T5_full_restoration"
  end.

Record RecoveryMilestone := {
  rm_phase : RecoveryPhase;
  rm_description : string;
  rm_estimated_days : Z;
  rm_dependencies : list string;
  rm_confidence : float
}.

Definition new_RecoveryMilestone (phase : RecoveryPhase) (description : string) (estimated_days : Z)
    (dependencies : list string) (confidence : float) : res RecoveryMilestone :=
  _ ← require ((0 <=? estimated_days) && (estimated_days <=? 3650)) "estimated_days";
  _ ← require (is_score confidence) "confidence";
  Ok {| rm_phase := phase; rm_description := description; rm_estimated_days := estimated_days;
        rm_dependencies := dependencies; rm_confidence := confidence |}.

Record RecoveryProfile := {
  rp_resource_ref : string;
  rp_incident_description : string;
  rp_physical_reopening_days : Z;
  rp_communications_restoration_days : Z;
  rp_port_backlog_days : Z;
  rp_vessel_repositioning_days : Z;
  rp_crew_availability_days : Z;
  rp_carrier_return_days : Z;
  rp_insurance_normalization_days : Z;
  rp_supplier_restart_days : Z;
  rp_inventory_replenishment_days : Z;
  rp_equipment_availability_days : Z;
  rp_warehouse_recovery_days : Z;
  rp_production_restart_days : Z
}.

(** The durations of a profile, in declaration order. *)
Definition durations (p : RecoveryProfile) : list Z :=
  [rp_physical_reopening_days p; rp_communications_restoration_days p; rp_port_backlog_days p;
   rp_vessel_repositioning_days p; rp_crew_availability_days p; rp_carrier_return_days p;
   rp_insurance_normalization_days p; rp_supplier_restart_days p; rp_inventory_replenishment_days p;
   rp_equipment_availability_days p; rp_warehouse_recovery_days p; rp_production_restart_days p].

Definition RecoveryProfile_valid (p : RecoveryProfile) : bool :=
  forallb (λ d, (0 <=? d) && (d <=? 365)) (durations p).

Record RecoveryTimeline := {
  rt_timeline_id : string;
  rt_resource_ref : string;
  rt_incident_description : string;
  rt_milestones : list RecoveryMilestone;
  rt_total_recovery_days : Z;
  rt_current_phase : RecoveryPhase;
  rt_recovery_progress : float;
  rt_bottleneck : string;
  rt_summary : string;
  rt_is_healthy : bool;
  rt_reopened_but_not_healthy : bool;
  rt_independent_factors : dict string Z
}.

(** ** The timeline *)

Section model.
Context (p : RecoveryProfile) (days_since_incident : Z).

(** [max(a, b, ...)] on integers. *)
Definition max_of (a : Z) (l : list Z) : Z := foldl Z.max a l.

Definition t1_days : Z := rp_physical_reopening_days p.
Definition t2_days : Z := t1_days + max_of (rp_insurance_normalization_days p) [rp_carrier_return_days p].
Definition t3_days : Z :=
  t2_days + max_of (rp_vessel_repositioning_days p)
    [rp_port_backlog_days p; rp_crew_availability_days p; rp_equipment_availability_days p].
Definition t4_days : Z :=
  t3_days + max_of (rp_inventory_replenishment_days p)
    [rp_warehouse_recovery_days p; rp_supplier_restart_days p; rp_production_restart_days p].
Definition t5_days : Z := t4_days + 7.

Definition milestones : res (list RecoveryMilestone) :=
  m0 ← new_RecoveryMilestone T0_INCIDENT (rp_incident_description p) 0 [] (lit 1);
  m1 ← new_RecoveryMilestone T1_PHYSICAL_REOPENING "Physical infrastructure reopened or restored" t1_days
         ["physical_access"; "safety_clearance"] (lit 0.8);
  m2 ← new_RecoveryMilestone T2_COMMERCIAL_NORMALIZATION "Insurance coverage restored, carriers return to service"
         t2_days ["insurance_underwriting"; "carrier_contracts"; "market_confidence"] (lit 0.6);
  m3 ← new_RecoveryMilestone T3_LOGISTICS_NORMALIZATION
         "Vessels repositioned, crew sourced, port backlog cleared, schedules resume" t3_days
         ["vessel_repositioning"; "crew_availability"; "port_backlog_clearance"; "schedule_normalization";
          "equipment_restoration"] (lit 0.5);
  m4 ← new_RecoveryMilestone T4_INVENTORY_REPLENISHMENT
         "Strategic reserves rebuilt to policy-required levels and suppliers restarted" t4_days
         ["supply_flow"; "supplier_restart"; "warehouse_capacity"; "production_capacity"] (lit 0.4);
  m5 ← new_RecoveryMilestone T5_FULL_RESTORATION
         "All resilience policies met, full operational confidence restored" t5_days
         ["policy_compliance"; "operational_confidence"] (lit 0.35);
  Ok [m0; m1; m2; m3; m4; m5].

(** The last milestone whose day has come. *)
Definition current_phase (ms : list RecoveryMilestone) : RecoveryPhase :=
  foldl (λ current m, if rm_estimated_days m <=? days_since_incident then rm_phase m else current) T0_INCIDENT ms.

Definition progress : res float :=
  if 0 <? t5_days then (q ← int_div days_since_incident t5_days; Ok (fmin f1 q)) else Ok f0.

Definition phase_durations : list (RecoveryPhase * Z) :=
  [(T1_PHYSICAL_REOPENING, t1_days); (T2_COMMERCIAL_NORMALIZATION, t2_days - t1_days);
   (T3_LOGISTICS_NORMALIZATION, t3_days - t2_days); (T4_INVENTORY_REPLENISHMENT, t4_days - t3_days)].

(** [max(l, key=lambda x: x[1])]: the first pair of greatest duration. *)
Definition longest (x : RecoveryPhase * Z) (l : list (RecoveryPhase * Z)) : RecoveryPhase * Z :=
  foldl (λ x y, if x.2 <? y.2 then y else x) x l.

Definition bottleneck : RecoveryPhase * Z := longest (T1_PHYSICAL_REOPENING, t1_days) (tail phase_durations).

Definition bottleneck_text : string :=
  RecoveryPhase_value bottleneck.1 +:+ ": " +:+ str_Z bottleneck.2 +:+ " days".

Definition independent_factors : dict string Z :=
  [("physical_reopening_days", rp_physical_reopening_days p);
   ("communications_restoration_days", rp_communications_restoration_days p);
   ("insurance_normalization_days", rp_insurance_normalization_days p);
   ("carrier_return_days", rp_carrier_return_days p); ("port_backlog_days", rp_port_backlog_days p);
   ("vessel_repositioning_days", rp_vessel_repositioning_days p);
   ("crew_availability_days", rp_crew_availability_days p); ("supplier_restart_days", rp_supplier_restart_days p);
   ("warehouse_recovery_days", rp_warehouse_recovery_days p);
   ("inventory_replenishment_days", rp_inventory_replenishment_days p);
   ("production_restart_days", rp_production_restart_days p)].

Definition recovery_summary (current : RecoveryPhase) (healthy : bool) : string :=
  str_join "; " (
    ["Incident: " +:+ rp_incident_description p; "Physical reopening: day " +:+ str_Z t1_days;
     "Commercial normalization: day " +:+ str_Z t2_days; "Logistics normalization: day " +:+ str_Z t3_days;
     "Inventory replenishment: day " +:+ str_Z t4_days; "Full restoration: day " +:+ str_Z t5_days;
     "Bottleneck: " +:+ bottleneck_text; "System Healthy: " +:+ (if healthy then "YES" else "NO")]
    ++ if 0 <? days_since_incident
       then ["Current phase: " +:+ RecoveryPhase_value current +:+ " (day " +:+ str_Z days_since_incident +:+ ")"]
       else []).

Definition model_recovery (id : string) : res RecoveryTimeline :=
  ms ← milestones;
  pr ← progress;
  let current := current_phase ms in
  let healthy := bool_decide (current = T5_FULL_RESTORATION) || (t5_days <=? days_since_incident) in
  _ ← require (is_score (fround 6 pr)) "recovery_progress";
  Ok {| rt_timeline_id := id; rt_resource_ref := rp_resource_ref p;
        rt_incident_description := rp_incident_description p; rt_milestones := ms;
        rt_total_recovery_days := t5_days; rt_current_phase := current; rt_recovery_progress := fround 6 pr;
        rt_bottleneck := bottleneck_text; rt_summary := recovery_summary current healthy;
        rt_is_healthy := healthy;
        rt_reopened_but_not_healthy := (t1_days <=? days_since_incident) && negb healthy;
        rt_independent_factors := independent_factors |}.
End model.

(** ** The order of the milestones *)

Lemma max_of_ge a l x : x ∈ a :: l → x <= max_of a l.
Proof.
  unfold max_of. revert a x. induction l as [|y l IH]; intros a x Hx; cbn [foldl].
  - apply list_elem_of_singleton in Hx as ->. lia.
  - assert (Z.max a y <= foldl Z.max (Z.max a y) l) by (apply IH; left).
    apply elem_of_cons in Hx as [->|[->|Hx]%elem_of_cons]; [lia|lia|]. apply IH. by right.
Qed.

Lemma max_of_in a l : max_of a l ∈ a :: l.
Proof.
  unfold max_of. revert a. induction l as [|y l IH]; intros a; cbn [foldl]; [by left|].
  specialize (IH (Z.max a y)). apply elem_of_cons in IH as [IH|IH]; [|by do 2 right].
  rewrite IH. destruct (Z.max_spec a y) as [[_ ->]|[_ ->]]; [right|]; left.
Qed.

(** [m] is the greatest element of [l]. *)
Definition is_longest (m : Z) (l : list Z) : Prop := m ∈ l ∧ ∀ x, x ∈ l → x <= m.

Lemma max_of_longest a l : is_longest (max_of a l) (a :: l).
Proof. split; [apply max_of_in|]. intros x. apply max_of_ge. Qed.

Lemma longest_spec x l : longest x l ∈ x :: l ∧ ∀ y, y ∈ x :: l → y.2 <= (longest x l).2.
Proof.
  unfold longest. revert x. induction l as [|z l IH]; intros x; cbn [foldl].
  - split; [by left|]. intros y ->%list_elem_of_singleton. lia.
  - specialize (IH (if x.2 <? z.2 then z else x)). destruct IH as [Hin Hge]. split.
    + apply elem_of_cons in Hin as [Hin|Hin]; [|by do 2 right]. rewrite Hin.
      destruct (x.2 <? z.2); [right|]; left.
    + intros y. assert ((if x.2 <? z.2 then z else x).2 <= (foldl (λ x y, if x.2 <? y.2 then y else x)
        (if x.2 <? z.2 then z else x) l).2) as H by (apply Hge; left). revert H.
      destruct (Z.ltb_spec x.2 z.2); intros ? [->|[->|Hy]%elem_of_cons]%elem_of_cons; try lia; apply Hge; by right.
Qed.

(** Quotients of integers are ordered as their cross products. *)
Lemma quotient_le a b c d : 0 < b → 0 < d → a * d <= c * b → (inject_Z a / inject_Z b <= inject_Z c / inject_Z d)%Q.
Proof.
  intros Hb Hd H. assert (0 < inject_Z b)%Q as Pb by (change 0%Q with (inject_Z 0); rewrite <-Zlt_Qlt; lia).
  assert (0 < inject_Z d)%Q as Pd by (change 0%Q with (inject_Z 0); rewrite <-Zlt_Qlt; lia).
  apply Qle_shift_div_l; [done|]. apply Qle_trans with (inject_Z (a * d) * / inject_Z b)%Q.
  - rewrite inject_Z_mult. unfold Qdiv. apply Qle_lteq. right. ring.
  - apply Qle_shift_div_r; [done|]. by rewrite <-inject_Z_mult, <-Zle_Qle.
Qed.

Section timeline.
Context (p : RecoveryProfile) (days : Z) (Hvalid : RecoveryProfile_valid p = true).

Lemma duration_bounds d : d ∈ durations p → 0 <= d <= 365.
Proof using Hvalid.
  intros Hd. unfold RecoveryProfile_valid in Hvalid. rewrite forallb_forall in Hvalid.
  specialize (Hvalid d (proj1 (list_elem_of_In _ _) Hd)). bool_norm. lia.
Qed.

Lemma max_of_bounds a l : a :: l ⊆ durations p → 0 <= max_of a l <= 365.
Proof using Hvalid. intros Hl. apply duration_bounds, Hl, max_of_in. Qed.

Ltac subset_durations := let x := fresh in let H := fresh in
  intros x H; repeat (apply elem_of_cons in H as [->|H]); [..|by apply elem_of_nil in H];
  unfold durations; rewrite ?elem_of_cons; tauto.

Lemma milestone_order :
  0 <= t1_days p ∧ t1_days p <= t2_days p ∧ t2_days p <= t3_days p ∧ t3_days p <= t4_days p ∧
  t5_days p = t4_days p + 7 ∧ t5_days p <= 1467.
Proof using Hvalid.
  assert (0 <= t1_days p <= 365) by (apply duration_bounds; left).
  unfold t5_days, t4_days, t3_days, t2_days.
  repeat match goal with |- context [max_of ?a ?l] =>
    assert (0 <= max_of a l <= 365) by (apply max_of_bounds; subset_durations); generalize dependent (max_of a l); intros end.
  lia.
Qed.

Lemma milestones_ok : ∃ ms, milestones p = Ok ms ∧
  rm_phase <$> ms = [T0_INCIDENT; T1_PHYSICAL_REOPENING; T2_COMMERCIAL_NORMALIZATION; T3_LOGISTICS_NORMALIZATION;
    T4_INVENTORY_REPLENISHMENT; T5_FULL_RESTORATION] ∧
  rm_estimated_days <$> ms = [0; t1_days p; t2_days p; t3_days p; t4_days p; t5_days p].
Proof using Hvalid.
  pose proof milestone_order as (? & ? & ? & ? & ? & ?). unfold milestones, new_RecoveryMilestone.
  assert (∀ d, 0 <= d → d <= 1467 → ((0 <=? d) && (d <=? 3650)) = true) as B
    by (intros; apply andb_true_iff; split; apply Z.leb_le; lia).
  repeat (rewrite B by lia; cbn [require mbind res_bind]).
  eexists. split; [vm_compute; reflexivity|]. split; reflexivity.
Qed.

Definition phase_rank (ph : RecoveryPhase) : nat :=
  match ph with
  | T0_INCIDENT => 0
  | T1_PHYSICAL_REOPENING => 1
  | T2_COMMERCIAL_NORMALIZATION => 2
  | T3_LOGISTICS_NORMALIZATION => 3
  | T4_INVENTORY_REPLENISHMENT => 4
  | T5_FULL_RESTORATION => 5
  end.

(** The days of the milestones, by rank. *)
Definition phase_day (k : nat) : Z := nth k [0; t1_days p; t2_days p; t3_days p; t4_days p; t5_days p] 0.

Lemma current_phase_reached ms k :
  milestones p = Ok ms → (1 <= k <= 5)%nat → (k <= phase_rank (current_phase days ms))%nat ↔ phase_day k <= days.
Proof using Hvalid.
  intros Hms Hk. destruct milestones_ok as (ms' & E & Hp & Hd). rewrite E in Hms. injection Hms as ->.
  pose proof milestone_order as (? & ? & ? & ? & ? & ?).
  do 6 (destruct ms as [|? ms]; [done|]). destruct ms as [|? ms]; [|done].
  cbn in Hp, Hd. injection Hp as Ep0 Ep1 Ep2 Ep3 Ep4 Ep5. injection Hd as Ed0 Ed1 Ed2 Ed3 Ed4 Ed5.
  unfold current_phase. cbn [foldl]. rewrite Ep0, Ep1, Ep2, Ep3, Ep4, Ep5, Ed0, Ed1, Ed2, Ed3, Ed4, Ed5.
  unfold phase_day. destruct k as [|[|[|[|[|[|k]]]]]]; try lia; cbn [nth];
    repeat match goal with |- context [?a <=? days] => destruct (Z.leb_spec a days) end; cbn [phase_rank]; lia.
Qed.

(** ** The progress score *)

Lemma total_pos : 7 <= t5_days p.
Proof using Hvalid. pose proof milestone_order. lia. Qed.

Lemma progress_spec : Z.abs days < 2 ^ 900 →
  ∃ q, progress p days = Ok (fmin f1 (fl q)) ∧ (q == inject_Z days / inject_Z (t5_days p))%Q.
Proof using Hvalid.
  intros Hd. pose proof total_pos as Ht. unfold progress, int_div.
  rewrite (proj2 (Z.ltb_lt _ _)), (proj2 (Z.eqb_neq _ _)) by lia.
  set (q := (inject_Z days / inject_Z (t5_days p))%Q). exists q. split; [|apply Qeq_refl].
  assert (0 < inject_Z (t5_days p))%Q as Pt by (change 0%Q with (inject_Z 0); rewrite <-Zlt_Qlt; lia).
  assert (∀ z, Z.abs z < 2 ^ 900 → (inject_Z z <= pow2 900 * inject_Z (t5_days p))%Q) as Hb.
  { intros z Hz. rewrite pow2_Z, <-inject_Z_mult, <-Zle_Qle by lia. nia. }
  destruct (fl_near 900 q) as (r & -> & _); [lia|..|done].
  - unfold q. apply Qle_shift_div_l; [done|]. pose proof (Hb (- days) ltac:(lia)) as H.
    rewrite inject_Z_opp in H. lra.
  - unfold q. apply Qle_shift_div_r; [done|]. apply Hb. lia.
Qed.

Lemma progress_reached q : (q == inject_Z days / inject_Z (t5_days p))%Q →
  (0 <= days → is_score (fround 6 (fmin f1 (fl q))) = true) ∧
  (days < 0 → is_score (fround 6 (fmin f1 (fl q))) = false) ∧
  (t5_days p <= days → fround 6 (fmin f1 (fl q)) = f1) ∧
  (days < t5_days p → (fround 6 (fmin f1 (fl q)) <? f1)%F = true).
Proof using Hvalid.
  intros Eq. pose proof total_pos as Ht. pose proof milestone_order as (_ & _ & _ & _ & _ & Hmax).
  assert (∀ a b, 0 < b → a * t5_days p <= days * b → fleb (fl (inject_Z a / inject_Z b)) (fl q) = true) as Lo
    by (intros; apply fl_mono; rewrite Eq; apply quotient_le; lia).
  assert (∀ a b, 0 < b → days * b <= a * t5_days p → fleb (fl q) (fl (inject_Z a / inject_Z b)) = true) as Hi
    by (intros; apply fl_mono; rewrite Eq; apply quotient_le; lia).
  split_and!.
  - intros H. apply score_round, score_min1, fltb_irrefl_le. apply (Lo 0 1); lia.
  - intros H. unfold is_score. apply andb_false_iff. left.
    specialize (Hi (-1) 1467 ltac:(lia) ltac:(nia)).
    assert (fltb (fl q) f1 = true) as L1 by (eapply fleb_fltb_trans; [exact Hi|]; reflexivity).
    unfold fmin. rewrite L1. apply fround_mono with (n := 6%nat) in Hi.
    destruct (fleb f0 _) eqn:E; [|done]. exfalso. pose proof (fleb_trans _ _ _ E Hi) as H2. vm_compute in H2. done.
  - intros H. assert (fltb (fl q) f1 = false) as L1 by (apply fltb_irrefl_le, (Lo 1 1); lia).
    unfold fmin. rewrite L1. reflexivity.
  - intros H. specialize (Hi 1466 1467 ltac:(lia) ltac:(nia)).
    assert (fltb (fl q) f1 = true) as L1 by (eapply fleb_fltb_trans; [exact Hi|]; reflexivity).
    unfold fmin. rewrite L1. apply fround_mono with (n := 6%nat) in Hi.
    eapply fleb_fltb_trans; [exact Hi|]. reflexivity.
Qed.
End timeline.

(** For a valid profile (and a day count below 2^900 in magnitude) a
    timeline is produced exactly for the non-negative day counts; a negative one
    is a validation error of the progress score. *)
Theorem model_recovery_domain p days id :
  RecoveryProfile_valid p = true → Z.abs days < 2 ^ 900 →
  if 0 <=? days then ∃ t, model_recovery p days id = Ok t
  else model_recovery p days id = Raise (ValidationError "recovery_progress").
Proof.
  intros Hv Hd. destruct (milestones_ok p Hv) as (ms & Ems & _). destruct (progress_spec p days Hv Hd) as (q & Eq & Q).
  destruct (progress_reached p days Hv q Q) as (Hs & Hn & _). unfold model_recovery. rewrite Ems, Eq. cbn [mbind res_bind].
  destruct (Z.leb_spec 0 days) as [H|H].
  - rewrite (Hs H). by eexists.
  - rewrite (Hn H). done.
Qed.

(** Reopening is not recovery.  In every timeline the system is healthy
    exactly from the total number of days on, which is at least seven days after
    the physical reopening, and it is reported reopened but not healthy exactly
    in between; the rounded progress is 1 exactly when it is healthy; a phase has
    been entered exactly when the day of its milestone has come. *)
Theorem reopened_not_recovered p days id t :
  RecoveryProfile_valid p = true → Z.abs days < 2 ^ 900 → model_recovery p days id = Ok t →
  rt_is_healthy t = (rt_total_recovery_days t <=? days) ∧
  rp_physical_reopening_days p + 7 <= rt_total_recovery_days t ∧
  (rt_reopened_but_not_healthy t = true ↔ rp_physical_reopening_days p <= days < rt_total_recovery_days t) ∧
  (rt_recovery_progress t = f1 ↔ rt_is_healthy t = true) ∧
  ∀ k, (1 <= k <= 5)%nat → (k <= phase_rank (rt_current_phase t))%nat ↔ phase_day p k <= days.
Proof.
  intros Hv Hd. destruct (milestones_ok p Hv) as (ms & Ems & _). destruct (progress_spec p days Hv Hd) as (q & Eq & Q).
  destruct (progress_reached p days Hv q Q) as (_ & _ & Hdone & Hlt). pose proof (milestone_order p Hv).
  unfold model_recovery. rewrite Ems, Eq. cbn [mbind res_bind]. intros H1. inv_ok. cbn.
  pose proof (current_phase_reached p days Hv ms) as Hk.
  assert (bool_decide (current_phase days ms = T5_FULL_RESTORATION) = (t5_days p <=? days)) as ->.
  { specialize (Hk 5%nat Ems ltac:(lia)). cbn [phase_day nth] in Hk. apply Bool.eq_iff_eq_true. rewrite bool_decide_eq_true, Z.leb_le, <-Hk.
    destruct (current_phase days ms); cbn; split; try done; lia. }
  rewrite orb_diag. change (t1_days p) with (rp_physical_reopening_days p) in *. split_and!; [done|lia|..].
  - rewrite andb_true_iff, negb_true_iff, Z.leb_le, Z.leb_gt. lia.
  - rewrite Z.leb_le. split; [|apply Hdone]. intros E. apply Z.nlt_ge. intros L%Hlt. by rewrite E, fltb_irrefl in L.
  - intros k H2. by apply Hk.
Qed.

(** The total is the critical path: the reopening, then for each phase
    the longest of its factors, then a week; the bottleneck is a phase of
    greatest duration. *)
Theorem recovery_critical_path p days id t :
  RecoveryProfile_valid p = true → model_recovery p days id = Ok t →
  ∃ commercial logistics inventory,
    rt_total_recovery_days t = rp_physical_reopening_days p + commercial + logistics + inventory + 7 ∧
    is_longest commercial [rp_insurance_normalization_days p; rp_carrier_return_days p] ∧
    is_longest logistics [rp_vessel_repositioning_days p; rp_port_backlog_days p; rp_crew_availability_days p;
      rp_equipment_availability_days p] ∧
    is_longest inventory [rp_inventory_replenishment_days p; rp_warehouse_recovery_days p;
      rp_supplier_restart_days p; rp_production_restart_days p] ∧
    ∃ ph d, rt_bottleneck t = RecoveryPhase_value ph +:+ ": " +:+ str_Z d +:+ " days" ∧
      (ph, d) ∈ [(T1_PHYSICAL_REOPENING, rp_physical_reopening_days p); (T2_COMMERCIAL_NORMALIZATION, commercial);
        (T3_LOGISTICS_NORMALIZATION, logistics); (T4_INVENTORY_REPLENISHMENT, inventory)] ∧
      rp_physical_reopening_days p <= d ∧ commercial <= d ∧ logistics <= d ∧ inventory <= d.
Proof.
  intros Hv Ht. unfold model_recovery in Ht. inv_ok. cbn.
  eexists (max_of _ _), (max_of _ _), (max_of _ _). split_and!; [|apply max_of_longest..|].
  { unfold t5_days, t4_days, t3_days, t2_days, t1_days. reflexivity. }
  destruct (longest_spec (T1_PHYSICAL_REOPENING, t1_days p) (tail (phase_durations p))) as [Hin Hge].
  exists (bottleneck p).1, (bottleneck p).2. split; [done|]. unfold bottleneck. rewrite <-surjective_pairing.
  assert (t2_days p - t1_days p = max_of (rp_insurance_normalization_days p) [rp_carrier_return_days p]) as E2
    by (unfold t2_days; lia).
  assert (t3_days p - t2_days p = max_of (rp_vessel_repositioning_days p)
    [rp_port_backlog_days p; rp_crew_availability_days p; rp_equipment_availability_days p]) as E3 by (unfold t3_days; lia).
  assert (t4_days p - t3_days p = max_of (rp_inventory_replenishment_days p)
    [rp_warehouse_recovery_days p; rp_supplier_restart_days p; rp_production_restart_days p]) as E4
    by (unfold t4_days; lia).
  rewrite <-E2, <-E3, <-E4. split; [exact Hin|].
  split_and!; eapply (Hge (_, _)); [left|right; left|right; right; left|right; right; right; left].
Qed.

(** ** Concrete inputs *)

(** A port reopened after three days, with the class's default factors. *)
Definition example_recovery (communications : Z) : RecoveryProfile :=
  {| rp_resource_ref := "port-a"; rp_incident_description := "Storm"; rp_physical_reopening_days := 3;
     rp_communications_restoration_days := communications; rp_port_backlog_days := 7; rp_vessel_repositioning_days := 14;
     rp_crew_availability_days := 14; rp_carrier_return_days := 21; rp_insurance_normalization_days := 30;
     rp_supplier_restart_days := 21; rp_inventory_replenishment_days := 45; rp_equipment_availability_days := 10;
     rp_warehouse_recovery_days := 14; rp_production_restart_days := 21 |}.

Example example_recovery_day_50 :
  match model_recovery (example_recovery 3) 50 "t" with
  | Ok t => (rt_total_recovery_days t, rt_current_phase t, rt_bottleneck t, rt_is_healthy t,
             rt_reopened_but_not_healthy t, feqb (rt_recovery_progress t) (lit 0.505051)) =
            (99, T3_LOGISTICS_NORMALIZATION, "T4_inventory_replenishment: 45 days", false, true, true)
  | Raise _ => False
  end.
Proof. vm_compute. reflexivity. Qed.

(** Communications that stay out for a year do not delay recovery by a day: the
    factor is reported but enters no milestone. *)
Example communications_never_delay :
  match model_recovery (example_recovery 365) 99 "t" with
  | Ok t => rt_is_healthy t = true ∧ dget (rt_independent_factors t) "communications_restoration_days" = Some 365
  | Raise _ => False
  end.
Proof. vm_compute. split; reflexivity. Qed.

Lemma model_recovery_domain_witness :
  (∃ t, model_recovery (example_recovery 3) 50 "t" = Ok t) ∧
  model_recovery (example_recovery 3) (-1) "t" = Raise (ValidationError "recovery_progress").
Proof.
  split.
  - apply (model_recovery_domain (example_recovery 3) 50 "t"); [vm_compute; reflexivity|reflexivity].
  - apply (model_recovery_domain (example_recovery 3) (-1) "t"); [vm_compute; reflexivity|reflexivity].
Defined.

Lemma reopened_not_recovered_witness :
  ∃ t, model_recovery (example_recovery 3) 3 "t" = Ok t ∧ rt_reopened_but_not_healthy t = true ∧ rt_is_healthy t = false.
Proof.
  destruct (model_recovery (example_recovery 3) 3 "t") as [t|e] eqn:E; [|vm_compute in E; discriminate E].
  destruct (reopened_not_recovered (example_recovery 3) 3 "t" t eq_refl eq_refl E) as (Hh & H & R & _).
  cbn in H. exists t. split; [reflexivity|]. rewrite Hh. split; [|apply Z.leb_gt; lia]. apply R. cbn. lia.
Defined.

Lemma recovery_critical_path_witness :
  ∃ t c l i, model_recovery (example_recovery 3) 3 "t" = Ok t ∧ rt_total_recovery_days t = 3 + c + l + i + 7.
Proof.
  destruct (model_recovery (example_recovery 3) 3 "t") as [t|e] eqn:E; [|vm_compute in E; discriminate E].
  destruct (recovery_critical_path (example_recovery 3) 3 "t" t eq_refl E) as (c & l & i & H & _).
  exists t, c, l, i. split; [reflexivity|exact H].
Defined.
