(* ===== verification/Embedded.v ===== *)
(** * embedded.py: the binary telemetry protocol and the memory maps

    [pack] and [unpack] are [struct.pack] and [struct.unpack] for the
    little-endian formats without padding that the codec uses; bytes are
    integers below 256.  The theorems are the round trip of a frame and the
    detection of corruption by its checksum. *)

From Stdlib Require Import ZArith QArith Lqa Lia.
From S2P Require Import Prelude PyFloat FloatError PyFormat.

Open Scope Z_scope.

(** ** [struct] formats *)

Inductive fmt_char := fH | fI | fi | fh | fB | fb.

(** Size in bytes and signedness: H, I, i, h, B, b. *)
Definition fmt_size (c : fmt_char) : nat :=
  match c with fH | fh => 2 | fI | fi => 4 | fB | fb => 1 end.
Definition fmt_signed (c : fmt_char) : bool :=
  match c with fi | fh | fb => true | _ => false end.

Definition calcsize (fmt : list fmt_char) : nat := foldr (λ c n, (fmt_size c + n)%nat) 0%nat fmt.

(** The values a format character accepts. *)
Definition fmt_bits (c : fmt_char) : Z := 8 * Z.of_nat (fmt_size c).
Definition fmt_fits (c : fmt_char) (v : Z) : bool :=
  if fmt_signed c then (- 2 ^ (fmt_bits c - 1) <=? v) && (v <? 2 ^ (fmt_bits c - 1))
  else (0 <=? v) && (v <? 2 ^ fmt_bits c).

Fixpoint le_bytes (n : nat) (v : Z) : list Z :=
  match n with
  | O => []
  | S n => v mod 256 :: le_bytes n (v / 256)
  end.

Definition le_value (l : list Z) : Z := foldr (λ b acc, b + 256 * acc) 0 l.

Definition to_signed (c : fmt_char) (v : Z) : Z :=
  if fmt_signed c && (2 ^ (fmt_bits c - 1) <=? v) then v - 2 ^ fmt_bits c else v.

Fixpoint pack (fmt : list fmt_char) (vs : list Z) : res (list Z) :=
  match fmt, vs with
  | [], [] => Ok []
  | c :: fmt, v :: vs =>
      if fmt_fits c v then bs ← pack fmt vs; Ok (le_bytes (fmt_size c) v ++ bs)
      else Raise (StructError "argument out of range")
  | _, _ => Raise (StructError "wrong number of items")
  end.

Fixpoint unpack_items (fmt : list fmt_char) (bs : list Z) : list Z :=
  match fmt with
  | [] => []
  | c :: fmt => to_signed c (le_value (take (fmt_size c) bs)) :: unpack_items fmt (drop (fmt_size c) bs)
  end.

Definition unpack (fmt : list fmt_char) (bs : list Z) : res (list Z) :=
  if (length bs =? calcsize fmt)%nat then Ok (unpack_items fmt bs) else Raise (StructError "wrong buffer size").

(** ** The codec *)

Definition HEADER_FORMAT : list fmt_char := [fH; fI; fI; fi; fi; fh; fB; fB; fb; fB].
Definition PACK_FORMAT : list fmt_char := [fH; fI; fI; fi; fi; fh; fB; fB; fb; fB; fH].
Definition FRAME_SIZE : nat := calcsize PACK_FORMAT.

Record MicroTelemetryPacket := {
  mt_node_id : Z;
  mt_sequence_id : Z;
  mt_timestamp_unix : Z;
  mt_latitude : float;
  mt_longitude : float;
  mt_altitude_m : Z;
  mt_threat_factor_flags : Z;
  mt_risk_score_byte : Z;
  mt_link_quality_rssi_dbm : Z;
  mt_battery_level_pct : Z;
  mt_crc_valid : bool
}.

(** One of the eight shifts of a byte. *)
Definition crc_shift (crc : Z) : Z :=
  if negb (Z.land crc 1 =? 0) then Z.lxor (Z.shiftr crc 1) 40961 else Z.shiftr crc 1.

Definition crc_byte (crc byte : Z) : Z := Nat.iter 8 crc_shift (Z.lxor crc byte).

Definition compute_crc16 (data : list Z) : Z := Z.land (foldl crc_byte 65535 data) 65535.

Definition risk_byte (risk_score : float) : res Z := fround_int (fmax f0 (fmin f1 risk_score) * f_of_Z 255)%F.
Definition battery_byte (battery_pct : Z) : Z := Z.max 0 (Z.min 100 battery_pct).
Definition scaled (degrees : float) : res Z := fround_int (degrees * f_of_Z 1000000)%F.

Definition encode (node_id sequence_id timestamp_unix : Z) (latitude longitude : float)
    (altitude_m threat_flags : Z) (risk_score : float) (rssi_dbm battery_pct : Z) : res (list Z) :=
  lat_scaled ← scaled latitude;
  lon_scaled ← scaled longitude;
  risk ← risk_byte risk_score;
  header_bytes ← pack HEADER_FORMAT
    [node_id; sequence_id; timestamp_unix; lat_scaled; lon_scaled; altitude_m; threat_flags; risk; rssi_dbm;
     battery_byte battery_pct];
  crc_bytes ← pack [fH] [compute_crc16 header_bytes];
  Ok (header_bytes ++ crc_bytes).

Definition decode (frame_bytes : list Z) : res MicroTelemetryPacket :=
  if negb (length frame_bytes =? FRAME_SIZE)%nat then
    Raise (ValueError ("Invalid frame size " +:+ str_nat (length frame_bytes) +:+ ", expected "
      +:+ str_nat FRAME_SIZE +:+ " bytes"))
  else
    let payload := take (length frame_bytes - 2) frame_bytes in
    actual ← unpack [fH] (drop (length frame_bytes - 2) frame_bytes);
    items ← unpack PACK_FORMAT frame_bytes;
    match actual, items with
    | [actual_crc], [node_id; seq_id; ts; lat_scaled; lon_scaled; alt; flags; risk; rssi; bat; _] =>
        latitude ← fdiv (f_of_Z lat_scaled) (lit 1000000);
        longitude ← fdiv (f_of_Z lon_scaled) (lit 1000000);
        Ok {| mt_node_id := node_id; mt_sequence_id := seq_id; mt_timestamp_unix := ts; mt_latitude := latitude;
              mt_longitude := longitude; mt_altitude_m := alt; mt_threat_factor_flags := flags;
              mt_risk_score_byte := risk; mt_link_quality_rssi_dbm := rssi; mt_battery_level_pct := bat;
              mt_crc_valid := compute_crc16 payload =? actual_crc |}
    | _, _ => Raise (ValueError "wrong number of values to unpack")
    end.

(** ** Memory maps and the package exporter *)

Inductive TargetMicrocontroller := ESP32_S3 | ESP32_C6 | RISCV_GENERIC | CORTEX_M55.

Definition target_value (t : TargetMicrocontroller) : string :=
  match t with
  | ESP32_S3 => "esp32-s3"
  | ESP32_C6 => "esp32-c6"
  | RISCV_GENERIC => "riscv32"
  | CORTEX_M55 => "arm-cortex-m55"
  end.

Inductive MicroQuantization := BITNET_1_58B | INT4_WEIGHT_ONLY | INT8_SYMMETRIC.

Definition quantization_value (q : MicroQuantization) : string :=
  match q with BITNET_1_58B => "bitnet_1_58b" | INT4_WEIGHT_ONLY => "int4_weight" | INT8_SYMMETRIC => "int8_symm" end.
Definition quantization_name (q : MicroQuantization) : string :=
  match q with
  | BITNET_1_58B => "BITNET_1_58B"
  | INT4_WEIGHT_ONLY => "INT4_WEIGHT_ONLY"
  | INT8_SYMMETRIC => "INT8_SYMMETRIC"
  end.

Record MemoryRegion := {
  mr_name : string;
  mr_base_address_hex : string;
  mr_size_bytes : Z;
  mr_size_mb : float;
  mr_purpose : string;
  mr_access_latency_cycles : Z
}.

Record HardwareMemoryLayout := {
  ml_target : TargetMicrocontroller;
  ml_flash_total_bytes : Z;
  ml_psram_total_bytes : Z;
  ml_sram_total_bytes : Z;
  ml_regions : list MemoryRegion;
  ml_per_layer_embeddings_enabled : bool;
  ml_max_model_parameters : Z;
  ml_recommended_power_mw : float
}.

Record TinyMoEConfig := {
  tm_total_parameters : Z;
  tm_active_parameters_per_token : Z;
  tm_num_total_experts : Z;
  tm_top_k_active_experts : Z;
  tm_hidden_dimension : Z;
  tm_num_layers : Z;
  tm_quantization : MicroQuantization;
  tm_per_layer_embedding_table_flash_offset : string;
  tm_kv_cache_psram_allocation_bytes : Z
}.

(** [TinyMoEConfig()]: the defaults of the class. *)
Definition default_TinyMoEConfig : TinyMoEConfig :=
  {| tm_total_parameters := 28900000; tm_active_parameters_per_token := 8500000; tm_num_total_experts := 8;
     tm_top_k_active_experts := 2; tm_hidden_dimension := 512; tm_num_layers := 12;
     tm_quantization := INT4_WEIGHT_ONLY; tm_per_layer_embedding_table_flash_offset := "0x400000";
     tm_kv_cache_psram_allocation_bytes := 2097152 |}.

Record EdgePackageExport := {
  ep_target : TargetMicrocontroller;
  ep_package_id : string;
  ep_c_header_source : string;
  ep_partition_csv_source : string;
  ep_memory_layout : HardwareMemoryLayout;
  ep_moe_config : TinyMoEConfig;
  ep_estimated_tokens_per_second : float
}.

Definition region (name base : string) (size : Z) (mb : float) (purpose : string) (latency : Z) : MemoryRegion :=
  {| mr_name := name; mr_base_address_hex := base; mr_size_bytes := size; mr_size_mb := mb; mr_purpose := purpose;
     mr_access_latency_cycles := latency |}.

Definition layout (t : TargetMicrocontroller) (flash psram sram max_params : Z) (power : float)
    (regions : list MemoryRegion) : HardwareMemoryLayout :=
  {| ml_target := t; ml_flash_total_bytes := flash; ml_psram_total_bytes := psram; ml_sram_total_bytes := sram;
     ml_regions := regions; ml_per_layer_embeddings_enabled := true; ml_max_model_parameters := max_params;
     ml_recommended_power_mw := power |}.

Definition build_memory_layout (target : TargetMicrocontroller) : HardwareMemoryLayout :=
  match target with
  | ESP32_S3 =>
      layout target 16777216 8388608 524288 32000000 (lit 350.0)
        [region "FLASH_APP_BOOT" "0x000000" 2097152 (lit 2.0)
           "Bootloader, FreeRTOS kernel, and Aegis firmware runtime" 4;
         region "FLASH_PLE_WEIGHTS_XIP" "0x200000" 13631488 (lit 13.0)
           "Google PLE lookup table & INT4/BitNet weight matrix (XIP)" 6;
         region "FLASH_NVS_CREDENTIALS" "0xF00000" 1048576 (lit 1.0)
           "NVS for Ed25519 cryptographic keys and credentials" 10;
         region "PSRAM_KV_CACHE_WORKSPACE" "0x3C000000" 6291456 (lit 6.0)
           "KV-cache, sparse MoE activation buffers, and token embeddings" 2;
         region "PSRAM_TACTICAL_FRAME_BUFFER" "0x3C600000" 2097152 (lit 2.0)
           "Telemetry ring buffer and local SQLite/JSON snapshot cache" 2;
         region "SRAM_DMA_CRYPTO_FAST" "0x3FC80000" 524288 (lit 0.5)
           "Zero-latency DMA buffers for AES-256/SHA-256 and SPI transfers" 1]
  | ESP32_C6 =>
      layout target 8388608 0 524288 12000000 (lit 120.0)
        [region "FLASH_APP_BOOT" "0x000000" 2097152 (lit 2.0)
           "FreeRTOS + 802.15.4 Thread / Zigbee stack" 4;
         region "FLASH_PLE_WEIGHTS_XIP" "0x200000" 5242880 (lit 5.0)
           "BitNet 1.58b Micro-MoE weight matrix (XIP)" 6;
         region "SRAM_TINY_ACTIVATIONS" "0x40800000" 393216 (lit 0.375)
           "Low-power intermediate activations & micro-solver registers" 1]
  | _ =>
      layout target 33554432 16777216 1048576 65000000 (lit 500.0)
        [region "FLASH_GENERIC" "0x000000" 33554432 (lit 32.0)
           "XIP Weight table" 4;
         region "RAM_WORKSPACE" "0x20000000" 16777216 (lit 16.0)
           "Tensor workspace and KV cache" 1]
  end.

(** A double quote, for the generated text. *)
Definition dq : string := String quote2 EmptyString.

(** [f"{n:,}"] on a non-negative integer. *)
Definition fmt_comma_Z (n : Z) : string := group3 110 n.

Definition generate_c_header (layout : HardwareMemoryLayout) (moe : TinyMoEConfig) : string :=
  str_join newline
  ["/**";
   " * @file aegis_embedded_config.h";
   " * @brief Auto-generated hardware partition & TinyMoE config for Aegis Continuity.";
   " * Target: " +:+ str_upper (target_value (ml_target layout));
   " * Total Params: " +:+ fmt_comma_Z (tm_total_parameters moe) +:+ " | Active: " +:+ fmt_comma_Z (tm_active_parameters_per_token moe);
   " * Quantization: " +:+ quantization_value (tm_quantization moe);
   " */";
   "";
   "#ifndef AEGIS_EMBEDDED_CONFIG_H";
   "#define AEGIS_EMBEDDED_CONFIG_H";
   "";
   "#include <stdint.h>";
   "#include <stdbool.h>";
   "";
   "#define AEGIS_TARGET_HARDWARE         " +:+ dq +:+ target_value (ml_target layout) +:+ dq;
   "#define AEGIS_TOTAL_PARAMS            " +:+ str_Z (tm_total_parameters moe) +:+ "ULL";
   "#define AEGIS_ACTIVE_PARAMS           " +:+ str_Z (tm_active_parameters_per_token moe) +:+ "ULL";
   "#define AEGIS_NUM_EXPERTS             " +:+ str_Z (tm_num_total_experts moe);
   "#define AEGIS_TOP_K_EXPERTS           " +:+ str_Z (tm_top_k_active_experts moe);
   "#define AEGIS_HIDDEN_DIM              " +:+ str_Z (tm_hidden_dimension moe);
   "#define AEGIS_NUM_LAYERS              " +:+ str_Z (tm_num_layers moe);
   "#define AEGIS_PER_LAYER_EMBEDDINGS    " +:+ str_Z (if ml_per_layer_embeddings_enabled layout then 1 else 0);
   "";
   "/* Memory Map Base Addresses */";
   "#define AEGIS_FLASH_WEIGHTS_OFFSET    " +:+ tm_per_layer_embedding_table_flash_offset moe;
   "#define AEGIS_PSRAM_KV_CACHE_BYTES    " +:+ str_Z (tm_kv_cache_psram_allocation_bytes moe);
   "";
   "/* Micro-Quantization Configuration */";
   "typedef enum {";
   "    AEGIS_QUANT_BITNET_1_58B = 0,";
   "    AEGIS_QUANT_INT4_WEIGHT  = 1,";
   "    AEGIS_QUANT_INT8_SYMM    = 2";
   "} aegis_quant_format_t;";
   "";
   "#define AEGIS_ACTIVE_QUANT_FORMAT     AEGIS_QUANT_" +:+ quantization_name (tm_quantization moe);
   "";
   "/* Compact Micro-Protocol Binary Frame Definition (26 Bytes Packed) */";
   "#pragma pack(push, 1)";
   "typedef struct {";
   "    uint16_t node_id;";
   "    uint32_t sequence_id;";
   "    uint32_t timestamp_unix;";
   "    int32_t  latitude_scaled;   /* lat * 1e6 */";
   "    int32_t  longitude_scaled;  /* lon * 1e6 */";
   "    int16_t  altitude_m;";
   "    uint8_t  threat_factor_flags;";
   "    uint8_t  risk_score_byte;   /* 0..255 -> 0.0..1.0 */";
   "    int8_t   rssi_dbm;";
   "    uint8_t  battery_pct;";
   "    uint16_t crc16;";
   "} aegis_micro_telemetry_t;";
   "#pragma pack(pop)";
   "";
   "/* Edge Micro-Solver Resilient Decision Function */";
   "static inline uint8_t aegis_evaluate_offline_resilience(const aegis_micro_telemetry_t* telemetry) {";
   "    uint16_t risk = (uint16_t)telemetry->risk_score_byte;";
   "    if (telemetry->threat_factor_flags & 0x01) risk += 60; /* GNSS Spoof */";
   "    if (telemetry->threat_factor_flags & 0x02) risk += 50; /* C-UAS Hostile */";
   "    if (telemetry->threat_factor_flags & 0x04) risk += 40; /* SATCOM Loss */";
   "    return (risk > 255) ? 255 : (uint8_t)risk;";
   "}";
   "";
   "#endif /* AEGIS_EMBEDDED_CONFIG_H */";
   ""].

Definition generate_partition_csv (layout : HardwareMemoryLayout) : string :=
  str_join newline
    ["# ESP-IDF Partition Table for Aegis Continuity Embedded Edition";
     "# Name,   Type, SubType, Offset,  Size, Flags";
     "nvs,      data, nvs,     0x9000,  0x6000,";
     "phy_init, data, phy,     0xf000,  0x1000,";
     "factory,  app,  factory, 0x10000, 0x1F0000,";
     "weights,  data, undefined,0x200000,0xD00000, # 13MB PLE Weight Matrix";
     "storage,  data, spiffs,  0xF00000,0x100000,"] +:+ newline.

Definition tokens_per_second (target : TargetMicrocontroller) (config : TinyMoEConfig) : float :=
  match target with
  | ESP32_S3 => match tm_quantization config with BITNET_1_58B => lit 12.5 | _ => lit 8.2 end
  | ESP32_C6 => lit 4.1
  | _ => lit 18.0
  end.

Definition compile_package (id : string) (target : TargetMicrocontroller) (moe : option TinyMoEConfig)
    : EdgePackageExport :=
  let config := match moe with Some m => m | None => default_TinyMoEConfig end in
  let layout := build_memory_layout target in
  {| ep_target := target; ep_package_id := id; ep_c_header_source := generate_c_header layout config;
     ep_partition_csv_source := generate_partition_csv layout; ep_memory_layout := layout; ep_moe_config := config;
     ep_estimated_tokens_per_second := tokens_per_second target config |}.


(** ** Packing *)

Definition is_byte (b : Z) : Prop := 0 <= b < 256.

Lemma le_bytes_length n v : length (le_bytes n v) = n.
Proof. revert v. induction n as [|n IH]; intros v; cbn; [done|]. by rewrite IH. Qed.

Lemma le_bytes_value n v : le_value (le_bytes n v) = v mod 2 ^ (8 * Z.of_nat n).
Proof.
  revert v. induction n as [|n IH]; intros v; [by rewrite Z.mod_1_r|].
  change (le_value (le_bytes (S n) v)) with (v mod 256 + 256 * le_value (le_bytes n (v / 256))). rewrite IH.
  replace (8 * Z.of_nat (S n)) with (8 + 8 * Z.of_nat n) by lia. rewrite Z.pow_add_r by lia.
  change (2 ^ 8) with 256. rewrite Z.rem_mul_r by lia. lia.
Qed.

Lemma le_bytes_bytes n v : Forall is_byte (le_bytes n v).
Proof.
  revert v. induction n as [|n IH]; intros v; cbn; constructor; [|done]. unfold is_byte.
  pose proof (Z.mod_pos_bound v 256). lia.
Qed.

Lemma fmt_fits_iff c v :
  fmt_fits c v = true ↔
  if fmt_signed c then - 2 ^ (fmt_bits c - 1) <= v < 2 ^ (fmt_bits c - 1) else 0 <= v < 2 ^ fmt_bits c.
Proof. unfold fmt_fits. destruct (fmt_signed c); rewrite andb_true_iff, Z.leb_le, Z.ltb_lt; done. Qed.

Lemma to_signed_mod c v : fmt_fits c v = true → to_signed c (v mod 2 ^ fmt_bits c) = v.
Proof.
  rewrite fmt_fits_iff. unfold to_signed.
  assert (2 ^ fmt_bits c = 2 * 2 ^ (fmt_bits c - 1)) as E by (destruct c; reflexivity).
  assert (0 < 2 ^ (fmt_bits c - 1)) by (destruct c; reflexivity).
  destruct (fmt_signed c); cbn [andb]; intros H1; [|by apply Z.mod_small].
  destruct (Z_lt_le_dec v 0) as [Hn|Hp].
  - rewrite <-(Z.mod_add v 1), Z.mod_small by lia. destruct (Z.leb_spec (2 ^ (fmt_bits c - 1)) (v + 1 * 2 ^ fmt_bits c)); lia.
  - rewrite Z.mod_small by lia. destruct (Z.leb_spec (2 ^ (fmt_bits c - 1)) v); lia.
Qed.

(** Packing succeeds exactly on values that fit; it is injective, by unpacking. *)
Lemma pack_spec fmt vs :
  Forall2 (λ c v, fmt_fits c v = true) fmt vs →
  ∃ bs, pack fmt vs = Ok bs ∧ length bs = calcsize fmt ∧ Forall is_byte bs ∧
    ∀ rest, unpack_items fmt (bs ++ rest) = vs.
Proof.
  induction 1 as [|c v fmt vs Hc H (bs & E & L & B & U)]; cbn [pack calcsize foldr unpack_items]; [by exists []|].
  rewrite Hc, E. cbn [mbind res_bind]. eexists. split; [done|]. split_and!.
  - rewrite length_app, le_bytes_length, L. done.
  - apply Forall_app. split; [apply le_bytes_bytes|done].
  - intros rest. rewrite <-app_assoc, take_app_length', drop_app_length' by (by rewrite le_bytes_length).
    rewrite U, le_bytes_value. f_equal. by apply to_signed_mod.
Qed.

Lemma pack_fits fmt vs bs : pack fmt vs = Ok bs → Forall2 (λ c v, fmt_fits c v = true) fmt vs.
Proof.
  revert vs bs. induction fmt as [|c fmt IH]; intros [|v vs] bs; cbn; try done.
  destruct (fmt_fits c v) eqn:E; [|done]. intros H. inv_ok. by constructor; eauto.
Qed.

(** ** The checksum *)

Definition is_u16 (c : Z) : Prop := 0 <= c < 2 ^ 16.

Lemma crc_shift_u16 c : is_u16 c → is_u16 (crc_shift c).
Proof.
  unfold is_u16, crc_shift. intros H. rewrite Z.shiftr_div_pow2 by lia. change (2 ^ 1) with 2.
  assert (0 <= c / 2 < 2 ^ 15) by (pose proof (Z.div_mod c 2); pose proof (Z.mod_pos_bound c 2); lia).
  destruct (negb _); [|lia]. split; [apply Z.lxor_nonneg; lia|].
  destruct (Z.eq_dec (Z.lxor (c / 2) 40961) 0) as [->|Hz]; [lia|].
  assert (0 <= Z.lxor (c / 2) 40961) by (apply Z.lxor_nonneg; lia).
  apply Z.log2_lt_pow2; [lia|].
  eapply Z.le_lt_trans; [apply Z.log2_lxor; lia|]. apply Z.max_lub_lt; [|reflexivity].
  destruct (Z.eq_dec (c / 2) 0) as [->|]; [reflexivity|]. apply Z.log2_lt_pow2; lia.
Qed.

Lemma crc_shift_top c : is_u16 c → Z.testbit (crc_shift c) 15 = Z.odd c.
Proof.
  intros H. unfold crc_shift. assert (Z.land c 1 = c mod 2) as -> by (apply (Z.land_ones c 1); lia).
  assert (Z.testbit (Z.shiftr c 1) 15 = false) as E.
  { rewrite Z.shiftr_spec by lia. apply Z.bits_above_log2; [unfold is_u16 in H; lia|].
    destruct (Z.eq_dec c 0) as [->|]; [reflexivity|]. apply Z.log2_lt_pow2; unfold is_u16 in H; lia. }
  rewrite Zmod_odd. destruct (Z.odd c); cbn [negb Z.eqb]; [|done]. by rewrite Z.lxor_spec, E.
Qed.

(** The low bit of a state can be read from the result, whose top bit tells
    whether the polynomial was applied, and the others from the shift. *)
Lemma crc_shift_inj c d : is_u16 c → is_u16 d → crc_shift c = crc_shift d → c = d.
Proof.
  intros Hc Hd E. assert (Z.odd c = Z.odd d) as Ho by (by rewrite <-!crc_shift_top, E).
  revert E. unfold crc_shift. rewrite !(Z.land_ones _ 1), !Zmod_odd, Ho by lia.
  assert (Z.shiftr c 1 = Z.shiftr d 1 → c = d) as Hs.
  { rewrite !Z.shiftr_div_pow2 by lia. change (2 ^ 1) with 2. intros E.
    pose proof (Z.div_mod c 2). pose proof (Z.div_mod d 2). rewrite !Zmod_odd in *. rewrite Ho in *. lia. }
  destruct (Z.odd d); cbn [negb Z.eqb]; [|done]. intros E. apply Hs.
  apply (f_equal (λ z, Z.lxor z 40961)) in E. by rewrite !Z.lxor_assoc, !Z.lxor_nilpotent, !Z.lxor_0_r in E.
Qed.

Lemma crc_shifts n c : is_u16 c → is_u16 (Nat.iter n crc_shift c).
Proof. intros H. induction n as [|n IH]; cbn; [done|]. by apply crc_shift_u16. Qed.

Lemma crc_shifts_inj n c d : is_u16 c → is_u16 d → Nat.iter n crc_shift c = Nat.iter n crc_shift d → c = d.
Proof.
  intros Hc Hd. induction n as [|n IH]; cbn; [done|]. intros E. apply IH, crc_shift_inj; auto using crc_shifts.
Qed.

Lemma lxor_u16 c b : is_u16 c → is_byte b → is_u16 (Z.lxor c b).
Proof.
  unfold is_u16, is_byte. intros Hc Hb. assert (0 <= Z.lxor c b) by (apply Z.lxor_nonneg; lia).
  split; [done|]. destruct (Z.eq_dec (Z.lxor c b) 0) as [->|]; [lia|]. apply Z.log2_lt_pow2; [lia|].
  eapply Z.le_lt_trans; [apply Z.log2_lxor; lia|]. apply Z.max_lub_lt.
  - destruct (Z.eq_dec c 0) as [->|]; [reflexivity|]. apply Z.log2_lt_pow2; lia.
  - destruct (Z.eq_dec b 0) as [->|]; [reflexivity|]. apply Z.log2_lt_pow2; lia.
Qed.

Lemma lxor_inj_l c a b : Z.lxor c a = Z.lxor c b → a = b.
Proof.
  intros E. apply (f_equal (Z.lxor c)) in E. by rewrite <-!Z.lxor_assoc, Z.lxor_nilpotent, !Z.lxor_0_l in E.
Qed.

Lemma crc_byte_u16 c b : is_u16 c → is_byte b → is_u16 (crc_byte c b).
Proof. intros. by apply crc_shifts, lxor_u16. Qed.

Lemma crc_byte_inj c d a b :
  is_u16 c → is_u16 d → is_byte a → is_byte b → crc_byte c a = crc_byte d b → Z.lxor c a = Z.lxor d b.
Proof. intros. by apply (crc_shifts_inj 8); [apply lxor_u16..|]. Qed.

#[local] Opaque crc_byte.

Lemma crc_fold_u16 c data : is_u16 c → Forall is_byte data → is_u16 (foldl crc_byte c data).
Proof.
  intros Hc H. revert c Hc. induction H as [|b data Hb H IH]; intros c Hc; cbn; [done|].
  apply IH. by apply crc_byte_u16.
Qed.

(** Different states stay different whatever follows. *)
Lemma crc_fold_inj c d data :
  is_u16 c → is_u16 d → Forall is_byte data → foldl crc_byte c data = foldl crc_byte d data → c = d.
Proof.
  intros Hc Hd H. revert c d Hc Hd. induction H as [|b data Hb H IH]; intros c d Hc Hd; cbn [foldl]; [done|].
  intros E. apply IH in E; [|by apply crc_byte_u16..]. apply crc_byte_inj in E; [|done..].
  rewrite !(Z.lxor_comm _ b) in E. by apply lxor_inj_l in E.
Qed.

Lemma compute_crc16_fold data : Forall is_byte data → compute_crc16 data = foldl crc_byte 65535 data.
Proof.
  intros H. pose proof (crc_fold_u16 65535 data ltac:(unfold is_u16; lia) H) as Hu. unfold is_u16 in Hu.
  unfold compute_crc16. change 65535 with (Z.ones 16) at 2. rewrite Z.land_ones by lia. by apply Z.mod_small.
Qed.

Lemma compute_crc16_u16 data : Forall is_byte data → is_u16 (compute_crc16 data).
Proof. intros H. rewrite compute_crc16_fold by done. apply crc_fold_u16; [unfold is_u16; lia|done]. Qed.

(** A change of one byte changes the checksum. *)
Lemma compute_crc16_detects l b b' r :
  Forall is_byte (l ++ b :: r) → is_byte b' → compute_crc16 (l ++ b :: r) = compute_crc16 (l ++ b' :: r) → b = b'.
Proof.
  intros H Hb'. apply Forall_app in H as [Hl [Hb Hr]%Forall_cons].
  rewrite !compute_crc16_fold, !foldl_app by (apply Forall_app; split; [done|]; by constructor). cbn [foldl].
  pose proof (crc_fold_u16 65535 l ltac:(unfold is_u16; lia) Hl) as Hu. intros E.
  apply crc_fold_inj in E; [|by apply crc_byte_u16..|done]. apply crc_byte_inj in E; [|done..].
  by apply lxor_inj_l in E.
Qed.

(** The little-endian value determines the bytes. *)
Lemma le_value_inj bs bs' :
  Forall is_byte bs → Forall is_byte bs' → length bs = length bs' → le_value bs = le_value bs' → bs = bs'.
Proof.
  intros H. revert bs'. induction H as [|b bs Hb H IH]; intros [|b' bs'] H' L; try done.
  apply Forall_cons in H' as [Hb' H']. injection L as L. unfold is_byte in *.
  change (le_value (b :: bs)) with (b + 256 * le_value bs). change (le_value (b' :: bs')) with (b' + 256 * le_value bs').
  intros E. assert (b = b' ∧ le_value bs = le_value bs') as [-> Ev] by lia. by rewrite (IH bs').
Qed.

(** The verdict of a decoded frame compares the checksum of its first 24 bytes
    with its last two. *)
Lemma decode_checksum frame pkt : decode frame = Ok pkt →
  length frame = 26%nat ∧ mt_crc_valid pkt = (compute_crc16 (take 24 frame) =? le_value (drop 24 frame)).
Proof.
  unfold decode. destruct (Nat.eqb_spec (length frame) FRAME_SIZE) as [L|]; cbn [negb]; [|discriminate].
  change FRAME_SIZE with 26%nat in L. intros H. split; [done|]. revert H.
  unfold unpack. rewrite L. change (26 - 2)%nat with 24%nat. rewrite length_drop, L.
  change (26 =? calcsize PACK_FORMAT)%nat with true. change (26 - 24 =? calcsize [fH])%nat with true.
  cbn [mbind res_bind unpack_items PACK_FORMAT fmt_size]. intros H. inv_ok.
  cbn [mt_crc_valid]. unfold to_signed. cbn [fmt_signed andb]. rewrite (take_ge (drop 24 frame)) by (rewrite length_drop, L; cbn; lia). done.
Qed.

(** ** Quantities *)

Lemma risk_byte_ok risk : ∃ z, risk_byte risk = Ok z ∧ 0 <= z <= 255.
Proof.
  unfold risk_byte. destruct (proj1 (is_score_iff _) (score_clamp risk)) as (q & -> & Q0 & Q1).
  change (f_of_Z 255) with (Fin 255). unfold fmul.
  destruct (fl_between 0 255 (q * 255)) as (r & -> & R0 & R1); [reflexivity..|lra|lra|].
  exists (rne r). split; [done|].
  pose proof (rne_mono _ _ R0) as M0. pose proof (rne_mono _ _ R1) as M1.
  change (rne 0) with 0 in M0. change (rne 255) with 255 in M1. lia.
Qed.

(** A coordinate in degrees survives the scaling to micro-degrees and back up
    to half a micro-degree (and the rounding of two products). *)
Lemma scaled_near q : (- (180) <= q)%Q → (q <= 180)%Q →
  ∃ z r, scaled (Fin q) = Ok z ∧ fmt_fits fi z = true ∧ fdiv (f_of_Z z) (lit 1000000) = Ok (Fin r) ∧
    near (51 # 100000000) q r.
Proof.
  intros H1 H2. unfold scaled. change (f_of_Z 1000000) with (Fin 1000000). change (lit 1000000) with (Fin 1000000).
  unfold fmul. destruct (fl_near 28 (q * 1000000)) as (x & -> & X1 & X2);
    [lia|change (pow2 28) with (268435456 # 1); lra|change (pow2 28) with (268435456 # 1); lra|].
  change (pow2 (28 - 53)) with (1 # 33554432) in *.
  exists (rne x). pose proof (rne_bounds x) as [Z1 Z2]. cbn [fround_int]. set (z := rne x) in *. clearbody z.
  assert (-180000001 <= z <= 180000001) as Hz.
  { rewrite !Zle_Qle. change (inject_Z (-180000001)) with (-180000001 # 1). change (inject_Z 180000001) with (180000001 # 1).
    split; apply Qnot_lt_le; intros L; lra. }
  unfold f_of_Z. destruct (fl_near 28 (inject_Z z)) as (y & -> & Y1 & Y2).
  { lia. }
  { change (pow2 28) with (268435456 # 1). lra. }
  { change (pow2 28) with (268435456 # 1). lra. }
  change (pow2 (28 - 53)) with (1 # 33554432) in *. unfold fdiv.
  change (Qeq_bool 1000000 0) with false. cbn match.
  assert (y / 1000000 == y * (1 # 1000000))%Q as Ey by (unfold Qdiv; reflexivity).
  destruct (fl_near 8 (y / 1000000)) as (r & -> & R1 & R2).
  { lia. }
  { change (pow2 8) with (256 # 1). rewrite Ey. lra. }
  { change (pow2 8) with (256 # 1). rewrite Ey. lra. }
  change (pow2 (8 - 53)) with (1 # 35184372088832) in *. rewrite Ey in *.
  exists r. split_and!; [done| |done|].
  - apply fmt_fits_iff. change (-2147483648 <= z < 2147483648). lia.
  - split; lra.
Qed.

(** ** Frames *)

(** The integers of a frame that the format constrains; the risk byte and the
    battery level are clamped before packing. *)
Definition fields_fit (node_id sequence_id timestamp_unix altitude_m threat_flags rssi_dbm : Z) : bool :=
  fmt_fits fH node_id && fmt_fits fI sequence_id && fmt_fits fI timestamp_unix && fmt_fits fh altitude_m
  && fmt_fits fB threat_flags && fmt_fits fb rssi_dbm.

Lemma pack_out_of_range fmt vs :
  length fmt = length vs → ¬ Forall2 (λ c v, fmt_fits c v = true) fmt vs →
  pack fmt vs = Raise (StructError "argument out of range").
Proof.
  revert vs. induction fmt as [|c fmt IH]; intros [|v vs] L H; try done; [by destruct H|].
  cbn. destruct (fmt_fits c v) eqn:E; [|done]. rewrite IH; [done|by injection L|].
  intros H2. apply H. by constructor.
Qed.

Lemma pack_app f1 f2 v1 v2 b1 b2 :
  pack f1 v1 = Ok b1 → pack f2 v2 = Ok b2 → pack (f1 ++ f2) (v1 ++ v2) = Ok (b1 ++ b2).
Proof.
  intros H1 H2. revert v1 b1 H1. induction f1 as [|c f1 IH]; intros [|v v1] b1; cbn; try done; [by intros [= <-]|].
  destruct (fmt_fits c v); [|done]. intros H1. inv_ok. rewrite (IH _ _ H0). cbn. by rewrite <-app_assoc.
Qed.

Lemma pack_shape fmt vs bs : pack fmt vs = Ok bs →
  length bs = calcsize fmt ∧ Forall is_byte bs ∧ unpack_items fmt bs = vs.
Proof.
  intros H. destruct (pack_spec fmt vs (pack_fits _ _ _ H)) as (b & E & L & B & U). rewrite H in E. injection E as <-.
  specialize (U []). by rewrite app_nil_r in U.
Qed.

(** A packed header followed by its checksum decodes to the packed values. *)
Lemma decode_pack node seq ts lat lon alt flags risk rssi bat header check :
  pack HEADER_FORMAT [node; seq; ts; lat; lon; alt; flags; risk; rssi; bat] = Ok header →
  pack [fH] [compute_crc16 header] = Ok check →
  length (header ++ check) = FRAME_SIZE ∧
  decode (header ++ check) =
    (latitude ← fdiv (f_of_Z lat) (lit 1000000);
     longitude ← fdiv (f_of_Z lon) (lit 1000000);
     Ok {| mt_node_id := node; mt_sequence_id := seq; mt_timestamp_unix := ts; mt_latitude := latitude;
           mt_longitude := longitude; mt_altitude_m := alt; mt_threat_factor_flags := flags;
           mt_risk_score_byte := risk; mt_link_quality_rssi_dbm := rssi; mt_battery_level_pct := bat;
           mt_crc_valid := true |}).
Proof.
  intros Hh Hc. destruct (pack_shape _ _ _ (pack_app _ _ _ _ _ _ Hh Hc)) as (L & _ & U).
  destruct (pack_shape _ _ _ Hh) as (Lh & _ & _). destruct (pack_shape _ _ _ Hc) as (Lc & _ & Uc).
  change (HEADER_FORMAT ++ [fH]) with PACK_FORMAT in *. change (calcsize [fH]) with 2%nat in Lc.
  change (calcsize HEADER_FORMAT) with 24%nat in Lh. split; [done|].
  unfold decode, FRAME_SIZE, unpack. rewrite L, Nat.eqb_refl, U. cbn [negb app].
  change (calcsize PACK_FORMAT - 2)%nat with 24%nat. rewrite take_app_length', drop_app_length' by done.
  rewrite Lc, Uc. cbn [calcsize fmt_size foldr Nat.add Nat.eqb mbind res_bind]. by rewrite Z.eqb_refl.
Qed.

(** C19.  Round trip of a telemetry frame.  For coordinates within 180 degrees,
    [encode] succeeds exactly when the six unclamped integers fit the format
    (and otherwise raises [struct.error]); the frame has 26 bytes, and decoding
    it gives a packet with a valid checksum, the same integers, the battery level
    clamped to a percentage, the risk byte of the score, and coordinates within
    0.51 micro-degrees of the originals. *)
Theorem decode_encode node seq ts lat lon alt flags risk rssi bat :
  (- (180) <= lat)%Q → (lat <= 180)%Q → (- (180) <= lon)%Q → (lon <= 180)%Q →
  let enc := encode node seq ts (Fin lat) (Fin lon) alt flags risk rssi bat in
  if fields_fit node seq ts alt flags rssi then
    ∃ frame lat' lon' rb, enc = Ok frame ∧ length frame = 26%nat ∧ risk_byte risk = Ok rb ∧
      near (51 # 100000000) lat lat' ∧ near (51 # 100000000) lon lon' ∧
      decode frame = Ok {| mt_node_id := node; mt_sequence_id := seq; mt_timestamp_unix := ts;
        mt_latitude := Fin lat'; mt_longitude := Fin lon'; mt_altitude_m := alt; mt_threat_factor_flags := flags;
        mt_risk_score_byte := rb; mt_link_quality_rssi_dbm := rssi; mt_battery_level_pct := Z.max 0 (Z.min 100 bat);
        mt_crc_valid := true |}
  else enc = Raise (StructError "argument out of range").
Proof.
  intros A1 A2 O1 O2. destruct (scaled_near lat A1 A2) as (za & ra & Ea & Fa & Da & Na).
  destruct (scaled_near lon O1 O2) as (zo & ro & Eo & Fo & Do & No).
  destruct (risk_byte_ok risk) as (rb & Er & Br). cbn zeta. unfold encode.
  rewrite Ea, Eo, Er. cbn [mbind res_bind].
  assert (fmt_fits fB rb = true) as Frb by (apply fmt_fits_iff; change (0 <= rb < 256); lia).
  assert (fmt_fits fB (battery_byte bat) = true) as Fb
    by (apply fmt_fits_iff; change (0 <= battery_byte bat < 256); unfold battery_byte; lia).
  destruct (fields_fit node seq ts alt flags rssi) eqn:Hf.
  - unfold fields_fit in Hf. bool_norm.
    destruct (pack_spec HEADER_FORMAT [node; seq; ts; za; zo; alt; flags; rb; rssi; battery_byte bat])
      as (h & Eh & Lh & Bh & _); [repeat constructor; assumption|].
    destruct (pack_spec [fH] [compute_crc16 h]) as (c & Ec & _).
    { repeat constructor. apply fmt_fits_iff. by apply compute_crc16_u16. }
    destruct (decode_pack _ _ _ _ _ _ _ _ _ _ _ _ Eh Ec) as [L D].
    rewrite Da, Do in D. rewrite Eh. cbn [mbind res_bind] in *. rewrite Ec. cbn [mbind res_bind]. exists (h ++ c), ra, ro, rb. by split_and!.
  - rewrite pack_out_of_range; [done|done|]. intros Hall. rewrite <-not_true_iff_false in Hf. apply Hf.
    unfold HEADER_FORMAT in Hall. repeat match goal with H : Forall2 _ (_ :: _) (_ :: _) |- _ =>
      apply Forall2_cons in H as [? H] end. unfold fields_fit. rewrite !andb_true_iff. split_and!; assumption.
Qed.

(** C18.  A frame in which one byte has been changed never passes: if a frame
    decodes with a valid checksum, every frame of bytes that differs from it in
    exactly one position decodes with an invalid one. *)
Theorem corruption_detected l b r b' pkt pkt' :
  Forall is_byte (l ++ b :: r) → is_byte b' → b ≠ b' →
  decode (l ++ b :: r) = Ok pkt → mt_crc_valid pkt = true →
  decode (l ++ b' :: r) = Ok pkt' → mt_crc_valid pkt' = false.
Proof.
  intros Hb Hb' Hne H Hv H'. apply decode_checksum in H as (L & H), H' as (L' & H').
  rewrite H in Hv. rewrite H'. apply Z.eqb_eq in Hv. apply Z.eqb_neq. intros Hv'. revert Hv Hv'.
  rewrite length_app in L. cbn [length] in L.
  assert (Forall is_byte (l ++ b' :: r)) as Hbs'.
  { apply Forall_app in Hb as [? [? ?]%Forall_cons]. apply Forall_app; split; [done|by constructor]. }
  destruct (decide (length l < 24)%nat) as [Hlt|Hge].
  - rewrite !drop_app_ge, !take_app_ge by lia.
    destruct (24 - length l)%nat as [|n] eqn:En; [lia|]. cbn [drop take].
    intros E E'. apply Hne, (compute_crc16_detects l _ _ (take n r)); [|done|congruence].
    apply Forall_app in Hb as [? [? ?]%Forall_cons]. apply Forall_app; split; [done|constructor; [done|by apply Forall_take]].
  - rewrite !(take_app_le l), !(drop_app_le l) by lia. intros E E'. rewrite E in E'.
    pose proof (Forall_drop _ 24 _ Hb) as D. pose proof (Forall_drop _ 24 _ Hbs') as D'.
    rewrite !(drop_app_le l) in D, D' by lia. apply le_value_inj in E'; [|done|done|by rewrite !length_app].
    apply app_inv_head in E'. congruence.
Qed.

(** ** Concrete inputs *)

Lemma decode_encode_witness :
  ∃ frame pkt, encode 7 1 1700000000 (Fin (455 # 10)) (Fin (- (755 # 10))) (-20) 5 (lit 0.4) (-70) 130 = Ok frame ∧
    decode frame = Ok pkt ∧ mt_crc_valid pkt = true ∧ mt_battery_level_pct pkt = 100.
Proof.
  destruct (decode_encode 7 1 1700000000 (455 # 10) (- (755 # 10)) (-20) 5 (lit 0.4) (-70) 130)
    as (frame & lat & lon & rb & E & _ & _ & _ & _ & D); [vm_compute; discriminate..|].
  eexists frame, _. split; [exact E|]. split; [exact D|]. split; reflexivity.
Defined.

Definition example_frame : list Z :=
  match encode 7 1 1700000000 (Fin (455 # 10)) (Fin (- (755 # 10))) (-20) 5 (lit 0.4) (-70) 130 with
  | Ok f => f
  | Raise _ => []
  end.

(** A frame whose threat flags are cleared in transit. *)
Lemma corruption_detected_witness :
  ∃ l r pkt', example_frame = l ++ 5 :: r ∧ decode (l ++ 0 :: r) = Ok pkt' ∧ mt_crc_valid pkt' = false.
Proof.
  exists (take 20 example_frame), (drop 21 example_frame).
  destruct (decode (take 20 example_frame ++ 0 :: drop 21 example_frame)) as [pkt'|e] eqn:E'; [|vm_compute in E'; discriminate E'].
  destruct (decode (take 20 example_frame ++ 5 :: drop 21 example_frame)) as [pkt|e] eqn:E; [|vm_compute in E; discriminate E].
  exists pkt'. split; [vm_compute; reflexivity|]. split; [reflexivity|].
  assert (mt_crc_valid pkt = true) as Hv by (vm_compute in E; injection E as <-; reflexivity).
  refine (corruption_detected (take 20 example_frame) 5 (drop 21 example_frame) 0 pkt pkt' _ _ _ E Hv E').
  - apply (bool_decide_unpack _). vm_compute. exact I.
  - split; reflexivity || discriminate.
  - discriminate.
Defined.

(** The default header selects the format [AEGIS_QUANT_INT4_WEIGHT_ONLY], an
    identifier that occurs nowhere else in it: the enumeration above declares
    [AEGIS_QUANT_INT4_WEIGHT]. *)
Example active_format_undeclared :
  let header := ep_c_header_source (compile_package "p" ESP32_S3 None) in
  match String.index 0 "AEGIS_QUANT_INT4_WEIGHT_ONLY" header with
  | Some n => String.index (S n) "AEGIS_QUANT_INT4_WEIGHT_ONLY" header = None
  | None => False
  end.
Proof. vm_compute. reflexivity. Qed.

(** The partition table does not depend on the target, so the weights of 13 MB
    are placed at 2 MB on a microcontroller with 8 MB of flash. *)
Example partition_table_ignores_target :
  generate_partition_csv (build_memory_layout ESP32_C6) = generate_partition_csv (build_memory_layout ESP32_S3) ∧
  ml_flash_total_bytes (build_memory_layout ESP32_C6) < 2097152 + 13631488.
Proof. vm_compute. split; reflexivity. Qed.
