(* ===== verification/Rating.v ===== *)
(** * rating.py: letter grades of resilience

    Five factor scores, three of them step functions, are weighed into a
    composite index that a ladder of thresholds turns into a grade.  [sha256] is
    an argument of the certificate. *)

From Stdlib Require Import ZArith QArith Lqa.
From S2P Require Import Prelude PyFloat FloatError FloatMono PyFormat Domain.

Open Scope Z_scope.

(** ** Data *)

Record ResilienceRatingScorecard := {
  sc_redundancy_score : float;
  sc_stockpile_horizon_score : float;
  sc_recovery_lag_score : float;
  sc_provider_independence_score : float;
  sc_telemetry_trust_score : float;
  sc_composite_index : float;
}.

Record ResilienceRatingCertificate := {
  rc_certificate_id : string;
  rc_target_entity : string;
  rc_letter_grade : string;
  rc_composite_index : float;
  rc_scorecard : ResilienceRatingScorecard;
  rc_issued_at : datetime;
  rc_valid_until : datetime;
  rc_sha256_digest : string;
  rc_rating_agency : string;
  rc_signature_hex : string;
}.

(** The arguments of [evaluate_entity]. *)
Record rating_input := {
  ri_redundancy_count : Z;
  ri_assured_replenishment_days : float;
  ri_recovery_lag_t5_days : float;
  ri_has_shared_upstream_spof : bool;
  ri_trust_confidence : float;
}.

(** ** Factors *)

Definition s_red (redundancy_count : Z) : float :=
  if 3 <=? redundancy_count then f1 else if redundancy_count =? 2 then lit 0.8 else lit 0.4.

Definition s_stock (days : float) : float :=
  if (lit 60 <=? days)%F then f1 else if (lit 30 <=? days)%F then lit 0.75
  else if (lit 15 <=? days)%F then lit 0.5 else lit 0.2.

Definition s_lag (days : float) : float :=
  if (days <=? lit 7)%F then f1 else if (days <=? lit 14)%F then lit 0.8
  else if (days <=? lit 30)%F then lit 0.55 else lit 0.3.

Definition s_indep (has_shared_upstream_spof : bool) : float :=
  if has_shared_upstream_spof then lit 0.4 else lit 0.95.

Definition s_trust (trust_confidence : float) : float := fmax f0 (fmin f1 trust_confidence).

Definition composite (i : rating_input) : float :=
  (s_red (ri_redundancy_count i) * lit 0.25 + s_stock (ri_assured_replenishment_days i) * lit 0.25
   + s_lag (ri_recovery_lag_t5_days i) * lit 0.2 + s_indep (ri_has_shared_upstream_spof i) * lit 0.15
   + s_trust (ri_trust_confidence i) * lit 0.15)%F.

Definition grade_of (composite : float) : string :=
  if (lit 0.9 <=? composite)%F then "AAA" else if (lit 0.8 <=? composite)%F then "AA"
  else if (lit 0.7 <=? composite)%F then "A" else if (lit 0.6 <=? composite)%F then "BBB"
  else if (lit 0.5 <=? composite)%F then "BB" else if (lit 0.4 <=? composite)%F then "B"
  else if (lit 0.3 <=? composite)%F then "CCC" else "D".

Definition evaluate_entity (i : rating_input) : string * ResilienceRatingScorecard :=
  (grade_of (composite i),
   {| sc_redundancy_score := s_red (ri_redundancy_count i);
      sc_stockpile_horizon_score := s_stock (ri_assured_replenishment_days i);
      sc_recovery_lag_score := s_lag (ri_recovery_lag_t5_days i);
      sc_provider_independence_score := s_indep (ri_has_shared_upstream_spof i);
      sc_telemetry_trust_score := s_trust (ri_trust_confidence i);
      sc_composite_index := fround 4 (composite i) |}).

Definition issue_rating_certificate (sha256 : string → string) (entity_name : string) (i : rating_input) (now : datetime)
    : ResilienceRatingCertificate :=
  let '(grade, scorecard) := evaluate_entity i in
  let valid_until := {| dt_us := dt_us now + 180 * 86400 * 1000000; dt_aware := true |} in
  let raw := entity_name +:+ ":" +:+ grade +:+ ":" +:+ str_float (sc_composite_index scorecard) +:+ ":" +:+ isoformat now in
  let digest := sha256 raw in
  {| rc_certificate_id := "RATING-" +:+ grade +:+ "-" +:+ str_upper (String.substring 0 8 digest);
     rc_target_entity := entity_name; rc_letter_grade := grade; rc_composite_index := sc_composite_index scorecard;
     rc_scorecard := scorecard; rc_issued_at := now; rc_valid_until := valid_until; rc_sha256_digest := digest;
     rc_rating_agency := "ContinuityOS Sovereign Rating Agency";
     rc_signature_hex := "sig-ed25519-" +:+ String.substring 0 16 digest |}.

(** ** Monotone grades *)

(** Use the implications between decided tests; one of them is absurd. *)
Ltac absurd_tests :=
  repeat match goal with H : true = true → _ |- _ => specialize (H eq_refl) end; discriminate.

(** The grades from worst to best. *)
Definition grades : list string := ["D"; "CCC"; "B"; "BB"; "BBB"; "A"; "AA"; "AAA"].

Definition thresholds : list float := [lit 0.3; lit 0.4; lit 0.5; lit 0.6; lit 0.7; lit 0.8; lit 0.9].

(** How many thresholds a composite index reaches. *)
Definition rank (c : float) : nat := length (List.filter (λ t, t <=? c)%F thresholds).

Lemma rank_mono c c' : (c <=? c')%F = true → (rank c <= rank c')%nat.
Proof.
  intros H. unfold rank. generalize thresholds. induction l as [|t l IH]; cbn [List.filter]; [done|].
  destruct (t <=? c)%F eqn:E.
  - rewrite (fleb_trans _ _ _ E H). cbn. lia.
  - destruct (t <=? c')%F; cbn; lia.
Qed.

Lemma grade_rank c : grades !! rank c = Some (grade_of c).
Proof.
  unfold rank, thresholds, grade_of. cbn [List.filter].
  assert (Hstep : ∀ s t, (s <=? t)%F = true → (t <=? c)%F = true → (s <=? c)%F = true) by (intros; by eapply fleb_trans).
  pose proof (Hstep (lit 0.3) (lit 0.4) ltac:(by vm_compute)). pose proof (Hstep (lit 0.4) (lit 0.5) ltac:(by vm_compute)).
  pose proof (Hstep (lit 0.5) (lit 0.6) ltac:(by vm_compute)). pose proof (Hstep (lit 0.6) (lit 0.7) ltac:(by vm_compute)).
  pose proof (Hstep (lit 0.7) (lit 0.8) ltac:(by vm_compute)). pose proof (Hstep (lit 0.8) (lit 0.9) ltac:(by vm_compute)).
  destruct (lit 0.3 <=? c)%F, (lit 0.4 <=? c)%F, (lit 0.5 <=? c)%F, (lit 0.6 <=? c)%F, (lit 0.7 <=? c)%F, (lit 0.8 <=? c)%F, (lit 0.9 <=? c)%F; clear Hstep; try reflexivity; absurd_tests.
Qed.

(** [j] is at least as good as [i] in every factor. *)
Definition no_worse (i j : rating_input) : Prop :=
  ri_redundancy_count i ≤ ri_redundancy_count j ∧
  (ri_assured_replenishment_days i <=? ri_assured_replenishment_days j)%F = true ∧
  (ri_recovery_lag_t5_days j <=? ri_recovery_lag_t5_days i)%F = true ∧
  (ri_has_shared_upstream_spof j = true → ri_has_shared_upstream_spof i = true) ∧
  (ri_trust_confidence i <=? ri_trust_confidence j)%F = true.

Lemma s_red_mono n m : n ≤ m → within 1 (s_red n) (s_red m).
Proof.
  intros H. unfold s_red. destruct (Z.leb_spec 3 n), (Z.leb_spec 3 m), (Z.eqb_spec n 2), (Z.eqb_spec m 2);
    try (exfalso; lia); by apply within_const.
Qed.

Lemma s_stock_mono x y : (x <=? y)%F = true → within 1 (s_stock x) (s_stock y).
Proof.
  intros H. unfold s_stock.
  assert (Ht : ∀ t, (t <=? x)%F = true → (t <=? y)%F = true) by (intros t Ht; by eapply fleb_trans).
  pose proof (Ht (lit 60)). pose proof (Ht (lit 30)). pose proof (Ht (lit 15)). clear Ht.
  destruct (lit 60 <=? x)%F, (lit 60 <=? y)%F, (lit 30 <=? x)%F, (lit 30 <=? y)%F, (lit 15 <=? x)%F, (lit 15 <=? y)%F;
    first [apply within_const; reflexivity | absurd_tests].
Qed.

Lemma s_lag_mono x y : (y <=? x)%F = true → within 1 (s_lag x) (s_lag y).
Proof.
  intros H. unfold s_lag.
  assert (Ht : ∀ t, (x <=? t)%F = true → (y <=? t)%F = true) by (intros t Ht; by eapply fleb_trans).
  pose proof (Ht (lit 7)). pose proof (Ht (lit 14)). pose proof (Ht (lit 30)). clear Ht.
  destruct (x <=? lit 7)%F, (y <=? lit 7)%F, (x <=? lit 14)%F, (y <=? lit 14)%F, (x <=? lit 30)%F, (y <=? lit 30)%F;
    first [apply within_const; reflexivity | absurd_tests].
Qed.

Lemma s_indep_mono a b : (b = true → a = true) → within 1 (s_indep a) (s_indep b).
Proof. intros H. destruct a, b; try (by apply within_const). by specialize (H eq_refl). Qed.

Lemma weighted x y w : within 1 x y → within_b 1 w w = true → within 1 (x * w)%F (y * w)%F.
Proof. intros H Hw%within_const. by apply (within_mul 1 1). Qed.

Lemma composite_mono i j : no_worse i j → within 5 (composite i) (composite j).
Proof.
  intros (Hr & Hs & Hl & Hi & Ht). unfold composite.
  apply (within_add 4 1); [lia..| |by apply weighted; [apply within_clamp|]].
  apply (within_add 3 1); [lia..| |by apply weighted; [apply s_indep_mono|]].
  apply (within_add 2 1); [lia..| |by apply weighted; [apply s_lag_mono|]].
  apply (within_add 1 1); [lia..| |]; (apply weighted; [|reflexivity]); [by apply s_red_mono|by apply s_stock_mono].
Qed.

(** An entity that is at least as good as another in every factor has a
    composite index and a grade at least as good. *)
Theorem rating_monotone i j : no_worse i j →
  (sc_composite_index (evaluate_entity i).2 <=? sc_composite_index (evaluate_entity j).2)%F = true ∧
  ∃ m n, grades !! m = Some (evaluate_entity i).1 ∧ grades !! n = Some (evaluate_entity j).1 ∧ (m <= n)%nat.
Proof.
  intros H%composite_mono%within_fleb. unfold evaluate_entity. cbn [fst snd sc_composite_index]. split.
  - by apply fround_mono.
  - exists (rank (composite i)), (rank (composite j)). split_and!; [apply grade_rank..|by apply rank_mono].
Qed.

(** A confidence that is not a number counts as full confidence:
    [min(1.0, nan)] is 1.0. *)
Lemma nan_trust_is_full n d l s :
  evaluate_entity {| ri_redundancy_count := n; ri_assured_replenishment_days := d; ri_recovery_lag_t5_days := l;
                     ri_has_shared_upstream_spof := s; ri_trust_confidence := NaN |} =
  evaluate_entity {| ri_redundancy_count := n; ri_assured_replenishment_days := d; ri_recovery_lag_t5_days := l;
                     ri_has_shared_upstream_spof := s; ri_trust_confidence := f1 |}.
Proof. reflexivity. Qed.

(** ** Concrete entities *)

Definition default_input : rating_input :=
  {| ri_redundancy_count := 2; ri_assured_replenishment_days := lit 45; ri_recovery_lag_t5_days := lit 12;
     ri_has_shared_upstream_spof := false; ri_trust_confidence := lit 0.9 |}.

Definition better_input : rating_input :=
  {| ri_redundancy_count := 3; ri_assured_replenishment_days := lit 60; ri_recovery_lag_t5_days := lit 7;
     ri_has_shared_upstream_spof := false; ri_trust_confidence := lit 0.95 |}.

Example default_grade : (evaluate_entity default_input).1 = "AA" ∧ (evaluate_entity better_input).1 = "AAA".
Proof. vm_compute. done. Qed.

Lemma rating_monotone_witness :
  ∃ m n, grades !! m = Some (evaluate_entity default_input).1 ∧ grades !! n = Some (evaluate_entity better_input).1 ∧ (m <= n)%nat.
Proof.
  apply (rating_monotone default_input better_input). split_and!; [vm_compute; discriminate|reflexivity|reflexivity|discriminate|reflexivity].
Defined.
