(* ===== verification/Insurance.v ===== *)
(** * insurance.py: war-risk underwriting

    The premium of a corridor from its state, the discount for a verified
    alternate route, and the grade of the underwriting certificate.  The hash of
    a corridor name (Python randomises it per process) and [sha256] are
    arguments. *)

From Stdlib Require Import ZArith QArith Lqa.
From S2P Require Import Prelude PyFloat FloatError FloatMono PyFormat Domain.

Open Scope Z_scope.

(** ** Data *)

Record InsuranceAssessmentResult := {
  ia_policy_id : string;
  ia_corridor_name : string;
  ia_declared_hull_value_usd : float;
  ia_declared_cargo_value_usd : float;
  ia_baseline_war_risk_rate_percent : float;
  ia_mitigated_war_risk_rate_percent : float;
  ia_annual_premium_savings_usd : float;
  ia_premium_discount_percent : float;
  ia_value_at_risk_daily_usd : float;
  ia_is_underwriting_approved : bool;
  ia_underwriter_conditions : list string;
}.

Record ContinuityUnderwritingCertificate := {
  uc_certificate_id : string;
  uc_carrier_or_shipper : string;
  uc_corridor_evaluated : string;
  uc_underwriting_grade : string;
  uc_discount_percentage : float;
  uc_issued_at : datetime;
  uc_valid_until : datetime;
  uc_sha256_digest : string;
  uc_signature_hex : string;
}.

Section insurance.
Context (hash : string → Z) (sha256 : string → string).

(** ** Operations *)

Definition baseline_rate (s : CorridorState) : float :=
  match s with
  | CS_OPEN_BUT_UNINSURABLE | CS_PHYSICALLY_CLOSED => lit 2.5
  | CS_OPEN_BUT_NAVIGATION_UNTRUSTED => lit 1.4
  | _ => lit 0.85
  end.

Definition discounted (has_verified_alternate_route : bool) (s : CorridorState) : bool :=
  has_verified_alternate_route && negb (bool_decide (s = CS_PHYSICALLY_CLOSED)).

Definition underwriter_conditions : list string :=
  ["Maintain active GNSS electronic warfare anomaly monitoring";
   "Pre-contracted alternate route bunker and berth access";
   "Max recovery lag T5 threshold strictly <= 14 days"].

Definition evaluate_marine_risk (corridor_name : string) (hull_value_usd cargo_value_usd : float)
    (has_verified_alternate_route : bool) (corridor_state : CorridorState) : res InsuranceAssessmentResult :=
  let total_insured_value := (hull_value_usd + cargo_value_usd)%F in
  let baseline := baseline_rate corridor_state in
  let discount_percent := if discounted has_verified_alternate_route corridor_state then lit 28.5 else f0 in
  mitigated ← (if discounted has_verified_alternate_route corridor_state then
                 d ← fdiv discount_percent (lit 100); Ok (baseline * (f1 - d))%F
               else Ok baseline);
  b ← fdiv baseline (lit 100);
  m ← fdiv mitigated (lit 100);
  let baseline_premium := (total_insured_value * b)%F in
  let mitigated_premium := (total_insured_value * m)%F in
  Ok {| ia_policy_id := "LLOYDS-WAR-RISK-" +:+ str_Z (Z.abs (hash corridor_name) mod 100000);
        ia_corridor_name := corridor_name; ia_declared_hull_value_usd := hull_value_usd;
        ia_declared_cargo_value_usd := cargo_value_usd; ia_baseline_war_risk_rate_percent := baseline;
        ia_mitigated_war_risk_rate_percent := mitigated;
        ia_annual_premium_savings_usd := (baseline_premium - mitigated_premium)%F;
        ia_premium_discount_percent := discount_percent;
        ia_value_at_risk_daily_usd := (total_insured_value * lit 0.03)%F;
        ia_is_underwriting_approved := negb (bool_decide (corridor_state = CS_PHYSICALLY_CLOSED));
        ia_underwriter_conditions := underwriter_conditions |}.

Definition underwriting_grade (a : InsuranceAssessmentResult) : string :=
  if (lit 25 <=? ia_premium_discount_percent a)%F then "PREFERRED_RISK"
  else if negb (ia_is_underwriting_approved a) then "UNINSURABLE" else "STANDARD_RISK".

Definition issue_certificate (shipper corridor : string) (assessment : InsuranceAssessmentResult) (now : datetime)
    : ContinuityUnderwritingCertificate :=
  let grade := underwriting_grade assessment in
  let valid_until := {| dt_us := dt_us now + 90 * 86400 * 1000000; dt_aware := true |} in
  let body := shipper +:+ ":" +:+ corridor +:+ ":" +:+ grade +:+ ":"
              +:+ str_float (ia_premium_discount_percent assessment) +:+ ":" +:+ isoformat now in
  let digest := sha256 body in
  {| uc_certificate_id := "UWCERT-" +:+ str_upper (String.substring 0 10 digest);
     uc_carrier_or_shipper := shipper; uc_corridor_evaluated := corridor; uc_underwriting_grade := grade;
     uc_discount_percentage := ia_premium_discount_percent assessment; uc_issued_at := now;
     uc_valid_until := valid_until; uc_sha256_digest := digest;
     uc_signature_hex := "sig-ed25519-" +:+ String.substring 0 16 digest |}.

(** ** Theorems *)

Lemma rate_quotients s route : ∃ m b q, 
  (if discounted route s then d ← fdiv (if discounted route s then lit 28.5 else f0) (lit 100); Ok (baseline_rate s * (f1 - d))%F
   else Ok (baseline_rate s)) = Ok m ∧
  fdiv (baseline_rate s) (lit 100) = Ok b ∧ fdiv m (lit 100) = Ok q ∧ within 3 m (baseline_rate s) ∧ within 1 q b ∧
  (discounted route s = false → q = b).
Proof using.
  destruct (discounted route s), s; cbn [mbind res_bind]; eexists _, _, _;
    (split; [vm_compute; reflexivity|]; split; [vm_compute; reflexivity|]; split; [vm_compute; reflexivity|];
     split; [apply within_const; vm_compute; reflexivity|]; split; [apply within_const; vm_compute; reflexivity|done]).
Qed.

Lemma within_sub k x y : (0 <= k < 2 ^ 53)%Z → within k x y → within k (y - x)%F (y - x)%F.
Proof using.
  intros Hk (a & b & -> & -> & H1 & H2 & H3). change (Fin b - Fin a)%F with (fl (b + - a)).
  apply within_fl; [done|lra|lra|lra].
Qed.

(** An assessment always succeeds and its certificate is exact: preferred
    risk exactly with a verified alternate route on a corridor that is not
    physically closed (also one that is open but uninsurable), uninsurable exactly
    when physically closed, and never elevated risk. For values up to 2^50 dollars
    the savings are not negative, and zero without a discount. *)
Theorem underwriting_exact corridor hull cargo route s shipper now :
  within (2 ^ 50) (hull + cargo)%F (hull + cargo)%F →
  ∃ a, evaluate_marine_risk corridor hull cargo route s = Ok a ∧
    uc_underwriting_grade (issue_certificate shipper corridor a now) =
      (if decide (s = CS_PHYSICALLY_CLOSED) then "UNINSURABLE" else if route then "PREFERRED_RISK" else "STANDARD_RISK") ∧
    (ia_mitigated_war_risk_rate_percent a <=? ia_baseline_war_risk_rate_percent a)%F = true ∧
    (f0 <=? ia_annual_premium_savings_usd a)%F = true ∧
    (route = false ∨ s = CS_PHYSICALLY_CLOSED → (ia_annual_premium_savings_usd a =? f0)%F = true).
Proof using.
  intros Ht. unfold evaluate_marine_risk. destruct (rate_quotients s route) as (m & b & q & -> & Eb & Eq & Hm & Hq & Hnone).
  cbn [mbind res_bind]. rewrite Eb. cbn [mbind res_bind]. rewrite Eq. cbn [mbind res_bind].
  assert (Hp : within (2 ^ 50) ((hull + cargo) * q)%F ((hull + cargo) * b)%F).
  { apply (within_mul (2 ^ 50) 1); [lia..|done|done]. }
  eexists. split; [reflexivity|]. cbn [ia_mitigated_war_risk_rate_percent ia_baseline_war_risk_rate_percent ia_annual_premium_savings_usd].
  split_and!.
  - cbn. unfold underwriting_grade. cbn [ia_premium_discount_percent ia_is_underwriting_approved]. unfold discounted.
    case_decide as Es; [rewrite bool_decide_eq_true_2 by done|rewrite bool_decide_eq_false_2 by done];
      destruct route; vm_compute; reflexivity.
  - by eapply within_fleb.
  - eapply within_nonneg, within_sub; [|exact Hp]. lia.
  - intros Hr. rewrite Hnone.
    + apply within_right in Hp as (x & y & E & E' & _). rewrite E'. change (Fin y - Fin y)%F with (fl (y + - y)).
      rewrite (fl_proper _ 0) by lra. vm_compute. reflexivity.
    + unfold discounted. destruct Hr as [->| ->]; [done|]. by rewrite andb_false_r.
Qed.
End insurance.

(** ** A concrete corridor *)

Lemma underwriting_exact_witness : ∃ a,
  evaluate_marine_risk (λ _, 7) "Hormuz" (lit 85000000) (lit 65000000) true CS_OPEN_BUT_UNINSURABLE = Ok a ∧
  uc_underwriting_grade (issue_certificate (λ s, s) "ship" "Hormuz" a {| dt_us := 0; dt_aware := true |}) = "PREFERRED_RISK".
Proof.
  destruct (underwriting_exact (λ _, 7) (λ s, s) "Hormuz" (lit 85000000) (lit 65000000) true CS_OPEN_BUT_UNINSURABLE
    "ship" {| dt_us := 0; dt_aware := true |}) as (a & H & Hg & _).
  - apply within_const. vm_compute. reflexivity.
  - exists a. split; [exact H|]. rewrite Hg. reflexivity.
Defined.
