(* ===== verification/State.v ===== *)
(** * state.py: the locked JSON state store

    Every operation of [PersistentState] takes the file lock, reads the whole
    file, and writes it back in one rename, so an operation is one step from a
    file to a file.  A file is seen through [json.loads]: missing, unreadable, or
    a JSON value; objects are finite maps (the store never reads the order of
    keys).  [write] is the dump of an object, read back as the same object.

    The abstract store of the second half is three maps; [exec_refines] shows
    that the file operations implement it, and the theorems about histories of
    operations follow. *)

From Stdlib Require Import ZArith QArith Qround.
From S2P Require Import Prelude PyFloat PyFormat.

Open Scope Z_scope.

Inductive json :=
| JNull
| JBool (b : bool)
| JNum (z : Z)
| JFloat (x : float)
| JStr (s : string)
| JArr (l : list json)
| JObj (m : gmap string json).

Notation object := (gmap string json).

Inductive file :=
| NoFile
| Unreadable
| Content (v : json).

(** [_read_unlocked]; its messages also name the path of the file. *)
Definition read_unlocked (f : file) : res object :=
  match f with
  | NoFile => Ok ∅
  | Unreadable => Raise (RuntimeError "state file is unreadable")
  | Content (JObj m) => Ok m
  | Content _ => Raise (RuntimeError "state file must contain an object")
  end.

(** [_write_unlocked] *)
Definition write_unlocked (m : object) : file := Content (JObj m).

(** [m.setdefault(name, {})] followed by a method of dictionaries. *)
Definition setdefault (m : object) (name : string) : json := default (JObj ∅) (m !! name).

Definition as_dict (v : json) : res object :=
  match v with JObj m => Ok m | _ => Raise (AttributeError "get") end.

(** [d.get(key)]: JSON null and a missing key are both [None]. *)
Definition dict_get (m : object) (key : string) : json := default JNull (m !! key).

Definition is_None (v : json) : bool := match v with JNull => true | _ => false end.

(** [v == s] for a string [s]. *)
Definition eq_str (v : json) (s : string) : bool := match v with JStr t => str_eqb t s | _ => false end.

(** [f"{a}:{b}"] *)
Definition composite_key (a b : string) : string := a +:+ ":" +:+ b.

(** ** [int(v)] on a JSON value *)

(** The digits of a numeral, with single underscores between digits. *)
Fixpoint digits_value (acc : Z) (after_digit : bool) (s : string) : option Z :=
  match s with
  | EmptyString => if after_digit then Some acc else None
  | String c s =>
      let n := Z.of_N (Ascii.N_of_ascii c) in
      if (48 <=? n) && (n <=? 57) then digits_value (10 * acc + (n - 48)) true s
      else if (n =? 95) && after_digit then digits_value acc false s
      else None
  end.

Definition int_of_str (s : string) : res Z :=
  let s := str_strip s in
  let '(sign, s) := match s with
                    | String c t => if Ascii.eqb c (Ascii.ascii_of_N 45) then (-1, t)
                                    else if Ascii.eqb c (Ascii.ascii_of_N 43) then (1, t) else (1, s)
                    | EmptyString => (1, s)
                    end in
  match digits_value 0 false s with
  | Some n => Ok (sign * n)
  | None => Raise (ValueError "invalid literal for int() with base 10")
  end.

Definition int_of_json (v : json) : res Z :=
  match v with
  | JNum z => Ok z
  | JBool b => Ok (if b then 1 else 0)
  | JFloat (Fin q) => Ok (if Qneg q then - Qfloor (- q) else Qfloor q)
  | JFloat (Inf _) => Raise OverflowError
  | JFloat NaN => Raise (ValueError "cannot convert float NaN to integer")
  | JStr s => int_of_str s
  | _ => Raise (TypeError "int() argument")
  end.

(** ** The operations *)

(** What an operation returns. *)
Inductive outcome :=
| OUnit
| OBool (b : bool)
| OResponse (r : option string)
| OValue (v : json).

Definition conflict : exn := IdempotencyConflict "idempotency key was reused for a different request".

Definition get_idempotent (namespace key fingerprint : string) (f : file) : res outcome :=
  state ← read_unlocked f;
  records ← as_dict (setdefault state "idempotency");
  let record := dict_get records (composite_key namespace key) in
  if is_None record then Ok (OResponse None)
  else match record with
       | JObj fields =>
           if negb (eq_str (dict_get fields "fingerprint") fingerprint) then Raise conflict
           else match dict_get fields "response" with
                | JStr response => Ok (OResponse (Some response))
                | _ => Raise (RuntimeError "idempotency record has no response")
                end
       | _ => Raise conflict
       end.

Definition new_record (fingerprint response : string) : json :=
  JObj (<["fingerprint" := JStr fingerprint]> {["response" := JStr response]}).

Definition save_idempotent (namespace key fingerprint response : string) (f : file) : res (outcome * file) :=
  state ← read_unlocked f;
  records ← as_dict (setdefault state "idempotency");
  let existing := dict_get records (composite_key namespace key) in
  _ ← (if is_None existing then Ok tt
       else fields ← as_dict existing; raise_if (negb (eq_str (dict_get fields "fingerprint") fingerprint)) conflict);
  let records := <[composite_key namespace key := new_record fingerprint response]> records in
  Ok (OUnit, write_unlocked (<["idempotency" := JObj records]> state)).

(** [previous is not None and sequence <= int(previous)] *)
Definition stale_sequence (previous : json) (sequence : Z) : res bool :=
  if is_None previous then Ok false else p ← int_of_json previous; Ok (sequence <=? p).

Definition claim_sequence (tenant_id asset_id : string) (sequence : Z) (f : file) : res (outcome * file) :=
  let key := composite_key tenant_id asset_id in
  state ← read_unlocked f;
  sequences ← as_dict (setdefault state "telemetry_sequences");
  stale ← stale_sequence (dict_get sequences key) sequence;
  match stale with
  | true => Ok (OBool false, f)
  | false => Ok (OBool true,
      write_unlocked (<["telemetry_sequences" := JObj (<[key := JNum sequence]> sequences)]> state))
  end.

Definition as_section (namespace : string) (v : json) : res object :=
  match v with
  | JObj m => Ok m
  | _ => Raise (RuntimeError ("state namespace must contain an object: " +:+ namespace))
  end.

Definition get_value (namespace key : string) (f : file) : res outcome :=
  state ← read_unlocked f;
  section ← as_section namespace (default (JObj ∅) (state !! namespace));
  Ok (OValue (dict_get section key)).

Definition set_value (namespace key : string) (value : json) (f : file) : res (outcome * file) :=
  state ← read_unlocked f;
  section ← as_section namespace (setdefault state namespace);
  Ok (OUnit, write_unlocked (<[namespace := JObj (<[key := value]> section)]> state)).

(** ** Steps *)

Inductive op :=
| GetIdempotent (namespace key fingerprint : string)
| SaveIdempotent (namespace key fingerprint response : string)
| ClaimSequence (tenant_id asset_id : string) (sequence : Z)
| GetValue (namespace key : string)
| SetValue (namespace key : string) (value : json).

(** A raising operation leaves the file as it was. *)
Definition writing (f : file) (r : res (outcome * file)) : res outcome * file :=
  match r with Ok (o, f') => (Ok o, f') | Raise e => (Raise e, f) end.

Definition exec (o : op) (f : file) : res outcome * file :=
  match o with
  | GetIdempotent ns k fp => (get_idempotent ns k fp f, f)
  | SaveIdempotent ns k fp r => writing f (save_idempotent ns k fp r f)
  | ClaimSequence t a s => writing f (claim_sequence t a s f)
  | GetValue ns k => (get_value ns k f, f)
  | SetValue ns k v => writing f (set_value ns k v f)
  end.

(** A history: the operations performed since the file was missing, oldest
    first, with their results.  The lock serialises concurrent callers, so any
    interleaving of their calls is such a history. *)
Inductive history : list (op * res outcome) → file → Prop :=
| history_start : history [] NoFile
| history_step (h : list (op * res outcome)) (f : file) (o : op) : history h f → history (h ++ [(o, (exec o f).1)]) (exec o f).2.

(** ** The abstract store *)

Record store := {
  sequences : gmap string Z;
  responses : gmap string (string * string);
  values : gmap string object
}.

Definition empty_store : store := {| sequences := ∅; responses := ∅; values := ∅ |}.

Definition store_exec (o : op) (s : store) : res outcome * store :=
  match o with
  | GetIdempotent ns k fp =>
      (match responses s !! composite_key ns k with
       | None => Ok (OResponse None)
       | Some (fp', r) => if str_eqb fp' fp then Ok (OResponse (Some r)) else Raise conflict
       end, s)
  | SaveIdempotent ns k fp r =>
      let saved := {| sequences := sequences s; values := values s;
                      responses := <[composite_key ns k := (fp, r)]> (responses s) |} in
      match responses s !! composite_key ns k with
      | Some (fp', _) => if str_eqb fp' fp then (Ok OUnit, saved) else (Raise conflict, s)
      | None => (Ok OUnit, saved)
      end
  | ClaimSequence t a n =>
      let claimed := {| sequences := <[composite_key t a := n]> (sequences s); values := values s;
                        responses := responses s |} in
      match sequences s !! composite_key t a with
      | Some p => if n <=? p then (Ok (OBool false), s) else (Ok (OBool true), claimed)
      | None => (Ok (OBool true), claimed)
      end
  | GetValue ns k => (Ok (OValue (dict_get (default ∅ (values s !! ns)) k)), s)
  | SetValue ns k v =>
      (Ok OUnit, {| sequences := sequences s; responses := responses s;
                    values := <[ns := <[k := v]> (default ∅ (values s !! ns))]> (values s) |})
  end.

Definition reserved (ns : string) : Prop := ns = "telemetry_sequences" ∨ ns = "idempotency".

(** The callers of [get_value] and [set_value] stay out of the two sections the
    other operations own. *)
Definition op_ok (o : op) : Prop :=
  match o with GetValue ns _ | SetValue ns _ _ => ¬ reserved ns | _ => True end.

(** The file holds the store. *)
Record represents (f : file) (s : store) : Prop := {
  rep_object : object;
  rep_read : read_unlocked f = Ok rep_object;
  rep_sequences : setdefault rep_object "telemetry_sequences" = JObj (JNum <$> sequences s);
  rep_responses : setdefault rep_object "idempotency" = JObj (uncurry new_record <$> responses s);
  rep_values : ∀ ns, ¬ reserved ns → rep_object !! ns = JObj <$> values s !! ns
}.

Lemma represents_start : represents NoFile empty_store.
Proof. exists ∅; [done|done..|]. intros ns _. by rewrite !lookup_empty. Qed.

Lemma setdefault_insert_ne (m : object) a b v : a ≠ b → setdefault (<[a := v]> m) b = setdefault m b.
Proof. intros. unfold setdefault. by rewrite lookup_insert_ne. Qed.

Lemma setdefault_insert (m : object) a v : setdefault (<[a := v]> m) a = v.
Proof. unfold setdefault. by rewrite lookup_insert_eq. Qed.

Lemma dict_get_fmap {A} (g : A → json) (m : gmap string A) k : dict_get (g <$> m) k = default JNull (g <$> m !! k).
Proof. unfold dict_get. by rewrite lookup_fmap. Qed.

Lemma new_record_fingerprint fp r :
  ∃ fields, new_record fp r = JObj fields ∧ dict_get fields "fingerprint" = JStr fp ∧ dict_get fields "response" = JStr r.
Proof.
  eexists. split; [done|]. unfold dict_get. rewrite lookup_insert_eq, lookup_insert_ne, lookup_singleton_eq by done. done.
Qed.

Lemma not_reserved_ne ns a : ¬ reserved ns → reserved a → a ≠ ns.
Proof. by intros H1 H2 ->. Qed.

Lemma get_refines ns k fp f s :
  represents f s →
  let o := GetIdempotent ns k fp in
  (exec o f).1 = (store_exec o s).1 ∧ represents (exec o f).2 (store_exec o s).2.
Proof.
  intros [m Hread Hseq Hresp Hval]. cbn [exec store_exec]. unfold get_idempotent. rewrite Hread. cbn [mbind res_bind].
  rewrite Hresp. cbn [as_dict mbind res_bind]. rewrite dict_get_fmap. split; [|by exists m].
  destruct (responses s !! composite_key ns k) as [[fp' r]|]; cbn; [|done].
  destruct (new_record_fingerprint fp' r) as (fields & E & E1 & E2). injection E as E. rewrite E, E1, E2.
  cbn. by destruct (str_eqb fp' fp).
Qed.

Lemma save_refines ns k fp r f s :
  represents f s →
  let o := SaveIdempotent ns k fp r in
  (exec o f).1 = (store_exec o s).1 ∧ represents (exec o f).2 (store_exec o s).2.
Proof.
  intros [m Hread Hseq Hresp Hval]. cbn [exec store_exec]. unfold save_idempotent. rewrite Hread. cbn [mbind res_bind].
  rewrite Hresp. cbn [as_dict mbind res_bind]. rewrite dict_get_fmap.
  assert (represents (write_unlocked (<["idempotency" := JObj (<[composite_key ns k := new_record fp r]>
      (uncurry new_record <$> responses s))]> m))
    {| sequences := sequences s; responses := <[composite_key ns k := (fp, r)]> (responses s); values := values s |})
    as Hsaved.
  { eexists; [done|..]; cbn.
    - by rewrite setdefault_insert_ne.
    - by rewrite setdefault_insert, fmap_insert.
    - intros ns' Hns. rewrite lookup_insert_ne; [by apply Hval|]. apply (not_reserved_ne _ _ Hns). by right. }
  destruct (responses s !! composite_key ns k) as [[fp' r']|] eqn:E; cbn; [|done].
  destruct (new_record_fingerprint fp' r') as (fields & E0 & E1 & _). injection E0 as E0. rewrite E0, E1. cbn.
  destruct (str_eqb fp' fp); cbn; [done|]. split; [done|]. by exists m.
Qed.

Lemma claim_refines t a n f s :
  represents f s →
  let o := ClaimSequence t a n in
  (exec o f).1 = (store_exec o s).1 ∧ represents (exec o f).2 (store_exec o s).2.
Proof.
  intros [m Hread Hseq Hresp Hval]. cbn [exec store_exec]. unfold claim_sequence. rewrite Hread. cbn [mbind res_bind].
  rewrite Hseq. cbn [as_dict mbind res_bind]. rewrite dict_get_fmap.
  assert (represents (write_unlocked (<["telemetry_sequences" := JObj (<[composite_key t a := JNum n]>
      (JNum <$> sequences s))]> m))
    {| sequences := <[composite_key t a := n]> (sequences s); responses := responses s; values := values s |})
    as Hclaimed.
  { eexists; [done|..]; cbn.
    - by rewrite setdefault_insert, fmap_insert.
    - by rewrite setdefault_insert_ne.
    - intros ns' Hns. rewrite lookup_insert_ne; [by apply Hval|]. apply (not_reserved_ne _ _ Hns). by left. }
  destruct (sequences s !! composite_key t a) as [p|] eqn:E; cbn; [|done].
  destruct (n <=? p); cbn; [|done]. split; [done|]. by exists m.
Qed.

Lemma exec_refines o f s :
  op_ok o → represents f s →
  (exec o f).1 = (store_exec o s).1 ∧ represents (exec o f).2 (store_exec o s).2.
Proof.
  intros Ho [m Hread Hseq Hresp Hval]. destruct o as [ns k fp|ns k fp r|t a n|ns k|ns k v]; cbn [exec store_exec].
  - apply get_refines. by exists m.
  - apply save_refines. by exists m.
  - apply claim_refines. by exists m.
  - unfold get_value. rewrite Hread. cbn [mbind res_bind]. rewrite Hval by done.
    split; [|by exists m]. by destruct (values s !! ns).
  - unfold set_value. rewrite Hread. cbn [mbind res_bind]. unfold setdefault. rewrite Hval by done.
    assert (as_section ns (default (JObj ∅) (JObj <$> values s !! ns)) = Ok (default ∅ (values s !! ns))) as ->
      by (by destruct (values s !! ns)).
    cbn [writing fst snd mbind res_bind]. split; [done|].
    exists (<[ns := JObj (<[k := v]> (default ∅ (values s !! ns)))]> m); cbn.
    + done.
    + rewrite setdefault_insert_ne; [done|]. intros ->. apply Ho. by left.
    + rewrite setdefault_insert_ne; [done|]. intros ->. apply Ho. by right.
    + intros ns' Hns. destruct (decide (ns = ns')) as [->|]; [by rewrite !lookup_insert_eq|].
      rewrite !lookup_insert_ne by done. auto.
Qed.

(** A sequence of operations, with its results. *)
Fixpoint run {S} (step : op → S → res outcome * S) (ops : list op) (s : S) : list (res outcome) * S :=
  match ops with
  | [] => ([], s)
  | o :: ops => let '(r, s) := step o s in let '(rs, s) := run step ops s in (r :: rs, s)
  end.

(** C5.  Refinement: started on a file that holds an abstract store of three
    maps (a missing file holds the empty one), the file operations outside the
    reserved namespaces are indistinguishable from those of the abstract store:
    any sequence of them returns the same results and ends in a file that holds
    the abstract result. *)
Theorem state_refines ops f s :
  Forall op_ok ops → represents f s →
  (run exec ops f).1 = (run store_exec ops s).1 ∧ represents (run exec ops f).2 (run store_exec ops s).2.
Proof.
  intros H. revert f s. induction H as [|o ops Ho H IH]; intros f s Hr; cbn; [done|].
  destruct (exec_refines o f s Ho Hr) as [E Hr'].
  destruct (exec o f) as [r1 f1], (store_exec o s) as [r2 s1]. cbn in *.
  destruct (IH f1 s1 Hr') as [E2 Hr2]. destruct (run exec ops f1), (run store_exec ops s1). cbn in *. by subst.
Qed.

(** ** Histories *)

(** The sequence numbers accepted for a key, oldest first. *)
Definition accepted (key : string) (h : list (op * res outcome)) : list Z :=
  omap (λ e, match e with
             | (ClaimSequence t a n, Ok (OBool true)) => if decide (composite_key t a = key) then Some n else None
             | _ => None
             end) h.

(** The fingerprints and responses saved for a key, oldest first. *)
Definition saved (key : string) (h : list (op * res outcome)) : list (string * string) :=
  omap (λ e, match e with
             | (SaveIdempotent ns k fp r, Ok _) => if decide (composite_key ns k = key) then Some (fp, r) else None
             | _ => None
             end) h.

Definition history_ok (h : list (op * res outcome)) : Prop := Forall (λ e, op_ok e.1) h.

Lemma accepted_app key h1 h2 : accepted key (h1 ++ h2) = accepted key h1 ++ accepted key h2.
Proof. apply omap_app. Qed.

Lemma saved_app key h1 h2 : saved key (h1 ++ h2) = saved key h1 ++ saved key h2.
Proof. apply omap_app. Qed.

(** What the store knows of a history. *)
Record remembers (h : list (op * res outcome)) (s : store) : Prop := {
  rem_sequences : ∀ key, StronglySorted Z.lt (accepted key h) ∧ sequences s !! key = last (accepted key h);
  rem_responses : ∀ key, (∀ x y, x ∈ saved key h → y ∈ saved key h → x.1 = y.1) ∧
    responses s !! key = last (saved key h)
}.

Lemma sorted_snoc (l : list Z) n :
  StronglySorted Z.lt l → (∀ p, last l = Some p → p < n) → StronglySorted Z.lt (l ++ [n]).
Proof.
  induction 1 as [|x l Hs IH Hx]; intros Hl; cbn; [by repeat constructor|].
  destruct l as [|y l]; cbn.
  - specialize (Hl x eq_refl). repeat constructor. done.
  - constructor; [by apply IH|]. rewrite app_comm_cons. apply Forall_app. split; [done|].
    destruct (last (y :: l)) as [p|] eqn:E; [|by apply last_None in E].
    specialize (Hl p E). constructor; [|done]. rewrite Forall_forall in Hx.
    assert (p ∈ y :: l) as Hp by (by apply last_Some_elem_of). specialize (Hx p Hp). lia.
Qed.

Lemma StronglySorted_app_lt (l : list Z) n x : StronglySorted Z.lt (l ++ [n]) → x ∈ l → x < n.
Proof.
  induction l as [|y l IH]; cbn; [by intros _ ?%elem_of_nil|].
  intros [Hs Hy]%StronglySorted_inv [->|Hx]%elem_of_cons; [|by apply IH].
  rewrite Forall_forall in Hy. apply Hy, elem_of_app. right. by left.
Qed.

Lemma remembers_start : remembers [] empty_store.
Proof. split; intros key; cbn; rewrite lookup_empty; split; try done; [constructor|by intros ?? ?%elem_of_nil]. Qed.

Lemma accepted_snoc_other key h e : accepted key [e] = [] → accepted key (h ++ [e]) = accepted key h.
Proof. intros E. by rewrite accepted_app, E, app_nil_r. Qed.

Lemma saved_snoc_other key h e : saved key [e] = [] → saved key (h ++ [e]) = saved key h.
Proof. intros E. by rewrite saved_app, E, app_nil_r. Qed.

(** A step that changes neither map and records nothing. *)
Lemma remembers_idle h s s' e :
  (∀ key, accepted key [e] = []) → (∀ key, saved key [e] = []) →
  sequences s' = sequences s → responses s' = responses s → remembers h s → remembers (h ++ [e]) s'.
Proof.
  intros Ha Hs Eq Er [Q R]. split; intros key.
  - rewrite (accepted_snoc_other _ _ _ (Ha key)), Eq. apply Q.
  - rewrite (saved_snoc_other _ _ _ (Hs key)), Er. apply R.
Qed.

Lemma remembers_claim h s t a n :
  remembers h s → (∀ p, sequences s !! composite_key t a = Some p → p < n) →
  remembers (h ++ [(ClaimSequence t a n, Ok (OBool true))])
    {| sequences := <[composite_key t a := n]> (sequences s); responses := responses s; values := values s |}.
Proof.
  intros [Q R] Hlt. split; intros key; cbn.
  - rewrite accepted_app. cbn. destruct (Q key) as [Hs Hl]. case_decide as E.
    + subst key. rewrite lookup_insert_eq, last_snoc. split; [|done]. apply sorted_snoc; [done|].
      intros p Hp. apply Hlt. by rewrite Hl.
    + rewrite lookup_insert_ne, app_nil_r by done. done.
  - rewrite saved_snoc_other by done. apply R.
Qed.

Lemma remembers_save h s ns k fp r :
  remembers h s → (∀ x, responses s !! composite_key ns k = Some x → x.1 = fp) →
  remembers (h ++ [(SaveIdempotent ns k fp r, Ok OUnit)])
    {| sequences := sequences s; responses := <[composite_key ns k := (fp, r)]> (responses s); values := values s |}.
Proof.
  intros [Q R] Heq. split; intros key; cbn.
  - rewrite accepted_snoc_other by done. apply Q.
  - rewrite saved_app. cbn. destruct (R key) as [Hs Hl]. case_decide as E.
    + subst key. rewrite lookup_insert_eq, last_snoc. split; [|done].
      assert (∀ x, x ∈ saved (composite_key ns k) h → x.1 = fp) as Hall.
      { intros x Hx. destruct (last (saved (composite_key ns k) h)) as [y|] eqn:Ey.
        - rewrite <-(Heq y) by (by rewrite Hl). apply Hs; [done|]. by apply last_Some_elem_of.
        - apply last_None in Ey. rewrite Ey in Hx. by apply elem_of_nil in Hx. }
      intros x y [Hx|Hx%list_elem_of_singleton]%elem_of_app [Hy|Hy%list_elem_of_singleton]%elem_of_app; subst; cbn.
      * rewrite (Hall x Hx), (Hall y Hy). done.
      * by apply Hall.
      * symmetry. by apply Hall.
      * done.
    + rewrite lookup_insert_ne, app_nil_r by done. done.
Qed.

Lemma remembers_step h s o : remembers h s → remembers (h ++ [(o, (store_exec o s).1)]) (store_exec o s).2.
Proof.
  intros H. destruct o as [ns k fp|ns k fp r|t a n|ns k|ns k v]; cbn [store_exec].
  - by apply (remembers_idle h s).
  - destruct (responses s !! composite_key ns k) as [[fp' r']|] eqn:E.
    + destruct (str_eqb fp' fp) eqn:Ef; cbn [fst snd].
      * apply remembers_save; [done|]. intros x. rewrite E. intros [= <-]. by apply String.eqb_eq in Ef.
      * by apply (remembers_idle h s).
    + apply remembers_save; [done|]. intros x. by rewrite E.
  - destruct (sequences s !! composite_key t a) as [p|] eqn:E.
    + destruct (Z.leb_spec n p); cbn [fst snd].
      * by apply (remembers_idle h s).
      * apply remembers_claim; [done|]. intros p'. rewrite E. by intros [= <-].
    + apply remembers_claim; [done|]. intros p'. by rewrite E.
  - by apply (remembers_idle h s).
  - by apply (remembers_idle h s).
Qed.

Lemma history_remembers h f : history h f → history_ok h → ∃ s, represents f s ∧ remembers h s.
Proof.
  induction 1 as [|h f o Hh IH]; intros Hok.
  - exists empty_store. split; [apply represents_start|apply remembers_start].
  - apply Forall_app in Hok as [Hok Ho]. apply Forall_cons in Ho as [Ho _]. destruct (IH Hok) as (s & Hr & Hm).
    destruct (exec_refines o f s Ho Hr) as [E Hr']. exists (store_exec o s).2. split; [done|].
    rewrite E. by apply remembers_step.
Qed.

(** C12.  No replay.  In every history of the store, a telemetry sequence number
    is accepted exactly when it is greater than all numbers accepted before for
    its key; so the accepted numbers of a key increase strictly. *)
Theorem claim_exact h f t a n :
  history h f → history_ok h →
  StronglySorted Z.lt (accepted (composite_key t a) h) ∧
  (exec (ClaimSequence t a n) f).1 = Ok (OBool (forallb (λ p, p <? n) (accepted (composite_key t a) h))).
Proof.
  intros Hh Hok. destruct (history_remembers h f Hh Hok) as (s & Hr & [Q _]).
  destruct (claim_refines t a n f s Hr) as [-> _]. cbn. destruct (Q (composite_key t a)) as [Hs ->].
  split; [done|]. set (l := accepted _ h) in *. clearbody l.
  destruct (last l) as [p|] eqn:E; [|by apply last_None in E as ->].
  apply last_Some in E as [l' ->]. rewrite forallb_app. cbn. rewrite andb_true_r, Z.leb_antisym.
  destruct (Z.ltb_spec p n) as [Hlt|]; cbn; [|by rewrite andb_false_r]. rewrite andb_true_r. do 2 f_equal.
  symmetry. apply forallb_forall. intros x Hx%list_elem_of_In. apply Z.ltb_lt.
  apply (StronglySorted_app_lt _ _ _ Hs) in Hx. lia.
Qed.

(** Idempotency.  In every history, a lookup returns nothing before the
    first successful save of its key, and afterwards the response of the latest
    one if the fingerprint is that of the saves (which is the same for all of
    them), and a conflict otherwise. *)
Theorem get_idempotent_exact h f ns k fp :
  history h f → history_ok h →
  (∀ x y, x ∈ saved (composite_key ns k) h → y ∈ saved (composite_key ns k) h → x.1 = y.1) ∧
  (exec (GetIdempotent ns k fp) f).1 =
    match last (saved (composite_key ns k) h) with
    | None => Ok (OResponse None)
    | Some (fp', r) => if str_eqb fp' fp then Ok (OResponse (Some r)) else Raise conflict
    end.
Proof.
  intros Hh Hok. destruct (history_remembers h f Hh Hok) as (s & Hr & [_ R]).
  destruct (get_refines ns k fp f s Hr) as [-> _]. cbn. by destruct (R (composite_key ns k)) as [Hs ->].
Qed.

(** ** Concrete inputs *)

Definition example_ops : list op :=
  [ClaimSequence "t" "buoy" 5; SaveIdempotent "t:POST" "k1" "fp" "resp"; ClaimSequence "t" "buoy" 5;
   SetValue "strategic" "latest" (JNum 1); ClaimSequence "t" "buoy" 7].

(** The history of a list of operations from a missing file. *)
Definition example_history (ops : list op) : list (op * res outcome) * file :=
  foldl (λ hf o, (hf.1 ++ [(o, (exec o hf.2).1)], (exec o hf.2).2)) ([], NoFile) ops.

Lemma example_history_ok ops : history (example_history ops).1 (example_history ops).2.
Proof.
  unfold example_history. induction ops as [|ops o IH] using rev_ind; [constructor|].
  rewrite foldl_snoc. cbn. by constructor.
Qed.

Lemma state_refines_witness :
  (run exec example_ops NoFile).1 = [Ok (OBool true); Ok OUnit; Ok (OBool false); Ok OUnit; Ok (OBool true)].
Proof.
  assert (Forall op_ok example_ops) as H.
  { repeat constructor; intros [E|E]; discriminate E. }
  destruct (state_refines example_ops NoFile empty_store H represents_start) as [E _].
  rewrite E. vm_compute. reflexivity.
Defined.

Lemma claim_exact_witness :
  (exec (ClaimSequence "t" "buoy" 6) (example_history example_ops).2).1 = Ok (OBool false).
Proof.
  assert (history_ok (example_history example_ops).1) as H.
  { cbn. repeat constructor; intros [E|E]; discriminate E. }
  destruct (claim_exact _ _ "t" "buoy" 6 (example_history_ok example_ops) H) as [_ E].
  rewrite E. vm_compute. reflexivity.
Defined.

Lemma get_idempotent_exact_witness :
  (exec (GetIdempotent "t:POST" "k1" "other") (example_history example_ops).2).1 = Raise conflict.
Proof.
  assert (history_ok (example_history example_ops).1) as H.
  { cbn. repeat constructor; intros [E|E]; discriminate E. }
  destruct (get_idempotent_exact _ _ "t:POST" "k1" "other" (example_history_ok example_ops) H) as [_ E].
  rewrite E. vm_compute. reflexivity.
Defined.

(** Keys are joined with a colon, so the assets of two tenants can share their
    sequence: a fresh asset of tenant [a] is refused number 3 because asset [c] of
    tenant [a:b] has used 3. *)
Example keys_collide :
  (exec (ClaimSequence "a" "b:c" 3) (example_history [ClaimSequence "a:b" "c" 3]).2).1 = Ok (OBool false).
Proof. vm_compute. reflexivity. Qed.
