(* ===== verification/Sovereign.v ===== *)
(** * sovereign.py: security labels, the cross-domain filter and the audits

    Sets are [gset]s.  The set text that one message embeds depends on the
    iteration order of a Python set and is an argument ([repr_set]); what the
    air-gap audit reads from the environment, the disk and the mock provider is
    an argument too. *)

From Stdlib Require Import ZArith.
From S2P Require Import Prelude PyFloat PyFormat Domain.

Open Scope Z_scope.

Inductive DisseminationControl := CANADIAN_EYES_ONLY | FIVE_EYES | NATO_SECRET | NOFORN.

#[export] Instance DisseminationControl_eq_dec : EqDecision DisseminationControl.
Proof. solve_decision. Defined.

Record SecurityLabel := {
  sl_classification : DataClassification;
  sl_compartments : gset string;
  sl_dissemination_controls : gset string;
  sl_releasable_to : gset string;
  sl_owner_nation : string
}.

(** [name in {c.upper() for c in self.dissemination_controls}] *)
Definition has_control (l : SecurityLabel) (name : string) : bool :=
  bool_decide (name ∈ (set_map str_upper (sl_dissemination_controls l) : gset string)).

Definition FVEY : list string := ["CAN"; "USA"; "GBR"; "AUS"; "NZL"].

Definition is_authorized (l : SecurityLabel) (user_clearance : DataClassification) (user_nation : string)
    (user_compartments : gset string) : bool :=
  if level user_clearance <? level (sl_classification l) then false
  else if negb (bool_decide (sl_compartments l ⊆ user_compartments)) then false
  else if (has_control l "CANADIAN_EYES_ONLY" || has_control l "CEO") && negb (str_eqb user_nation "CAN") then false
  else if (has_control l "CAN_US_FVEY" || has_control l "REL_TO_FVEY") && negb (mem_str user_nation FVEY) then false
  else if has_control l "NOFORN" && negb (str_eqb user_nation (sl_owner_nation l)) then false
  else if has_control l "REL_TO_CAN" && negb (str_eqb user_nation "CAN")
            && negb (str_eqb user_nation (sl_owner_nation l)) then false
  else negb (negb (bool_decide (sl_releasable_to l = ∅)) && negb (bool_decide (user_nation ∈ sl_releasable_to l))
             && negb (str_eqb user_nation (sl_owner_nation l))).

(** Who may see what a label marks. *)
Record permitted (l : SecurityLabel) (clearance : DataClassification) (nation : string) (compartments : gset string)
    : Prop := {
  perm_level : level (sl_classification l) <= level clearance;
  perm_compartments : sl_compartments l ⊆ compartments;
  perm_canadian : has_control l "CANADIAN_EYES_ONLY" = true ∨ has_control l "CEO" = true → nation = "CAN";
  perm_fvey : has_control l "CAN_US_FVEY" = true ∨ has_control l "REL_TO_FVEY" = true → nation ∈ FVEY;
  perm_noforn : has_control l "NOFORN" = true → nation = sl_owner_nation l;
  perm_rel_can : has_control l "REL_TO_CAN" = true → nation = "CAN" ∨ nation = sl_owner_nation l;
  perm_releasable : sl_releasable_to l = ∅ ∨ nation ∈ sl_releasable_to l ∨ nation = sl_owner_nation l
}.

Lemma is_authorized_iff l clearance nation compartments :
  is_authorized l clearance nation compartments = true ↔ permitted l clearance nation compartments.
Proof.
  assert (∀ b x : bool, (if b then false else x) = negb b && x) as Eif by (by intros []).
  unfold is_authorized. rewrite !Eif, !andb_true_iff, !negb_true_iff, !andb_false_iff, !negb_false_iff, !orb_false_iff,
    Z.ltb_ge, !str_eqb_true, mem_str_true, !bool_decide_eq_true.
  split.
  - intros (H1 & H2 & H3 & H4 & H5 & H6 & H7). split; try done.
    + intros [E|E]; rewrite E in H3; naive_solver.
    + intros [E|E]; rewrite E in H4; naive_solver.
    + intros E. rewrite E in H5. naive_solver.
    + intros E. rewrite E in H6. naive_solver.
    + tauto.
  - intros [H1 H2 H3 H4 H5 H6 H7]. split_and!; try done.
    + destruct (has_control l "CANADIAN_EYES_ONLY"), (has_control l "CEO"); auto.
    + destruct (has_control l "CAN_US_FVEY"), (has_control l "REL_TO_FVEY"); auto.
    + destruct (has_control l "NOFORN"); auto.
    + destruct (has_control l "REL_TO_CAN"); [|auto]. destruct (H6 eq_refl); auto.
    + tauto.
Qed.

(** [sorted(s)] on a set of strings. *)
Definition sorted_set (s : gset string) : list string := sort_by str_leb (elements s).

Definition format_banner (l : SecurityLabel) : string :=
  str_join " " (
    [str_upper (DataClassification_value (sl_classification l))]
    ++ (if bool_decide (sl_compartments l = ∅) then []
        else ["// " +:+ str_join "/" (sorted_set (sl_compartments l))])
    ++ (if bool_decide (sl_dissemination_controls l = ∅) then []
        else ["// " +:+ str_join "/" (sorted_set (sl_dissemination_controls l))])).

(** ** The cross-domain filter *)

Section filter.
Context {V : Type} (repr_set : gset string → string).

Record CrossDomainTransferResult := {
  cd_allowed : bool;
  cd_source_classification : DataClassification;
  cd_target_classification : DataClassification;
  cd_sanitized_fields : list string;
  cd_rejection_reasons : list string;
  cd_sanitized_payload : gmap string V
}.

Definition sensitive_keys : list string :=
  ["private_key"; "internal_api_key"; "raw_sensor_ip"; "source_jwt"; "hmac_secret"].

Definition strip_step (acc : gmap string V * list string) (key : string) : gmap string V * list string :=
  match acc.1 !! key with
  | Some _ => (delete key acc.1, acc.2 ++ [key])
  | None => acc
  end.

Definition rejected (l : SecurityLabel) (target : DataClassification) (reason : string) : CrossDomainTransferResult :=
  {| cd_allowed := false; cd_source_classification := sl_classification l; cd_target_classification := target;
     cd_sanitized_fields := []; cd_rejection_reasons := [reason]; cd_sanitized_payload := ∅ |}.

Definition filter_payload (payload : gmap string V) (source_label : SecurityLabel)
    (target_clearance : DataClassification) (target_nation : string) (target_compartments : gset string)
    : CrossDomainTransferResult :=
  if level target_clearance <? level (sl_classification source_label) then
    rejected source_label target_clearance
      ("Classification downgrade prohibited: source is " +:+ DataClassification_value (sl_classification source_label)
        +:+ " but target clearance is " +:+ DataClassification_value target_clearance)
  else if negb (is_authorized source_label target_clearance target_nation target_compartments) then
    rejected source_label target_clearance
      ("Dissemination controls violated for nation=" +:+ target_nation +:+ " controls="
        +:+ repr_set (sl_dissemination_controls source_label))
  else
    let '(sanitized, fields) := foldl strip_step (payload, []) sensitive_keys in
    {| cd_allowed := true; cd_source_classification := sl_classification source_label;
       cd_target_classification := target_clearance; cd_sanitized_fields := fields; cd_rejection_reasons := [];
       cd_sanitized_payload := sanitized |}.

(** *** Stripping *)

Lemma strip_lookup keys payload fields k :
  (foldl strip_step (payload, fields) keys).1 !! k = if decide (k ∈ keys) then None else payload !! k.
Proof using.
  revert payload fields. induction keys as [|key keys IH]; intros payload fields; cbn [foldl].
  { rewrite decide_False; [done|]. by intros ?%elem_of_nil. }
  unfold strip_step at 2. cbn [fst snd]. destruct (payload !! key) as [v|] eqn:E; rewrite IH.
  - destruct (decide (k ∈ keys)) as [H|H]; [by rewrite decide_True by by right|].
    destruct (decide (k = key)) as [->|Hne].
    + rewrite lookup_delete_eq, decide_True; [done|by left].
    + rewrite lookup_delete_ne by done. rewrite decide_False; [done|]. by intros [->|?]%elem_of_cons.
  - destruct (decide (k ∈ keys)) as [H|H]; [by rewrite decide_True by by right|].
    destruct (decide (k = key)) as [->|Hne]; [rewrite decide_True; [done|by left]|].
    rewrite decide_False; [done|]. by intros [->|?]%elem_of_cons.
Qed.

Lemma strip_fields keys payload fields k :
  k ∈ (foldl strip_step (payload, fields) keys).2 ↔ k ∈ fields ∨ (k ∈ keys ∧ is_Some (payload !! k)).
Proof using.
  revert payload fields. induction keys as [|key keys IH]; intros payload fields; cbn [foldl].
  { cbn. rewrite elem_of_nil. tauto. }
  unfold strip_step at 2. cbn [fst snd]. rewrite elem_of_cons. destruct (payload !! key) as [v|] eqn:E; rewrite IH.
  - rewrite elem_of_app, list_elem_of_singleton. destruct (decide (k = key)) as [->|Hne].
    + rewrite E. naive_solver.
    + rewrite lookup_delete_ne by done. tauto.
  - split; [tauto|]. intros [Hf|[[->|Hk] Hs]]; [tauto| |tauto]. rewrite E in Hs. by destruct Hs.
Qed.

(** C23.  The cross-domain filter releases a payload exactly to those the label
    permits; what it releases is the payload less the sensitive keys, which are
    the fields it reports, and a refusal releases nothing and gives a reason. *)
Theorem filter_payload_exact payload l clearance nation compartments :
  let r := filter_payload payload l clearance nation compartments in
  (cd_allowed r = true ↔ permitted l clearance nation compartments) ∧
  (cd_allowed r = true →
    (∀ k, cd_sanitized_payload r !! k = if decide (k ∈ sensitive_keys) then None else payload !! k) ∧
    (∀ k, k ∈ cd_sanitized_fields r ↔ k ∈ sensitive_keys ∧ is_Some (payload !! k))) ∧
  (cd_allowed r = false → cd_sanitized_payload r = ∅ ∧ length (cd_rejection_reasons r) = 1%nat).
Proof using.
  cbn zeta. rewrite <-is_authorized_iff. unfold filter_payload. destruct (_ <? _) eqn:El.
  { cbn. split_and!; [|done|done]. split; [done|]. intros H%is_authorized_iff. apply perm_level in H. bool_norm. lia. }
  destruct (is_authorized l clearance nation compartments); cbn [negb]; [|by cbn; split_and!].
  destruct (foldl strip_step (payload, []) sensitive_keys) as [sanitized fields] eqn:E. cbn. split_and!; [done| |done].
  intros _. split.
  - intros k. by rewrite <-(strip_lookup sensitive_keys payload []), E.
  - intros k. pose proof (strip_fields sensitive_keys payload [] k) as H. rewrite E, elem_of_nil in H. cbn in H. tauto.
Qed.
End filter.

(** ** The audits *)

Record AirGapAuditCheck := {
  ac_check_name : string;
  ac_status : string;
  ac_details : string
}.

Record AirGapAuditReport := {
  ag_compliant : bool;
  ag_total_checks : Z;
  ag_passed_checks : Z;
  ag_checks : list AirGapAuditCheck;
  ag_summary : string
}.

(** What the audit reads: the variable [CONTINUITY_ALLOW_OUTBOUND_HTTP], the
    mock provider (the number of its observations and whether it works offline,
    or the text of the exception it raised), and the directories. *)
Record surroundings := {
  su_allow_outbound : option string;
  su_mock : (Z * bool) + string;
  su_key_dir_exists : bool;
  su_examples_exists : bool;
  su_var_dir : string
}.

Definition audit_check (name status details : string) : AirGapAuditCheck :=
  {| ac_check_name := name; ac_status := status; ac_details := details |}.

Definition count_check_status (status : string) (checks : list AirGapAuditCheck) : Z :=
  Z.of_nat (length (List.filter (λ c, str_eqb (ac_status c) status) checks)).

Definition audit (env : surroundings) : AirGapAuditReport :=
  let outbound_disabled :=
    mem_str (str_lower (default "false" (su_allow_outbound env))) ["false"; "0"; "no"] in
  let checks :=
    [audit_check "OUTBOUND_NETWORK_DISABLED" (if outbound_disabled then "PASS" else "FAIL")
       (if outbound_disabled then "Outbound HTTP/HTTPS calls disabled by default in policy gate"
        else "CONTINUITY_ALLOW_OUTBOUND_HTTP is enabled!");
     match su_mock env with
     | inl (n, offline) =>
         audit_check "OFFLINE_TELEMETRY_PROVIDER" (if (8 <=? n) && offline then "PASS" else "FAIL")
           ("Offline MockProvider verified (" +:+ str_Z n +:+ " synthetic telemetry feeds)")
     | inr exc => audit_check "OFFLINE_TELEMETRY_PROVIDER" "FAIL" ("MockProvider instantiation error: " +:+ exc)
     end;
     audit_check "LOCAL_CRYPTO_ISOLATION" (if su_key_dir_exists env || su_examples_exists env then "PASS" else "WARN")
       "Local signing operational (Ed25519/SHA-256 without external KMS)";
     audit_check "LOCAL_DATA_ENCLAVE" "PASS" ("Local data root configured at " +:+ su_var_dir env)] in
  let passed := count_check_status "PASS" checks in
  let total := Z.of_nat (length checks) in
  let compliant := passed =? total in
  {| ag_compliant := compliant; ag_total_checks := total; ag_passed_checks := passed; ag_checks := checks;
     ag_summary := "Air-Gap SCIF Audit: " +:+ str_Z passed +:+ "/" +:+ str_Z total +:+ " checks PASSED (compliant="
       +:+ str_bool compliant +:+ ")" |}.

Record PBMMControlStatus := {
  pc_control_id : string;
  pc_domain : string;
  pc_name : string;
  pc_status : string;
  pc_evidence : string
}.

Record PBMMComplianceReport := {
  pr_is_compliant : bool;
  pr_data_residency_region : string;
  pr_canadian_sovereignty_enforced : bool;
  pr_evaluated_controls_count : Z;
  pr_satisfied_controls_count : Z;
  pr_controls : list PBMMControlStatus;
  pr_summary : string
}.

Definition CANADIAN_SOVEREIGN_REGIONS : list string :=
  ["ca-central-1"; "ca-west-1"; "canadacentral"; "canadaeast"; "northamerica-northeast1"; "northamerica-northeast2";
   "on-premise-scif-canada"].

Definition control (id domain name : string) (ok : bool) (otherwise evidence : string) : PBMMControlStatus :=
  {| pc_control_id := id; pc_domain := domain; pc_name := name; pc_status := if ok then "SATISFIED" else otherwise;
     pc_evidence := evidence |}.

Definition validate_deployment (region : string) (encryption_at_rest_cmk : bool) (tls_version : string)
    (airgap_capable immutable_evidence_chain rbac_clearance_filtering : bool) : PBMMComplianceReport :=
  let is_tls_ok := mem_str tls_version ["1.3"; "1.2"] in
  let is_residency_ok := mem_str (str_lower region) CANADIAN_SOVEREIGN_REGIONS in
  let controls :=
    [control "AC-3" "Access Control" "Access Enforcement & Clearance Boundary" rbac_clearance_filtering
       "PARTIALLY_SATISFIED" "SecurityLabel checking with PROTECTED_B and Canadian Eyes Only controls";
     control "SC-8" "System and Communications Protection" "Transmission Confidentiality (In-Transit Encryption)"
       is_tls_ok "PARTIALLY_SATISFIED"
       ("Enforced TLS " +:+ tls_version +:+ " with mutual TLS across sovereign endpoints");
     control "SC-28" "System and Communications Protection" "Cryptographic Protection at Rest" encryption_at_rest_cmk
       "PARTIALLY_SATISFIED" "Customer Managed Keys (CMK) / CloudHSM / Ed25519 payload encryption";
     control "AU-9" "Audit and Accountability" "Protection of Audit Records (Tamper Evidence)"
       immutable_evidence_chain "PARTIALLY_SATISFIED"
       "Append-only SHA-256 ledger with Ed25519 signatures and Merkle proofs";
     control "MP-5" "Media Protection / Sovereignty" "Canadian Data Residency & Sovereignty" is_residency_ok
       "NOT_APPLICABLE" ("Data strictly confined to Canadian sovereign enclave region: " +:+ region);
     control "CP-2" "Contingency Planning" "Air-Gapped Operation & Degraded State Continuity" airgap_capable
       "PARTIALLY_SATISFIED" "Zero-egress offline operation mode with synthetic mock telemetry feeds"] in
  let satisfied := Z.of_nat (length (List.filter (λ c, str_eqb (pc_status c) "SATISFIED") controls)) in
  let total := Z.of_nat (length controls) in
  {| pr_is_compliant := (satisfied =? total) && is_residency_ok; pr_data_residency_region := region;
     pr_canadian_sovereignty_enforced := is_residency_ok; pr_evaluated_controls_count := total;
     pr_satisfied_controls_count := satisfied; pr_controls := controls;
     pr_summary := "ITSG-33 / PBMM Audit: " +:+ str_Z satisfied +:+ "/" +:+ str_Z total +:+ " controls SATISFIED. "
       +:+ "Canadian Data Residency in " +:+ region +:+ ": " +:+ (if is_residency_ok then "ENFORCED" else "FAILED")
       +:+ "." |}.

(** A deployment is compliant exactly when every condition holds. *)
Lemma validate_deployment_iff region cmk tls airgap chain rbac :
  pr_is_compliant (validate_deployment region cmk tls airgap chain rbac) =
  (rbac && mem_str tls ["1.3"; "1.2"] && cmk && chain && mem_str (str_lower region) CANADIAN_SOVEREIGN_REGIONS && airgap).
Proof.
  unfold validate_deployment. cbn [pr_is_compliant].
  destruct rbac, (mem_str tls _), cmk, chain, (mem_str (str_lower region) _), airgap; reflexivity.
Qed.

Lemma audit_iff env :
  ag_compliant (audit env) =
  (mem_str (str_lower (default "false" (su_allow_outbound env))) ["false"; "0"; "no"]
   && match su_mock env with inl (n, offline) => (8 <=? n) && offline | inr _ => false end
   && (su_key_dir_exists env || su_examples_exists env)).
Proof.
  unfold audit. cbn [ag_compliant].
  destruct (mem_str _ _), (su_mock env) as [[n offline]|exc]; [destruct (8 <=? n), offline| |destruct (8 <=? n), offline|];
    destruct (su_key_dir_exists env || su_examples_exists env); reflexivity.
Qed.

(** A label that is only releasable to NATO, by its dissemination control, is
    open to any nation: the control is documented but not tested. *)
Example rel_to_nato_not_enforced :
  is_authorized {| sl_classification := DC_SECRET; sl_compartments := ∅; sl_dissemination_controls := {["REL_TO_NATO"]};
                   sl_releasable_to := ∅; sl_owner_nation := "CAN" |} DC_SECRET "RUS" ∅ = true.
Proof. vm_compute. reflexivity. Qed.

Lemma filter_payload_exact_witness :
  cd_sanitized_payload (filter_payload (λ _, "{}") {["hmac_secret" := 1%Z; "route" := 2%Z]}
    {| sl_classification := DC_SECRET; sl_compartments := ∅; sl_dissemination_controls := {["noforn"]};
       sl_releasable_to := ∅; sl_owner_nation := "CAN" |} DC_TOP_SECRET "CAN" ∅) !! "hmac_secret" = None.
Proof.
  destruct (filter_payload_exact (λ _, "{}") {["hmac_secret" := 1%Z; "route" := 2%Z]}
    {| sl_classification := DC_SECRET; sl_compartments := ∅; sl_dissemination_controls := {["noforn"]};
       sl_releasable_to := ∅; sl_owner_nation := "CAN" |} DC_TOP_SECRET "CAN" ∅) as (_ & H & _).
  destruct H as [H _]; [vm_compute; reflexivity|]. rewrite H. reflexivity.
Defined.
