(* ===== verification/Rbac.v ===== *)
(** * rbac.py: roles, permissions and access decisions *)

From Stdlib Require Import ZArith.
From S2P Require Import Prelude PyFloat Domain Sovereign.

Open Scope Z_scope.

Inductive SovereignRole :=
| SOVEREIGN_COMMANDER
| TENANT_ADMIN
| OPERATOR_ANALYST
| SECURITY_AUDITOR
| SCIF_AIRGAP_OPERATOR
| NATO_LIAISON_VIEWER.

#[export] Instance SovereignRole_eq_dec : EqDecision SovereignRole.
Proof. solve_decision. Defined.

Inductive Permission :=
| READ_PUBLIC
| READ_PROTECTED
| READ_SECRET
| READ_TOP_SECRET
| INGEST_TELEMETRY
| COMPILE_PLAN
| TRIGGER_WARGAME
| MUTATE_NETWORK
| VERIFY_LEDGER
| EXPORT_COP
| MANAGE_CLUSTER
| ADMIN_TENANTS.

#[export] Instance Permission_eq_dec : EqDecision Permission.
Proof. solve_decision. Defined.

Definition Permission_value (x : Permission) : string :=
  match x with
  | READ_PUBLIC => "read_public"
  | READ_PROTECTED => "read_protected"
  | READ_SECRET => "read_secret"
  | READ_TOP_SECRET => "read_top_secret"
  | INGEST_TELEMETRY => "ingest_telemetry"
  | COMPILE_PLAN => "compile_plan"
  | TRIGGER_WARGAME => "trigger_wargame"
  | MUTATE_NETWORK => "mutate_network"
  | VERIFY_LEDGER => "verify_ledger"
  | EXPORT_COP => "export_cop"
  | MANAGE_CLUSTER => "manage_cluster"
  | ADMIN_TENANTS => "admin_tenants"
  end.

(** A set of permissions per role. *)
Definition ROLE_PERMISSIONS (role : SovereignRole) : list Permission :=
  match role with
  | SOVEREIGN_COMMANDER =>
      [READ_PUBLIC; READ_PROTECTED; READ_SECRET; READ_TOP_SECRET; INGEST_TELEMETRY; COMPILE_PLAN; TRIGGER_WARGAME;
       MUTATE_NETWORK; VERIFY_LEDGER; EXPORT_COP; MANAGE_CLUSTER; ADMIN_TENANTS]
  | TENANT_ADMIN =>
      [READ_PUBLIC; READ_PROTECTED; READ_SECRET; INGEST_TELEMETRY; COMPILE_PLAN; TRIGGER_WARGAME; MUTATE_NETWORK;
       VERIFY_LEDGER; EXPORT_COP; MANAGE_CLUSTER]
  | OPERATOR_ANALYST =>
      [READ_PUBLIC; READ_PROTECTED; READ_SECRET; INGEST_TELEMETRY; COMPILE_PLAN; TRIGGER_WARGAME; EXPORT_COP]
  | SECURITY_AUDITOR => [READ_PUBLIC; READ_PROTECTED; READ_SECRET; VERIFY_LEDGER]
  | SCIF_AIRGAP_OPERATOR =>
      [READ_PUBLIC; READ_PROTECTED; READ_SECRET; INGEST_TELEMETRY; COMPILE_PLAN; MANAGE_CLUSTER; VERIFY_LEDGER]
  | NATO_LIAISON_VIEWER => [READ_PUBLIC; READ_PROTECTED; EXPORT_COP]
  end.

Record SovereignIdentity := {
  id_user_id : string;
  id_tenant_id : string;
  id_roles : list SovereignRole;
  id_clearance_level : DataClassification;
  id_citizenship_nation : string;
  id_authorized_caveats : list DisseminationControl
}.

Record AuthorizationDecision := {
  ad_decision_id : string;
  ad_user_id : string;
  ad_tenant_id : string;
  ad_is_authorized : bool;
  ad_requested_permission : Permission;
  ad_resource_classification : DataClassification;
  ad_rejection_reason : option string
}.

Section evaluator.
Context (decision_id : string) (identity : SovereignIdentity) (target_tenant_id : string)
  (required_permission : Permission) (resource_classification : DataClassification)
  (required_dissemination : option DisseminationControl).

Definition decide_access (rejection_reason : option string) : AuthorizationDecision :=
  {| ad_decision_id := decision_id; ad_user_id := id_user_id identity; ad_tenant_id := id_tenant_id identity;
     ad_is_authorized := match rejection_reason with None => true | Some _ => false end;
     ad_requested_permission := required_permission; ad_resource_classification := resource_classification;
     ad_rejection_reason := rejection_reason |}.

(** The union of the permissions of the roles. *)
Definition user_perms : list Permission :=
  foldl (λ perms role, set_update perms (ROLE_PERMISSIONS role)) [] (id_roles identity).

Definition evaluate_access : AuthorizationDecision :=
  if negb (str_eqb (id_tenant_id identity) target_tenant_id)
     && negb (bool_decide (SOVEREIGN_COMMANDER ∈ id_roles identity)) then
    decide_access (Some ("Cross-tenant isolation violation: User tenant '" +:+ id_tenant_id identity
      +:+ "' cannot access target tenant '" +:+ target_tenant_id +:+ "'"))
  else if negb (bool_decide (required_permission ∈ user_perms)) then
    decide_access (Some ("Role lacks permission '" +:+ Permission_value required_permission +:+ "'"))
  else if level (id_clearance_level identity) <? level resource_classification then
    decide_access (Some ("Insufficient security clearance: User has '"
      +:+ DataClassification_value (id_clearance_level identity) +:+ "' but resource requires '"
      +:+ DataClassification_value resource_classification +:+ "'"))
  else if bool_decide (required_dissemination = Some CANADIAN_EYES_ONLY)
          && negb (str_eqb (id_citizenship_nation identity) "CAN") then
    decide_access (Some ("Nationality restriction: Resource is CANADIAN_EYES_ONLY but user is '"
      +:+ id_citizenship_nation identity +:+ "'"))
  else decide_access None.

Lemma elem_of_user_perms perm : perm ∈ user_perms ↔ ∃ role, role ∈ id_roles identity ∧ perm ∈ ROLE_PERMISSIONS role.
Proof using.
  unfold user_perms. assert (∀ roles perms, perm ∈ foldl (λ perms role, set_update perms (ROLE_PERMISSIONS role)) perms roles ↔
    perm ∈ perms ∨ ∃ role, role ∈ roles ∧ perm ∈ ROLE_PERMISSIONS role) as H.
  { induction roles as [|role roles IH]; intros perms; cbn [foldl].
    - split; [by left|]. intros [?|(r & Hr & _)]; [done|]. by apply elem_of_nil in Hr.
    - rewrite IH, elem_of_set_update. split.
      + intros [[?|?]|(r & Hr & Hp)]; [by left|right; exists role|right; exists r]; (split; [|done]); [left|by right].
      + intros [?|(r & [->|Hr]%elem_of_cons & Hp)]; [by left; left|by left; right|right; eauto]. }
  rewrite H. split; [|by right]. by intros [?%elem_of_nil|?].
Qed.

Lemma evaluate_access_guards :
  ad_is_authorized evaluate_access =
  negb (negb (str_eqb (id_tenant_id identity) target_tenant_id) && negb (bool_decide (SOVEREIGN_COMMANDER ∈ id_roles identity)))
  && bool_decide (required_permission ∈ user_perms)
  && negb (level (id_clearance_level identity) <? level resource_classification)
  && negb (bool_decide (required_dissemination = Some CANADIAN_EYES_ONLY) && negb (str_eqb (id_citizenship_nation identity) "CAN")).
Proof using.
  unfold evaluate_access. destruct (negb (str_eqb (id_tenant_id identity) _) && _); [done|].
  destruct (bool_decide (required_permission ∈ user_perms)); [|done]. destruct (_ <? _); [done|].
  by destruct (bool_decide (required_dissemination = _) && _).
Qed.

(** C22.  Access is granted exactly when all four guards pass: the tenant is the
    user's own or the user is a sovereign commander; some role of the user has
    the permission; the clearance reaches the classification; and a resource for
    Canadian eyes only is asked for by a Canadian.  A decision has a rejection
    reason exactly when it refuses. *)
Theorem evaluate_access_exact :
  let d := evaluate_access in
  (ad_is_authorized d = true ↔
    (id_tenant_id identity = target_tenant_id ∨ SOVEREIGN_COMMANDER ∈ id_roles identity) ∧
    (∃ role, role ∈ id_roles identity ∧ required_permission ∈ ROLE_PERMISSIONS role) ∧
    level resource_classification <= level (id_clearance_level identity) ∧
    (required_dissemination = Some CANADIAN_EYES_ONLY → id_citizenship_nation identity = "CAN")) ∧
  (ad_is_authorized d = true ↔ ad_rejection_reason d = None).
Proof using.
  cbn zeta. rewrite <-elem_of_user_perms. split.
  - rewrite evaluate_access_guards, !andb_true_iff, !negb_true_iff, !andb_false_iff, !negb_false_iff, Z.ltb_ge,
      !str_eqb_true, !bool_decide_eq_true, !bool_decide_eq_false.
    destruct (decide (required_dissemination = Some CANADIAN_EYES_ONLY)); tauto.
  - unfold evaluate_access. repeat case_match; done.
Qed.
End evaluator.

(** Caveats are recorded on identities but never read: two identities that
    differ in them get the same answer. *)
Lemma caveats_ignored id i caveats tenant perm c d :
  ad_is_authorized (evaluate_access id i tenant perm c d) =
  ad_is_authorized (evaluate_access id
    {| id_user_id := id_user_id i; id_tenant_id := id_tenant_id i; id_roles := id_roles i;
       id_clearance_level := id_clearance_level i; id_citizenship_nation := id_citizenship_nation i;
       id_authorized_caveats := caveats |} tenant perm c d).
Proof. by rewrite !evaluate_access_guards. Qed.

Definition example_identity (nation : string) : SovereignIdentity :=
  {| id_user_id := "u"; id_tenant_id := "t1"; id_roles := [SECURITY_AUDITOR; OPERATOR_ANALYST];
     id_clearance_level := DC_SECRET; id_citizenship_nation := nation; id_authorized_caveats := [] |}.

Example example_access :
  (ad_is_authorized (evaluate_access "d" (example_identity "CAN") "t1" COMPILE_PLAN DC_SECRET (Some CANADIAN_EYES_ONLY)),
   ad_rejection_reason (evaluate_access "d" (example_identity "GBR") "t1" COMPILE_PLAN DC_SECRET (Some CANADIAN_EYES_ONLY)),
   ad_rejection_reason (evaluate_access "d" (example_identity "CAN") "t1" MANAGE_CLUSTER DC_SECRET None)) =
  (true, Some "Nationality restriction: Resource is CANADIAN_EYES_ONLY but user is 'GBR'",
   Some "Role lacks permission 'manage_cluster'").
Proof. vm_compute. reflexivity. Qed.

(** A resource marked NOFORN is open to a foreign user with the permission. *)
Example noforn_not_enforced :
  ad_is_authorized (evaluate_access "d" (example_identity "RUS") "t1" COMPILE_PLAN DC_SECRET (Some NOFORN)) = true.
Proof. vm_compute. reflexivity. Qed.

Lemma evaluate_access_exact_witness :
  ad_is_authorized (evaluate_access "d" (example_identity "CAN") "t1" COMPILE_PLAN DC_SECRET (Some CANADIAN_EYES_ONLY)) = true.
Proof.
  destruct (evaluate_access_exact "d" (example_identity "CAN") "t1" COMPILE_PLAN DC_SECRET (Some CANADIAN_EYES_ONLY))
    as [H _]. apply H.
  split; [left; reflexivity|]. split; [exists OPERATOR_ANALYST; split; apply (bool_decide_unpack _); vm_compute; exact I|].
  split; [vm_compute; discriminate|reflexivity].
Defined.
