(* ===== verification/Sso.v ===== *)
(** * sso.py: certificate subjects and attribute-based access

    The subject of a certificate is searched with three regular expressions of the
    form KEY=([^,]+), unanchored, as [re.search] does; the access decision compares
    positions in a list of five classification levels.  Digits and case are ASCII. *)

From Stdlib Require Import ZArith Ascii.
From S2P Require Import Prelude PyFormat Domain Sovereign Rbac.

Open Scope Z_scope.

(** ** Text *)

Definition is_comma (c : ascii) : bool := Ascii.eqb c (ascii_of_N 44).

(** The longest run of characters other than a comma. *)
Fixpoint until_comma (s : string) : string :=
  match s with EmptyString => EmptyString | String c s => if is_comma c then EmptyString else String c (until_comma s) end.

(** [s] without the prefix [p], if it has it. *)
Fixpoint after_prefix (p s : string) : option string :=
  match p, s with
  | EmptyString, _ => Some s
  | String a p, String b s => if Ascii.eqb a b then after_prefix p s else None
  | String _ _, EmptyString => None
  end.

(** The group of [re.search(key + "([^,]+)", s)], also the first of [re.findall]. *)
Fixpoint search (key s : string) : option string :=
  match (match after_prefix key s with
         | Some rest => if str_empty (until_comma rest) then None else Some (until_comma rest)
         | None => None
         end) with
  | Some group => Some group
  | None => match s with EmptyString => None | String _ s => search key s end
  end.

(** [s.split(".")] *)
Fixpoint split_dot (s : string) : string * list string :=
  match s with
  | EmptyString => (EmptyString, [])
  | String c s => let '(p, ps) := split_dot s in
                  if Ascii.eqb c (ascii_of_N 46) then (EmptyString, p :: ps) else (String c p, ps)
  end.
Definition parts_of (s : string) : list string := let '(p, ps) := split_dot s in p :: ps.

Fixpoint all_digits (s : string) : bool :=
  match s with
  | EmptyString => true
  | String c s => let n := N_of_ascii c in ((48 <=? n) && (n <=? 57))%N && all_digits s
  end.

(** [s.isdigit()] *)
Definition isdigit (s : string) : bool := negb (str_empty s) && all_digits s.

(** ** Identities *)

Record AuthenticatedIdentity := {
  ai_identity_id : string;
  ai_common_name : string;
  ai_organization : string;
  ai_citizenship : string;
  ai_clearance_level : DataClassification;
  ai_roles : list string;
  ai_authenticated_via : string;
  ai_token_issued_at : datetime
}.

Definition citizenship_of (country : string) : string :=
  if mem_str country ["US"; "USA"] then "USA"
  else if mem_str country ["GB"; "GBR"; "UK"] then "GBR"
  else if mem_str country ["AU"; "AUS"] then "AUS"
  else "CAN".

Definition parse_x509_subject (subject_dn : string) (now : datetime) : AuthenticatedIdentity :=
  let raw_cn := match search "CN=" subject_dn with Some g => str_strip g | None => "UNKNOWN_OFFICER" end in
  let org := match search "OU=" subject_dn with Some g => str_strip g | None => "Department of National Defence" end in
  let country := match search "C=" subject_dn with Some g => str_upper (str_strip g) | None => "CAN" end in
  let parts := parts_of raw_cn in
  let many := (1 <? length parts)%nat in
  {| ai_identity_id := if many && isdigit (List.last parts "") then List.last parts "" else raw_cn;
     ai_common_name := if many then str_join " " (removelast parts) else raw_cn;
     ai_organization := org; ai_citizenship := citizenship_of country; ai_clearance_level := DC_PROTECTED_B;
     ai_roles := ["Analyst"; "Operator"]; ai_authenticated_via := "CAC_PIV"; ai_token_issued_at := now |}.

(** ** Access *)

Definition hierarchy : list DataClassification := [DC_UNCLASSIFIED; DC_RESTRICTED; DC_PROTECTED_B; DC_SECRET; DC_TOP_SECRET].

(** [l.index(x)] *)
Fixpoint index_of (l : list DataClassification) (x : DataClassification) : res nat :=
  match l with
  | [] => Raise (ValueError "is not in list")
  | y :: l => if decide (x = y) then Ok 0%nat else S <$> index_of l x
  end.

Definition five_eyes_countries : list string := ["CAN"; "USA"; "GBR"; "AUS"; "NZL"].

Definition authorize_access (identity : AuthenticatedIdentity) (resource_classification : DataClassification)
    (requires_canadian_eyes_only requires_five_eyes : bool) : res (bool * string) :=
  user_rank ← index_of hierarchy (ai_clearance_level identity);
  req_rank ← index_of hierarchy resource_classification;
  Ok (if (user_rank <? req_rank)%nat then
        (false, "ACCESS_DENIED: Clearance '" +:+ DataClassification_value (ai_clearance_level identity)
                +:+ "' insufficient for resource '" +:+ DataClassification_value resource_classification +:+ "'")
      else if requires_canadian_eyes_only && negb (str_eqb (ai_citizenship identity) "CAN") then
        (false, "ACCESS_DENIED: Resource restricted to Canadian Eyes Only (Identity citizenship is '"
                +:+ ai_citizenship identity +:+ "')")
      else if requires_five_eyes && negb (mem_str (ai_citizenship identity) five_eyes_countries) then
        (false, "ACCESS_DENIED: Resource restricted to Five Eyes Allied Personnel (Identity citizenship is '"
                +:+ ai_citizenship identity +:+ "')")
      else (true, "AUTHORIZED")).

(** ** The decision *)

Lemma index_of_ok l x : x ∈ l → ∃ i, index_of l x = Ok i.
Proof.
  induction l as [|y l IH]; [by intros ?%elem_of_nil|]. intros H. cbn. destruct (decide (x = y)); [by eexists|].
  apply elem_of_cons in H as [?|H]; [done|]. destruct (IH H) as [i ->]. by eexists.
Qed.

Lemma index_of_error l x : x ∉ l → index_of l x = Raise (ValueError "is not in list").
Proof.
  induction l as [|y l IH]; [done|]. intros H. apply not_elem_of_cons in H as [Hne H]. cbn.
  destruct (decide (x = y)); [done|]. by rewrite IH.
Qed.

(** A level of the list, by cases. *)
Ltac hierarchy_cases H :=
  unfold hierarchy in H; repeat (apply elem_of_cons in H as [->|H]; [|]); [..|by apply elem_of_nil in H].

(** The rank test is the comparison of [DataClassification.level], but for the one
    pair of levels that [level] ranks equal. *)
Lemma ranks_agree u r i j : index_of hierarchy u = Ok i → index_of hierarchy r = Ok j →
  (i <? j)%nat = (level u <? level r) || bool_decide (u = DC_RESTRICTED ∧ r = DC_PROTECTED_B).
Proof. destruct u, r; cbn; try discriminate; intros [= <-] [= <-]; reflexivity. Qed.

(** The access decision, against the clearance levels of rbac.py.  It is a
    [ValueError] exactly when one of the two levels is none of the five listed (six
    of the eleven levels are not).  Otherwise access is granted exactly when the
    resource is not above the clearance, with RESTRICTED below PROTECTED B, and the
    citizenship passes each restriction that applies. *)
Theorem authorize_exact identity resource ceo fvey :
  let u := ai_clearance_level identity in
  if bool_decide (u ∈ hierarchy ∧ resource ∈ hierarchy) then
    ∃ granted reason, authorize_access identity resource ceo fvey = Ok (granted, reason) ∧
      (granted = true ↔
        level resource <= level u ∧ ¬ (u = DC_RESTRICTED ∧ resource = DC_PROTECTED_B) ∧
        (ceo = true → ai_citizenship identity = "CAN") ∧
        (fvey = true → ai_citizenship identity ∈ five_eyes_countries))
  else authorize_access identity resource ceo fvey = Raise (ValueError "is not in list").
Proof.
  intros u. unfold authorize_access. fold u. case_bool_decide as Hin.
  - destruct Hin as [Hu Hr]. destruct (index_of_ok _ _ Hu) as [i Ei], (index_of_ok _ _ Hr) as [j Ej].
    rewrite Ei, Ej. cbn [mbind res_bind]. rewrite (ranks_agree _ _ _ _ Ei Ej).
    destruct (Z.ltb_spec (level u) (level resource)) as [Hlt|Hle]; cbn [orb].
    { eexists _, _. split; [done|]. split; [done|]. intros (? & _). lia. }
    case_bool_decide as Hpair; [eexists _, _; split; [done|]; split; [done|]; by intros (_ & ? & _)|].
    destruct ceo; cbn [andb negb].
    + destruct (str_eqb (ai_citizenship identity) "CAN") eqn:Ec; cbn [negb].
      * apply str_eqb_true in Ec. rewrite Ec. destruct fvey; cbn [andb]; eexists _, _; (split; [done|]); split; try done.
        intros _. split_and!; [done..|]. intros _. by left.
      * eexists _, _. split; [done|]. split; [done|]. intros (_ & _ & H & _). rewrite (H eq_refl) in Ec. discriminate.
    + destruct fvey; cbn [andb].
      * unfold mem_str. case_bool_decide as Hm; cbn [negb]; eexists _, _; (split; [done|]); split; try done.
        intros (_ & _ & _ & H). by destruct (Hm (H eq_refl)).
      * eexists _, _. split; [done|]. split; done.
  - destruct (decide (u ∈ hierarchy)) as [Hu|Hu]; [|by rewrite (index_of_error _ _ Hu)].
    destruct (index_of_ok _ _ Hu) as [i ->]. cbn [mbind res_bind]. rewrite index_of_error; [done|]. intros Hr. by apply Hin.
Qed.

(** The countries that make a holder a foreigner. *)
Definition foreign_codes : list string := ["US"; "USA"; "GB"; "GBR"; "UK"; "AU"; "AUS"].

Definition foreign (subject_dn : string) : bool :=
  match search "C=" subject_dn with Some g => mem_str (str_upper (str_strip g)) foreign_codes | None => false end.

Lemma citizenship_foreign country :
  str_eqb (citizenship_of country) "CAN" = negb (mem_str country foreign_codes).
Proof.
  unfold citizenship_of, foreign_codes, mem_str. repeat case_bool_decide; try done; exfalso; set_solver.
Qed.

Lemma parsed_citizenship dn now : str_eqb (ai_citizenship (parse_x509_subject dn now)) "CAN" = negb (foreign dn).
Proof.
  unfold parse_x509_subject, foreign. cbn [ai_citizenship]. destruct (search "C=" dn) as [g|]; [|done].
  apply citizenship_foreign.
Qed.

(** Who passes for a Canadian.  A resource restricted to Canadian eyes is open to
    the holder of a certificate exactly when it is at most PROTECTED B and the
    country of the subject is not one of the seven codes of the United States, the
    United Kingdom and Australia: the certificates of every other country pass, and
    those that name no country. *)
Theorem canadian_eyes_exact dn now resource fvey :
  (∃ reason, authorize_access (parse_x509_subject dn now) resource true fvey = Ok (true, reason)) ↔
  resource ∈ [DC_UNCLASSIFIED; DC_RESTRICTED; DC_PROTECTED_B] ∧ foreign dn = false.
Proof.
  pose proof (parsed_citizenship dn now) as Hc. set (p := parse_x509_subject dn now) in *.
  assert (ai_clearance_level p = DC_PROTECTED_B) as Hl by done. clearbody p. unfold authorize_access. rewrite Hl.
  assert (∀ a, str_eqb a "CAN" = true → mem_str a five_eyes_countries = true) as Hfive.
  { intros a ->%str_eqb_true. reflexivity. }
  assert (∀ j, (∃ reason, Ok (if (2 <? j)%nat then (false, "ACCESS_DENIED: Clearance '" +:+ DataClassification_value DC_PROTECTED_B
                +:+ "' insufficient for resource '" +:+ DataClassification_value resource +:+ "'")
      else if true && negb (str_eqb (ai_citizenship p) "CAN") then
        (false, "ACCESS_DENIED: Resource restricted to Canadian Eyes Only (Identity citizenship is '"
                +:+ ai_citizenship p +:+ "')")
      else if fvey && negb (mem_str (ai_citizenship p) five_eyes_countries) then
        (false, "ACCESS_DENIED: Resource restricted to Five Eyes Allied Personnel (Identity citizenship is '"
                +:+ ai_citizenship p +:+ "')")
      else (true, "AUTHORIZED")) = Ok (true, reason)) ↔ (j <= 2)%nat ∧ foreign dn = false) as Hj.
  { intros j. destruct (Nat.ltb_spec 2 j); [split; [intros [? ?]; discriminate|lia]|]. cbn [andb]. rewrite Hc, negb_involutive.
    destruct (foreign dn); [split; [intros [? ?]; discriminate|by intros [? ?]]|].
    rewrite Hfive by done. rewrite andb_false_r. split; [done|]. intros _. by eexists. }
  destruct (decide (resource ∈ hierarchy)) as [Hr|Hr].
  - assert (∃ j, index_of hierarchy resource = Ok j ∧
      ((j <= 2)%nat ↔ resource ∈ [DC_UNCLASSIFIED; DC_RESTRICTED; DC_PROTECTED_B])) as (j & Ej & Hjr).
    { hierarchy_cases Hr; eexists; (split; [reflexivity|]); split; intros H; try lia; set_solver. }
    change (index_of hierarchy DC_PROTECTED_B) with (Ok 2%nat). rewrite Ej, <-Hjr. exact (Hj j).
  - rewrite (index_of_error _ _ Hr). cbn. split; [by intros [? ?]|]. intros [Hin _]. destruct Hr. unfold hierarchy. set_solver.
Qed.

(** A subject of another country, and a subject whose domain component is taken for
    its country, pass for Canadian. *)
Example other_countries_pass :
  ai_citizenship (parse_x509_subject "CN=IVANOV.IVAN.1234567890, OU=MOD, C=RU" {| dt_us := 0; dt_aware := true |}) = "CAN" ∧
  ai_citizenship (parse_x509_subject "CN=DOE.JANE.1234567890, DC=mil, C=US" {| dt_us := 0; dt_aware := true |}) = "CAN".
Proof. split; vm_compute; reflexivity. Qed.

Example names_of_subject :
  let i := parse_x509_subject "CN=SMITH.JOHN.D.1234567890, OU=DoD, OU=PKI, C=US" {| dt_us := 0; dt_aware := true |} in
  ai_identity_id i = "1234567890" ∧ ai_common_name i = "SMITH JOHN D" ∧ ai_organization i = "DoD" ∧ ai_citizenship i = "USA".
Proof. vm_compute. done. Qed.
