(* ===== verification/Evidence.v ===== *)
(** * evidence.py: the hash-chained evidence ledger

    The ledger is a file of bytes, one record per line.  The codec of a record
    (pydantic), the canonical text of its unsigned part ([json.dumps]), the hash
    and the signatures are arguments: [dump] and [parse], [canonical], [sha256],
    [private_key] and [public_key].  What the theorems need of them is stated as
    hypotheses on the records involved. *)

From Stdlib Require Import ZArith.
From S2P Require Import Prelude.

Open Scope Z_scope.

Notation text := (list Ascii.ascii).

(** ** Lines *)

Definition nl : Ascii.ascii := Ascii.ascii_of_N 10.
#[global] Arguments nl : simpl never.

(** [buf.split(newline)] on bytes. *)
Fixpoint split_nl (t : text) : list text :=
  match t with
  | [] => [[]]
  | c :: t =>
      if Ascii.eqb c nl then [] :: split_nl t
      else match split_nl t with
           | line :: lines => (c :: line) :: lines
           | [] => [[c]]
           end
  end.

(** The white space of [bytes.strip]. *)
Definition is_wspace (c : Ascii.ascii) : bool :=
  let n := Ascii.N_of_ascii c in ((9 <=? n) && (n <=? 13) || (n =? 32))%N.

Definition is_blank (line : text) : bool := forallb is_wspace line.

(** Byte [i] of a text, and 0 past its end. *)
Definition byte_at (i : nat) (t : text) : N := Ascii.N_of_ascii (nth i t Ascii.zero).

(** The length in bytes of the line break at the head of a text, for the
    breaks of [str.splitlines] in UTF-8: CR LF, LF, VT, FF, CR, FS, GS, RS, U+0085,
    U+2028 and U+2029. *)
Definition line_break (t : text) : option nat :=
  let a := byte_at 0 t in let b := byte_at 1 t in let c := byte_at 2 t in
  if ((a =? 13) && (b =? 10))%N then Some 2%nat
  else if ((a =? 194) && (b =? 133))%N then Some 2%nat
  else if ((a =? 226) && (b =? 128) && ((c =? 168) || (c =? 169)))%N then Some 3%nat
  else if ((10 <=? a) && (a <=? 13) || (28 <=? a) && (a <=? 30))%N then Some 1%nat
  else None.

(** [t.splitlines()]: [skip] bytes of a break remain to be dropped, [line] is
    the current line reversed. *)
Fixpoint split_lines (skip : nat) (line : text) (t : text) : list text :=
  match t with
  | [] => match line with [] => [] | _ => [reverse line] end
  | c :: t' =>
      match skip with
      | S skip => split_lines skip line t'
      | O => match line_break (c :: t') with
             | Some n => reverse line :: split_lines (n - 1) [] t'
             | None => split_lines 0 (c :: line) t'
             end
      end
  end.

Definition splitlines (t : text) : list text := split_lines 0 [] t.

(** No line break starts in the line, even with a newline after it. *)
Fixpoint clean (line : text) : bool :=
  match line with
  | [] => true
  | c :: line' => match line_break (line ++ [nl]) with None => clean line' | Some _ => false end
  end.

(** A line that ends where it should, and is not skipped as blank. *)
Definition proper_line (line : text) : Prop := clean line = true ∧ is_blank line = false.

(** ** Splitting *)

Lemma line_break_nl x a t : line_break (x :: a ++ nl :: t) = line_break (x :: a ++ [nl]).
Proof.
  unfold line_break, byte_at. destruct a as [|y [|z a]]; cbn; [|done|done].
  change (Ascii.N_of_ascii nl) with 10%N. cbn. by rewrite !andb_false_r.
Qed.

Lemma line_break_newline t : line_break (nl :: t) = Some 1%nat.
Proof. reflexivity. Qed.

Lemma clean_no_nl line : clean line = true → nl ∉ line.
Proof.
  induction line as [|c line IH]; cbn [clean]; [by intros _ ?%elem_of_nil|].
  destruct (line_break _) eqn:E; [done|]. intros H [<-|Hin]%elem_of_cons; [done|by apply IH].
Qed.

Lemma split_nl_nonempty t : split_nl t ≠ [].
Proof. destruct t as [|c t]; cbn; [done|]. destruct (Ascii.eqb c nl); [done|]. by destruct (split_nl t). Qed.

Lemma split_nl_app a b : split_nl (a ++ nl :: b) = split_nl a ++ split_nl b.
Proof.
  induction a as [|c a IH]; cbn; [done|]. rewrite IH. destruct (Ascii.eqb c nl); [done|].
  destruct (split_nl a) as [|line lines] eqn:E; [|done]. by apply split_nl_nonempty in E.
Qed.

Lemma split_nl_single line : nl ∉ line → split_nl line = [line].
Proof.
  induction line as [|c line IH]; cbn; [done|]. intros H. rewrite not_elem_of_cons in H. destruct H as [Hc Hl].
  rewrite IH by done. destruct (Ascii.eqb_spec c nl); [congruence|done].
Qed.

(** A clean line and its newline are split off. *)
Lemma split_lines_line line acc t :
  clean line = true → split_lines 0 acc (line ++ nl :: t) = (reverse acc ++ line) :: split_lines 0 [] t.
Proof.
  revert acc. induction line as [|c line IH]; intros acc; cbn [clean app split_lines].
  - intros _. rewrite line_break_newline, app_nil_r. done.
  - rewrite (line_break_nl c line t). destruct (line_break _); [done|]. intros H.
    rewrite IH by done. by rewrite reverse_cons, <-app_assoc.
Qed.

(** The text of lines. *)
Definition unlines (lines : list text) : text := concat ((λ line, line ++ [nl]) <$> lines).

Lemma unlines_snoc lines line : unlines (lines ++ [line]) = unlines lines ++ line ++ [nl].
Proof. unfold unlines. rewrite fmap_app, concat_app. cbn. by rewrite app_nil_r. Qed.

Lemma splitlines_unlines lines : Forall proper_line lines → splitlines (unlines lines) = lines.
Proof.
  unfold splitlines. induction 1 as [|line lines [Hc _] H IH]; [done|].
  change (unlines (line :: lines)) with ((line ++ [nl]) ++ unlines lines). rewrite <-app_assoc. cbn [app].
  by rewrite split_lines_line, IH.
Qed.

Lemma unlines_ends lines : lines = [] ∨ ∃ t, unlines lines = t ++ [nl].
Proof.
  destruct lines as [|line lines _] using rev_ind; [by left|right]. rewrite unlines_snoc, app_assoc. by eexists.
Qed.

(** ** Records *)

Section ledger.
Context {P : Type}.

Record unsigned := {
  un_record_id : string;
  un_created_at : string;
  un_record_type : string;
  un_subject_id : string;
  un_payload : P;
  un_previous_hash : string
}.

Record EvidenceRecord := {
  er_unsigned : unsigned;
  er_record_hash : string;
  er_signature : option string;
  er_signing_key_id : option string
}.

Context (canonical : unsigned → text) (sha256 : text → string)
  (private_key : option (string → string)) (key_id : string) (public_key : option (string → string → bool))
  (dump : EvidenceRecord → text) (parse : text → EvidenceRecord + string).

Definition zero_hash : string := "0000000000000000000000000000000000000000000000000000000000000000".

(** The loop of [_last_hash]: windows that grow by 4096 bytes from the end,
    until one has a line that is not blank.  [fuel] bounds the windows. *)
Fixpoint last_line (fuel pos : nat) (t : text) : option text :=
  match fuel with
  | O => None
  | S fuel =>
      match pos with
      | O => None
      | _ =>
          let pos := (pos - Nat.min 4096 pos)%nat in
          match last (List.filter (λ line, negb (is_blank line)) (split_nl (drop pos t))) with
          | Some line => Some line
          | None => last_line fuel pos t
          end
      end
  end.

Definition last_hash (f : option text) : res string :=
  match f with
  | None => Ok zero_hash
  | Some t =>
      match last_line (length t) (length t) t with
      | None => Ok zero_hash
      | Some line => match parse line with
                     | inl r => Ok (er_record_hash r)
                     | inr e => Raise (ValidationError e)
                     end
      end
  end.

Definition append (record_id now record_type subject_id : string) (payload : P) (f : option text)
    : res (EvidenceRecord * option text) :=
  previous_hash ← last_hash f;
  let u := {| un_record_id := record_id; un_created_at := now; un_record_type := record_type;
              un_subject_id := subject_id; un_payload := payload; un_previous_hash := previous_hash |} in
  let record_hash := sha256 (canonical u) in
  let r := {| er_unsigned := u; er_record_hash := record_hash;
              er_signature := (λ sign : string → string, sign record_hash) <$> private_key;
              er_signing_key_id := const key_id <$> private_key |} in
  Ok (r, Some (default [] f ++ dump r ++ [nl])).

Definition line_error (index : nat) (what : string) : string := "line " +:+ str_nat index +:+ ": " +:+ what.

(** The errors of one record. *)
Definition check_record (index : nat) (previous : string) (r : EvidenceRecord) : list string :=
  (if str_eqb (un_previous_hash (er_unsigned r)) previous then [] else [line_error index "previous hash mismatch"])
  ++ (if str_eqb (sha256 (canonical (er_unsigned r))) (er_record_hash r) then []
      else [line_error index "record hash mismatch"])
  ++ match er_signature r with
     | None => []
     | Some s =>
         if str_empty s then []
         else match public_key with
              | None => [line_error index "signature present but no public key configured"]
              | Some verify => if verify s (er_record_hash r) then []
                               else [line_error index "signature verification failed"]
              end
     end.

Fixpoint verify_lines (index : nat) (previous : string) (lines : list text) : list string :=
  match lines with
  | [] => []
  | line :: lines =>
      match parse line with
      | inr e => line_error index ("invalid record: " +:+ e) :: verify_lines (S index) previous lines
      | inl r => check_record index previous r ++ verify_lines (S index) (er_record_hash r) lines
      end
  end.

Definition verify (f : option text) : list string :=
  match f with
  | None => []
  | Some t => verify_lines 1 zero_hash (splitlines t)
  end.

(** [EvidenceRecord.model_validate_json(line)] *)
Definition validate (line : text) : res EvidenceRecord :=
  match parse line with inl r => Ok r | inr e => Raise (ValidationError e) end.

Definition records (offset limit : Z) (f : option text) : res (list EvidenceRecord) :=
  _ ← raise_if ((offset <? 0) || (limit <? 1) || (1000 <? limit))
        (ValueError "offset must be non-negative and limit must be between 1 and 1000");
  match f with
  | None => Ok []
  | Some t => mapM_res validate (take (Z.to_nat limit) (drop (Z.to_nat offset) (splitlines t)))
  end.

Definition get_record (record_id : string) (f : option text) : option EvidenceRecord :=
  match f with
  | None => None
  | Some t =>
      head (omap (λ line, match parse line with
                          | inl r => if str_eqb (un_record_id (er_unsigned r)) record_id then Some r else None
                          | inr _ => None
                          end) (splitlines t))
  end.

(** ** The last record *)

Lemma last_filter_nl (f : text → bool) pre line :
  f line = true → f [] = false → nl ∉ line →
  last (List.filter f (split_nl (pre ++ line ++ [nl]))) = last (List.filter f (split_nl (pre ++ line))).
Proof.
  intros Hl H0 Hn. rewrite app_assoc, (split_nl_app (pre ++ line) []), List.filter_app. cbn [split_nl List.filter].
  by rewrite H0, app_nil_r.
Qed.

(** The window that reaches back into the last line: it sees the line whole if
    it is shorter than 4096 bytes, and only its last 4095 bytes otherwise. *)
Lemma last_line_unlines lines line :
  nl ∉ line → is_blank (drop (length line - 4095) line) = false →
  let t := unlines (lines ++ [line]) in
  last_line (length t) (length t) t = Some (drop (length line - 4095) line).
Proof.
  intros Hn Hb t. assert (t = unlines lines ++ line ++ [nl]) as Et by apply unlines_snoc. clearbody t.
  assert (length t = length (unlines lines) + length line + 1)%nat as Lt
    by (rewrite Et, !length_app; cbn; lia).
  destruct (length t) as [|n] eqn:E; [lia|]. cbn [last_line]. rewrite <-E.
  set (window := drop (length t - Nat.min 4096 (length t)) t).
  assert (last (List.filter (λ line, negb (is_blank line)) (split_nl window)) =
    Some (drop (length line - 4095) line)) as ->; [|done].
  destruct (Nat.lt_ge_cases (length line) 4096) as [Hs|Hs].
  - replace (length line - 4095)%nat with 0%nat in * by lia. rewrite drop_0 in *.
    assert (∃ pre, window = pre ++ line ++ [nl] ∧ (pre = [] ∨ ∃ p, pre = p ++ [nl])) as (pre & -> & Hpre).
    { exists (drop (length t - Nat.min 4096 (length t)) (unlines lines)). split.
      - unfold window. rewrite Et at 3. rewrite drop_app_le by lia. done.
      - destruct (unlines_ends lines) as [->|(u & Eu)]; [left; exact (drop_nil _)|]. rewrite Eu in *.
        rewrite length_app in Lt. cbn [length] in Lt.
        destruct (Nat.le_gt_cases (length t - Nat.min 4096 (length t)) (length u)) as [Hle|Hgt].
        + right. rewrite drop_app_le by exact Hle. by eexists.
        + left. apply drop_ge. rewrite length_app. cbn [length]. clear -Hgt. lia. }
    rewrite last_filter_nl by (by rewrite ?Hb).
    destruct Hpre as [->|[p ->]].
    + cbn [app]. rewrite split_nl_single by done. cbn [List.filter]. by rewrite Hb.
    + rewrite <-app_assoc. cbn [app]. rewrite split_nl_app, List.filter_app, (split_nl_single line) by done.
      cbn [List.filter]. rewrite Hb. cbn [negb]. by rewrite last_snoc.
  - assert (window = [] ++ drop (length line - 4095) line ++ [nl]) as ->.
    { unfold window. rewrite Et at 3. rewrite drop_app_ge by lia. rewrite drop_app_le by lia. cbn [app]. do 2 f_equal. lia. }
    assert (nl ∉ drop (length line - 4095) line) as Hn'.
    { intros H. apply Hn. rewrite <-(take_drop (length line - 4095) line). apply elem_of_app. by right. }
    rewrite last_filter_nl by (by rewrite ?Hb). cbn [app]. rewrite split_nl_single by done. cbn [List.filter]. by rewrite Hb.
Qed.

(** ** Ledgers written by [append] *)

Inductive written : option text → list EvidenceRecord → Prop :=
| written_start : written None []
| written_append f rs record_id now record_type subject_id payload r f' :
    written f rs → append record_id now record_type subject_id payload f = Ok (r, f') → written f' (rs ++ [r]).

(** The codec reads back the line it wrote for the record. *)
Definition faithful (r : EvidenceRecord) : Prop := parse (dump r) = inl r ∧ proper_line (dump r).

(** The line, with its newline, fits the first window of [_last_hash]. *)
Definition short (r : EvidenceRecord) : Prop := (length (dump r) < 4096)%nat.

(** The public key accepts the signatures of the private one. *)
Definition keys_match : Prop :=
  match private_key with
  | None => True
  | Some sign => ∃ check, public_key = Some check ∧ ∀ h, check (sign h) h = true
  end.

(** The hash that follows a list of records. *)
Definition final (previous : string) (rs : list EvidenceRecord) : string :=
  match last rs with Some r => er_record_hash r | None => previous end.

Fixpoint chained (previous : string) (rs : list EvidenceRecord) : Prop :=
  match rs with
  | [] => True
  | r :: rs =>
      un_previous_hash (er_unsigned r) = previous ∧ sha256 (canonical (er_unsigned r)) = er_record_hash r ∧
      chained (er_record_hash r) rs
  end.

Lemma final_cons previous r rs : final previous (r :: rs) = final (er_record_hash r) rs.
Proof. unfold final. rewrite last_cons. by destruct (last rs). Qed.

Lemma final_snoc previous rs r : final previous (rs ++ [r]) = er_record_hash r.
Proof. unfold final. by rewrite last_snoc. Qed.

Lemma chained_snoc previous rs r :
  chained previous (rs ++ [r]) ↔ chained previous rs ∧ un_previous_hash (er_unsigned r) = final previous rs ∧
    sha256 (canonical (er_unsigned r)) = er_record_hash r.
Proof. clear dump parse.
  revert previous. induction rs as [|r0 rs IH]; intros previous; cbn [app chained]; [unfold final; cbn; tauto|].
  rewrite IH, final_cons. tauto.
Qed.

Lemma written_text f rs : written f rs → f = match rs with [] => None | _ => Some (unlines (dump <$> rs)) end.
Proof.
  induction 1 as [|f rs ? ? ? ? ? r f' Hw IH Ha]; [done|].
  assert (default [] f = unlines (dump <$> rs)) as E by (rewrite IH; by destruct rs).
  clear IH. unfold append in Ha. inv_ok. rewrite E, fmap_app. cbn. rewrite unlines_snoc. by destruct rs.
Qed.

Lemma short_window r : short r → drop (length (dump r) - 4095) (dump r) = dump r.
Proof. unfold short. intros H. by replace (length (dump r) - 4095)%nat with 0%nat by lia. Qed.

Lemma last_hash_unlines rs r :
  is_blank (drop (length (dump r) - 4095) (dump r)) = false → proper_line (dump r) →
  last_hash (Some (unlines (dump <$> rs ++ [r]))) =
    match parse (drop (length (dump r) - 4095) (dump r)) with
    | inl r => Ok (er_record_hash r)
    | inr e => Raise (ValidationError e)
    end.
Proof.
  intros Hb [Hc _]. unfold last_hash. rewrite fmap_app. cbn [fmap list_fmap].
  rewrite last_line_unlines by (try done; by apply clean_no_nl). done.
Qed.

Lemma last_hash_written f rs :
  written f rs → Forall faithful rs → Forall short rs → last_hash f = Ok (final zero_hash rs).
Proof.
  intros Hw Hf Hs. rewrite (written_text f rs Hw). destruct rs as [|r rs _] using rev_ind; [done|].
  rewrite Forall_app, Forall_singleton in Hf, Hs. destruct Hf as [_ [Hp Hl]], Hs as [_ Hs].
  rewrite final_snoc. destruct (rs ++ [r]) as [|r0 rs0] eqn:E; [by destruct rs|]. rewrite <-E.
  rewrite last_hash_unlines; [by rewrite short_window, Hp|by rewrite short_window; [apply Hl|]|done].
Qed.

(** Every record [append] makes links to the one before it and carries its own
    hash and a signature the public key accepts. *)
Lemma append_links record_id now record_type subject_id payload f r f' :
  append record_id now record_type subject_id payload f = Ok (r, f') →
  last_hash f = Ok (un_previous_hash (er_unsigned r)) ∧ sha256 (canonical (er_unsigned r)) = er_record_hash r ∧
  er_signature r = (λ sign : string → string, sign (er_record_hash r)) <$> private_key.
Proof. unfold append. intros H. inv_ok. cbn. by rewrite H0. Qed.

Lemma check_record_ok index previous r :
  keys_match → er_signature r = (λ sign : string → string, sign (er_record_hash r)) <$> private_key →
  un_previous_hash (er_unsigned r) = previous → sha256 (canonical (er_unsigned r)) = er_record_hash r →
  check_record index previous r = [].
Proof.
  intros Hk Hs Hp Hh. unfold check_record. rewrite (proj2 (str_eqb_true _ _) Hp), (proj2 (str_eqb_true _ _) Hh), Hs.
  unfold keys_match in Hk. destruct private_key as [sign|]; [|done]. destruct Hk as (check & -> & Hc). cbn.
  rewrite Hc. by destruct (str_empty _).
Qed.

Lemma verify_lines_snoc index previous rs r :
  (∀ r', r' ∈ rs → parse (dump r') = inl r') → parse (dump r) = inl r →
  verify_lines index previous (dump <$> rs ++ [r]) =
    verify_lines index previous (dump <$> rs) ++ check_record (index + length rs) (final previous rs) r.
Proof.
  intros Hf Hr. revert index previous. induction rs as [|r0 rs IH]; intros index previous; cbn [app fmap list_fmap verify_lines].
  - unfold fmap. rewrite Hr. cbn. by rewrite app_nil_r, Nat.add_0_r.
  - rewrite (Hf r0) by left. rewrite final_cons. cbn [length]. rewrite <-app_assoc, Nat.add_succ_r.
    f_equal. apply IH. intros r' Hr'. apply Hf. by right.
Qed.

Lemma written_verifies f rs :
  keys_match → written f rs → Forall faithful rs → Forall short rs →
  verify_lines 1 zero_hash (dump <$> rs) = [].
Proof.
  intros Hk. induction 1 as [|f rs ? ? ? ? ? r f' Hw IH Ha]; intros Hf Hs; [done|].
  rewrite Forall_app, Forall_singleton in Hf, Hs. destruct Hf as [Hf [Hp _]], Hs as [Hs _].
  rewrite verify_lines_snoc, IH by (try done; intros r' Hr'; rewrite Forall_forall in Hf; apply Hf; done).
  apply append_links in Ha as (Hl & Hh & Hg). rewrite (last_hash_written f rs Hw Hf Hs) in Hl. injection Hl as Hl.
  by apply check_record_ok.
Qed.

Lemma faithful_lines rs : Forall faithful rs → Forall proper_line (dump <$> rs).
Proof. intros H. apply Forall_fmap. eapply Forall_impl; [exact H|]. by intros r [_ ?]. Qed.

Lemma validate_all rs : Forall faithful rs → mapM_res validate (dump <$> rs) = Ok rs.
Proof.
  induction 1 as [|r rs [Hp _] H IH]; [done|]. rewrite fmap_cons. cbn [mapM_res].
  assert (validate (dump r) = Ok r) as -> by (unfold validate; by rewrite Hp). by rewrite IH.
Qed.

Lemma written_ledger_valid f rs :
  keys_match → written f rs → Forall faithful rs → Forall short rs → verify f = [].
Proof.
  intros Hk Hw Hf Hs. pose proof (written_verifies f rs Hk Hw Hf Hs) as Hv. pose proof (faithful_lines rs Hf) as Hl.
  rewrite (written_text f rs Hw). destruct rs as [|r0 rs0] eqn:E; [done|]. rewrite <-E in *.
  unfold verify. by rewrite splitlines_unlines.
Qed.

(** C11.  Integrity of the ledger.  Started from no file, after any number of
    appends of records whose line the codec reads back and is shorter than 4096
    bytes: the ledger verifies without an error, holds exactly the records
    appended, and accepts another append. *)
Theorem ledger_verifies f rs :
  keys_match → written f rs → Forall faithful rs → Forall short rs →
  verify f = [] ∧
  (∀ offset limit, 0 <= offset → 1 <= limit <= 1000 →
    records offset limit f = Ok (take (Z.to_nat limit) (drop (Z.to_nat offset) rs))) ∧
  ∀ record_id now record_type subject_id payload, is_ok (append record_id now record_type subject_id payload f) = true.
Proof.
  intros Hk Hw Hf Hs. pose proof (faithful_lines rs Hf) as Hl. split_and!.
  - by apply (written_ledger_valid f rs).
  - intros offset limit Ho Hm. unfold records.
    replace ((offset <? 0) || (limit <? 1) || (1000 <? limit)) with false by lia. cbn [raise_if mbind res_bind].
    rewrite (written_text f rs Hw). destruct rs as [|r0 rs0] eqn:E; [by rewrite drop_nil, take_nil|]. rewrite <-E in *.
    rewrite splitlines_unlines, <-fmap_drop, <-fmap_take by done. by apply validate_all, Forall_take, Forall_drop.
  - intros. unfold append. by rewrite (last_hash_written f rs Hw Hf Hs).
Qed.

(** A record that does not fit the window blocks its ledger: when the line
    of the last record has 4096 bytes or more, and its last 4095 bytes are not
    themselves a record, every later append raises. *)
Theorem long_record_blocks f rs r e :
  written f (rs ++ [r]) → proper_line (dump r) → (4096 <= length (dump r))%nat →
  is_blank (drop (length (dump r) - 4095) (dump r)) = false →
  parse (drop (length (dump r) - 4095) (dump r)) = inr e →
  ∀ record_id now record_type subject_id payload,
    append record_id now record_type subject_id payload f = Raise (ValidationError e).
Proof.
  intros Hw Hl Hlong Hb Hp *. pose proof (written_text f _ Hw) as E.
  destruct (rs ++ [r]) as [|r0 rs0] eqn:Er; [by destruct rs|]. rewrite <-Er in E. unfold append.
  by rewrite E, last_hash_unlines, Hp.
Qed.

(** ** Tampering *)

(** A ledger that verifies: its records, in order. *)
Lemma verify_lines_chained index previous lines :
  verify_lines index previous lines = [] →
  ∃ rs, Forall2 (λ line r, parse line = inl r) lines rs ∧ chained previous rs.
Proof.
  revert index previous. induction lines as [|line lines IH]; intros index previous; cbn; [by exists []|].
  destruct (parse line) as [r|] eqn:E; [|done]. intros [Hc Hv]%app_nil.
  destruct (IH _ _ Hv) as (rs & Hrs & Hch). exists (r :: rs). split; [by constructor|].
  unfold check_record in Hc. apply app_nil in Hc as [H1 [H2 _]%app_nil]. cbn.
  destruct (str_eqb (un_previous_hash _) _) eqn:E1; [|done]. destruct (str_eqb (sha256 _) _) eqn:E2; [|done].
  by apply str_eqb_true in E1, E2.
Qed.

Context `{EqDecision P}.

#[local] Instance unsigned_eq_dec : EqDecision unsigned.
Proof using EqDecision0. solve_decision. Defined.

(** Two different inputs with the same hash, or one that hashes to the zeros the
    first record links to. *)
Definition hash_broken : Prop :=
  (∃ u u', u ≠ u' ∧ sha256 (canonical u) = sha256 (canonical u')) ∨ ∃ u, sha256 (canonical u) = zero_hash.

Lemma chained_unique rs rs' :
  chained zero_hash rs → chained zero_hash rs' → final zero_hash rs = final zero_hash rs' →
  er_unsigned <$> rs = er_unsigned <$> rs' ∨ hash_broken.
Proof using EqDecision0.
  assert (∀ r l, chained zero_hash (l ++ [r]) → zero_hash = er_record_hash r → hash_broken) as Hzero.
  { intros r l (_ & _ & Hh)%chained_snoc E. right. exists (er_unsigned r). congruence. }
  revert rs'. induction rs as [|r rs IH] using rev_ind; intros rs' Hc Hc' Hfin.
  - destruct rs' as [|r' rs' _] using rev_ind; [by left|right].
    rewrite final_snoc in Hfin. by apply (Hzero r' rs').
  - destruct rs' as [|r' rs' _] using rev_ind.
    { right. rewrite final_snoc in Hfin. by apply (Hzero r rs). }
    rewrite !final_snoc in Hfin. apply chained_snoc in Hc as (Hc & Hp & Hh), Hc' as (Hc' & Hp' & Hh').
    destruct (decide (er_unsigned r = er_unsigned r')) as [Eu|Hne].
    + destruct (IH rs' Hc Hc') as [E|?]; [congruence| |by right]. left. rewrite !fmap_app, E. cbn. by rewrite Eu.
    + right. left. exists (er_unsigned r), (er_unsigned r'). split; [done|]. congruence.
Qed.

(** C6.  Tamper evidence.  Two ledgers that verify and end in the same record
    hash hold the same signed contents, record for record, unless the hash is
    broken (a collision, or a preimage of the zeros). *)
Theorem tamper_evident t t' rs rs' :
  verify (Some t) = [] → verify (Some t') = [] →
  Forall2 (λ line r, parse line = inl r) (splitlines t) rs →
  Forall2 (λ line r, parse line = inl r) (splitlines t') rs' →
  final zero_hash rs = final zero_hash rs' →
  er_unsigned <$> rs = er_unsigned <$> rs' ∨ hash_broken.
Proof using EqDecision0.
  intros Hv Hv' Hrs Hrs' Hfin. unfold verify in Hv, Hv'.
  assert (∀ lines rs1 rs2, Forall2 (λ line r, parse line = inl r) lines rs1 →
    Forall2 (λ line r, parse line = inl r) lines rs2 → rs1 = rs2) as Hfun.
  { intros lines rs1 rs2 H1. revert rs2. induction H1 as [|line r lines rs1 Hr H1 IH]; intros rs2 H2.
    - by apply Forall2_nil_inv_l in H2 as ->.
    - apply Forall2_cons_inv_l in H2 as (r2 & rs3 & Hr2 & H3 & ->). f_equal; [congruence|auto]. }
  apply verify_lines_chained in Hv as (rs1 & H1 & Hc1), Hv' as (rs2 & H2 & Hc2).
  rewrite (Hfun _ _ _ Hrs H1), (Hfun _ _ _ Hrs' H2) in *. by apply chained_unique.
Qed.
End ledger.

(** ** Concrete inputs *)

(** A toy codec: the line of a record is its hash in braces, padded to a
    length; the reader knows one record. *)
Definition ex_canonical (u : unsigned (P:=nat)) : text :=
  String.list_ascii_of_string (un_record_id u +:+ "/" +:+ un_previous_hash u).
Definition ex_dump (pad : nat) (r : EvidenceRecord (P:=nat)) : text :=
  String.list_ascii_of_string ("{" +:+ er_record_hash r +:+ "}") ++ replicate pad (Ascii.ascii_of_N 120).
Definition ex_sign (h : string) : string := "signed " +:+ h.
Definition ex_check (s h : string) : bool := str_eqb s (ex_sign h).

Definition ex_record : EvidenceRecord (P:=nat) :=
  let u := {| un_record_id := "r1"; un_created_at := "now"; un_record_type := "observation"; un_subject_id := "s";
              un_payload := 7%nat; un_previous_hash := zero_hash |} in
  let h := String.string_of_list_ascii (ex_canonical u) in
  {| er_unsigned := u; er_record_hash := h; er_signature := Some (ex_sign h); er_signing_key_id := Some "key" |}.

Definition ex_parse (pad : nat) (line : text) : EvidenceRecord (P:=nat) + string :=
  if bool_decide (line = ex_dump pad ex_record) then inl ex_record else inr "invalid JSON".

Definition ex_append (pad : nat) :=
  append ex_canonical String.string_of_list_ascii (Some ex_sign) "key" (ex_dump pad) (ex_parse pad).

Lemma ex_written pad :
  written ex_canonical String.string_of_list_ascii (Some ex_sign) "key" (ex_dump pad) (ex_parse pad)
    (Some (unlines [ex_dump pad ex_record])) [ex_record].
Proof.
  change [ex_record] with ([] ++ [ex_record]).
  refine (written_append _ _ _ _ _ _ None [] "r1" "now" "observation" "s" 7%nat ex_record _ _ _); [constructor|].
  unfold append, last_hash. cbn [mbind res_bind]. by rewrite <-(unlines_snoc []).
Qed.

Lemma ledger_verifies_witness :
  verify ex_canonical String.string_of_list_ascii (Some ex_check) (ex_parse 0)
    (Some (unlines [ex_dump 0 ex_record])) = [].
Proof.
  apply (ledger_verifies ex_canonical String.string_of_list_ascii (Some ex_sign) "key" (Some ex_check) (ex_dump 0)
    (ex_parse 0) _ [ex_record]).
  - exists ex_check. split; [reflexivity|]. intros h. apply str_eqb_true. reflexivity.
  - apply ex_written.
  - repeat constructor.
  - constructor; [|constructor]. apply Nat.ltb_lt. vm_compute. reflexivity.
Defined.

Lemma long_record_blocks_witness :
  ex_append 4096 "r2" "now" "observation" "s" 8%nat (Some (unlines [ex_dump 4096 ex_record])) =
  Raise (ValidationError "invalid JSON").
Proof.
  apply (long_record_blocks ex_canonical String.string_of_list_ascii (Some ex_sign) "key" (ex_dump 4096)
    (ex_parse 4096) _ [] ex_record "invalid JSON").
  - apply ex_written.
  - split; vm_compute; reflexivity.
  - apply Nat.leb_le. vm_compute. reflexivity.
  - vm_compute. reflexivity.
  - vm_compute. reflexivity.
Defined.

Lemma tamper_evident_witness :
  er_unsigned <$> [ex_record] = er_unsigned <$> [ex_record] ∨
  hash_broken ex_canonical String.string_of_list_ascii.
Proof.
  apply (tamper_evident ex_canonical String.string_of_list_ascii (Some ex_check) (ex_parse 0)
    (unlines [ex_dump 0 ex_record]) (unlines [ex_dump 0 ex_record])).
  - vm_compute. reflexivity.
  - vm_compute. reflexivity.
  - repeat constructor.
  - repeat constructor.
  - reflexivity.
Defined.
