(* ===== verification/Substitution.v ===== *)
(** * substitution.py: the route substitution compiler

    A candidate is put through ten checks; a failing one adds a blocker.  The
    theorem gives the verdict in terms of the candidate alone. *)

From Stdlib Require Import ZArith QArith Lqa Lia.
From S2P Require Import Prelude PyFloat PyFormat.

Open Scope Z_scope.

Record RouteFeasibilityCheck := {
  fc_check_name : string;
  fc_dimension : string;
  fc_status : string;
  fc_score : float;
  fc_rationale : string
}.

Definition new_RouteFeasibilityCheck (name dimension status : string) (score : float) (rationale : string)
    : res RouteFeasibilityCheck :=
  _ ← require (is_score score) "score";
  Ok {| fc_check_name := name; fc_dimension := dimension; fc_status := status; fc_score := score;
        fc_rationale := rationale |}.

Record SubstitutionEvaluation := {
  se_evaluation_id : string;
  se_substitution_id : string;
  se_primary_route_id : string;
  se_alternative_route_id : string;
  se_geographically_viable : bool;
  se_commercially_viable : bool;
  se_port_handling_capacity : string;
  se_inland_rail_capacity : string;
  se_arrival_before_critical_inventory_date : bool;
  se_estimated_transit_days : Z;
  se_deadline_days : Z;
  se_effective_substitution : string;
  se_feasibility_checks : list RouteFeasibilityCheck;
  se_failure_reasons : list string;
  se_summary : string
}.

Definition yes_no (b : bool) : string := if b then "YES" else "NO".

Definition format_report (e : SubstitutionEvaluation) : string :=
  let rule := str_repeat 78 "=" in
  str_join newline (
    [rule; "CONTINUITYOS ROUTE SUBSTITUTION COMPILER REPORT"; rule;
     "PRIMARY ROUTE:        " +:+ se_primary_route_id e;
     "ALTERNATIVE:          " +:+ se_alternative_route_id e;
     "";
     "Geographically viable:                  " +:+ yes_no (se_geographically_viable e);
     "Commercially viable:                    " +:+ yes_no (se_commercially_viable e);
     "Port handling capacity:                 " +:+ se_port_handling_capacity e;
     "Inland rail capacity:                   " +:+ se_inland_rail_capacity e;
     "Transit + inland lead time:             " +:+ str_Z (se_estimated_transit_days e) +:+ " days (deadline: "
       +:+ str_Z (se_deadline_days e) +:+ " days)";
     "Arrival before critical inventory date: " +:+ yes_no (se_arrival_before_critical_inventory_date e);
     "";
     "Effective substitution:                 " +:+ se_effective_substitution e;
     rule; ""; "Feasibility Check Breakdown:"]
    ++ ((λ c, "  [" +:+ ljust 8 (fc_status c) +:+ "] " +:+ ljust 34 (fc_check_name c) +:+ " (score: "
              +:+ fmt_fixed 2 (fc_score c) +:+ ") -> " +:+ fc_rationale c) <$> se_feasibility_checks e)
    ++ match se_failure_reasons e with
       | [] => []
       | reasons => [""; "Critical Substitution Blockers:"] ++ ((λ r, "  ! " +:+ r) <$> reasons)
       end
    ++ [rule]).

Record RouteSubstitutionCandidate := {
  rc_substitution_id : string;
  rc_primary_route_id : string;
  rc_alternative_route_id : string;
  rc_cargo_type : string;
  rc_quantity_tons : float;
  rc_critical_inventory_exhaustion_days : Z;
  rc_alternative_transit_days : Z;
  rc_inland_rail_days : Z;
  rc_alternative_route_capacity_tons_day : float;
  rc_port_handling_capacity_tons_day : float;
  rc_inland_rail_capacity_ratio : float;
  rc_vessel_class : string;
  rc_vessel_ice_class : bool;
  rc_route_requires_ice_class : bool;
  rc_carrier_available : bool;
  rc_insurance_available : bool;
  rc_communications_healthy : bool;
  rc_navigation_healthy : bool;
  rc_fuel_bunkering_available : bool;
  rc_storage_capacity_available : bool;
  rc_supplier_available : bool
}.

(** ** The checks *)

Section candidate.
Context (c : RouteSubstitutionCandidate).

(** A check that passes with score 1 or else has the given status, score and
    rationale. *)
Definition flag_check (name dimension : string) (ok : bool) (status : string) (score : float) (otherwise fine : string)
    : res RouteFeasibilityCheck :=
  if ok then new_RouteFeasibilityCheck name dimension "PASS" (lit 1) fine
  else new_RouteFeasibilityCheck name dimension status score otherwise.

Definition blocker (blocked : bool) (reason : string) : list string := if blocked then [reason] else [].

Definition geo_viable : bool := negb (rc_route_requires_ice_class c && negb (rc_vessel_ice_class c)).
Definition comm_viable : bool := rc_carrier_available c && rc_insurance_available c.

(** [candidate.quantity_tons / 5.0] never raises. *)
Definition port_need : res float := fdiv (rc_quantity_tons c) (lit 5).

Definition port_status : res (string * float) :=
  if (rc_port_handling_capacity_tons_day c <=? f0)%F then Ok ("FAIL", f0)
  else need ← port_need;
       Ok (if (rc_port_handling_capacity_tons_day c <? need)%F then ("DEGRADED", lit 0.6) else ("PASS", lit 1)).

Definition rail_status : string * float :=
  if (rc_inland_rail_capacity_ratio c <=? lit 0.2)%F then ("FAIL", lit 0.1)
  else if (rc_inland_rail_capacity_ratio c <? lit 0.7)%F then ("DEGRADED", rc_inland_rail_capacity_ratio c)
  else ("PASS", lit 1).

Definition total_transit_days : Z := rc_alternative_transit_days c + rc_inland_rail_days c.
Definition arrival_before_deadline : bool := total_transit_days <=? rc_critical_inventory_exhaustion_days c.

Definition lead_time_text : string :=
  "Total arrival lead time (" +:+ str_Z total_transit_days
  +:+ " days) exceeds critical inventory exhaustion deadline ("
  +:+ str_Z (rc_critical_inventory_exhaustion_days c) +:+ " days) by "
  +:+ str_Z (total_transit_days - rc_critical_inventory_exhaustion_days c) +:+ " days".

Definition blockers (port : string) : list string :=
  blocker (negb geo_viable) "Route requires Polar Ice Class vessel; assigned vessel lacks ice reinforcement"
  ++ blocker (negb (rc_carrier_available c)) "No carrier capacity committed or available for alternate route"
  ++ blocker (negb (rc_insurance_available c)) "Marine war-risk insurance underwriters withdrawn; route uninsurable"
  ++ blocker (str_eqb port "FAIL") "Alternate destination port has zero handling throughput capacity"
  ++ blocker (str_eqb rail_status.1 "FAIL") "Inland rail/intermodal corridor severely constrained or blocked"
  ++ blocker (negb (rc_fuel_bunkering_available c)) "Bunkering fuel unavailable along alternate transit corridor"
  ++ blocker (negb (rc_supplier_available c)) "Origin supplier cannot fulfill volume on alternate route"
  ++ blocker (negb arrival_before_deadline) lead_time_text.

Definition checks (port : string * float) : res (list RouteFeasibilityCheck) :=
  k1 ← flag_check "ice_class_compatibility" "physical" geo_viable "FAIL" f0
         "Vessel lacks mandatory Polar/Baltic ice class notation"
         "Ice navigation constraints met or not applicable";
  k2 ← flag_check "carrier_availability" "commercial" (rc_carrier_available c) "FAIL" f0
         "Carriers diverted or unavailable" "Commercial carrier capacity confirmed";
  k3 ← flag_check "insurance_underwriting" "commercial" (rc_insurance_available c) "FAIL" f0
         "Insurance coverage unavailable" "War-risk and marine hull coverage active";
  k4 ← new_RouteFeasibilityCheck "port_handling_capacity" "logistics" port.1 port.2
         ("Port capacity: " +:+ fmt_comma0 (rc_port_handling_capacity_tons_day c) +:+ " tons/day");
  k5 ← new_RouteFeasibilityCheck "inland_rail_capacity" "logistics" rail_status.1 rail_status.2
         ("Inland transport fluidity ratio: " +:+ fmt_percent 1 (rc_inland_rail_capacity_ratio c));
  k6 ← flag_check "communications_integrity" "cyber_physical" (rc_communications_healthy c) "DEGRADED" (lit 0.4)
         "SATCOM/terrestrial communications degraded along corridor"
         "Encrypted SATCOM and terrestrial backhaul verified";
  k7 ← flag_check "navigation_integrity" "cyber_physical" (rc_navigation_healthy c) "DEGRADED" (lit 0.4)
         "GNSS spoofing or PNT anomalies detected" "PNT and multi-constellation GNSS verified";
  k8 ← flag_check "fuel_bunkering_availability" "logistics" (rc_fuel_bunkering_available c) "FAIL" f0
         "Fuel bunkering unavailable" "Bunkering stations operational";
  k9 ← flag_check "storage_capacity" "inventory" (rc_storage_capacity_available c) "DEGRADED" (lit 0.5)
         "Destination terminal storage utilization near ceiling" "Terminal storage capacity confirmed";
  k10 ← flag_check "supplier_availability" "upstream" (rc_supplier_available c) "FAIL" f0
         "Supplier allocation unavailable" "Origin supplier contracted and ready";
  k11 ← flag_check "arrival_before_deadline" "timeline" arrival_before_deadline "FAIL" f0
         ("Arrives day " +:+ str_Z total_transit_days +:+ ", after reserve exhaustion day "
           +:+ str_Z (rc_critical_inventory_exhaustion_days c))
         ("Arrives day " +:+ str_Z total_transit_days +:+ ", safely within reserve deadline "
           +:+ str_Z (rc_critical_inventory_exhaustion_days c) +:+ " days");
  Ok [k1; k2; k3; k4; k5; k6; k7; k8; k9; k10; k11].

Definition effective_substitution (port : string) (ks : list RouteFeasibilityCheck) : string :=
  if negb (bool_decide (blockers port = [])) || negb geo_viable || negb comm_viable || negb arrival_before_deadline
     || str_eqb port "FAIL" || str_eqb rail_status.1 "FAIL" then "FAIL"
  else if str_eqb port "DEGRADED" || str_eqb rail_status.1 "DEGRADED"
          || existsb (λ k, str_eqb (fc_status k) "DEGRADED") ks then "DEGRADED"
  else "PASS".

Definition compile_route_substitution (id : string) : res SubstitutionEvaluation :=
  port ← port_status;
  ks ← checks port;
  let effective := effective_substitution port.1 ks in
  let reasons := blockers port.1 in
  Ok {| se_evaluation_id := id; se_substitution_id := rc_substitution_id c;
        se_primary_route_id := rc_primary_route_id c; se_alternative_route_id := rc_alternative_route_id c;
        se_geographically_viable := geo_viable; se_commercially_viable := comm_viable;
        se_port_handling_capacity := port.1; se_inland_rail_capacity := rail_status.1;
        se_arrival_before_critical_inventory_date := arrival_before_deadline;
        se_estimated_transit_days := total_transit_days;
        se_deadline_days := rc_critical_inventory_exhaustion_days c; se_effective_substitution := effective;
        se_feasibility_checks := ks; se_failure_reasons := reasons;
        se_summary :=
          if mem_str effective ["PASS"; "DEGRADED"] then
            "Route substitution '" +:+ rc_alternative_route_id c +:+ "' for '" +:+ rc_primary_route_id c
              +:+ "' is FEASIBLE (" +:+ effective +:+ ")"
          else "Route substitution '" +:+ rc_alternative_route_id c +:+ "' FAILED: "
                 +:+ str_nat (length reasons) +:+ " critical blocker(s)" |}.

(** ** The verdict *)

(** Nothing stands in the way of the substitution. *)
Definition unobstructed : bool :=
  geo_viable && rc_carrier_available c && rc_insurance_available c
  && negb (rc_port_handling_capacity_tons_day c <=? f0)%F && negb (rc_inland_rail_capacity_ratio c <=? lit 0.2)%F
  && rc_fuel_bunkering_available c && rc_supplier_available c && arrival_before_deadline.

(** Everything is at full strength. *)
Definition unimpaired (need : float) : bool :=
  negb (rc_port_handling_capacity_tons_day c <? need)%F && negb (rc_inland_rail_capacity_ratio c <? lit 0.7)%F
  && rc_communications_healthy c && rc_navigation_healthy c && rc_storage_capacity_available c.

Lemma port_need_ok : ∃ need, port_need = Ok need.
Proof using. unfold port_need. change (lit 5) with (Fin 5). destruct (rc_quantity_tons c); cbn; eexists; reflexivity. Qed.

Lemma rail_score_ok : is_score rail_status.2 = true.
Proof using.
  unfold rail_status. destruct (fleb _ _) eqn:E1; [done|]. destruct (fltb _ _) eqn:E2; [|done]. cbn.
  destruct (rc_inland_rail_capacity_ratio c) as [q|[]|]; [|vm_compute in E1; discriminate E1|vm_compute in E2; discriminate E2..].
  apply is_score_iff. exists q. split; [done|]. change (lit 0.2) with (Fin (3602879701896397 # 18014398509481984)) in E1.
  change (lit 0.7) with (Fin (3152519739159347 # 4503599627370496)) in E2. apply fltb_Fin in E2.
  assert (¬ (q <= 3602879701896397 # 18014398509481984)%Q) as E1' by (intros H%fleb_Fin; congruence).
  apply Qnot_le_lt in E1'. split; lra.
Qed.

Lemma flag_check_ok name dimension ok status score otherwise fine :
  is_score score = true →
  flag_check name dimension ok status score otherwise fine =
  Ok {| fc_check_name := name; fc_dimension := dimension; fc_status := if ok then "PASS" else status;
        fc_score := if ok then lit 1 else score; fc_rationale := if ok then fine else otherwise |}.
Proof using. intros H. unfold flag_check, new_RouteFeasibilityCheck. destruct ok; [done|]. by rewrite H. Qed.

Definition pass_or (ok : bool) (status : string) : string := if ok then "PASS" else status.

(** The statuses of the eleven checks. *)
Definition statuses (port : string) : list string :=
  [pass_or geo_viable "FAIL"; pass_or (rc_carrier_available c) "FAIL"; pass_or (rc_insurance_available c) "FAIL"; port;
   rail_status.1; pass_or (rc_communications_healthy c) "DEGRADED"; pass_or (rc_navigation_healthy c) "DEGRADED";
   pass_or (rc_fuel_bunkering_available c) "FAIL"; pass_or (rc_storage_capacity_available c) "DEGRADED";
   pass_or (rc_supplier_available c) "FAIL"; pass_or arrival_before_deadline "FAIL"].

Lemma checks_ok port : is_score port.2 = true →
  ∃ ks, checks port = Ok ks ∧ fc_status <$> ks = statuses port.1 ∧ Forall (λ k, is_score (fc_score k) = true) ks.
Proof using.
  intros Hp. unfold checks, new_RouteFeasibilityCheck. rewrite !flag_check_ok by reflexivity.
  rewrite Hp, rail_score_ok. cbn [require mbind res_bind]. eexists. split; [done|]. split; [done|].
  repeat constructor; cbn [fc_score]; try case_match; try done. apply rail_score_ok.
Qed.

Lemma pass_or_degraded ok : str_eqb (pass_or ok "DEGRADED") "DEGRADED" = negb ok.
Proof using. by destruct ok. Qed.

Lemma pass_or_fail ok : str_eqb (pass_or ok "FAIL") "DEGRADED" = false.
Proof using. by destruct ok. Qed.

Lemma degraded_checks port ks : fc_status <$> ks = statuses port →
  existsb (λ k, str_eqb (fc_status k) "DEGRADED") ks =
  (str_eqb port "DEGRADED" || (str_eqb rail_status.1 "DEGRADED" || negb (rc_communications_healthy c
    && rc_navigation_healthy c && rc_storage_capacity_available c))).
Proof using.
  intros E. transitivity (existsb (λ s, str_eqb s "DEGRADED") (fc_status <$> ks)).
  { clear E. induction ks as [|k ks IH]; cbn; [done|]. by rewrite IH. }
  rewrite E. unfold statuses. cbn [existsb]. rewrite !pass_or_degraded, !pass_or_fail.
  destruct (str_eqb port _), (str_eqb rail_status.1 _), (rc_communications_healthy c), (rc_navigation_healthy c),
    (rc_storage_capacity_available c); reflexivity.
Qed.

Lemma rail_status_fail : str_eqb rail_status.1 "FAIL" = (rc_inland_rail_capacity_ratio c <=? lit 0.2)%F.
Proof using. unfold rail_status. destruct (fleb _ _); [done|]. by destruct (fltb _ _). Qed.

Lemma rail_status_degraded : str_eqb rail_status.1 "FAIL" = false →
  str_eqb rail_status.1 "DEGRADED" = (rc_inland_rail_capacity_ratio c <? lit 0.7)%F.
Proof using. unfold rail_status. destruct (fleb _ _); [done|]. by destruct (fltb _ _). Qed.

Lemma blockers_nil port : str_eqb port "FAIL" = (rc_port_handling_capacity_tons_day c <=? f0)%F →
  bool_decide (blockers port = []) = unobstructed.
Proof using.
  intros Hp. unfold blockers, unobstructed. rewrite Hp, rail_status_fail.
  generalize geo_viable, (rc_carrier_available c), (rc_insurance_available c),
    (rc_port_handling_capacity_tons_day c <=? f0)%F, (rc_inland_rail_capacity_ratio c <=? lit 0.2)%F,
    (rc_fuel_bunkering_available c), (rc_supplier_available c), arrival_before_deadline, lead_time_text.
  intros [] [] [] [] [] [] [] [] text; reflexivity.
Qed.

(** The verdict is exact and always given.  A substitution fails exactly
    when something obstructs it, and then some blocker is reported; otherwise it
    passes exactly when nothing is impaired, and is degraded in between.  Eleven
    checks are reported, each with a score between 0 and 1. *)
Theorem substitution_verdict_exact id :
  ∃ e need, compile_route_substitution id = Ok e ∧ port_need = Ok need ∧
    se_effective_substitution e =
      (if unobstructed then if unimpaired need then "PASS" else "DEGRADED" else "FAIL") ∧
    (se_failure_reasons e = [] ↔ unobstructed = true) ∧
    length (se_feasibility_checks e) = 11%nat ∧
    Forall (λ k, is_score (fc_score k) = true) (se_feasibility_checks e).
Proof using.
  destruct port_need_ok as [need En]. unfold compile_route_substitution.
  assert (∃ port, port_status = Ok port ∧ is_score port.2 = true ∧
    str_eqb port.1 "FAIL" = (rc_port_handling_capacity_tons_day c <=? f0)%F ∧
    (str_eqb port.1 "FAIL" = false → str_eqb port.1 "DEGRADED" = (rc_port_handling_capacity_tons_day c <? need)%F))
    as (port & Ep & Sp & Pf & Pd).
  { unfold port_status. destruct (fleb _ _); [by eexists|]. rewrite En. cbn. eexists. split; [done|].
    destruct (fltb _ _); done. }
  destruct (checks_ok port Sp) as (ks & Ek & Hst & Hsc). rewrite Ep. cbn [mbind res_bind]. rewrite Ek. cbn [mbind res_bind].
  pose proof (blockers_nil port.1 Pf) as Hb.
  eexists _, need. split; [done|]. split; [done|]. cbn. split_and!; [| | |done].
  - unfold effective_substitution. rewrite Hb, (degraded_checks _ _ Hst). destruct unobstructed eqn:Hu; [|done].
    unfold unobstructed in Hu. bool_norm. unfold comm_viable.
    repeat match goal with H : ?x = true |- _ => rewrite ?H; clear H end.
    match goal with H : fleb _ f0 = false |- _ => rewrite H in Pf end.
    match goal with H : fleb _ (lit 0.2) = false |- _ => rewrite <-rail_status_fail in H; rename H into Hr end.
    rewrite Pf, Hr, (Pd Pf), (rail_status_degraded Hr). unfold unimpaired. cbn.
    destruct (fltb _ need), (fltb _ (lit 0.7)), (rc_communications_healthy c), (rc_navigation_healthy c),
      (rc_storage_capacity_available c); reflexivity.
  - rewrite <-Hb. by rewrite bool_decide_eq_true.
  - by rewrite <-(length_fmap fc_status), Hst.
Qed.
End candidate.

(** The throughput of the alternative route is declared but enters no check. *)
Lemma route_capacity_ignored c id capacity :
  compile_route_substitution
    {| rc_substitution_id := rc_substitution_id c; rc_primary_route_id := rc_primary_route_id c;
       rc_alternative_route_id := rc_alternative_route_id c; rc_cargo_type := rc_cargo_type c;
       rc_quantity_tons := rc_quantity_tons c;
       rc_critical_inventory_exhaustion_days := rc_critical_inventory_exhaustion_days c;
       rc_alternative_transit_days := rc_alternative_transit_days c; rc_inland_rail_days := rc_inland_rail_days c;
       rc_alternative_route_capacity_tons_day := capacity;
       rc_port_handling_capacity_tons_day := rc_port_handling_capacity_tons_day c;
       rc_inland_rail_capacity_ratio := rc_inland_rail_capacity_ratio c; rc_vessel_class := rc_vessel_class c;
       rc_vessel_ice_class := rc_vessel_ice_class c; rc_route_requires_ice_class := rc_route_requires_ice_class c;
       rc_carrier_available := rc_carrier_available c; rc_insurance_available := rc_insurance_available c;
       rc_communications_healthy := rc_communications_healthy c; rc_navigation_healthy := rc_navigation_healthy c;
       rc_fuel_bunkering_available := rc_fuel_bunkering_available c;
       rc_storage_capacity_available := rc_storage_capacity_available c;
       rc_supplier_available := rc_supplier_available c |} id =
  compile_route_substitution c id.
Proof. reflexivity. Qed.

(** ** Concrete inputs *)

Definition example_candidate (ratio : Q) (supplier : bool) : RouteSubstitutionCandidate :=
  {| rc_substitution_id := "sub-001"; rc_primary_route_id := "p"; rc_alternative_route_id := "a"; rc_cargo_type := "general";
     rc_quantity_tons := lit 10000; rc_critical_inventory_exhaustion_days := 30; rc_alternative_transit_days := 20;
     rc_inland_rail_days := 5; rc_alternative_route_capacity_tons_day := lit 5000;
     rc_port_handling_capacity_tons_day := lit 8000; rc_inland_rail_capacity_ratio := lit ratio;
     rc_vessel_class := "Handymax"; rc_vessel_ice_class := false; rc_route_requires_ice_class := false;
     rc_carrier_available := true; rc_insurance_available := true; rc_communications_healthy := true;
     rc_navigation_healthy := true; rc_fuel_bunkering_available := true; rc_storage_capacity_available := true;
     rc_supplier_available := supplier |}.

Definition example_verdict (ratio : Q) (supplier : bool) : option string :=
  match compile_route_substitution (example_candidate ratio supplier) "e" with
  | Ok e => Some (se_effective_substitution e)
  | Raise _ => None
  end.

Example example_verdicts :
  (example_verdict 1 true, example_verdict (2 # 5) true, example_verdict 1 false) =
  (Some "PASS", Some "DEGRADED", Some "FAIL").
Proof. vm_compute. reflexivity. Qed.
