(* ===== verification/Scenario.v ===== *)
(** * scenario.py: correlated failure scenarios

    The events of a scenario close nodes of a dependency graph together; the
    engine of [Graph] propagates the outage and the result counts what is left.
    The iteration order of the set of failed nodes, which Python leaves open, is
    an argument: any permutation of the members. *)

From Stdlib Require Import ZArith QArith Lqa Lia.
From S2P Require Import Prelude PyFloat FloatError PyFormat Domain Graph.

Open Scope Z_scope.

(** ** Data *)

Record ScenarioEvent := {
  ev_target : string;
  ev_state : CorridorState;
  ev_description : option string
}.

Record Scenario := {
  sc_scenario_id : string;
  sc_name : string;
  sc_events : list ScenarioEvent;
  sc_duration_days : Z;
  sc_description : option string
}.

Record AffectedFacility := {
  af_node_id : string;
  af_impact_probability : float;
  af_reason : string
}.

Definition new_AffectedFacility (a : AffectedFacility) : res AffectedFacility :=
  _ ← require (is_score (af_impact_probability a)) "impact_probability";
  Ok a.

Record PolicyViolation := {
  pv_check_id : string;
  pv_description : string;
  pv_severity : string
}.

Record ScenarioResult := {
  sr_result_id : string;
  sr_scenario_id : string;
  sr_events_applied : nat;
  sr_failed_nodes : list string;
  sr_graph_assessment : option GraphAssessment;
  sr_remaining_viable_paths : Z;
  sr_total_capacity_loss : float;
  sr_affected_facilities : list AffectedFacility;
  sr_dependency_cascades : list string;
  sr_policy_violations : list PolicyViolation;
  sr_recovery_required : bool;
  sr_summary : string
}.

Definition new_ScenarioResult (r : ScenarioResult) : res ScenarioResult :=
  _ ← require (is_score (sr_total_capacity_loss r)) "total_capacity_loss";
  Ok r.

(** ** The simulation *)

Definition arrow : string := " → ".

(** The states whose events fail their target. *)
Definition closes (s : CorridorState) : bool :=
  bool_decide (s ∈ [CS_FUNCTIONALLY_CLOSED; CS_PHYSICALLY_CLOSED]).

(** One event: the failed nodes and the texts of the cascades. *)
Definition apply_event (ids : list string) (acc : list string * list string) (event : ScenarioEvent)
    : list string * list string :=
  if mem_str (ev_target event) ids then
    if closes (ev_state event)
    then (set_add acc.1 (ev_target event), acc.2 ++ [ev_target event +:+ arrow +:+ CorridorState_value (ev_state event)])
    else acc
  else (acc.1, acc.2 ++ [ev_target event +:+ arrow +:+ "not in graph (external)"]).

Definition apply_events (g : DependencyGraph) (events : list ScenarioEvent) : list string * list string :=
  foldl (apply_event (node_ids g)) ([], []) events.

(** The nodes an assessment reaches beyond the failed ones. *)
Definition downstream (failed : list string) (a : GraphAssessment) : list ImpactedNode :=
  List.filter (λ i, negb (mem_str (imp_node_id i) failed)) (ga_impacted_nodes a).

Definition affected_facility (i : ImpactedNode) : res AffectedFacility :=
  new_AffectedFacility {| af_node_id := imp_node_id i; af_impact_probability := imp_probability i;
                          af_reason := "cascade from " +:+ str_join arrow (imp_path i) |}.

Definition capacity_loss (affected_count total_nodes : nat) : res float :=
  if (0 <? total_nodes)%nat
  then q ← int_div (Z.of_nat affected_count) (Z.of_nat total_nodes); Ok (fmin f1 q)
  else Ok f0.

(** The text of a dictionary from strings to integers. *)
Definition counts_repr (d : dict string Z) : string :=
  "{" +:+ str_join ", " ((λ kv, str_repr kv.1 +:+ ": " +:+ str_Z kv.2) <$> d) +:+ "}".

Definition violations_of (a : GraphAssessment) : list PolicyViolation :=
  match ga_single_points_of_failure a with
  | [] => []
  | spofs => [{| pv_check_id := "SPOF_DETECTED";
                 pv_description := "Single points of failure exposed: " +:+ str_join ", " spofs;
                 pv_severity := "error" |}]
  end ++
  match List.filter (λ kv, 3 <=? kv.2) (ga_provider_concentration a) with
  | [] => []
  | concentrated => [{| pv_check_id := "PROVIDER_CONCENTRATION";
                        pv_description := "Provider concentration risk: " +:+ counts_repr concentrated;
                        pv_severity := "warning" |}]
  end.

Definition summary_parts (events failed affected : nat) (loss : float) (violations : list PolicyViolation) : list string :=
  [str_nat events +:+ " events applied"; str_nat failed +:+ " nodes directly failed";
   str_nat affected +:+ " downstream facilities affected"; "capacity loss: " +:+ fmt_percent 1 loss]
  ++ match violations with [] => [] | _ => [str_nat (length violations) +:+ " policy violations"] end.

Definition run_analysis (fuel : nat) (order : list string → list string) (g : DependencyGraph) (failed : list string)
    : res (option GraphAssessment * list AffectedFacility) :=
  match failed with
  | [] => Ok (None, [])
  | _ =>
      a ← analyze fuel g (order failed) true;
      affected ← mapM_res affected_facility (downstream failed a);
      Ok (Some a, affected)
  end.

Definition simulate_scenario (fuel : nat) (order : list string → list string) (scenario : Scenario)
    (g : DependencyGraph) (id : string) : res ScenarioResult :=
  let '(failed, cascades) := apply_events g (sc_events scenario) in
  run ← run_analysis fuel order g failed;
  let '(assessment, affected) := (run : option GraphAssessment * list AffectedFacility) in
  let total_nodes := length (graph_nodes g) in
  let affected_count := (length failed + length affected)%nat in
  loss ← capacity_loss affected_count total_nodes;
  let violations := match assessment with Some a => violations_of a | None => [] end in
  new_ScenarioResult
    {| sr_result_id := id; sr_scenario_id := sc_scenario_id scenario;
       sr_events_applied := length (sc_events scenario); sr_failed_nodes := sort_by str_leb failed;
       sr_graph_assessment := assessment;
       sr_remaining_viable_paths := Z.max 0 (Z.of_nat total_nodes - Z.of_nat affected_count);
       sr_total_capacity_loss := fround 6 loss; sr_affected_facilities := affected;
       sr_dependency_cascades := cascades; sr_policy_violations := violations;
       sr_recovery_required := (loss >? lit 0.1)%F || (0 <? length violations)%nat;
       sr_summary := str_join "; "
         (summary_parts (length (sc_events scenario)) (length failed) (length affected) loss violations) |}.

(** ** The failed nodes *)

(** A node fails when an event closes it. *)
Definition closed_by (events : list ScenarioEvent) (n : string) : Prop :=
  ∃ e, e ∈ events ∧ ev_target e = n ∧ closes (ev_state e) = true.

Lemma apply_events_spec ids events acc : NoDup acc.1 →
  NoDup (foldl (apply_event ids) acc events).1 ∧
  ∀ n, n ∈ (foldl (apply_event ids) acc events).1 ↔ n ∈ acc.1 ∨ n ∈ ids ∧ closed_by events n.
Proof.
  revert acc. induction events as [|e events IH]; intros acc Hnd; cbn [foldl].
  { split; [done|]. intros n. split; [by left|]. intros [?|(_ & e & He & _)]; [done|by apply elem_of_nil in He]. }
  assert (NoDup (apply_event ids acc e).1 ∧ ∀ n, n ∈ (apply_event ids acc e).1 ↔
            n ∈ acc.1 ∨ n ∈ ids ∧ ev_target e = n ∧ closes (ev_state e) = true) as [Hnd' Hel].
  { unfold apply_event. destruct (mem_str _ ids) eqn:Em.
    - apply mem_str_true in Em. destruct (closes _); cbn.
      + split; [by apply set_add_NoDup|]. intros n. rewrite elem_of_set_add. naive_solver.
      + split; [done|]. naive_solver.
    - cbn. split; [done|]. intros n. split; [by left|]. intros [?|(Hn & <- & _)]; [done|].
      apply mem_str_true in Hn. congruence. }
  destruct (IH _ Hnd') as [H1 H2]. split; [done|]. intros n. rewrite H2, Hel. unfold closed_by.
  setoid_rewrite elem_of_cons. split.
  - intros [[?|(? & ? & ?)]|(? & e' & ? & ? & ?)]; [by left|right; split; [done|]; exists e; auto|].
    right. split; [done|]. exists e'. auto.
  - intros [?|(? & e' & [->|?] & ? & ?)]; [by left; left|by left; right|]. right. split; [done|]. by exists e'.
Qed.

Lemma failed_spec g events :
  NoDup (apply_events g events).1 ∧
  ∀ n, n ∈ (apply_events g events).1 ↔ n ∈ node_ids g ∧ closed_by events n.
Proof.
  destruct (apply_events_spec (node_ids g) events ([], []) (NoDup_nil_2)) as [H1 H2]. split; [done|].
  intros n. unfold apply_events. rewrite H2. cbn. rewrite elem_of_nil. tauto.
Qed.

(** ** The affected nodes *)

Lemma edge_path_node g u v l : graph_valid g = true → u ∈ node_ids g → edge_path g u v l → v ∈ node_ids g.
Proof. intros Hg Hu H. induction H; [done|]. by apply (graph_facts g Hg). Qed.

Lemma downstream_spec g failed order a :
  graph_valid g = true → order ≡ₚ failed → NoDup failed → (∀ f, f ∈ failed → f ∈ node_ids g) →
  assessment_sound g order a →
  NoDup (imp_node_id <$> downstream failed a) ∧
  (∀ i, i ∈ downstream failed a → imp_node_id i ∉ failed ∧ is_score (imp_probability i) = true ∧
     ∃ f, f ∈ failed ∧ edge_path g f (imp_node_id i) (imp_path i)) ∧
  (length failed + length (downstream failed a) <= length (graph_nodes g))%nat.
Proof.
  intros Hg Hp Hnd Hf Ha.
  assert (∀ i, i ∈ downstream failed a ↔ i ∈ ga_impacted_nodes a ∧ imp_node_id i ∉ failed) as Hel.
  { intros i. unfold downstream. rewrite !list_elem_of_In, List.filter_In, negb_true_iff, <-not_true_iff_false, mem_str_true.
    by rewrite list_elem_of_In. }
  assert (∀ i, i ∈ downstream failed a → imp_node_id i ∉ failed ∧ is_score (imp_probability i) = true ∧
            ∃ f, f ∈ failed ∧ edge_path g f (imp_node_id i) (imp_path i)) as Hd.
  { intros i [Hi Hn]%Hel. split_and!; [done|by apply (sound_scores _ _ _ Ha)|].
    destruct (sound_path _ _ _ Ha i Hi) as (f & Hff & Hpath). rewrite Hp in Hff. eauto. }
  assert (NoDup (imp_node_id <$> downstream failed a)) as Hndd.
  { pose proof (sound_NoDup _ _ _ Ha) as H. unfold downstream. clear -H. induction (ga_impacted_nodes a) as [|i l IH]; cbn; [done|].
    apply NoDup_cons in H as [Hi Hl]. destruct (negb _); cbn; [|by apply IH]. apply NoDup_cons. split; [|by apply IH].
    intros Hin. apply Hi. apply list_elem_of_fmap in Hin as (j & -> & Hj). apply list_elem_of_fmap. exists j.
    split; [done|]. rewrite list_elem_of_In, List.filter_In in Hj. apply list_elem_of_In, Hj. }
  split_and!; [done|done|].
  rewrite <-(length_fmap imp_node_id (downstream failed a)), <-length_app, <-(length_fmap node_id (graph_nodes g)).
  apply submseteq_length, NoDup_submseteq.
  - apply NoDup_app. split_and!; [done| |done]. intros x Hx (i & -> & Hi)%list_elem_of_fmap. by apply (Hd i).
  - intros x [?|(i & -> & Hi)%list_elem_of_fmap]%elem_of_app; [by apply Hf|].
    destruct (Hd i Hi) as (_ & _ & f & ? & ?). eapply edge_path_node; eauto.
Qed.

Lemma affected_spec l : (∀ i, i ∈ l → is_score (imp_probability i) = true) →
  ∃ fs, mapM_res affected_facility l = Ok fs ∧ af_node_id <$> fs = imp_node_id <$> l.
Proof.
  intros H. eexists. split.
  - apply (mapM_res_ok _ (λ i, {| af_node_id := imp_node_id i; af_impact_probability := imp_probability i;
      af_reason := "cascade from " +:+ str_join arrow (imp_path i) |})).
    intros i Hi. unfold affected_facility, new_AffectedFacility. cbn. by rewrite H.
  - rewrite <-list_fmap_compose. done.
Qed.

Lemma run_analysis_spec fuel order g failed :
  graph_valid g = true → Z.of_nat (length (graph_nodes g)) ≤ 2 ^ 30 → (∀ l, order l ≡ₚ l) →
  1 + 2000000001 * Z.of_nat (length (graph_nodes g)) ≤ Z.of_nat fuel →
  NoDup failed → (∀ f, f ∈ failed → f ∈ node_ids g) →
  ∃ a affected, run_analysis fuel order g failed = Ok (a, affected) ∧
    NoDup (failed ++ (af_node_id <$> affected)) ∧
    (∀ n, n ∈ af_node_id <$> affected → ∃ f l, f ∈ failed ∧ edge_path g f n l) ∧
    (length failed + length affected <= length (graph_nodes g))%nat.
Proof.
  intros Hg Hn Hord Hfuel Hnd Hf. unfold run_analysis. destruct failed as [|f0 failed'] eqn:Ef.
  { exists None, []. split_and!; [done|constructor|by intros n ?%elem_of_nil|cbn; lia]. }
  rewrite <-Ef in *. clear Ef f0 failed'.
  destruct (analyze_sound fuel g (order failed) true) as (a & -> & Ha); [done|done|by rewrite Hord|..].
  { intros f Hff. rewrite Hord in Hff. by apply Hf. }
  { unfold fuel_bound. rewrite (Permutation_length (Hord failed)).
    assert (length failed <= length (graph_nodes g))%nat; [|lia]. rewrite <-(length_fmap node_id (graph_nodes g)).
    by apply submseteq_length, NoDup_submseteq. }
  destruct (downstream_spec g failed (order failed) a Hg (Hord failed) Hnd Hf Ha) as (H1 & H2 & H3).
  destruct (affected_spec (downstream failed a)) as (fs & Ea & Eid); [intros i Hi; by apply (H2 i)|].
  cbn [mbind res_bind]. rewrite Ea. cbn [mbind res_bind]. exists (Some a), fs. rewrite Eid.
  split_and!; [done| | |].
  - apply NoDup_app. split_and!; [done| |done]. intros x Hx (i & -> & Hi)%list_elem_of_fmap. by apply (H2 i).
  - intros n (i & -> & Hi)%list_elem_of_fmap. destruct (H2 i Hi) as (_ & _ & f & ? & ?). eauto.
  - apply (f_equal length) in Eid. rewrite !length_fmap in Eid. by rewrite Eid.
Qed.

(** ** The capacity loss *)

(** The loss is a score and exceeds 0.1 exactly when more than a tenth of the
    nodes is lost: rounding never moves it across the threshold. *)
Lemma capacity_loss_spec k n : (k <= n)%nat → Z.of_nat n ≤ 2 ^ 30 →
  ∃ l, capacity_loss k n = Ok l ∧ is_score l = true ∧ (l >? lit 0.1)%F = (n <? 10 * k)%nat.
Proof.
  intros Hk Hn. unfold capacity_loss. destruct (Nat.ltb_spec 0 n) as [Hpos|].
  2:{ exists f0. split_and!; [done..|]. destruct (Nat.ltb_spec n (10 * k)); [lia|done]. }
  set (a := Z.of_nat k). set (b := Z.of_nat n). set (x := (inject_Z a / inject_Z b)%Q).
  assert (0 < inject_Z b)%Q as Pb by (change 0%Q with (inject_Z 0); rewrite <-Zlt_Qlt; unfold b; lia).
  assert (0 <= inject_Z a)%Q as Pa by (change 0%Q with (inject_Z 0); rewrite <-Zle_Qle; unfold a; lia).
  assert (0 <= x)%Q as X0 by (unfold x; apply Qle_shift_div_l; [done|lra]).
  assert (x <= 1)%Q as X1.
  { unfold x. apply Qle_shift_div_r; [done|]. rewrite Qmult_1_l, <-Zle_Qle. unfold a, b. lia. }
  assert (x * inject_Z b == inject_Z a)%Q as Ex by (unfold x; field; lra).
  pose proof (eq_refl : pow2 (0 - 53) = 1 # 9007199254740992)%Q as U. pose proof (eq_refl : pow2 0 = 1)%Q as V.
  destruct (fl_near 0 x) as (q & Hq & Q1 & Q2); [lia|rewrite V; lra..|]. rewrite U in *.
  assert (int_div a b = Ok (Fin q)) as ->.
  { unfold int_div. rewrite (proj2 (Z.eqb_neq _ _)) by (unfold b; lia). fold x. by rewrite Hq. }
  cbn [mbind res_bind]. pose proof (score_fl x X0 X1) as Hs. rewrite Hq in Hs.
  assert (fmin f1 (Fin q) = Fin q ∨ fmin f1 (Fin q) = f1 ∧ (q == 1)%Q) as Hmin.
  { unfold fmin. destruct (fltb (Fin q) f1) eqn:E; [by left|right]. split; [done|].
    apply is_score_iff in Hs as (q' & [= <-] & ? & ?). rewrite f1_eq in E.
    assert (¬ (q < 1)%Q) as H by (intros H%fltb_Fin; congruence). lra. }
  exists (fmin f1 (Fin q)). split; [done|]. split; [by apply score_fmin|].
  assert ((fmin f1 (Fin q) >? lit 0.1)%F = (Fin q >? lit 0.1)%F) as ->.
  { destruct Hmin as [->|[-> H]]; [done|]. change (lit 0.1) with (Fin (3602879701896397 # 36028797018963968)).
    rewrite f1_eq. symmetry. rewrite (proj2 (fltb_Fin _ 1)) by lra. apply fltb_Fin. lra. }
  destruct (Nat.ltb_spec n (10 * k)) as [H|H].
  - change (lit 0.1) with (Fin (3602879701896397 # 36028797018963968)). apply fltb_Fin.
    assert (inject_Z (b + 1) <= inject_Z (10 * a))%Q as H1 by (rewrite <-Zle_Qle; unfold a, b; lia).
    rewrite inject_Z_plus, inject_Z_mult in H1. change (inject_Z 1) with 1%Q in H1. change (inject_Z 10) with 10%Q in H1.
    assert (inject_Z b <= 1073741824)%Q as H2.
    { change 1073741824%Q with (inject_Z (2 ^ 30)). rewrite <-Zle_Qle. unfold b. lia. }
    rewrite <-Ex in H1. clear -H1 H2 Pb Q1 X0. assert (1 <= (10 * x - 1) * 1073741824)%Q; [|lra].
    destruct (Qlt_le_dec (10 * x - 1) 0) as [N|N].
    + exfalso. assert ((10 * x - 1) * inject_Z b < 0 * inject_Z b)%Q; [by apply Qmult_lt_r|lra].
    + apply Qle_trans with ((10 * x - 1) * inject_Z b)%Q; [lra|]. rewrite (Qmult_comm _ (inject_Z b)), (Qmult_comm _ 1073741824).
      by apply Qmult_le_compat_r.
  - apply fltb_irrefl_le. rewrite <-Hq. apply fl_mono. unfold x. apply Qle_shift_div_r; [done|].
    assert (inject_Z (10 * a) <= inject_Z b)%Q as H1 by (rewrite <-Zle_Qle; unfold a, b; lia).
    rewrite inject_Z_mult in H1. change (inject_Z 10) with 10%Q in H1. lra.
Qed.

(** ** The result *)

(** A scenario simulation on a valid graph always returns a result.  The
    failed nodes are exactly the nodes of the graph that an event closes; each
    affected facility is another node, reached by dependency edges from a failed
    one; failed, affected and remaining nodes add up to the nodes of the graph;
    and recovery is required exactly when more than a tenth of the nodes is lost
    or a violation is reported. *)
Theorem simulate_scenario_exact fuel order scenario g id :
  graph_valid g = true → Z.of_nat (length (graph_nodes g)) ≤ 2 ^ 30 → (∀ l, order l ≡ₚ l) →
  1 + 2000000001 * Z.of_nat (length (graph_nodes g)) ≤ Z.of_nat fuel →
  ∃ r, simulate_scenario fuel order scenario g id = Ok r ∧
    (∀ n, n ∈ sr_failed_nodes r ↔ n ∈ node_ids g ∧ closed_by (sc_events scenario) n) ∧
    NoDup (sr_failed_nodes r ++ (af_node_id <$> sr_affected_facilities r)) ∧
    (∀ n, n ∈ af_node_id <$> sr_affected_facilities r → ∃ f l, f ∈ sr_failed_nodes r ∧ edge_path g f n l) ∧
    sr_remaining_viable_paths r + Z.of_nat (length (sr_failed_nodes r)) + Z.of_nat (length (sr_affected_facilities r))
      = Z.of_nat (length (graph_nodes g)) ∧
    is_score (sr_total_capacity_loss r) = true ∧
    (sr_recovery_required r = true ↔
       Z.of_nat (length (graph_nodes g))
         < 10 * Z.of_nat (length (sr_failed_nodes r) + length (sr_affected_facilities r)) ∨
       sr_policy_violations r ≠ []).
Proof.
  intros Hg Hn Hord Hfuel. unfold simulate_scenario.
  destruct (failed_spec g (sc_events scenario)) as [Hnd Hel].
  destruct (apply_events g _) as [failed cascades]. cbn [fst] in Hnd, Hel.
  assert (∃ a affected, run_analysis fuel order g failed = Ok (a, affected) ∧
    NoDup (failed ++ (af_node_id <$> affected)) ∧
    (∀ n, n ∈ af_node_id <$> affected → ∃ f l, f ∈ failed ∧ edge_path g f n l) ∧
    (length failed + length affected <= length (graph_nodes g))%nat) as (a & affected & -> & Hnda & Hpath & Hlen).
  { apply run_analysis_spec; try done. intros f. by intros [? _]%Hel. }
  cbn [mbind res_bind]. destruct (capacity_loss_spec _ _ Hlen Hn) as (l & -> & Hs & Ht). cbn [mbind res_bind].
  unfold new_ScenarioResult. cbn [sr_total_capacity_loss]. rewrite score_round by done. cbn [require mbind res_bind].
  eexists. split; [reflexivity|]. cbn. rewrite sort_by_length. split_and!.
  - intros n. rewrite elem_of_sort_by. exact (Hel n).
  - rewrite (sort_by_perm str_leb failed). exact Hnda.
  - intros n (f & p & ? & ?)%Hpath. exists f, p. rewrite elem_of_sort_by. split; assumption.
  - lia.
  - by apply score_round.
  - rewrite Ht, orb_true_iff, Nat.ltb_lt. set (vs := match a with Some x => violations_of x | None => [] end).
    clear. destruct vs; cbn; [|split; [by right|by right]]. split; intros [?|?]; (done || (left; lia)).
Qed.

(** ** Concrete inputs *)

Definition example_scenario : Scenario :=
  {| sc_scenario_id := "s"; sc_name := "storm";
     sc_events := [{| ev_target := "power"; ev_state := CS_PHYSICALLY_CLOSED; ev_description := None |};
                   {| ev_target := "corridor"; ev_state := CS_OPEN_DEGRADED; ev_description := None |};
                   {| ev_target := "dam"; ev_state := CS_FUNCTIONALLY_CLOSED; ev_description := None |}];
     sc_duration_days := 30; sc_description := None |}.

Example simulate_storm :
  (λ r, (sr_failed_nodes r, af_node_id <$> sr_affected_facilities r, sr_remaining_viable_paths r,
         sr_dependency_cascades r, pv_check_id <$> sr_policy_violations r)) <$>
    simulate_scenario 100 reverse example_scenario (example_graph []) "r" =
  Ok (["power"], ["corridor"; "port"], 2, ["power → physically_closed"; "dam → not in graph (external)"],
      ["SPOF_DETECTED"]).
Proof. vm_compute. reflexivity. Qed.

Lemma simulate_scenario_exact_witness :
  ∃ r, simulate_scenario (Z.to_nat 20000000000) reverse example_scenario (example_graph []) "r" = Ok r ∧
    "power" ∈ sr_failed_nodes r.
Proof.
  destruct (simulate_scenario_exact (Z.to_nat 20000000000) reverse example_scenario (example_graph []) "r")
    as (r & E & Hf & _).
  - vm_compute. reflexivity.
  - vm_compute. discriminate.
  - intros l. apply reverse_Permutation.
  - rewrite Z2Nat.id by lia. vm_compute. discriminate.
  - exists r. split; [exact E|]. apply Hf. split; [apply (bool_decide_unpack _); vm_compute; exact I|].
    eexists. split; [left|]. split; reflexivity.
Defined.
