(* ===== verification/Exchange.v ===== *)
(** * exchange.py: manifests and feature collections of exported evidence

    The manifest of an export, the position found in a payload and the GeoJSON
    features built from it, and the newline-delimited dump.  The serialisation
    of records and the hash are arguments, as in [Evidence].  The GeoPackage
    writer is a sequence of SQL statements and is not modelled. *)

From Stdlib Require Import ZArith QArith Ascii.
From S2P Require Import Prelude PyFloat PyFormat Domain Evidence.

Open Scope Z_scope.

Record ExchangeManifest := {
  em_schema_version : string;
  em_generated_at : datetime;
  em_record_count : nat;
  em_first_record_at : option string;
  em_last_record_at : option string;
  em_record_hashes : list string;
  em_content_sha256 : string;
  em_source : string;
  em_limitations : list string
}.

Record GeoJSONFeature := {
  gf_type : string;
  gf_id : string;
  gf_geometry : option (float * float);
  gf_properties : dict string pyval
}.

Record GeoJSONFeatureCollection := {
  fcol_type : string;
  fcol_features : list GeoJSONFeature;
  fcol_number_matched : nat;
  fcol_number_returned : nat;
  fcol_timestamp : datetime;
  fcol_links : list (dict string string)
}.

(** ** Positions *)

(** A value that is an [int] or a [float] (a [bool] is an [int]), as a float. *)
Definition as_float (v : pyval) : option (res float) :=
  let of_int z := match f_of_Z z with Fin q => Ok (Fin q) | _ => Raise OverflowError end in
  match v with
  | VInt z => Some (of_int z)
  | VBool b => Some (of_int (if b then 1 else 0))
  | VFloat x => Some (Ok x)
  | _ => None
  end.

(** [candidate.get(key, default)] *)
Definition get_or (d : dict string pyval) (key : string) (default : pyval) : pyval :=
  dget_default d key default.

Definition within (bound : float) (x : float) : bool := (fneg bound <=? x)%F && (x <=? bound)%F.

Definition latitude_of (d : dict string pyval) : pyval := get_or d "latitude" (get_or d "lat" VNone).
Definition longitude_of (d : dict string pyval) : pyval :=
  get_or d "longitude" (get_or d "lon" (get_or d "lng" VNone)).

(** The position one candidate dictionary declares, if it is in range. *)
Definition position (d : dict string pyval) : res (option (float * float)) :=
  match as_float (latitude_of d), as_float (longitude_of d) with
  | Some latitude, Some longitude =>
      latitude ← latitude;
      if within (lit 90) latitude
      then longitude ← longitude;
           Ok (if within (lit 180) longitude then Some (longitude, latitude) else None)
      else Ok None
  | _, _ => Ok None
  end.

(** The first candidate with a position: the payload itself, then its metadata. *)
Fixpoint first_position (candidates : list pyval) : res (option (float * float)) :=
  match candidates with
  | [] => Ok None
  | VDict d :: candidates =>
      p ← position d;
      match (p : option (float * float)) with
      | Some p => Ok (Some p)
      | None => first_position candidates
      end
  | _ :: candidates => first_position candidates
  end.

Definition coordinates (payload : dict string pyval) : res (option (float * float)) :=
  first_position [VDict payload; get_or payload "metadata" VNone].

(** ** Features *)

Definition feature_properties (r : EvidenceRecord (P := dict string pyval)) : dict string pyval :=
  let u := er_unsigned r in
  [("record_id", VStr (un_record_id u)); ("record_type", VStr (un_record_type u));
   ("subject_id", VStr (un_subject_id u)); ("created_at", VStr (un_created_at u));
   ("record_hash", VStr (er_record_hash r)); ("previous_hash", VStr (un_previous_hash u));
   ("signed", VBool (match er_signature r with Some _ => true | None => false end));
   ("payload", VDict (un_payload u))].

Definition feature_from_record (r : EvidenceRecord (P := dict string pyval)) : res GeoJSONFeature :=
  geometry ← coordinates (un_payload (er_unsigned r));
  Ok {| gf_type := "Feature"; gf_id := un_record_id (er_unsigned r); gf_geometry := geometry;
        gf_properties := feature_properties r |}.

Definition feature_collection (records : list (EvidenceRecord (P := dict string pyval))) (base_url : string)
    (clock : datetime) : res GeoJSONFeatureCollection :=
  features ← mapM_res feature_from_record records;
  Ok {| fcol_type := "FeatureCollection"; fcol_features := features; fcol_number_matched := length features;
        fcol_number_returned := length features; fcol_timestamp := clock;
        fcol_links := [[("rel", "self"); ("href", base_url); ("type", "application/geo+json")]] |}.

(** ** The manifest *)

(** [min] and [max] of strings: the first extreme member. *)
Definition str_min (x y : string) : string := if str_ltb y x then y else x.
Definition str_max (x y : string) : string := if str_ltb x y then y else x.

Definition reduce_str (f : string → string → string) (l : list string) : option string :=
  match l with [] => None | x :: l => Some (foldl f x l) end.

Section export.
Context {P : Type} (dumps : list (EvidenceRecord (P := P)) → text) (sha256 : text → string)
  (dump : EvidenceRecord (P := P) → text).

Definition export_manifest (records : list EvidenceRecord) (clock : datetime) : ExchangeManifest :=
  let created := (λ r, un_created_at (er_unsigned r)) <$> records in
  {| em_schema_version := "continuityos.evidence-export.v1"; em_generated_at := clock;
     em_record_count := length records; em_first_record_at := reduce_str str_min created;
     em_last_record_at := reduce_str str_max created; em_record_hashes := er_record_hash <$> records;
     em_content_sha256 := sha256 (dumps records); em_source := "continuityos://evidence-ledger";
     em_limitations :=
       ["Export is a read-only evidence snapshot, not a live feed.";
        "Geometry is present only when the source payload contains valid latitude/longitude fields.";
        "No standards conformance certification or customer-system connectivity is implied."] |}.

Definition ndjson_bytes (records : list EvidenceRecord) : text :=
  concat ((λ r, dump r ++ [nl]) <$> records).
End export.

(** ** What a feature shows *)

(** A position is in range. *)
Definition in_range (p : float * float) : Prop := within (lit 180) p.1 = true ∧ within (lit 90) p.2 = true.

Lemma position_in_range d p : position d = Ok (Some p) → in_range p.
Proof.
  unfold position. destruct (as_float (latitude_of d)) as [rlat|]; [|done].
  destruct (as_float (longitude_of d)) as [rlon|]; [|done]. intros H. apply bind_ok in H as (lat & _ & H).
  destruct (within (lit 90) lat) eqn:Elat; [|done]. apply bind_ok in H as (lon & _ & H).
  destruct (within (lit 180) lon) eqn:Elon; [|done]. injection H as <-. by split.
Qed.

Lemma coordinates_in_range payload p : coordinates payload = Ok (Some p) → in_range p.
Proof.
  unfold coordinates. generalize [VDict payload; get_or payload "metadata" VNone]. intros l.
  induction l as [|v l IH]; [done|]. destruct v; cbn; try apply IH. intros H. apply bind_ok in H as (q & Hq & H).
  destruct q; [|by apply IH]. injection H as <-. by apply position_in_range in Hq.
Qed.

(** The dump of clean records has one line per record, in order. *)
Lemma ndjson_lines {P} (dump : EvidenceRecord (P := P) → text) records :
  Forall proper_line (dump <$> records) → splitlines (ndjson_bytes dump records) = dump <$> records.
Proof.
  intros H. rewrite <-(splitlines_unlines _ H). unfold ndjson_bytes, unlines.
  by rewrite <-list_fmap_compose.
Qed.

Example coordinates_fallback :
  coordinates [("latitude", VNone); ("lat", VInt 70);
               ("metadata", VDict [("lat", VInt 70); ("lng", VFloat (lit 33.5)); ("lon", VBool true)])] =
  Ok (Some (lit 1, lit 70)).
Proof. vm_compute. reflexivity. Qed.
