(* ===== verification/Decision.v ===== *)
(** * decision.py: the decision packet

    One call that composes the engines: the assessment of [Fusion], the failure
    analysis of [Graph] and the plan of [Compiler], with the manifest of the
    evidence.  The theorem composes what the engines promise. *)

From Stdlib Require Import ZArith QArith Lia.
From S2P Require Import Prelude PyFloat PyFormat Domain Sources Fusion Compiler Graph Evidence Exchange.

Open Scope Z_scope.

Record DecisionPacketRequest := {
  dr_corridor_id : string;
  dr_observations : list Observation;
  dr_as_of : option datetime;
  dr_graph : DependencyGraph;
  dr_failed_nodes : list string;
  dr_objective : ContinuityObjective;
  dr_available_actions : list MitigationAction
}.

Definition len_between (a b n : nat) : bool := (a <=? n)%nat && (n <=? b)%nat.

(** The constraints of the request and of its parts. *)
Definition DecisionPacketRequest_valid (r : DecisionPacketRequest) : bool :=
  (1 <=? str_len (dr_corridor_id r)) && (str_len (dr_corridor_id r) <=? 128)
  && len_between 1 512 (length (dr_observations r))
  && graph_valid (dr_graph r)
  && len_between 1 256 (length (dr_failed_nodes r))
  && ContinuityObjective_valid (dr_objective r)
  && (length (dr_available_actions r) <=? 24)%nat && forallb MitigationAction_valid (dr_available_actions r).

Record DecisionPacket := {
  dp_contract_version : string;
  dp_packet_id : string;
  dp_generated_at : datetime;
  dp_corridor_id : string;
  dp_assessment : CorridorAssessment;
  dp_dependency_assessment : GraphAssessment;
  dp_plan : CompiledPlan;
  dp_evidence_manifest : ExchangeManifest;
  dp_approval_required : bool;
  dp_human_action_boundary : string
}.

(** What the code draws from [uuid4()] and the clock. *)
Record draws := {
  draw_assessment_id : string;
  draw_plan_id : string;
  draw_packet_id : string;
  draw_clock : datetime
}.

Section decision.
Context `{LibM}.

(** [order] is the iteration order of the set of failed nodes. *)
Definition build_decision_packet (fuel : nat) (order : list string → list string) (max_actions : Z) (d : draws)
    (request : DecisionPacketRequest) (evidence_manifest : ExchangeManifest) : res DecisionPacket :=
  assessment ← assess (draw_assessment_id d) (draw_clock d) (dr_corridor_id request) (dr_observations request)
                 (dr_as_of request);
  dependency_assessment ← analyze fuel (dr_graph request) (order (set_of (dr_failed_nodes request))) true;
  plan ← compile max_actions (draw_plan_id d)
           {| cr_assessment := assessment; cr_objective := dr_objective request;
              cr_available_actions := dr_available_actions request |};
  Ok {| dp_contract_version := "continuityos.decision-packet.v1"; dp_packet_id := draw_packet_id d;
        dp_generated_at := draw_clock d; dp_corridor_id := dr_corridor_id request; dp_assessment := assessment;
        dp_dependency_assessment := dependency_assessment; dp_plan := plan;
        dp_evidence_manifest := evidence_manifest; dp_approval_required := cp_approval_required plan;
        dp_human_action_boundary :=
          "Plan generation is advisory only. A human operator must review and approve any consequential action; ContinuityOS does not execute or dispatch actions." |}.

(** What a packet promises: the parts are those of the engines, for one another. *)
Record packet_sound (order : list string → list string) (d : draws) (request : DecisionPacketRequest)
    (p : DecisionPacket) : Prop := {
  packet_assessment : assess (draw_assessment_id d) (draw_clock d) (dr_corridor_id request) (dr_observations request)
                        (dr_as_of request) = Ok (dp_assessment p);
  packet_known f : f ∈ dr_failed_nodes request → f ∈ node_ids (dr_graph request);
  packet_graph : assessment_sound (dr_graph request) (order (set_of (dr_failed_nodes request)))
                   (dp_dependency_assessment p);
  packet_same : cp_assessment_id (dp_plan p) = ca_assessment_id (dp_assessment p);
  packet_plan : feasible {| cr_assessment := dp_assessment p; cr_objective := dr_objective request;
                            cr_available_actions := dr_available_actions request |}
                  (cp_selected_actions (dp_plan p));
  packet_available a : a ∈ cp_selected_actions (dp_plan p) → a ∈ dr_available_actions request;
  packet_approval : dp_approval_required p = true ↔
    co_human_approval_required (dr_objective request) = true ∨
    ∃ a, a ∈ cp_selected_actions (dp_plan p) ∧ ma_requires_human_approval a = true
}.

Lemma elem_of_order (order : list string → list string) l x : (∀ l, order l ≡ₚ l) → x ∈ order (set_of l) ↔ x ∈ l.
Proof. intros Ho. rewrite (Ho (set_of l)). unfold set_of. by rewrite elem_of_remove_dups. Qed.

(** The failure analysis of a request either succeeds or names unknown nodes. *)
Lemma request_analysis fuel order g failed :
  graph_valid g = true → Z.of_nat (length (graph_nodes g)) ≤ 2 ^ 30 → (∀ l, order l ≡ₚ l) →
  1 + 2000000001 * Z.of_nat (length (graph_nodes g)) ≤ Z.of_nat fuel →
  (∃ a, analyze fuel g (order (set_of failed)) true = Ok a ∧ (∀ f, f ∈ failed → f ∈ node_ids g) ∧
     assessment_sound g (order (set_of failed)) a) ∨
  (∃ f unknown, f ∈ failed ∧ f ∉ node_ids g ∧
     analyze fuel g (order (set_of failed)) true = Raise (ValueError ("unknown failed nodes: " +:+ list_repr unknown))).
Proof using.
  intros Hg Hn Ho Hfuel. assert (NoDup (order (set_of failed))) as Hnd by (rewrite (Ho (set_of failed)); apply NoDup_remove_dups).
  destruct (decide (Forall (λ f, f ∈ node_ids g) failed)) as [Hk|Hk].
  - rewrite Forall_forall in Hk. left. destruct (analyze_sound fuel g (order (set_of failed)) true) as (a & E & Ha); try done.
    + intros f Hf. apply Hk. by apply (elem_of_order order).
    + unfold fuel_bound. assert (length (order (set_of failed)) <= length (graph_nodes g))%nat; [|lia].
      rewrite <-(length_fmap node_id (graph_nodes g)). apply submseteq_length, NoDup_submseteq; [done|].
      intros x Hx. apply Hk. by apply (elem_of_order order).
    + by exists a.
  - right. apply not_Forall_Exists in Hk; [|apply _]. apply Exists_exists in Hk as (f & Hf & Hn').
    destruct (analyze_unknown fuel g (order (set_of failed)) true f) as (u & E & _); [by apply elem_of_order|done|].
    by exists f, u.
Qed.

(** C13.  A decision packet composes the engines faithfully: for a valid
    request, either a packet is built whose parts satisfy what each engine
    promises (the assessment is that of the observations, the failure report
    is sound for the requested nodes, the plan was compiled from this very
    assessment and is feasible, and approval is required exactly when the
    objective or a selected action demands it), or the call raises, and then
    the assessment raised that exception or a failed node is not in the graph. *)
Theorem build_decision_packet_exact fuel order max_actions d request manifest :
  DecisionPacketRequest_valid request = true → 24 ≤ max_actions → (∀ l, order l ≡ₚ l) →
  Z.of_nat (length (graph_nodes (dr_graph request))) ≤ 2 ^ 30 →
  1 + 2000000001 * Z.of_nat (length (graph_nodes (dr_graph request))) ≤ Z.of_nat fuel →
  match build_decision_packet fuel order max_actions d request manifest with
  | Ok p => packet_sound order d request p
  | Raise e =>
      assess (draw_assessment_id d) (draw_clock d) (dr_corridor_id request) (dr_observations request)
        (dr_as_of request) = Raise e ∨
      ∃ f unknown, f ∈ dr_failed_nodes request ∧ f ∉ node_ids (dr_graph request) ∧
        e = ValueError ("unknown failed nodes: " +:+ list_repr unknown)
  end.
Proof.
  intros Hv Hmax Ho Hn Hfuel. unfold DecisionPacketRequest_valid in Hv. bool_norm.
  unfold build_decision_packet. destruct (assess _ _ _ _ _) as [a|e] eqn:Ea; [|by left]. cbn [mbind res_bind].
  destruct (request_analysis fuel order (dr_graph request) (dr_failed_nodes request)) as [(g & Eg & Hk & Hs)|(f & u & Hf & Hnf & Eg)];
    [done..| |]; rewrite Eg; cbn [mbind res_bind]; [|right; by exists f, u].
  set (r := {| cr_assessment := a; cr_objective := dr_objective request; cr_available_actions := dr_available_actions request |}).
  assert (request_valid r = true) as Hr by (unfold request_valid; cbn; by rewrite andb_true_iff).
  assert (Z.of_nat (length (cr_available_actions r)) ≤ max_actions) as Hl.
  { match goal with H : (_ <=? 24)%nat = true |- _ => apply Nat.leb_le in H end. cbn. lia. }
  destruct (compile_ok max_actions (draw_plan_id d) r Hr Hl) as (s & Hs1 & Hs2 & _ & ->). cbn [mbind res_bind].
  split; cbn; try done.
  - intros x Hx. by eapply (subset_available r), Hx; apply elem_of_all_subsets.
  - rewrite orb_true_iff, existsb_exists. by setoid_rewrite <-list_elem_of_In.
Qed.
End decision.

(** ** Concrete inputs *)

#[local] Instance example_LibM : LibM := {| m_exp := example_exp; m_exp_nonpos := example_exp_nonpos |}.

Definition example_manifest : ExchangeManifest :=
  export_manifest (P := unit) (λ _, []) (λ _, zero_hash) [] (utc 3600).

Definition example_draws : draws :=
  {| draw_assessment_id := "a-1"; draw_plan_id := "p-1"; draw_packet_id := "d-1"; draw_clock := utc 3600 |}.

Definition example_decision (failed : list string) : DecisionPacketRequest :=
  {| dr_corridor_id := "corridor/nsr"; dr_observations := example_observations; dr_as_of := None;
     dr_graph := example_graph []; dr_failed_nodes := failed; dr_objective := cr_objective (example_request (lit 50));
     dr_available_actions := cr_available_actions (example_request (lit 50)) |}.

Lemma build_decision_packet_exact_witness :
  ∃ p, build_decision_packet (Z.to_nat 20000000000) reverse 24 example_draws (example_decision ["power"; "power"])
         example_manifest = Ok p ∧
    packet_sound reverse example_draws (example_decision ["power"; "power"]) p.
Proof.
  assert (1 + 2000000001 * Z.of_nat (length (graph_nodes (dr_graph (example_decision ["power"; "power"]))))
            ≤ Z.of_nat (Z.to_nat 20000000000)) as Hfuel by (rewrite Z2Nat.id by lia; vm_compute; discriminate).
  pose proof (build_decision_packet_exact (Z.to_nat 20000000000) reverse 24 example_draws
                (example_decision ["power"; "power"]) example_manifest eq_refl ltac:(lia)
                (λ l, reverse_Permutation l) ltac:(vm_compute; discriminate) Hfuel) as H.
  destruct (build_decision_packet _ _ _ _ _ _) as [p|e]; [exists p; split; [reflexivity|exact H]|].
  exfalso. destruct H as [E|(f & u & Hf & Hnf & _)]; [vm_compute in E; discriminate E|].
  apply Hnf. assert (f = "power") as -> by (cbn in Hf; set_solver).
  apply (bool_decide_unpack _). vm_compute. exact I.
Defined.
