(* ===== verification/Readiness.v ===== *)
(** * readiness.py: the C-level readiness rating

    The rating of a theatre from its continuity, its reserves, the state of its
    corridor and the reconciliation.  The theorems give the rating and the
    exceptions exactly, and show that better inputs never lower a rating. *)

From Stdlib Require Import ZArith QArith Lqa Lia.
From S2P Require Import Prelude PyFloat FloatError PyFormat Domain Policy Reconcile.

Open Scope Z_scope.

Inductive CLevelRating :=
| C1_FULLY_MISSION_CAPABLE
| C2_SUBSTANTIALLY_CAPABLE
| C3_MARGINALLY_CAPABLE
| C4_NOT_MISSION_CAPABLE
| C5_REGENERATION_UNDERWAY.

#[export] Instance CLevelRating_eq_dec : EqDecision CLevelRating.
Proof. solve_decision. Defined.

Definition CLevelRating_value (r : CLevelRating) : string :=
  match r with
  | C1_FULLY_MISSION_CAPABLE => "C-1_fully_capable"
  | C2_SUBSTANTIALLY_CAPABLE => "C-2_substantially_capable"
  | C3_MARGINALLY_CAPABLE => "C-3_marginally_capable"
  | C4_NOT_MISSION_CAPABLE => "C-4_not_capable"
  | C5_REGENERATION_UNDERWAY => "C-5_regeneration"
  end.

Record MissionLimitingFactor := {
  ml_factor_id : string;
  ml_category : string;
  ml_description : string;
  ml_impact_on_c_rating : string
}.

Record ReadinessAssessment := {
  ra_assessment_id : string;
  ra_unit_or_theater_id : string;
  ra_c_rating : CLevelRating;
  ra_overall_continuity_score : float;
  ra_inventory_readiness_score : float;
  ra_corridor_operational_score : float;
  ra_mission_limiting_factors : list MissionLimitingFactor;
  ra_executive_briefing : string
}.

Definition new_ReadinessAssessment (r : ReadinessAssessment) : res ReadinessAssessment :=
  _ ← require (is_score (ra_overall_continuity_score r)) "overall_continuity_score";
  _ ← require (is_score (ra_inventory_readiness_score r)) "inventory_readiness_score";
  _ ← require (is_score (ra_corridor_operational_score r)) "corridor_operational_score";
  Ok r.

(** ** The parts of the evaluation *)

Definition corridor_closed (s : CorridorState) : bool := bool_decide (s ∈ [CS_PHYSICALLY_CLOSED; CS_FUNCTIONALLY_CLOSED]).
Definition corridor_limited (s : CorridorState) : bool :=
  bool_decide (s ∈ [CS_OPEN_BUT_UNINSURABLE; CS_OPEN_BUT_NO_CARRIER_CAPACITY; CS_OPEN_BUT_NAVIGATION_UNTRUSTED;
                    CS_OPEN_BUT_COMMUNICATIONS_DEGRADED]).
Definition corridor_reduced (s : CorridorState) : bool := bool_decide (s ∈ [CS_OPEN_DEGRADED; CS_OPEN_CAPACITY_CONSTRAINED]).

Definition corridor_score (s : CorridorState) : float :=
  if corridor_closed s then f0
  else if corridor_limited s then lit 0.5
  else if corridor_reduced s then lit 0.8
  else lit 1.

Definition corridor_factors (s : CorridorState) : list MissionLimitingFactor :=
  if corridor_closed s then
    [{| ml_factor_id := "CORRIDOR_CLOSED"; ml_category := "CORRIDOR_STATE";
        ml_description := "Primary theater transit corridor is " +:+ CorridorState_value s;
        ml_impact_on_c_rating := "Direct downgrade to C-4" |}]
  else if corridor_limited s then
    [{| ml_factor_id := "CORRIDOR_DEGRADED"; ml_category := "CORRIDOR_STATE";
        ml_description := "Corridor is " +:+ CorridorState_value s;
        ml_impact_on_c_rating := "Restricts rating to C-3 maximum" |}]
  else [].

(** [min(1.0, inventory_reserve_days / 30.0)] *)
Definition inventory_score (days : float) : res float := q ← fdiv days (lit 30); Ok (fmin f1 q).

Definition inventory_factors (days : float) : list MissionLimitingFactor :=
  if (days <? lit 7)%F then
    [{| ml_factor_id := "CRITICAL_INVENTORY_DEPLETION"; ml_category := "INVENTORY_SHORTAGE";
        ml_description := "Strategic reserves down to " +:+ fmt_fixed 1 days +:+ " days (< 7d)";
        ml_impact_on_c_rating := "Direct downgrade to C-4" |}]
  else if (days <? lit 20)%F then
    [{| ml_factor_id := "LOW_INVENTORY_RESERVE"; ml_category := "INVENTORY_SHORTAGE";
        ml_description := "Strategic reserves down to " +:+ fmt_fixed 1 days +:+ " days (< 20d)";
        ml_impact_on_c_rating := "Restricts rating to C-2/C-3" |}]
  else [].

Definition reconciliation_failed (r : option ReconciliationResult) : bool :=
  match r with Some r => bool_decide (rr_overall_status r = RC_FAIL) | None => false end.

Definition reconciliation_factors (r : option ReconciliationResult) : list MissionLimitingFactor :=
  match r with
  | Some r =>
      if bool_decide (rr_overall_status r = RC_FAIL) then
        [{| ml_factor_id := "POLICY_RECONCILIATION_FAILURE"; ml_category := "POLICY_VIOLATION";
            ml_description := str_Z (rr_fail_count r) +:+ " critical policy assertions failing";
            ml_impact_on_c_rating := "Restricts rating to C-3 or C-4" |}]
      else []
  | None => []
  end.

Definition c_rating (corridor days continuity : float) (failed : bool) : CLevelRating :=
  if feqb corridor f0 || (days <? lit 7)%F || (continuity <? lit 0.65)%F then C4_NOT_MISSION_CAPABLE
  else if (corridor <=? lit 0.5)%F || (days <? lit 20)%F || (continuity <? lit 0.8)%F || failed
  then C3_MARGINALLY_CAPABLE
  else if (days <? lit 30)%F || (continuity <? lit 0.95)%F then C2_SUBSTANTIALLY_CAPABLE
  else C1_FULLY_MISSION_CAPABLE.

Definition briefing_parts (rating : CLevelRating) (continuity days : float) (s : CorridorState)
    (factors : list MissionLimitingFactor) : list string :=
  ["Theater Readiness Assessment: " +:+ str_upper (CLevelRating_value rating);
   "Continuity: " +:+ fmt_percent 1 continuity;
   "Inventory Reserves: " +:+ fmt_fixed 1 days +:+ " days";
   "Corridor Operational Status: " +:+ CorridorState_value s]
  ++ match factors with
     | [] => []
     | _ => [str_nat (length factors) +:+ " Mission-Limiting Factors Active: "
             +:+ str_join "; " (ml_description <$> factors)]
     end.

(** [policy_result] is accepted and never read. *)
Definition evaluate_readiness (id theater_id : string) (overall_continuity inventory_reserve_days : float)
    (corridor_state : CorridorState) (policy_result : option PolicyEvaluation)
    (reconciliation_result : option ReconciliationResult) : res ReadinessAssessment :=
  inventory ← inventory_score inventory_reserve_days;
  let corridor := corridor_score corridor_state in
  let factors := corridor_factors corridor_state ++ inventory_factors inventory_reserve_days
                 ++ reconciliation_factors reconciliation_result in
  let rating := c_rating corridor inventory_reserve_days overall_continuity
                  (reconciliation_failed reconciliation_result) in
  new_ReadinessAssessment
    {| ra_assessment_id := id; ra_unit_or_theater_id := theater_id; ra_c_rating := rating;
       ra_overall_continuity_score := fround 4 overall_continuity;
       ra_inventory_readiness_score := fround 4 inventory;
       ra_corridor_operational_score := fround 4 corridor; ra_mission_limiting_factors := factors;
       ra_executive_briefing :=
         str_join " | " (briefing_parts rating overall_continuity inventory_reserve_days corridor_state factors) |}.

(** ** Facts *)

Lemma corridor_score_ok s : is_score (fround 4 (corridor_score s)) = true.
Proof. apply score_round. by destruct s. Qed.

Lemma inventory_score_ok days : ∃ q, inventory_score days = Ok q.
Proof. unfold inventory_score. change (lit 30) with (Fin 30). destruct days; cbn; by eexists. Qed.

Lemma nonneg_inventory_score days q : (f0 <=? days)%F = true → inventory_score days = Ok q → is_score q = true.
Proof.
  unfold inventory_score. change (lit 30) with (Fin 30). destruct days as [d|[]|]; try done.
  - rewrite f0_eq, fleb_Fin. intros Hd. cbn. intros [= <-]. apply score_min1. rewrite f0_eq.
    apply fltb_irrefl_le. rewrite <-fl_0. apply fl_mono. apply Qle_shift_div_l; lra.
  - intros _. cbn. by intros [= <-].
Qed.

(** The rating by its four conditions. *)
Definition rating_level (r : CLevelRating) : nat :=
  match r with
  | C1_FULLY_MISSION_CAPABLE => 1
  | C2_SUBSTANTIALLY_CAPABLE => 2
  | C3_MARGINALLY_CAPABLE => 3
  | C4_NOT_MISSION_CAPABLE => 4
  | C5_REGENERATION_UNDERWAY => 5
  end.

Definition below (x : float) (threshold : Q) : Prop := (x <? lit threshold)%F = true.

(** The conditions under which a rating is at most C-2, C-3 and C-4. *)
Definition at_least_c4 (days continuity : float) (s : CorridorState) : Prop :=
  corridor_closed s = true ∨ below days 7 ∨ below continuity 0.65.
Definition at_least_c3 (days continuity : float) (s : CorridorState) (failed : bool) : Prop :=
  at_least_c4 days continuity s ∨ corridor_limited s = true ∨ below days 20 ∨ below continuity 0.8 ∨ failed = true.
Definition at_least_c2 (days continuity : float) (s : CorridorState) (failed : bool) : Prop :=
  at_least_c3 days continuity s failed ∨ below days 30 ∨ below continuity 0.95.

Lemma corridor_score_zero s : feqb (corridor_score s) f0 = corridor_closed s.
Proof. by destruct s. Qed.

Lemma corridor_score_half s : (corridor_score s <=? lit 0.5)%F = corridor_closed s || corridor_limited s.
Proof. by destruct s. Qed.

Lemma c_rating_levels s days continuity failed :
  let l := rating_level (c_rating (corridor_score s) days continuity failed) in
  (1 <= l <= 4)%nat ∧ ((4 <= l)%nat ↔ at_least_c4 days continuity s) ∧
  ((3 <= l)%nat ↔ at_least_c3 days continuity s failed) ∧ ((2 <= l)%nat ↔ at_least_c2 days continuity s failed).
Proof.
  unfold c_rating, at_least_c2, at_least_c3, at_least_c4, below. rewrite corridor_score_zero, corridor_score_half.
  generalize (corridor_closed s), (corridor_limited s), (fltb days (lit 7)), (fltb days (lit 20)), (fltb days (lit 30)),
    (fltb continuity (lit 0.65)), (fltb continuity (lit 0.8)), (fltb continuity (lit 0.95)).
  intros closed limited d7 d20 d30 k65 k80 k95. destruct (closed || d7 || k65) eqn:E4.
  { rewrite !orb_true_iff in E4. cbn. intuition (lia || congruence). }
  apply orb_false_elim in E4 as [[-> ->]%orb_false_elim ->]. destruct (_ || failed) eqn:E3.
  { rewrite !orb_true_iff in E3. cbn. intuition (lia || congruence). }
  apply orb_false_elim in E3 as [[[[_ ->]%orb_false_elim ->]%orb_false_elim ->]%orb_false_elim ->].
  destruct (d30 || k95) eqn:E2.
  { rewrite !orb_true_iff in E2. cbn. intuition (lia || congruence). }
  apply orb_false_elim in E2 as [-> ->]. cbn. intuition (lia || congruence).
Qed.

Lemma corridor_score_mono s1 s2 : (corridor_score s1 <=? corridor_score s2)%F = true →
  (corridor_closed s2 = true → corridor_closed s1 = true) ∧
  (corridor_closed s2 || corridor_limited s2 = true → corridor_closed s1 || corridor_limited s1 = true).
Proof.
  intros H. rewrite <-!corridor_score_half, <-!corridor_score_zero. split.
  - assert (feqb (corridor_score s1) f0 = true ∨ (f0 <? corridor_score s1)%F = true) as [?|Hp] by (destruct s1; by auto); [done|].
    intros He%feqb_fleb. pose proof (fltb_fleb_trans _ _ _ Hp H) as Hp2.
    by rewrite (fltb_irrefl_le _ _ (proj1 He)) in Hp2.
  - intros H2. by eapply fleb_trans.
Qed.

Lemma below_mono x y t : (x <=? y)%F = true → below y t → below x t.
Proof. unfold below. apply fleb_fltb_trans. Qed.

Lemma evaluate_readiness_ok id theater continuity days s policy recon r :
  evaluate_readiness id theater continuity days s policy recon = Ok r →
  ra_c_rating r = c_rating (corridor_score s) days continuity (reconciliation_failed recon).
Proof.
  unfold evaluate_readiness. intros H. apply bind_ok in H as (q & _ & H). unfold new_ReadinessAssessment in H.
  inv_ok. done.
Qed.

(** The readiness rating is decided as follows, on every input.  It is
    C-4 exactly when the corridor is closed, fewer than 7 days of reserves are
    left or continuity is below 0.65; at least C-3 also when the corridor is
    restricted, fewer than 20 days are left, continuity is below 0.8 or the
    reconciliation failed; at least C-2 also below 30 days or 0.95; C-1
    otherwise and C-5 never.  The only exception is a validation error, and
    only when the rounded continuity or the reserve score is not in [0, 1]. *)
Theorem evaluate_readiness_exact id theater continuity days s policy recon :
  match evaluate_readiness id theater continuity days s policy recon with
  | Ok r =>
      let l := rating_level (ra_c_rating r) in
      let failed := reconciliation_failed recon in
      ra_c_rating r ≠ C5_REGENERATION_UNDERWAY ∧
      ((4 <= l)%nat ↔ at_least_c4 days continuity s) ∧ ((3 <= l)%nat ↔ at_least_c3 days continuity s failed) ∧
      ((2 <= l)%nat ↔ at_least_c2 days continuity s failed)
  | Raise e =>
      (∃ field, e = ValidationError field) ∧
      (is_score (fround 4 continuity) = false ∨ (f0 <=? days)%F = false)
  end.
Proof.
  destruct (evaluate_readiness _ _ _ _ _ _ _) as [r|e] eqn:E.
  - apply evaluate_readiness_ok in E. cbn zeta. rewrite E.
    destruct (c_rating_levels s days continuity (reconciliation_failed recon)) as (Hl & H4 & H3 & H2). split_and!; try done.
    intros E5. rewrite E5 in Hl. cbn in Hl. lia.
  - unfold evaluate_readiness in E. destruct (inventory_score_ok days) as [q Hq]. rewrite Hq in E.
    cbn [mbind res_bind] in E. unfold new_ReadinessAssessment in E. cbn in E. rewrite corridor_score_ok in E.
    destruct (is_score (fround 4 continuity)) eqn:Ec; cbn in E; [|injection E as <-; split; [by eexists|by left]].
    destruct (is_score (fround 4 q)) eqn:Ei; cbn in E; [done|]. injection E as <-. split; [by eexists|right].
    apply not_true_is_false. intros Hd. apply (nonneg_inventory_score _ _ Hd) in Hq.
    by rewrite (score_round 4 q Hq) in Ei.
Qed.

(** Better inputs never lower a rating: with a corridor that scores at
    least as well, at least as many days of reserves, at least the continuity
    and no new reconciliation failure, the rating level does not rise. *)
Theorem readiness_monotone id1 id2 theater c1 c2 d1 d2 s1 s2 policy1 policy2 recon1 recon2 r1 r2 :
  evaluate_readiness id1 theater c1 d1 s1 policy1 recon1 = Ok r1 →
  evaluate_readiness id2 theater c2 d2 s2 policy2 recon2 = Ok r2 →
  (corridor_score s1 <=? corridor_score s2)%F = true → (d1 <=? d2)%F = true → (c1 <=? c2)%F = true →
  (reconciliation_failed recon2 = true → reconciliation_failed recon1 = true) →
  (rating_level (ra_c_rating r2) <= rating_level (ra_c_rating r1))%nat.
Proof.
  intros ->%evaluate_readiness_ok ->%evaluate_readiness_ok [Hs1 Hs2]%corridor_score_mono Hd Hc Hf.
  destruct (c_rating_levels s1 d1 c1 (reconciliation_failed recon1)) as (H1 & A4 & A3 & A2).
  destruct (c_rating_levels s2 d2 c2 (reconciliation_failed recon2)) as (H2 & B4 & B3 & B2).
  set (l1 := rating_level _) in *. set (l2 := rating_level (c_rating (corridor_score s2) _ _ _)) in *. clearbody l1 l2.
  pose proof (λ t, below_mono d1 d2 t Hd) as Md. pose proof (λ t, below_mono c1 c2 t Hc) as Mc.
  rewrite !orb_true_iff in Hs2.
  assert (at_least_c4 d2 c2 s2 → at_least_c4 d1 c1 s1) as M4.
  { unfold at_least_c4. intros [?|[?|?]]; auto. }
  assert (at_least_c3 d2 c2 s2 (reconciliation_failed recon2) → at_least_c3 d1 c1 s1 (reconciliation_failed recon1)) as M3.
  { unfold at_least_c3. intros [?|[?|[?|[?|?]]]]; auto 6. destruct Hs2 as [?|?]; auto. left. by left. }
  assert (at_least_c2 d2 c2 s2 (reconciliation_failed recon2) → at_least_c2 d1 c1 s1 (reconciliation_failed recon1)) as M2.
  { unfold at_least_c2. intros [?|[?|?]]; auto. }
  rewrite <-A4, <-B4 in M4. rewrite <-A3, <-B3 in M3. rewrite <-A2, <-B2 in M2. lia.
Qed.

(** An unknown corridor state scores like an open one. *)
Example unknown_corridor_is_open : corridor_score CS_UNKNOWN = corridor_score CS_OPEN.
Proof. reflexivity. Qed.

(** Reserves that are not a number are rated as full. *)
Example nan_reserves_are_full :
  ra_c_rating <$> evaluate_readiness "r" "t" f1 NaN CS_OPEN None None = Ok C1_FULLY_MISSION_CAPABLE.
Proof. vm_compute. reflexivity. Qed.

(** ** Concrete inputs *)

Lemma readiness_monotone_witness :
  ∃ r1 r2, evaluate_readiness "r1" "t" (lit 0.9) (lit 8) CS_OPEN_BUT_UNINSURABLE None None = Ok r1 ∧
    evaluate_readiness "r2" "t" (lit 0.96) (lit 25) CS_OPEN None None = Ok r2 ∧
    (rating_level (ra_c_rating r2) <= rating_level (ra_c_rating r1))%nat.
Proof.
  eexists _, _. split; [vm_compute; reflexivity|]. split; [vm_compute; reflexivity|].
  apply (readiness_monotone "r1" "r2" "t" (lit 0.9) (lit 0.96) (lit 8) (lit 25) CS_OPEN_BUT_UNINSURABLE CS_OPEN
           None None None None); try (vm_compute; reflexivity).
  discriminate.
Defined.
