(* ===== verification/Assurance.v ===== *)
(** * assurance.py: the assurance budget

    An assurance policy (from dsl.py) is checked against the observed state, one
    dimension at a time.  The theorems relate compliance to the policy's
    requirements and give the score of a compliant state. *)

From Stdlib Require Import ZArith QArith Lqa Lia.
From S2P Require Import Prelude PyFloat FloatError PyFormat Domain.

Open Scope Z_scope.

(** ** The policy (dsl.py) *)

Record AssuranceToleranceSpec := {
  at_corridor_loss : Z;
  at_port_loss : Z;
  at_communication_provider_loss : Z;
  at_navigation_source_loss : Z;
  at_observation_source_loss : Z
}.

Record AssuranceEvidenceSpec := {
  ae_minimum_independent_operational_sources : Z;
  ae_minimum_independent_navigation_sources : Z;
  ae_minimum_independent_environmental_sources : Z
}.

Record AssuranceCommercialSpec := {
  ac_minimum_carrier_options : Z;
  ac_insurance_required : bool
}.

Record AssuranceInventorySpec := {
  ai_minimum_reserve_days : Z;
  ai_minimum_assured_replenishment_cycles : Z
}.

Record AssuranceRecoverySpec := {
  ar_verify_carrier_return : bool;
  ar_verify_backlog_clearance : bool;
  ar_verify_reserve_restoration : bool
}.

Record AssurancePolicySpec := {
  ap_minimum : float;
  ap_tolerate : AssuranceToleranceSpec;
  ap_evidence : AssuranceEvidenceSpec;
  ap_commercial : AssuranceCommercialSpec;
  ap_inventory : AssuranceInventorySpec;
  ap_recovery : AssuranceRecoverySpec
}.

Definition between (a b z : Z) : bool := (a <=? z) && (z <=? b).

(** The field constraints. *)
Definition AssurancePolicySpec_valid (p : AssurancePolicySpec) : bool :=
  is_score (ap_minimum p)
  && between 0 50 (at_corridor_loss (ap_tolerate p)) && between 0 50 (at_port_loss (ap_tolerate p))
  && between 0 20 (at_communication_provider_loss (ap_tolerate p))
  && between 0 20 (at_navigation_source_loss (ap_tolerate p))
  && between 0 20 (at_observation_source_loss (ap_tolerate p))
  && between 1 20 (ae_minimum_independent_operational_sources (ap_evidence p))
  && between 1 20 (ae_minimum_independent_navigation_sources (ap_evidence p))
  && between 1 20 (ae_minimum_independent_environmental_sources (ap_evidence p))
  && between 1 20 (ac_minimum_carrier_options (ap_commercial p))
  && between 0 3650 (ai_minimum_reserve_days (ap_inventory p))
  && between 0 50 (ai_minimum_assured_replenishment_cycles (ap_inventory p)).

(** ** The observed state and the scorecard *)

Record AssuranceObservedState := {
  ao_continuity_score : float;
  ao_available_corridors : Z;
  ao_available_ports : Z;
  ao_independent_comm_providers : Z;
  ao_independent_nav_sources : Z;
  ao_independent_obs_sources : Z;
  ao_independent_operational_sources : Z;
  ao_independent_environmental_sources : Z;
  ao_carrier_options : Z;
  ao_insurance_verified : bool;
  ao_reserve_days : float;
  ao_assured_replenishment_cycles : Z;
  ao_carrier_return_verified : bool;
  ao_backlog_clearance_verified : bool;
  ao_reserve_restoration_verified : bool
}.

Record AssuranceDimensionResult := {
  ad_dimension : string;
  ad_category : string;
  ad_passed : bool;
  ad_required : string;
  ad_observed : string;
  ad_score : float;
  ad_message : string
}.

Definition new_AssuranceDimensionResult (d : AssuranceDimensionResult) : res AssuranceDimensionResult :=
  _ ← require (is_score (ad_score d)) "score";
  Ok d.

Record AssuranceScorecard := {
  as_scorecard_id : string;
  as_policy_name : string;
  as_evaluated_at : datetime;
  as_overall_compliant : bool;
  as_assurance_score : float;
  as_dimensions : list AssuranceDimensionResult;
  as_failed_dimensions : list string;
  as_summary : string
}.

Definition new_AssuranceScorecard (c : AssuranceScorecard) : res AssuranceScorecard :=
  _ ← require (is_score (as_assurance_score c)) "assurance_score";
  Ok c.

Definition format_table (c : AssuranceScorecard) : string :=
  let rule := str_repeat 78 "=" in
  let thin := str_repeat 78 "-" in
  let row category dimension status required observed :=
    ljust 14 category +:+ " " +:+ ljust 28 dimension +:+ " " +:+ ljust 8 status +:+ " " +:+ ljust 12 required
    +:+ " " +:+ ljust 10 observed in
  str_join newline (
    [rule; "ASSURANCE BUDGET SCORECARD — " +:+ as_policy_name c; rule;
     "Overall Status:   " +:+ (if as_overall_compliant c then "COMPLIANT" else "NON-COMPLIANT");
     "Assurance Score:  " +:+ fmt_percent 1 (as_assurance_score c);
     "Evaluated At:     " +:+ isoformat (as_evaluated_at c); "";
     row "CATEGORY" "DIMENSION" "STATUS" "REQUIRED" "OBSERVED"; thin]
    ++ ((λ d, row (str_upper (ad_category d)) (ad_dimension d) (if ad_passed d then "PASS" else "FAIL")
                (ad_required d) (ad_observed d)) <$> as_dimensions c)
    ++ [thin]
    ++ match as_failed_dimensions c with
       | [] => ["All declared assurance constraints satisfied."]
       | failed => ["Failed Dimensions (" +:+ str_nat (length failed) +:+ "):"]
                   ++ ((λ f, "  * " +:+ f) <$> failed)
       end
    ++ [rule]).

(** ** The dimensions *)

(** [min(1.0, observed / required) if required > 0 else 1.0] on integers. *)
Definition count_score (required observed : Z) : res float :=
  if 0 <? required then q ← int_div observed required; Ok (fmin f1 q) else Ok (lit 1).

(** A dimension that counts something. *)
Definition count_dimension (dimension category unit : string) (required observed : Z) (satisfied missing : string)
    : res AssuranceDimensionResult :=
  score ← count_score required observed;
  let passed := required <=? observed in
  new_AssuranceDimensionResult
    {| ad_dimension := dimension; ad_category := category; ad_passed := passed;
       ad_required := ">= " +:+ str_Z required +:+ " " +:+ unit; ad_observed := str_Z observed; ad_score := score;
       ad_message := if passed then satisfied else missing |}.

(** A dimension that is verified or not. *)
Definition flag_dimension (dimension category required : string) (passed : bool) (yes no satisfied missing : string)
    : res AssuranceDimensionResult :=
  new_AssuranceDimensionResult
    {| ad_dimension := dimension; ad_category := category; ad_passed := passed; ad_required := required;
       ad_observed := if passed then yes else no; ad_score := if passed then lit 1 else f0;
       ad_message := if passed then satisfied else missing |}.

Section evaluation.
Context (policy : AssurancePolicySpec) (state : AssuranceObservedState).

Definition continuity_dimension : res AssuranceDimensionResult :=
  let required := ap_minimum policy in
  let observed := ao_continuity_score state in
  let passed := (observed >=? required)%F in
  score ← (if (required >? f0)%F then q ← fdiv observed required; Ok (fmin f1 q) else Ok (lit 1));
  new_AssuranceDimensionResult
    {| ad_dimension := "continuity_objective"; ad_category := "objective"; ad_passed := passed;
       ad_required := ">= " +:+ fmt_percent 1 required; ad_observed := fmt_percent 1 observed; ad_score := score;
       ad_message := if passed then "Satisfies minimum continuity objective"
                     else "Continuity deficit: " +:+ fmt_percent 1 (required - observed)%F |}.

Definition reserve_dimension : res AssuranceDimensionResult :=
  let required := ai_minimum_reserve_days (ap_inventory policy) in
  let observed := ao_reserve_days state in
  let passed := (observed >=? f_of_Z required)%F in
  score ← (if 0 <? required then q ← fdiv observed (f_of_Z required); Ok (fmin f1 q) else Ok (lit 1));
  new_AssuranceDimensionResult
    {| ad_dimension := "inventory_reserve_days"; ad_category := "inventory"; ad_passed := passed;
       ad_required := ">= " +:+ str_Z required +:+ " days"; ad_observed := fmt_fixed 1 observed +:+ " days";
       ad_score := score;
       ad_message := if passed then "Strategic reserve days satisfy buffer"
                     else "Reserve deficit of " +:+ fmt_fixed 1 (f_of_Z required - observed)%F +:+ " days" |}.

(** A dimension of the loss that must be tolerated. *)
Definition tolerance_dimension (dimension unit : string) (tolerated observed : Z) (what more : string)
    : res AssuranceDimensionResult :=
  count_dimension dimension "tolerance" unit (tolerated + 1) observed
    ("Tolerates " +:+ str_Z tolerated +:+ " " +:+ what)
    ("Requires " +:+ str_Z (tolerated + 1 - observed) +:+ " additional " +:+ more).

(** The dimensions in order; an optional one is absent unless the policy asks. *)
Definition dimension_plan : list (bool * res AssuranceDimensionResult) :=
  let t := ap_tolerate policy in
  let e := ap_evidence policy in
  let c := ap_commercial policy in
  let r := ap_recovery policy in
  [(true, continuity_dimension);
   (true, tolerance_dimension "corridor_redundancy" "corridors" (at_corridor_loss t) (ao_available_corridors state)
            "corridor loss" "corridor(s)");
   (true, tolerance_dimension "port_redundancy" "ports" (at_port_loss t) (ao_available_ports state)
            "port loss" "port(s)");
   (true, tolerance_dimension "communication_tolerance" "providers" (at_communication_provider_loss t)
            (ao_independent_comm_providers state) "comm loss" "independent provider(s)");
   (true, tolerance_dimension "navigation_tolerance" "sources" (at_navigation_source_loss t)
            (ao_independent_nav_sources state) "nav source loss" "navigation source(s)");
   (true, count_dimension "operational_evidence_sources" "evidence" "sources"
            (ae_minimum_independent_operational_sources e) (ao_independent_operational_sources state)
            "Satisfies operational source diversity"
            ("Needs " +:+ str_Z (ae_minimum_independent_operational_sources e - ao_independent_operational_sources state)
              +:+ " more independent operational source(s)"));
   (true, count_dimension "environmental_evidence_sources" "evidence" "sources"
            (ae_minimum_independent_environmental_sources e) (ao_independent_environmental_sources state)
            "Satisfies environmental source diversity"
            ("Needs " +:+ str_Z (ae_minimum_independent_environmental_sources e - ao_independent_environmental_sources state)
              +:+ " more independent environmental source(s)"));
   (true, count_dimension "carrier_options" "commercial" "carriers" (ac_minimum_carrier_options c)
            (ao_carrier_options state) "Sufficient commercial carrier competition"
            ("Requires " +:+ str_Z (ac_minimum_carrier_options c - ao_carrier_options state)
              +:+ " additional commercial carrier option(s)"));
   (ac_insurance_required c, flag_dimension "insurance_underwriting" "commercial" "true" (ao_insurance_verified state)
            "true" "false" "War-risk and marine insurance coverage active"
            "Insurance coverage withdrawn or unverified");
   (true, reserve_dimension);
   (true, count_dimension "assured_replenishment_cycles" "inventory" "cycle(s)"
            (ai_minimum_assured_replenishment_cycles (ap_inventory policy)) (ao_assured_replenishment_cycles state)
            "Next replenishment cycle assured" "Replenishment cycle unverified or disrupted");
   (ar_verify_carrier_return r, flag_dimension "recovery_carrier_return" "recovery" "verified"
            (ao_carrier_return_verified state) "verified" "unverified"
            "Carrier return contractually or physically verified" "Carrier return not yet confirmed");
   (ar_verify_backlog_clearance r, flag_dimension "recovery_backlog_clearance" "recovery" "verified"
            (ao_backlog_clearance_verified state) "verified" "backlog_active"
            "Port and transit backlogs confirmed cleared" "Active backlog prevents full restoration");
   (ar_verify_reserve_restoration r, flag_dimension "recovery_reserve_restoration" "recovery" "verified"
            (ao_reserve_restoration_verified state) "verified" "depleted"
            "Strategic reserves confirmed rebuilt to baseline"
            "Reserves still recovering toward nominal buffer")].

Definition dimensions : res (list AssuranceDimensionResult) :=
  mapM_res (λ p, p.2) (List.filter (λ p, p.1) dimension_plan).

Definition evaluate_assurance (policy_name id : string) (clock : datetime) : res AssuranceScorecard :=
  dims ← dimensions;
  let failed := ad_dimension <$> List.filter (λ d, negb (ad_passed d)) dims in
  total_score ← (match dims with
                 | [] => Ok f0
                 | _ => fdiv (fsum (ad_score <$> dims)) (f_of_Z (Z.of_nat (length dims)))
                 end);
  let overall_compliant := match failed with [] => true | _ => false end in
  new_AssuranceScorecard
    {| as_scorecard_id := id; as_policy_name := policy_name; as_evaluated_at := clock;
       as_overall_compliant := overall_compliant; as_assurance_score := fround 4 total_score; as_dimensions := dims;
       as_failed_dimensions := failed;
       as_summary :=
         if overall_compliant
         then "Assurance policy '" +:+ policy_name +:+ "' COMPLIANT (" +:+ fmt_percent 1 total_score +:+ ")"
         else "Assurance policy '" +:+ policy_name +:+ "' NON-COMPLIANT: " +:+ str_nat (length failed)
              +:+ " dimension(s) failed (" +:+ str_join ", " failed +:+ ")" |}.

(** ** Compliance *)

(** What the policy requires of the state, dimension by dimension; a dimension
    the policy does not enable is met. *)
Definition requirements : list (string * bool) :=
  let t := ap_tolerate policy in
  let e := ap_evidence policy in
  let c := ap_commercial policy in
  let r := ap_recovery policy in
  [("continuity_objective", (ao_continuity_score state >=? ap_minimum policy)%F);
   ("corridor_redundancy", at_corridor_loss t <? ao_available_corridors state);
   ("port_redundancy", at_port_loss t <? ao_available_ports state);
   ("communication_tolerance", at_communication_provider_loss t <? ao_independent_comm_providers state);
   ("navigation_tolerance", at_navigation_source_loss t <? ao_independent_nav_sources state);
   ("operational_evidence_sources", ae_minimum_independent_operational_sources e <=? ao_independent_operational_sources state);
   ("environmental_evidence_sources", ae_minimum_independent_environmental_sources e <=? ao_independent_environmental_sources state);
   ("carrier_options", ac_minimum_carrier_options c <=? ao_carrier_options state);
   ("insurance_underwriting", implb (ac_insurance_required c) (ao_insurance_verified state));
   ("inventory_reserve_days", (ao_reserve_days state >=? f_of_Z (ai_minimum_reserve_days (ap_inventory policy)))%F);
   ("assured_replenishment_cycles", ai_minimum_assured_replenishment_cycles (ap_inventory policy) <=? ao_assured_replenishment_cycles state);
   ("recovery_carrier_return", implb (ar_verify_carrier_return r) (ao_carrier_return_verified state));
   ("recovery_backlog_clearance", implb (ar_verify_backlog_clearance r) (ao_backlog_clearance_verified state));
   ("recovery_reserve_restoration", implb (ar_verify_reserve_restoration r) (ao_reserve_restoration_verified state))].

(** The observed numbers make sense: nothing is negative or beyond what a float holds. *)
Definition state_sane : bool :=
  forallb (between 0 (2 ^ 1000))
    [ao_available_corridors state; ao_available_ports state; ao_independent_comm_providers state;
     ao_independent_nav_sources state; ao_independent_operational_sources state;
     ao_independent_environmental_sources state; ao_carrier_options state; ao_assured_replenishment_cycles state]
  && (f0 <=? ao_continuity_score state)%F && (f0 <=? ao_reserve_days state)%F.

(** A dimension is computed, its score is a score, and it is full when passed. *)
Definition computed (m : res AssuranceDimensionResult) (name : string) (passed : bool) : Prop :=
  ∃ d, m = Ok d ∧ ad_dimension d = name ∧ ad_passed d = passed ∧ is_score (ad_score d) = true ∧ (passed = true → ad_score d = f1).

Lemma computed_new d name passed :
  ad_dimension d = name → ad_passed d = passed → is_score (ad_score d) = true → (passed = true → ad_score d = f1) →
  computed (new_AssuranceDimensionResult d) name passed.
Proof using. intros H0 H1 H2 H3. unfold new_AssuranceDimensionResult. rewrite H2. by exists d. Qed.

Lemma fmin_one x : (f1 <=? x)%F = true → fmin f1 x = f1.
Proof using. intros H. unfold fmin. by rewrite (fltb_irrefl_le _ _ H). Qed.

Lemma count_score_ok required observed : 0 <= observed <= 2 ^ 1000 →
  ∃ s, count_score required observed = Ok s ∧ is_score s = true ∧ (required <= observed → s = f1).
Proof using.
  intros Ho. unfold count_score. destruct (Z.ltb_spec 0 required) as [Hr|]; [|exists (lit 1); done].
  set (x := (inject_Z observed / inject_Z required)%Q).
  assert (1 <= inject_Z required)%Q as Pr by (change 1%Q with (inject_Z 1); rewrite <-Zle_Qle; lia).
  assert (0 <= inject_Z observed)%Q as Po by (change 0%Q with (inject_Z 0); rewrite <-Zle_Qle; lia).
  assert (inject_Z observed <= pow2 1000)%Q as Pb by (rewrite pow2_Z by lia; rewrite <-Zle_Qle; lia).
  assert (0 <= x)%Q as X0 by (unfold x; apply Qle_shift_div_l; lra).
  assert (x <= pow2 1000)%Q as X1.
  { unfold x. apply Qle_shift_div_r; [lra|]. apply Qle_trans with (pow2 1000 * 1)%Q; [lra|].
    apply Qmult_le_l; [apply pow2_pos|done]. }
  destruct (fl_between 0 (Qred (pow2 1000)) x fl_0) as (q & Hq & Q0 & _);
    [by vm_compute|done|by rewrite Qred_correct|].
  assert (int_div observed required = Ok (Fin q)) as ->.
  { unfold int_div. rewrite (proj2 (Z.eqb_neq _ _)) by lia. fold x. by rewrite Hq. }
  cbn [mbind res_bind]. eexists. split; [done|]. split.
  - apply score_min1. apply fltb_irrefl_le. rewrite f0_eq. by apply fleb_Fin.
  - intros Hle. apply fmin_one. rewrite <-Hq. unfold f1, lit. apply fl_mono. unfold x. apply Qle_shift_div_l; [lra|].
    rewrite Qmult_1_l, <-Zle_Qle. done.
Qed.

Lemma count_computed dimension category unit required observed satisfied missing :
  between 0 (2 ^ 1000) observed = true →
  computed (count_dimension dimension category unit required observed satisfied missing) dimension (required <=? observed).
Proof using.
  unfold between. intros H. bool_norm. destruct (count_score_ok required observed) as (s & E & Hs & H1); [done|].
  unfold count_dimension. rewrite E. cbn [mbind res_bind]. apply computed_new; [done|done|done|].
  intros Hp%Z.leb_le. by apply H1.
Qed.

Lemma tolerance_computed dimension unit tolerated observed what more :
  between 0 (2 ^ 1000) observed = true →
  computed (tolerance_dimension dimension unit tolerated observed what more) dimension (tolerated <? observed).
Proof using.
  intros H. replace (tolerated <? observed) with (tolerated + 1 <=? observed) by (destruct (Z.ltb_spec tolerated observed), (Z.leb_spec (tolerated + 1) observed); (done || lia)).
  by apply count_computed.
Qed.

Lemma flag_computed dimension category required passed yes no satisfied missing :
  computed (flag_dimension dimension category required passed yes no satisfied missing) dimension passed.
Proof using. apply computed_new; cbn; by destruct passed. Qed.

(** [min(1.0, x / r)] of floats with [x] not negative and [r] positive. *)
Lemma ratio_score x r : (f0 <=? x)%F = true → (f0 <? r)%F = true →
  ∃ q, fdiv x r = Ok q ∧ is_score (fmin f1 q) = true ∧ ((r <=? x)%F = true → fmin f1 q = f1).
Proof using.
  rewrite f0_eq. destruct r as [r|[]|]; try done; intros Hx Hr.
  - apply fltb_Fin in Hr. unfold fdiv. destruct (Qeq_bool r 0) eqn:E0; [apply Qeq_bool_iff in E0; lra|].
    assert (Qneg r = false) as En by (unfold Qneg; apply negb_false_iff, Qle_bool_iff; lra).
    destruct x as [x|[]|]; try done.
    + apply fleb_Fin in Hx. assert (0 <= x / r)%Q by (apply Qle_shift_div_l; lra).
      exists (fl (x / r)). split; [done|]. split.
      * apply score_min1, fltb_irrefl_le. unfold f0, lit. by apply fl_mono.
      * intros Hle%fleb_Fin. apply fmin_one. unfold f1, lit. apply fl_mono, Qle_shift_div_l; lra.
    + rewrite En. exists (Inf false). done.
  - unfold fdiv. destruct x as [x|[]|]; try done; eexists; split; try done; split; try done; try (intros _; done).
Qed.

Section valid.
Context (Hp : AssurancePolicySpec_valid policy = true) (Hs : state_sane = true).

Lemma continuity_computed : computed continuity_dimension "continuity_objective" (ao_continuity_score state >=? ap_minimum policy)%F.
Proof using Hp Hs.
  unfold state_sane in Hs. unfold AssurancePolicySpec_valid in Hp. bool_norm. unfold continuity_dimension.
  destruct (fltb f0 (ap_minimum policy)) eqn:Er.
  - destruct (ratio_score (ao_continuity_score state) (ap_minimum policy)) as (q & -> & Hq & Hq1); [done..|].
    cbn [mbind res_bind]. by apply computed_new.
  - cbn [mbind res_bind]. by apply computed_new.
Qed.

Lemma reserve_computed :
  computed reserve_dimension "inventory_reserve_days"
    (ao_reserve_days state >=? f_of_Z (ai_minimum_reserve_days (ap_inventory policy)))%F.
Proof using Hp Hs.
  unfold state_sane in Hs. unfold AssurancePolicySpec_valid, between in Hp. bool_norm. unfold reserve_dimension.
  set (r := ai_minimum_reserve_days _) in *. destruct (Z.ltb_spec 0 r) as [Hr|Hr].
  - destruct (ratio_score (ao_reserve_days state) (f_of_Z r)) as (q & -> & Hq & Hq1); [done| |].
    + unfold f_of_Z. rewrite fl_Z by lia. rewrite f0_eq. apply fltb_Fin. change 0%Q with (inject_Z 0).
      by rewrite <-Zlt_Qlt.
    + cbn [mbind res_bind]. by apply computed_new.
  - cbn [mbind res_bind]. by apply computed_new.
Qed.

(** An entry of the plan and its requirement. *)
Definition plan_entry (p : bool * res AssuranceDimensionResult) (b : string * bool) : Prop :=
  if p.1 then computed p.2 b.1 b.2 else b.2 = true.

(** Every dimension is computed, and passes exactly when it is met. *)
Lemma plan_computed :
  Forall2 plan_entry dimension_plan requirements.
Proof using Hp Hs.
  pose proof continuity_computed as Hc. pose proof reserve_computed as Hr. unfold state_sane in Hs.
  cbn [forallb] in Hs. bool_norm. unfold dimension_plan, requirements.
  repeat (constructor; [unfold plan_entry; cbn [fst snd]|]); try apply Forall2_nil_2; try done;
    try (apply tolerance_computed; done); try (apply count_computed; done).
  all: case_match; [apply flag_computed|done].
Qed.

(** The dimensions of a plan whose enabled entries are computed. *)
Lemma dimensions_of_plan plan bs : Forall2 plan_entry plan bs →
  ∃ ds, mapM_res (λ p : bool * res AssuranceDimensionResult, p.2) (List.filter (λ p, p.1) plan) = Ok ds ∧
    (length ds <= length plan)%nat ∧ Forall (λ d, is_score (ad_score d) = true) ds ∧
    ad_dimension <$> List.filter (λ d, negb (ad_passed d)) ds = fst <$> List.filter (λ b, negb b.2) bs ∧
    (Forall (λ d, ad_passed d = true) ds → Forall (λ d, ad_score d = f1) ds) ∧
    (ds = [] → Forall (λ p, p.1 = false) plan).
Proof using.
  induction 1 as [|[on m] [n b] plan bs Hb H (ds & E & Hlen & Hsc & Hpass & Hone & Hnil)]; [by exists []|].
  unfold plan_entry in Hb. destruct on; cbn [fst snd] in Hb; cbn [List.filter fst mapM_res snd].
  - destruct Hb as (d & -> & En & Ed & Hd & Hd1). cbn [mbind res_bind]. rewrite E. cbn [mbind res_bind]. exists (d :: ds).
    split_and!; [done|cbn; lia|by constructor| | |done].
    + cbn. rewrite Ed. destruct b; cbn; [done|]. by rewrite En, Hpass.
    + rewrite !Forall_cons. intros [Hp1 Hp2]. split; [apply Hd1; congruence|by apply Hone].
  - subst b. exists ds. split_and!; [done|cbn; lia|done|done|done|].
    intros E0. constructor; [done|by apply Hnil].
Qed.

Lemma scores_as_Q l : Forall (λ x, is_score x = true) l → ∃ qs, l = Fin <$> qs ∧ Forall (λ q, 0 <= q ∧ q <= 1)%Q qs.
Proof using.
  induction 1 as [|x l (q & -> & H)%is_score_iff _ (qs & -> & Hqs)]; [by exists []|].
  exists (q :: qs). split; [done|by constructor].
Qed.

Lemma qsum_ones l qs : Forall (λ x, x = f1) l → l = Fin <$> qs → (qsum qs == nQ (length qs))%Q.
Proof using.
  intros H ->. induction qs as [|q qs IH]; [done|]. cbn [fmap list_fmap] in H. apply Forall_cons in H as [Hq H].
  rewrite f1_eq in Hq. injection Hq as ->. cbn [qsum length]. rewrite nQ_S, (IH H). ring.
Qed.

(** The overall score of dimensions with scores. *)
Lemma overall_score ds : (length ds <= 14)%nat → Forall (λ d, is_score (ad_score d) = true) ds →
  ∃ t, match ds with
       | [] => Ok f0
       | _ => fdiv (fsum (ad_score <$> ds)) (f_of_Z (Z.of_nat (length ds)))
       end = Ok t ∧ is_score (fround 4 t) = true ∧
    (ds ≠ [] → Forall (λ d, ad_score d = f1) ds → fround 4 t = f1).
Proof using.
  intros Hlen Hsc. destruct ds as [|d ds'] eqn:Eds; [by exists f0|]. rewrite <-Eds in *. assert (ds ≠ []) as Hne by (by subst).
  clear Eds d ds'. destruct (scores_as_Q (ad_score <$> ds)) as (qs & Eqs & Hqs); [by apply Forall_fmap|].
  assert (length ds = length qs) as El by (rewrite <-(length_fmap ad_score ds), Eqs; apply length_fmap).
  assert (qs ≠ []) as Hne' by (intros ->; cbn in El; destruct ds; done).
  destruct (mean_near qs) as (m & Em & [M1 M2]); [done|lia|done|]. rewrite Eqs, El, Em. exists (Fin m). split; [done|].
  assert (1 <= nQ (length qs))%Q as Hn.
  { rewrite nQ_Z. change 1%Q with (inject_Z 1). rewrite <-Zle_Qle. destruct qs; [done|cbn; lia]. }
  assert (Forall (λ q, 0 <= q)%Q qs ∧ Forall (λ q, q <= 1)%Q qs) as [H0 H1] by (by apply Forall_and).
  pose proof (qsum_nonneg qs H0) as S0. pose proof (qsum_le_length qs H1) as S1. set (x := (qsum qs / nQ (length qs))%Q) in *.
  assert (0 <= x)%Q by (unfold x; apply Qle_shift_div_l; lra). assert (x <= 1)%Q by (unfold x; apply Qle_shift_div_r; lra).
  split; [apply round4_score; lra|]. intros _ Hone. apply round4_one; [|lra].
  assert (1 <= x)%Q; [|lra]. unfold x. apply Qle_shift_div_l; [lra|].
  rewrite (qsum_ones (ad_score <$> ds) qs); [lra|by apply Forall_fmap|done].
Qed.

(** The evaluation of a sane state. *)
Lemma evaluate_ok policy_name id clock :
  ∃ c, evaluate_assurance policy_name id clock = Ok c ∧
    as_failed_dimensions c = fst <$> List.filter (λ r, negb r.2) requirements ∧
    (as_overall_compliant c = true ↔ as_failed_dimensions c = []) ∧
    (as_overall_compliant c = true → as_assurance_score c = f1).
Proof using Hp Hs.
  unfold evaluate_assurance, dimensions.
  destruct (dimensions_of_plan _ _ plan_computed) as (ds & -> & Hlen & Hsc & Hpass & Hone & Hnil). cbn [mbind res_bind].
  destruct (overall_score ds) as (t & -> & Ht & H1); [exact Hlen|done|]. cbn [mbind res_bind].
  unfold new_AssuranceScorecard. cbn [as_assurance_score]. rewrite Ht. cbn [require mbind res_bind].
  eexists. split; [reflexivity|]. cbn [as_failed_dimensions as_overall_compliant as_assurance_score].
  assert (ad_dimension <$> List.filter (λ d, negb (ad_passed d)) ds = [] ↔ Forall (λ d, ad_passed d = true) ds) as Hf.
  { clear. induction ds as [|d ds IH]; cbn; [done|]. rewrite Forall_cons, <-IH. destruct (ad_passed d); cbn; naive_solver. }
  assert (∀ l : list string, match l with [] => true | _ => false end = true ↔ l = []) as Hm by (by intros []).
  rewrite Hm. split_and!; [done|done|]. intros Hr%Hf. apply H1; [|by apply Hone].
  intros E%Hnil. by apply Forall_cons in E as [E _].
Qed.
End valid.
End evaluation.

(** The scorecard is exact: for a valid policy and a state without
    negative numbers the evaluation returns a scorecard whose failed dimensions
    are precisely the requirements of the policy that the state misses, in
    order; the state is compliant exactly when there are none, and then its
    score is exactly 1. *)
Theorem evaluate_assurance_exact policy state policy_name id clock :
  AssurancePolicySpec_valid policy = true → state_sane state = true →
  ∃ c, evaluate_assurance policy state policy_name id clock = Ok c ∧
    as_failed_dimensions c = fst <$> List.filter (λ r, negb r.2) (requirements policy state) ∧
    (as_overall_compliant c = true ↔ as_failed_dimensions c = []) ∧
    (as_overall_compliant c = true → as_assurance_score c = f1).
Proof. intros Hp Hs. by apply evaluate_ok. Qed.

(** Two declared constraints enter no dimension: the independent navigation
    sources of the evidence section and the tolerated loss of observation sources. *)
Lemma unread_constraints policy state policy_name id clock navigation observation :
  let t := ap_tolerate policy in
  let e := ap_evidence policy in
  evaluate_assurance
    {| ap_minimum := ap_minimum policy;
       ap_tolerate := {| at_corridor_loss := at_corridor_loss t; at_port_loss := at_port_loss t;
                         at_communication_provider_loss := at_communication_provider_loss t;
                         at_navigation_source_loss := at_navigation_source_loss t;
                         at_observation_source_loss := observation |};
       ap_evidence := {| ae_minimum_independent_operational_sources := ae_minimum_independent_operational_sources e;
                         ae_minimum_independent_navigation_sources := navigation;
                         ae_minimum_independent_environmental_sources := ae_minimum_independent_environmental_sources e |};
       ap_commercial := ap_commercial policy; ap_inventory := ap_inventory policy; ap_recovery := ap_recovery policy |}
    state policy_name id clock = evaluate_assurance policy state policy_name id clock.
Proof. reflexivity. Qed.

(** ** Concrete inputs *)

Definition example_policy : AssurancePolicySpec :=
  {| ap_minimum := lit 0.95;
     ap_tolerate := {| at_corridor_loss := 1; at_port_loss := 1; at_communication_provider_loss := 1;
                       at_navigation_source_loss := 2; at_observation_source_loss := 1 |};
     ap_evidence := {| ae_minimum_independent_operational_sources := 2; ae_minimum_independent_navigation_sources := 3;
                       ae_minimum_independent_environmental_sources := 2 |};
     ap_commercial := {| ac_minimum_carrier_options := 2; ac_insurance_required := true |};
     ap_inventory := {| ai_minimum_reserve_days := 30; ai_minimum_assured_replenishment_cycles := 1 |};
     ap_recovery := {| ar_verify_carrier_return := true; ar_verify_backlog_clearance := false;
                       ar_verify_reserve_restoration := true |} |}.

Definition example_state (corridors : Z) (insured : bool) : AssuranceObservedState :=
  {| ao_continuity_score := lit 0.97; ao_available_corridors := corridors; ao_available_ports := 2;
     ao_independent_comm_providers := 2; ao_independent_nav_sources := 3; ao_independent_obs_sources := 0;
     ao_independent_operational_sources := 2; ao_independent_environmental_sources := 2; ao_carrier_options := 2;
     ao_insurance_verified := insured; ao_reserve_days := lit 45; ao_assured_replenishment_cycles := 1;
     ao_carrier_return_verified := true; ao_backlog_clearance_verified := false;
     ao_reserve_restoration_verified := true |}.

Example failed_dimensions :
  (λ c, (as_failed_dimensions c, fmt_percent 1 (as_assurance_score c))) <$>
    evaluate_assurance example_policy (example_state 1 false) "p" "s" {| dt_us := 0; dt_aware := true |} =
  Ok (["corridor_redundancy"; "insurance_underwriting"], "88.5%").
Proof. vm_compute. reflexivity. Qed.

Lemma evaluate_assurance_exact_witness :
  ∃ c, evaluate_assurance example_policy (example_state 2 true) "p" "s" {| dt_us := 0; dt_aware := true |} = Ok c ∧ as_assurance_score c = f1.
Proof.
  destruct (evaluate_assurance_exact example_policy (example_state 2 true) "p" "s" {| dt_us := 0; dt_aware := true |}) as (c & E & _ & _ & H);
    [vm_compute; reflexivity..|].
  exists c. split; [exact E|]. apply H. vm_compute in E. injection E as <-. reflexivity.
Defined.
