(* ===== verification/Analysis.v ===== *)
(** * analysis.py: ridge regression with a temporal holdout

    The rows are ordered by time, the first ones train the model and the last
    ones test it.  All arithmetic is binary64; [math.sqrt] is the correctly
    rounded root, and [x ** 2], which the platform's [pow] computes, is an
    operation of a class.  The theorems concern the split (no test row precedes
    a training row, both parts are large enough) and the refusals. *)

From Stdlib Require Import ZArith QArith Lqa Lia.
From S2P Require Import Prelude Post PyFloat FloatError PyFormat Domain.

Open Scope Z_scope.

(** [x ** 2] on floats: the only exception is an [OverflowError], when a finite
    square is too large. *)
Class Square := {
  m_square : float → res float;
  m_square_raises : ∀ x e, m_square x = Raise e → e = OverflowError
}.

(** [math.sqrt(x)]: the integer root of [q * 4^k] with at least 60 bits, and a
    half added when it is not exact, rounds as the true root does. *)
Definition fsqrt (x : float) : res float :=
  match x with
  | Fin q =>
      if Qneg q then Raise (ValueError "math domain error")
      else if Qeq_bool q 0 then Ok (Fin 0)
      else
        let k := Z.max 0 (60 - ilog2 q / 2) in
        let scaled := (q * inject_Z (4 ^ k))%Q in
        let n := Z.sqrt (Qround.Qfloor scaled) in
        let root := if Qeq_bool (inject_Z (n * n)) scaled then inject_Z n else (inject_Z n + (1 # 2))%Q in
        Ok (fl (root / inject_Z (2 ^ k)))
  | Inf false => Ok (Inf false)
  | Inf true => Raise (ValueError "math domain error")
  | NaN => Ok NaN
  end.

Example fsqrt_two : (λ r, (feqb r (lit 1.4142135623730951), str_float r)) <$> fsqrt (lit 2) = Ok (true, "1.4142135623730951").
Proof. vm_compute. reflexivity. Qed.

(** [int(x)] *)
Definition f_trunc (x : float) : res Z :=
  match x with
  | Fin q => Ok (Z.quot (Qnum q) (Zpos (Qden q)))
  | Inf _ => Raise OverflowError
  | NaN => Raise (ValueError "cannot convert float NaN to integer")
  end.

(** ** Data *)

Record RegressionRow := {
  row_observed_at : datetime;
  row_target : float;
  row_features : dict string float;
  row_source_ids : list string;
  row_snapshot_ids : list string;
  row_normalization_method : string;
  row_quality_flags : list string;
  row_review_state : string
}.

Definition count_between (a b : nat) {A} (l : list A) : bool := (a <=? length l)%nat && (length l <=? b)%nat.

(** The constraints and the validators of a row. *)
Definition RegressionRow_valid (r : RegressionRow) : bool :=
  dt_aware (row_observed_at r) && isfinite (row_target r) && count_between 2 64 (row_features r)
  && forallb (λ kv, isfinite kv.2) (row_features r) && count_between 1 32 (row_source_ids r)
  && count_between 1 32 (row_snapshot_ids r) && (2 <=? str_len (row_normalization_method r))
  && (str_len (row_normalization_method r) <=? 128) && count_between 0 32 (row_quality_flags r)
  && mem_str (row_review_state r) ["unreviewed"; "analyst_reviewed"; "approved_for_pilot"].

Record RegressionRequest := {
  rg_dataset_id : string;
  rg_target_name : string;
  rg_rows : list RegressionRow;
  rg_ridge_alpha : float;
  rg_test_fraction : float;
  rg_label_definition : string;
  rg_dataset_licence : string
}.

Definition RegressionRequest_valid (r : RegressionRequest) : bool :=
  (2 <=? str_len (rg_dataset_id r)) && (str_len (rg_dataset_id r) <=? 128)
  && (2 <=? str_len (rg_target_name r)) && (str_len (rg_target_name r) <=? 128)
  && count_between 8 10000 (rg_rows r) && forallb RegressionRow_valid (rg_rows r)
  && (f0 <=? rg_ridge_alpha r)%F && (rg_ridge_alpha r <=? lit 1000000)%F
  && (rg_test_fraction r >? f0)%F && (rg_test_fraction r <? lit 0.5)%F
  && (8 <=? str_len (rg_label_definition r)) && (str_len (rg_label_definition r) <=? 512)
  && (8 <=? str_len (rg_dataset_licence r)).

Record RegressionCoefficient := {
  co_feature : string;
  co_coefficient : float;
  co_standardized_effect : float;
  co_train_mean : float;
  co_train_stddev : float
}.

Record RegressionResult := {
  rs_dataset_id : string;
  rs_target_name : string;
  rs_row_count : nat;
  rs_feature_count : nat;
  rs_train_row_count : nat;
  rs_test_row_count : nat;
  rs_train_start : datetime;
  rs_train_end : datetime;
  rs_test_start : datetime;
  rs_test_end : datetime;
  rs_ridge_alpha : float;
  rs_coefficients : list RegressionCoefficient;
  rs_intercept : float;
  rs_test_rmse : float;
  rs_test_mae : float;
  rs_test_r2 : option float;
  rs_source_ids : list string;
  rs_snapshot_ids : list string;
  rs_normalization_methods : list string;
  rs_quality_flags : list string;
  rs_review_states : list string;
  rs_limitations : list string
}.

(** ** Linear algebra on lists of rows *)

(** [[list(column) for column in zip( *matrix)]]: [zip] stops at the shortest row. *)
Definition transpose (matrix : list (list float)) : list (list float) :=
  match matrix with
  | [] => []
  | row :: rows =>
      let width := foldl (λ w r, Nat.min w (length r)) (length row) rows in
      (λ i, omap (λ r, r !! i) matrix) <$> seq 0 width
  end.

(** [sum(f(k) for k in range(n))] *)
Definition sum_range (n : nat) (f : nat → res float) : res float :=
  l ← mapM_res f (seq 0 n); Ok (fsum l).

Definition matmul (left right : list (list float)) : res (list (list float)) :=
  mapM_res (λ left_row,
    width ← index right 0;
    mapM_res (λ column,
      sum_range (length right) (λ k,
        a ← index left_row k; row ← index right k; b ← index row column; Ok (a * b)%F))
      (seq 0 (length width))) left.

(** [max(range(column, size), key=lambda row: abs(augmented[row][column]))]: the
    first row with the largest entry. *)
Definition pivot_step (augmented : list (list float)) (column : nat) (best : nat * float) (row : nat)
    : res (nat * float) :=
  r ← index augmented row; v ← index r column;
  Ok (if (best.2 <? fabs v)%F then (row, fabs v) else best).

Definition find_pivot (augmented : list (list float)) (column size : nat) : res nat :=
  r ← index augmented column; v ← index r column;
  best ← foldM (pivot_step augmented column) (column, fabs v) (seq (S column) (size - S column));
  Ok (fst best).

(** [augmented[i], augmented[j] = augmented[j], augmented[i]] *)
Definition swap_rows (augmented : list (list float)) (i j : nat) : res (list (list float)) :=
  a ← index augmented i; b ← index augmented j; Ok (<[j := a]> (<[i := b]> augmented)).

Definition eliminate_row (column : nat) (pivot_row : list float) (augmented : list (list float)) (row : nat)
    : res (list (list float)) :=
  if Nat.eqb row column then Ok augmented
  else
    r ← index augmented row;
    factor ← index r column;
    Ok (<[row := zip_with (λ current pivot_value, (current - factor * pivot_value)%F) r pivot_row]> augmented).

Definition solve_column (size : nat) (augmented : list (list float)) (column : nat) : res (list (list float)) :=
  pivot ← find_pivot augmented column size;
  r ← index augmented pivot; v ← index r column;
  _ ← raise_if (fabs v <? lit 1e-12)%F (ValueError "regression design matrix is singular; increase ridge_alpha");
  augmented ← swap_rows augmented column pivot;
  r ← index augmented column; divisor ← index r column;
  normal ← mapM_res (λ value, fdiv value divisor) r;
  foldM (eliminate_row column normal) (<[column := normal]> augmented) (seq 0 size).

Definition solve (matrix : list (list float)) (vector : list float) : res (list float) :=
  let augmented := zip_with (λ row value, row ++ [value]) matrix vector in
  let size := length augmented in
  augmented ← foldM (solve_column size) augmented (seq 0 size);
  mapM_res (λ row, r ← index augmented row; match last r with Some v => Ok v | None => Raise IndexError end) (seq 0 size).

Example solve_two :
  fmap (M := res) (λ l : list float, str_float <$> l) (solve [[lit 0; lit 2]; [lit 4; lit 2]] [lit 6; lit 10]) = Ok ["1.0"; "3.0"].
Proof. vm_compute. reflexivity. Qed.

(** ** The regression *)

Section regression.
Context `{Square}.

Definition row_leb (a b : RegressionRow) : bool := dt_us (row_observed_at a) <=? dt_us (row_observed_at b).

Definition feature (r : RegressionRow) (name : string) : res float :=
  match dget (row_features r) name with Some v => Ok v | None => Raise (KeyError name) end.

(** [sum(f(row) for row in rows) / n] *)
Definition mean_of (f : RegressionRow → res float) (rows : list RegressionRow) (n : nat) : res float :=
  l ← mapM_res f rows; fdiv (fsum l) (f_of_Z (Z.of_nat n)).

Definition stddev (train : list RegressionRow) (name_mean : string * float) : res float :=
  variance ← mean_of (λ row, v ← feature row name_mean.1; m_square (v - name_mean.2)%F) train
               (Nat.max 1 (length train - 1));
  s ← fsqrt variance;
  Ok (if feqb s f0 then lit 1 else s).

(** One column of the design: the name, its mean and its deviation. *)
Definition scaled (row : RegressionRow) (column : string * float * float) : res float :=
  let '(name, mean, stddev) := column in
  v ← feature row name; fdiv (v - mean)%F stddev.

Definition design (columns : list (string * float * float)) (rows : list RegressionRow) : res (list (list float)) :=
  mapM_res (λ row, l ← mapM_res (scaled row) columns; Ok (lit 1 :: l)) rows.

(** [gram[index][index] += ridge_alpha] for the features. *)
Definition add_ridge (alpha : float) (gram : list (list float)) (i : nat) : res (list (list float)) :=
  row ← index gram i; v ← index row i; Ok (<[i := <[i := (v + alpha)%F]> row]> gram).

Definition rhs_of (x_train : list (list float)) (y_train : list float) (size : nat) : res (list float) :=
  mapM_res (λ column,
    sum_range (length x_train) (λ row,
      r ← index x_train row; a ← index r column; b ← index y_train row; Ok (a * b)%F)) (seq 0 size).

Definition predict (weights row : list float) : float := fsum (zip_with fmul row weights).

(** The index of the first test row. *)
Definition split_of (n features : nat) (test_fraction : float) : res Z :=
  k ← f_trunc (f_of_Z (Z.of_nat n) * (f1 - test_fraction))%F;
  Ok (Z.min (Z.max k (Z.of_nat features + 2)) (Z.of_nat n - 2)).

Definition features_of (row : RegressionRow) : list string := sort_by str_leb (dkeys (row_features row)).

(** The checks before the split. *)
Definition check_rows (ordered : list RegressionRow) : res (list string) :=
  first ← index ordered 0;
  let names := features_of first in
  _ ← raise_if (length names <? 2)%nat (ValueError "at least two indicators are required for multivariate regression");
  _ ← raise_if (existsb (λ row, negb (bool_decide (features_of row = names))) ordered)
        (ValueError "every row must contain exactly the same feature names");
  _ ← raise_if (length ordered <? Nat.max 8 (length names + 4))%nat
        (ValueError "insufficient rows for the requested feature count");
  Ok names.

Record scores := { sc_rmse : float; sc_mae : float; sc_r2 : option float }.

(** Errors on the test rows. *)
Definition test_scores (predictions : list float) (test : list RegressionRow) : res scores :=
  let residuals := zip_with (λ prediction row, (prediction - row_target row)%F) predictions test in
  let n := f_of_Z (Z.of_nat (length residuals)) in
  mae ← fdiv (fsum (fabs <$> residuals)) n;
  mse ← fdiv (fsum ((λ v, (v * v)%F) <$> residuals)) n;
  rmse ← fsqrt mse;
  target_mean ← mean_of (λ row, Ok (row_target row)) test (length test);
  squares ← mapM_res (λ row, m_square (row_target row - target_mean)%F) test;
  let total := fsum squares in
  r2 ← (if (total <=? lit 1e-12)%F then Ok None
        else q ← fdiv (fsum ((λ v, (v * v)%F) <$> residuals)) total; Ok (Some (f1 - q)%F));
  Ok {| sc_rmse := rmse; sc_mae := mae; sc_r2 := r2 |}.

Definition sorted_set (l : list string) : list string := sort_by str_leb (set_of l).

Definition limitations (request : RegressionRequest) : list string :=
  ["Associational model; coefficients are not causal effects or intelligence judgments.";
   "Temporal holdout is used, but this is not a validated operational forecast.";
   "Results depend on source quality, coverage, normalization, confounding, and selection bias.";
   "Human review and domain-specific validation are required before any consequential use.";
   "Label definition: " +:+ rg_label_definition request;
   "Dataset licence: " +:+ rg_dataset_licence request;
   "Rows marked unreviewed or carrying quality flags must not be treated as validated labels or operational truth."].

Definition coefficient_of (weights : list float) (c : nat * (string * float * float)) : res RegressionCoefficient :=
  let '(i, (name, mean, stddev)) := c in
  weight ← index weights (S i);
  q ← fdiv weight stddev;
  Ok {| co_feature := name; co_coefficient := q; co_standardized_effect := weight; co_train_mean := mean;
        co_train_stddev := stddev |}.

(** [l[0].observed_at] and [l[-1].observed_at] *)
Definition first_time (l : list RegressionRow) : res datetime := r ← index l 0; Ok (row_observed_at r).
Definition last_time (l : list RegressionRow) : res datetime :=
  match last l with Some r => Ok (row_observed_at r) | None => Raise IndexError end.

(** The weights of the ridge regression on the training rows. *)
Definition fit (alpha : float) (x_train : list (list float)) (y_train : list float) : res (list float) :=
  gram ← matmul (transpose x_train) x_train;
  gram ← foldM (add_ridge alpha) gram (seq 1 (length gram - 1));
  rhs ← rhs_of x_train y_train (length gram);
  solve gram rhs.

Definition columns_of (names : list string) (train : list RegressionRow) : res (list (string * float * float)) :=
  means ← mapM_res (λ name, mean_of (λ row, feature row name) train (length train)) names;
  stddevs ← mapM_res (stddev train) (zip names means);
  Ok (zip (zip names means) stddevs).

Definition run_regression (request : RegressionRequest) : res RegressionResult :=
  let ordered := sort_by row_leb (rg_rows request) in
  names ← check_rows ordered;
  split ← split_of (length ordered) (length names) (rg_test_fraction request);
  let train := take (Z.to_nat split) ordered in
  let test := drop (Z.to_nat split) ordered in
  columns ← columns_of names train;
  x_train ← design columns train;
  x_test ← design columns test;
  weights ← fit (rg_ridge_alpha request) x_train (row_target <$> train);
  sc ← test_scores (predict weights <$> x_test) test;
  train_start ← first_time train; train_end ← last_time train;
  test_start ← first_time test; test_end ← last_time test;
  coefficients ← mapM_res (coefficient_of weights) (zip (seq 0 (length columns)) columns);
  intercept ← index weights 0;
  Ok {| rs_dataset_id := rg_dataset_id request; rs_target_name := rg_target_name request;
        rs_row_count := length ordered; rs_feature_count := length names;
        rs_train_row_count := length train; rs_test_row_count := length test;
        rs_train_start := train_start; rs_train_end := train_end; rs_test_start := test_start; rs_test_end := test_end;
        rs_ridge_alpha := rg_ridge_alpha request; rs_coefficients := coefficients; rs_intercept := intercept;
        rs_test_rmse := sc_rmse sc; rs_test_mae := sc_mae sc; rs_test_r2 := sc_r2 sc;
        rs_source_ids := sorted_set (ordered ≫= row_source_ids);
        rs_snapshot_ids := sorted_set (ordered ≫= row_snapshot_ids);
        rs_normalization_methods := sorted_set (row_normalization_method <$> ordered);
        rs_quality_flags := sorted_set (ordered ≫= row_quality_flags);
        rs_review_states := sorted_set (row_review_state <$> ordered); rs_limitations := limitations request |}.
End regression.

(** ** The allowed exceptions *)

(** A refusal of the code ([ValueError]) or an overflow of [x ** 2]. *)
Definition refusal (e : exn) : Prop := (∃ msg, e = ValueError msg) ∨ e = OverflowError.

Lemma refusal_value msg : refusal (ValueError msg).
Proof. left. by eexists. Qed.

Lemma refusal_overflow : refusal OverflowError.
Proof. by right. Qed.

#[local] Hint Resolve refusal_value refusal_overflow : core.

Definition nonzero (x : float) : Prop := feqb x f0 = false.
Definition any {A} (_ : A) : Prop := True.

Lemma fdiv_ok x y : nonzero y → ∃ q, fdiv x y = Ok q.
Proof.
  unfold nonzero. rewrite f0_eq. intros Hy. unfold fdiv. destruct y as [b|[]|]; [|by destruct x as [?|[]|]; eexists..].
  destruct (Qeq_bool b 0) eqn:E; [|by destruct x; eexists]. apply Qeq_bool_iff in E. apply feqb_Fin in E. congruence.
Qed.

Lemma fdiv_safe x y : nonzero y → safe refusal (fdiv x y) any.
Proof. intros Hy. by destruct (fdiv_ok x y Hy) as [q ->]. Qed.

Lemma count_nonzero n : (1 <= n)%nat → Z.of_nat n < 2 ^ 53 → nonzero (f_of_Z (Z.of_nat n)).
Proof.
  intros H1 H2. unfold nonzero, f_of_Z. rewrite fl_Z by lia. rewrite f0_eq. apply not_true_is_false.
  rewrite feqb_Fin. intros E. assert (inject_Z 1 <= inject_Z (Z.of_nat n))%Q as H by (rewrite <-Zle_Qle; lia).
  change (inject_Z 1) with 1%Q in H. lra.
Qed.

Lemma fsqrt_safe x : safe refusal (fsqrt x) any.
Proof. unfold fsqrt. destruct x as [q|[]|]; cbn; auto; try done. repeat case_match; cbn; auto; done. Qed.

Lemma f_trunc_safe x : safe refusal (f_trunc x) any.
Proof. destruct x; cbn; auto; done. Qed.

Lemma forall_any {A} (l : list A) : Forall any l.
Proof. by apply Forall_forall. Qed.

#[local] Hint Resolve forall_any : core.

(** ** Shapes *)

Definition shape (n m : nat) (M : list (list float)) : Prop := length M = n ∧ Forall (λ r, length r = m) M.

Lemma shape_row n m M i : shape n m M → (i < n)%nat → safe refusal (index M i) (λ r, length r = m).
Proof. intros [Hn Hm] Hi. apply safe_index; [lia|done]. Qed.

Lemma shape_insert n m M i r : shape n m M → length r = m → shape n m (<[i := r]> M).
Proof. intros [Hn Hm] Hr. split; [by rewrite length_insert|by apply Forall_insert]. Qed.

Lemma index_any {A} (l : list A) i : (i < length l)%nat → safe refusal (index l i) any.
Proof. intros. by apply safe_index. Qed.

Lemma width_of m rows : Forall (λ r : list float, length r = m) rows → foldl (λ w r, Nat.min w (length r)) m rows = m.
Proof. induction 1 as [|r rows Hr H IH]; cbn; [done|]. by rewrite Hr, Nat.min_id. Qed.

Lemma column_length i m M : (i < m)%nat → Forall (λ r : list float, length r = m) M →
  length (omap (λ r : list float, r !! i) M) = length M.
Proof.
  intros Hi. induction 1 as [|r M Hr H IH]; cbn; [done|]. destruct (lookup_lt_is_Some_2 r i) as [x ->]; [lia|].
  cbn. by rewrite IH.
Qed.

Lemma transpose_shape n m M : (1 <= n)%nat → shape n m M → shape m n (transpose M).
Proof.
  intros Hn [Hl Hm]. destruct M as [|r M']; [cbn in Hl; lia|]. unfold transpose.
  pose proof Hm as [Hr HM]%Forall_cons. rewrite Hr, width_of by done. split; [by rewrite length_fmap, length_seq|].
  apply Forall_fmap, Forall_forall. intros i Hi%elem_of_seq. cbn [compose].
  rewrite <-Hl. apply column_length with m; [lia|done].
Qed.

Lemma sum_range_safe n f : (∀ k, (k < n)%nat → safe refusal (f k) any) → safe refusal (sum_range n f) any.
Proof.
  intros H. eapply safe_bind; [apply safe_mapM; intros k Hk%elem_of_seq; apply H; lia|]. by intros ys _.
Qed.

Lemma matmul_safe a b c L R : (1 <= b)%nat → shape a b L → shape b c R →
  safe refusal (matmul L R) (shape a c).
Proof.
  intros Hb [Hla Hlb] HR. unfold matmul. rewrite <-Hla.
  eapply safe_mono; [apply (safe_mapM _ _ (λ r, length r = c))|intros M [H1 H2]; by split].
  intros row Hrow. rewrite Forall_forall in Hlb. specialize (Hlb row Hrow).
  eapply safe_bind; [by apply (shape_row b c R 0)|]. cbv beta. intros w Hw.
  eapply safe_mono; [apply (safe_mapM _ _ any)|]; [|intros ys [H _]; rewrite H, length_seq; exact Hw].
  intros column Hc%elem_of_seq. apply sum_range_safe. intros k Hk. destruct HR as [HRb HRc].
  eapply safe_bind; [apply index_any; cbv beta in *; lia|]. intros x _.
  eapply safe_bind; [apply (shape_row b c); [by split|lia]|]. cbv beta. intros r Hr.
  eapply safe_bind; [apply index_any; cbv beta in *; lia|]. done.
Qed.

Lemma add_ridge_safe n alpha M i : shape n n M → (i < n)%nat → safe refusal (add_ridge alpha M i) (shape n n).
Proof.
  intros HM Hi. eapply safe_bind; [by apply (shape_row n n)|]. cbv beta. intros r Hr.
  eapply safe_bind; [apply index_any; cbv beta in *; lia|]. intros v _. apply shape_insert; [done|by rewrite length_insert].
Qed.

(** ** The solver *)

Lemma find_pivot_safe n m M column : shape n m M → (column < n)%nat → (column < m)%nat →
  safe refusal (find_pivot M column n) (λ p, (p < n)%nat).
Proof.
  intros HM Hn Hm. eapply safe_bind; [by apply (shape_row n m)|]. cbv beta. intros r Hr.
  eapply safe_bind; [apply index_any; cbv beta in *; lia|]. intros v _.
  eapply safe_bind; [apply (safe_foldM _ _ (λ b : nat * float, (b.1 < n)%nat)); [done|]|]; [|by intros [p x] ?].
  intros b row Hrow%elem_of_seq Hb. eapply safe_bind; [apply (shape_row n m); [done|lia]|]. cbv beta. intros r' Hr'.
  eapply safe_bind; [apply index_any; cbv beta in *; lia|]. intros v' _. cbn. cbv beta in Hb. case_match; cbn; lia.
Qed.

Lemma eliminate_safe n m column normal M row : shape n m M → length normal = m → (column < m)%nat → (row < n)%nat →
  safe refusal (eliminate_row column normal M row) (shape n m).
Proof.
  intros HM Hp Hc Hr. unfold eliminate_row. destruct (Nat.eqb row column); [done|].
  eapply safe_bind; [by apply (shape_row n m)|]. cbv beta. intros r Hlr. eapply safe_bind; [apply index_any; cbv beta in *; lia|]. intros v _.
  apply shape_insert; [done|]. rewrite length_zip_with. lia.
Qed.

Lemma pivot_nonzero v : (fabs v <? lit 1e-12)%F = false → nonzero v.
Proof.
  intros H. unfold nonzero. destruct (feqb v f0) eqn:E; [|done]. exfalso. destruct v as [q|[]|]; [|by rewrite f0_eq in E..].
  rewrite f0_eq in E. apply feqb_Fin in E. change (fabs (Fin q)) with (Fin (Qabs.Qabs q)) in H.
  assert (fltb (Fin (Qabs.Qabs q)) (lit 1e-12) = true); [|congruence].
  destruct (lit 1e-12) as [t|s|] eqn:El; [|vm_compute in El; discriminate El..].
  apply fltb_Fin. assert (0 < t)%Q as Ht by (vm_compute in El; injection El as <-; reflexivity).
  rewrite E. exact Ht.
Qed.

Lemma solve_column_safe n m M column : shape n m M → (column < n)%nat → (column < m)%nat →
  safe refusal (solve_column n M column) (shape n m).
Proof.
  intros HM Hn Hm. eapply safe_bind; [by apply (find_pivot_safe n m)|]. intros p Hp.
  eapply safe_bind_eq; [by apply (shape_row n m)|]. cbv beta. intros r Er Hr.
  eapply safe_bind_eq; [apply index_any; cbv beta in *; lia|]. intros v Ev _.
  eapply safe_bind; [by apply safe_raise_if|]. cbv beta. intros _ Hv.
  eapply safe_bind_eq; [eapply safe_bind_eq; [by apply (shape_row n m)|]; intros a Ea Ha;
    eapply (safe_bind_eq _ _ _ _ (shape n m)); [by apply (shape_row n m)|]; intros b Eb Hb;
    apply shape_insert; [by apply shape_insert|exact Ha]|].
  intros M' EM' HM'. eapply safe_bind_eq; [by apply (shape_row n m)|]. cbv beta. intros r' Er' Hr'.
  eapply safe_bind_eq; [apply index_any; cbv beta in *; lia|]. intros divisor Ed _.
  assert (divisor = v) as ->.
  { unfold swap_rows in EM'. inv_ok. apply index_ok in Er, Er', Ev, Ed. rewrite index_ok in *.
    destruct (decide (column = p)) as [->|Hne].
    - rewrite list_lookup_insert_eq in Er' by (rewrite length_insert; destruct HM; lia). congruence.
    - rewrite list_lookup_insert_ne, list_lookup_insert_eq in Er' by (done || destruct HM; lia). congruence. }
  eapply safe_bind; [apply (safe_mapM _ _ any); intros x _; by apply fdiv_safe, pivot_nonzero|]. intros normal [Hl _].
  apply safe_foldM; [apply shape_insert; [done|lia]|]. intros M2 row Hrow%elem_of_seq HM2.
  apply eliminate_safe; [done|lia|done|lia].
Qed.

Lemma solve_safe n matrix vector : shape n n matrix → length vector = n →
  safe refusal (solve matrix vector) (λ w, length w = n).
Proof.
  intros [Hn Hm] Hv. unfold solve. set (aug := zip_with _ _ _).
  assert (shape n (S n) aug) as Haug.
  { unfold aug. split; [rewrite length_zip_with; lia|]. clear -Hm. revert vector.
    induction Hm as [|r M Hr H IH]; intros [|v vector]; cbn; constructor; [rewrite length_app; cbn; lia|apply IH]. }
  assert (length aug = n) as -> by apply Haug.
  eapply safe_bind; [apply (safe_foldM _ _ (shape n (S n))); [exact Haug|]|].
  { intros M c Hc%elem_of_seq HM. apply solve_column_safe; [done|lia|lia]. }
  intros M HM. eapply safe_mono; [apply (safe_mapM _ _ any)|intros w [H _]; by rewrite H, length_seq].
  intros row Hrow%elem_of_seq. eapply safe_bind; [apply (shape_row n (S n)); [done|lia]|]. cbv beta. intros r Hr.
  destruct (last r) eqn:El; [done|]. apply last_None in El. subst. done.
Qed.

(** ** The run *)

Section run.
Context `{Square}.

Lemma feature_safe row names name : features_of row = names → name ∈ names → safe refusal (feature row name) any.
Proof using.
  intros <- Hn. unfold features_of in Hn. rewrite elem_of_sort_by in Hn. apply dget_some_key in Hn as [v Hv].
  unfold feature. by rewrite Hv.
Qed.

Lemma mean_of_safe f rows n : (∀ r, r ∈ rows → safe refusal (f r) any) → (1 <= n)%nat → Z.of_nat n < 2 ^ 53 →
  safe refusal (mean_of f rows n) any.
Proof using.
  intros Hf H1 H2. eapply safe_bind; [by apply safe_mapM|]. intros l _. by apply fdiv_safe, count_nonzero.
Qed.

Lemma square_safe x : safe refusal (m_square x) any.
Proof using. unfold safe. destruct (m_square x) as [|e] eqn:E; [done|]. apply m_square_raises in E as ->. auto. Qed.

(** The rows of the request share the features [names]. *)
Definition common (names : list string) (rows : list RegressionRow) : Prop :=
  ∀ r, r ∈ rows → features_of r = names.

Lemma stddev_safe names train name mean :
  common names train → name ∈ names → (1 <= length train)%nat → Z.of_nat (length train) < 2 ^ 53 →
  safe refusal (stddev train (name, mean)) nonzero.
Proof using.
  intros Hc Hn Hl1 Hl2. eapply safe_bind.
  - apply mean_of_safe; [|lia|lia]. intros r Hr. eapply safe_bind; [by eapply feature_safe; [apply Hc|]|].
    intros v _. apply square_safe.
  - intros v _. eapply safe_bind; [apply fsqrt_safe|]. intros s _. unfold nonzero. cbn. by destruct (feqb s f0) eqn:E.
Qed.

(** The columns of a design: known features with a nonzero deviation. *)
Definition columns_ok (names : list string) (columns : list (string * float * float)) : Prop :=
  length columns = length names ∧ Forall (λ c, c.1.1 ∈ names ∧ nonzero c.2) columns.

Lemma columns_safe names train :
  common names train → (1 <= length train)%nat → Z.of_nat (length train) < 2 ^ 53 →
  safe refusal (columns_of names train) (columns_ok names).
Proof using.
  intros Hc Hl1 Hl2. eapply safe_bind; [apply (safe_mapM _ _ any)|].
  { intros name Hn. apply mean_of_safe; [|done|done]. intros r Hr. by eapply feature_safe; [apply Hc|]. }
  intros means [Hm _]. eapply safe_bind; [apply (safe_mapM _ _ nonzero)|].
  { intros [name mean] Hz%elem_of_zip_l. by apply stddev_safe with names. }
  intros stddevs [Hs Hnz]. rewrite length_zip in Hs. split; [rewrite !length_zip; lia|].
  apply Forall_forall. intros [[name mean] sd] Hz. pose proof Hz as Hz1%elem_of_zip_l%elem_of_zip_l.
  apply elem_of_zip_r in Hz. rewrite Forall_forall in Hnz. split; [done|by apply Hnz].
Qed.

Lemma design_safe names columns rows : common names rows → columns_ok names columns →
  safe refusal (design columns rows) (shape (length rows) (S (length names))).
Proof using.
  intros Hc [Hl Hcols]. eapply safe_mono; [apply (safe_mapM _ _ (λ r, length r = S (length names)))|intros M [? ?]; by split].
  intros r Hr. eapply safe_bind; [apply (safe_mapM _ _ any)|].
  - intros [[name mean] sd] Hin. rewrite Forall_forall in Hcols. destruct (Hcols _ Hin) as [Hn Hnz].
    eapply safe_bind; [by eapply feature_safe; [apply Hc|]|]. intros v _. by apply fdiv_safe.
  - intros l [Hll _]. cbn. congruence.
Qed.

Lemma fit_safe alpha x_train y_train n m : (1 <= n)%nat → (1 <= m)%nat → shape n m x_train → length y_train = n →
  safe refusal (fit alpha x_train y_train) (λ w, length w = m).
Proof using.
  intros Hn Hm Hx Hy. unfold fit.
  eapply safe_bind; [apply (matmul_safe m n m); [done|by apply transpose_shape|done]|]. intros gram Hg.
  eapply safe_bind; [apply (safe_foldM _ _ (shape m m)); [done|]|].
  { intros M i Hi%elem_of_seq HM. apply add_ridge_safe; [done|]. destruct Hg as [Hg _]. lia. }
  intros gram' Hg'. assert (length gram' = m) as -> by apply Hg'.
  eapply safe_bind; [apply (safe_mapM _ _ any)|].
  - intros column Hc%elem_of_seq. apply sum_range_safe. intros row Hrow. destruct Hx as [Hx1 Hx2].
    eapply safe_bind; [apply (shape_row n m); [by split|lia]|]. cbv beta. intros r Hr.
    eapply safe_bind; [apply index_any; lia|]. intros a _. eapply safe_bind; [apply index_any; lia|]. done.
  - intros rhs [Hr _]. apply solve_safe; [done|]. by rewrite Hr, length_seq.
Qed.

Lemma scores_safe predictions test : length predictions = length test → (1 <= length test)%nat →
  Z.of_nat (length test) < 2 ^ 53 → safe refusal (test_scores predictions test) any.
Proof using.
  intros Hl H1 H2. unfold test_scores.
  assert (length (zip_with (λ prediction row, (prediction - row_target row)%F) predictions test) = length test) as ->
    by (rewrite length_zip_with; lia).
  pose proof (count_nonzero (length test) H1 H2) as Hn.
  eapply safe_bind; [by apply fdiv_safe|]. intros mae _. eapply safe_bind; [by apply fdiv_safe|]. intros mse _.
  eapply safe_bind; [apply fsqrt_safe|]. intros rmse _. eapply safe_bind; [by apply mean_of_safe|]. intros mean _.
  eapply safe_bind; [apply safe_mapM; intros; apply square_safe|]. intros squares _.
  eapply (safe_bind _ _ _ any); [|done]. destruct (fleb (fsum squares) (lit 1e-12)) eqn:E; [done|].
  eapply safe_bind; [apply fdiv_safe|done]. unfold nonzero. destruct (feqb (fsum squares) f0) eqn:E0; [|done].
  apply feqb_fleb in E0 as [E0 _]. exfalso. rewrite (fleb_trans _ f0 _ E0) in E by (vm_compute; reflexivity). done.
Qed.

Lemma check_rows_safe ordered : ordered ≠ [] →
  safe refusal (check_rows ordered)
    (λ names, (2 <= length names)%nat ∧ common names ordered ∧ (Nat.max 8 (length names + 4) <= length ordered)%nat).
Proof using.
  intros Hne. eapply safe_bind; [apply index_any; destruct ordered; cbn; [done|lia]|]. intros first _. cbv zeta.
  eapply safe_bind; [by apply safe_raise_if|]. cbv beta. intros _ H1%Nat.ltb_ge.
  eapply safe_bind; [by apply safe_raise_if|]. cbv beta. intros _ H2.
  eapply safe_bind; [by apply safe_raise_if|]. cbv beta. intros _ H3%Nat.ltb_ge.
  split; [done|]. split; [|done]. intros r Hr. destruct (decide (features_of r = features_of first)) as [|Hd]; [done|].
  rewrite <-not_true_iff_false in H2. exfalso. apply H2, existsb_exists. exists r.
  split; [by apply list_elem_of_In|]. by rewrite bool_decide_false.
Qed.

(** The split leaves two more training rows than features and two test rows. *)
Lemma split_safe n k fraction : (k + 4 <= n)%nat →
  safe refusal (split_of n k fraction) (λ s, Z.of_nat k + 2 ≤ s ≤ Z.of_nat n - 2).
Proof using. intros Hn. eapply safe_bind; [apply f_trunc_safe|]. intros z _. cbn. lia. Qed.
End run.

(** What a result promises about the rows of its request. *)
Record holdout (request : RegressionRequest) (r : RegressionResult) (train test : list RegressionRow) : Prop := {
  holdout_rows : train ++ test ≡ₚ rg_rows request;
  holdout_order a b : a ∈ train → b ∈ test → dt_us (row_observed_at a) ≤ dt_us (row_observed_at b);
  holdout_train : rs_train_row_count r = length train ∧ (rs_feature_count r + 2 <= length train)%nat;
  holdout_test : rs_test_row_count r = length test ∧ (2 <= length test)%nat;
  holdout_times : row_observed_at <$> head train = Some (rs_train_start r) ∧
    row_observed_at <$> last train = Some (rs_train_end r) ∧
    row_observed_at <$> head test = Some (rs_test_start r) ∧
    row_observed_at <$> last test = Some (rs_test_end r);
  holdout_coefficients : length (rs_coefficients r) = rs_feature_count r
}.

Lemma sorted_app {A} (R : A → A → Prop) l k a b : StronglySorted R (l ++ k) → a ∈ l → b ∈ k → R a b.
Proof.
  induction l as [|x l IH]; cbn; [by intros _ ?%elem_of_nil|]. intros [Hs Hx]%StronglySorted_inv [->|Ha]%elem_of_cons Hb.
  - rewrite Forall_forall in Hx. apply Hx, elem_of_app. by right.
  - by apply IH.
Qed.

Lemma first_time_safe l : (1 <= length l)%nat →
  safe refusal (first_time l) (λ t, row_observed_at <$> head l = Some t).
Proof. destruct l as [|x l]; cbn; [lia|done]. Qed.

Lemma last_time_safe l : (1 <= length l)%nat →
  safe refusal (last_time l) (λ t, row_observed_at <$> last l = Some t).
Proof. intros H. unfold last_time. destruct (last l) eqn:E; [done|]. apply last_None in E. subst. cbn in H. lia. Qed.

Section holdout.
Context `{Square}.

(** The fit on given parts of the rows. *)
Lemma coefficients_safe names columns weights : columns_ok names columns → length weights = S (length names) →
  safe refusal (mapM_res (coefficient_of weights) (zip (seq 0 (length columns)) columns))
    (λ cs, length cs = length names).
Proof using.
  intros [Hl Hc] Hw. eapply safe_mono; [apply (safe_mapM _ _ any)|].
  - intros [i [[name mean] sd]] Hz. pose proof Hz as Hi%elem_of_zip_l%elem_of_seq. apply elem_of_zip_r in Hz.
    rewrite Forall_forall in Hc. destruct (Hc _ Hz) as [_ Hnz].
    eapply safe_bind; [apply index_any; lia|]. intros w _. eapply safe_bind; [by apply fdiv_safe|]. done.
  - intros cs [Hcs _]. rewrite Hcs, length_zip, length_seq. lia.
Qed.

Lemma run_safe request : rg_rows request ≠ [] → Z.of_nat (length (rg_rows request)) < 2 ^ 53 →
  safe refusal (run_regression request) (λ r, ∃ train test, holdout request r train test).
Proof using.
  intros Hne Hlen. unfold run_regression. cbv zeta. set (ordered := sort_by row_leb (rg_rows request)).
  assert (length ordered = length (rg_rows request)) as El by apply sort_by_length.
  assert (ordered ≠ []) as Hne' by (intros E; rewrite E in El; cbn in El; by destruct (rg_rows request)).
  eapply safe_bind; [by apply check_rows_safe|]. cbv beta. intros names (Hn & Hc & Hcount).
  eapply safe_bind; [apply split_safe; lia|]. cbv beta. intros s Hs.
  set (train := take (Z.to_nat s) ordered). set (test := drop (Z.to_nat s) ordered).
  assert (train ++ test = ordered) as Happ by apply take_drop.
  assert (length train = Z.to_nat s) as Ltrain by (unfold train; rewrite length_take; lia).
  assert (length test = length ordered - Z.to_nat s)%nat as Ltest by (unfold test; apply length_drop).
  assert (common names train ∧ common names test) as [Htr Hte].
  { split; intros r Hr; apply Hc; rewrite <-Happ; apply elem_of_app; auto. }
  eapply safe_bind; [apply (columns_safe names); [done|lia|lia]|]. intros columns Hcol.
  eapply safe_bind; [by apply (design_safe names)|]. intros x_train Hx.
  eapply safe_bind; [by apply (design_safe names)|]. intros x_test Hxt.
  eapply safe_bind; [apply (fit_safe _ _ _ (length train) (S (length names))); [lia|lia|done|by rewrite length_fmap]|].
  cbv beta. intros weights Hw.
  eapply safe_bind; [apply scores_safe; [rewrite length_fmap; apply Hxt|lia|lia]|]. intros sc _.
  eapply safe_bind; [apply first_time_safe; lia|]. cbv beta. intros t1 H1.
  eapply safe_bind; [apply last_time_safe; lia|]. cbv beta. intros t2 H2.
  eapply safe_bind; [apply first_time_safe; lia|]. cbv beta. intros t3 H3.
  eapply safe_bind; [apply last_time_safe; lia|]. cbv beta. intros t4 H4.
  eapply safe_bind; [by apply (coefficients_safe names)|]. cbv beta. intros cs Hcs.
  eapply safe_bind; [apply index_any; lia|]. intros intercept _. exists train, test. split; cbn.
  - rewrite Happ. apply sort_by_perm.
  - intros a b Ha Hb. apply (sorted_app (λ x y, dt_us (row_observed_at x) ≤ dt_us (row_observed_at y)) train test); [|done|done].
    rewrite Happ. apply sort_by_rel; unfold row_leb; cbv beta; intros; bool_norm; lia.
  - split; [done|]. lia.
  - split; [done|]. lia.
  - done.
  - done.
Qed.
End holdout.

(** The regression never looks ahead and never breaks: for every valid
    request it returns a result or raises, and it raises nothing but a
    [ValueError] of its own checks (or of a degenerate computation) or an
    [OverflowError] of [x ** 2].  A result splits the rows into a training and a
    test part, no test row being older than a training row, with at least two
    more training rows than features and at least two test rows; the reported
    counts and times are those of the parts. *)
Theorem regression_holdout (S : Square) request :
  RegressionRequest_valid request = true →
  match run_regression request with
  | Ok r => ∃ train test, holdout request r train test
  | Raise e => (∃ msg, e = ValueError msg) ∨ e = OverflowError
  end.
Proof.
  intros Hv. unfold RegressionRequest_valid, count_between in Hv. bool_norm.
  repeat match goal with H : (_ <=? _)%nat = true |- _ => apply Nat.leb_le in H end.
  apply (run_safe request).
  - intros E. match goal with H : (8 <= length (rg_rows _))%nat |- _ => rewrite E in H; cbn in H; clear -H; lia end.
  - match goal with H : (length (rg_rows _) <= _)%nat |- _ => apply Nat2Z.inj_le in H; eapply Z.le_lt_trans; [exact H|] end.
    vm_compute. reflexivity.
Qed.

(** ** Concrete inputs *)

Definition example_square (x : float) : res float :=
  match x, (x * x)%F with Fin _, Inf _ => Raise OverflowError | _, y => Ok y end.

Lemma example_square_raises x e : example_square x = Raise e → e = OverflowError.
Proof. unfold example_square. repeat case_match; intros [= <-]; done. Qed.

#[local] Instance example_Square : Square := {| m_square := example_square; m_square_raises := example_square_raises |}.

Definition example_row (t : Z) (y a b : Q) : RegressionRow :=
  {| row_observed_at := {| dt_us := t; dt_aware := true |}; row_target := lit y;
     row_features := [("wind", lit a); ("ice", lit b)]; row_source_ids := ["s"]; row_snapshot_ids := ["n"];
     row_normalization_method := "native"; row_quality_flags := []; row_review_state := "unreviewed" |}.

Definition example_regression (scale : Q) : RegressionRequest :=
  {| rg_dataset_id := "ds"; rg_target_name := "delay";
     rg_rows := [example_row 9 21 4 9; example_row 1 1 0 0; example_row 2 3 1 0; example_row 3 (3 * scale) 0 scale;
                 example_row 4 6 1 1; example_row 5 8 2 1; example_row 6 9 1 2; example_row 7 11 2 2;
                 example_row 8 14 2 3; example_row 10 19 3 4];
     rg_ridge_alpha := lit 0.1; rg_test_fraction := lit 0.2; rg_label_definition := "delay in days";
     rg_dataset_licence := "internal" |}.

Lemma regression_holdout_witness :
  RegressionRequest_valid (example_regression 1) = true ∧
  ∃ r, run_regression (example_regression 1) = Ok r ∧ ∃ train test, holdout (example_regression 1) r train test.
Proof.
  split; [vm_compute; reflexivity|].
  pose proof (regression_holdout example_Square (example_regression 1) ltac:(vm_compute; reflexivity)) as H.
  destruct (run_regression (example_regression 1)) as [r|e] eqn:E; [exists r; split; [reflexivity|exact H]|].
  exfalso. vm_compute in E. discriminate E.
Defined.

(** A finite feature of 1e200 makes the run raise [OverflowError]. *)
Example overflow_is_possible :
  RegressionRequest_valid (example_regression (10 ^ 200)) = true ∧
  run_regression (example_regression (10 ^ 200)) = Raise OverflowError.
Proof. split; vm_compute; reflexivity. Qed.
