(* ===== verification/Threat.v ===== *)
(** * threat.py: detectors of electronic warfare, control-system and vessel anomalies

    Each detector adds indicators, computes a score and grades it; the scan runs the
    three and grades the worst score.  Trigonometry ([Trig]) and [x ** 2] ([Square])
    are operations of the platform. *)

From Stdlib Require Import ZArith QArith Lqa.
From S2P Require Import Prelude Post PyFloat FloatError PyFormat Domain Analysis.

Open Scope Z_scope.

(** ** Severity *)

Record ThreatSeverity := {
  tv_level : string;
  tv_score : float;
  tv_confidence : float;
  tv_indicators : list string;
  tv_remediation_recommendation : string
}.

Definition new_ThreatSeverity (t : ThreatSeverity) : res ThreatSeverity :=
  _ ← require (is_score (tv_score t)) "score";
  _ ← require (is_score (tv_confidence t)) "confidence";
  Ok t.

(** [f"{x:+.2f}"] *)
Definition fmt_signed (n : nat) (x : float) : string := (if (x <? f0)%F then "" else "+") +:+ fmt_fixed n x.

(** [[text] if test else []] *)
Definition indicator (test : bool) (text : string) : list string := if test then [text] else [].

(** [sum(l) / len(l)] *)
Definition average (l : list float) : res float := fdiv (fsum l) (f_of_Z (Z.of_nat (length l))).

(** ** Satellite navigation *)

Record GNSSAnomalyReport := {
  gr_is_spoofed : bool;
  gr_is_jammed : bool;
  gr_pseudorange_variance : float;
  gr_cno_drop_db : float;
  gr_clock_drift_ppm : float;
  gr_threat : ThreatSeverity
}.

Section gnss.
Context `{Square}.

Definition variance_of (residuals : list float) : res float :=
  match residuals with
  | [] => Ok f0
  | _ => squares ← mapM_res (λ x, mean ← average residuals; m_square (x - mean)%F) residuals; average squares
  end.

Definition gnss_score (cno_drop variance clock_drift_ppm : float) : res float :=
  a ← fdiv cno_drop (lit 25);
  b ← fdiv (fmin (lit 50) variance) (lit 50);
  c ← fdiv (fmin (lit 10) (fabs clock_drift_ppm)) (lit 10);
  Ok (fmin f1 (a * lit 0.4 + b * lit 0.4 + c * lit 0.2)%F).

Definition gnss_level (score : float) : string :=
  if (score >=? lit 0.8)%F then "CRITICAL"
  else if (score >=? lit 0.5)%F then "HIGH"
  else if (score >=? lit 0.25)%F then "MEDIUM"
  else if (score >? f0)%F then "LOW"
  else "NOMINAL".

Definition gnss_analyze (pseudorange_residuals_m carrier_to_noise_ratios_db : list float)
    (clock_drift_ppm geometric_dop : float) : res GNSSAnomalyReport :=
  avg_cno ← match carrier_to_noise_ratios_db with [] => Ok (lit 40) | l => average l end;
  let cno_drop := fmax f0 (lit 42 - avg_cno)%F in
  let jammed := (cno_drop >? lit 15)%F in
  variance ← variance_of pseudorange_residuals_m;
  let varied := (variance >? lit 25)%F in
  let drifted := (fabs clock_drift_ppm >? lit 5)%F in
  let spoofed := varied || drifted in
  let indicators :=
    indicator jammed ("Severe broadband RF power attenuation detected: C/N0 drop of " +:+ fmt_fixed 1 cno_drop +:+ " dB")
    ++ indicator varied ("Pseudorange residual variance elevated (" +:+ fmt_fixed 1 variance
         +:+ " m^2) indicating synthetic constellation injection")
    ++ indicator drifted ("Receiver clock drift rate jump (" +:+ fmt_signed 2 clock_drift_ppm
         +:+ " ppm) exceeds quartz oscillator physics")
    ++ indicator (geometric_dop >? lit 6)%F
         ("Geometric Dilution of Precision (GDOP=" +:+ fmt_fixed 1 geometric_dop +:+ ") abnormally degraded") in
  threat_score ← gnss_score cno_drop variance clock_drift_ppm;
  threat ← new_ThreatSeverity
    {| tv_level := gnss_level threat_score; tv_score := fround 3 threat_score; tv_confidence := lit 0.92;
       tv_indicators := indicators;
       tv_remediation_recommendation :=
         if spoofed || jammed then
           "Transition navigation to secondary Inertial Navigation System (INS) + Celestial backup"
         else "" |};
  Ok {| gr_is_spoofed := spoofed; gr_is_jammed := jammed; gr_pseudorange_variance := fround 2 variance;
        gr_cno_drop_db := fround 2 cno_drop; gr_clock_drift_ppm := fround 2 clock_drift_ppm; gr_threat := threat |}.
End gnss.

(** ** Control systems of a port *)

Record PortSCADAAnomalyReport := {
  sr_ransomware_signature_detected : bool;
  sr_unauthorized_plc_reprogramming : bool;
  sr_command_burst_frequency : float;
  sr_threat : ThreatSeverity
}.

Definition tampered (expected : string) (plc : string * string) : bool :=
  negb (str_eqb (str_lower plc.2) (str_lower expected)).

Definition flag (b : bool) : float := if b then f1 else f0.

(** An integer as a float. *)
Definition float_of_int (z : Z) : res float :=
  let x := f_of_Z z in if isfinite x then Ok x else Raise OverflowError.

Definition scada_score (tamper ransomware : bool) (untrusted : Z) : res float :=
  n ← float_of_int (Z.min 5 untrusted);
  c ← fdiv n (lit 5);
  Ok (fmin f1 (flag tamper * lit 0.5 + flag ransomware * lit 0.3 + c * lit 0.2)%F).

Definition scada_level (score : float) : string :=
  if (score >=? lit 0.7)%F then "CRITICAL" else if (score >=? lit 0.4)%F then "HIGH" else "NOMINAL".

Definition scada_analyze (commands_per_second : float) (unauthorized_function_codes : list Z) (untrusted_ip_connections : Z)
    (plc_firmware_hashes : dict string string) (expected_firmware_hash : string) : res PortSCADAAnomalyReport :=
  let ransomware := (commands_per_second >? lit 100)%F in
  let firmware_tamper := existsb (tampered expected_firmware_hash) plc_firmware_hashes in
  let indicators :=
    indicator ransomware ("Modbus/DNP3 command rate spike (" +:+ fmt_fixed 1 commands_per_second
       +:+ " cmd/s) indicates denial-of-control flood")
    ++ indicator (negb (bool_decide (unauthorized_function_codes = [])))
         ("Unauthorized Modbus function codes intercepted: [" +:+ str_join ", " (str_Z <$> unauthorized_function_codes) +:+ "]")
    ++ indicator (0 <? untrusted_ip_connections)
         (str_Z untrusted_ip_connections +:+ " unauthorized connection attempts to OT safety subnet")
    ++ ((λ plc : string * string, "PLC " +:+ plc.1 +:+ " firmware hash mismatch: " +:+ String.substring 0 12 plc.2
          +:+ "... != expected " +:+ String.substring 0 12 expected_firmware_hash +:+ "...")
         <$> List.filter (tampered expected_firmware_hash) plc_firmware_hashes) in
  threat_score ← scada_score firmware_tamper ransomware untrusted_ip_connections;
  threat ← new_ThreatSeverity
    {| tv_level := scada_level threat_score; tv_score := fround 3 threat_score; tv_confidence := lit 0.95;
       tv_indicators := indicators;
       tv_remediation_recommendation :=
         if (threat_score >=? lit 0.4)%F then
           "Isolate OT control network via air-gap diode; switch crane berths to manual override"
         else "" |};
  Ok {| sr_ransomware_signature_detected := ransomware; sr_unauthorized_plc_reprogramming := firmware_tamper;
        sr_command_burst_frequency := commands_per_second; sr_threat := threat |}.

(** ** Vessel positions *)

(** [math.radians], [math.sin], [math.cos] and [math.atan2]; the sine and cosine of
    an infinity raise. *)
Class Trig := {
  t_radians : float → float;
  t_sin : float → res float;
  t_cos : float → res float;
  t_atan2 : float → float → float
}.

Record AISSpoofingReport := {
  ar_is_kinematically_impossible : bool;
  ar_speed_over_ground_knots : float;
  ar_distance_jump_km : float;
  ar_mmsi_clone_detected : bool;
  ar_threat : ThreatSeverity
}.

Section ais.
Context `{Trig, Square}.

(** The haversine distance in km, also of counter_intel.py. *)
Definition haversine_km (lat1 lon1 lat2 lon2 : float) : res float :=
  let phi1 := t_radians lat1 in
  let phi2 := t_radians lat2 in
  let dphi := t_radians (lat2 - lat1)%F in
  let dlambda := t_radians (lon2 - lon1)%F in
  half_phi ← fdiv dphi (lit 2);
  s1 ← t_sin half_phi;
  q1 ← m_square s1;
  c1 ← t_cos phi1;
  c2 ← t_cos phi2;
  half_lambda ← fdiv dlambda (lit 2);
  s2 ← t_sin half_lambda;
  q2 ← m_square s2;
  let a := (q1 + c1 * c2 * q2)%F in
  r1 ← fsqrt a;
  r2 ← fsqrt (f1 - a)%F;
  Ok (lit 6371 * (lit 2 * t_atan2 r1 r2))%F.

Definition ais_analyze (previous_lat previous_lon current_lat current_lon elapsed_seconds : float) (vessel_type : string)
    : res AISSpoofingReport :=
  distance_km ← haversine_km previous_lat previous_lon current_lat current_lon;
  hours ← fdiv (fmax f1 elapsed_seconds) (lit 3600);
  calc_speed_knots ← fdiv (distance_km * lit 0.539957)%F hours;
  let fast := (calc_speed_knots >? lit 45)%F && str_eqb vessel_type "cargo" in
  let jumped := (distance_km >? lit 50)%F && (elapsed_seconds <? lit 120)%F in
  let impossible := fast || jumped in
  let indicators :=
    indicator fast ("Calculated speed (" +:+ fmt_fixed 1 calc_speed_knots +:+ " kts) exceeds cargo hull physics (max 25 kts)")
    ++ indicator jumped ("Coordinate teleportation jump of " +:+ fmt_fixed 1 distance_km +:+ " km in "
         +:+ fmt_fixed 0 elapsed_seconds +:+ "s") in
  let threat_score := if impossible then lit 0.95 else lit 0.05 in
  threat ← new_ThreatSeverity
    {| tv_level := if impossible then "CRITICAL" else "NOMINAL"; tv_score := fround 3 threat_score;
       tv_confidence := lit 0.98; tv_indicators := indicators;
       tv_remediation_recommendation :=
         if impossible then "Cross-reference vessel location with SAR synthetic aperture radar imagery" else "" |};
  Ok {| ar_is_kinematically_impossible := impossible; ar_speed_over_ground_knots := fround 1 calc_speed_knots;
        ar_distance_jump_km := fround 2 distance_km; ar_mmsi_clone_detected := impossible; ar_threat := threat |}.
End ais.

(** ** The scan *)

Record UnifiedCyberPhysicalScan := {
  us_scan_id : string;
  us_target_resource_ref : string;
  us_overall_threat_level : string;
  us_max_threat_score : float;
  us_gnss_threat : GNSSAnomalyReport;
  us_scada_threat : PortSCADAAnomalyReport;
  us_ais_threat : AISSpoofingReport;
  us_executive_summary : string
}.

(** [l or default], for a list that may be missing. *)
Definition or_default {A} (l : option (list A)) (default : list A) : list A :=
  match l with None | Some [] => default | Some l => l end.

Definition scan_level (score : float) : string :=
  if (score >=? lit 0.75)%F then "CRITICAL" else if (score >=? lit 0.45)%F then "HIGH" else "NOMINAL".

(** The arguments of [run_full_scan]. *)
Record scan_input := {
  si_gnss_residuals : option (list float);
  si_cno_ratios : option (list float);
  si_clock_drift_ppm : float;
  si_scada_cmd_rate : float;
  si_unauthorized_fc : option (list Z);
  si_untrusted_ips : Z;
  si_plc_hashes : option (dict string string);
  si_expected_plc_hash : string;
  si_ais_coords : option (float * float * float * float * float)
}.

Definition run_full_scan `{Trig, Square} (scan_id resource_ref : string) (i : scan_input) : res UnifiedCyberPhysicalScan :=
  gnss_res ← gnss_analyze (or_default (si_gnss_residuals i) [lit 1.2; lit 1.5; lit 0.8; lit 1.1])
    (or_default (si_cno_ratios i) [lit 41; lit 42.5; lit 39.8]) (si_clock_drift_ppm i) (lit 1.8);
  scada_res ← scada_analyze (si_scada_cmd_rate i) (or_default (si_unauthorized_fc i) []) (si_untrusted_ips i)
    (or_default (si_plc_hashes i) [("plc-01", si_expected_plc_hash i)]) (si_expected_plc_hash i);
  let '(prev_lat, prev_lon, cur_lat, cur_lon, elapsed) :=
    default (lit 70.5, lit 35, lit 70.52, lit 35.1, lit 1800) (si_ais_coords i) in
  ais_res ← ais_analyze prev_lat prev_lon cur_lat cur_lon elapsed "cargo";
  let max_score := fmax (fmax (tv_score (gr_threat gnss_res)) (tv_score (sr_threat scada_res))) (tv_score (ar_threat ais_res)) in
  let level := scan_level max_score in
  Ok {| us_scan_id := scan_id; us_target_resource_ref := resource_ref; us_overall_threat_level := level;
        us_max_threat_score := max_score; us_gnss_threat := gnss_res; us_scada_threat := scada_res; us_ais_threat := ais_res;
        us_executive_summary := str_strip
          ("Threat Scan for " +:+ resource_ref +:+ ": " +:+ level +:+ " (max_score=" +:+ fmt_fixed 2 max_score +:+ "). "
           +:+ (if gr_is_spoofed gnss_res || gr_is_jammed gnss_res then "GNSS EW Spoofing active. " else "")
           +:+ (if sr_ransomware_signature_detected scada_res || sr_unauthorized_plc_reprogramming scada_res
                then "Port OT integrity compromised. " else "")
           +:+ (if ar_is_kinematically_impossible ais_res then "AIS kinematic anomaly detected. " else "")) |}.

(** ** Control systems: the grade by its causes *)

(** The score only depends on the firmware, the command rate and up to five
    untrusted connections; with [n] of those the grade is this. *)
Definition scada_grade (tamper ransomware : bool) (n : Z) : string :=
  if tamper && (ransomware || (5 <=? n)) then "CRITICAL"
  else if tamper || ransomware && (3 <=? n) then "HIGH"
  else "NOMINAL".

Lemma scada_score_grade tamper ransomware n : 0 <= n →
  ∃ score, scada_score tamper ransomware n = Ok score ∧ is_score (fround 3 score) = true ∧
    scada_level score = scada_grade tamper ransomware n ∧
    (score >=? lit 0.4)%F = negb (str_eqb (scada_grade tamper ransomware n) "NOMINAL") ∧
    (tamper = true → (fround 3 score >=? lit 0.45)%F = true).
Proof.
  intros Hn. assert (∀ m, (0 <= m <= 5) → scada_grade tamper ransomware n = scada_grade tamper ransomware m →
    ∃ score, (x ← float_of_int m; c ← fdiv x (lit 5);
      Ok (fmin f1 (flag tamper * lit 0.5 + flag ransomware * lit 0.3 + c * lit 0.2)%F)) = Ok score ∧
    is_score (fround 3 score) = true ∧ scada_level score = scada_grade tamper ransomware n ∧
    (score >=? lit 0.4)%F = negb (str_eqb (scada_grade tamper ransomware n) "NOMINAL") ∧
    (tamper = true → (fround 3 score >=? lit 0.45)%F = true)) as H.
  { intros m Hm ->. assert (m = 0 ∨ m = 1 ∨ m = 2 ∨ m = 3 ∨ m = 4 ∨ m = 5) as Hc by lia.
    destruct tamper, ransomware; destruct Hc as [->|[->|[->|[->|[->| ->]]]]]; eexists;
      (split; [vm_compute; reflexivity|]); vm_compute; done. }
  unfold scada_score. apply H; [lia|]. unfold scada_grade.
  destruct (Z.leb_spec 5 n), (Z.leb_spec 3 n), (Z.leb_spec 5 (Z.min 5 n)), (Z.leb_spec 3 (Z.min 5 n)); try lia; done.
Qed.

(** The control-system detector, for any number of untrusted connections, is
    total; its report flags the command flood and the altered firmware; it is
    CRITICAL exactly for altered firmware with a flood or five connections, HIGH for
    other altered firmware and for a flood with three connections, and NOMINAL
    otherwise: an unauthorised function code never counts, nor does a flood on its
    own.  A remedy is recommended exactly when the grade is not NOMINAL. *)
Theorem scada_exact rate codes untrusted plcs expected : 0 <= untrusted →
  ∃ r, scada_analyze rate codes untrusted plcs expected = Ok r ∧
    (sr_ransomware_signature_detected r = true ↔ (lit 100 <? rate)%F = true) ∧
    (sr_unauthorized_plc_reprogramming r = true ↔ ∃ plc, plc ∈ plcs ∧ str_lower plc.2 ≠ str_lower expected) ∧
    tv_level (sr_threat r) =
      scada_grade (sr_unauthorized_plc_reprogramming r) (sr_ransomware_signature_detected r) untrusted ∧
    (tv_remediation_recommendation (sr_threat r) = "" ↔ tv_level (sr_threat r) = "NOMINAL") ∧
    is_score (tv_score (sr_threat r)) = true.
Proof.
  intros Hn. unfold scada_analyze. set (tamper := existsb _ plcs).
  destruct (scada_score_grade tamper (rate >? lit 100)%F untrusted Hn) as (score & -> & Hs & Hl & Hr & _).
  cbn [mbind res_bind]. unfold new_ThreatSeverity. cbn [tv_score tv_confidence]. rewrite Hs.
  change (is_score (lit 0.95)) with true. cbn [require mbind res_bind]. eexists. split; [reflexivity|].
  cbn [sr_ransomware_signature_detected sr_unauthorized_plc_reprogramming sr_threat tv_level tv_remediation_recommendation tv_score].
  split_and!; [done| |done| |done].
  - unfold tamper. rewrite existsb_exists. split; intros (plc & Hin & Hp); exists plc;
      (split; [by apply list_elem_of_In|]); unfold tampered in *.
    + apply negb_true_iff in Hp. intros E. by rewrite (proj2 (str_eqb_true _ _) E) in Hp.
    + apply negb_true_iff, not_true_is_false. by intros ?%str_eqb_true.
  - rewrite Hr, Hl. destruct (str_eqb (scada_grade _ _ _) "NOMINAL") eqn:E; cbn [negb].
    + apply str_eqb_true in E. by rewrite E.
    + split; [discriminate|]. intros E'. by rewrite (proj2 (str_eqb_true _ _) E') in E.
Qed.

(** ** Arithmetic of non-negative floats *)

Lemma positive_literal y : (f0 <? y)%F = true → isfinite y = true → ∃ q, y = Fin q ∧ (0 < q)%Q.
Proof. destruct y as [q|[]|]; try done. rewrite f0_eq, fltb_Fin. eauto. Qed.

Lemma Qneg_pos q : (0 < q)%Q → Qneg q = false.
Proof. intros H. unfold Qneg. by rewrite (proj2 (Qle_bool_iff 0 q) (Qlt_le_weak _ _ H)). Qed.

Lemma Qeq_bool_pos q : (0 < q)%Q → Qeq_bool q 0 = false.
Proof. intros H. destruct (Qeq_bool q 0) eqn:E; [apply Qeq_bool_iff in E; lra|done]. Qed.

Lemma div_nonneg x y : (f0 <=? x)%F = true → (f0 <? y)%F = true → isfinite y = true →
  ∃ z, fdiv x y = Ok z ∧ (f0 <=? z)%F = true.
Proof.
  intros Hx Hy Hf. destruct (positive_literal y Hy Hf) as (q & -> & Hq). unfold fdiv.
  rewrite Qeq_bool_pos by done. destruct x as [a|[]|]; try done.
  - eexists. split; [reflexivity|]. rewrite f0_eq in *. rewrite fleb_Fin in Hx. rewrite <-fl_0. apply fl_mono.
    apply Qle_shift_div_l; [done|]. by rewrite Qmult_0_l.
  - eexists. split; [reflexivity|]. by rewrite Qneg_pos.
Qed.

Lemma mul_nonneg x y : (f0 <=? x)%F = true → (f0 <? y)%F = true → isfinite y = true → (f0 <=? x * y)%F = true.
Proof.
  intros Hx Hy Hf. destruct (positive_literal y Hy Hf) as (q & -> & Hq). destruct x as [a|[]|]; try done.
  - unfold fmul. rewrite f0_eq in *. rewrite fleb_Fin in Hx. rewrite <-fl_0. apply fl_mono. nra.
  - unfold fmul. by rewrite Qeq_bool_pos, Qneg_pos by done.
Qed.

(** The clamp of an absolute value or a variance is a non-negative number. *)
Lemma clamp_nonneg c x : (f0 <=? c)%F = true → (f0 <=? x)%F = true ∨ is_nan x = true → (f0 <=? fmin c x)%F = true.
Proof. intros Hc Hx. unfold fmin. destruct (fltb x c) eqn:E; [|done]. destruct Hx as [?|Hx]; [done|]. by destruct x, c. Qed.

Lemma clamp_score x : (f0 <=? x)%F = true → is_score (fmin f1 x) = true.
Proof.
  intros Hx. unfold is_score, fmin. destruct (fltb x f1) eqn:E; [|done]. rewrite Hx. by apply fltb_fleb.
Qed.

(** Lower bounds: [c] is a float, a constant of the code. *)
Lemma add_bound_l (c : Q) x y : fl c = Fin c → (Fin c <=? x)%F = true → (f0 <=? y)%F = true → (Fin c <=? x + y)%F = true.
Proof.
  intros Hc Hx Hy. destruct x as [a|[]|], y as [b|[]|]; try done. rewrite f0_eq, !fleb_Fin in *.
  unfold fadd. rewrite <-Hc. apply fl_mono. lra.
Qed.

Lemma add_bound_r (c : Q) x y : fl c = Fin c → (Fin c <=? y)%F = true → (f0 <=? x)%F = true → (Fin c <=? x + y)%F = true.
Proof.
  intros Hc Hx Hy. destruct x as [a|[]|], y as [b|[]|]; try done. rewrite f0_eq, !fleb_Fin in *.
  unfold fadd. rewrite <-Hc. apply fl_mono. lra.
Qed.

Lemma fl_extremes q : fleb (Inf true) (fl q) = true ∧ fleb (fl q) (Inf false) = true.
Proof. assert (fl q ≠ NaN) as H by apply fl_not_NaN. by destruct (fl q) as [|[]|]. Qed.

(** Division and multiplication by a positive constant are monotone. *)
Lemma div_mono x x' y z : (x <=? x')%F = true → (f0 <? y)%F = true → isfinite y = true → fdiv x' y = Ok z →
  ∃ w, fdiv x y = Ok w ∧ (w <=? z)%F = true.
Proof.
  intros Hx Hy Hf E. destruct (positive_literal y Hy Hf) as (q & -> & Hq). unfold fdiv in *.
  rewrite Qeq_bool_pos in * by done. destruct x as [a|[]|], x' as [b|[]|]; try discriminate; injection E as E; subst z;
    (eexists; split; [reflexivity|]); rewrite ?(Qneg_pos _ Hq); try done; try apply fl_extremes.
  rewrite fleb_Fin in Hx. apply fl_mono. apply Qmult_le_compat_r; [done|].
  apply Qinv_le_0_compat. lra.
Qed.

Lemma mul_mono x x' y : (x <=? x')%F = true → (f0 <? y)%F = true → isfinite y = true → (x * y <=? x' * y)%F = true.
Proof.
  intros Hx Hy Hf. destruct (positive_literal y Hy Hf) as (q & -> & Hq). unfold fmul.
  rewrite Qeq_bool_pos by done. destruct x as [a|[]|], x' as [b|[]|]; try done; rewrite ?(Qneg_pos _ Hq); try done;
    try apply fl_extremes.
  rewrite fleb_Fin in Hx. apply fl_mono. nra.
Qed.

(** ** Satellite navigation: the score and the flags *)

Lemma term_bound x d w : (f0 <=? x)%F = true → (f0 <? d)%F = true → isfinite d = true → (f0 <? w)%F = true → isfinite w = true →
  ∃ z, fdiv x d = Ok z ∧ (f0 <=? z)%F = true ∧ (f0 <=? z * w)%F = true.
Proof.
  intros Hx Hd Hd' Hw Hw'. destruct (div_nonneg x d Hx Hd Hd') as (z & E & Hz).
  exists z. split_and!; [done|done|by apply mul_nonneg].
Qed.

(** A term above [k] keeps at least the share of [k]. *)
Lemma term_above k x d w z zk : (k <? x)%F = true → fdiv x d = Ok z → fdiv k d = Ok zk → (f0 <? d)%F = true → isfinite d = true →
  (f0 <? w)%F = true → isfinite w = true → (zk * w <=? z * w)%F = true.
Proof.
  intros Hk E Ek Hd Hd' Hw Hw'. destruct (div_mono k x d z) as (z' & E' & Hz); [|done..|].
  - by apply fltb_fleb.
  - assert (z' = zk) as -> by congruence. by apply mul_mono.
Qed.

Lemma fmin_above k c x : (k <? c)%F = true → (k <? x)%F = true → (k <? fmin c x)%F = true.
Proof. intros Hc Hx. unfold fmin. by destruct (fltb x c). Qed.

(** The weighted share of a threshold is a positive literal. *)
Definition share (k d w : float) : bool :=
  match fdiv k d with
  | Ok z => match (z * w)%F with
            | Fin q => match fl q with Fin r => bool_decide (q = r) && negb (Qle_bool q 0) | _ => false end
            | _ => false
            end
  | _ => false
  end.

Lemma share_spec k d w : share k d w = true → ∃ z q, fdiv k d = Ok z ∧ (z * w)%F = Fin q ∧ fl q = Fin q ∧ (0 < q)%Q.
Proof.
  unfold share. destruct (fdiv k d) as [z|]; [|done]. destruct (z * w)%F as [q| |] eqn:E; try done.
  destruct (fl q) as [r| |] eqn:Er; try done. intros [->%bool_decide_eq_true Hq]%andb_true_iff.
  exists z, r. split_and!; [done|done|done|]. apply Qnot_le_lt. intros Hle%Qle_bool_iff. by rewrite Hle in Hq.
Qed.

Lemma lower_share k x d w z : (k <? x)%F = true → fdiv x d = Ok z →
  share k d w = true →
  (f0 <? d)%F = true → isfinite d = true → (f0 <? w)%F = true → isfinite w = true →
  ∃ q, fl q = Fin q ∧ (0 < q)%Q ∧ (Fin q <=? z * w)%F = true.
Proof.
  intros Hk E (zk & q & Ek & Hq & Hf & H0)%share_spec ? ? ? ?. exists q. split_and!; [done|done|]. rewrite <-Hq.
  by apply (term_above k x d w z zk).
Qed.

Section gnss_laws.
Context `{Square}.

Lemma cno_average l : ∃ a, (match l with [] => Ok (lit 40) | l => average l end) = Ok a.
Proof using.
  destruct l as [|x l]; [by eexists|]. unfold average. cbn [length].
  assert (∀ n, ∃ q, f_of_Z (Z.of_nat (S n)) = q ∧ (f0 <? q)%F = true) as Hpos; [|].
  { intros n. eexists. split; [reflexivity|]. unfold f_of_Z.
    pose proof (fl_mono 1 (inject_Z (Z.of_nat (S n)))) as M. rewrite fl_1 in M.
    assert (1 <= inject_Z (Z.of_nat (S n)))%Q as Hle by (change 1%Q with (inject_Z 1); rewrite <-Zle_Qle; lia).
    specialize (M Hle). destruct (fl (inject_Z (Z.of_nat (S n)))) as [q|[]|]; try done.
    rewrite f0_eq, fltb_Fin. rewrite fleb_Fin in M. lra. }
  destruct (Hpos (length l)) as (q & -> & Hq). destruct q as [q|b|].
  - rewrite f0_eq, fltb_Fin in Hq. unfold fdiv. destruct (fsum (x :: l)) as [|[]|]; rewrite Qeq_bool_pos by done; by eexists.
  - destruct (fsum (x :: l)) as [|[]|]; by eexists.
  - done.
Qed.

(** What the grade needs: the score exists, it is a number of [0, 1] and each flag
    puts it above zero. *)
Lemma gnss_score_bounds cno variance drift : (f0 <=? cno)%F = true → (f0 <=? variance)%F = true ∨ is_nan variance = true →
  ∃ s, gnss_score cno variance drift = Ok s ∧ is_score s = true ∧
    ((cno >? lit 15)%F || (variance >? lit 25)%F || (fabs drift >? lit 5)%F = true → (s >? f0)%F = true).
Proof using.
  intros Hc Hv. unfold gnss_score.
  assert (f0 <=? fmin (lit 50) variance = true)%F as Hv' by (apply clamp_nonneg; [done|exact Hv]).
  assert (f0 <=? fmin (lit 10) (fabs drift) = true)%F as Hd'.
  { apply clamp_nonneg; [done|]. destruct drift as [q|[]|]; [left| | |]; try (by left); try (by right).
    cbn [fabs]. rewrite f0_eq, fleb_Fin. apply Qabs.Qabs_nonneg. }
  destruct (term_bound cno (lit 25) (lit 0.4)) as (a & Ea & Ha & Ha'); [done..|].
  destruct (term_bound _ (lit 50) (lit 0.4) Hv') as (b & Eb & Hb & Hb'); [done..|].
  destruct (term_bound _ (lit 10) (lit 0.2) Hd') as (c & Ec & Hc0 & Hc'); [done..|].
  rewrite Ea, Eb, Ec. cbn [mbind res_bind]. eexists. split; [reflexivity|].
  assert (f0 <=? a * lit 0.4 + b * lit 0.4 = true)%F as Hab by (by apply fadd_nonneg).
  assert (f0 <=? a * lit 0.4 + b * lit 0.4 + c * lit 0.2 = true)%F as Habc by (by apply fadd_nonneg).
  split.
  - by apply clamp_score.
  - intros Hflag.
    assert (∃ k : Q, fl k = Fin k ∧ (0 < k)%Q ∧ (Fin k <=? a * lit 0.4 + b * lit 0.4 + c * lit 0.2)%F = true) as (k & Hk & Hk0 & Hle).
    { apply orb_true_iff in Hflag as [Hflag|Hflag]; [apply orb_true_iff in Hflag as [Hflag|Hflag]|].
      - destruct (lower_share (lit 15) cno (lit 25) (lit 0.4) a Hflag Ea) as (k & ? & ? & ?);
          [vm_compute; reflexivity..|].
        exists k. split_and!; [done|done|]. by apply add_bound_l; [done|apply add_bound_l|].
      - destruct (lower_share (lit 25) (fmin (lit 50) variance) (lit 50) (lit 0.4) b
          (fmin_above (lit 25) (lit 50) _ eq_refl Hflag) Eb) as (k & ? & ? & ?);
          [vm_compute; reflexivity..|].
        exists k. split_and!; [done|done|]. apply add_bound_l; [done| |done]. by apply add_bound_r.
      - destruct (lower_share (lit 5) (fmin (lit 10) (fabs drift)) (lit 10) (lit 0.2) c
          (fmin_above (lit 5) (lit 10) _ eq_refl Hflag) Ec) as (k & ? & ? & ?);
          [vm_compute; reflexivity..|].
        exists k. split_and!; [done|done|]. by apply add_bound_r. }
    unfold fmin. destruct (fltb _ f1) eqn:E; [|done].
    rewrite f0_eq. set (t := (a * lit 0.4 + b * lit 0.4 + c * lit 0.2)%F) in *. clearbody t.
    destruct t as [q|[]|]; try done. rewrite fleb_Fin in Hle. rewrite fltb_Fin. lra.
Qed.

Lemma gnss_level_nominal s : (s >? f0)%F = true → gnss_level s ≠ "NOMINAL".
Proof using. intros E. unfold gnss_level. rewrite E. destruct (_ >=? _)%F; [discriminate|]. destruct (_ >=? _)%F; [discriminate|].
  destruct (_ >=? _)%F; discriminate. Qed.
End gnss_laws.

(** The satellite-navigation detector, whatever the receiver reports, is total as
    soon as the variance of the residuals is a number not below zero or a NaN: its
    report flags jamming above a drop of 15 dB and spoofing above a variance of 25 or
    a drift of 5 ppm either way, recommends a remedy exactly when it flags one of them,
    never grades a flagged signal NOMINAL, and its score lies in [0, 1]. *)
Theorem gnss_report `{Square} residuals ratios drift dop v : variance_of residuals = Ok v →
  (f0 <=? v)%F = true ∨ is_nan v = true →
  ∃ r drop, gnss_analyze residuals ratios drift dop = Ok r ∧
    (gr_is_jammed r = true ↔ (lit 15 <? drop)%F = true) ∧ gr_cno_drop_db r = fround 2 drop ∧
    (gr_is_spoofed r = true ↔ (lit 25 <? v)%F = true ∨ (lit 5 <? fabs drift)%F = true) ∧
    (tv_remediation_recommendation (gr_threat r) = "" ↔ gr_is_spoofed r = false ∧ gr_is_jammed r = false) ∧
    (gr_is_spoofed r = true ∨ gr_is_jammed r = true → tv_level (gr_threat r) ≠ "NOMINAL") ∧
    is_score (tv_score (gr_threat r)) = true.
Proof.
  intros Ev Hv. unfold gnss_analyze. destruct (cno_average ratios) as (avg & ->). rewrite Ev. cbn [mbind res_bind].
  set (drop := fmax f0 (lit 42 - avg)%F).
  assert (f0 <=? drop = true)%F as Hd.
  { subst drop. unfold fmax. destruct (fltb f0 _) eqn:E; [by apply fltb_fleb|done]. }
  clearbody drop. destruct (gnss_score_bounds drop v drift Hd Hv) as (s & -> & Hs & Hf). cbn [mbind res_bind].
  unfold new_ThreatSeverity. cbn [tv_score tv_confidence]. rewrite (score_round 3 s Hs).
  change (is_score (lit 0.92)) with true. cbn [require mbind res_bind]. eexists _, drop. split; [reflexivity|].
  cbn [gr_is_jammed gr_is_spoofed gr_cno_drop_db gr_threat tv_remediation_recommendation tv_level tv_score].
  split_and!; [done|done|by rewrite orb_true_iff| | |by apply score_round].
  - generalize (v >? lit 25)%F (fabs drift >? lit 5)%F (drop >? lit 15)%F. intros [] [] []; split; first [discriminate|intros [? ?]; discriminate|done].
  - intros Hor. apply gnss_level_nominal, Hf. destruct (drop >? lit 15)%F; [done|]. destruct Hor as [Hor|]; [|done].
    by rewrite orb_false_l.
Qed.

(** ** The scan *)

Lemma fmax_scores x y : is_score x = true → is_score y = true →
  is_score (fmax x y) = true ∧ (x <=? fmax x y)%F = true ∧ (y <=? fmax x y)%F = true ∧ (fmax x y = x ∨ fmax x y = y).
Proof.
  intros (a & -> & Ha)%is_score_iff (b & -> & Hb)%is_score_iff. unfold fmax.
  destruct (fltb (Fin a) (Fin b)) eqn:E.
  - split_and!; [apply is_score_iff; eauto|by apply fltb_fleb|apply fleb_Fin; lra|by right].
  - split_and!; [apply is_score_iff; eauto|apply fleb_Fin; lra| |by left].
    apply fleb_Fin. apply Qnot_lt_le. intros Hlt%fltb_Fin. by rewrite Hlt in E.
Qed.

(** The scan's level never falls when the score rises. *)
Lemma scan_level_high x y : (x <=? y)%F = true →
  ((lit 0.75 <=? x)%F = true → scan_level y = "CRITICAL") ∧ ((lit 0.45 <=? x)%F = true → scan_level y ≠ "NOMINAL").
Proof.
  intros Hxy. unfold scan_level. split; intros Hx; rewrite (fleb_trans _ _ _ Hx Hxy); [done|].
  intros E. by destruct (lit 0.75 <=? y)%F.
Qed.

Lemma threat_score t t' : new_ThreatSeverity t = Ok t' → t' = t ∧ is_score (tv_score t) = true.
Proof. unfold new_ThreatSeverity, require. destruct (is_score (tv_score t)), (is_score (tv_confidence t)); naive_solver. Qed.

Lemma scada_ok rate codes untrusted plcs expected r : 0 <= untrusted → scada_analyze rate codes untrusted plcs expected = Ok r →
  is_score (tv_score (sr_threat r)) = true ∧
  (sr_unauthorized_plc_reprogramming r = true → (lit 0.45 <=? tv_score (sr_threat r))%F = true).
Proof.
  intros Hn. unfold scada_analyze. set (tamper := existsb _ plcs).
  destruct (scada_score_grade tamper (rate >? lit 100)%F untrusted Hn) as (score & -> & Hs & _ & _ & Ht).
  intros H1. repeat (apply bind_ok in H1 as (? & ? & H1)). injection H1 as <-. cbn [sr_threat sr_unauthorized_plc_reprogramming].
  match goal with E : new_ThreatSeverity _ = Ok _ |- _ => apply threat_score in E as [-> _] end.
  match goal with E : Ok _ = Ok _ |- _ => injection E as <- end. split; [exact Hs|exact Ht].
Qed.

Lemma gnss_ok `{Square} residuals ratios drift dop r : gnss_analyze residuals ratios drift dop = Ok r →
  is_score (tv_score (gr_threat r)) = true.
Proof.
  unfold gnss_analyze. intros H1. repeat (apply bind_ok in H1 as (? & ? & H1)).
  injection H1 as <-. cbn [gr_threat]. match goal with E : new_ThreatSeverity _ = Ok _ |- _ => apply threat_score in E as [-> Hscore] end.
  exact Hscore.
Qed.

(** The vessel detector has two scores. *)
Lemma ais_ok `{Trig, Square} lat lon lat' lon' elapsed vessel r : ais_analyze lat lon lat' lon' elapsed vessel = Ok r →
  is_score (tv_score (ar_threat r)) = true ∧
  (ar_is_kinematically_impossible r = true → (lit 0.75 <=? tv_score (ar_threat r))%F = true) ∧
  ar_mmsi_clone_detected r = ar_is_kinematically_impossible r.
Proof.
  unfold ais_analyze. intros H1. repeat (apply bind_ok in H1 as (? & ? & H1)).
  injection H1 as <-. cbn [ar_threat ar_is_kinematically_impossible ar_mmsi_clone_detected].
  match goal with E : new_ThreatSeverity _ = Ok _ |- _ => apply threat_score in E as [-> Hscore] end.
  split_and!; [exact Hscore| |done]. cbn [tv_score].
  intros ->. by vm_compute.
Qed.

(** A scan that reports keeps the three reports; its score is the largest of
    theirs, one of them, and in [0, 1]; its level is the level of that score; a
    vessel whose track is impossible makes it CRITICAL and altered firmware never
    leaves it NOMINAL, whatever the other detectors say. *)
Theorem scan_worst `{Trig, Square} id ref i r : 0 <= si_untrusted_ips i → run_full_scan id ref i = Ok r →
  let a := tv_score (gr_threat (us_gnss_threat r)) in
  let b := tv_score (sr_threat (us_scada_threat r)) in
  let c := tv_score (ar_threat (us_ais_threat r)) in
  (us_max_threat_score r = a ∨ us_max_threat_score r = b ∨ us_max_threat_score r = c) ∧
  Forall (λ x, (x <=? us_max_threat_score r)%F = true) [a; b; c] ∧ is_score (us_max_threat_score r) = true ∧
  us_overall_threat_level r = scan_level (us_max_threat_score r) ∧
  (ar_is_kinematically_impossible (us_ais_threat r) = true → us_overall_threat_level r = "CRITICAL") ∧
  (sr_unauthorized_plc_reprogramming (us_scada_threat r) = true → us_overall_threat_level r ≠ "NOMINAL").
Proof.
  intros Hn H1. unfold run_full_scan in H1. apply bind_ok in H1 as (g & Hg & H1). apply bind_ok in H1 as (s & Hs & H1).
  destruct (default _ (si_ais_coords i)) as [[[[lat lon] lat'] lon'] elapsed]. apply bind_ok in H1 as (v & Hv & H1).
  injection H1 as <-. cbn [us_gnss_threat us_scada_threat us_ais_threat us_max_threat_score us_overall_threat_level].
  apply gnss_ok in Hg. apply ais_ok in Hv as (Hv & Himp & _). apply (scada_ok _ _ _ _ _ _ Hn) in Hs as [Hs Htamper].
  destruct (fmax_scores _ _ Hg Hs) as (Hgs & L1 & L2 & O1). destruct (fmax_scores _ _ Hgs Hv) as (Hmax & L3 & L4 & O2).
  pose proof (fleb_trans _ _ _ L1 L3) as La. pose proof (fleb_trans _ _ _ L2 L3) as Lb.
  split_and!; [|by repeat constructor|done|done| |].
  - destruct O2 as [->| ->]; [|by auto]. destruct O1 as [->| ->]; auto.
  - intros Hi. by apply (scan_level_high _ _ L4), Himp.
  - intros Ht. by apply (scan_level_high _ _ Lb), Htamper.
Qed.

(** ** Concrete inputs *)

#[local] Existing Instance example_Square.

(** A globe on which every two points coincide. *)
#[local] Instance still_Trig : Trig :=
  {| t_radians := id; t_sin := λ _, Ok f0; t_cos := λ _, Ok f1; t_atan2 := λ _ _, f0 |}.

(** A globe on which every two points are half the circumference apart. *)
Definition far_Trig : Trig :=
  {| t_radians := id; t_sin := λ _, Ok f0; t_cos := λ _, Ok f1; t_atan2 := λ _ _, lit 1.5707963267948966 |}.

Lemma scada_exact_witness : 0 <= 5 ∧ ∃ r,
  scada_analyze (lit 20) [] 5 [("plc-01", "AB"); ("plc-02", "cd")] "ab" = Ok r ∧ tv_level (sr_threat r) = "CRITICAL".
Proof.
  split; [done|]. destruct (scada_exact (lit 20) [] 5 [("plc-01", "AB"); ("plc-02", "cd")] "ab" ltac:(done))
    as (r & Hr & H1 & H2 & H3 & _).
  exists r. split; [exact Hr|]. rewrite H3.
  assert (sr_unauthorized_plc_reprogramming r = true) as ->.
  { apply H2. exists ("plc-02", "cd"). split; [by do 2 constructor|]. by vm_compute. }
  by destruct (sr_ransomware_signature_detected r).
Defined.

Lemma gnss_report_witness : (f0 <=? lit 25)%F = true ∧ ∃ r drop,
  gnss_analyze [lit 5; lit (-5)] [lit 20] f0 f1 = Ok r ∧ (lit 15 <? drop)%F = true ∧ tv_level (gr_threat r) ≠ "NOMINAL".
Proof.
  split; [vm_compute; reflexivity|].
  assert (variance_of [lit 5; lit (-5)] = Ok (lit 25)) as Ev by (vm_compute; reflexivity).
  assert (f0 <=? lit 25 = true)%F as Hv by (vm_compute; reflexivity).
  destruct (gnss_report _ [lit 20] f0 f1 _ Ev (or_introl Hv))
    as (r & drop & Hr & H1 & _ & _ & _ & H2 & _).
  exists r, drop. split; [exact Hr|].
  assert (gr_is_jammed r = true) as Hj.
  { assert ((x ← gnss_analyze [lit 5; lit (-5)] [lit 20] f0 f1; Ok (gr_is_jammed x)) = Ok true) as E by (vm_compute; reflexivity).
    rewrite Hr in E. cbn [mbind res_bind] in E. by injection E. }
  split; [by apply H1|]. apply H2. by right.
Defined.

(** At the thresholds themselves nothing is flagged and no remedy is recommended,
    yet the signal is graded HIGH. *)
Example high_without_flag :
  (λ r, (gr_is_spoofed r, gr_is_jammed r, tv_level (gr_threat r), tv_indicators (gr_threat r), tv_remediation_recommendation (gr_threat r)))
    <$> gnss_analyze [lit 5; lit (-5)] [lit 27] (lit 5) f1 = Ok (false, false, "HIGH", [], "").
Proof. vm_compute. reflexivity. Qed.

Definition quiet_scan : scan_input :=
  {| si_gnss_residuals := None; si_cno_ratios := None; si_clock_drift_ppm := lit 0.2; si_scada_cmd_rate := lit 15;
     si_unauthorized_fc := None; si_untrusted_ips := 0; si_plc_hashes := None; si_expected_plc_hash := "ab"; si_ais_coords := None |}.

(** A flood with three untrusted connections. *)
Definition flood_scan : scan_input :=
  {| si_gnss_residuals := None; si_cno_ratios := None; si_clock_drift_ppm := lit 0.2; si_scada_cmd_rate := lit 500;
     si_unauthorized_fc := Some [15]; si_untrusted_ips := 3; si_plc_hashes := None; si_expected_plc_hash := "ab"; si_ais_coords := None |}.

(** A control-system threat graded HIGH leaves the whole scan NOMINAL. *)
Example scan_nominal_scada_high :
  (λ r, (tv_level (sr_threat (us_scada_threat r)), us_overall_threat_level r)) <$> run_full_scan "s" "port" flood_scan = Ok ("HIGH", "NOMINAL").
Proof. vm_compute. reflexivity. Qed.

(** Readings that are empty are replaced by nominal ones: the same report. *)
Example no_readings_is_nominal :
  run_full_scan "s" "port" quiet_scan =
  run_full_scan "s" "port" {| si_gnss_residuals := Some []; si_cno_ratios := Some []; si_clock_drift_ppm := lit 0.2;
    si_scada_cmd_rate := lit 15; si_unauthorized_fc := Some []; si_untrusted_ips := 0; si_plc_hashes := Some [];
    si_expected_plc_hash := "ab"; si_ais_coords := None |}.
Proof. reflexivity. Qed.

Lemma scan_worst_witness : 0 <= si_untrusted_ips quiet_scan ∧ ∃ r,
  @run_full_scan far_Trig _ "s" "port" quiet_scan = Ok r ∧ us_overall_threat_level r = "CRITICAL".
Proof.
  split; [done|]. destruct (@run_full_scan far_Trig _ "s" "port" quiet_scan) as [r|e] eqn:E.
  - exists r. split; [reflexivity|].
    apply (@scan_worst far_Trig _ "s" "port" quiet_scan r ltac:(done) E).
    assert ((x ← @run_full_scan far_Trig _ "s" "port" quiet_scan; Ok (ar_is_kinematically_impossible (us_ais_threat x))) = Ok true) as E'
      by (vm_compute; reflexivity).
    rewrite E in E'. cbn [mbind res_bind] in E'. by injection E'.
  - exfalso. vm_compute in E. discriminate E.
Defined.
