(* ===== verification/SupplyChain.v ===== *)
(** * supply_chain.py: bills of materials, losses and rerouting

    [assess_bom] rates the components of a bill of materials, [calculate_losses]
    prices a disruption and [solve_rerouting] ranks the transport modes. *)

From Stdlib Require Import ZArith QArith Qabs Lqa.
From S2P Require Import Prelude Post PyFloat FloatError FloatMono PyFormat Domain Analysis Threat.

Open Scope Z_scope.

Inductive TransportMode := MARITIME | RAIL_CPKC | RAIL_CN | LONG_HAUL_TRUCK | AIR_CARGO.

Definition TransportMode_value (m : TransportMode) : string :=
  match m with
  | MARITIME => "maritime"
  | RAIL_CPKC => "rail_cpkc"
  | RAIL_CN => "rail_cn"
  | LONG_HAUL_TRUCK => "long_haul_truck"
  | AIR_CARGO => "air_cargo"
  end.

#[export] Instance TransportMode_eq_dec : EqDecision TransportMode.
Proof. solve_decision. Defined.

(** ** Bills of materials *)

Record BOMComponent := {
  bc_component_id : string;
  bc_name : string;
  bc_tier : Z;
  bc_supplier_id : string;
  bc_origin_country : string;
  bc_is_single_sourced : bool;
  bc_lead_time_days : Z;
  bc_inventory_buffer_days : Z;
  bc_criticality : float;
  bc_substitutable : bool
}.

(** The constraints of the fields. *)
Definition BOMComponent_valid (c : BOMComponent) : bool :=
  (1 <=? bc_tier c) && (bc_tier c <=? 3) && (1 <=? bc_lead_time_days c) && (0 <=? bc_inventory_buffer_days c)
  && is_score (bc_criticality c).

Record SupplyChainBOMAssessment := {
  sb_assessment_id : string;
  sb_system_or_product_name : string;
  sb_overall_supply_risk : float;
  sb_critical_shortage_window_days : Z;
  sb_single_source_choke_points : list string;
  sb_tier_1_risk : float;
  sb_tier_2_risk : float;
  sb_tier_3_risk : float;
  sb_bottlenecks : list string;
  sb_resilience_recommendations : list string
}.

Definition new_SupplyChainBOMAssessment (a : SupplyChainBOMAssessment) : res SupplyChainBOMAssessment :=
  _ ← require (is_score (sb_overall_supply_risk a)) "overall_supply_risk";
  _ ← require (is_score (sb_tier_1_risk a)) "tier_1_risk";
  _ ← require (is_score (sb_tier_2_risk a)) "tier_2_risk";
  _ ← require (is_score (sb_tier_3_risk a)) "tier_3_risk";
  Ok a.

(** The days left when the corridor is closed for [disruption] days. *)
Definition effective_buffer (disruption : Z) (c : BOMComponent) : Z := bc_inventory_buffer_days c - disruption.

Definition component_risk (disruption : Z) (c : BOMComponent) : float :=
  let base_risk := (bc_criticality c * lit 0.4)%F in
  let base_risk := if bc_is_single_sourced c then (base_risk + lit 0.35)%F else base_risk in
  let base_risk := if negb (bc_substitutable c) then (base_risk + lit 0.15)%F else base_risk in
  let margin := effective_buffer disruption c in
  let base_risk := if margin <=? 0 then (base_risk + lit 0.2)%F
                   else if margin <? bc_lead_time_days c then (base_risk + lit 0.1)%F else base_risk in
  fmin f1 base_risk.

(** The variables of the loop: choke points, bottlenecks, smallest buffer, and the
    risks of each tier. *)
Record bom_state := {
  bs_choke_points : list string;
  bs_bottlenecks : list string;
  bs_min_buffer_days : Z;
  bs_tier_risks : Z → list float
}.

Definition bom_start : bom_state :=
  {| bs_choke_points := []; bs_bottlenecks := []; bs_min_buffer_days := 9999; bs_tier_risks := λ _, [] |}.

Definition bom_step (disruption : Z) (s : bom_state) (c : BOMComponent) : bom_state :=
  let margin := effective_buffer disruption c in
  {| bs_choke_points := bs_choke_points s ++ (if bc_is_single_sourced c then [bc_component_id c] else []);
     bs_bottlenecks := bs_bottlenecks s
       ++ (if margin <=? 0 then
             [bc_name c +:+ " (Tier-" +:+ str_Z (bc_tier c) +:+ "): Buffer exhausted (" +:+ str_Z margin +:+ "d margin)"]
           else []);
     bs_min_buffer_days := Z.min (bs_min_buffer_days s) (Z.max 0 margin);
     bs_tier_risks := λ t, if t =? bc_tier c then bs_tier_risks s t ++ [component_risk disruption c] else bs_tier_risks s t |}.

(** [sum(risks) / len(risks) if risks else 0.0] *)
Definition tier_average (risks : list float) : res float := match risks with [] => Ok f0 | _ => average risks end.

Definition assess_bom (id system_name : string) (components : list BOMComponent) (corridor_disruption_days : Z)
    : res SupplyChainBOMAssessment :=
  _ ← raise_if (match components with [] => true | _ => false end) (ValueError "components list must not be empty");
  let s := foldl (bom_step corridor_disruption_days) bom_start components in
  avg_tier_1 ← tier_average (bs_tier_risks s 1);
  avg_tier_2 ← tier_average (bs_tier_risks s 2);
  avg_tier_3 ← tier_average (bs_tier_risks s 3);
  let overall_risk := fmin f1 (avg_tier_1 * lit 0.5 + avg_tier_2 * lit 0.3 + avg_tier_3 * lit 0.2)%F in
  let choke_points := bs_choke_points s in
  let min_buffer_days := bs_min_buffer_days s in
  new_SupplyChainBOMAssessment
    {| sb_assessment_id := id; sb_system_or_product_name := system_name;
       sb_overall_supply_risk := fround 4 overall_risk; sb_critical_shortage_window_days := min_buffer_days;
       sb_single_source_choke_points := choke_points;
       sb_tier_1_risk := fround 4 avg_tier_1; sb_tier_2_risk := fround 4 avg_tier_2; sb_tier_3_risk := fround 4 avg_tier_3;
       sb_bottlenecks := bs_bottlenecks s;
       sb_resilience_recommendations :=
         (match choke_points with
          | [] => []
          | _ => ["Establish dual-sourcing agreements for " +:+ str_nat (length choke_points) +:+ " single-sourced items"]
          end)
         ++ (if min_buffer_days <? 14 then
               ["Increase inventory stockpile: critical shortage threshold in " +:+ str_Z min_buffer_days +:+ "d"]
             else []) |}.

(** ** Losses *)

Record EconomicDisruptionEstimate := {
  ed_disruption_duration_days : Z;
  ed_daily_holding_cost : float;
  ed_daily_demurrage_cost : float;
  ed_daily_production_loss_cost : float;
  ed_total_holding_cost : float;
  ed_total_demurrage_cost : float;
  ed_total_production_loss_cost : float;
  ed_total_estimated_loss_cad : float;
  ed_cost_breakdown_cad : dict string float;
  ed_advisory_summary : string
}.

(** [f"{x:,.2f}"] *)
Definition fmt_money (x : float) : string :=
  match x with
  | Fin q =>
      let z := rne (Qabs q * inject_Z 100) in
      sign_of q +:+ group3 110 (z / 100) +:+ "." +:+ digits 2 (z mod 100)
  | Inf s => if s then "-inf" else "inf"
  | NaN => "nan"
  end.

(** [x * n] for a float and an integer. *)
Definition times_days (x : float) (n : Z) : res float := d ← float_of_int n; Ok (x * d)%F.

Definition calculate_losses (disruption_duration_days : Z) (daily_inventory_value_cad : float) (vessels_delayed_count : Z)
    (demurrage_rate production_line_daily_burn_cad holding_cost_annual_rate : float) : res EconomicDisruptionEstimate :=
  _ ← raise_if (disruption_duration_days <? 0) (ValueError "disruption_duration_days cannot be negative");
  daily_holding ← fdiv (daily_inventory_value_cad * holding_cost_annual_rate)%F (lit 365);
  vessels ← float_of_int vessels_delayed_count;
  let daily_demurrage := (vessels * demurrage_rate)%F in
  let daily_prod_loss := production_line_daily_burn_cad in
  total_holding ← times_days daily_holding disruption_duration_days;
  total_demurrage ← times_days daily_demurrage disruption_duration_days;
  total_prod ← times_days daily_prod_loss disruption_duration_days;
  let total_loss := (total_holding + total_demurrage + total_prod)%F in
  Ok {| ed_disruption_duration_days := disruption_duration_days; ed_daily_holding_cost := fround 2 daily_holding;
        ed_daily_demurrage_cost := fround 2 daily_demurrage; ed_daily_production_loss_cost := fround 2 daily_prod_loss;
        ed_total_holding_cost := fround 2 total_holding; ed_total_demurrage_cost := fround 2 total_demurrage;
        ed_total_production_loss_cost := fround 2 total_prod; ed_total_estimated_loss_cad := fround 2 total_loss;
        ed_cost_breakdown_cad :=
          [("inventory_carrying_cost", fround 2 total_holding); ("port_demurrage_and_detention", fround 2 total_demurrage);
           ("production_line_stoppage", fround 2 total_prod)];
        ed_advisory_summary :=
          "Disruption duration: " +:+ str_Z disruption_duration_days +:+ " days. Estimated total commercial loss: CAD $"
          +:+ fmt_money total_loss +:+ " (Demurrage: $" +:+ fmt_money total_demurrage +:+ ", Production Loss: $"
          +:+ fmt_money total_prod +:+ ")" |}.

(** ** Rerouting *)

Record ModalReroutingOption := {
  mo_mode : TransportMode;
  mo_origin : string;
  mo_destination : string;
  mo_transit_time_hours : float;
  mo_cost_per_ton_cad : float;
  mo_co2_kg_per_ton : float;
  mo_reliability_score : float;
  mo_capacity_available : bool;
  mo_rationale : string
}.

Record ModalReroutingResult := {
  mr_primary_corridor_disrupted : string;
  mr_recommended_mode : TransportMode;
  mr_total_options_evaluated : Z;
  mr_ranked_options : list ModalReroutingOption;
  mr_tradeoff_analysis : string
}.

Record modal_baseline := { mb_speed_kmh : float; mb_cost_per_ton_km : float; mb_co2_kg_ton_km : float; mb_base_reliability : float }.

Definition DEFAULT_MODAL_BASELINES : dict TransportMode modal_baseline :=
  [(MARITIME, {| mb_speed_kmh := lit 25; mb_cost_per_ton_km := lit 0.04; mb_co2_kg_ton_km := lit 0.015; mb_base_reliability := lit 0.88 |});
   (RAIL_CPKC, {| mb_speed_kmh := lit 45; mb_cost_per_ton_km := lit 0.08; mb_co2_kg_ton_km := lit 0.025; mb_base_reliability := lit 0.92 |});
   (RAIL_CN, {| mb_speed_kmh := lit 45; mb_cost_per_ton_km := lit 0.08; mb_co2_kg_ton_km := lit 0.025; mb_base_reliability := lit 0.92 |});
   (LONG_HAUL_TRUCK,
      {| mb_speed_kmh := lit 85; mb_cost_per_ton_km := lit 0.28; mb_co2_kg_ton_km := lit 0.11; mb_base_reliability := lit 0.95 |});
   (AIR_CARGO, {| mb_speed_kmh := lit 650; mb_cost_per_ton_km := lit 1.45; mb_co2_kg_ton_km := lit 0.65; mb_base_reliability := lit 0.98 |})].

Definition modal_option (origin destination : string) (distance_km : float) (row : TransportMode * modal_baseline)
    : res ModalReroutingOption :=
  let '(mode, params) := row in
  transit_hours ← fdiv distance_km (mb_speed_kmh params);
  let cost_ton := (distance_km * mb_cost_per_ton_km params)%F in
  let co2_ton := (distance_km * mb_co2_kg_ton_km params)%F in
  _ ← require (is_score (mb_base_reliability params)) "reliability_score";
  Ok {| mo_mode := mode; mo_origin := origin; mo_destination := destination; mo_transit_time_hours := fround 1 transit_hours;
        mo_cost_per_ton_cad := fround 2 cost_ton; mo_co2_kg_per_ton := fround 2 co2_ton;
        mo_reliability_score := mb_base_reliability params; mo_capacity_available := true;
        mo_rationale := str_upper (TransportMode_value mode) +:+ ": Transit " +:+ fmt_fixed 1 transit_hours +:+ "h, CAD $"
          +:+ fmt_fixed 2 cost_ton +:+ "/ton, " +:+ fmt_fixed 1 co2_ton +:+ "kg CO2/ton" |}.

(** The key of the balanced ranking; the reliabilities are not zero. *)
Definition balanced_key (o : ModalReroutingOption) : float :=
  match fdiv (mo_cost_per_ton_cad o * lit 0.5 + mo_transit_time_hours o * lit 0.5)%F (mo_reliability_score o) with
  | Ok x => x
  | Raise _ => NaN
  end.

(** The key of the ranking and the text that explains it. *)
Definition ranking (time_critical budget_constrained : bool) : (ModalReroutingOption → float) * string :=
  if time_critical then (mo_transit_time_hours, "Prioritized fastest delivery transit speed due to time-criticality.")
  else if budget_constrained then (mo_cost_per_ton_cad, "Prioritized lowest freight cost under budget constraint.")
  else (balanced_key, "Balanced optimization between cost, transit velocity, and reliability.").

(** The order of [list.sort] by a key that is a number. *)
Definition key_leb (key : ModalReroutingOption → float) (a b : ModalReroutingOption) : bool := negb (key b <? key a)%F.

Definition solve_rerouting (corridor_id origin destination : string) (distance_km : float) (time_critical budget_constrained : bool)
    : res ModalReroutingResult :=
  options ← mapM_res (modal_option origin destination distance_km) DEFAULT_MODAL_BASELINES;
  let '(key, tradeoff) := ranking time_critical budget_constrained in
  let ranked := sort_by (key_leb key) options in
  recommended ← index ranked 0;
  Ok {| mr_primary_corridor_disrupted := corridor_id; mr_recommended_mode := mo_mode recommended;
        mr_total_options_evaluated := Z.of_nat (length ranked); mr_ranked_options := ranked; mr_tradeoff_analysis := tradeoff |}.

(** ** Bills of materials: what the assessment holds *)

Lemma bom_fold disruption components s :
  let r := foldl (bom_step disruption) s components in
  bs_choke_points r = bs_choke_points s ++ (bc_component_id <$> List.filter bc_is_single_sourced components) ∧
  length (bs_bottlenecks r) =
    (length (bs_bottlenecks s) + length (List.filter (λ c, (effective_buffer disruption c <=? 0)%Z) components))%nat ∧
  bs_min_buffer_days r = foldl Z.min (bs_min_buffer_days s) ((λ c, Z.max 0 (effective_buffer disruption c)) <$> components) ∧
  ∀ t, bs_tier_risks r t = bs_tier_risks s t ++ (component_risk disruption <$> List.filter (λ c, t =? bc_tier c) components).
Proof.
  revert s. induction components as [|c l IH]; intros s; cbv zeta.
  { cbn. rewrite app_nil_r. split_and!; [done|lia|done|intros; by rewrite app_nil_r]. }
  cbn [foldl]. destruct (IH (bom_step disruption s c)) as (H1 & H2 & H3 & H4). cbv zeta in *.
  rewrite H1, H2, H3. unfold bom_step at 1 2 3. cbn [bs_choke_points bs_bottlenecks bs_min_buffer_days List.filter fmap list_fmap foldl].
  split_and!; [|..|intros t; rewrite H4; unfold bom_step; cbn [bs_tier_risks List.filter]].
  - destruct (bc_is_single_sourced c); cbn [fmap list_fmap]; by rewrite <-app_assoc.
  - rewrite length_app. destruct (_ <=? 0); cbn [length]; lia.
  - done.
  - destruct (t =? bc_tier c); [|done]. cbn [fmap list_fmap]. by rewrite <-app_assoc.
Qed.

Lemma min_fold (l : list Z) a : foldl Z.min a l <= a ∧ Forall (λ x, foldl Z.min a l <= x) l ∧ (foldl Z.min a l = a ∨ foldl Z.min a l ∈ l).
Proof.
  revert a. induction l as [|x l IH]; intros a; cbn [foldl]; [split_and!; [lia|constructor|by left]|].
  destruct (IH (Z.min a x)) as (H1 & H2 & H3). split_and!; [lia|constructor; [lia|done]|].
  destruct H3 as [->|H3]; [|right; by right]. destruct (Z.min_spec a x) as [[_ ->]|[_ ->]]; [by left|right; by left].
Qed.

Lemma component_risk_score disruption c : is_score (bc_criticality c) = true → is_score (component_risk disruption c) = true.
Proof.
  intros [Hc _]%andb_prop. unfold component_risk.
  assert (∀ (b : bool) x w, (f0 <=? x)%F = true → (f0 <=? lit w)%F = true → (f0 <=? if b then x + lit w else x)%F = true) as H.
  { intros [] x w Hx Hw; [by apply fadd_nonneg|done]. }
  assert (f0 <=? bc_criticality c * lit 0.4 = true)%F as H0 by (by apply mul_nonneg).
  apply clamp_score. destruct (_ <=? 0); [apply fadd_nonneg; [|done]|apply H; [|done]]; apply H; try done; by apply H.
Qed.

(** An average of scores is a score up to rounding. *)
Definition nearly_score (x : float) : Prop := ∃ q, x = Fin q ∧ (- (1 # 1000000) <= q ∧ q <= 1 + (1 # 1000000))%Q.

Lemma tier_average_near l : Forall (λ x, is_score x = true) l → Z.of_nat (length l) <= 2 ^ 20 →
  ∃ x, tier_average l = Ok x ∧ nearly_score x.
Proof.
  intros Hs Hl. destruct l as [|x l'] eqn:El; [exists f0; split; [done|]; exists 0%Q; split; [done|split; lra]|].
  rewrite <-El in *. assert (l ≠ []) as Hne by (by subst). replace (tier_average l) with (average l) by (by subst).
  clear El x l'. unfold average.
  assert (∃ qs, l = Fin <$> qs ∧ Forall (λ q, 0 <= q ∧ q <= 1)%Q qs) as (qs & -> & Hqs).
  { clear Hne Hl. induction Hs as [|x l (q & -> & H)%is_score_iff _ (qs & -> & Hqs)]; [by exists []|].
    exists (q :: qs). split; [done|by constructor]. }
  rewrite length_fmap in *. assert (qs ≠ []) as Hne' by (by intros ->).
  destruct (mean_near qs Hne' Hl Hqs) as (m & -> & [M1 M2]). exists (Fin m). split; [done|]. exists m. split; [done|].
  assert (1 <= nQ (length qs))%Q as Hn.
  { rewrite nQ_Z. change 1%Q with (inject_Z 1). rewrite <-Zle_Qle. destruct qs; [done|cbn; lia]. }
  assert (Forall (λ q, 0 <= q)%Q qs ∧ Forall (λ q, q <= 1)%Q qs) as [H0 H1] by (by apply Forall_and).
  pose proof (qsum_nonneg qs H0) as S0. pose proof (qsum_le_length qs H1) as S1. set (x := (qsum qs / nQ (length qs))%Q) in *.
  assert (0 <= x)%Q by (unfold x; apply Qle_shift_div_l; lra). assert (x <= 1)%Q by (unfold x; apply Qle_shift_div_r; lra).
  split; lra.
Qed.

Lemma nearly_round x : nearly_score x → is_score (fround 4 x) = true.
Proof. intros (q & -> & H1 & H2). apply round4_score; lra. Qed.

(** Rounding around one. *)
Lemma fl_small q : (-2 <= q)%Q → (q <= 2)%Q → ∃ r, fl q = Fin r ∧ near (1 # 4503599627370496) q r.
Proof.
  intros H1 H2. pose proof (eq_refl : (pow2 (1 - 53) == 1 # 4503599627370496)%Q) as U.
  destruct (fl_near 1 q) as (r & Er & R1 & R2); [lia|change (pow2 1) with 2%Q; lra..|].
  exists r. split; [done|]. rewrite U in R1, R2. by split.
Qed.

(** The weighted sum of three such averages, clamped. *)
Lemma overall_near a b c : nearly_score a → nearly_score b → nearly_score c →
  is_score (fround 4 (fmin f1 (a * lit 0.5 + b * lit 0.3 + c * lit 0.2)%F)) = true.
Proof.
  intros (x & -> & X1 & X2) (y & -> & Y1 & Y2) (z & -> & Z1 & Z2).
  assert (∃ w1 w2 w3, lit 0.5 = Fin w1 ∧ lit 0.3 = Fin w2 ∧ lit 0.2 = Fin w3 ∧ (0 <= w1 /\ 0 <= w2 /\ 0 <= w3)%Q ∧
    (w1 + w2 + w3 <= 1 + (1 # 10000000))%Q) as (w1 & w2 & w3 & -> & -> & -> & (W1 & W2 & W3) & W).
  { eexists _, _, _. do 3 (split; [vm_compute; reflexivity|]). split; [split_and!; vm_compute; discriminate|vm_compute; discriminate]. }
  assert (∀ x w, (- (1 # 1000000) <= x → x <= 1 + (1 # 1000000) → 0 <= w →
    - (1 # 1000000) * w <= x * w ∧ x * w <= (1 + (1 # 1000000)) * w)%Q) as MW by (intros; split; nra).
  destruct (MW x w1 X1 X2 W1) as [A1 A1']. destruct (MW y w2 Y1 Y2 W2) as [A2 A2']. destruct (MW z w3 Z1 Z2 W3) as [A3 A3'].
  unfold fmul. destruct (fl_small (x * w1)%Q) as (p1 & -> & P1 & P1'); [lra..|]. destruct (fl_small (y * w2)%Q) as (p2 & -> & P2 & P2'); [lra..|].
  destruct (fl_small (z * w3)%Q) as (p3 & -> & P3 & P3'); [lra..|]. unfold fadd.
  destruct (fl_small (p1 + p2)%Q) as (s1 & -> & S1 & S1'); [lra..|]. destruct (fl_small (s1 + p3)%Q) as (s2 & -> & S2 & S2'); [lra..|].
  unfold fmin. rewrite f1_eq. destruct (fltb (Fin s2) (Fin 1)) eqn:E.
  - apply fltb_Fin in E. apply round4_score; lra.
  - apply round4_score; lra.
Qed.

(** Every non-empty bill of valid components is assessed: the choke points are the
    components with a single source, in order; there is a bottleneck for each one whose
    buffer the disruption exhausts; the shortage window is the smallest remaining buffer,
    capped at 9999 days; and the four risks are scores. *)
Theorem bom_exact id name components disruption : components ≠ [] → Z.of_nat (length components) <= 2 ^ 20 →
  Forall (λ c, BOMComponent_valid c = true) components →
  ∃ a, assess_bom id name components disruption = Ok a ∧
    sb_single_source_choke_points a = bc_component_id <$> List.filter bc_is_single_sourced components ∧
    length (sb_bottlenecks a) = length (List.filter (λ c, (effective_buffer disruption c <=? 0)%Z) components) ∧
    (let w := sb_critical_shortage_window_days a in
     w <= 9999 ∧ Forall (λ c, w <= Z.max 0 (effective_buffer disruption c)) components ∧
     (w = 9999 ∨ ∃ c, c ∈ components ∧ w = Z.max 0 (effective_buffer disruption c))) ∧
    Forall (λ x, is_score x = true) [sb_overall_supply_risk a; sb_tier_1_risk a; sb_tier_2_risk a; sb_tier_3_risk a].
Proof.
  intros Hne Hlen Hv. unfold assess_bom. replace (match components with [] => true | _ => false end) with false by (by destruct components).
  cbn [raise_if mbind res_bind].
  destruct (bom_fold disruption components bom_start) as (H1 & H2 & H3 & H4). cbv zeta in *.
  set (r := foldl (bom_step disruption) bom_start components) in *.
  assert (∀ t, ∃ x, tier_average (bs_tier_risks r t) = Ok x ∧ nearly_score x) as HT.
  { intros t. rewrite H4. cbn [bom_start bs_tier_risks app]. apply tier_average_near.
    - apply Forall_fmap. apply Forall_forall. intros c [Hc _]%list_elem_of_In%filter_In.
      rewrite Forall_forall in Hv. apply component_risk_score. specialize (Hv c (proj2 (list_elem_of_In _ _) Hc)).
      unfold BOMComponent_valid in Hv. by apply andb_prop in Hv as [_ ?].
    - rewrite length_fmap. pose proof (List.filter_length_le (λ c, t =? bc_tier c) components). lia. }
  destruct (HT 1) as (a1 & -> & N1), (HT 2) as (a2 & -> & N2), (HT 3) as (a3 & -> & N3). cbn [mbind res_bind].
  unfold new_SupplyChainBOMAssessment. cbn [sb_overall_supply_risk sb_tier_1_risk sb_tier_2_risk sb_tier_3_risk].
  pose proof (overall_near _ _ _ N1 N2 N3) as N. rewrite N, !nearly_round by done. cbn [require mbind res_bind].
  eexists. split; [reflexivity|].
  cbn [sb_single_source_choke_points sb_bottlenecks sb_critical_shortage_window_days sb_overall_supply_risk sb_tier_1_risk sb_tier_2_risk sb_tier_3_risk].
  split; [done|]. split; [done|]. split; [|rewrite !Forall_cons, Forall_nil; split_and!; first [exact N|by apply nearly_round|exact I]]. cbv zeta. rewrite H3.
  cbn [bom_start bs_min_buffer_days]. destruct (min_fold ((λ c, Z.max 0 (effective_buffer disruption c)) <$> components) 9999) as (M1 & M2 & M3).
  split_and!; [done|by rewrite Forall_fmap in M2|]. destruct M3 as [->|(c & -> & Hc)%list_elem_of_fmap]; [by left|right; by exists c].
Qed.

(** ** Losses: a longer disruption never costs less *)

Lemma float_of_int_pos n : 1 <= n <= 2 ^ 52 → float_of_int n = Ok (Fin (inject_Z n)).
Proof.
  intros Hn. unfold float_of_int, f_of_Z. rewrite fl_Z by (split; [lia|]; eapply Z.le_lt_trans; [apply Hn|done]). done.
Qed.

Lemma times_mono x m n : (f0 <=? x)%F = true → 1 <= m → m <= n → n <= 2 ^ 52 →
  ∃ a b, times_days x m = Ok a ∧ times_days x n = Ok b ∧ (f0 <=? a)%F = true ∧ (a <=? b)%F = true.
Proof.
  intros Hx Hm Hn Hb. unfold times_days. rewrite !float_of_int_pos by lia. cbn [mbind res_bind].
  eexists _, _. split; [reflexivity|]. split; [reflexivity|].
  assert (1 <= inject_Z m)%Q as Q1 by (change 1%Q with (inject_Z 1); rewrite <-Zle_Qle; lia).
  assert (inject_Z m <= inject_Z n)%Q as Q2 by (rewrite <-Zle_Qle; lia).
  destruct x as [q|[]|]; [|done| |done].
  - rewrite f0_eq, fleb_Fin in Hx. split; [apply mul_nonneg; [by rewrite f0_eq, fleb_Fin|rewrite f0_eq, fltb_Fin; lra|done]|].
    change (fleb (fl (q * inject_Z m)) (fl (q * inject_Z n)) = true). apply fl_mono. nra.
  - assert (∀ k, (1 <= k)%Q → fmul (Inf false) (Fin k) = Inf false) as I.
    { intros k Hk. unfold fmul. by rewrite Qeq_bool_pos, Qneg_pos by lra. }
    by rewrite !I by lra.
Qed.

Lemma sum_mono a b a' b' : (f0 <=? a)%F = true → (f0 <=? b)%F = true → (a <=? a')%F = true → (b <=? b')%F = true →
  (f0 <=? a + b)%F = true ∧ (a + b <=? a' + b')%F = true.
Proof.
  intros Ha Hb Haa Hbb. split; [by apply fadd_nonneg|]. eapply fleb_trans; [by apply fadd_mono|].
  assert (∀ x y, (x + y)%F = (y + x)%F) as C.
  { intros [a0|[]|] [b0|[]|]; try reflexivity. change (fl (a0 + b0) = fl (b0 + a0)). apply fl_proper, Qplus_comm. }
  rewrite (C a' b), (C a' b'). apply fadd_mono; [done|done|]. exact (fleb_trans _ _ _ Ha Haa).
Qed.

(** The estimate of losses refuses a negative duration; for costs that are not
    negative it exists for every duration of at least a day, and a longer disruption
    never costs less, in total or in any of its three parts. *)
Theorem losses_monotone m n inventory vessels demurrage burn rate :
  1 <= m → m <= n → n <= 2 ^ 52 → 1 <= vessels <= 2 ^ 52 →
  (f0 <=? inventory * rate)%F = true → (f0 <=? demurrage)%F = true → (f0 <=? burn)%F = true →
  ∃ a b, calculate_losses m inventory vessels demurrage burn rate = Ok a ∧
    calculate_losses n inventory vessels demurrage burn rate = Ok b ∧
    (ed_total_estimated_loss_cad a <=? ed_total_estimated_loss_cad b)%F = true ∧
    (ed_total_holding_cost a <=? ed_total_holding_cost b)%F = true ∧
    (ed_total_demurrage_cost a <=? ed_total_demurrage_cost b)%F = true ∧
    (ed_total_production_loss_cost a <=? ed_total_production_loss_cost b)%F = true.
Proof.
  intros Hm Hn Hb Hv Hi Hd Hp. unfold calculate_losses. rewrite !(proj2 (Z.ltb_ge _ 0)) by lia. cbn [raise_if mbind res_bind].
  destruct (div_nonneg _ (lit 365) Hi) as (h & -> & Hh); [done..|]. cbn [mbind res_bind].
  rewrite float_of_int_pos by lia. cbn [mbind res_bind].
  assert (f0 <=? Fin (inject_Z vessels) * demurrage = true)%F as Hvd.
  { destruct (times_mono demurrage vessels vessels Hd) as (x & y & E & _ & N & _); [lia..|].
    unfold times_days in E. rewrite float_of_int_pos in E by lia. injection E as <-.
    assert (Fin (inject_Z vessels) * demurrage = demurrage * Fin (inject_Z vessels))%F as ->; [|done].
    destruct demurrage as [d0|[]|]; try done. change (fl (inject_Z vessels * d0) = fl (d0 * inject_Z vessels)). apply fl_proper, Qmult_comm. }
  destruct (times_mono h m n) as (h1 & h2 & -> & -> & H0 & H1); [done..|].
  destruct (times_mono (Fin (inject_Z vessels) * demurrage)%F m n) as (d1 & d2 & -> & -> & D0 & D1); [done..|].
  destruct (times_mono burn m n) as (p1 & p2 & -> & -> & P0 & P1); [done..|]. cbn [mbind res_bind].
  eexists _, _. split; [reflexivity|]. split; [reflexivity|].
  cbn [ed_total_estimated_loss_cad ed_total_holding_cost ed_total_demurrage_cost ed_total_production_loss_cost].
  destruct (sum_mono h1 d1 h2 d2) as [S0 S1]; [done..|]. destruct (sum_mono (h1 + d1)%F p1 (h2 + d2)%F p2) as [_ S2]; [done..|].
  split_and!; by apply fround_mono.
Qed.

(** ** Rerouting: the recommended mode is a best one *)

Lemma fcmp_total_leb x y z : (y <? x)%F = false → (z <? y)%F = false → y ≠ NaN → (z <? x)%F = false.
Proof.
  intros H1 H2 Hy. destruct (z <? x)%F eqn:E; [|done].
  destruct (decide (feqb x y = true)) as [Exy|Exy].
  - apply feqb_fleb in Exy as [L _]. by rewrite (fltb_fleb_trans _ _ _ E L) in H2.
  - apply not_true_is_false in Exy. assert (x ≠ NaN) as Hx by (by intros ->; destruct z as [|[]|]).
    pose proof (fltb_tricho y x Hy Hx) as T. rewrite feqb_sym in Exy. specialize (T Exy H1).
    by rewrite (fltb_fleb_trans _ _ _ E (fltb_fleb _ _ T)) in H2.
Qed.

(** A row of the table: positive factors and a reliability that is a score above zero. *)
Definition row_ok (row : TransportMode * modal_baseline) : bool :=
  let positive x := (f0 <? x)%F && isfinite x in
  positive (mb_speed_kmh row.2) && positive (mb_cost_per_ton_km row.2) && positive (mb_base_reliability row.2)
  && is_score (mb_base_reliability row.2).

(** What an option needs to be ranked. *)
Definition rankable (o : ModalReroutingOption) : Prop :=
  (f0 <=? mo_transit_time_hours o)%F = true ∧ (f0 <=? mo_cost_per_ton_cad o)%F = true ∧
  (f0 <? mo_reliability_score o)%F = true ∧ isfinite (mo_reliability_score o) = true.

Lemma modal_option_ok origin destination d row : (f0 <=? d)%F = true → row_ok row = true →
  ∃ o, modal_option origin destination d row = Ok o ∧ mo_mode o = row.1 ∧ rankable o.
Proof.
  intros Hd Hr. destruct row as [mode p]. unfold row_ok in Hr. cbn [snd] in Hr.
  apply andb_prop in Hr as [[[[S1 S2]%andb_prop [C1 C2]%andb_prop]%andb_prop [R1 R2]%andb_prop]%andb_prop Hs].
  unfold modal_option. destruct (div_nonneg d _ Hd S1 S2) as (t & -> & Ht).
  cbn [mbind res_bind]. rewrite Hs. cbn [require mbind res_bind].
  eexists. split; [reflexivity|]. split; [done|]. split_and!; cbn [mo_transit_time_hours mo_cost_per_ton_cad mo_reliability_score];
    [by apply fround_nonneg|by apply fround_nonneg, mul_nonneg|done|done].
Qed.

Lemma modal_options origin destination d rows : (f0 <=? d)%F = true → forallb row_ok rows = true →
  ∃ options, mapM_res (modal_option origin destination d) rows = Ok options ∧
    (mo_mode <$> options) = rows.*1 ∧ Forall rankable options.
Proof.
  intros Hd. induction rows as [|row rows IH]; [by exists []|]. cbn [forallb]. intros [Hr Hrows]%andb_prop.
  destruct (IH Hrows) as (options & E & Em & Ef). destruct (modal_option_ok origin destination d row Hd Hr) as (o & Eo & Hm & Ho).
  exists (o :: options). cbn [mapM_res fmap list_fmap]. rewrite Eo. cbn [mbind res_bind]. rewrite E, Hm, Em.
  split_and!; [done|done|by constructor].
Qed.

Lemma ranking_key_number tc bc o : rankable o → (ranking tc bc).1 o ≠ NaN.
Proof.
  intros (Ht & Hc & Hr1 & Hr2). unfold ranking. destruct tc; [|destruct bc]; cbn [fst]; try (by eapply fleb_not_NaN_r).
  unfold balanced_key. destruct (div_nonneg (mo_cost_per_ton_cad o * lit 0.5 + mo_transit_time_hours o * lit 0.5)%F (mo_reliability_score o))
    as (x & -> & Hx); [|done..|by eapply fleb_not_NaN_r].
  apply fadd_nonneg; by apply mul_nonneg.
Qed.

(** For every distance the solver ranks the five modes, each once, and recommends
    the first; no other mode is better by the key of the request: transit time when
    time is critical, otherwise cost under a budget, otherwise the balance of both. *)
Theorem rerouting_best corridor origin destination d tc bc : (f0 <=? d)%F = true →
  ∃ r o, solve_rerouting corridor origin destination d tc bc = Ok r ∧
    (mo_mode <$> mr_ranked_options r) ≡ₚ [MARITIME; RAIL_CPKC; RAIL_CN; LONG_HAUL_TRUCK; AIR_CARGO] ∧
    head (mr_ranked_options r) = Some o ∧ mr_recommended_mode r = mo_mode o ∧
    Forall (λ o', ((ranking tc bc).1 o' <? (ranking tc bc).1 o)%F = false) (mr_ranked_options r).
Proof.
  intros Hd. unfold solve_rerouting.
  destruct (modal_options origin destination d DEFAULT_MODAL_BASELINES Hd ltac:(vm_compute; reflexivity)) as (options & -> & Em & Hr).
  cbn [mbind res_bind]. destruct (ranking tc bc) as [key text] eqn:Ek.
  assert (Forall (λ o, key o ≠ NaN) options) as Hkey.
  { eapply Forall_impl; [exact Hr|]. intros o Ho. pose proof (ranking_key_number tc bc o Ho) as H. by rewrite Ek in H. }
  set (ranked := sort_by (key_leb key) options). assert (ranked ≡ₚ options) as Hp by apply sort_by_perm.
  assert (StronglySorted (λ x y, (key y <? key x)%F = false) ranked) as Hsort.
  { unfold ranked. clear -Hkey. induction options as [|x l IH]; cbn; [constructor|]. apply Forall_cons in Hkey as [Hx Hl].
    specialize (IH Hl). assert (Forall (λ o, key o ≠ NaN) (sort_by (key_leb key) l)) as Hs by (by rewrite sort_by_perm).
    induction IH as [|y l' Hl' IH' Hy]; cbn; [by repeat constructor|]. apply Forall_cons in Hs as [Hy' Hs].
    unfold key_leb at 1. destruct (key y <? key x)%F eqn:E; cbn [negb].
    - constructor; [by apply IH'|]. rewrite insert_by_perm. constructor; [|done].
      destruct (key x <? key y)%F eqn:E'; [|done]. pose proof (fltb_trans _ _ _ E E') as F. by rewrite fltb_irrefl in F.
    - constructor; [by constructor|]. constructor; [done|]. rewrite Forall_forall in Hy |- *. intros z Hz.
      by apply (fcmp_total_leb (key x) (key y) (key z)); [|apply Hy|]. }
  assert (length ranked = 5%nat) as Hlen.
  { unfold ranked. rewrite sort_by_length, <-(length_fmap mo_mode), Em. reflexivity. }
  clearbody ranked. destruct ranked as [|o rest]; [discriminate Hlen|]. cbn [index lookup list_lookup mbind res_bind].
  eexists _, o. split; [reflexivity|]. cbn [mr_ranked_options mr_recommended_mode fst head].
  split_and!; [by rewrite Hp, Em|done|done|]. apply StronglySorted_inv in Hsort as [_ Hs].
  constructor; [apply fltb_irrefl|done].
Qed.

(** ** Concrete inputs *)

Definition bom_item (id : string) (tier buffer : Z) (single : bool) : BOMComponent :=
  {| bc_component_id := id; bc_name := id; bc_tier := tier; bc_supplier_id := "s"; bc_origin_country := "CAN";
     bc_is_single_sourced := single; bc_lead_time_days := 10; bc_inventory_buffer_days := buffer; bc_criticality := lit 0.5;
     bc_substitutable := false |}.

Definition bom_items : list BOMComponent := [bom_item "a" 1 30 true; bom_item "b" 3 12 false].

Lemma bom_exact_witness : bom_items ≠ [] ∧ ∃ a, assess_bom "id" "radar" bom_items 20 = Ok a ∧
  sb_single_source_choke_points a = ["a"] ∧ length (sb_bottlenecks a) = 1%nat.
Proof.
  split; [discriminate|].
  assert (Forall (λ c, BOMComponent_valid c = true) bom_items) as Hv by (repeat constructor; vm_compute; reflexivity).
  destruct (bom_exact "id" "radar" bom_items 20 ltac:(discriminate) ltac:(vm_compute; discriminate) Hv) as (a & Ha & H1 & H2 & _).
  exists a. split; [exact Ha|]. rewrite H1, H2. split; reflexivity.
Defined.

Lemma losses_monotone_witness : (f0 <=? lit 1000 * lit 0.18)%F = true ∧ ∃ a b,
  calculate_losses 3 (lit 1000) 2 (lit 25000) (lit 150000) (lit 0.18) = Ok a ∧
  calculate_losses 5 (lit 1000) 2 (lit 25000) (lit 150000) (lit 0.18) = Ok b ∧
  (ed_total_estimated_loss_cad a <=? ed_total_estimated_loss_cad b)%F = true.
Proof.
  split; [vm_compute; reflexivity|].
  assert (f0 <=? lit 1000 * lit 0.18 = true)%F as Hi by (vm_compute; reflexivity).
  assert (f0 <=? lit 25000 = true)%F as Hd by (vm_compute; reflexivity).
  assert (f0 <=? lit 150000 = true)%F as Hp by (vm_compute; reflexivity).
  destruct (losses_monotone 3 5 (lit 1000) 2 (lit 25000) (lit 150000) (lit 0.18) ltac:(lia) ltac:(lia) ltac:(lia) ltac:(lia) Hi Hd Hp)
    as (a & b & Ha & Hb & H & _).
  exists a, b. split; [exact Ha|]. split; [exact Hb|exact H].
Defined.

Lemma rerouting_best_witness : (f0 <=? lit 1200)%F = true ∧ ∃ r, solve_rerouting "c" "a" "b" (lit 1200) true false = Ok r ∧
  length (mr_ranked_options r) = 5%nat.
Proof.
  assert (f0 <=? lit 1200 = true)%F as Hd by (vm_compute; reflexivity). split; [exact Hd|].
  destruct (rerouting_best "c" "a" "b" (lit 1200) true false Hd) as (r & o & Hr & Hp & _).
  exists r. split; [exact Hr|]. rewrite <-(length_fmap mo_mode), Hp. reflexivity.
Defined.

(** Times are rounded before they are compared: for a kilometre the ship, first in
    the table, is the fastest. *)
Example fastest_ship : (λ r, (mr_recommended_mode r, mo_mode <$> mr_ranked_options r)) <$> solve_rerouting "c" "a" "b" f1 true false
  = Ok (MARITIME, [MARITIME; RAIL_CPKC; RAIL_CN; LONG_HAUL_TRUCK; AIR_CARGO]).
Proof. vm_compute. reflexivity. Qed.

(** A tier without components counts as free of risk, so a bill with one component is
    rated by the weight of its tier. *)
Example empty_tiers_dilute :
  (λ a, sb_overall_supply_risk a) <$> assess_bom "id" "x" [bom_item "a" 1 0 true] 0 = Ok (lit 0.45) ∧
  (λ a, sb_overall_supply_risk a) <$> assess_bom "id" "x" [bom_item "a" 3 0 true] 0 = Ok (lit 0.18).
Proof. split; vm_compute; reflexivity. Qed.
