(* ===== verification/Wargame.v ===== *)
(** * wargame.py: disruption over time

    The mineral table, the stages of a simulation at each horizon and the fixed list of
    options.  Identifiers and the clock are arguments. *)

From Stdlib Require Import ZArith QArith Lqa.
From S2P Require Import Prelude Post PyFloat FloatError FloatMono PyFormat Domain Analysis Threat SupplyChain.

Open Scope Z_scope.

Inductive DisruptionScenarioType :=
| MARITIME_BLOCKADE
| CRITICAL_MINERAL_EMBARGO
| SCADA_CYBER_SABOTAGE
| SUBSEA_CABLE_INTERDICTION
| PERMAFROST_CORRIDOR_COLLAPSE
| EXTREME_WILDFIRE_CASCADE.

Definition DisruptionScenarioType_value (s : DisruptionScenarioType) : string :=
  match s with
  | MARITIME_BLOCKADE => "maritime_blockade"
  | CRITICAL_MINERAL_EMBARGO => "critical_mineral_embargo"
  | SCADA_CYBER_SABOTAGE => "scada_cyber_sabotage"
  | SUBSEA_CABLE_INTERDICTION => "subsea_cable_interdiction"
  | PERMAFROST_CORRIDOR_COLLAPSE => "permafrost_corridor_collapse"
  | EXTREME_WILDFIRE_CASCADE => "extreme_wildfire_cascade"
  end.

Record StrategicMineralProfile := {
  mp_mineral_id : string;
  mp_common_name : string;
  mp_domestic_reserves_rank_global : Z;
  mp_domestic_refining_capacity_percent : float;
  mp_nato_defense_prime_dependency_score : float;
  mp_primary_extraction_region : string;
  mp_stockpile_days_remaining_baseline : Z;
  mp_strategic_substitute : option string;
  mp_vulnerability_tier : string
}.

Definition CANADIAN_CRITICAL_MINERALS : dict string StrategicMineralProfile :=
  [("NICKEL",
      {| mp_mineral_id := "NICKEL"; mp_common_name := "Class-1 Battery & Armor-Grade Nickel"; mp_domestic_reserves_rank_global := 5;
         mp_domestic_refining_capacity_percent := lit 65; mp_nato_defense_prime_dependency_score := lit 0.92;
         mp_primary_extraction_region := "Sudbury & Voisey's Bay, NL"; mp_stockpile_days_remaining_baseline := 90;
         mp_strategic_substitute := Some "None for high-temperature turbine alloys"; mp_vulnerability_tier := "CRITICAL_TIER_1" |});
   ("LITHIUM",
      {| mp_mineral_id := "LITHIUM"; mp_common_name := "Battery-Grade Lithium Hydroxide"; mp_domestic_reserves_rank_global := 6;
         mp_domestic_refining_capacity_percent := lit 35; mp_nato_defense_prime_dependency_score := lit 0.88;
         mp_primary_extraction_region := "James Bay, QC & Tanco, MB"; mp_stockpile_days_remaining_baseline := 60;
         mp_strategic_substitute := Some "Sodium-ion (reduced energy density)"; mp_vulnerability_tier := "CRITICAL_TIER_1" |});
   ("COBALT",
      {| mp_mineral_id := "COBALT"; mp_common_name := "Refined Cobalt Cathode"; mp_domestic_reserves_rank_global := 4;
         mp_domestic_refining_capacity_percent := lit 70; mp_nato_defense_prime_dependency_score := lit 0.95;
         mp_primary_extraction_region := "Cobalt Camp & Port Colborne, ON"; mp_stockpile_days_remaining_baseline := 45;
         mp_strategic_substitute := Some "LFP chemistries (sub-optimal for cold weather)"; mp_vulnerability_tier := "CRITICAL_TIER_1" |});
   ("RARE_EARTHS",
      {| mp_mineral_id := "RARE_EARTHS"; mp_common_name := "Heavy Rare Earth Elements (Nd, Pr, Dy, Tb)"; mp_domestic_reserves_rank_global := 7;
         mp_domestic_refining_capacity_percent := lit 20; mp_nato_defense_prime_dependency_score := lit 0.98;
         mp_primary_extraction_region := "Nechalacho, NWT & Strange Lake, QC"; mp_stockpile_days_remaining_baseline := 30;
         mp_strategic_substitute := Some "Permanent magnet alternatives with 40% torque penalty"; mp_vulnerability_tier := "CRITICAL_TIER_1" |});
   ("URANIUM",
      {| mp_mineral_id := "URANIUM"; mp_common_name := "Triuranium Octoxide (U3O8)"; mp_domestic_reserves_rank_global := 2;
         mp_domestic_refining_capacity_percent := lit 95; mp_nato_defense_prime_dependency_score := lit 0.9;
         mp_primary_extraction_region := "Athabasca Basin, SK"; mp_stockpile_days_remaining_baseline := 180;
         mp_strategic_substitute := Some "Thorium cycles (R&D only)"; mp_vulnerability_tier := "STRATEGIC_TIER_2" |});
   ("CHROMITE",
      {| mp_mineral_id := "CHROMITE"; mp_common_name := "High-Grade Ferrochrome"; mp_domestic_reserves_rank_global := 1;
         mp_domestic_refining_capacity_percent := lit 15; mp_nato_defense_prime_dependency_score := lit 0.94;
         mp_primary_extraction_region := "Ring of Fire, Northern ON"; mp_stockpile_days_remaining_baseline := 40;
         mp_strategic_substitute := Some "None for ballistic armor plating"; mp_vulnerability_tier := "CRITICAL_TIER_1" |});
   ("NIOBIUM",
      {| mp_mineral_id := "NIOBIUM"; mp_common_name := "Ferroniobium Alloy Additive"; mp_domestic_reserves_rank_global := 2;
         mp_domestic_refining_capacity_percent := lit 85; mp_nato_defense_prime_dependency_score := lit 0.86;
         mp_primary_extraction_region := "Niobec Mine, Saint-Honoré, QC"; mp_stockpile_days_remaining_baseline := 75;
         mp_strategic_substitute := Some "Vanadium / Tantalum"; mp_vulnerability_tier := "STRATEGIC_TIER_2" |});
   ("TITANIUM",
      {| mp_mineral_id := "TITANIUM"; mp_common_name := "Titanium Sponge & Ilmenite"; mp_domestic_reserves_rank_global := 3;
         mp_domestic_refining_capacity_percent := lit 40; mp_nato_defense_prime_dependency_score := lit 0.91;
         mp_primary_extraction_region := "Lac Tio, Havre-Saint-Pierre, QC"; mp_stockpile_days_remaining_baseline := 60;
         mp_strategic_substitute := Some "Advanced carbon fiber composites"; mp_vulnerability_tier := "CRITICAL_TIER_1" |})].

Record WargameStageResult := {
  ws_day_horizon : Z;
  ws_corridor_state : string;
  ws_nato_readiness_score : float;
  ws_mineral_depletion_percentages : dict string float;
  ws_estimated_economic_loss_cad : float;
  ws_active_bottlenecks : list string
}.

Definition new_WargameStageResult (s : WargameStageResult) : res WargameStageResult :=
  _ ← require (is_score (ws_nato_readiness_score s)) "nato_readiness_score"; Ok s.

Record StrategicOption := {
  so_option_id : string;
  so_title : string;
  so_description : string;
  so_feasibility_score : float;
  so_estimated_cost_cad : float;
  so_readiness_gain_percent : float;
  so_risk_mitigation_rating : string
}.

Record WargameSimulationReport := {
  wr_simulation_id : string;
  wr_scenario_type : DisruptionScenarioType;
  wr_target_corridor_id : string;
  wr_simulated_at : datetime;
  wr_tested_horizons_days : list Z;
  wr_stages : list WargameStageResult;
  wr_critical_failure_day : option Z;
  wr_strategic_options : list StrategicOption;
  wr_executive_assessment : string
}.

Definition strategic_options : list StrategicOption :=
  [{| so_option_id := "OPT-SOT-01"; so_title := "Activate Strategic Critical Mineral Reserves & DPA";
      so_description := "Mandate allocation of domestic Class-1 Nickel, Cobalt, and Rare Earths directly to NATO Tier-1 prime contractors.";
      so_feasibility_score := lit 0.92; so_estimated_cost_cad := lit 150000000; so_readiness_gain_percent := lit 38.5;
      so_risk_mitigation_rating := "HIGH" |};
   {| so_option_id := "OPT-SOT-02"; so_title := "Execute Arctic Multi-Modal Polar Rail/Air Bridge Bypass";
      so_description := "Reroute critical mineral freight via Churchill port and CCG Heavy Icebreakers to bypass compromised southern mainlines.";
      so_feasibility_score := lit 0.78; so_estimated_cost_cad := lit 45000000; so_readiness_gain_percent := lit 24;
      so_risk_mitigation_rating := "HIGH" |};
   {| so_option_id := "OPT-SOT-03"; so_title := "Deploy EMCON-Shielded Tactical Convoy Routes";
      so_description := "Transition logistics convoys to EMCON Alpha radio silence with orbital satellite masking windows.";
      so_feasibility_score := lit 0.85; so_estimated_cost_cad := lit 12000000; so_readiness_gain_percent := lit 18;
      so_risk_mitigation_rating := "MODERATE" |}].

(** ** The simulation *)

Definition burn_rate (pressure cushion : float) : float := (f1 + pressure * lit 0.8 - cushion * lit 0.4)%F.

(** [min(100.0, (day * burn_rate / baseline_days) * 100.0)], rounded. *)
Definition depleted (day : Z) (rate : float) (baseline_days : Z) : res float :=
  burned ← times_days rate day;
  base ← float_of_int baseline_days;
  share ← fdiv burned base;
  Ok (fround 1 (fmin (lit 100) (share * lit 100)%F)).

Definition depletion_of (day : Z) (rate : float) : res (dict string float) :=
  mapM_res (λ row : string * StrategicMineralProfile,
    pct ← depleted day rate (mp_stockpile_days_remaining_baseline row.2); Ok (row.1, pct)) CANADIAN_CRITICAL_MINERALS.

Definition exhausted (depletion : dict string float) : list (string * float) := List.filter (λ m, lit 95 <=? m.2)%F depletion.

Definition readiness_of (day : Z) (pressure : float) (critical : nat) : res float :=
  d ← float_of_int day;
  share ← fdiv d (lit 180);
  Ok (fmax (lit 0.1) (f1 - share * pressure * (f1 + f_of_Z (Z.of_nat critical) * lit 0.1))%F).

Definition wargame_state (readiness : float) : string :=
  if (readiness <? lit 0.3)%F then "FUNCTIONAL_COLLAPSE"
  else if (readiness <? lit 0.6)%F then "SEVERE_DEGRADATION"
  else "OPERATIONAL_STABLE".

Definition wargame_stage (pressure cushion : float) (day : Z) : res WargameStageResult :=
  depletion ← depletion_of day (burn_rate pressure cushion);
  let critical_exhausted := exhausted depletion in
  readiness ← readiness_of day pressure (length critical_exhausted);
  burned ← times_days (lit 12500000) day;
  let econ_loss := (burned * (f1 + f_of_Z (Z.of_nat (length critical_exhausted)) * lit 0.25))%F in
  let bottlenecks := (λ m : string * float, m.1 +:+ " stockpile depleted (" +:+ str_float m.2 +:+ "%)") <$> critical_exhausted in
  new_WargameStageResult
    {| ws_day_horizon := day; ws_corridor_state := wargame_state readiness; ws_nato_readiness_score := fround 3 readiness;
       ws_mineral_depletion_percentages := depletion; ws_estimated_economic_loss_cad := fround 2 econ_loss;
       ws_active_bottlenecks := match bottlenecks with [] => ["Nominal inventory buffer holding"] | _ => bottlenecks end |}.

(** The body of the loop: the stages and the critical day. *)
Definition horizon_step (pressure cushion : float) (acc : list WargameStageResult * option Z) (day : Z)
    : res (list WargameStageResult * option Z) :=
  let '(stages, crit_day) := acc in
  stage ← wargame_stage pressure cushion day;
  let crit_day := match crit_day, exhausted (ws_mineral_depletion_percentages stage) with
                  | None, _ :: _ => Some day
                  | _, _ => crit_day
                  end in
  Ok (stages ++ [stage], crit_day).

Definition run_simulation (id : string) (now : datetime) (scenario_type : DisruptionScenarioType) (corridor_id : string)
    (horizons_days : option (list Z)) (pressure cushion : float) : res WargameSimulationReport :=
  let horizons_days := default [30; 60; 90; 180] horizons_days in
  r ← foldM (horizon_step pressure cushion) ([], None) (sort_by Z.leb horizons_days);
  let '(stages, crit_day) := r in
  Ok {| wr_simulation_id := id; wr_scenario_type := scenario_type; wr_target_corridor_id := corridor_id; wr_simulated_at := now;
        wr_tested_horizons_days := horizons_days; wr_stages := stages; wr_critical_failure_day := crit_day;
        wr_strategic_options := strategic_options;
        wr_executive_assessment :=
          "Wargame simulation under " +:+ str_upper (DisruptionScenarioType_value scenario_type) +:+ " on corridor '" +:+ corridor_id
          +:+ "'. Adversary disruption pressure: " +:+ fmt_fixed 2 pressure +:+ ". System withstands up to Day "
          +:+ (match crit_day with Some d => if d =? 0 then "180+" else str_Z d | None => "180+" end)
          +:+ " before strategic mineral exhaustion." |}.

(** ** Later horizons are never better *)

(** Products of numbers that are not negative keep the order. *)
Lemma mul_mono2 x x' y y' : (f0 <=? x)%F = true → (x <=? x')%F = true → (f0 <? y)%F = true → (y <=? y')%F = true →
  isfinite y' = true → (f0 <=? x * y)%F = true ∧ (x * y <=? x' * y')%F = true.
Proof.
  intros Hx Hxx Hy Hyy Hf. assert (f0 <? y' = true)%F as Hy' by (by eapply fltb_fleb_trans).
  destruct (positive_literal y' Hy' Hf) as (b & -> & Hb).
  assert (∃ a, y = Fin a ∧ (0 < a)%Q ∧ (a <= b)%Q) as (a & -> & Ha & Hab).
  { destruct y as [a|[]|]; try done. rewrite f0_eq, fltb_Fin in Hy. rewrite fleb_Fin in Hyy. eauto. }
  split; [by apply mul_nonneg|]. unfold fmul. rewrite !Qeq_bool_pos by done.
  destruct x as [p|[]|], x' as [q|[]|]; try done; rewrite ?Qneg_pos by done; cbn [xorb]; try done; try apply fl_extremes.
  rewrite f0_eq, !fleb_Fin in *. apply fl_mono. nra.
Qed.

Lemma one_minus_antitone x y : (f0 <=? x)%F = true → (x <=? y)%F = true → (f1 - y <=? f1 - x)%F = true.
Proof.
  intros Hx Hxy. rewrite f1_eq. destruct x as [a|[]|], y as [b|[]|]; try done.
  - change (fleb (fl (1 + - b)) (fl (1 + - a)) = true). rewrite fleb_Fin in Hxy. apply fl_mono. lra.
  - change (fleb (Inf true) (fl (1 + - a)) = true). apply fl_extremes.
Qed.

Lemma one_minus_le x : (f0 <=? x)%F = true → (f1 - x <=? f1)%F = true.
Proof. intros Hx. exact (one_minus_antitone f0 x ltac:(done) Hx). Qed.

Lemma fmax_floor c x : (f0 <=? c)%F = true → (c <=? f1)%F = true → (x <=? f1)%F = true → is_score (fmax c x) = true.
Proof.
  intros H0 H1 Hx. unfold is_score, fmax. destruct (fltb c x) eqn:E; [|by rewrite H0, H1].
  rewrite Hx. by rewrite (fleb_trans _ _ _ H0 (fltb_fleb _ _ E)).
Qed.

Section horizons.
Context (pressure cushion : float) (Hp : is_score pressure = true) (Hp0 : (f0 <? pressure)%F = true) (Hc : is_score cushion = true).

Lemma burn_rate_pos : (f0 <=? burn_rate pressure cushion)%F = true.
Proof using Hp Hc.
  clear Hp0. apply is_score_iff in Hp as (p & -> & P0 & P1). apply is_score_iff in Hc as (c & -> & C0 & C1). unfold burn_rate.
  assert (∃ w1 w2, lit 0.8 = Fin w1 ∧ lit 0.4 = Fin w2 ∧ (0 <= w1 ∧ w1 <= 81 # 100 ∧ 0 <= w2 ∧ w2 <= 41 # 100)%Q)
    as (w1 & w2 & -> & -> & W1 & W1' & W2 & W2').
  { eexists _, _. do 2 (split; [vm_compute; reflexivity|]). split_and!; vm_compute; discriminate. }
  rewrite f1_eq. unfold fmul. destruct (fl_small (p * w1)) as (x & -> & X1 & X2); [nra..|].
  destruct (fl_small (c * w2)) as (y & -> & Y1 & Y2); [nra..|]. unfold fsub, fadd, fneg.
  assert (0 <= p * w1 ∧ p * w1 <= 81 # 100 ∧ 0 <= c * w2 ∧ c * w2 <= 41 # 100)%Q as (A & A' & B & B') by (split_and!; nra).
  destruct (fl_small (1 + x)) as (s & -> & S1 & S2); [lra..|]. destruct (fl_small (s + - y)) as (r & -> & R1 & R2); [lra..|].
  rewrite f0_eq, fleb_Fin. lra.
Qed.

Lemma depleted_mono rate b m n : (f0 <=? rate)%F = true → 1 <= m → m <= n → n <= 2 ^ 52 → 1 <= b <= 2 ^ 52 →
  ∃ x y, depleted m rate b = Ok x ∧ depleted n rate b = Ok y ∧ (x <=? y)%F = true.
Proof using.
  intros Hr Hm Hn Hn' Hb. unfold depleted. destruct (times_mono rate m n Hr) as (s & t & -> & -> & H0 & H1); [done..|].
  rewrite (float_of_int_pos b) by done. cbn [mbind res_bind].
  assert (1 <= inject_Z b)%Q as Q1 by (change 1%Q with (inject_Z 1); rewrite <-Zle_Qle; lia).
  assert (f0 <? Fin (inject_Z b) = true)%F as Hb0 by (rewrite f0_eq, fltb_Fin; lra).
  destruct (div_nonneg t (Fin (inject_Z b))) as (v & Ev & Hv); [by eapply fleb_trans|done..|].
  destruct (div_mono s t (Fin (inject_Z b)) v H1 Hb0 ltac:(done) Ev) as (u & Eu & Huv). rewrite Eu, Ev. cbn [mbind res_bind].
  eexists _, _. split; [reflexivity|]. split; [reflexivity|]. apply fround_mono, fmin_mono; [done|].
  apply mul_mono; [done|vm_compute; reflexivity..].
Qed.

(** Row by row, the same minerals with no lower depletion. *)
Definition no_better (d d' : dict string float) : Prop := Forall2 (λ a b : string * float, a.1 = b.1 ∧ (a.2 <=? b.2)%F = true) d d'.

Lemma depletion_rows rate m n rows : (f0 <=? rate)%F = true → 1 <= m → m <= n → n <= 2 ^ 52 →
  Forall (λ row : string * StrategicMineralProfile, 1 <= mp_stockpile_days_remaining_baseline row.2 <= 2 ^ 52) rows →
  let f day := mapM_res (λ row : string * StrategicMineralProfile,
    pct ← depleted day rate (mp_stockpile_days_remaining_baseline row.2); Ok (row.1, pct)) rows in
  ∃ d d', f m = Ok d ∧ f n = Ok d' ∧ no_better d d' ∧ length d = length rows.
Proof using.
  intros Hr Hm Hn Hn' Hrows. cbv zeta. induction Hrows as [|row rows Hb _ IH]; [exists [], []; split_and!; done || constructor|].
  destruct IH as (d & d' & E & E' & Hd & Hl). destruct (depleted_mono rate _ m n Hr Hm Hn Hn' Hb) as (x & y & Ex & Ey & Hxy).
  cbn [mapM_res]. rewrite Ex, Ey. cbn [mbind res_bind]. rewrite E, E'. cbn [mbind res_bind].
  eexists _, _. split; [reflexivity|]. split; [reflexivity|]. split; [by constructor|cbn; by rewrite Hl].
Qed.

Lemma depletion_mono m n : 1 <= m → m <= n → n <= 2 ^ 52 →
  ∃ d d', depletion_of m (burn_rate pressure cushion) = Ok d ∧ depletion_of n (burn_rate pressure cushion) = Ok d' ∧ no_better d d' ∧
    length d = 8%nat.
Proof using Hp Hc.
  intros Hm Hn Hn'. apply depletion_rows; [apply burn_rate_pos|done..|].
  apply Forall_forall. intros row Hrow. unfold CANADIAN_CRITICAL_MINERALS in Hrow.
  repeat (apply elem_of_cons in Hrow as [->|Hrow]; [cbn; lia|]). by apply elem_of_nil in Hrow.
Qed.

Lemma exhausted_mono d d' : no_better d d' → (exhausted d).*1 ⊆ (exhausted d').*1 ∧ (length (exhausted d) <= length (exhausted d'))%nat.
Proof using.
  unfold exhausted. induction 1 as [|a b l l' [Hk Hab] _ [IH1 IH2]]; [done|]. cbn [List.filter].
  destruct (lit 95 <=? a.2)%F eqn:E.
  - rewrite (fleb_trans _ _ _ E Hab). cbn [fmap list_fmap length]. rewrite Hk. split; [|lia].
    intros x [->|Hx]%elem_of_cons; [by left|right; auto].
  - destruct (lit 95 <=? b.2)%F; cbn [fmap list_fmap length]; [|done]. split; [|lia]. intros x Hx. right. auto.
Qed.

Lemma factor_mono i j : (i <= j)%nat → (j <= 8)%nat →
  let y k := (f1 + f_of_Z (Z.of_nat k) * lit 0.1)%F in
  (f0 <? y i)%F = true ∧ (y i <=? y j)%F = true ∧ isfinite (y j) = true.
Proof using.
  intros Hij Hj. cbv zeta. assert (∃ d, j = i + d ∧ d <= 8)%nat as (d & -> & Hd) by (exists (j - i)%nat; lia).
  assert (i <= 8)%nat as Hi by lia. clear Hij.
  do 9 (destruct i as [|i]; [do 9 (destruct d as [|d]; [first [lia|vm_compute; done]|]); lia|]). lia.
Qed.

Lemma readiness_mono m n i j : 1 <= m → m <= n → n <= 2 ^ 52 → (i <= j)%nat → (j <= 8)%nat →
  ∃ x y, readiness_of m pressure i = Ok x ∧ readiness_of n pressure j = Ok y ∧ (y <=? x)%F = true ∧
    is_score x = true ∧ is_score y = true.
Proof using Hp Hp0.
  intros Hm Hn Hn' Hij Hj. unfold readiness_of. rewrite !float_of_int_pos by lia. cbn [mbind res_bind].
  assert (inject_Z m <= inject_Z n)%Q as Hmn by (by rewrite <-Zle_Qle).
  assert (0 <= inject_Z m)%Q as Hm0 by (change 0%Q with (inject_Z 0); rewrite <-Zle_Qle; lia).
  assert (f0 <? lit 180 = true)%F as H180 by (vm_compute; reflexivity).
  destruct (div_nonneg (Fin (inject_Z m)) (lit 180)) as (s & Es & Hs); [by rewrite f0_eq, fleb_Fin|done..|].
  destruct (div_nonneg (Fin (inject_Z n)) (lit 180)) as (t & Et & Ht); [rewrite f0_eq, fleb_Fin; lra|done..|].
  destruct (div_mono (Fin (inject_Z m)) (Fin (inject_Z n)) (lit 180) t) as (s' & Es' & Hst); [by rewrite fleb_Fin|done..|].
  assert (s' = s) as -> by congruence. rewrite Es, Et. cbn [mbind res_bind]. eexists _, _. split; [reflexivity|]. split; [reflexivity|].
  assert (isfinite pressure = true) as Hpf by (by apply is_score_iff in Hp as (q & -> & _)).
  pose proof (mul_nonneg s pressure Hs Hp0 Hpf) as A0. pose proof (mul_mono s t pressure Hst Hp0 Hpf) as A1.
  destruct (factor_mono i j Hij Hj) as (Y0 & Y1 & Y2). destruct (mul_mono2 _ _ _ _ A0 A1 Y0 Y1 Y2) as [B0 B1].
  pose proof (fleb_trans _ _ _ B0 B1) as B2. split_and!.
  - apply fmax_mono; [done|]. by apply one_minus_antitone.
  - apply fmax_floor; [vm_compute; reflexivity..|]. by apply one_minus_le.
  - apply fmax_floor; [vm_compute; reflexivity..|]. by apply one_minus_le.
Qed.

(** A stage no better than an earlier one. *)
Definition worsens (s s' : WargameStageResult) : Prop :=
  (ws_nato_readiness_score s' <=? ws_nato_readiness_score s)%F = true ∧
  (exhausted (ws_mineral_depletion_percentages s)).*1 ⊆ (exhausted (ws_mineral_depletion_percentages s')).*1.

Lemma stage_mono m n : 1 <= m → m <= n → n <= 2 ^ 52 →
  ∃ s s', wargame_stage pressure cushion m = Ok s ∧ wargame_stage pressure cushion n = Ok s' ∧ worsens s s' ∧
    ws_day_horizon s = m.
Proof using Hp Hp0 Hc.
  intros Hm Hn Hn'. destruct (depletion_mono m n Hm Hn Hn') as (d & d' & Ed & Ed' & Hd & Hl).
  destruct (exhausted_mono d d' Hd) as [He1 He2].
  assert (length (exhausted d') <= 8)%nat as H8.
  { unfold exhausted. rewrite <-Hl, (Forall2_length _ _ _ Hd). apply List.filter_length_le. }
  destruct (readiness_mono m n _ _ Hm Hn Hn' He2 H8) as (x & y & Ex & Ey & Hxy & Sx & Sy).
  unfold wargame_stage, times_days. rewrite Ed, Ed', !float_of_int_pos by lia. cbn [mbind res_bind]. rewrite Ex, Ey. cbn [mbind res_bind].
  unfold new_WargameStageResult. cbn [ws_nato_readiness_score]. rewrite !score_round by done. cbn [require mbind res_bind].
  eexists _, _. split; [reflexivity|]. split; [reflexivity|]. split; [|done].
  split; cbn [ws_nato_readiness_score ws_mineral_depletion_percentages]; [by apply fround_mono|done].
Qed.
End horizons.

(** The day of the first stage with an exhausted mineral. *)
Definition first_exhausted (stages : list WargameStageResult) : option Z :=
  ws_day_horizon <$> List.find (λ s, match exhausted (ws_mineral_depletion_percentages s) with [] => false | _ => true end) stages.

Lemma horizons_fold p c days stages crit : (∀ d, d ∈ days → ∃ s, wargame_stage p c d = Ok s ∧ ws_day_horizon s = d) →
  ∃ new, foldM (horizon_step p c) (stages, crit) days =
           Ok (stages ++ new, match crit with Some _ => crit | None => first_exhausted new end) ∧
    Forall2 (λ d s, wargame_stage p c d = Ok s ∧ ws_day_horizon s = d) days new.
Proof.
  revert stages crit. induction days as [|d days IH]; intros stages crit H.
  { exists []. cbn [foldM]. rewrite app_nil_r. split; [by destruct crit|constructor]. }
  destruct (H d ltac:(by left)) as (s & Hs & Hd). cbn [foldM].
  set (crit1 := match crit, exhausted (ws_mineral_depletion_percentages s) with None, _ :: _ => Some d | _, _ => crit end).
  assert (horizon_step p c (stages, crit) d = Ok (stages ++ [s], crit1)) as -> by (unfold horizon_step; by rewrite Hs).
  cbn [mbind res_bind]. destruct (IH (stages ++ [s]) crit1) as (new & -> & Hnew); [intros; apply H; by right|].
  exists (s :: new). rewrite <-app_assoc. split; [|by constructor]. f_equal. f_equal.
  subst crit1. destruct crit; [done|]. unfold first_exhausted. cbn [List.find].
  destruct (exhausted (ws_mineral_depletion_percentages s)); [done|]. cbn. by rewrite Hd.
Qed.

(** For a positive pressure and any horizons of at least a day the simulation
    returns one stage for each horizon, in ascending order; a later stage is never more
    ready and has every mineral exhausted that an earlier one has; and the critical day
    is the first stage with an exhausted mineral. *)
Theorem wargame_worsens id now scenario corridor horizons pressure cushion :
  is_score pressure = true → (f0 <? pressure)%F = true → is_score cushion = true →
  Forall (λ d, 1 <= d <= 2 ^ 52) (default [30; 60; 90; 180] horizons) →
  ∃ r, run_simulation id now scenario corridor horizons pressure cushion = Ok r ∧
    (ws_day_horizon <$> wr_stages r) = sort_by Z.leb (default [30; 60; 90; 180] horizons) ∧
    StronglySorted worsens (wr_stages r) ∧ wr_critical_failure_day r = first_exhausted (wr_stages r).
Proof.
  intros Hp Hp0 Hc Hh. unfold run_simulation. set (hs := default _ horizons) in *. set (days := sort_by Z.leb hs).
  assert (Forall (λ d, 1 <= d <= 2 ^ 52) days) as Hd by (unfold days; by rewrite sort_by_perm).
  rewrite Forall_forall in Hd.
  assert (StronglySorted Z.le days) as Hs by (apply sort_by_rel; intros; lia).
  destruct (horizons_fold pressure cushion days [] None) as (new & -> & Hnew).
  { intros d Hin. destruct (Hd d Hin). destruct (stage_mono pressure cushion Hp Hp0 Hc d d) as (s & _ & E & _ & _ & Es); [lia..|]. by exists s. }
  cbn [mbind res_bind app]. eexists. split; [reflexivity|]. cbn [wr_stages wr_critical_failure_day]. split_and!; [| |done].
  - clear -Hnew. induction Hnew as [|d s days new [_ Hd] _ IH]; [done|]. cbn [fmap list_fmap]. by rewrite Hd, IH.
  - clearbody days. clear hs Hh. revert Hs Hd. induction Hnew as [|d s days new [Es _] Hnew IH]; intros Hs Hd; [constructor|].
    apply StronglySorted_inv in Hs as [Hs Hle]. constructor; [apply IH; [done|intros; apply Hd; by right]|].
    rewrite Forall_forall in Hle. apply Forall_forall. intros s' Hin. apply list_elem_of_lookup in Hin as [i Hi].
    destruct (Forall2_lookup_r _ _ _ _ _ Hnew Hi) as (d' & Hd' & Es' & _). apply list_elem_of_lookup_2 in Hd'.
    destruct (Hd d ltac:(by left)), (Hd d' ltac:(by right)).
    destruct (stage_mono pressure cushion Hp Hp0 Hc d d') as (t & t' & Et & Et' & Hw & _); [done|by apply Hle|done|].
    congruence.
Qed.

(** ** Concrete inputs *)

Definition sample_clock : datetime := {| dt_us := 0; dt_aware := true |}.

(** The default game: rare earths are exhausted at the first horizon. *)
Lemma wargame_worsens_witness : is_score (lit 0.7) = true ∧ ∃ r,
  run_simulation "id" sample_clock MARITIME_BLOCKADE "arctic" None (lit 0.7) (lit 0.5) = Ok r ∧
  (ws_day_horizon <$> wr_stages r) = [30; 60; 90; 180] ∧ StronglySorted worsens (wr_stages r).
Proof.
  assert (is_score (lit 0.7) = true) as Hp by (vm_compute; reflexivity). assert (f0 <? lit 0.7 = true)%F as Hp0 by (vm_compute; reflexivity).
  assert (is_score (lit 0.5) = true) as Hc by (vm_compute; reflexivity).
  split; [exact Hp|]. destruct (wargame_worsens "id" sample_clock MARITIME_BLOCKADE "arctic" None (lit 0.7) (lit 0.5) Hp Hp0 Hc) as (r & Hr & Hd & Hs & _).
  - repeat constructor; vm_compute; discriminate.
  - exists r. split; [exact Hr|]. split; [exact Hd|exact Hs].
Defined.

(** Only the horizons asked for are looked at: with the single horizon of 180 days the
    report says the system withstands up to day 180. *)
Example only_tested_horizons :
  wr_critical_failure_day <$> run_simulation "id" sample_clock MARITIME_BLOCKADE "arctic" (Some [180]) (lit 0.7) (lit 0.5) = Ok (Some 180) ∧
  wr_critical_failure_day <$> run_simulation "id" sample_clock MARITIME_BLOCKADE "arctic" None (lit 0.7) (lit 0.5) = Ok (Some 30).
Proof. split; vm_compute; reflexivity. Qed.

(** The scenario changes nothing but the text. *)
Example scenario_is_a_label s s' :
  (λ r, (wr_stages r, wr_critical_failure_day r, wr_strategic_options r))
    <$> run_simulation "id" sample_clock s "arctic" None (lit 0.7) (lit 0.5) =
  (λ r, (wr_stages r, wr_critical_failure_day r, wr_strategic_options r))
    <$> run_simulation "id" sample_clock s' "arctic" None (lit 0.7) (lit 0.5).
Proof. unfold run_simulation. by destruct (foldM _ _ _) as [[]|]. Qed.
