(* ===== verification/Environmental.v ===== *)
(** * environmental.py: permafrost, wildfire and subsea hazards

    Each model turns a few readings into a risk in [0, 1], grades it by thresholds and
    builds a record whose fields are bounded.  [math.sqrt] is [Analysis.fsqrt]. *)

From Stdlib Require Import ZArith QArith Lqa.
From S2P Require Import Prelude Post PyFloat FloatError FloatMono PyFormat Domain Analysis Threat SupplyChain Wargame.

Open Scope Z_scope.

(** ** Permafrost *)

Inductive TrackStabilityStatus := STABLE_FULL_SPEED | SPEED_RESTRICTED | CRITICAL_SETTLEMENT_SUSPENSION.

Record PermafrostThawAssessment := {
  pt_assessment_id : string;
  pt_corridor_id : string;
  pt_assessed_at : datetime;
  pt_degree_days_of_thaw : float;
  pt_calculated_thaw_depth_cm : float;
  pt_settlement_risk_score : float;
  pt_stability_status : TrackStabilityStatus;
  pt_recommended_max_speed_mph : Z;
  pt_mitigation_action : string
}.

Definition new_PermafrostThawAssessment (a : PermafrostThawAssessment) : res PermafrostThawAssessment :=
  _ ← require (f0 <=? pt_degree_days_of_thaw a)%F "degree_days_of_thaw";
  _ ← require (f0 <=? pt_calculated_thaw_depth_cm a)%F "calculated_thaw_depth_cm";
  _ ← require (is_score (pt_settlement_risk_score a)) "settlement_risk_score";
  Ok a.

(** The depth the thaw reaches under the peat, in centimetres. *)
Definition thaw_depth (degree_days conductivity latent_heat peat : float) : res float :=
  let time_seconds := (degree_days * lit 86400)%F in
  let latent_heat_joules := (latent_heat * lit 1000000)%F in
  q ← fdiv (lit 2 * conductivity * time_seconds)%F latent_heat_joules;
  raw_depth_m ← fsqrt q;
  let raw_depth_cm := (raw_depth_m * lit 100)%F in
  Ok (fmax f0 (raw_depth_cm - peat * lit 0.45)%F).

(** Status, speed and action of a settlement risk. *)
Definition track_status (settlement_risk : float) : TrackStabilityStatus * Z * string :=
  if (settlement_risk >? lit 0.75)%F then
    (CRITICAL_SETTLEMENT_SUSPENSION, 0, "Suspend heavy rail traffic; dispatch ballast tamping & radar inspection crew")
  else if (settlement_risk >? lit 0.4)%F then
    (SPEED_RESTRICTED, 15, "Enforce 15 mph slow order across thaw subgrade zones; monitor thermosiphons")
  else (STABLE_FULL_SPEED, 45, "Nominal embankment conditions; continue routine geometric telemetry logging").

(** The moisture content is an argument of the code that it does not read. *)
Definition evaluate_corridor_thaw (id : string) (now : datetime) (corridor_id : string)
    (degree_days conductivity latent_heat moisture peat : float) : res PermafrostThawAssessment :=
  effective_thaw_cm ← thaw_depth degree_days conductivity latent_heat peat;
  share ← fdiv effective_thaw_cm (lit 120);
  let settlement_risk := fmin f1 share in
  let '(status, max_speed, action) := track_status settlement_risk in
  new_PermafrostThawAssessment
    {| pt_assessment_id := id; pt_corridor_id := corridor_id; pt_assessed_at := now;
       pt_degree_days_of_thaw := fround 1 degree_days; pt_calculated_thaw_depth_cm := fround 1 effective_thaw_cm;
       pt_settlement_risk_score := fround 3 settlement_risk; pt_stability_status := status;
       pt_recommended_max_speed_mph := max_speed; pt_mitigation_action := action |}.

(** ** Wildfire *)

Record WildfireCorridorAssessment := {
  wf_corridor_id : string;
  wf_fire_weather_index_fwi : float;
  wf_closest_fire_front_km : float;
  wf_corridor_closure_probability : float;
  wf_visibility_reduction_percent : float;
  wf_operational_recommendation : string
}.

Definition new_WildfireCorridorAssessment (a : WildfireCorridorAssessment) : res WildfireCorridorAssessment :=
  _ ← require (f0 <=? wf_fire_weather_index_fwi a)%F "fire_weather_index_fwi";
  _ ← require (f0 <=? wf_closest_fire_front_km a)%F "closest_fire_front_km";
  _ ← require (is_score (wf_corridor_closure_probability a)) "corridor_closure_probability";
  _ ← require ((f0 <=? wf_visibility_reduction_percent a)%F && (wf_visibility_reduction_percent a <=? lit 100)%F)
        "visibility_reduction_percent";
  Ok a.

Definition wind_multiplier (wind_speed_kmh : float) (towards_corridor : bool) : float :=
  if towards_corridor && (wind_speed_kmh >? lit 20)%F then lit 1.3 else lit 0.8.

Definition closure_probability (fwi_factor proximity_factor multiplier : float) : float :=
  fmin f1 ((fwi_factor * lit 0.4 + proximity_factor * lit 0.6) * multiplier)%F.

Definition wildfire_recommendation (closure_prob : float) : string :=
  if (closure_prob >? lit 0.7)%F then "CRITICAL: Implement precautionary shutdown and initiate modal rail/road bypass"
  else if (closure_prob >? lit 0.35)%F then "ELEVATED: Station water tender support units and enforce thermal speed limits"
  else "LOW: Corridor clear; monitor ECCC FireSmoke and Canadian Fire Information".

(** [max(0.0, 1.0 - distance / reach)] *)
Definition proximity (distance reach : float) : res float := q ← fdiv distance reach; Ok (fmax f0 (f1 - q)%F).

Definition evaluate_wildfire_risk (corridor_id : string) (fwi closest_fire_distance_km wind_speed_kmh : float)
    (wind_direction_towards_corridor : bool) : res WildfireCorridorAssessment :=
  q ← fdiv fwi (lit 40);
  let fwi_factor := fmin f1 q in
  proximity_factor ← proximity closest_fire_distance_km (lit 30);
  let closure_prob := closure_probability fwi_factor proximity_factor
                        (wind_multiplier wind_speed_kmh wind_direction_towards_corridor) in
  let visibility_loss := fmin (lit 95) (fwi_factor * lit 30 + proximity_factor * lit 60)%F in
  new_WildfireCorridorAssessment
    {| wf_corridor_id := corridor_id; wf_fire_weather_index_fwi := fround 1 fwi;
       wf_closest_fire_front_km := fround 1 closest_fire_distance_km; wf_corridor_closure_probability := fround 3 closure_prob;
       wf_visibility_reduction_percent := fround 1 visibility_loss;
       wf_operational_recommendation := wildfire_recommendation closure_prob |}.

(** ** Subsea cables *)

Record SubseaCableIntegrityAssessment := {
  sc_infrastructure_id : string;
  sc_acoustic_anomaly_level : float;
  sc_closest_unauthorized_anchoring_km : float;
  sc_integrity_score : float;
  sc_choke_point_status : string;
  sc_defense_recommendation : string
}.

Definition new_SubseaCableIntegrityAssessment (a : SubseaCableIntegrityAssessment) : res SubseaCableIntegrityAssessment :=
  _ ← require (is_score (sc_acoustic_anomaly_level a)) "acoustic_anomaly_level";
  _ ← require (is_score (sc_integrity_score a)) "integrity_score";
  Ok a.

(** [min(1.0, (acoustic * 0.55 + anchor * 0.45) * (1.0 / health))] *)
Definition subsea_composite (acoustic_score anchor_risk seabed_sensor_health : float) : res float :=
  inverse ← fdiv f1 seabed_sensor_health;
  Ok (fmin f1 ((acoustic_score * lit 0.55 + anchor_risk * lit 0.45) * inverse)%F).

Definition subsea_status (composite_risk : float) : string * string :=
  if (composite_risk >? lit 0.65)%F then
    ("HIGH_THREAT_ANOMALY", "Deploy Canadian Maritime Coastal Patrol / RCAF CP-140 for seabed inspection")
  else if (composite_risk >? lit 0.3)%F then
    ("SUSPICIOUS_SEABED_ACTIVITY", "Alert CCG MCTS to challenge vessel anchoring in cable protection zone")
  else ("NOMINAL_SEABED_INTEGRITY", "Normal acoustic background levels across seabed cable corridor").

Definition evaluate_subsea_risk (infrastructure_id : string) (acoustic_anomaly_db closest_anchoring_vessel_dist_km seabed_sensor_health : float)
    : res SubseaCableIntegrityAssessment :=
  a ← fdiv (acoustic_anomaly_db - lit 5)%F (lit 25);
  let acoustic_score := fmin f1 (fmax f0 a) in
  anchor_risk ← proximity closest_anchoring_vessel_dist_km (lit 10);
  composite_risk ← subsea_composite acoustic_score anchor_risk seabed_sensor_health;
  let integrity := fmax f0 (f1 - composite_risk)%F in
  let '(status, rec) := subsea_status composite_risk in
  new_SubseaCableIntegrityAssessment
    {| sc_infrastructure_id := infrastructure_id; sc_acoustic_anomaly_level := fround 3 acoustic_score;
       sc_closest_unauthorized_anchoring_km := fround 2 closest_anchoring_vessel_dist_km;
       sc_integrity_score := fround 3 integrity; sc_choke_point_status := status; sc_defense_recommendation := rec |}.

(** ** Shares of a reach *)

Lemma weigh_score x w : is_score x = true → (f0 <? w)%F = true → isfinite w = true → (f0 <=? x * w)%F = true.
Proof. intros [H _]%andb_prop Hw Hf. by apply mul_nonneg. Qed.

(** A nearer hazard has a greater share of its reach, a score. *)
Lemma proximity_antitone d d' reach : (f0 <=? d')%F = true → (d' <=? d)%F = true → (f0 <? reach)%F = true → isfinite reach = true →
  ∃ p p', proximity d reach = Ok p ∧ proximity d' reach = Ok p' ∧ is_score p = true ∧ is_score p' = true ∧ (p <=? p')%F = true.
Proof.
  intros Hd Hdd Hr Hf. assert (f0 <=? d = true)%F as Hd0 by (by eapply fleb_trans).
  destruct (div_nonneg d reach Hd0 Hr Hf) as (q & E & Hq). destruct (div_mono d' d reach q Hdd Hr Hf E) as (q' & E' & Hqq).
  destruct (div_nonneg d' reach Hd Hr Hf) as (q'' & E'' & Hq'). assert (q'' = q') as -> by congruence.
  unfold proximity. rewrite E, E'. cbn [mbind res_bind]. eexists _, _. split; [reflexivity|]. split; [reflexivity|]. split_and!.
  - apply fmax_floor; [done..|]. by apply one_minus_le.
  - apply fmax_floor; [done..|]. by apply one_minus_le.
  - apply fmax_mono; [done|]. by apply one_minus_antitone.
Qed.

(** A clamped quotient. *)
Lemma clamped_share x x' d : (f0 <=? x)%F = true → (x <=? x')%F = true → (f0 <? d)%F = true → isfinite d = true →
  ∃ q q', fdiv x d = Ok q ∧ fdiv x' d = Ok q' ∧ is_score (fmin f1 q) = true ∧ is_score (fmin f1 q') = true ∧
    (fmin f1 q <=? fmin f1 q')%F = true.
Proof.
  intros Hx Hxx Hd Hf. assert (f0 <=? x' = true)%F as Hx' by (by eapply fleb_trans).
  destruct (div_nonneg x' d Hx' Hd Hf) as (q' & E' & Hq'). destruct (div_mono x x' d q' Hxx Hd Hf E') as (q & E & Hqq).
  destruct (div_nonneg x d Hx Hd Hf) as (q0 & E0 & Hq). assert (q0 = q) as -> by congruence.
  exists q, q'. split_and!; [done|done|by apply clamp_score|by apply clamp_score|]. by apply fmin_mono.
Qed.

(** Two weighted scores. *)
Lemma weighted_mono x x' y y' v w : is_score x = true → is_score x' = true → is_score y = true → is_score y' = true →
  (x <=? x')%F = true → (y <=? y')%F = true → (f0 <? v)%F = true → isfinite v = true → (f0 <? w)%F = true → isfinite w = true →
  (f0 <=? x * v + y * w)%F = true ∧ (x * v + y * w <=? x' * v + y' * w)%F = true.
Proof.
  intros Hx Hx' Hy Hy' Hxx Hyy Hv Hvf Hw Hwf. apply sum_mono.
  - by apply weigh_score.
  - by apply weigh_score.
  - by apply mul_mono.
  - by apply mul_mono.
Qed.

(** ** Wildfire: total, and never lower for a nearer or fiercer fire *)

Lemma visibility_cap : (fround 1 (lit 95) <=? lit 100)%F = true.
Proof. vm_compute. reflexivity. Qed.

Lemma visibility_bounds x : (f0 <=? x)%F = true →
  ((f0 <=? fround 1 (fmin (lit 95) x))%F && (fround 1 (fmin (lit 95) x) <=? lit 100)%F) = true.
Proof.
  intros Hx. apply andb_true_intro. split.
  - apply fround_nonneg, clamp_nonneg; [vm_compute; reflexivity|by left].
  - eapply fleb_trans; [|apply visibility_cap]. apply fround_mono.
    unfold fmin. destruct (fltb x (lit 95)) eqn:E; [by apply fltb_fleb|vm_compute; reflexivity].
Qed.

(** For an index and a distance that are not negative the assessment exists, and a
    higher index or a nearer front never lowers the probability of closure or the loss
    of visibility. *)
Theorem wildfire_monotone corridor fwi fwi' d d' wind towards :
  (f0 <=? fwi)%F = true → (fwi <=? fwi')%F = true → (f0 <=? d')%F = true → (d' <=? d)%F = true →
  ∃ a a', evaluate_wildfire_risk corridor fwi d wind towards = Ok a ∧ evaluate_wildfire_risk corridor fwi' d' wind towards = Ok a' ∧
    (wf_corridor_closure_probability a <=? wf_corridor_closure_probability a')%F = true ∧
    (wf_visibility_reduction_percent a <=? wf_visibility_reduction_percent a')%F = true.
Proof.
  intros Hf Hff Hd Hdd. assert (f0 <=? fwi' = true)%F as Hf' by exact (fleb_trans _ _ _ Hf Hff).
  assert (f0 <=? d = true)%F as Hd0 by exact (fleb_trans _ _ _ Hd Hdd).
  destruct (clamped_share fwi fwi' (lit 40)) as (q & q' & E & E' & Sq & Sq' & Hqq); [done..|].
  destruct (proximity_antitone d d' (lit 30)) as (p & p' & P & P' & Sp & Sp' & Hpp); [done..|].
  unfold evaluate_wildfire_risk. rewrite E, E', P, P'. cbn [mbind res_bind]. clear E E' P P'.
  set (x := fmin f1 q) in *. set (x' := fmin f1 q') in *. clearbody x x'.
  set (m := wind_multiplier wind towards).
  assert ((f0 <? m)%F = true ∧ isfinite m = true) as [M0 M1] by (unfold m, wind_multiplier; by destruct (towards && _)).
  destruct (weighted_mono x x' p p' (lit 0.4) (lit 0.6)) as [C0 C1]; [done..|].
  destruct (weighted_mono x x' p p' (lit 30) (lit 60)) as [V0 V1]; [done..|].
  assert (f0 <=? x' * lit 0.4 + p' * lit 0.6 = true)%F as C0' by exact (fleb_trans _ _ _ C0 C1).
  assert (f0 <=? x' * lit 30 + p' * lit 60 = true)%F as V0' by exact (fleb_trans _ _ _ V0 V1).
  unfold new_WildfireCorridorAssessment, closure_probability, wf_fire_weather_index_fwi, wf_closest_fire_front_km,
    wf_corridor_closure_probability, wf_visibility_reduction_percent.
  rewrite (fround_nonneg 1 fwi), (fround_nonneg 1 fwi'), (fround_nonneg 1 d), (fround_nonneg 1 d') by assumption.
  rewrite !score_round by (apply clamp_score, mul_nonneg; assumption).
  rewrite !visibility_bounds by assumption. cbn [require raise_if negb andb mbind res_bind]. eexists _, _.
  split; [reflexivity|]. split; [reflexivity|]. split; apply fround_mono, fmin_mono; [done| |done|done]. by apply mul_mono.
Qed.

(** ** Permafrost: insulation never hurts *)

(** What is subtracted lowers the clamped difference. *)
Lemma clamped_sub x y y' : x ≠ NaN → (f0 <=? y)%F = true → (y <=? y')%F = true → (fmax f0 (x - y') <=? fmax f0 (x - y))%F = true.
Proof.
  intros Hx Hy Hyy. destruct (decide ((x - y')%F = NaN)) as [H0|N].
  { rewrite H0. change (fmax f0 NaN) with f0. unfold fmax. destruct (fltb f0 (x - y)%F) eqn:E; [by apply fltb_fleb|reflexivity]. }
  apply fmax_mono; [discriminate|]. destruct x as [a|[]|], y as [b|[]|], y' as [c|[]|]; try done.
  - apply fl_mono. rewrite fleb_Fin in Hyy. lra.
  - change (fleb (Inf true) (fl (a + - b)) = true). apply fl_extremes.
Qed.

(** The root of a number that is not negative is a number. *)
Lemma fsqrt_number x : (f0 <=? x)%F = true → ∃ r, fsqrt x = Ok r ∧ r ≠ NaN.
Proof.
  destruct x as [q|[]|]; intros Hx; try done; [|by eexists]. rewrite f0_eq, fleb_Fin in Hx. unfold fsqrt.
  assert (Qneg q = false) as ->. { unfold Qneg. by rewrite (proj2 (Qle_bool_iff 0 q) Hx). }
  destruct (Qeq_bool q 0); [by eexists|]. cbn zeta. eexists. split; [reflexivity|]. apply fl_not_NaN.
Qed.

Definition faster (s s' : TrackStabilityStatus * Z * string) : Prop := s.1.2 ≤ s'.1.2.

(** A lower risk never gives a lower speed. *)
Lemma track_status_antitone x y : (x <=? y)%F = true → faster (track_status y) (track_status x).
Proof.
  intros H. unfold faster, track_status.
  destruct (x >? lit 0.75)%F eqn:A.
  { by rewrite (fltb_fleb_trans _ _ _ A H). }
  destruct (x >? lit 0.4)%F eqn:B.
  { rewrite (fltb_fleb_trans _ _ _ B H). by destruct (y >? lit 0.75)%F. }
  destruct (y >? lit 0.75)%F; [done|]. by destruct (y >? lit 0.4)%F.
Qed.

Section thaw.
Context (degree_days conductivity latent_heat : float).
Context (Hd : (f0 <=? degree_days)%F = true) (Hc : (f0 <? lit 2 * conductivity)%F = true) (Hc' : isfinite (lit 2 * conductivity)%F = true).
Context (Hl : (f0 <? latent_heat * lit 1000000)%F = true) (Hl' : isfinite (latent_heat * lit 1000000)%F = true).

Lemma mul_comm_f x y : (x * y)%F = (y * x)%F.
Proof using.
  destruct x as [a|[]|], y as [b|[]|]; try done. change (fl (a * b) = fl (b * a)). apply fl_proper, Qmult_comm.
Qed.

(** The depth before the peat: every cover gives its clamped difference from it. *)
Lemma thaw_depth_raw : ∃ raw, raw ≠ NaN ∧
  ∀ peat, thaw_depth degree_days conductivity latent_heat peat = Ok (fmax f0 (raw - peat * lit 0.45)%F).
Proof using Hd Hc Hc' Hl Hl'.
  assert (f0 <=? degree_days * lit 86400 = true)%F as Ht by (by apply mul_nonneg).
  assert (f0 <=? lit 2 * conductivity * (degree_days * lit 86400) = true)%F as Hq.
  { rewrite (mul_comm_f (lit 2 * conductivity)%F). by apply mul_nonneg. }
  destruct (div_nonneg _ _ Hq Hl Hl') as (q & E & Hq0). destruct (fsqrt_number q Hq0) as (r & Er & Hr).
  exists (r * lit 100)%F. split.
  - destruct r as [a|[]|]; try done. apply fl_not_NaN.
  - intros peat. unfold thaw_depth. rewrite E. cbn [mbind res_bind]. by rewrite Er.
Qed.

(** For positive soil parameters the assessment exists for every amount of thaw
    and every cover of peat, with the status of its table, and more peat never raises
    the depth or the risk and never lowers the speed. *)
Theorem thaw_insulation id now corridor moisture moisture' peat peat' :
  (f0 <=? peat * lit 0.45)%F = true → (peat <=? peat')%F = true →
  ∃ a a', evaluate_corridor_thaw id now corridor degree_days conductivity latent_heat moisture peat = Ok a ∧
    evaluate_corridor_thaw id now corridor degree_days conductivity latent_heat moisture' peat' = Ok a' ∧
    (pt_calculated_thaw_depth_cm a' <=? pt_calculated_thaw_depth_cm a)%F = true ∧
    (pt_settlement_risk_score a' <=? pt_settlement_risk_score a)%F = true ∧
    pt_recommended_max_speed_mph a ≤ pt_recommended_max_speed_mph a'.
Proof using Hd Hc Hc' Hl Hl'.
  intros Hp Hpp. destruct thaw_depth_raw as (raw & Hraw & Hdepth). unfold evaluate_corridor_thaw. rewrite !Hdepth. cbn [mbind res_bind].
  assert (fmax f0 (raw - peat' * lit 0.45) <=? fmax f0 (raw - peat * lit 0.45) = true)%F as Hm.
  { apply clamped_sub; [done|done|]. by apply mul_mono. }
  set (D := fmax f0 (raw - peat * lit 0.45)%F) in *. set (D' := fmax f0 (raw - peat' * lit 0.45)%F) in *.
  assert (f0 <=? D' = true)%F as H0 by apply fmax0_nonneg. clearbody D D'. clear Hdepth Hraw.
  assert (f0 <=? D = true)%F as H1 by exact (fleb_trans _ _ _ H0 Hm).
  destruct (clamped_share D' D (lit 120)) as (q' & q & -> & -> & S' & S & Hqq); [done..|]. cbn [mbind res_bind].
  set (R := fmin f1 q) in *. set (R' := fmin f1 q') in *. clearbody R R'.
  pose proof (track_status_antitone _ _ Hqq) as Hs. unfold faster in Hs.
  destruct (track_status R) as [[st sp] ac], (track_status R') as [[st' sp'] ac']. cbn [fst snd] in Hs.
  unfold new_PermafrostThawAssessment, pt_degree_days_of_thaw, pt_calculated_thaw_depth_cm, pt_settlement_risk_score.
  rewrite (fround_nonneg 1 degree_days), (fround_nonneg 1 D), (fround_nonneg 1 D') by assumption.
  rewrite !score_round by assumption. cbn [require mbind res_bind]. eexists _, _. split; [reflexivity|]. split; [reflexivity|].
  split; [by apply fround_mono|]. split; [by apply fround_mono|exact Hs].
Qed.

End thaw.

(** ** Subsea cables: a louder or nearer threat never looks safer *)

Lemma sub_const x y c : (x <=? y)%F = true → (x - Fin c <=? y - Fin c)%F = true.
Proof.
  intros H. destruct x as [a|[]|], y as [b|[]|]; try done.
  - change (fleb (fl (a + - c)) (fl (b + - c)) = true). rewrite fleb_Fin in H. apply fl_mono. lra.
  - change (fleb (fl (a + - c)) (Inf false) = true). apply fl_extremes.
  - change (fleb (Inf true) (fl (b + - c)) = true). apply fl_extremes.
Qed.

(** The sensor health divides: its inverse is a positive number. *)
Lemma inverse_health h : (lit 0.01 <=? h)%F = true → (h <=? f1)%F = true →
  ∃ i, fdiv f1 h = Ok i ∧ (f0 <? i)%F = true ∧ isfinite i = true.
Proof.
  intros H0 H1. assert (f0 <? h = true)%F as Hp by (eapply fltb_fleb_trans; [|exact H0]; vm_compute; reflexivity).
  assert (isfinite h = true) as Hf by (by destruct h as [|[]|]).
  assert (f1 <=? f1 = true)%F as H11 by reflexivity. destruct (div_nonneg f1 h eq_refl Hp Hf) as (i & E & _). exists i. split; [exact E|].
  destruct (positive_literal h Hp Hf) as (q & -> & Hq). unfold fdiv in E. rewrite Qeq_bool_pos in E by done.
  rewrite f1_eq in *. injection E as <-. rewrite fleb_Fin in H1.
  assert (∃ k, lit 0.01 = Fin k ∧ (1 # 101 <= k)%Q) as (k & Ek & Hk) by (eexists; split; [vm_compute; reflexivity|vm_compute; discriminate]).
  rewrite Ek, fleb_Fin in H0.
  assert (fleb (Fin 1) (fl (1 / q)) = true) as L.
  { rewrite <-fl_1. apply fl_mono. apply Qle_shift_div_l; [done|]. lra. }
  assert (fleb (fl (1 / q)) (fl 101) = true) as U.
  { apply fl_mono. apply Qle_shift_div_r; [done|]. lra. }
  split.
  - eapply fltb_fleb_trans; [|exact L]. reflexivity.
  - assert (isfinite (fl 101) = true) as F101 by (vm_compute; reflexivity).
    destruct (fl (1 / q)) as [|[]|]; [done|done| |done]. by destruct (fl 101) as [|[]|].
Qed.

(** A sensor of health zero raises [ZeroDivisionError]; otherwise, from a health of one
    per cent, the assessment exists, and a louder anomaly or a nearer vessel never
    raises the integrity score. *)
Theorem subsea_monotone infrastructure noise noise' d d' h :
  (noise <=? noise')%F = true → (f0 <=? d')%F = true → (d' <=? d)%F = true →
  (lit 0.01 <=? h)%F = true → (h <=? f1)%F = true →
  evaluate_subsea_risk infrastructure noise d f0 = Raise ZeroDivisionError ∧
  ∃ a a', evaluate_subsea_risk infrastructure noise d h = Ok a ∧ evaluate_subsea_risk infrastructure noise' d' h = Ok a' ∧
    (sc_integrity_score a' <=? sc_integrity_score a)%F = true ∧ (sc_acoustic_anomaly_level a <=? sc_acoustic_anomaly_level a')%F = true.
Proof.
  intros Hnn Hd Hdd H0 H1. unfold evaluate_subsea_risk.
  destruct (proximity_antitone d d' (lit 10)) as (p & p' & -> & -> & Sp & Sp' & Hpp); [done..|].
  assert (∃ c, lit 5 = Fin c) as [c ->] by (eexists; vm_compute; reflexivity).
  pose proof (sub_const _ _ c Hnn) as Hs.
  assert (∃ z, fdiv (noise' - Fin c)%F (lit 25) = Ok z) as [z' Ez'].
  { assert (∃ k, lit 25 = Fin k ∧ Qeq_bool k 0 = false) as (k & -> & Hk) by (eexists; split; vm_compute; reflexivity).
    unfold fdiv. rewrite Hk. destruct (noise' - Fin c)%F as [|[]|]; by eexists. }
  destruct (div_mono _ _ (lit 25) z' Hs eq_refl eq_refl Ez') as (z & Ez & Hz). rewrite Ez, Ez'. cbn [mbind res_bind].
  split. { reflexivity. }
  destruct (inverse_health h H0 H1) as (i & Ei & I0 & If). unfold subsea_composite. rewrite Ei. cbn [mbind res_bind].
  set (x := fmin f1 (fmax f0 z)) in *. set (x' := fmin f1 (fmax f0 z')) in *.
  assert (x <=? x' = true)%F as Hxx by (apply fmin_mono; [discriminate|]; apply fmax_mono; [discriminate|exact Hz]).
  assert (is_score x = true) as Sx by (apply clamp_score, fmax0_nonneg).
  assert (is_score x' = true) as Sx' by (apply clamp_score, fmax0_nonneg). clearbody x x'.
  destruct (weighted_mono x x' p p' (lit 0.55) (lit 0.45)) as [C0 C1]; [done..|].
  assert (f0 <=? x' * lit 0.55 + p' * lit 0.45 = true)%F as C0' by exact (fleb_trans _ _ _ C0 C1).
  pose proof (mul_nonneg _ i C0 I0 If) as M0. pose proof (mul_nonneg _ i C0' I0 If) as M0'. pose proof (mul_mono _ _ i C1 I0 If) as M1.
  pose proof (clamp_score _ M0) as S0. pose proof (clamp_score _ M0') as S0'. pose proof (fmin_mono f1 _ _ ltac:(discriminate) M1) as M.
  set (R := fmin f1 ((x * lit 0.55 + p * lit 0.45) * i)%F) in *. set (R' := fmin f1 ((x' * lit 0.55 + p' * lit 0.45) * i)%F) in *. clearbody R R'.
  destruct (subsea_status R) as [st rc], (subsea_status R') as [st' rc'].
  unfold new_SubseaCableIntegrityAssessment, sc_acoustic_anomaly_level, sc_integrity_score.
  assert (is_score (fmax f0 (f1 - R)%F) = true) as I1 by (apply fmax_floor; [done..|]; apply one_minus_le, score_nonneg, S0).
  assert (is_score (fmax f0 (f1 - R')%F) = true) as I1' by (apply fmax_floor; [done..|]; apply one_minus_le, score_nonneg, S0').
  rewrite !score_round by assumption. cbn [require mbind res_bind]. eexists _, _. split; [reflexivity|]. split; [reflexivity|].
  split; [|by apply fround_mono]. apply fround_mono, fmax_mono; [discriminate|]. apply one_minus_antitone; [apply score_nonneg, S0|exact M].
Qed.

(** ** Concrete inputs *)

(** A fire 5 km away instead of 20. *)
Lemma wildfire_monotone_witness : (f0 <=? lit 20)%F = true ∧ ∃ a a',
  evaluate_wildfire_risk "hwy-3" (lit 20) (lit 20) (lit 25) true = Ok a ∧
  evaluate_wildfire_risk "hwy-3" (lit 20) (lit 5) (lit 25) true = Ok a' ∧
  (wf_corridor_closure_probability a <=? wf_corridor_closure_probability a')%F = true.
Proof.
  assert (f0 <=? lit 20 = true)%F as H0 by (vm_compute; reflexivity). assert (lit 20 <=? lit 20 = true)%F as H1 by (vm_compute; reflexivity).
  assert (f0 <=? lit 5 = true)%F as H2 by (vm_compute; reflexivity). assert (lit 5 <=? lit 20 = true)%F as H3 by (vm_compute; reflexivity).
  split; [exact H0|]. destruct (wildfire_monotone "hwy-3" (lit 20) (lit 20) (lit 20) (lit 5) (lit 25) true H0 H1 H2 H3) as (a & a' & Ha & Ha' & H & _).
  exists a, a'. split; [exact Ha|]. split; [exact Ha'|exact H].
Defined.

(** The default soil after 1200 degree days, under 15 and 40 cm of peat. *)
Lemma thaw_insulation_witness : (f0 <=? lit 1200)%F = true ∧ ∃ a a',
  evaluate_corridor_thaw "id" sample_clock "hudson-bay" (lit 1200) (lit 1.4) (lit 180) (lit 0.28) (lit 15) = Ok a ∧
  evaluate_corridor_thaw "id" sample_clock "hudson-bay" (lit 1200) (lit 1.4) (lit 180) (lit 0.28) (lit 40) = Ok a' ∧
  pt_recommended_max_speed_mph a ≤ pt_recommended_max_speed_mph a'.
Proof.
  assert (f0 <=? lit 1200 = true)%F as H0 by (vm_compute; reflexivity).
  assert (f0 <? lit 2 * lit 1.4 = true)%F as H1 by (vm_compute; reflexivity). assert (isfinite (lit 2 * lit 1.4)%F = true) as H2 by (vm_compute; reflexivity).
  assert (f0 <? lit 180 * lit 1000000 = true)%F as H3 by (vm_compute; reflexivity).
  assert (isfinite (lit 180 * lit 1000000)%F = true) as H4 by (vm_compute; reflexivity).
  assert (f0 <=? lit 15 * lit 0.45 = true)%F as H5 by (vm_compute; reflexivity). assert (lit 15 <=? lit 40 = true)%F as H6 by (vm_compute; reflexivity).
  split; [exact H0|].
  destruct (thaw_insulation (lit 1200) (lit 1.4) (lit 180) H0 H1 H2 H3 H4 "id" sample_clock "hudson-bay" (lit 0.28) (lit 0.28) (lit 15) (lit 40) H5 H6)
    as (a & a' & Ha & Ha' & _ & _ & H).
  exists a, a'. split; [exact Ha|]. split; [exact Ha'|exact H].
Defined.

(** The default sensor, with a vessel at 6 and at 1 km. *)
Lemma subsea_monotone_witness : (lit 12 <=? lit 12)%F = true ∧ ∃ a a',
  evaluate_subsea_risk "cable" (lit 12) (lit 6) (lit 0.95) = Ok a ∧ evaluate_subsea_risk "cable" (lit 12) (lit 1) (lit 0.95) = Ok a' ∧
  (sc_integrity_score a' <=? sc_integrity_score a)%F = true.
Proof.
  assert (lit 12 <=? lit 12 = true)%F as H1 by (vm_compute; reflexivity).
  assert (f0 <=? lit 1 = true)%F as H2 by (vm_compute; reflexivity). assert (lit 1 <=? lit 6 = true)%F as H3 by (vm_compute; reflexivity).
  assert (lit 0.01 <=? lit 0.95 = true)%F as H4 by (vm_compute; reflexivity). assert (lit 0.95 <=? f1 = true)%F as H5 by (vm_compute; reflexivity).
  split; [exact H1|]. destruct (subsea_monotone "cable" (lit 12) (lit 12) (lit 6) (lit 1) (lit 0.95) H1 H2 H3 H4 H5) as (_ & a & a' & Ha & Ha' & H & _).
  exists a, a'. split; [exact Ha|]. split; [exact Ha'|exact H].
Defined.

(** An anchored vessel on the cable with a quiet sensor is not a high threat; a worn
    sensor makes it one. *)
Example worn_sensor :
  (sc_choke_point_status <$> evaluate_subsea_risk "cable" (lit 5) f0 (lit 0.95)) = Ok "SUSPICIOUS_SEABED_ACTIVITY" ∧
  (sc_choke_point_status <$> evaluate_subsea_risk "cable" (lit 5) f0 (lit 0.6)) = Ok "HIGH_THREAT_ANOMALY".
Proof. split; vm_compute; reflexivity. Qed.
