(* ===== verification/Strategic.v ===== *)
(** * strategic.py: heat map, alerts and recommendations

    Observations are ordered by time and grouped by metric; each group gives a
    cell of the heat map, each hot cell an alert, each alert a recommendation
    for a human.  [uuid5] of the standard library (a name-based identifier) is an
    argument. *)

From Stdlib Require Import ZArith QArith Lqa Lia.
From S2P Require Import Prelude Post PyFloat FloatError PyFormat Domain Sources Fusion Analysis.

Open Scope Z_scope.

Record StrategicAnalysisRequest := {
  st_observations : list Observation;
  st_regression : option RegressionRequest;
  st_alert_threshold : float;
  st_freshness_half_life_hours : float;
  st_coordination_scope : string;
  st_alert_cooldown_seconds : Z
}.

Definition StrategicAnalysisRequest_valid (r : StrategicAnalysisRequest) : bool :=
  count_between 1 10000 (st_observations r) && is_score (st_alert_threshold r)
  && (st_freshness_half_life_hours r >? f0)%F && (st_freshness_half_life_hours r <=? lit 720)%F
  && (2 <=? str_len (st_coordination_scope r)) && (str_len (st_coordination_scope r) <=? 128)
  && (60 <=? st_alert_cooldown_seconds r) && (st_alert_cooldown_seconds r <=? 86400)
  && match st_regression r with Some g => RegressionRequest_valid g | None => true end.

Record HeatmapCell := {
  hc_dimension : string;
  hc_source_ids : list string;
  hc_observation_count : nat;
  hc_latest_value : float;
  hc_normalized_intensity : float;
  hc_confidence : float;
  hc_freshness : float;
  hc_heat_score : float;
  hc_quality_flags : list string
}.

Record StrategicAlert := {
  al_alert_id : string;
  al_alert_key : string;
  al_dimension : string;
  al_severity : string;
  al_score : float;
  al_rationale : list string;
  al_source_ids : list string;
  al_requires_human_review : bool;
  al_delivery_state : string;
  al_escalation_due_at : option datetime
}.

Record SourceFreshness := {
  sf_source_id : string;
  sf_latest_observed_at : datetime;
  sf_age_hours : float;
  sf_freshness : float;
  sf_stale : bool
}.

Record CoordinationRecommendation := {
  cn_priority : nat;
  cn_scope : string;
  cn_action : string;
  cn_rationale : string;
  cn_approval_required : bool
}.

Record StrategicAnalysisReport := {
  sp_contract_version : string;
  sp_report_id : string;
  sp_generated_at : datetime;
  sp_observation_count : nat;
  sp_window_start : datetime;
  sp_window_end : datetime;
  sp_heatmap : list HeatmapCell;
  sp_alerts : list StrategicAlert;
  sp_coordination : list CoordinationRecommendation;
  sp_source_freshness : list SourceFreshness;
  sp_regression : option RegressionResult;
  sp_predictive_status : string;
  sp_limitations : list string
}.

(** ** The parts *)

Definition clamp (value : float) : float := fmax f0 (fmin f1 value).

Definition observed_leb (a b : Observation) : bool := dt_us (obs_observed_at a) <=? dt_us (obs_observed_at b).

(** [max(values, key=lambda item: item.observed_at)]: the first of the latest. *)
Definition newest (first : Observation) (rest : list Observation) : Observation :=
  foldl (λ best o, if dt_us (obs_observed_at best) <? dt_us (obs_observed_at o) then o else best) first rest.

(** [max(abs(item.value) for item in values) or 1.0] *)
Definition maximum (first : Observation) (rest : list Observation) : float :=
  let m := foldl (λ m o, fmax m (fabs (obs_value o))) (fabs (obs_value first)) rest in
  if feqb m f0 then lit 1 else m.

(** [grouped.setdefault(str(observation.metric), []).append(observation)] *)
Definition grouped (ordered : list Observation) : dict string (list Observation) :=
  foldl (λ d o, dappend d (MetricName_value (obs_metric o)) o) [] ordered.

Definition group_leb (a b : string * list Observation) : bool := str_leb a.1 b.1.

Definition sorted_set (l : list string) : list string := sort_by str_leb (set_of l).

Section strategic.
Context `{LibM} `{Square} (uuid5 : string → string).

(** [max(0.0, (latest - observed_at) / hours)] and its decay. *)
Definition age_of (latest : datetime) (o : Observation) : res float :=
  h ← hours_between latest (obs_observed_at o); Ok (fmax f0 h).

Definition decay (age half_life : float) : res float :=
  x ← fdiv (fneg age * lit 0.69314718056)%F half_life; Ok (m_exp x).

Definition source_freshness (latest : datetime) (half_life : float) (ordered : list Observation) (source_id : string)
    : res SourceFreshness :=
  match List.filter (λ o, str_eqb (obs_source_id o) source_id) ordered with
  | [] => Raise (ValueError "max() iterable argument is empty")
  | first :: rest =>
      let newest_source := newest first rest in
      age_hours ← age_of latest newest_source;
      freshness ← decay age_hours half_life;
      Ok {| sf_source_id := source_id; sf_latest_observed_at := obs_observed_at newest_source;
            sf_age_hours := age_hours; sf_freshness := freshness; sf_stale := (age_hours >? half_life * lit 2)%F |}
  end.

Definition heatmap_cell (latest : datetime) (half_life : float) (group : string * list Observation) : res HeatmapCell :=
  match group.2 with
  | [] => Raise (ValueError "max() iterable argument is empty")
  | first :: rest =>
      let values := first :: rest in
      let newest_value := newest first rest in
      age_hours ← age_of latest newest_value;
      freshness ← decay age_hours half_life;
      ratio ← fdiv (fabs (obs_value newest_value)) (maximum first rest);
      let intensity := clamp ratio in
      mean ← fdiv (fsum (obs_confidence <$> values)) (f_of_Z (Z.of_nat (length values)));
      let confidence := clamp mean in
      Ok {| hc_dimension := group.1; hc_source_ids := sorted_set (obs_source_id <$> values);
            hc_observation_count := length values; hc_latest_value := obs_value newest_value;
            hc_normalized_intensity := intensity; hc_confidence := confidence; hc_freshness := freshness;
            hc_heat_score := clamp (intensity * confidence * freshness)%F; hc_quality_flags := [] |}
  end.

Definition alert_key (cell : HeatmapCell) : string := hc_dimension cell +:+ ":" +:+ str_join "," (hc_source_ids cell).

Definition alert_rationale (threshold : float) (cell : HeatmapCell) : list string :=
  [hc_dimension cell +:+ " heat score " +:+ fmt_fixed 3 (hc_heat_score cell) +:+ " exceeds threshold "
     +:+ fmt_fixed 3 threshold;
   "freshness=" +:+ fmt_fixed 3 (hc_freshness cell) +:+ ", confidence=" +:+ fmt_fixed 3 (hc_confidence cell)]
  ++ match hc_quality_flags cell with
     | [] => []
     | flags => ["quality flags present: " +:+ str_join ", " flags]
     end.

(** The alert of a cell.  [dimension] is the variable of the loop over the groups,
    which keeps its last value after that loop. *)
Definition alert_of (threshold : float) (dimension : string) (cell : HeatmapCell) : StrategicAlert :=
  let key := alert_key cell in
  {| al_alert_id := uuid5 ("continuityos:strategic:" +:+ key); al_alert_key := key; al_dimension := dimension;
     al_severity := if (hc_heat_score cell >=? lit 0.85)%F then "critical" else "high";
     al_score := hc_heat_score cell; al_rationale := alert_rationale threshold cell;
     al_source_ids := hc_source_ids cell; al_requires_human_review := true; al_delivery_state := "ready";
     al_escalation_due_at := None |}.

(** [(-item.score, item.dimension)] in lexicographic order. *)
Definition alert_leb (a b : StrategicAlert) : bool :=
  if feqb (al_score a) (al_score b) then str_leb (al_dimension a) (al_dimension b)
  else (al_score b <? al_score a)%F.

Definition hot (threshold : float) (cell : HeatmapCell) : bool := negb (hc_heat_score cell <? threshold)%F.

Definition alerts_of (threshold : float) (heatmap : list HeatmapCell) (dimension : string) : list StrategicAlert :=
  sort_by alert_leb (alert_of threshold dimension <$> List.filter (hot threshold) heatmap).

Definition recommendation (scope : string) (ia : nat * StrategicAlert) : CoordinationRecommendation :=
  {| cn_priority := ia.1; cn_scope := scope;
     cn_action := "Review " +:+ al_dimension ia.2 +:+ " evidence and confirm an owner before coordinating mitigation";
     cn_rationale := str_join "; " (al_rationale ia.2); cn_approval_required := true |}.

Definition report_limitations : list string :=
  ["Heat scores are normalized prioritization signals, not probability of failure.";
   "Freshness decay does not correct stale, biased, duplicated, or adversarial sources.";
   "Regression output is associational exploratory analysis with temporal holdout, not causal inference or a validated forecast.";
   "Recommendations are advisory; human review is required and no action is executed or dispatched."].

(** The report from its parts. *)
Definition assemble (request : StrategicAnalysisRequest) (id : string) (clock : datetime) (count : nat)
    (window_start window_end : datetime) (heatmap : list HeatmapCell) (alerts : list StrategicAlert)
    (freshness : list SourceFreshness) (regression : option RegressionResult) : StrategicAnalysisReport :=
  {| sp_contract_version := "continuityos.strategic-signal.v1"; sp_report_id := id; sp_generated_at := clock;
     sp_observation_count := count; sp_window_start := window_start; sp_window_end := window_end;
     sp_heatmap := heatmap; sp_alerts := alerts;
     sp_coordination := recommendation (st_coordination_scope request) <$> zip (seq 1 (length alerts)) alerts;
     sp_source_freshness := freshness; sp_regression := regression;
     sp_predictive_status := match regression with
                             | Some _ => "exploratory-temporal-holdout-result"
                             | None => "not-run-insufficient-labelled-dataset"
                             end;
     sp_limitations := report_limitations |}.

Definition build_strategic_report (request : StrategicAnalysisRequest) (id : string) (clock : datetime)
    : res StrategicAnalysisReport :=
  let ordered := sort_by observed_leb (st_observations request) in
  _ ← raise_if (existsb (λ o, negb (isfinite (obs_value o))) ordered) (ValueError "all observation values must be finite");
  first ← index ordered 0;
  final ← (match last ordered with Some o => Ok o | None => Raise IndexError end);
  let latest := obs_observed_at final in
  let half_life := st_freshness_half_life_hours request in
  freshness ← mapM_res (source_freshness latest half_life ordered) (sorted_set (obs_source_id <$> ordered));
  let groups := sort_by group_leb (grouped ordered) in
  heatmap ← mapM_res (heatmap_cell latest half_life) groups;
  let dimension := match last groups with Some g => g.1 | None => "" end in
  let alerts := alerts_of (st_alert_threshold request) heatmap dimension in
  regression ← (match st_regression request with
                | Some g => r ← run_regression g; Ok (Some r)
                | None => Ok None
                end);
  Ok (assemble request id clock (length ordered) (obs_observed_at first) latest heatmap alerts freshness regression).

(** ** Groups *)

Lemma elem_of_dkeys_dset {V} (d : dict string V) k v k' : k' ∈ dkeys (dset d k v) ↔ k' = k ∨ k' ∈ dkeys d.
Proof using.
  rewrite <-!dget_some_key. destruct (decide (k = k')) as [->|Hne].
  - rewrite dget_dset_eq. split; [by left|by eexists].
  - rewrite dget_dset_ne by done. split; [by right|by intros [->| ?]].
Qed.

Definition of_metric (k : string) (o : Observation) : bool := str_eqb (MetricName_value (obs_metric o)) k.

Lemma grouped_spec ordered :
  NoDup (dkeys (grouped ordered)) ∧
  (∀ k, dget_default (grouped ordered) k [] = List.filter (of_metric k) ordered) ∧
  (∀ k, k ∈ dkeys (grouped ordered) ↔ ∃ o, o ∈ ordered ∧ of_metric k o = true).
Proof using.
  unfold grouped. induction ordered as [|o l (IH1 & IH2 & IH3)] using rev_ind.
  { split_and!; [constructor|done|]. intros k. split; [by intros ?%elem_of_nil|by intros (? & ?%elem_of_nil & _)]. }
  rewrite foldl_snoc. split_and!.
  - by apply dset_NoDup.
  - intros k. rewrite dget_default_dappend, IH2, List.filter_app. f_equal. unfold of_metric. cbn.
    case_decide as Hk; [by rewrite (proj2 (str_eqb_true _ _) Hk)|].
    destruct (str_eqb _ k) eqn:E; [|done]. by apply str_eqb_true in E.
  - intros k. unfold dappend. rewrite elem_of_dkeys_dset, IH3. split.
    + intros [->|(o' & Ho & Hm)]; [exists o|exists o'; split; [apply elem_of_app; by left|done]].
      split; [apply elem_of_app; right; by left|]. unfold of_metric. by apply str_eqb_true.
    + intros (o' & [Ho| ->%list_elem_of_singleton]%elem_of_app & Hm); [right; eauto|left].
      unfold of_metric in Hm. symmetry. by apply str_eqb_true.
Qed.

Lemma group_values ordered k values : (k, values) ∈ grouped ordered →
  values = List.filter (of_metric k) ordered ∧ values ≠ [].
Proof using.
  intros Hin. destruct (grouped_spec ordered) as (H1 & H2 & H3).
  assert (values = List.filter (of_metric k) ordered) as Ev.
  { rewrite <-H2. unfold dget_default. by rewrite (elem_dget _ _ _ H1 Hin). }
  split; [done|]. destruct (proj1 (H3 k)) as (o & Ho & Hm).
  { apply list_elem_of_fmap. by exists (k, values). }
  intros E. assert (In o (List.filter (of_metric k) ordered)) as Hf by (apply List.filter_In; by rewrite <-list_elem_of_In).
  by rewrite <-Ev, E in Hf.
Qed.

(** ** Cells *)

(** The instants of the observations are datetimes of the calendar. *)
Definition dated (o : Observation) : Prop := calendar (obs_observed_at o).

Lemma age_ok latest o : calendar latest → dated o → ∃ a, age_of latest o = Ok a.
Proof using.
  intros Hl Ho. unfold age_of. destruct (hours_between_calendar _ _ Hl Ho) as [h ->]. by eexists.
Qed.

Lemma newest_in first rest : newest first rest ∈ first :: rest.
Proof using.
  unfold newest. revert first. induction rest as [|o rest IH]; intros first; cbn [foldl]; [by left|].
  specialize (IH (if dt_us (obs_observed_at first) <? dt_us (obs_observed_at o) then o else first)).
  apply elem_of_cons in IH as [->|Hin]; [|right; by right]. case_match; [right; by left|by left].
Qed.

Lemma maximum_nonzero first rest : nonzero (maximum first rest).
Proof using. unfold maximum, nonzero. set (m := foldl _ _ _). by destruct (feqb m f0) eqn:E. Qed.

(** What a cell says of its group. *)
Definition cell_of (ordered : list Observation) (c : HeatmapCell) : Prop :=
  hc_observation_count c = length (List.filter (of_metric (hc_dimension c)) ordered) ∧
  is_score (hc_heat_score c) = true.

Section cells.
Context (latest : datetime) (half_life : float) (ordered : list Observation).
Context (Hlatest : calendar latest) (Hhalf : nonzero half_life).
Context (Hdated : ∀ o, o ∈ ordered → dated o) (Hlen : Z.of_nat (length ordered) < 2 ^ 53).

Lemma decay_ok age : ∃ d, decay age half_life = Ok d.
Proof using Hhalf. unfold decay. destruct (fdiv_ok (fneg age * lit 0.69314718056)%F half_life Hhalf) as [x ->]. by eexists. Qed.

Lemma heatmap_cell_ok g : g ∈ grouped ordered →
  ∃ c, heatmap_cell latest half_life g = Ok c ∧ hc_dimension c = g.1 ∧ cell_of ordered c.
Proof using Hlatest Hhalf Hdated Hlen.
  destruct g as [k values]. intros [Hv Hne]%group_values. unfold heatmap_cell. cbn [fst snd].
  destruct values as [|first rest] eqn:Ev; [done|]. cbv zeta. rewrite <-Ev in *.
  assert (∀ o, o ∈ values → o ∈ ordered) as Hsub.
  { intros o Ho. rewrite Hv, list_elem_of_In, List.filter_In, <-list_elem_of_In in Ho. by destruct Ho. }
  destruct (age_ok latest (newest first rest)) as [age ->]; [done|apply Hdated, Hsub; rewrite Ev; apply newest_in|].
  cbn [mbind res_bind]. destruct (decay_ok age) as [d ->]. cbn [mbind res_bind].
  destruct (fdiv_ok (fabs (obs_value (newest first rest))) _ (maximum_nonzero first rest)) as [ratio ->].
  cbn [mbind res_bind].
  assert (length values <= length ordered)%nat as Hl by (rewrite Hv; apply List.filter_length_le).
  destruct (fdiv_ok (fsum (obs_confidence <$> values)) (f_of_Z (Z.of_nat (length values)))) as [mean ->].
  { apply count_nonzero; [|lia]. rewrite Ev. cbn. lia. }
  cbn [mbind res_bind]. eexists. split; [done|]. split; [done|]. split; cbn; [by rewrite <-Hv|apply score_clamp].
Qed.

Lemma source_freshness_ok s : s ∈ obs_source_id <$> ordered →
  ∃ f, source_freshness latest half_life ordered s = Ok f.
Proof using Hlatest Hhalf Hdated.
  intros (o & -> & Ho)%list_elem_of_fmap. unfold source_freshness. set (l := List.filter _ ordered).
  assert (∀ x, x ∈ l → x ∈ ordered) as Hsub.
  { intros x Hx. unfold l in Hx. rewrite list_elem_of_In, List.filter_In, <-list_elem_of_In in Hx. by destruct Hx. }
  assert (o ∈ l) as Hol.
  { unfold l. rewrite list_elem_of_In, List.filter_In, <-list_elem_of_In. split; [done|]. by apply str_eqb_true. }
  destruct l as [|first rest]; [by apply elem_of_nil in Hol|]. cbv zeta.
  destruct (age_ok latest (newest first rest)) as [age ->]; [done|apply Hdated, Hsub, newest_in|].
  cbn [mbind res_bind]. destruct (decay_ok age) as [d ->]. by eexists.
Qed.

(** The heat map of the sorted groups. *)
Lemma heatmap_ok groups : (∀ g, g ∈ groups → g ∈ grouped ordered) →
  ∃ cells, mapM_res (heatmap_cell latest half_life) groups = Ok cells ∧ hc_dimension <$> cells = groups.*1 ∧
    Forall (cell_of ordered) cells.
Proof using Hlatest Hhalf Hdated Hlen.
  induction groups as [|g groups IH]; intros Hg; cbn [mapM_res]; [by exists []|].
  destruct (heatmap_cell_ok g) as (c & -> & Hd & Hc); [apply Hg; by left|]. cbn [mbind res_bind].
  destruct IH as (cells & -> & Hds & Hcs); [intros; apply Hg; by right|]. cbn [mbind res_bind].
  exists (c :: cells). split; [done|]. split; [cbn; by f_equal|by constructor].
Qed.

Lemma freshness_list_ok sources : (∀ s, s ∈ sources → s ∈ obs_source_id <$> ordered) →
  ∃ l, mapM_res (source_freshness latest half_life ordered) sources = Ok l.
Proof using Hlatest Hhalf Hdated.
  induction sources as [|s sources IH]; intros Hs; cbn [mapM_res]; [by eexists|].
  destruct (source_freshness_ok s) as [f ->]; [apply Hs; by left|]. cbn [mbind res_bind].
  destruct IH as [l ->]; [intros; apply Hs; by right|]. by eexists.
Qed.
End cells.

(** ** The report *)

(** What a report says of the observations and the threshold. *)
Record report_sound (request : StrategicAnalysisRequest) (r : StrategicAnalysisReport) : Prop := {
  report_dimensions m : m ∈ hc_dimension <$> sp_heatmap r ↔
    ∃ o, o ∈ st_observations request ∧ MetricName_value (obs_metric o) = m;
  report_once : NoDup (hc_dimension <$> sp_heatmap r);
  report_cells : Forall (cell_of (st_observations request)) (sp_heatmap r);
  report_alerts : al_alert_key <$> sp_alerts r ≡ₚ
    alert_key <$> List.filter (hot (st_alert_threshold request)) (sp_heatmap r);
  report_order : StronglySorted (λ a b, (al_score b <=? al_score a)%F = true) (sp_alerts r);
  report_human : Forall (λ a, al_requires_human_review a = true) (sp_alerts r) ∧
    Forall (λ c, cn_approval_required c = true) (sp_coordination r);
  report_recommendations : length (sp_coordination r) = length (sp_alerts r)
}.

Lemma alert_leb_score a b : (is_score (al_score a) = true) → is_score (al_score b) = true →
  (alert_leb a b = true → (al_score b <=? al_score a)%F = true) ∧
  (alert_leb a b = false → (al_score a <=? al_score b)%F = true).
Proof using.
  intros Ha%score_not_NaN Hb%score_not_NaN. unfold alert_leb. destruct (feqb (al_score a) (al_score b)) eqn:E.
  - apply feqb_fleb in E as [E1 E2]. split; by intros _.
  - split; [by apply fltb_fleb|]. rewrite fltb_negb by done. by intros ?%negb_false_iff.
Qed.

(** Sorting by [alert_leb] orders alerts with proper scores. *)
Lemma alerts_sorted l : Forall (λ a, is_score (al_score a) = true) l →
  StronglySorted (λ a b, (al_score b <=? al_score a)%F = true) (sort_by alert_leb l).
Proof using.
  intros Hl. assert (StronglySorted (λ a b, is_score (al_score a) = true → is_score (al_score b) = true →
      (al_score b <=? al_score a)%F = true) (sort_by alert_leb l)) as Hs.
  { induction Hl as [|x l Hx Hl IH]; cbn; [constructor|].
    assert (Forall (λ a, is_score (al_score a) = true) (sort_by alert_leb l)) as Hsl by (by rewrite sort_by_perm).
    induction IH as [|y l' Hs' IH Hy]; cbn; [by repeat constructor|]. apply Forall_cons in Hsl as [Hys Hl's].
    destruct (alert_leb_score x y Hx Hys) as [L1 L2]. destruct (alert_leb x y) eqn:E.
    - constructor; [by constructor|]. constructor; [by auto|]. rewrite Forall_forall in Hy, Hl's |- *. intros z Hz Hxs Hzs.
      eapply fleb_trans; [by apply Hy|by apply L1].
    - constructor; [by apply IH|]. rewrite insert_by_perm. constructor; [by auto|done]. }
  assert (Forall (λ a, is_score (al_score a) = true) (sort_by alert_leb l)) as Hsl by (by rewrite sort_by_perm).
  clear Hl. induction Hs as [|x l' Hs IH Hx]; [constructor|]. apply Forall_cons in Hsl as [Hxs Hl'].
  constructor; [by apply IH|]. rewrite Forall_forall in Hx, Hl' |- *. intros z Hz. apply Hx; auto.
Qed.

Lemma alerts_of_sound threshold heatmap dimension ordered : Forall (cell_of ordered) heatmap →
  let alerts := alerts_of threshold heatmap dimension in
  (al_alert_key <$> alerts ≡ₚ alert_key <$> List.filter (hot threshold) heatmap) ∧
  StronglySorted (λ a b, (al_score b <=? al_score a)%F = true) alerts ∧
  Forall (λ a, al_requires_human_review a = true ∧ al_dimension a = dimension) alerts.
Proof using.
  intros Hc. unfold alerts_of. cbv zeta. set (cells := List.filter (hot threshold) heatmap).
  assert (Forall (cell_of ordered) cells) as Hcells.
  { rewrite Forall_forall in Hc |- *. intros c Hin. apply Hc. unfold cells in Hin.
    rewrite list_elem_of_In, List.filter_In, <-list_elem_of_In in Hin. by destruct Hin. }
  split_and!.
  - rewrite (sort_by_perm alert_leb), <-list_fmap_compose. done.
  - apply alerts_sorted, Forall_fmap. eapply Forall_impl; [exact Hcells|]. by intros c [_ Hs].
  - rewrite (sort_by_perm alert_leb). apply Forall_fmap, Forall_forall. by intros c _.
Qed.

(** The instants are of the calendar and the values finite. *)
Definition observations_sane (obs : list Observation) : Prop :=
  Forall (λ o, isfinite (obs_value o) = true ∧ dated o) obs.

Lemma filter_perm_length {A} (f : A → bool) l k : l ≡ₚ k → length (List.filter f l) = length (List.filter f k).
Proof using. induction 1; cbn; repeat case_match; cbn; congruence. Qed.

Lemma sorted_keys (d : dict string (list Observation)) :
  StronglySorted (λ a b, str_leb a b = true) (sort_by group_leb d).*1.
Proof using.
  assert (sorted_by group_leb (sort_by group_leb d)) as Hs.
  { apply sort_by_sorted; unfold group_leb; [intros; apply str_leb_total|intros; by eapply str_leb_trans]. }
  induction Hs as [|g l Hl IH Hg]; [constructor|]. constructor; [done|]. by apply Forall_fmap.
Qed.

(** The dimension variable after the loop over the groups. *)
Definition last_dimension (ordered : list Observation) : string :=
  match last (sort_by group_leb (grouped ordered)) with Some g => g.1 | None => "" end.

Lemma last_dimension_ok ordered o : o ∈ ordered →
  last (sort_by group_leb (grouped ordered)).*1 = Some (last_dimension ordered).
Proof using.
  intros Ho. rewrite fmap_last. unfold last_dimension. destruct (last _) as [g|] eqn:Eg; [done|]. exfalso.
  apply last_None in Eg. assert (MetricName_value (obs_metric o) ∈ dkeys (grouped ordered)) as Hk.
  { apply grouped_spec. exists o. split; [done|]. by apply str_eqb_true. }
  unfold dkeys in Hk. rewrite <-(sort_by_perm group_leb), Eg in Hk. by apply elem_of_nil in Hk.
Qed.

Lemma assemble_sound request ordered cells id clock t1 t2 fr reg :
  ordered ≡ₚ st_observations request → Forall (cell_of ordered) cells →
  hc_dimension <$> cells = (sort_by group_leb (grouped ordered)).*1 →
  report_sound request
    (assemble request id clock (length ordered) t1 t2 cells
       (alerts_of (st_alert_threshold request) cells (last_dimension ordered)) fr reg).
Proof using.
  intros Hperm Hcells Hdims.
  destruct (alerts_of_sound (st_alert_threshold request) cells (last_dimension ordered) ordered Hcells) as (A1 & A2 & A3).
  destruct (grouped_spec ordered) as (G1 & G2 & G3). set (alerts := alerts_of _ _ _) in *.
  assert ((sort_by group_leb (grouped ordered)).*1 ≡ₚ dkeys (grouped ordered)) as Hg
    by (unfold dkeys; by rewrite (sort_by_perm group_leb)).
  split; cbn.
  - intros m. rewrite Hdims, Hg, G3. setoid_rewrite Hperm. unfold of_metric. by setoid_rewrite str_eqb_true.
  - by rewrite Hdims, Hg.
  - eapply Forall_impl; [exact Hcells|]. intros c [Hc1 Hc2]. split; [|done]. rewrite Hc1. by apply filter_perm_length.
  - exact A1.
  - exact A2.
  - split; [eapply Forall_impl; [exact A3|]; by intros a []|]. apply Forall_fmap, Forall_forall. by intros [] _.
  - rewrite length_fmap, length_zip, length_seq. lia.
Qed.

(** The checks of a valid request pass. *)
Lemma request_facts request ordered :
  StrategicAnalysisRequest_valid request = true → observations_sane (st_observations request) →
  ordered ≡ₚ st_observations request →
  existsb (λ o, negb (isfinite (obs_value o))) ordered = false ∧ ordered ≠ [] ∧ Z.of_nat (length ordered) < 2 ^ 53 ∧
  nonzero (st_freshness_half_life_hours request) ∧ ∀ o, o ∈ ordered → dated o.
Proof using.
  intros Hv Hsane Hperm. unfold StrategicAnalysisRequest_valid, count_between in Hv. bool_norm.
  unfold observations_sane in Hsane. rewrite <-Hperm, Forall_forall in Hsane.
  assert (length ordered = length (st_observations request)) as El by (by rewrite Hperm).
  rewrite <-El in *. split_and!.
  - apply not_true_is_false. intros (o & Ho%list_elem_of_In & Hf)%existsb_exists.
    destruct (Hsane o Ho) as [E _]. by rewrite E in Hf.
  - intros ->. done.
  - match goal with H : (length ordered <=? _)%nat = true |- _ =>
      apply Nat.leb_le, Nat2Z.inj_le in H; eapply Z.le_lt_trans; [exact H|] end. vm_compute. reflexivity.
  - unfold nonzero. destruct (feqb _ f0) eqn:E; [|done]. apply feqb_fleb in E as [E _].
    match goal with H : (_ >? f0)%F = true |- _ => by rewrite (fltb_irrefl_le _ _ E) in H end.
  - intros o Ho. by apply Hsane.
Qed.

Lemma build_ok request id clock :
  StrategicAnalysisRequest_valid request = true → observations_sane (st_observations request) →
  match build_strategic_report request id clock with
  | Ok r => report_sound request r ∧
      ∃ d, Forall (λ a, al_dimension a = d) (sp_alerts r) ∧ last (hc_dimension <$> sp_heatmap r) = Some d ∧
        StronglySorted (λ a b, str_leb a b = true) (hc_dimension <$> sp_heatmap r)
  | Raise e => ∃ g, st_regression request = Some g ∧ run_regression g = Raise e
  end.
Proof using.
  intros Hv Hsane. unfold build_strategic_report. cbv zeta. set (ordered := sort_by observed_leb _).
  assert (ordered ≡ₚ st_observations request) as Hperm by apply sort_by_perm.
  destruct (request_facts request ordered Hv Hsane Hperm) as (-> & Hne & Hlen & Hhl & Hdated). cbn [raise_if mbind res_bind].
  destruct ordered as [|first rest] eqn:Eo; [done|]. rewrite <-Eo in *.
  assert (index ordered 0 = Ok first) as -> by (by rewrite Eo). cbn [mbind res_bind].
  destruct (last ordered) as [final|] eqn:El; [|apply last_None in El; congruence]. cbn [mbind res_bind].
  assert (final ∈ ordered) as Hfin by (by apply last_Some_elem_of).
  pose proof (Hdated final Hfin) as Hlat.
  destruct (freshness_list_ok (obs_observed_at final) (st_freshness_half_life_hours request) ordered Hlat Hhl Hdated
              (sorted_set (obs_source_id <$> ordered))) as [fr ->].
  { intros s. unfold sorted_set, set_of. by rewrite elem_of_sort_by, elem_of_remove_dups. }
  cbn [mbind res_bind].
  destruct (heatmap_ok (obs_observed_at final) (st_freshness_half_life_hours request) ordered Hlat Hhl Hdated Hlen
              (sort_by group_leb (grouped ordered))) as (cells & -> & Hdims & Hcells); [intros g; by rewrite elem_of_sort_by|].
  cbn [mbind res_bind]. fold (last_dimension ordered).
  pose proof (λ reg, assemble_sound request ordered cells id clock (obs_observed_at first) (obs_observed_at final) fr reg
                       Hperm Hcells Hdims) as Hsound.
  destruct (alerts_of_sound (st_alert_threshold request) cells (last_dimension ordered) ordered Hcells) as (_ & _ & A3).
  assert (last (hc_dimension <$> cells) = Some (last_dimension ordered) ∧
          StronglySorted (λ a b, str_leb a b = true) (hc_dimension <$> cells)) as Hdim.
  { rewrite Hdims. split; [by eapply last_dimension_ok|apply sorted_keys]. }
  assert (Forall (λ a, al_dimension a = last_dimension ordered)
            (alerts_of (st_alert_threshold request) cells (last_dimension ordered))) as Hall
    by (eapply Forall_impl; [exact A3|]; by intros a []).
  destruct (st_regression request) as [g|]; [|split; [apply Hsound|by exists (last_dimension ordered)]].
  destruct (run_regression g) as [rr|e] eqn:Err; cbn [mbind res_bind]; [|by exists g].
  split; [apply Hsound|by exists (last_dimension ordered)].
Qed.
End strategic.

(** The strategic report is sound: on a valid request with finite values
    it is built unless the requested regression raises.  The heat map has
    exactly one cell per observed metric, which counts the observations of that
    metric and has a heat score in [0, 1]; the alerts are exactly those of the
    cells that reach the threshold, hottest first; each alert asks for human
    review and has one recommendation, which requires approval. *)
Theorem strategic_report_sound (M : LibM) (S : Square) uuid5 request id clock :
  StrategicAnalysisRequest_valid request = true → observations_sane (st_observations request) →
  match build_strategic_report uuid5 request id clock with
  | Ok r => report_sound request r
  | Raise e => ∃ g, st_regression request = Some g ∧ run_regression g = Raise e
  end.
Proof.
  intros Hv Hs. pose proof (build_ok uuid5 request id clock Hv Hs) as H.
  destruct (build_strategic_report _ _ _ _); [apply H|done].
Qed.

(** The dimension of an alert is wrong: all alerts of a report carry the
    same dimension, that of the alphabetically last metric, whichever cell
    raised them (the loop variable of the heat map is read after its loop). *)
Theorem alert_dimension_is_last (M : LibM) (S : Square) uuid5 request id clock r :
  StrategicAnalysisRequest_valid request = true → observations_sane (st_observations request) →
  build_strategic_report uuid5 request id clock = Ok r →
  ∃ d, last (hc_dimension <$> sp_heatmap r) = Some d ∧
    StronglySorted (λ a b, str_leb a b = true) (hc_dimension <$> sp_heatmap r) ∧
    Forall (λ a, al_dimension a = d) (sp_alerts r).
Proof.
  intros Hv Hs E. pose proof (build_ok uuid5 request id clock Hv Hs) as H. rewrite E in H.
  destruct H as (_ & d & H1 & H2 & H3). by exists d.
Qed.

(** ** Concrete inputs *)

#[local] Instance example_LibM : LibM := {| m_exp := example_exp; m_exp_nonpos := example_exp_nonpos |}.
#[local] Instance example_Square : Square := {| m_square := example_square; m_square_raises := example_square_raises |}.

Definition example_strategic : StrategicAnalysisRequest :=
  {| st_observations :=
       [operator_obs "p" AC_LIVE_AVAILABILITY M_PORT_AVAILABILITY 0.9 3600;
        operator_obs "w1" AC_WEATHER M_WIND_SEVERITY 0.8 0; operator_obs "w2" AC_WEATHER M_WIND_SEVERITY 0.1 3600];
     st_regression := None; st_alert_threshold := lit 0.65; st_freshness_half_life_hours := lit 24;
     st_coordination_scope := "operator-review"; st_alert_cooldown_seconds := 900 |}.

(** The alert about the port says it is about the wind. *)
Example port_alert_says_wind :
  fmap (M := res) (λ r, ((λ a, (al_alert_key a, al_dimension a)) <$> sp_alerts r, cn_action <$> sp_coordination r))
    (build_strategic_report id example_strategic "r" (utc 3600)) =
  Ok ([("port_availability:operator-telemetry", "wind_severity")],
      ["Review wind_severity evidence and confirm an owner before coordinating mitigation"]).
Proof. vm_compute. reflexivity. Qed.

Lemma strategic_report_sound_witness :
  ∃ r, build_strategic_report id example_strategic "r" (utc 3600) = Ok r ∧ report_sound example_strategic r.
Proof.
  assert (observations_sane (st_observations example_strategic)) as Hs
    by (repeat constructor; vm_compute; discriminate).
  pose proof (strategic_report_sound example_LibM example_Square id example_strategic "r" (utc 3600) eq_refl Hs) as H.
  destruct (build_strategic_report _ _ _ _) as [r|e]; [exists r; by split|].
  exfalso. destruct H as (g & Hg & _). discriminate Hg.
Defined.

Lemma alert_dimension_is_last_witness :
  ∃ r d, build_strategic_report id example_strategic "r" (utc 3600) = Ok r ∧
    last (hc_dimension <$> sp_heatmap r) = Some d ∧ Forall (λ a, al_dimension a = d) (sp_alerts r).
Proof.
  assert (observations_sane (st_observations example_strategic)) as Hs
    by (repeat constructor; vm_compute; discriminate).
  destruct (build_strategic_report id example_strategic "r" (utc 3600)) as [r|e] eqn:E;
    [|exfalso; vm_compute in E; discriminate E].
  destruct (alert_dimension_is_last example_LibM example_Square id example_strategic "r" (utc 3600) r eq_refl Hs E)
    as (d & H1 & _ & H2).
  exists r, d. split; [reflexivity|]. by split.
Defined.
