(* ===== verification/Streaming.v ===== *)
(** * streaming.py: the event bus and its subscribers

    The bus keeps a circular buffer of events and the list of the queues of its
    subscribers.  A queue is an object shared between the bus, which fills it,
    and the generator that reads it: a queue is a reference, [w_queues] the heap
    of queues (the n-th queue created is reference n).  Every method holds the
    lock of the bus for its whole body, so it is one step; [step] is one step of
    the bus or one iteration of a reader's generator, and [run] a history.
    [dump] is the JSON text of an event ([model_dump_json], third party). *)

From Stdlib Require Import ZArith QArith.
From S2P Require Import Prelude PyFloat PyFormat Domain State.

Open Scope Z_scope.

(** ** Events *)

Record SovereignEvent := {
  se_event_id : string;
  se_domain : string;
  se_event_type : string;
  se_corridor_id : string;
  se_severity : string;
  se_threat_score : float;
  se_title : string;
  se_payload : object;
  se_timestamp : datetime;
}.

Definition new_SovereignEvent (id domain event_type corridor severity : string) (threat_score : float)
    (title : string) (payload : object) (now : datetime) : res SovereignEvent :=
  _ ← require (is_score threat_score) "threat_score";
  Ok {| se_event_id := id; se_domain := domain; se_event_type := event_type; se_corridor_id := corridor;
        se_severity := severity; se_threat_score := threat_score; se_title := title; se_payload := payload;
        se_timestamp := now |}.

(** ** Deques, queues and lists *)

(** [deque(maxlen=m)].append(x) *)
Definition deque_append {A} (maxlen : nat) (h : list A) (x : A) : list A :=
  let h := h ++ [x] in if (maxlen <? length h)%nat then tail h else h.

(** [queue.put_nowait(x)] on a queue of bounded size; [None] is [QueueFull]. *)
Definition put_nowait {A} (maxsize : nat) (l : list A) (x : A) : option (list A) :=
  if (maxsize <=? length l)%nat then None else Some (l ++ [x]).

(** [l.remove(x)]: the first occurrence. *)
Fixpoint list_remove (x : nat) (l : list nat) : res (list nat) :=
  match l with
  | [] => Raise (ValueError "list.remove(x): x not in list")
  | y :: l => if Nat.eqb x y then Ok l else l' ← list_remove x l; Ok (y :: l')
  end.

(** [l[start:]] *)
Definition slice_from {A} (start : Z) (l : list A) : list A :=
  drop (Z.to_nat (if start <? 0 then Z.max 0 (Z.of_nat (length l) + start) else start)) l.

(** ** The bus *)

Notation event := SovereignEvent.

Definition queue_maxsize : nat := 200.

Record bus := {
  w_buffer_size : nat;
  w_history : list event;
  w_subscribers : list nat;
  w_queues : list (list event);
}.

(** [SovereignEventBus(buffer_size)]; a deque has no negative length. *)
Definition new_bus (buffer_size : Z) : res bus :=
  _ ← raise_if (buffer_size <? 0) (ValueError "maxlen must be non-negative");
  Ok {| w_buffer_size := Z.to_nat buffer_size; w_history := []; w_subscribers := []; w_queues := [] |}.

(** One subscriber in [publish]: its queue takes the event, or is found full. *)
Definition offer (e : event) (acc : list (list event) * list nat) (q : nat) : list (list event) * list nat :=
  match acc.1 !! q with
  | Some l => match put_nowait queue_maxsize l e with
              | Some l => (<[q := l]> acc.1, acc.2)
              | None => (acc.1, acc.2 ++ [q])
              end
  | None => acc
  end.

Definition publish (e : event) (w : bus) : res bus :=
  let history := deque_append (w_buffer_size w) (w_history w) e in
  let '(queues, dead) := foldl (offer e) (w_queues w, []) (w_subscribers w) in
  subscribers ← foldM (λ s d, list_remove d s) (w_subscribers w) dead;
  Ok {| w_buffer_size := w_buffer_size w; w_history := history; w_subscribers := subscribers;
        w_queues := queues |}.

Definition subscribe (w : bus) : nat * bus :=
  let q := length (w_queues w) in
  (q, {| w_buffer_size := w_buffer_size w; w_history := w_history w; w_subscribers := w_subscribers w ++ [q];
         w_queues := w_queues w ++ [[]] |}).

Definition unsubscribe (q : nat) (w : bus) : res bus :=
  if bool_decide (q ∈ w_subscribers w) then
    subscribers ← list_remove q (w_subscribers w);
    Ok {| w_buffer_size := w_buffer_size w; w_history := w_history w; w_subscribers := subscribers;
          w_queues := w_queues w |}
  else Ok w.

Definition get_recent_events (limit : Z) (w : bus) : list event := slice_from (- limit) (w_history w).

(** ** The stream of a reader *)

Definition stream_connected : string := ": sovereign-event-stream-connected" +:+ newline +:+ newline.
Definition stream_heartbeat : string := ": keepalive-heartbeat" +:+ newline +:+ newline.

Definition event_frame (dump : event → string) (e : event) : string :=
  "event: " +:+ se_event_type e +:+ newline +:+ "data: " +:+ dump e +:+ newline +:+ newline.

(** [wait_for(queue.get(), 15)]: the next event, or none before the timeout. *)
Definition queue_get (q : nat) (w : bus) : option event * bus :=
  match w_queues w !! q with
  | Some (e :: l) =>
      (Some e, {| w_buffer_size := w_buffer_size w; w_history := w_history w;
                  w_subscribers := w_subscribers w; w_queues := <[q := l]> (w_queues w) |})
  | _ => (None, w)
  end.

(** What the generator yields after one wait. *)
Definition stream_text (dump : event → string) (e : option event) : string :=
  match e with Some e => event_frame dump e | None => stream_heartbeat end.

(** ** Histories *)

Inductive op :=
| Publish (e : event)
| Subscribe
| Unsubscribe (q : nat)
| Next (q : nat).

(** What a step shows: the queue of a new subscriber, or what a reader got. *)
Inductive shown :=
| Done
| Subscribed (q : nat)
| Got (q : nat) (e : option event).

Definition step (w : bus) (o : op) : res (shown * bus) :=
  match o with
  | Publish e => w ← publish e w; Ok (Done, w)
  | Subscribe => let '(q, w) := subscribe w in Ok (Subscribed q, w)
  | Unsubscribe q => w ← unsubscribe q w; Ok (Done, w)
  | Next q => let '(e, w) := queue_get q w in Ok (Got q e, w)
  end.

Definition run_step (acc : list shown * bus) (o : op) : res (list shown * bus) :=
  '(x, w) ← step acc.2 o; Ok (acc.1 ++ [x], w).

Definition run (ops : list op) (w : bus) : res (list shown * bus) := foldM run_step ([], w) ops.

(** What one reader of the bus yields over a history. *)
Definition streamed (dump : event → string) (q : nat) (xs : list shown) : list string :=
  stream_connected :: omap (λ x, match x with Got q' e => if Nat.eqb q q' then Some (stream_text dump e) else None
                                 | _ => None end) xs.

(** The events published in a history; those published after its n-th
    subscription; those a reader got. *)
Definition published (ops : list op) : list event :=
  omap (λ o, match o with Publish e => Some e | _ => None end) ops.

Fixpoint published_after (n : nat) (ops : list op) : list event :=
  match ops with
  | [] => []
  | Publish e :: ops => match n with O => e :: published_after n ops | S _ => published_after n ops end
  | Subscribe :: ops => published_after (pred n) ops
  | _ :: ops => published_after n ops
  end.

Definition received (q : nat) (xs : list shown) : list event :=
  omap (λ x, match x with Got q' (Some e) => if Nat.eqb q q' then Some e else None | _ => None end) xs.

Definition subscriptions (ops : list op) : nat := length (List.filter (λ o, match o with Subscribe => true | _ => false end) ops).

(** ** Lists *)

(** The last [n] elements. *)
Definition last_n {A} (n : nat) (l : list A) : list A := drop (length l - n) l.

Lemma deque_append_last {A} n (l : list A) x : deque_append n (last_n n l) x = last_n n (l ++ [x]).
Proof.
  unfold deque_append, last_n. rewrite !length_app, length_drop. cbn [length].
  destruct (Nat.ltb_spec n (length l - (length l - n) + 1)) as [H|H].
  - replace (length l + 1 - n)%nat with (S (length l - n)) by lia.
    destruct n as [|n].
    + rewrite !Nat.sub_0_r, drop_ge by lia. cbn. rewrite drop_ge; [done|]. rewrite length_app. cbn. lia.
    + rewrite drop_app_le by lia. destruct (drop (length l - S n) l) as [|y l'] eqn:E.
      { apply (f_equal length) in E. rewrite length_drop in E. cbn in E. lia. }
      cbn. f_equal. replace (S (length l - S n)) with (length l - S n + 1)%nat by lia.
      by rewrite <-drop_drop, E.
  - replace (length l + 1 - n)%nat with 0%nat by lia. replace (length l - n)%nat with 0%nat by lia. done.
Qed.

Lemma list_remove_spec x l : NoDup l → x ∈ l →
  ∃ l', list_remove x l = Ok l' ∧ NoDup l' ∧ ∀ y, y ∈ l' ↔ y ∈ l ∧ y ≠ x.
Proof.
  induction 1 as [|y l Hy Hl IH]; [by intros ?%elem_of_nil|]. intros Hx. cbn.
  destruct (Nat.eqb_spec x y) as [->|Hne].
  - exists l. split_and!; [done..|]. intros z. rewrite elem_of_cons. naive_solver.
  - apply elem_of_cons in Hx as [?|Hx]; [done|]. destruct (IH Hx) as (l' & -> & Hl' & H). cbn.
    exists (y :: l'). split_and!; [done| |].
    + constructor; [rewrite H; naive_solver|done].
    + intros z. rewrite !elem_of_cons, H. naive_solver.
Qed.

Lemma list_remove_all dead s : NoDup s → NoDup dead → (∀ d, d ∈ dead → d ∈ s) →
  ∃ s', foldM (λ s d, list_remove d s) s dead = Ok s' ∧ NoDup s' ∧ ∀ y, y ∈ s' ↔ y ∈ s ∧ y ∉ dead.
Proof.
  intros Hs Hd. revert s Hs. induction Hd as [|d dead Hd Hdead IH]; intros s Hs Hin; cbn.
  - exists s. split_and!; [done..|]. intros y. rewrite elem_of_nil. naive_solver.
  - destruct (list_remove_spec d s Hs) as (s1 & -> & Hs1 & H1); [apply Hin; by left|]. cbn.
    destruct (IH s1 Hs1) as (s' & -> & Hs' & H'); [intros x Hx; rewrite H1; split; [apply Hin; by right|congruence]|].
    exists s'. split_and!; [done..|]. intros y. rewrite H', H1, not_elem_of_cons. tauto.
Qed.

(** ** Publishing *)

Definition full (queues : list (list event)) (q : nat) : bool :=
  match queues !! q with Some l => (queue_maxsize <=? length l)%nat | None => false end.

(** The queue of a subscriber after an event was offered. *)
Definition offered (e : event) (l : list event) : list event :=
  if (queue_maxsize <=? length l)%nat then l else l ++ [e].

Lemma offer_fold e subs queues dead : NoDup subs →
  ∃ queues', foldl (offer e) (queues, dead) subs = (queues', dead ++ List.filter (full queues) subs) ∧
    length queues' = length queues ∧
    ∀ q, queues' !! q = if decide (q ∈ subs) then offered e <$> queues !! q else queues !! q.
Proof.
  intros Hs. revert queues dead. induction Hs as [|q subs Hq Hs IH]; intros queues dead.
  { exists queues. cbn [foldl List.filter]. rewrite app_nil_r. split_and!; [done..|]. intros q. done. }
  cbn [foldl List.filter]. unfold offer at 2. cbn [fst snd]. unfold full at 1, put_nowait.
  destruct (queues !! q) as [l|] eqn:E; [destruct (queue_maxsize <=? length l)%nat eqn:F|].
  - destruct (IH queues (dead ++ [q])) as (qs & -> & Hlen & H). exists qs.
    rewrite <-app_assoc. split_and!; [done..|]. intros q'. rewrite H.
    destruct (decide (q' ∈ subs)), (decide (q' ∈ q :: subs)) as [Hin|Hin]; try done; try (exfalso; set_solver).
    apply elem_of_cons in Hin as [->|?]; [|done]. rewrite E. cbn. unfold offered. by rewrite F.
  - destruct (IH (<[q:=l ++ [e]]> queues) dead) as (qs & -> & Hlen & H). exists qs.
    rewrite length_insert in Hlen. split_and!; [|done|].
    + do 2 f_equal. apply filter_ext_in. intros x Hx%list_elem_of_In. unfold full.
      rewrite list_lookup_insert_ne by congruence. done.
    + intros q'. rewrite H. destruct (decide (q' = q)) as [->|Hne].
      * rewrite decide_False by done. rewrite decide_True by by left. rewrite E. cbn.
        rewrite list_lookup_insert_eq by (by eapply lookup_lt_Some). unfold offered. by rewrite F.
      * rewrite list_lookup_insert_ne by done.
        destruct (decide (q' ∈ subs)), (decide (q' ∈ q :: subs)); try done; exfalso; set_solver.
  - destruct (IH queues dead) as (qs & -> & Hlen & H). exists qs. split_and!; [done..|].
    intros q'. rewrite H. destruct (decide (q' ∈ subs)), (decide (q' ∈ q :: subs)) as [Hin|Hin]; try done; try (exfalso; set_solver).
    apply elem_of_cons in Hin as [->|?]; [|done]. by rewrite E.
Qed.

(** Publishing never raises; it offers the event to every subscriber and drops
    exactly those whose queue was full. *)
Lemma publish_spec e w : NoDup (w_subscribers w) →
  ∃ w', publish e w = Ok w' ∧
    w_buffer_size w' = w_buffer_size w ∧
    w_history w' = deque_append (w_buffer_size w) (w_history w) e ∧
    length (w_queues w') = length (w_queues w) ∧
    NoDup (w_subscribers w') ∧
    (∀ q, q ∈ w_subscribers w' ↔ q ∈ w_subscribers w ∧ full (w_queues w) q = false) ∧
    (∀ q, w_queues w' !! q = if decide (q ∈ w_subscribers w) then offered e <$> w_queues w !! q else w_queues w !! q).
Proof.
  intros Hs. unfold publish.
  destruct (offer_fold e (w_subscribers w) (w_queues w) [] Hs) as (qs & -> & Hlen & Hqs). cbn [app].
  set (dead := List.filter _ _).
  assert (Hdead : ∀ d, d ∈ dead ↔ d ∈ w_subscribers w ∧ full (w_queues w) d = true).
  { intros d. unfold dead. rewrite !list_elem_of_In, filter_In. done. }
  destruct (list_remove_all dead (w_subscribers w) Hs) as (s' & -> & Hs' & Hin).
  - by apply NoDup_ListNoDup, List.NoDup_filter, NoDup_ListNoDup.
  - intros d Hd. by apply Hdead in Hd as [? _].
  - eexists. split; [reflexivity|]. cbn. split_and!; try done. intros q. rewrite Hin, Hdead.
    destruct (full (w_queues w) q); naive_solver.
Qed.

(** ** Histories *)

Lemma published_snoc ops o :
  published (ops ++ [o]) = published ops ++ match o with Publish e => [e] | _ => [] end.
Proof. unfold published. rewrite omap_app. by destruct o. Qed.

Lemma subscriptions_snoc ops o :
  subscriptions (ops ++ [o]) = (subscriptions ops + match o with Subscribe => 1 | _ => 0 end)%nat.
Proof. unfold subscriptions. rewrite List.filter_app, length_app. by destruct o. Qed.

Lemma published_after_snoc n ops o :
  published_after n (ops ++ [o]) = published_after n ops ++
    match o with Publish e => if (n <=? subscriptions ops)%nat then [e] else [] | _ => [] end.
Proof.
  revert n. induction ops as [|o' ops IH]; intros n.
  { destruct o; cbn; try done. by destruct n. }
  assert (E : subscriptions (o' :: ops) = (match o' with Subscribe => 1 | _ => 0 end + subscriptions ops)%nat)
    by (by destruct o').
  rewrite E. destruct o'; cbn [app published_after plus]; rewrite ?IH; try done.
  - destruct n; [|done]. cbn. done.
  - destruct o; try done. by destruct n.
Qed.

Lemma published_after_none n ops : (subscriptions ops < n)%nat → published_after n ops = [].
Proof.
  induction ops as [|o ops IH] using rev_ind; [done|]. rewrite subscriptions_snoc, published_after_snoc. intros H.
  rewrite IH by (destruct o; lia). destruct o; try done. cbn. destruct (Nat.leb_spec n (subscriptions ops)); [lia|done].
Qed.

Lemma received_snoc q xs x : received q (xs ++ [x]) =
  received q xs ++ match x with Got q' (Some e) => if Nat.eqb q q' then [e] else [] | _ => [] end.
Proof. unfold received. rewrite omap_app. cbn. destruct x as [| |q' [e|]]; try done. by destruct (Nat.eqb q q'). Qed.

(** What holds of queue [q] with contents [l] after a history. *)
Record queue_inv (ops : list op) (xs : list shown) (subs : list nat) (q : nat) (l : list event) : Prop := {
  qi_events : ∃ missed, published_after (S q) ops = received q xs ++ l ++ missed ∧ (q ∈ subs → missed = []);
  qi_bound : (length l <= queue_maxsize)%nat;
  qi_dropped : q ∈ subs ∨ Unsubscribe q ∈ ops ∨ (queue_maxsize <= length (received q xs ++ l))%nat;
}.

(** The invariant of the bus. *)
Record bus_inv (size : nat) (ops : list op) (xs : list shown) (w : bus) : Prop := {
  bi_size : w_buffer_size w = size;
  bi_history : w_history w = last_n size (published ops);
  bi_queues : length (w_queues w) = subscriptions ops;
  bi_nodup : NoDup (w_subscribers w);
  bi_subs q : q ∈ w_subscribers w → is_Some (w_queues w !! q);
  bi_queue q l : w_queues w !! q = Some l → queue_inv ops xs (w_subscribers w) q l;
  bi_got q : w_queues w !! q = None → received q xs = [];
}.

Lemma bus_inv_init size w : new_bus size = Ok w → bus_inv (Z.to_nat size) [] [] w.
Proof. unfold new_bus. intros H. inv_ok. split; cbn; try done; [constructor|by intros q ?%elem_of_nil]. Qed.

Lemma publish_inv size ops xs w e : bus_inv size ops xs w →
  ∃ w', publish e w = Ok w' ∧ bus_inv size (ops ++ [Publish e]) (xs ++ [Done]) w'.
Proof.
  intros [Hsize Hhist Hlen Hnd Hsub Hq Hg]. destruct (publish_spec e w Hnd) as (w' & -> & Hs' & Hh' & Hl' & Hn' & Hsubs' & Hqs').
  exists w'. split; [done|]. split.
  - congruence.
  - rewrite Hh', Hhist, Hsize, published_snoc. apply deque_append_last.
  - by rewrite Hl', Hlen, subscriptions_snoc, Nat.add_0_r.
  - done.
  - intros q [Hin _]%Hsubs'. rewrite Hqs', decide_True by done. apply fmap_is_Some. by apply Hsub.
  - intros q l' Hl. rewrite Hqs' in Hl. assert (∃ l, w_queues w !! q = Some l) as [l E].
    { case_decide; [|by eexists]. apply fmap_Some in Hl as (l & ? & ?). by eexists. }
    assert (Hlt : (S q <= subscriptions ops)%nat) by (rewrite <-Hlen; by eapply lookup_lt_Some).
    destruct (Hq q l E) as [(missed & Hev & Hm) Hb Hd]. rewrite E in Hl.
    assert (Hrec : received q (xs ++ [Done]) = received q xs) by (by rewrite received_snoc, app_nil_r).
    case_decide as Hin.
    + cbn in Hl. injection Hl as <-. specialize (Hm Hin). subst missed. rewrite app_nil_r in Hev.
      unfold offered. destruct (Nat.leb_spec queue_maxsize (length l)) as [F|F]; split.
      * exists [e]. rewrite published_after_snoc, Hev, Hrec, <-app_assoc. destruct (Nat.leb_spec (S q) (subscriptions ops)); [|lia].
        split; [done|]. intros [_ Hf]%Hsubs'. unfold full in Hf. rewrite E in Hf. apply Nat.leb_gt in Hf. lia.
      * done.
      * right; right. rewrite Hrec, length_app. lia.
      * exists []. rewrite published_after_snoc, Hev, Hrec, app_nil_r, <-app_assoc.
        destruct (Nat.leb_spec (S q) (subscriptions ops)); [done|lia].
      * rewrite length_app. cbn. lia.
      * left. apply Hsubs'. split; [done|]. unfold full. rewrite E. by apply Nat.leb_gt.
    + injection Hl as <-. split; [|done|].
      * exists (missed ++ [e]). rewrite published_after_snoc, Hev, Hrec, <-!app_assoc.
        destruct (Nat.leb_spec (S q) (subscriptions ops)); [|lia]. split; [done|]. by intros [? _]%Hsubs'.
      * rewrite Hrec. destruct Hd as [?|[?|?]]; [done|right; left; set_solver|by right; right].
  - intros q E. rewrite received_snoc, app_nil_r. apply Hg. rewrite Hqs' in E. case_decide; [|done]. by apply fmap_None in E.
Qed.

Lemma subscribe_inv size ops xs w : bus_inv size ops xs w →
  bus_inv size (ops ++ [Subscribe]) (xs ++ [Subscribed (length (w_queues w))]) (subscribe w).2.
Proof.
  intros [Hsize Hhist Hlen Hnd Hsub Hq Hg]. unfold subscribe. cbn [snd].
  assert (Hfresh : ∀ q, q ∈ w_subscribers w → (q < length (w_queues w))%nat).
  { intros q [? ?]%Hsub. by eapply lookup_lt_Some. }
  split; cbn [w_buffer_size w_history w_subscribers w_queues].
  - done.
  - by rewrite published_snoc, app_nil_r.
  - by rewrite length_app, subscriptions_snoc, Hlen.
  - apply NoDup_app. split_and!; [done| |apply NoDup_singleton].
    intros q Hin%Hfresh ->%list_elem_of_singleton. lia.
  - intros q [Hin| ->%list_elem_of_singleton]%elem_of_app.
    + rewrite lookup_app_l by auto. by apply Hsub.
    + rewrite lookup_app_r, Nat.sub_diag by done. by eexists.
  - intros q l [Hl|[Hge Hl]]%lookup_app_Some.
    + destruct (Hq q l Hl) as [(missed & Hev & Hm) Hb Hd]. pose proof (lookup_lt_Some _ _ _ Hl) as Hlt. split; [|done|].
      * exists missed. rewrite published_after_snoc, received_snoc, !app_nil_r. split; [done|].
        intros [?| ->%list_elem_of_singleton]%elem_of_app; [auto|lia].
      * rewrite received_snoc, app_nil_r. destruct Hd as [?|[?|?]]; [left|right; left|by right; right]; set_solver.
    + apply list_lookup_singleton_Some in Hl as [Hz <-]. assert (q = length (w_queues w)) as -> by lia.
      split; [|cbn; lia|left; set_solver].
      exists []. rewrite published_after_snoc, published_after_none by lia.
      rewrite received_snoc, Hg by (apply lookup_ge_None; lia). done.
  - intros q Hn. rewrite received_snoc, app_nil_r. apply Hg. apply lookup_ge_None in Hn. rewrite length_app in Hn.
    apply lookup_ge_None. lia.
Qed.

Lemma unsubscribe_inv size ops xs w q0 : bus_inv size ops xs w →
  ∃ w', unsubscribe q0 w = Ok w' ∧ bus_inv size (ops ++ [Unsubscribe q0]) (xs ++ [Done]) w'.
Proof.
  intros [Hsize Hhist Hlen Hnd Hsub Hq Hg]. unfold unsubscribe.
  assert (∃ s', (if bool_decide (q0 ∈ w_subscribers w) then list_remove q0 (w_subscribers w) else Ok (w_subscribers w)) = Ok s' ∧
            NoDup s' ∧ ∀ y, y ∈ s' ↔ y ∈ w_subscribers w ∧ y ≠ q0) as (s' & Es & Hs' & Hin).
  { case_bool_decide as Hin; [by apply list_remove_spec|]. eexists. split_and!; [done..|]. naive_solver. }
  exists {| w_buffer_size := w_buffer_size w; w_history := w_history w; w_subscribers := s'; w_queues := w_queues w |}.
  split; [case_bool_decide; [by rewrite Es|injection Es as <-; by destruct w]|].
  split; cbn [w_buffer_size w_history w_subscribers w_queues].
  - done.
  - by rewrite published_snoc, app_nil_r.
  - by rewrite subscriptions_snoc, Nat.add_0_r.
  - done.
  - intros q [? _]%Hin. by apply Hsub.
  - intros q l Hl. destruct (Hq q l Hl) as [(missed & Hev & Hm) Hb Hd].
    split; [|done|]; rewrite received_snoc, !app_nil_r.
    + exists missed. rewrite published_after_snoc, app_nil_r. split; [done|]. intros [? _]%Hin. auto.
    + destruct (decide (q = q0)) as [->|Hne]; [right; left; set_solver|].
      destruct Hd as [?|[?|?]]; [left; by apply Hin|right; left; set_solver|by right; right].
  - intros q Hn. rewrite received_snoc, app_nil_r. auto.
Qed.

Lemma next_inv size ops xs w q0 : bus_inv size ops xs w →
  bus_inv size (ops ++ [Next q0]) (xs ++ [Got q0 (queue_get q0 w).1]) (queue_get q0 w).2.
Proof.
  intros [Hsize Hhist Hlen Hnd Hsub Hq Hg].
  assert (Hstep : ∀ qs x, length qs = length (w_queues w) → (is_Some x → (q0 < length qs)%nat) →
    (∀ q l, qs !! q = Some l → ∃ l0, w_queues w !! q = Some l0 ∧ received q xs ++ l0 = received q (xs ++ [Got q0 x]) ++ l ∧ (length l <= length l0)%nat) →
    bus_inv size (ops ++ [Next q0]) (xs ++ [Got q0 x])
      {| w_buffer_size := w_buffer_size w; w_history := w_history w; w_subscribers := w_subscribers w; w_queues := qs |}).
  { intros qs x Hlq Hx Hqs. split; cbn [w_buffer_size w_history w_subscribers w_queues].
    - done.
    - by rewrite published_snoc, app_nil_r.
    - by rewrite subscriptions_snoc, Nat.add_0_r, Hlq.
    - done.
    - intros q [? Hin%lookup_lt_Some]%Hsub. apply lookup_lt_is_Some. lia.
    - intros q l Hl. destruct (Hqs q l Hl) as (l0 & Hl0 & Happ & Hle).
      destruct (Hq q l0 Hl0) as [(missed & Hev & Hm) Hb Hd]. split.
      + exists missed. rewrite published_after_snoc, app_nil_r, Hev, !app_assoc, Happ. done.
      + lia.
      + rewrite <-Happ. destruct Hd as [?|[?|?]]; [by left|right; left; set_solver|by right; right].
    - intros q Hn. rewrite received_snoc, Hg by (apply lookup_ge_None; rewrite <-Hlq; by apply lookup_ge_None).
      destruct x as [e|]; [|done]. destruct (Nat.eqb_spec q q0) as [->|]; [|done].
      apply lookup_ge_None in Hn. specialize (Hx (ex_intro _ e eq_refl)). lia. }
  unfold queue_get. destruct (w_queues w !! q0) as [[|e l]|] eqn:E; cbn [fst snd].
  - destruct w. apply Hstep; [done|by intros [? ?]|]. intros q l Hl. exists l. by rewrite received_snoc, app_nil_r.
  - apply Hstep; [by rewrite length_insert|intros _; rewrite length_insert; by eapply lookup_lt_Some|].
    intros q l' Hl. rewrite received_snoc. destruct (Nat.eqb_spec q q0) as [->|Hne].
    + rewrite list_lookup_insert_eq in Hl by (by eapply lookup_lt_Some). apply (inj Some) in Hl as <-.
      exists (e :: l). rewrite <-app_assoc. split_and!; [done..|cbn; lia].
    + rewrite list_lookup_insert_ne in Hl by done. exists l'. by rewrite app_nil_r.
  - destruct w. apply Hstep; [done|by intros [? ?]|]. intros q l Hl. exists l. by rewrite received_snoc, app_nil_r.
Qed.

(** No history raises, and every history keeps the invariant. *)
Lemma bus_run_inv size ops w : new_bus size = Ok w →
  ∃ xs w', run ops w = Ok (xs, w') ∧ bus_inv (Z.to_nat size) ops xs w'.
Proof.
  intros Hw. induction ops as [|o ops (xs & w' & E & Hinv)] using rev_ind.
  { exists [], w. split; [done|]. by apply bus_inv_init. }
  unfold run in *. rewrite foldM_app, E. cbn. unfold run_step. cbn [fst snd].
  destruct o as [e| |q|q]; cbn [step].
  - destruct (publish_inv _ _ _ _ e Hinv) as (w2 & -> & H2). cbn. eauto.
  - apply subscribe_inv in Hinv. destruct (subscribe w') as [q w2] eqn:Es. unfold subscribe in Es.
    injection Es as <- <-. cbn. eauto.
  - destruct (unsubscribe_inv _ _ _ _ q Hinv) as (w2 & -> & H2). cbn. eauto.
  - apply (next_inv _ _ _ _ q) in Hinv. destruct (queue_get q w') as [x w2]. cbn in *. eauto.
Qed.

Lemma published_after_nexts n ops k q : published_after n (ops ++ replicate k (Next q)) = published_after n ops.
Proof.
  induction k as [|k IH]; [by rewrite app_nil_r|].
  replace (S k) with (k + 1)%nat by lia. rewrite replicate_add, app_assoc. cbn [replicate].
  by rewrite published_after_snoc, app_nil_r.
Qed.

Lemma run_step_next q xs w :
  run_step (xs, w) (Next q) = Ok (xs ++ [Got q (queue_get q w).1], (queue_get q w).2).
Proof. unfold run_step. cbn. by destruct (queue_get q w). Qed.

(** Reading [k] times takes the first [k] events out of the queue. *)
Lemma drain q k xs w l : w_queues w !! q = Some l →
  ∃ xs' w', foldM run_step (xs, w) (replicate k (Next q)) = Ok (xs', w') ∧
    w_queues w' !! q = Some (drop k l) ∧ w_subscribers w' = w_subscribers w.
Proof.
  revert xs w l. induction k as [|k IH]; intros xs w l Hl; cbn [replicate foldM]; [by exists xs, w|].
  rewrite run_step_next. unfold queue_get. rewrite Hl. destruct l as [|e l]; cbn.
  - destruct (IH (xs ++ [Got q None]) w [] Hl) as (xs' & w' & -> & Hl' & Hs). exists xs', w'.
    rewrite drop_nil in Hl'. done.
  - edestruct (IH (xs ++ [Got q (Some e)])) as (xs' & w' & E & Hl' & Hs); [|exists xs', w'; rewrite E; done].
    cbn. apply list_lookup_insert_eq. by eapply lookup_lt_Some.
Qed.

(** ** Delivery *)

Lemma last_n_last_n {A} m n (l : list A) : last_n n (last_n m l) = last_n (Nat.min n m) l.
Proof. unfold last_n. rewrite length_drop, drop_drop. f_equal. lia. Qed.

Lemma recent_exact limit w : 0 < limit → get_recent_events limit w = last_n (Z.to_nat limit) (w_history w).
Proof.
  intros H. unfold get_recent_events, slice_from, last_n. destruct (Z.ltb_spec (- limit) 0); [|lia].
  f_equal. lia.
Qed.

(** A limit of zero asks for [items[-0:]], which is the whole buffer. *)
Lemma recent_zero w : get_recent_events 0 w = w_history w.
Proof. done. Qed.

(** C16. Delivery, for every history of publications, subscriptions, cancellations
    and reads: no step raises; the recent events are the last ones published, up to
    the limit and the size of the buffer; what the reader of a queue has received,
    followed by what waits in its queue (at most 200 events), is a prefix of the
    events published since it subscribed.  While it is a subscriber the prefix is
    everything; it only misses events after it unsubscribed or was found with a
    full queue. *)
Theorem delivery_exact (size : Z) (ops : list op) (w0 : bus) : new_bus size = Ok w0 →
  ∃ xs w, run ops w0 = Ok (xs, w) ∧
    (∀ limit, 0 < limit →
      get_recent_events limit w = last_n (Nat.min (Z.to_nat limit) (Z.to_nat size)) (published ops)) ∧
    ∀ q l, w_queues w !! q = Some l →
      (length l <= 200)%nat ∧
      ∃ missed, published_after (S q) ops = received q xs ++ l ++ missed ∧
        (q ∈ w_subscribers w → missed = []) ∧
        (missed ≠ [] → Unsubscribe q ∈ ops ∨ (200 <= length (received q xs ++ l))%nat).
Proof.
  intros Hw. destruct (bus_run_inv size ops w0 Hw) as (xs & w & E & Hinv). exists xs, w. split; [done|]. split.
  - intros limit Hlimit. rewrite recent_exact by done. by rewrite (bi_history _ _ _ _ Hinv), last_n_last_n.
  - intros q l Hl. destruct (bi_queue _ _ _ _ Hinv q l Hl) as [(missed & Hev & Hm) Hb Hd].
    split; [done|]. exists missed. split_and!; [done..|]. intros Hne. destruct Hd as [?|?]; [exfalso; auto|done].
Qed.

(** C17. Liveness: after any history, a reader that is still subscribed and reads 200
    more times has received every event published since it subscribed. *)
Theorem reader_catches_up (size : Z) (ops : list op) (w0 w : bus) (xs : list shown) (q : nat) :
  new_bus size = Ok w0 → run ops w0 = Ok (xs, w) → q ∈ w_subscribers w →
  ∃ xs' w', run (ops ++ replicate 200 (Next q)) w0 = Ok (xs', w') ∧ received q xs' = published_after (S q) ops.
Proof.
  intros Hw Hrun Hq. destruct (bus_run_inv size ops w0 Hw) as (xs1 & w1 & E & Hinv).
  rewrite Hrun in E. injection E as <- <-. destruct (bi_subs _ _ _ _ Hinv q Hq) as [l Hl].
  destruct (drain q 200 xs w l Hl) as (xs' & w' & E & Hl' & Hs).
  assert (Hrun' : run (ops ++ replicate 200 (Next q)) w0 = Ok (xs', w')).
  { unfold run in *. rewrite foldM_app, Hrun. exact E. }
  exists xs', w'. split; [done|]. destruct (bus_run_inv size (ops ++ replicate 200 (Next q)) w0 Hw) as (x2 & w2 & E2 & H2).
  rewrite Hrun' in E2. injection E2 as <- <-.
  assert (Hb := qi_bound _ _ _ _ _ (bi_queue _ _ _ _ Hinv q l Hl)). unfold queue_maxsize in Hb.
  rewrite drop_ge in Hl' by done. destruct (bi_queue _ _ _ _ H2 q [] Hl') as [(missed & Hev & Hm) _ _].
  rewrite published_after_nexts, Hm, app_nil_r in Hev by (by rewrite Hs). done.
Qed.

(** ** Witnesses *)

Definition example_event (title : string) : SovereignEvent :=
  {| se_event_id := "id"; se_domain := "SPACE"; se_event_type := "PASS"; se_corridor_id := "c"; se_severity := "INFO";
     se_threat_score := lit 0.5; se_title := title; se_payload := ∅;
     se_timestamp := {| dt_us := 0; dt_aware := true |} |}.

Definition example_ops : list op :=
  [Subscribe; Publish (example_event "a"); Subscribe; Publish (example_event "b"); Next 0; Next 0; Next 0; Unsubscribe 0;
   Publish (example_event "c")].

Definition example_bus : bus := {| w_buffer_size := 2; w_history := []; w_subscribers := []; w_queues := [] |}.

Lemma delivery_exact_witness : ∃ xs w, run example_ops example_bus = Ok (xs, w) ∧
  get_recent_events 50 w = [example_event "b"; example_event "c"].
Proof.
  destruct (delivery_exact 2 example_ops example_bus eq_refl) as (xs & w & E & Hrecent & _).
  exists xs, w. split; [exact E|]. exact (Hrecent 50 eq_refl).
Defined.

Lemma example_run : ∃ xs w, run example_ops example_bus = Ok (xs, w) ∧ (1 ∈ w_subscribers w)%nat.
Proof.
  eexists _, _. split; [vm_compute; reflexivity|]. cbn. by left.
Qed.

Lemma reader_catches_up_witness : ∃ xs' w',
  run (example_ops ++ replicate 200 (Next 1)) example_bus = Ok (xs', w') ∧
  received 1 xs' = [example_event "b"; example_event "c"].
Proof.
  destruct example_run as (xs & w & E & Hq).
  exact (reader_catches_up 2 example_ops example_bus w xs 1 eq_refl E Hq).
Defined.
