(* ===== verification/Cluster.v ===== *)
(** * cluster.py: the replicated log of an enclave

    [node] is the state of [RaftStateSynchronizer]: its log, the peers it
    tracks and its state store, both dictionaries in insertion order.  [sha256]
    is the hexadecimal digest and [dumps] the canonical JSON text of a payload
    ([json.dumps(payload, sort_keys=True)]), arguments of the model. *)

From Stdlib Require Import ZArith QArith DecimalString DecimalPos DecimalZ.
From S2P Require Import Prelude PyFloat PyFormat Domain State.

Open Scope Z_scope.

(** ** Data *)

Inductive ClusterNodeRole := LEADER | FOLLOWER | CANDIDATE | ISOLATED_SCIF.

Definition role_value (r : ClusterNodeRole) : string :=
  match r with
  | LEADER => "leader" | FOLLOWER => "follower" | CANDIDATE => "candidate" | ISOLATED_SCIF => "isolated_scif"
  end.

Record LogEntry := {
  le_index : Z;
  le_term : Z;
  le_command_type : string;
  le_payload_hash : string;
  le_created_at : datetime;
}.

Record SCIFNodeState := {
  ns_node_id : string;
  ns_enclave_name : string;
  ns_role : ClusterNodeRole;
  ns_current_term : Z;
  ns_last_log_index : Z;
  ns_last_log_term : Z;
  ns_merkle_state_root_hex : string;
  ns_peers_connected_count : Z;
  ns_bandwidth_kbps : float;
  ns_is_air_gapped : bool;
  ns_last_heartbeat : datetime;
}.

Record ClusterSyncResult := {
  cs_sync_id : string;
  cs_initiator_node_id : string;
  cs_peer_node_id : string;
  cs_synced_at : datetime;
  cs_entries_replicated : Z;
  cs_conflict_resolved : bool;
  cs_state_merkle_root : string;
  cs_consensus_score : float;
  cs_sync_status : string;
}.

Record node := {
  n_node_id : string;
  n_enclave_name : string;
  n_current_term : Z;
  n_role : ClusterNodeRole;
  n_log : list LogEntry;
  n_peers : dict string SCIFNodeState;
  n_state_store : dict string object;
}.

(** [RaftStateSynchronizer(node_id, enclave_name)] *)
Definition new_node (node_id enclave_name : string) : node :=
  {| n_node_id := node_id; n_enclave_name := enclave_name; n_current_term := 1; n_role := LEADER;
     n_log := []; n_peers := []; n_state_store := [] |}.

(** What [get_cluster_status] reports. *)
Record ClusterStatus := {
  st_local_node_id : string;
  st_enclave_name : string;
  st_role : string;
  st_current_term : Z;
  st_log_length : Z;
  st_merkle_state_root : string;
  st_active_peers_count : Z;
  st_peers : list SCIFNodeState;
}.

(** [f"{command_type}:{index}"] *)
Definition store_key (command_type : string) (index : Z) : string := command_type +:+ ":" +:+ str_Z index.

Section cluster.
Context (sha256 : string → string) (dumps : object → res string).

(** ** Operations *)

Definition compute_merkle_root (log : list LogEntry) : string :=
  match log with
  | [] => sha256 "GENESIS_EMPTY_CLUSTER"
  | _ => sha256 (str_join "" (le_payload_hash <$> log))
  end.

Definition append_command (command_type : string) (payload : object) (now : datetime) (n : node)
    : res (LogEntry * node) :=
  payload_bytes ← dumps payload;
  let entry := {| le_index := Z.of_nat (length (n_log n)) + 1; le_term := n_current_term n;
                  le_command_type := command_type; le_payload_hash := sha256 payload_bytes;
                  le_created_at := now |} in
  Ok (entry,
      {| n_node_id := n_node_id n; n_enclave_name := n_enclave_name n; n_current_term := n_current_term n;
         n_role := n_role n; n_log := n_log n ++ [entry]; n_peers := n_peers n;
         n_state_store := dset (n_state_store n) (store_key command_type (le_index entry)) payload |}).

Definition with_peers (n : node) (peers : dict string SCIFNodeState) : node :=
  {| n_node_id := n_node_id n; n_enclave_name := n_enclave_name n; n_current_term := n_current_term n;
     n_role := n_role n; n_log := n_log n; n_peers := peers; n_state_store := n_state_store n |}.

Definition register_peer (peer_id enclave_name : string) (is_air_gapped : bool) (bandwidth_kbps : float)
    (now : datetime) (n : node) : res node :=
  _ ← require (f0 <=? bandwidth_kbps)%F "bandwidth_kbps";
  Ok (with_peers n (dset (n_peers n) peer_id
    {| ns_node_id := peer_id; ns_enclave_name := enclave_name; ns_role := FOLLOWER;
       ns_current_term := n_current_term n; ns_last_log_index := 0; ns_last_log_term := 0;
       ns_merkle_state_root_hex := compute_merkle_root (n_log n); ns_peers_connected_count := 1;
       ns_bandwidth_kbps := bandwidth_kbps; ns_is_air_gapped := is_air_gapped; ns_last_heartbeat := now |})).

(** [peer.model_copy(update=...)] *)
Definition touch_peer (p : SCIFNodeState) (last_log_index : Z) (now : datetime) : SCIFNodeState :=
  {| ns_node_id := ns_node_id p; ns_enclave_name := ns_enclave_name p; ns_role := ns_role p;
     ns_current_term := ns_current_term p; ns_last_log_index := last_log_index;
     ns_last_log_term := ns_last_log_term p; ns_merkle_state_root_hex := ns_merkle_state_root_hex p;
     ns_peers_connected_count := ns_peers_connected_count p; ns_bandwidth_kbps := ns_bandwidth_kbps p;
     ns_is_air_gapped := ns_is_air_gapped p; ns_last_heartbeat := now |}.

Definition sync_with_peer (sync_id peer_id : string) (peer_log_index : Z) (now : datetime) (n : node)
    : ClusterSyncResult * node :=
  let entries_to_send := List.filter (λ e, peer_log_index <? le_index e) (n_log n) in
  let n := match dget (n_peers n) peer_id with
           | Some p => with_peers n (dset (n_peers n) peer_id (touch_peer p (Z.of_nat (length (n_log n))) now))
           | None => n
           end in
  ({| cs_sync_id := sync_id; cs_initiator_node_id := n_node_id n; cs_peer_node_id := peer_id;
      cs_synced_at := now; cs_entries_replicated := Z.of_nat (length entries_to_send);
      cs_conflict_resolved := false; cs_state_merkle_root := compute_merkle_root (n_log n);
      cs_consensus_score := if 0 <=? Z.of_nat (length entries_to_send) then f1 else lit 0.5;
      cs_sync_status := "SYNCHRONIZED_NOMINAL" |}, n).

Definition get_cluster_status (n : node) : ClusterStatus :=
  {| st_local_node_id := n_node_id n; st_enclave_name := n_enclave_name n; st_role := role_value (n_role n);
     st_current_term := n_current_term n; st_log_length := Z.of_nat (length (n_log n));
     st_merkle_state_root := compute_merkle_root (n_log n);
     st_active_peers_count := Z.of_nat (length (n_peers n)); st_peers := (n_peers n).*2 |}.

(** ** Histories: an operation that raises leaves the node as it was *)

Inductive op :=
| Append (command_type : string) (payload : object) (now : datetime)
| Register (peer_id enclave_name : string) (is_air_gapped : bool) (bandwidth_kbps : float) (now : datetime)
| Sync (sync_id peer_id : string) (peer_log_index : Z) (now : datetime).

Definition exec (n : node) (o : op) : node :=
  match o with
  | Append c p now => match append_command c p now n with Ok (_, n') => n' | Raise _ => n end
  | Register p e a b now => match register_peer p e a b now n with Ok n' => n' | Raise _ => n end
  | Sync s p i now => (sync_with_peer s p i now n).2
  end.

Definition run (ops : list op) (n : node) : node := foldl exec n ops.

(** The commands a history appends. *)
Definition commands (ops : list op) : list (string * object) :=
  omap (λ o, match o with Append c p _ => if is_ok (dumps p) then Some (c, p) else None | _ => None end) ops.

(** ** Keys of the state store *)

Fixpoint colon_free (s : string) : bool :=
  match s with
  | EmptyString => true
  | String c s => negb (Ascii.eqb c (Ascii.ascii_of_N 58)) && colon_free s
  end.

Lemma colon_free_uint d : colon_free (NilEmpty.string_of_uint d) = true.
Proof using. induction d; cbn; done. Qed.

Lemma colon_free_str_Z z : colon_free (str_Z z) = true.
Proof using. unfold str_Z, NilZero.string_of_int, NilZero.string_of_uint. destruct (Z.to_int z) as [d|d], d; try done; apply colon_free_uint. Qed.

Lemma colon_free_app a s : colon_free (a +:+ ":" +:+ s) = false.
Proof using. induction a as [|c a IH]; [done|].
  change (negb (Ascii.eqb c (Ascii.ascii_of_N 58)) && colon_free (a +:+ ":" +:+ s) = false). rewrite IH. apply andb_false_r. Qed.

Lemma colon_inj a b s t : colon_free s = true → colon_free t = true → a +:+ ":" +:+ s = b +:+ ":" +:+ t → s = t.
Proof using.
  intros Hs Ht. revert b. induction a as [|c a IH]; intros [|d b] E.
  - by injection E.
  - injection E as _ E. change (s = b +:+ ":" +:+ t) in E. rewrite E, colon_free_app in Hs. done.
  - injection E as _ E. change (a +:+ ":" +:+ s = t) in E. rewrite <-E, colon_free_app in Ht. done.
  - injection E as _ E. exact (IH b E).
Qed.

Lemma to_int_nonnil z : Z.to_int z ≠ Decimal.Pos Decimal.Nil ∧ Z.to_int z ≠ Decimal.Neg Decimal.Nil.
Proof using. destruct z; cbn; split; try done; intros [= E]; by apply DecimalPos.Unsigned.to_uint_nonnil in E. Qed.

Lemma str_Z_inj x y : str_Z x = str_Z y → x = y.
Proof using.
  intros H. apply DecimalZ.to_int_inj. apply (f_equal NilZero.int_of_string) in H. unfold str_Z in H.
  pose proof (to_int_nonnil x). pose proof (to_int_nonnil y).
  rewrite !NilZero.isi in H by naive_solver. congruence.
Qed.

Lemma store_key_inj c d i j : store_key c i = store_key d j → i = j.
Proof using. intros H%colon_inj; [by apply str_Z_inj|apply colon_free_str_Z..]. Qed.

(** ** The invariant *)

(** Entry [i] of a log records the command appended as number [i]. *)
Definition entry_of (n : node) (i : nat) (cmd : string * object) : Prop :=
  ∃ e text, n_log n !! i = Some e ∧ le_index e = Z.of_nat i + 1 ∧ le_term e = 1 ∧
    le_command_type e = cmd.1 ∧ dumps cmd.2 = Ok text ∧ le_payload_hash e = sha256 text ∧
    dget (n_state_store n) (store_key cmd.1 (le_index e)) = Some cmd.2.

Record node_inv (cmds : list (string * object)) (n : node) : Prop := {
  ni_term : n_current_term n = 1;
  ni_length : length (n_log n) = length cmds;
  ni_entries i cmd : cmds !! i = Some cmd → entry_of n i cmd;
  ni_peers id p : dget (n_peers n) id = Some p → 0 <= ns_last_log_index p <= Z.of_nat (length (n_log n));
}.

Lemma node_inv_peers cmds n peers : node_inv cmds n →
  (∀ id p, dget peers id = Some p → dget (n_peers n) id = Some p ∨ 0 <= ns_last_log_index p <= Z.of_nat (length (n_log n))) →
  node_inv cmds (with_peers n peers).
Proof using.
  intros [Ht Hl He Hp] H. split; [done..|]. cbn. intros id p Hid. destruct (H id p Hid); eauto.
Qed.

Lemma append_inv cmds n c p text now : node_inv cmds n → dumps p = Ok text →
  ∃ e n', append_command c p now n = Ok (e, n') ∧ node_inv (cmds ++ [(c, p)]) n'.
Proof using.
  intros [Ht Hl He Hp] Hd. unfold append_command. rewrite Hd. cbn [mbind res_bind].
  eexists _, _. split; [reflexivity|]. split; cbn -[store_key].
  - done.
  - rewrite !length_app. cbn. lia.
  - intros i cmd [Hi|[Hge Hi]]%lookup_app_Some.
    + destruct (He i cmd Hi) as (e & t & Elog & Ei & Et & Ec & Ed & Eh & Es). exists e, t.
      split_and!; try done; cbn -[store_key]; [by apply lookup_app_l_Some|].
      rewrite dget_dset_ne; [done|]. intros E%store_key_inj. apply lookup_lt_Some in Hi. lia.
    + apply list_lookup_singleton_Some in Hi as [Hi <-]. assert (i = length (n_log n)) as -> by lia.
      eexists _, text. split; [cbn; by rewrite lookup_app_r, Nat.sub_diag by done|].
      cbn -[store_key]. split_and!; [done..|]. apply dget_dset_eq.
  - intros id q Hq. rewrite length_app. cbn. specialize (Hp id q Hq). lia.
Qed.

Lemma register_inv cmds n p e a b now n' : node_inv cmds n → register_peer p e a b now n = Ok n' → node_inv cmds n'.
Proof using.
  intros Hn H. unfold register_peer in H. inv_ok. apply node_inv_peers; [done|]. intros id q Hq.
  destruct (decide (id = p)) as [->|Hne].
  - rewrite dget_dset_eq in Hq. injection Hq as <-. right. cbn. lia.
  - rewrite dget_dset_ne in Hq by congruence. by left.
Qed.

Lemma sync_inv cmds n s p i now : node_inv cmds n → node_inv cmds (sync_with_peer s p i now n).2.
Proof using.
  intros Hn. unfold sync_with_peer. cbn [snd]. destruct (dget (n_peers n) p) as [q|]; [|done].
  apply node_inv_peers; [done|]. intros id q' Hq. destruct (decide (id = p)) as [->|Hne].
  - rewrite dget_dset_eq in Hq. injection Hq as <-. right. cbn. lia.
  - rewrite dget_dset_ne in Hq by congruence. by left.
Qed.

Lemma commands_snoc ops o : commands (ops ++ [o]) = commands ops ++ commands [o].
Proof using. apply omap_app. Qed.

Lemma run_inv ops id enclave : node_inv (commands ops) (run ops (new_node id enclave)).
Proof using.
  induction ops as [|o ops IH] using rev_ind; [split; done|].
  unfold run. rewrite foldl_app, commands_snoc. cbn [foldl]. fold (run ops (new_node id enclave)).
  destruct o as [c p now|p e a b now|s p i now]; cbn [exec].
  - unfold commands. cbn. destruct (dumps p) as [text|x] eqn:Hd; cbn.
    + destruct (append_inv _ _ c p text now IH Hd) as (e & n' & -> & H). done.
    + unfold append_command. rewrite Hd. cbn. by rewrite app_nil_r.
  - cbn. rewrite app_nil_r. destruct (register_peer _ _ _ _ _ _) eqn:E; [by eapply register_inv|done].
  - rewrite app_nil_r. by apply (sync_inv _ _ s p i now).
Qed.

(** ** Synchronisation *)

Lemma entries_after log k n : (∀ i e, log !! i = Some e → le_index e = Z.of_nat (n + i) + 1) →
  Z.of_nat (length (List.filter (λ e, k <? le_index e) log)) = Z.min (Z.of_nat (length log)) (Z.max 0 (Z.of_nat (n + length log) - k)).
Proof using.
  revert n. induction log as [|e log IH]; intros n H; cbn [List.filter length].
  - lia.
  - pose proof (H 0%nat e eq_refl) as He. specialize (IH (S n)).
    assert (IH' : Z.of_nat (length (List.filter (λ e, k <? le_index e) log)) =
      Z.min (Z.of_nat (length log)) (Z.max 0 (Z.of_nat (S n + length log) - k))).
    { apply IH. intros i x Hi. rewrite (H (S i) x Hi). lia. }
    destruct (Z.ltb_spec k (le_index e)); cbn [length]; lia.
Qed.

(** In every history of a node its log holds the commands appended, in
    order, numbered from one, each with the digest of its payload, and the state
    store holds every payload under its key; a synchronisation counts exactly
    the entries past the index the peer states. *)
Theorem cluster_log_exact ops id enclave :
  let n := run ops (new_node id enclave) in
  length (n_log n) = length (commands ops) ∧
  (∀ i c p, commands ops !! i = Some (c, p) → ∃ e text,
     n_log n !! i = Some e ∧ le_index e = Z.of_nat i + 1 ∧ le_command_type e = c ∧
     dumps p = Ok text ∧ le_payload_hash e = sha256 text ∧
     dget (n_state_store n) (store_key c (Z.of_nat i + 1)) = Some p) ∧
  (∀ peer q, dget (n_peers n) peer = Some q → 0 <= ns_last_log_index q <= Z.of_nat (length (n_log n))) ∧
  ∀ s peer k now, cs_entries_replicated (sync_with_peer s peer k now n).1 =
    Z.min (Z.of_nat (length (commands ops))) (Z.max 0 (Z.of_nat (length (commands ops)) - k)).
Proof using.
  intros n. destruct (run_inv ops id enclave) as [Ht Hl He Hp]. fold n in Ht, Hl, He, Hp. split_and!.
  - done.
  - intros i c p Hi. destruct (He i (c, p) Hi) as (e & t & Elog & Ei & _ & Ec & Ed & Eh & Es).
    rewrite Ei in Es. exists e, t. split_and!; done.
  - exact Hp.
  - intros s peer k now. unfold sync_with_peer. cbn [fst cs_entries_replicated]. rewrite <-Hl.
    apply (entries_after _ _ 0). intros i e Hi.
    destruct (lookup_lt_is_Some_2 (commands ops) i) as [cmd Hc]; [rewrite <-Hl; by eapply lookup_lt_Some|].
    destruct (He i cmd Hc) as (e' & t & Elog & Ei & _). cbn [Nat.add]. congruence.
Qed.

(** ** The state root *)

(** Digests of equal length can be read back from their concatenation. *)
Lemma join_cons a l : str_join "" (a :: l) = a +:+ str_join "" l.
Proof using.
  unfold str_join. destruct l as [|b l]; [|done]. cbn. clear. induction a as [|c a IH]; [done|]. exact (f_equal (String c) IH).
Qed.

Definition sized (k : nat) (s : string) : Prop := String.length s = k.

Lemma join_length k l : Forall (sized k) l → String.length (str_join "" l) = (k * length l)%nat.
Proof using.
  induction 1 as [|a l Ha Hl IH]; [cbn; lia|]. rewrite join_cons, str_length_app, IH, Ha. cbn. lia.
Qed.

Lemma join_inj k l m : (0 < k)%nat → Forall (sized k) l → Forall (sized k) m → str_join "" l = str_join "" m → l = m.
Proof using.
  intros Hk Hl Hm E. assert (Hlen : length l = length m).
  { apply (f_equal String.length) in E. rewrite !(join_length k) in E by done. nia. }
  revert m Hlen Hm E. induction Hl as [|a l Ha Hl IH]; intros [|b m] Hlen Hm E; try done.
  inversion Hm as [|? ? Hb Hm']; subst. injection Hlen as Hlen. rewrite !join_cons in E.
  apply str_app_inj in E as [-> E]; [|by rewrite Ha, Hb]. f_equal. by apply IH.
Qed.

(** Two texts with the same digest. *)
Definition collision : Prop := ∃ a b, a ≠ b ∧ sha256 a = sha256 b.

(** Equal digests are digests of equal texts, or there is a collision. *)
Lemma digests_inj (l m : list string) : sha256 <$> l = sha256 <$> m → l = m ∨ collision.
Proof using.
  revert m. induction l as [|a l IH]; intros [|b m] E; try done; [by left|].
  injection E as Eab E. destruct (decide (a = b)) as [->|Hne]; [|right; by exists a, b].
  destruct (IH m E) as [->|?]; [by left|by right].
Qed.

(** The canonical text of a command. *)
Definition text_of (cmd : string * object) : string := match dumps cmd.2 with Ok t => t | Raise _ => "" end.

Lemma log_hashes cmds n : node_inv cmds n →
  le_payload_hash <$> n_log n = sha256 <$> (text_of <$> cmds) ∧ (λ cmd, dumps cmd.2) <$> cmds = (λ cmd, Ok (text_of cmd)) <$> cmds.
Proof using.
  intros [_ Hl He _]. split; apply list_eq; intros i; rewrite !list_lookup_fmap.
  - destruct (cmds !! i) as [cmd|] eqn:E.
    + destruct (He i cmd E) as (e & t & Elog & _ & _ & _ & Ed & Eh & _). rewrite Elog. cbn.
      unfold text_of. by rewrite Ed, Eh.
    + apply lookup_ge_None in E. rewrite (proj2 (lookup_ge_None (n_log n) i)) by lia. done.
  - destruct (cmds !! i) as [cmd|] eqn:E; [|done]. destruct (He i cmd E) as (e & t & _ & _ & _ & _ & Ed & _).
    cbn. unfold text_of. by rewrite Ed.
Qed.

Lemma root_texts log texts : le_payload_hash <$> log = sha256 <$> texts →
  compute_merkle_root log = match texts with [] => sha256 "GENESIS_EMPTY_CLUSTER" | _ => sha256 (str_join "" (sha256 <$> texts)) end.
Proof using. intros E. unfold compute_merkle_root. destruct log, texts; try done. by rewrite E. Qed.

Lemma roots_inj (l m : list string) : (∀ s, String.length (sha256 s) = 64%nat) →
  match l with [] => sha256 "GENESIS_EMPTY_CLUSTER" | _ => sha256 (str_join "" (sha256 <$> l)) end =
  match m with [] => sha256 "GENESIS_EMPTY_CLUSTER" | _ => sha256 (str_join "" (sha256 <$> m)) end →
  l = m ∨ collision.
Proof using.
  intros H64. assert (Hs : ∀ l, Forall (sized 64) (sha256 <$> l)).
  { intros k. apply Forall_fmap, Forall_true. intros x. apply H64. }
  assert (Hg : ∀ a k, str_join "" (sha256 <$> (a :: k)) ≠ "GENESIS_EMPTY_CLUSTER").
  { intros a k E. apply (f_equal String.length) in E. rewrite (join_length 64) in E by apply Hs. cbn in E. lia. }
  destruct l as [|a l], m as [|b m]; intros E.
  - by left.
  - right. exists "GENESIS_EMPTY_CLUSTER", (str_join "" (sha256 <$> (b :: m))). split; [|done]. intros F. by apply (Hg b m).
  - right. exists (str_join "" (sha256 <$> (a :: l))), "GENESIS_EMPTY_CLUSTER". split; [apply Hg|done].
  - destruct (decide (str_join "" (sha256 <$> (a :: l)) = str_join "" (sha256 <$> (b :: m)))) as [F|F].
    + apply (join_inj 64) in F; [by apply digests_inj|lia|apply Hs..].
    + right. by exists (str_join "" (sha256 <$> (a :: l))), (str_join "" (sha256 <$> (b :: m))).
Qed.

(** Two nodes with the same state root have appended the same sequence of
    payloads (up to their canonical text), unless the hash has a collision. The
    root does not bind the types of the commands. *)
Theorem root_binds_payloads ops1 ops2 id1 id2 enclave1 enclave2 :
  (∀ s, String.length (sha256 s) = 64%nat) →
  compute_merkle_root (n_log (run ops1 (new_node id1 enclave1))) =
    compute_merkle_root (n_log (run ops2 (new_node id2 enclave2))) →
  (λ cmd, dumps cmd.2) <$> commands ops1 = (λ cmd, dumps cmd.2) <$> commands ops2 ∨ collision.
Proof using.
  intros H64 E. destruct (log_hashes _ _ (run_inv ops1 id1 enclave1)) as [H1 T1].
  destruct (log_hashes _ _ (run_inv ops2 id2 enclave2)) as [H2 T2].
  rewrite (root_texts _ _ H1), (root_texts _ _ H2) in E.
  destruct (roots_inj _ _ H64 E) as [F|?]; [left|by right].
  rewrite T1, T2. apply (f_equal (fmap (M:=list) (@Ok string))) in F. by rewrite <-!list_fmap_compose in F.
Qed.

(** The root ignores what kind of command an entry records. *)
Lemma root_ignores_types log1 log2 : le_payload_hash <$> log1 = le_payload_hash <$> log2 →
  compute_merkle_root log1 = compute_merkle_root log2.
Proof using. unfold compute_merkle_root. destruct log1, log2; intros E; try done. by rewrite E. Qed.

End cluster.

(** ** A concrete history *)

Section sample.
(** A digest of 64 characters that depends on the length of the text only. *)
Definition sample_hash (s : string) : string :=
  if (String.length s =? 0)%nat then str_repeat 64 "0" else str_repeat 64 "1".

Definition sample_dumps (m : object) : res string := Ok (if decide (m = ∅) then "{}" else "{...}").

Definition sample_now : datetime := {| dt_us := 0; dt_aware := true |}.

Definition sample_ops : list op := [Append "SET" ∅ sample_now; Append "SET" {["k" := JNum 1]} sample_now].

Lemma root_binds_payloads_witness :
  (λ cmd, sample_dumps cmd.2) <$> commands sample_dumps sample_ops =
    (λ cmd, sample_dumps cmd.2) <$> commands sample_dumps sample_ops ∨ collision sample_hash.
Proof.
  apply (root_binds_payloads sample_hash sample_dumps sample_ops sample_ops "a" "b" "x" "y").
  - intros s. unfold sample_hash. destruct (_ =? _)%nat; reflexivity.
  - reflexivity.
Defined.
End sample.
