(* ===== verification/Cache.v ===== *)
(** * sources/cache.py: the content-addressed snapshot cache

    A snapshot of a source with the given digest lives in the directory
    source/digest[:2]/digest of the root, which holds payload.bin and
    metadata.json; [cache] maps the source and the digest to these two files (a
    source identifier is one path component).  A metadata file is seen through
    [json.loads]; [json.dumps] with sorted keys writes different records
    differently.  Each write is atomic (a rename), so an interrupted store leaves
    the payload without metadata: [StoreInterrupted].  [sha256] is the digest and
    [http_get] the HTTP client. *)

From Stdlib Require Import ZArith.
From S2P Require Import Prelude PyFloat PyFormat Domain.

Open Scope Z_scope.

(** ** Data *)

Record SnapshotMetadata := {
  sm_snapshot_id : string;
  sm_source_id : string;
  sm_url : string;
  sm_retrieved_at : datetime;
  sm_content_sha256 : string;
  sm_content_type : option string;
  sm_etag : option string;
  sm_last_modified : option string;
  sm_status_code : Z;
}.

#[export] Instance SnapshotMetadata_eq_dec : EqDecision SnapshotMetadata.
Proof. solve_decision. Defined.

(** A metadata file: the record, JSON that is no such record, or no JSON. *)
Inductive metafile :=
| Meta (m : SnapshotMetadata)
| OtherJson
| NotJson.

#[export] Instance metafile_eq_dec : EqDecision metafile.
Proof. solve_decision. Defined.

Record directory := { d_payload : option string; d_metadata : option metafile }.

Notation cache := (gmap (string * string) directory).

Definition new_directory : directory := {| d_payload := None; d_metadata := None |}.

(** An answer of an HTTP server: its body, headers and status. *)
Notation response := (string * dict string string * Z)%type.

Section cache.
Context (sha256 : string → string) (http_get : string → res response).

(** ** Storing *)

(** [_atomic_write]: a file that exists may only be written with its contents. *)
Definition atomic_write {A} `{EqDecision A} (old : option A) (content : A) : res (option A) :=
  match old with
  | Some c => _ ← raise_if (negb (bool_decide (c = content))) (ValueError "immutable snapshot collision"); Ok old
  | None => Ok (Some content)
  end.

Definition new_metadata (source_id url body : string) (headers : dict string string) (status : Z) (now : datetime)
    : SnapshotMetadata :=
  let digest := sha256 body in
  {| sm_snapshot_id := source_id +:+ "-" +:+ String.substring 0 20 digest; sm_source_id := source_id; sm_url := url;
     sm_retrieved_at := now; sm_content_sha256 := digest; sm_content_type := dget headers "content-type";
     sm_etag := dget headers "etag"; sm_last_modified := dget headers "last-modified"; sm_status_code := status |}.

(** [mkdir(parents=True, exist_ok=True)] *)
Definition make_directory (key : string * string) (fs : cache) : directory := default new_directory (fs !! key).

(** The first write of [store], of the payload. *)
Definition store_payload (source_id body : string) (fs : cache) : res unit * cache :=
  let key := (source_id, sha256 body) in
  let dir := make_directory key fs in
  match atomic_write (d_payload dir) body with
  | Ok payload => (Ok tt, <[key := {| d_payload := payload; d_metadata := d_metadata dir |}]> fs)
  | Raise e => (Raise e, <[key := dir]> fs)
  end.

(** The second, of the metadata. *)
Definition store_metadata (m : SnapshotMetadata) (fs : cache) : res SnapshotMetadata * cache :=
  let key := (sm_source_id m, sm_content_sha256 m) in
  let dir := make_directory key fs in
  match atomic_write (d_metadata dir) (Meta m) with
  | Ok metadata => (Ok m, <[key := {| d_payload := d_payload dir; d_metadata := metadata |}]> fs)
  | Raise e => (Raise e, fs)
  end.

Definition store (source_id url body : string) (headers : dict string string) (status : Z) (now : datetime) (fs : cache)
    : res SnapshotMetadata * cache :=
  match store_payload source_id body fs with
  | (Ok _, fs) => store_metadata (new_metadata source_id url body headers status now) fs
  | (Raise e, fs) => (Raise e, fs)
  end.

Definition fetch (source_id url : string) (outbound_enabled : bool) (now : datetime) (fs : cache)
    : res (SnapshotMetadata * string) * cache :=
  if negb outbound_enabled then
    (Raise (RuntimeError "outbound HTTP disabled; use an imported or existing snapshot"), fs)
  else match http_get url with
       | Raise e => (Raise e, fs)
       | Ok (body, headers, status) =>
           let '(m, fs) := store source_id url body headers status now fs in ((λ m, (m, body)) <$> m, fs)
       end.

(** [import_file]: [file] is what [path.read_bytes()] gives. *)
Definition import_file (source_id url : string) (file : res string) (content_type : option string) (now : datetime)
    (fs : cache) : res SnapshotMetadata * cache :=
  match file with
  | Raise e => (Raise e, fs)
  | Ok body =>
      let headers := match content_type with
                     | Some t => if str_empty t then [] else [("content-type", t)]
                     | None => []
                     end in
      store source_id url body headers 200 now fs
  end.

(** ** Reading *)

Definition read (source_id digest : string) (fs : cache) : res (metafile * string) :=
  match fs !! (source_id, digest) with
  | Some {| d_payload := payload; d_metadata := metadata |} =>
      metadata ← match metadata with
                 | Some NotJson => Raise (ValueError "Expecting value")
                 | Some f => Ok f
                 | None => Raise (FileNotFoundError "metadata.json")
                 end;
      body ← match payload with Some b => Ok b | None => Raise (FileNotFoundError "payload.bin") end;
      _ ← raise_if (negb (str_eqb (sha256 body) digest)) (ValueError "snapshot hash mismatch");
      Ok (metadata, body)
  | None => Raise (FileNotFoundError "metadata.json")
  end.

(** One metadata file in the loop of [latest]. *)
Definition latest_step (source_id : string) (url : option string) (max_age_hours : option float) (now : datetime)
    (fs : cache) (candidates : list SnapshotMetadata) (digest : string) : res (list SnapshotMetadata) :=
  match fs !! (source_id, digest) ≫= d_metadata with
  | Some (Meta m) =>
      if match url with Some u => negb (str_eqb (sm_url m) u) | None => false end then Ok candidates
      else match max_age_hours with
           | Some max_age =>
               _ ← raise_if (negb (dt_aware (sm_retrieved_at m)))
                     (TypeError "can't subtract offset-naive and offset-aware datetimes");
               age_hours ← hours_between now (sm_retrieved_at m);
               Ok (if (max_age <? age_hours)%F then candidates else candidates ++ [m])
           | None => Ok (candidates ++ [m])
           end
  | _ => Ok candidates
  end.

(** [max(candidates, key=retrieved_at)]: the first of the greatest texts. *)
Definition newest (first : SnapshotMetadata) (rest : list SnapshotMetadata) : SnapshotMetadata :=
  foldl (λ best m, if str_ltb (isoformat (sm_retrieved_at best)) (isoformat (sm_retrieved_at m)) then m else best) first rest.

(** [order] is the order in which [glob] finds the directories of the source. *)
Definition latest (source_id : string) (url : option string) (max_age_hours : option float) (now : datetime)
    (order : list string) (fs : cache) : res (option (SnapshotMetadata * string)) :=
  candidates ← foldM (latest_step source_id url max_age_hours now fs) [] order;
  match candidates with
  | [] => Ok None
  | first :: rest =>
      let m := newest first rest in
      '(_, body) ← read (sm_source_id m) (sm_content_sha256 m) fs; Ok (Some (m, body))
  end.

(** ** Histories *)

Inductive op :=
| Store (source_id url body : string) (headers : dict string string) (status : Z) (now : datetime)
| StoreInterrupted (source_id body : string).

Definition exec (fs : cache) (o : op) : cache :=
  match o with
  | Store s u b h st now => (store s u b h st now fs).2
  | StoreInterrupted s b => (store_payload s b fs).2
  end.

Definition run (ops : list op) (fs : cache) : cache := foldl exec fs ops.

(** ** Files are never changed *)

Definition keeps {A} (old new : option A) : Prop := ∀ x, old = Some x → new = Some x.

#[export] Instance keeps_refl A : Reflexive (@keeps A).
Proof using. by intros o x. Qed.

(** Every file of [fs] is in [fs'], with its contents. *)
Definition grows (fs fs' : cache) : Prop :=
  ∀ key dir, fs !! key = Some dir → ∃ dir', fs' !! key = Some dir' ∧
    keeps (d_payload dir) (d_payload dir') ∧ keeps (d_metadata dir) (d_metadata dir').

#[export] Instance grows_preorder : PreOrder grows.
Proof using.
  split.
  - intros fs key dir H. exists dir. by split_and!.
  - intros a b c Hab Hbc key dir H. destruct (Hab key dir H) as (dir1 & H1 & P1 & M1).
    destruct (Hbc key dir1 H1) as (dir2 & H2 & P2 & M2). exists dir2. unfold keeps in *. split_and!; eauto.
Qed.

Lemma grows_insert fs key dir : (∀ d, fs !! key = Some d → keeps (d_payload d) (d_payload dir) ∧ keeps (d_metadata d) (d_metadata dir)) →
  grows fs (<[key := dir]> fs).
Proof using.
  intros H key' d Hd. destruct (decide (key = key')) as [<-|Hne].
  - exists dir. rewrite lookup_insert_eq. split; [done|]. by apply H.
  - exists d. by rewrite lookup_insert_ne.
Qed.

Lemma atomic_write_ok {A} `{EqDecision A} (old : option A) c x : atomic_write old c = Ok x → x = Some c ∧ keeps old x.
Proof using.
  unfold atomic_write. destruct old as [c'|]; intros H; inv_ok; [|done].
  apply negb_false_iff, bool_decide_eq_true in H0. subst. done.
Qed.

Lemma atomic_write_same {A} `{EqDecision A} (c : A) : atomic_write (Some c) c = Ok (Some c).
Proof using. unfold atomic_write. by rewrite bool_decide_eq_true_2. Qed.

Lemma atomic_write_other {A} `{EqDecision A} (c c' : A) : c ≠ c' →
  atomic_write (Some c) c' = Raise (ValueError "immutable snapshot collision").
Proof using. intros H. unfold atomic_write. by rewrite bool_decide_eq_false_2. Qed.

Lemma make_directory_some key fs d : fs !! key = Some d → make_directory key fs = d.
Proof using. unfold make_directory. by intros ->. Qed.

Lemma store_payload_grows s b fs : grows fs (store_payload s b fs).2.
Proof using.
  unfold store_payload. destruct (atomic_write _ _) as [p|e] eqn:E; cbn [snd]; apply grows_insert; intros d Hd;
    rewrite (make_directory_some _ _ _ Hd) in *; [|by split]. apply atomic_write_ok in E as [_ Hk]. by split.
Qed.

Lemma store_metadata_grows m fs : grows fs (store_metadata m fs).2.
Proof using.
  unfold store_metadata. destruct (atomic_write _ _) as [p|e] eqn:E; cbn [snd]; [|done]. apply grows_insert; intros d Hd.
  rewrite (make_directory_some _ _ _ Hd) in *. apply atomic_write_ok in E as [_ Hk]. by split.
Qed.

Lemma exec_grows fs o : grows fs (exec fs o).
Proof using.
  destruct o as [s u b h st now|s b]; cbn [exec]; [|apply store_payload_grows].
  pose proof (store_payload_grows s b fs) as H. unfold store. destruct (store_payload s b fs) as [[[]|e] fs1]; [|done].
  etrans; [exact H|]. apply store_metadata_grows.
Qed.

Lemma run_grows ops fs : grows fs (run ops fs).
Proof using.
  unfold run. revert fs. induction ops as [|o ops IH]; intros fs; cbn [foldl]; [done|].
  etrans; [apply exec_grows|apply IH].
Qed.

(** A successful store has written both files. *)
Lemma store_files s u b h st now fs m fs' : store s u b h st now fs = (Ok m, fs') →
  m = new_metadata s u b h st now ∧
  fs' !! (s, sha256 b) = Some {| d_payload := Some b; d_metadata := Some (Meta m) |}.
Proof using.
  unfold store, store_payload. destruct (atomic_write (d_payload _) b) as [p|e] eqn:E; [|done].
  apply atomic_write_ok in E as [-> _]. unfold store_metadata.
  change (sm_source_id (new_metadata s u b h st now), sm_content_sha256 (new_metadata s u b h st now)) with (s, sha256 b).
  erewrite (make_directory_some (s, sha256 b)) by apply lookup_insert_eq. cbn [d_payload d_metadata].
  destruct (atomic_write _ (Meta _)) as [p|e] eqn:E; [|done]. apply atomic_write_ok in E as [-> _].
  intros [= <- <-]. split; [done|]. by rewrite lookup_insert_eq.
Qed.

Lemma files_kept key b f fs later : fs !! key = Some {| d_payload := Some b; d_metadata := Some f |} →
  run later fs !! key = Some {| d_payload := Some b; d_metadata := Some f |}.
Proof using.
  intros H. destruct (run_grows later fs key _ H) as ([p m] & -> & Hp & Hm).
  by rewrite <-(Hp b eq_refl), <-(Hm f eq_refl).
Qed.

(** C20. A snapshot that was stored is read back, metadata and body, and no later
    operation on the cache, interrupted or not, changes what is read. *)
Theorem store_read_roundtrip s u b h st now fs m fs' : store s u b h st now fs = (Ok m, fs') →
  ∀ later, read s (sm_content_sha256 m) (run later fs') = Ok (Meta m, b).
Proof using.
  intros H later. apply store_files in H as [Em Hf]. unfold read. subst m.
  change (sm_content_sha256 _) with (sha256 b) at 1 2. rewrite (files_kept _ _ _ _ later Hf). cbn [mbind res_bind].
  by rewrite (proj2 (str_eqb_true _ _) eq_refl).
Qed.

(** Once a body is stored for a source, storing the same body again succeeds
    only with the same metadata, the instant of retrieval included: an unchanged
    source fetched at another time raises a collision. *)
Theorem store_again_exact s u b h st now fs m fs' : store s u b h st now fs = (Ok m, fs') →
  ∀ later u' h' st' now',
  (store s u' b h' st' now' (run later fs')).1 =
    if decide (new_metadata s u' b h' st' now' = m) then Ok m
    else Raise (ValueError "immutable snapshot collision").
Proof using.
  intros H later u' h' st' now'. apply store_files in H as [_ Hf]. apply (files_kept _ _ _ _ later) in Hf.
  set (m' := new_metadata s u' b h' st' now'). unfold store, store_payload.
  rewrite (make_directory_some _ _ _ Hf). cbn [d_payload d_metadata]. rewrite atomic_write_same. unfold store_metadata. fold m'.
  change (sm_source_id m', sm_content_sha256 m') with (s, sha256 b).
  erewrite (make_directory_some (s, sha256 b)) by apply lookup_insert_eq. cbn [d_payload d_metadata].
  case_decide as E.
  - rewrite E, atomic_write_same. done.
  - rewrite atomic_write_other by congruence. done.
Qed.

(** A store either writes both files or raises a collision. *)
Lemma store_cases s u b h st now fs :
  (∃ fs', store s u b h st now fs = (Ok (new_metadata s u b h st now), fs')) ∨
  (∃ fs', store s u b h st now fs = (Raise (ValueError "immutable snapshot collision"), fs')).
Proof using.
  unfold store, store_payload. destruct (atomic_write (d_payload _) b) as [p|e] eqn:E.
  - unfold store_metadata. destruct (atomic_write _ (Meta _)) as [q|e] eqn:E'; [left; by eexists|].
    right. unfold atomic_write in E'. destruct (d_metadata _); [|done]. unfold raise_if in E'. destruct (negb _); [|done].
    injection E' as <-. by eexists.
  - right. unfold atomic_write in E. destruct (d_payload _); [|done]. unfold raise_if in E. destruct (negb _); [|done].
    injection E as <-. by eexists.
Qed.

(** Storing a body again under other metadata raises and changes nothing, *)
Lemma store_other s u b h st now fs m : fs !! (s, sha256 b) = Some {| d_payload := Some b; d_metadata := Some (Meta m) |} →
  m ≠ new_metadata s u b h st now → store s u b h st now fs = (Raise (ValueError "immutable snapshot collision"), fs).
Proof using.
  intros Hf Hne. unfold store, store_payload. rewrite (make_directory_some _ _ _ Hf). cbn [d_payload d_metadata].
  rewrite atomic_write_same, (insert_id _ _ _ Hf). unfold store_metadata.
  change (sm_source_id (new_metadata s u b h st now), sm_content_sha256 (new_metadata s u b h st now)) with (s, sha256 b).
  rewrite (make_directory_some _ _ _ Hf). cbn [d_payload d_metadata]. rewrite atomic_write_other; [done|]. by intros [= E].
Qed.

(** as at another time. *)
Lemma store_collides s u b h st now fs m : fs !! (s, sha256 b) = Some {| d_payload := Some b; d_metadata := Some (Meta m) |} →
  sm_retrieved_at m ≠ now → store s u b h st now fs = (Raise (ValueError "immutable snapshot collision"), fs).
Proof using. intros Hf Hne. apply (store_other _ _ _ _ _ _ _ m Hf). intros ->. by apply Hne. Qed.

(** Storing a body the source does not have. *)
Lemma store_fresh s u b h st now fs : fs !! (s, sha256 b) = None →
  store s u b h st now fs = (Ok (new_metadata s u b h st now),
    <[(s, sha256 b) := {| d_payload := Some b; d_metadata := Some (Meta (new_metadata s u b h st now)) |}]> fs).
Proof using.
  intros H. unfold store, store_payload, make_directory at 1 2. rewrite H. cbn [default d_payload atomic_write].
  unfold store_metadata. change (sm_source_id (new_metadata s u b h st now), sm_content_sha256 (new_metadata s u b h st now)) with (s, sha256 b).
  change (atomic_write (d_payload new_directory) b) with (Ok (Some b)). cbn match beta.
  rewrite (make_directory_some _ _ _ (lookup_insert_eq _ _ _)). cbn [d_payload d_metadata new_directory atomic_write].
  by rewrite insert_insert_eq.
Qed.

(** ** The contents of a cache *)

(** A directory holds the payload of its digest, and metadata only beside it. *)
Definition directory_ok (key : string * string) (dir : directory) : Prop :=
  (∀ b, d_payload dir = Some b → sha256 b = key.2) ∧
  ∀ f, d_metadata dir = Some f → ∃ m, f = Meta m ∧ is_Some (d_payload dir) ∧
    sm_source_id m = key.1 ∧ sm_content_sha256 m = key.2 ∧
    dt_aware (sm_retrieved_at m) = true ∧ calendar (sm_retrieved_at m).

Definition cache_ok (fs : cache) : Prop := ∀ key dir, fs !! key = Some dir → directory_ok key dir.

(** The instants of stores are in UTC, as [datetime.now(UTC)] is. *)
Definition timely (o : op) : Prop :=
  match o with Store _ _ _ _ _ now => dt_aware now = true ∧ calendar now | _ => True end.

Lemma cache_ok_insert key dir fs : cache_ok fs → directory_ok key dir → cache_ok (<[key := dir]> fs).
Proof using.
  intros Hfs Hd key' dir'. destruct (decide (key = key')) as [<-|Hne].
  - rewrite lookup_insert_eq. by intros [= <-].
  - rewrite lookup_insert_ne by done. apply Hfs.
Qed.

Lemma make_directory_ok key fs : cache_ok fs → directory_ok key (make_directory key fs).
Proof using.
  intros Hfs. unfold make_directory. destruct (fs !! key) eqn:E; [by apply Hfs|]. split; by intros ? [=].
Qed.

Lemma store_payload_ok s b fs : cache_ok fs → cache_ok (store_payload s b fs).2.
Proof using.
  intros Hfs. unfold store_payload. pose proof (make_directory_ok (s, sha256 b) fs Hfs) as [Hp Hm].
  destruct (atomic_write _ _) as [p|e] eqn:E; cbn [snd]; apply cache_ok_insert; [done| |done|exact (conj Hp Hm)].
  apply atomic_write_ok in E as [-> Hk]. split; cbn [d_payload d_metadata].
  - by intros ? [= <-].
  - intros f Hf. destruct (Hm f Hf) as (m & ? & _ & ?). exists m. split; [done|]. split; [by eexists|done].
Qed.

Lemma exec_ok fs o : timely o → cache_ok fs → cache_ok (exec fs o).
Proof using.
  intros Ht Hfs. destruct o as [s u b h st now|s b]; cbn [exec]; [|by apply store_payload_ok].
  pose proof (store_payload_ok s b fs Hfs) as H. unfold store.
  destruct (store_payload s b fs) as [[[]|e] fs1] eqn:E; [|done]. cbn [snd] in H.
  unfold store_payload in E. destruct (atomic_write _ b) as [p|?] eqn:Ep; [|done]. injection E as E.
  apply atomic_write_ok in Ep as [-> _].
  unfold store_metadata. change (sm_source_id _, sm_content_sha256 _) with (s, sha256 b).
  destruct (atomic_write _ (Meta _)) as [f|?] eqn:Ef; cbn [snd]; [|done]. apply atomic_write_ok in Ef as [-> _].
  apply cache_ok_insert; [done|]. rewrite <-E. erewrite (make_directory_some (s, sha256 b)) by apply lookup_insert_eq.
  split; cbn [d_payload d_metadata]; [by intros ? [= <-]|]. intros ? [= <-]. destruct Ht.
  eexists. by split_and!.
Qed.

Lemma cache_run_ok ops : Forall timely ops → cache_ok (run ops ∅).
Proof using.
  unfold run. intros H. assert (Hfs : cache_ok ∅) by done. revert Hfs. generalize (∅ : cache).
  induction H as [|o ops Ho Hops IH]; intros fs Hfs; cbn [foldl]; [done|]. by apply IH, exec_ok.
Qed.

(** ** The newest snapshot *)

(** [latest] accepts a snapshot. *)
Definition matches (url : option string) (max_age_hours : option float) (now : datetime) (m : SnapshotMetadata) : bool :=
  match url with Some u => str_eqb (sm_url m) u | None => true end &&
  match max_age_hours with
  | Some max_age => match hours_between now (sm_retrieved_at m) with Ok h => negb (max_age <? h)%F | Raise _ => false end
  | None => true
  end.

(** The snapshot whose metadata is in a directory of the source. *)
Definition snapshot_at (source_id : string) (fs : cache) (digest : string) : option SnapshotMetadata :=
  match fs !! (source_id, digest) ≫= d_metadata with Some (Meta m) => Some m | _ => None end.

Lemma latest_step_exact s url age now fs acc d : cache_ok fs → calendar now →
  latest_step s url age now fs acc d =
    Ok (acc ++ match snapshot_at s fs d with Some m => if matches url age now m then [m] else [] | None => [] end).
Proof using.
  intros Hfs Hnow. unfold latest_step, snapshot_at.
  destruct (fs !! (s, d)) as [dir|] eqn:E; cbn [mbind option_bind]; [|by rewrite app_nil_r].
  destruct (Hfs _ _ E) as [_ Hm]. destruct (d_metadata dir) as [f|]; [|by rewrite app_nil_r].
  destruct (Hm f eq_refl) as (m & -> & _ & _ & _ & Ha & Hc). unfold matches.
  assert (Hurl : match url with Some u => negb (str_eqb (sm_url m) u) | None => false end =
                 negb match url with Some u => str_eqb (sm_url m) u | None => true end) by (by destruct url).
  rewrite Hurl. clear Hurl.
  set (b := match url with Some u => str_eqb (sm_url m) u | None => true end). destruct b; cbn [negb andb]; [|by rewrite app_nil_r].
  destruct age as [a|]; [|done]. rewrite Ha. cbn [negb raise_if mbind res_bind].
  destruct (hours_between_calendar now (sm_retrieved_at m) Hnow Hc) as [h ->]. cbn [mbind res_bind].
  by destruct (a <? h)%F; cbn [negb]; rewrite ?app_nil_r.
Qed.

(** The candidates among the directories [glob] finds. *)
Definition candidates_of (s : string) (url : option string) (age : option float) (now : datetime) (fs : cache)
    (order : list string) : list SnapshotMetadata :=
  List.filter (matches url age now) (omap (snapshot_at s fs) order).

Lemma latest_candidates s url age now fs order : cache_ok fs → calendar now →
  foldM (latest_step s url age now fs) [] order = Ok (candidates_of s url age now fs order).
Proof using.
  intros Hfs Hnow. unfold candidates_of. change (List.filter (matches url age now) ?l) with ([] ++ List.filter (matches url age now) l).
  generalize (@nil SnapshotMetadata). induction order as [|d order IH]; intros acc; cbn [foldM omap list_omap].
  - by rewrite app_nil_r.
  - rewrite latest_step_exact by done. cbn [mbind res_bind]. rewrite IH, <-app_assoc. do 2 f_equal.
    destruct (snapshot_at s fs d) as [m|]; [|done]. cbn [List.filter]. by destruct (matches url age now m).
Qed.

Lemma str_ltb_false a b : str_ltb a b = false → str_leb b a = true.
Proof using.
  unfold str_ltb, str_leb, String.ltb, String.leb. rewrite String.compare_antisym.
  by destruct (String.compare b a).
Qed.

Lemma str_ltb_leb a b : str_ltb a b = true → str_leb a b = true.
Proof using. unfold str_ltb, str_leb, String.ltb, String.leb. by destruct (String.compare a b). Qed.

Definition stamp (m : SnapshotMetadata) : string := isoformat (sm_retrieved_at m).

Lemma newest_spec first rest :
  newest first rest ∈ first :: rest ∧ ∀ m, m ∈ first :: rest → str_leb (stamp m) (stamp (newest first rest)) = true.
Proof using.
  unfold newest. revert first. induction rest as [|x rest IH]; intros first; cbn [foldl].
  - split; [by left|]. intros m ->%list_elem_of_singleton. apply str_leb_refl.
  - match goal with |- context [foldl _ ?b rest] => set (best := b) end. destruct (IH best) as [Hin Hmax]. split.
    + apply elem_of_cons in Hin as [Hb|Hin]; [|by right; right]. rewrite Hb. unfold best. case_match; [right; by left|by left].
    + assert (Hbest : str_leb (stamp first) (stamp best) = true ∧ str_leb (stamp x) (stamp best) = true).
      { unfold best, stamp. destruct (str_ltb _ _) eqn:E; split; auto using str_leb_refl, str_ltb_leb, str_ltb_false. }
      specialize (Hmax best) as Hb. destruct Hbest as [H1 H2]. specialize (Hb ltac:(by left)).
      intros m [->|[->|Hm]%elem_of_cons]%elem_of_cons.
      * by eapply str_leb_trans.
      * by eapply str_leb_trans.
      * apply Hmax. by right.
Qed.

(** The answer of [latest]: nothing exactly when no stored snapshot of the source matches,
    and otherwise a stored matching snapshot with the body of its digest, such that no
    matching snapshot has a later time of retrieval. *)
Definition newest_match (s : string) (url : option string) (age : option float) (now : datetime) (fs : cache)
    (r : option (SnapshotMetadata * string)) : Prop :=
  match r with
  | None => ∀ d m, snapshot_at s fs d = Some m → matches url age now m = false
  | Some (m, body) =>
      snapshot_at s fs (sm_content_sha256 m) = Some m ∧ matches url age now m = true ∧
      fs !! (s, sm_content_sha256 m) ≫= d_payload = Some body ∧ sha256 body = sm_content_sha256 m ∧
      ∀ d m', snapshot_at s fs d = Some m' → matches url age now m' = true →
        str_leb (isoformat (sm_retrieved_at m')) (isoformat (sm_retrieved_at m)) = true
  end.

(** In a well-formed cache [latest] never fails. *)
Lemma latest_ok s url age now order fs : cache_ok fs → calendar now →
  (∀ d, d ∈ order ↔ is_Some (snapshot_at s fs d)) → ∃ r, latest s url age now order fs = Ok r ∧ newest_match s url age now fs r.
Proof using.
  intros Hfs Hnow Horder.
  assert (Hc : ∀ m, m ∈ candidates_of s url age now fs order ↔ matches url age now m = true ∧ ∃ d, snapshot_at s fs d = Some m).
  { intros m. unfold candidates_of. rewrite list_elem_of_In, List.filter_In, <-list_elem_of_In, list_elem_of_omap.
    split; intros [H1 H2]; [destruct H1 as (d & _ & Hd); eauto|]. split; [|done]. destruct H2 as [d Hd]. exists d.
    split; [|done]. apply Horder. by eexists. }
  unfold latest. rewrite latest_candidates by done. cbn [mbind res_bind].
  destruct (candidates_of s url age now fs order) as [|first rest].
  - exists None. split; [done|]. intros d m Hd. destruct (matches url age now m) eqn:E; [|done].
    assert (H : m ∈ @nil SnapshotMetadata) by (apply Hc; eauto). by apply elem_of_nil in H.
  - destruct (newest_spec first rest) as [Hin Hmax]. set (m := newest first rest) in *.
    apply Hc in Hin as [Hmatch [d Hd]]. pose proof Hd as Hsnap. unfold snapshot_at in Hd.
    destruct (fs !! (s, d)) as [[payload metadata]|] eqn:E; cbn in Hd; [|done].
    destruct metadata as [[m0| |]|]; try done. injection Hd as ->.
    destruct (Hfs _ _ E) as [Hp Hm]. destruct (Hm _ eq_refl) as (m1 & [= <-] & [body Hb] & Hs & Hdig & _). cbn in Hs, Hdig, Hb, Hp.
    subst payload. exists (Some (m, body)). unfold read. rewrite Hs, Hdig, E. cbn [mbind res_bind].
    rewrite (proj2 (str_eqb_true _ _) (Hp _ eq_refl)). split; [done|].
    unfold newest_match. rewrite Hp, Hdig, E by done. split_and!; [done..|]. intros d' m' Hd' Hm'. apply Hmax, Hc. eauto.
Qed.

(** The age of a snapshot is within the limit. *)
Definition fresh_at (age : option float) (now stored : datetime) : bool :=
  match age with
  | Some a => match hours_between now stored with Ok h => negb (a <? h)%F | Raise _ => false end
  | None => true
  end.

Definition files (b : string) (m : SnapshotMetadata) : directory := {| d_payload := Some b; d_metadata := Some (Meta m) |}.

(** A new body, stored after everything else of the source, is what [latest] returns
    for its URL as long as it is fresh. *)
Lemma latest_stored s u b h st stored age now order fs : cache_ok fs → dt_aware stored = true → calendar stored → calendar now →
  fs !! (s, sha256 b) = None →
  (∀ d m, snapshot_at s fs d = Some m → str_ltb (isoformat (sm_retrieved_at m)) (isoformat stored) = true) →
  fresh_at age now stored = true →
  let m := new_metadata s u b h st stored in
  let fs' := <[(s, sha256 b) := files b m]> fs in
  (∀ d, d ∈ order ↔ is_Some (snapshot_at s fs' d)) →
  cache_ok fs' ∧ latest s (Some u) age now order fs' = Ok (Some (m, b)).
Proof using.
  intros Hfs Ha Hc Hnow Hnew Hold Hage m fs' Horder. assert (cache_ok fs') as Hok.
  { apply cache_ok_insert; [done|]. split; cbn [files d_payload d_metadata]; [by intros ? [= <-]|]. intros ? [= <-].
    exists m. split; [done|]. split; [by eexists|]. by split_and!. }
  split; [done|]. destruct (latest_ok s (Some u) age now order fs' Hok Hnow Horder) as (r & -> & Hr). f_equal.
  assert (snapshot_at s fs' (sha256 b) = Some m) as Sm by (unfold snapshot_at, fs'; by rewrite lookup_insert_eq).
  assert (matches (Some u) age now m = true) as Mm.
  { unfold matches. cbn [m new_metadata sm_url sm_retrieved_at]. rewrite (proj2 (str_eqb_true u u) eq_refl). exact Hage. }
  destruct r as [[m' body]|]; unfold newest_match in Hr.
  - destruct Hr as (S' & M' & P' & _ & Max). specialize (Max _ _ Sm Mm). unfold snapshot_at, fs' in S'.
    destruct (decide ((s, sha256 b) = (s, sm_content_sha256 m'))) as [Ek|Ek].
    + rewrite Ek, lookup_insert_eq in S'. cbn in S'. injection S' as <-.
      rewrite <-Ek in P'. unfold fs' in P'. rewrite lookup_insert_eq in P'. cbn in P'. by injection P' as <-.
    + rewrite lookup_insert_ne in S' by done. exfalso. specialize (Hold (sm_content_sha256 m') m' S').
      cbn [m new_metadata sm_retrieved_at] in Max.
      unfold str_ltb, str_leb, String.ltb, String.leb in *. rewrite String.compare_antisym in Max. by destruct (String.compare _ _).
  - specialize (Hr _ _ Sm). by rewrite Mm in Hr.
Qed.

(** So it is in every cache written by stores. *)
Theorem latest_exact ops s url age now order : Forall timely ops → calendar now →
  (∀ d, d ∈ order ↔ is_Some (snapshot_at s (run ops ∅) d)) →
  ∃ r, latest s url age now order (run ops ∅) = Ok r ∧ newest_match s url age now (run ops ∅) r.
Proof using. intros Hops. by apply latest_ok, cache_run_ok. Qed.

End cache.

(** ** A concrete cache *)

Definition sample_hash (s : string) : string := "h" +:+ s.
Definition sample_now : datetime := {| dt_us := 1000; dt_aware := true |}.
Definition later_now : datetime := {| dt_us := 2000; dt_aware := true |}.

Definition sample_ops : list op := [Store "src" "http://a" "one" [] 200 sample_now; StoreInterrupted "src" "two";
  Store "src" "http://a" "three" [] 200 later_now].

Definition sample_snapshot : SnapshotMetadata := new_metadata sample_hash "src" "http://a" "one" [] 200 sample_now.

Lemma store_read_roundtrip_witness :
  read sample_hash "src" "hone" (run sample_hash sample_ops (store sample_hash "src" "http://a" "one" [] 200 sample_now ∅).2) =
    Ok (Meta sample_snapshot, "one").
Proof.
  apply (store_read_roundtrip sample_hash "src" "http://a" "one" [] 200 sample_now ∅ sample_snapshot); reflexivity.
Defined.

Lemma store_again_exact_witness :
  (store sample_hash "src" "http://a" "one" [] 200 later_now
    (run sample_hash [] (store sample_hash "src" "http://a" "one" [] 200 sample_now ∅).2)).1 =
  Raise (ValueError "immutable snapshot collision").
Proof.
  assert (H : store sample_hash "src" "http://a" "one" [] 200 sample_now ∅ =
    (Ok sample_snapshot, (store sample_hash "src" "http://a" "one" [] 200 sample_now ∅).2)) by reflexivity.
  rewrite (store_again_exact sample_hash _ _ _ _ _ _ _ _ _ H []). reflexivity.
Defined.

Definition third_snapshot : SnapshotMetadata := new_metadata sample_hash "src" "http://a" "three" [] 200 later_now.

Lemma sample_run : run sample_hash sample_ops ∅ =
  <[("src", "hthree") := {| d_payload := Some "three"; d_metadata := Some (Meta third_snapshot) |}]>
  (<[("src", "htwo") := {| d_payload := Some "two"; d_metadata := None |}]>
  {[("src", "hone") := {| d_payload := Some "one"; d_metadata := Some (Meta sample_snapshot) |}]}).
Proof. vm_compute. reflexivity. Qed.

Lemma sample_snapshots d : is_Some (snapshot_at "src" (run sample_hash sample_ops ∅) d) ↔ d ∈ ["hthree"; "hone"].
Proof.
  rewrite sample_run. unfold snapshot_at. rewrite lookup_insert. case_decide as E1; [injection E1 as <-|]; cbn.
  { split; [intros _; by left|by eexists]. }
  rewrite lookup_insert. case_decide as E2; [injection E2 as <-|]; cbn.
  { split; [by intros []|]. intros [?|[?|?%elem_of_nil]%elem_of_cons]%elem_of_cons; done. }
  destruct (decide (d = "hone")) as [->|Hne].
  - rewrite lookup_singleton_eq. cbn. split; [intros _; right; by left|by eexists].
  - rewrite lookup_singleton_ne by congruence. cbn. split; [by intros []|].
    intros [->|[->|?%elem_of_nil]%elem_of_cons]%elem_of_cons; done.
Qed.

Lemma latest_exact_witness : ∃ r, latest sample_hash "src" None None later_now ["hthree"; "hone"] (run sample_hash sample_ops ∅) = Ok r.
Proof.
  destruct (latest_exact sample_hash sample_ops "src" None None later_now ["hthree"; "hone"]) as (r & H & _).
  - repeat constructor; vm_compute; discriminate.
  - split; vm_compute; discriminate.
  - intros d. symmetry. apply sample_snapshots.
  - by exists r.
Defined.
