(* ===== verification/Crypto.v ===== *)
(** * crypto.py: signed and sealed envelopes, Merkle proofs, reserve proofs

    Bytes are strings of characters.  The hash functions ([sha256], [sha3], raw
    digests), the Ed25519 operations ([ed_sign], [ed_verify]; third party) and
    the JSON text of a payload ([dumps], [loads]) are arguments, as are the bytes
    drawn from [os.urandom]. *)

From Stdlib Require Import ZArith.
From S2P Require Import Prelude PyFormat Domain State.

Open Scope Z_scope.

(** ** Bytes *)

(** [b.hex()] *)
Fixpoint hex (b : string) : string :=
  match b with
  | EmptyString => EmptyString
  | String c b => let n := Ascii.N_of_ascii c in String (hex_digit (n / 16)) (String (hex_digit (n mod 16)) (hex b))
  end.

Definition hex_value (c : Ascii.ascii) : option N :=
  let n := Ascii.N_of_ascii c in
  if ((48 <=? n) && (n <=? 57))%N then Some (n - 48)%N
  else if ((65 <=? n) && (n <=? 70))%N then Some (n - 55)%N
  else if ((97 <=? n) && (n <=? 102))%N then Some (n - 87)%N
  else None.

(** The white space [bytes.fromhex] skips between bytes. *)
Definition hex_space (c : Ascii.ascii) : bool :=
  let n := Ascii.N_of_ascii c in ((9 <=? n) && (n <=? 13) || (n =? 32))%N.

Definition not_hex : exn := ValueError "non-hexadecimal number found in fromhex() arg".

(** [bytes.fromhex(s)] *)
Fixpoint fromhex (s : string) : res string :=
  match s with
  | EmptyString => Ok EmptyString
  | String c s =>
      if hex_space c then fromhex s
      else match s with
           | EmptyString => Raise not_hex
           | String d s =>
               match hex_value c, hex_value d with
               | Some h, Some l => b ← fromhex s; Ok (String (Ascii.ascii_of_N (16 * h + l)) b)
               | _, _ => Raise not_hex
               end
           end
  end.

(** [bytes(b ^ k for b, k in zip(a, key))] *)
Fixpoint xor_bytes (a key : string) : string :=
  match a, key with
  | String b a, String k key =>
      String (Ascii.ascii_of_N (N.lxor (Ascii.N_of_ascii b) (Ascii.N_of_ascii k))) (xor_bytes a key)
  | _, _ => EmptyString
  end.

(** [i.to_bytes(4, "big")]; an overflow raises. *)
Definition to_bytes4 (i : Z) : res string :=
  _ ← raise_if (negb ((0 <=? i) && (i <? 2 ^ 32))) OverflowError;
  let byte k := Ascii.ascii_of_N (Z.to_N (Z.shiftr i k mod 256)) in
  Ok (String (byte 24) (String (byte 16) (String (byte 8) (String (byte 0) EmptyString)))).

Section crypto.
Context (sha256 sha3 : string → string).

Definition hexdigest (b : string) : string := hex (sha256 b).
Definition sha3_512_hash (b : string) : string := hex (sha3 b).

(** ** Hybrid signatures *)

Record HybridSignatureEnvelope := {
  he_algorithm : string;
  he_classical_signature_hex : string;
  he_quantum_resistant_digest_hex : string;
  he_signing_key_id : string;
  he_signed_payload_sha256 : string;
  he_timestamp_utc : string;
}.

Section signatures.
Context {private_key public_key : Type}.
Context (ed_sign : private_key → string → string) (ed_verify : public_key → string → string → bool).

Definition sign_hybrid_envelope (key : private_key) (payload key_id timestamp_str : string) (now : datetime)
    : HybridSignatureEnvelope :=
  let sig_bytes := ed_sign key payload in
  {| he_algorithm := "Ed25519+ML-DSA-65"; he_classical_signature_hex := hex sig_bytes;
     he_quantum_resistant_digest_hex := sha3_512_hash (payload +:+ sig_bytes); he_signing_key_id := key_id;
     he_signed_payload_sha256 := hexdigest payload;
     he_timestamp_utc := if str_empty timestamp_str then isoformat now else timestamp_str |}.

(** [verify] of the key raises for an invalid signature, also for a bad hexadecimal. *)
Definition verify_envelope (e : HybridSignatureEnvelope) (key : public_key) (raw_payload_bytes : string) : res bool :=
  if negb (str_eqb (hexdigest raw_payload_bytes) (he_signed_payload_sha256 e)) then Ok false
  else
    sig ← fromhex (he_classical_signature_hex e);
    if negb (str_eqb (sha3_512_hash (raw_payload_bytes +:+ sig)) (he_quantum_resistant_digest_hex e)) then Ok false
    else Ok (ed_verify key sig raw_payload_bytes).
End signatures.

(** ** Merkle trees *)

Record MerkleAuditPathNode := { an_hash_hex : string; an_direction : string }.

Record MerkleInclusionProof := {
  ip_record_index : Z;
  ip_leaf_hash : string;
  ip_root_hash : string;
  ip_audit_path : list MerkleAuditPathNode;
}.

(** One step of [verify]. *)
Definition verify_step (current_hash : string) (node : MerkleAuditPathNode) : res string :=
  if str_eqb (an_direction node) "left" then
    a ← fromhex (an_hash_hex node); b ← fromhex current_hash; Ok (hexdigest (a +:+ b))
  else a ← fromhex current_hash; b ← fromhex (an_hash_hex node); Ok (hexdigest (a +:+ b)).

Definition verify (p : MerkleInclusionProof) : res bool :=
  current_hash ← foldM verify_step (ip_leaf_hash p) (ip_audit_path p);
  Ok (str_eqb (str_lower current_hash) (str_lower (ip_root_hash p))).

Record MerkleTree := { mt_leaf_hashes : list string; mt_levels : list (list string) }.

Definition parent_hash (l r : string) : res string :=
  a ← fromhex l; b ← fromhex r; Ok (hexdigest (a +:+ b)).

(** The [for] loop of [_build_tree]; an odd last node is paired with itself. *)
Fixpoint next_level (current : list string) : res (list string) :=
  match current with
  | l :: r :: rest => p ← parent_hash l r; ps ← next_level rest; Ok (p :: ps)
  | [l] => p ← parent_hash l l; Ok [p]
  | [] => Ok []
  end.

(** The [while] loop: the levels above [current], and [current] itself. *)
Fixpoint build_levels (fuel : nat) (current : list string) : res (list (list string)) :=
  if (length current <=? 1)%nat then Ok [current]
  else match fuel with
       | O => Raise OutOfFuel
       | S fuel => next ← next_level current; levels ← build_levels fuel next; Ok (current :: levels)
       end.

(** [MerkleTree(leaf_hashes)]; every level has at most as many nodes as leaves. *)
Definition new_MerkleTree (leaf_hashes : list string) : res MerkleTree :=
  _ ← raise_if (match leaf_hashes with [] => true | _ => false end) (ValueError "MerkleTree requires at least one leaf hash");
  levels ← build_levels (length leaf_hashes) leaf_hashes;
  Ok {| mt_leaf_hashes := leaf_hashes; mt_levels := levels |}.

(** [levels[-1][0]] *)
Definition root_hash (t : MerkleTree) : res string :=
  top ← index (mt_levels t) (length (mt_levels t) - 1); index top 0.

(** The siblings of node [idx] on the way up through [levels]. *)
Fixpoint audit_path (idx : nat) (levels : list (list string)) : res (list MerkleAuditPathNode) :=
  match levels with
  | [] => Ok []
  | level :: levels =>
      let is_right_child := Nat.eqb (idx mod 2) 1 in
      let sibling_idx := if is_right_child then (idx - 1)%nat
                         else if (idx + 1 <? length level)%nat then (idx + 1)%nat else idx in
      sibling ← index level sibling_idx;
      path ← audit_path (idx / 2) levels;
      Ok ({| an_hash_hex := sibling; an_direction := if is_right_child then "left" else "right" |} :: path)
  end.

Definition generate_inclusion_proof (i : Z) (t : MerkleTree) : res MerkleInclusionProof :=
  _ ← raise_if (negb ((0 <=? i) && (i <? Z.of_nat (length (mt_leaf_hashes t))))) IndexError;
  path ← audit_path (Z.to_nat i) (take (length (mt_levels t) - 1) (mt_levels t));
  leaf ← index (mt_leaf_hashes t) (Z.to_nat i);
  root ← root_hash t;
  Ok {| ip_record_index := i; ip_leaf_hash := leaf; ip_root_hash := root; ip_audit_path := path |}.

(** ** Sealed envelopes *)

Record SealedIntelligenceEnvelope := {
  sl_envelope_id : string;
  sl_encapsulation_scheme : string;
  sl_ephemeral_public_key_hex : string;
  sl_ciphertext_payload_hex : string;
  sl_integrity_tag_sha3_512 : string;
  sl_classification_level : string;
}.

(** The key stream for [n] bytes: [ceil(n / 64)] blocks. *)
Fixpoint keystream_from (derived_key : string) (i : Z) (blocks : nat) : res string :=
  match blocks with
  | O => Ok EmptyString
  | S blocks => c ← to_bytes4 i; rest ← keystream_from derived_key (i + 1) blocks; Ok (sha3 (derived_key +:+ c) +:+ rest)
  end.

Definition keystream (derived_key : string) (n : nat) : res string := keystream_from derived_key 0 ((n + 63) / 64).

Context (dumps : object → res string) (loads : string → res object).

Definition seal (envelope_id ephemeral_secret : string) (payload : object) (recipient_key_hex classification : string)
    : res SealedIntelligenceEnvelope :=
  serialized ← dumps payload;
  let ephemeral_pub_hex := hexdigest (ephemeral_secret +:+ recipient_key_hex) in
  key ← fromhex recipient_key_hex;
  let derived_key := sha3 key in
  stream ← keystream derived_key (String.length serialized);
  let encrypted := xor_bytes serialized stream in
  Ok {| sl_envelope_id := envelope_id; sl_encapsulation_scheme := "NIST-ML-KEM-768";
        sl_ephemeral_public_key_hex := ephemeral_pub_hex; sl_ciphertext_payload_hex := hex encrypted;
        sl_integrity_tag_sha3_512 := sha3_512_hash (encrypted +:+ derived_key);
        sl_classification_level := classification |}.

Definition unseal (e : SealedIntelligenceEnvelope) (recipient_key_hex : string) : res object :=
  ciphertext ← fromhex (sl_ciphertext_payload_hex e);
  key ← fromhex recipient_key_hex;
  let derived_key := sha3 key in
  _ ← raise_if (negb (str_eqb (sha3_512_hash (ciphertext +:+ derived_key)) (sl_integrity_tag_sha3_512 e)))
        (ValueError "Integrity tag mismatch in sealed envelope");
  stream ← keystream derived_key (String.length ciphertext);
  loads (xor_bytes ciphertext stream).

(** ** Reserve proofs *)

(** [hash_chain(seed, n)]; a negative range is empty. *)
Definition hash_chain (seed : string) (n : Z) : string := Nat.iter (Z.to_nat n) sha256 seed.

Record ZKPReserveCommitment := {
  zc_entity_id : string;
  zc_commodity_id : string;
  zc_commitment_hash_hex : string;
  zc_max_capacity : Z;
  zc_timestamp_utc : string;
}.

Record ZKPReserveProof := { zp_commitment_hash_hex : string; zp_policy_minimum : Z; zp_proof_hash_hex : string }.

Definition verify_reserve (p : ZKPReserveProof) (max_capacity : Z) : res bool :=
  if (zp_policy_minimum p <? 0) || (max_capacity <? zp_policy_minimum p) then Ok false
  else
    proof_bytes ← fromhex (zp_proof_hash_hex p);
    Ok (str_eqb (hex (hash_chain proof_bytes (zp_policy_minimum p))) (zp_commitment_hash_hex p)).

Record ZKPProver := {
  zk_actual_reserve : Z;
  zk_max_capacity : Z;
  zk_secret_seed : string;
  zk_commitment_bytes : string;
}.

Definition new_ZKPProver (secret_seed : string) (actual_reserve max_capacity : Z) : res ZKPProver :=
  _ ← raise_if ((actual_reserve <? 0) || (max_capacity <? actual_reserve)) (ValueError "Reserve out of bounds");
  Ok {| zk_actual_reserve := actual_reserve; zk_max_capacity := max_capacity; zk_secret_seed := secret_seed;
        zk_commitment_bytes := hash_chain secret_seed max_capacity |}.

Definition generate_commitment (entity_id commodity_id : string) (now : datetime) (p : ZKPProver) : ZKPReserveCommitment :=
  {| zc_entity_id := entity_id; zc_commodity_id := commodity_id; zc_commitment_hash_hex := hex (zk_commitment_bytes p);
     zc_max_capacity := zk_max_capacity p; zc_timestamp_utc := isoformat now |}.

Definition prove_minimum (required_minimum : Z) (p : ZKPProver) : res ZKPReserveProof :=
  _ ← raise_if (zk_actual_reserve p <? required_minimum)
        (ValueError "Cannot generate proof: actual reserve is below required minimum.");
  let iterations := zk_max_capacity p - required_minimum in
  Ok {| zp_commitment_hash_hex := hex (zk_commitment_bytes p); zp_policy_minimum := required_minimum;
        zp_proof_hash_hex := hex (hash_chain (zk_secret_seed p) iterations) |}.

(** ** Hexadecimal *)

Lemma hex_value_digit n : (n < 16)%N → hex_value (hex_digit n) = Some n.
Proof using.
  intros H. assert (n ∈ (N.of_nat <$> seq 0 16)) as Hin.
  { apply list_elem_of_fmap. exists (N.to_nat n). rewrite N2Nat.id. split; [done|]. apply elem_of_seq. lia. }
  revert Hin. generalize n. apply Forall_forall. repeat constructor.
Qed.

Lemma hex_digit_space n : (n < 16)%N → hex_space (hex_digit n) = false.
Proof using.
  intros H. assert (n ∈ (N.of_nat <$> seq 0 16)) as Hin.
  { apply list_elem_of_fmap. exists (N.to_nat n). rewrite N2Nat.id. split; [done|]. apply elem_of_seq. lia. }
  revert Hin. generalize n. apply Forall_forall. repeat constructor.
Qed.

Lemma fromhex_hex b : fromhex (hex b) = Ok b.
Proof using.
  induction b as [|c b IH]; [done|]. cbn [hex fromhex].
  pose proof (Ascii.N_ascii_bounded c) as Hc.
  rewrite hex_digit_space, !hex_value_digit by (apply N.Div0.div_lt_upper_bound || apply N.mod_lt; lia).
  rewrite IH. cbn [mbind res_bind]. rewrite <-N.div_mod by done. by rewrite Ascii.ascii_N_embedding.
Qed.

(** Case does not matter to [fromhex]. *)
Lemma hex_value_lower c : hex_value (lower_ascii c) = hex_value c.
Proof using. destruct c as [[] [] [] [] [] [] [] []]; reflexivity. Qed.

Lemma hex_space_lower c : hex_space (lower_ascii c) = hex_space c.
Proof using. destruct c as [[] [] [] [] [] [] [] []]; reflexivity. Qed.

Lemma fromhex_lower s : fromhex (str_lower s) = fromhex s.
Proof using.
  unfold str_lower. remember (String.length s) as n eqn:Hn. assert (Hle : (String.length s <= n)%nat) by lia. clear Hn.
  revert s Hle. induction n as [|n IH]; intros [|c s] Hle; try done; [cbn in Hle; lia|].
  cbn [str_map fromhex]. rewrite hex_space_lower. cbn in Hle. destruct (hex_space c); [apply IH; lia|].
  destruct s as [|d s]; [done|]. cbn [str_map]. rewrite !hex_value_lower. cbn in Hle. rewrite IH by lia. done.
Qed.

(** ** Building a tree *)

(** A text that is the hexadecimal of bytes, of 32 bytes. *)
Definition is_hex (s : string) : Prop := ∃ b, fromhex s = Ok b.
Definition is_digest (s : string) : Prop := ∃ b, fromhex s = Ok b ∧ String.length b = 32%nat.

Lemma is_digest_hex s : is_digest s → is_hex s.
Proof using. intros (b & H & _). by exists b. Qed.

Lemma parent_hash_ok l r a b : fromhex l = Ok a → fromhex r = Ok b → parent_hash l r = Ok (hexdigest (a +:+ b)).
Proof using. unfold parent_hash. by intros -> ->. Qed.

Lemma parent_hash_is_hex l r p : parent_hash l r = Ok p → ∃ a b, fromhex l = Ok a ∧ fromhex r = Ok b ∧ p = hexdigest (a +:+ b).
Proof using. unfold parent_hash. intros H. inv_ok. eauto. Qed.

(** Induction on a list by two elements at a time. *)
Lemma pairs_ind {A} (P : list A → Prop) : P [] → (∀ x, P [x]) → (∀ x y l, P l → P (x :: y :: l)) → ∀ l, P l.
Proof using.
  intros H0 H1 H2. enough (∀ l, P l ∧ ∀ x, P (x :: l)) by naive_solver.
  induction l as [|y l [IH1 IH2]]; split; auto.
Qed.

(** The steps of [next_level] on two or more nodes, and on one. *)
Lemma next_level_two x y l next : next_level (x :: y :: l) = Ok next →
  ∃ p ps, next = p :: ps ∧ parent_hash x y = Ok p ∧ next_level l = Ok ps.
Proof using. cbn [next_level]. intros (p & ? & (ps & ? & [= <-])%bind_ok)%bind_ok. eauto 6. Qed.

Lemma next_level_one x next : next_level [x] = Ok next → ∃ p, next = [p] ∧ parent_hash x x = Ok p.
Proof using. cbn [next_level]. intros (p & ? & [= <-])%bind_ok. eauto. Qed.

Lemma next_level_total l : Forall is_hex l → ∃ next, next_level l = Ok next.
Proof using.
  induction l as [|x|x y l IH] using pairs_ind; cbn [next_level]; intros H.
  - by eexists.
  - inversion H as [|? ? [a Ha] _]; subst. rewrite (parent_hash_ok x x a a) by done. by eexists.
  - inversion H as [|? ? [a Ha] H']; subst. inversion H' as [|? ? [b Hb] Hl]; subst.
    rewrite (parent_hash_ok x y a b) by done. destruct (IH Hl) as [next ->]. by eexists.
Qed.

Lemma next_level_hex l next : next_level l = Ok next → ∀ p, p ∈ next →
  ∃ x y, x ∈ l ∧ y ∈ l ∧ parent_hash x y = Ok p.
Proof using.
  revert next. induction l as [|x|x y l IH] using pairs_ind; intros next H p Hp.
  - injection H as <-. by apply elem_of_nil in Hp.
  - apply next_level_one in H as (q & -> & E). apply list_elem_of_singleton in Hp as ->. exists x, x. split_and!; [by left..|done].
  - apply next_level_two in H as (q & ps & -> & E & H). apply elem_of_cons in Hp as [->|Hp].
    + exists x, y. split_and!; [by left|right; by left|done].
    + destruct (IH _ H p Hp) as (u & v & Hu & Hv & E'). exists u, v. split_and!; [by do 2 right..|done].
Qed.

Lemma next_level_length l next : next_level l = Ok next → length next = ((length l + 1) / 2)%nat.
Proof using.
  revert next. induction l as [|x|x y l IH] using pairs_ind; intros next H.
  - by injection H as <-.
  - by apply next_level_one in H as (q & -> & E).
  - apply next_level_two in H as (q & ps & -> & E & H). cbn [length]. rewrite (IH _ H).
    replace (S (S (length l)) + 1)%nat with (length l + 1 + 1 * 2)%nat by lia. rewrite Nat.div_add by lia. lia.
Qed.

(** The place of the sibling of node [i] in a level of [n] nodes. *)
Definition sibling_of (i n : nat) : nat :=
  if Nat.eqb (i mod 2) 1 then (i - 1)%nat else if (i + 1 <? n)%nat then (i + 1)%nat else i.

(** The parent of a node and its sibling is their half-way node of the next level. *)
Lemma next_level_parent l next i : next_level l = Ok next → (i < length l)%nat →
  ∃ x y p, l !! i = Some x ∧ l !! sibling_of i (length l) = Some y ∧ next !! (i / 2)%nat = Some p ∧
    (if Nat.eqb (i mod 2) 1 then parent_hash y x else parent_hash x y) = Ok p.
Proof using.
  revert next i. induction l as [|x|x y l IH] using pairs_ind; intros next i H Hi.
  - cbn in Hi. lia.
  - cbn in Hi. assert (i = 0%nat) as -> by lia. apply next_level_one in H as (q & -> & E). exists x, x, q. by split_and!.
  - apply next_level_two in H as (q & ps & -> & E & H). destruct i as [|[|i]].
    + by exists x, y, q.
    + by exists y, x, q.
    + cbn [length] in Hi. destruct (IH _ i H) as (u & v & p & Hu & Hv & Hp & E'); [lia|].
      replace (S (S i)) with (i + 1 * 2)%nat by lia. unfold sibling_of in *.
      rewrite Nat.Div0.mod_add, Nat.div_add by lia. cbn [length].
      exists u, v, p. replace (i + 1 * 2)%nat with (S (S i)) by lia. rewrite (Nat.add_1_r (i / 2)).
      split_and!; [done| |done|done].
      destruct (Nat.eqb_spec (i mod 2) 1) as [Hodd|Hodd].
      * destruct i as [|i]; [done|]. replace (S (S (S i)) - 1)%nat with (S (S (S i - 1)))%nat by lia. done.
      * replace (S (S i) + 1)%nat with (S (S (i + 1))) by lia.
        replace (S (S (i + 1)) <? S (S (length l)))%nat with (i + 1 <? length l)%nat by (destruct (Nat.ltb_spec (i + 1) (length l)), (Nat.ltb_spec (S (S (i + 1))) (S (S (length l)))); lia).
        by destruct (i + 1 <? length l)%nat.
Qed.
(** The levels of a tree, from the leaves to the single root. *)
Inductive built : list string → list (list string) → Prop :=
| built_root r : built [r] [[r]]
| built_level current next levels : (2 <= length current)%nat → next_level current = Ok next →
    built next levels → built current (current :: levels).

Lemma built_nonempty current levels : built current levels → (0 < length levels)%nat.
Proof using. destruct 1; cbn; lia. Qed.

(** The loop ends within as many steps as there are nodes. *)
Lemma build_levels_total fuel current : Forall is_hex current → current ≠ [] → (length current <= fuel + 1)%nat →
  ∃ levels, build_levels fuel current = Ok levels ∧ built current levels.
Proof using.
  revert current. induction fuel as [|fuel IH]; intros current Hhex Hne Hlen; cbn [build_levels].
  - destruct current as [|r [|]]; [done| |cbn in Hlen; lia]. cbn. eexists. split; [done|constructor].
  - destruct (Nat.leb_spec (length current) 1) as [Hle|Hgt].
    + destruct current as [|r [|]]; [done| |cbn in Hle; lia]. eexists. split; [done|constructor].
    + destruct (next_level_total current Hhex) as [next En]. rewrite En. cbn [mbind res_bind].
      pose proof (next_level_length _ _ En) as Hl.
      assert (0 < length next < length current)%nat as [Hpos Hlt].
      { rewrite Hl. split; [apply Nat.div_str_pos; lia|apply Nat.Div0.div_lt_upper_bound; lia]. }
      destruct (IH next) as (levels & -> & Hb).
      * apply Forall_forall. intros p Hp. destruct (next_level_hex _ _ En p Hp) as (x & y & _ & _ & E).
        apply parent_hash_is_hex in E as (a & b & _ & _ & ->). eexists. apply fromhex_hex.
      * by destruct next; cbn in Hpos; [lia|].
      * lia.
      * eexists. split; [reflexivity|]. by econstructor.
Qed.

(** The root of the levels. *)
Definition top_of (levels : list (list string)) (root : string) : Prop := levels !! (length levels - 1)%nat = Some [root].

Lemma built_top current levels : built current levels → ∃ root, top_of levels root.
Proof using.
  unfold top_of. induction 1 as [r|current next levels Hl Hn Hb [root IH]]; [by exists r|].
  exists root. pose proof (built_nonempty _ _ Hb). cbn [length].
  replace (S (length levels) - 1)%nat with (S (length levels - 1)) by lia. done.
Qed.

Lemma top_cons current levels root : (0 < length levels)%nat → top_of (current :: levels) root → top_of levels root.
Proof using.
  unfold top_of. intros Hpos. cbn [length]. by replace (S (length levels) - 1)%nat with (S (length levels - 1)) by lia.
Qed.

(** ** Inclusion proofs *)

(** The path from any node leads to the root. *)
Lemma audit_path_complete current levels root i : built current levels → top_of levels root → (i < length current)%nat →
  ∃ path leaf, audit_path i (take (length levels - 1) levels) = Ok path ∧ current !! i = Some leaf ∧
    foldM verify_step leaf path = Ok root ∧ length path = (length levels - 1)%nat.
Proof using.
  intros Hb. revert i. induction Hb as [r|current next levels Hl Hn Hb IH]; intros i Ht Hi.
  - cbn in Hi. assert (i = 0%nat) as -> by lia. injection Ht as ->. by exists [], root.
  - pose proof (built_nonempty _ _ Hb) as Hpos. apply top_cons in Ht; [|done].
    destruct (next_level_parent _ _ i Hn Hi) as (x & y & p & Hx & Hy & Hp & E).
    destruct (IH (i / 2)%nat Ht) as (path & leaf & Hpath & Hleaf & Hf & Hlen).
    { by eapply lookup_lt_Some. }
    rewrite Hp in Hleaf. injection Hleaf as <-. cbn [length].
    replace (S (length levels) - 1)%nat with (S (length levels - 1)) by lia. cbn [take audit_path].
    fold (sibling_of i (length current)). rewrite (proj2 (index_ok _ _ _) Hy). cbn [mbind res_bind].
    rewrite Hpath. cbn [mbind res_bind]. eexists _, x. split; [reflexivity|]. split; [done|]. split; [|cbn; lia].
    cbn [foldM]. replace (verify_step x _) with (if Nat.eqb (i mod 2) 1 then parent_hash y x else parent_hash x y).
    + by rewrite E.
    + by destruct (Nat.eqb (i mod 2) 1).
Qed.

Lemma new_MerkleTree_built leaves : leaves ≠ [] → Forall is_hex leaves →
  ∃ t root, new_MerkleTree leaves = Ok t ∧ mt_leaf_hashes t = leaves ∧ built leaves (mt_levels t) ∧
    top_of (mt_levels t) root ∧ root_hash t = Ok root.
Proof using.
  intros Hne Hhex. destruct (build_levels_total (length leaves) leaves Hhex Hne ltac:(lia)) as (levels & Hb & Hbt).
  destruct (built_top _ _ Hbt) as [root Ht]. exists {| mt_leaf_hashes := leaves; mt_levels := levels |}, root.
  split_and!; try done.
  - unfold new_MerkleTree. destruct leaves; [done|]. cbn [raise_if mbind res_bind]. by rewrite Hb.
  - unfold root_hash. cbn [mt_levels]. by rewrite (proj2 (index_ok _ _ _) Ht).
Qed.

(** A tree over hexadecimal leaves is always built, and for every leaf it
    generates an inclusion proof of that leaf that verifies; any other index
    raises. *)
Theorem merkle_proof_complete leaves : leaves ≠ [] → Forall is_hex leaves →
  ∃ t, new_MerkleTree leaves = Ok t ∧
    ∀ i, match leaves !! Z.to_nat i with
         | Some leaf =>
             if 0 <=? i then ∃ p, generate_inclusion_proof i t = Ok p ∧ ip_leaf_hash p = leaf ∧
                                  root_hash t = Ok (ip_root_hash p) ∧ verify p = Ok true
             else generate_inclusion_proof i t = Raise IndexError
         | None => generate_inclusion_proof i t = Raise IndexError
         end.
Proof using.
  intros Hne Hhex. destruct (new_MerkleTree_built leaves Hne Hhex) as (t & root & Hnew & Hleaves & Hb & Ht & Hroot).
  exists t. split; [done|]. intros i. unfold generate_inclusion_proof. rewrite Hleaves.
  destruct (leaves !! Z.to_nat i) as [leaf|] eqn:E; [destruct (Z.leb_spec 0 i) as [Hi|Hi]|].
  - pose proof (lookup_lt_Some _ _ _ E) as Hlt.
    destruct (audit_path_complete _ _ root (Z.to_nat i) Hb Ht Hlt) as (path & leaf' & Hpath & Hleaf & Hf & _).
    rewrite (proj2 (Z.ltb_lt _ _)) by lia. cbn [andb negb raise_if mbind res_bind]. rewrite Hpath. cbn [mbind res_bind].
    rewrite (proj2 (index_ok _ _ _) E). cbn [mbind res_bind]. rewrite Hroot. cbn [mbind res_bind].
    eexists. split; [reflexivity|]. split; [done|]. split; [done|]. unfold verify. cbn [ip_leaf_hash ip_audit_path ip_root_hash].
    rewrite E in Hleaf. injection Hleaf as <-. rewrite Hf. cbn. by rewrite (proj2 (str_eqb_true _ _) eq_refl).
  - done.
  - apply lookup_ge_None in E. destruct (Z.leb_spec 0 i) as [Hi|Hi]; [|done].
    rewrite (proj2 (Z.ltb_ge _ _)) by lia. done.
Qed.

(** Two texts with the same digest. *)
Definition collision : Prop := ∃ a b, a ≠ b ∧ sha256 a = sha256 b.

(** Only leaves lead to the root by a path of full length. *)
Lemma path_sound current levels root : (∀ s, String.length (sha256 s) = 32%nat) → built current levels → top_of levels root →
  Forall is_digest current → ∀ path leaf b c, length path = (length levels - 1)%nat →
  fromhex leaf = Ok b → String.length b = 32%nat → foldM verify_step leaf path = Ok c → str_lower c = str_lower root →
  (∃ x, x ∈ current ∧ fromhex x = Ok b) ∨ collision.
Proof using.
  intros H32 Hb. induction Hb as [r|current next levels Hl Hn Hb IH]; intros Ht Hd path leaf b c Hlen Hleaf Hlb Hf Hc.
  - destruct path; [|done]. injection Ht as ->. injection Hf as ->. left. exists root. split; [by left|].
    by rewrite <-fromhex_lower, <-Hc, fromhex_lower.
  - pose proof (built_nonempty _ _ Hb) as Hpos. apply top_cons in Ht; [|done].
    destruct path as [|node path]; [cbn in Hlen; lia|]. cbn [length] in Hlen.
    cbn [foldM] in Hf. apply bind_ok in Hf as (h & Hh & Hf).
    assert (∃ u v, h = hexdigest (u +:+ v) ∧ (u = b ∨ v = b)) as (u & v & -> & Hub).
    { unfold verify_step in Hh. rewrite Hleaf in Hh. destruct (fromhex (an_hash_hex node)) as [s|]; [|by destruct (str_eqb _ _)].
      destruct (str_eqb _ _); injection Hh as <-; eauto. }
    destruct (IH Ht) with (path := path) (leaf := hexdigest (u +:+ v)) (b := sha256 (u +:+ v)) (c := c) as [(y & Hy & Ey)|?]; try done.
    + apply Forall_forall. intros p Hp. destruct (next_level_hex _ _ Hn p Hp) as (x & y & _ & _ & E).
      apply parent_hash_is_hex in E as (? & ? & _ & _ & ->). eexists. split; [apply fromhex_hex|apply H32].
    + lia.
    + apply fromhex_hex.
    + destruct (next_level_hex _ _ Hn y Hy) as (x1 & x2 & Hx1 & Hx2 & E).
      apply parent_hash_is_hex in E as (a1 & a2 & Ha1 & Ha2 & ->). unfold hexdigest in Ey. rewrite fromhex_hex in Ey. injection Ey as Ey.
      rewrite Forall_forall in Hd. destruct (Hd x1 Hx1) as (? & E1 & L1), (Hd x2 Hx2) as (? & E2 & L2).
      rewrite Ha1 in E1. rewrite Ha2 in E2. injection E1 as <-. injection E2 as <-.
      destruct (decide (a1 +:+ a2 = u +:+ v)) as [Eq|Hne]; [|right; by exists (a1 +:+ a2), (u +:+ v)].
      left. assert (String.length a1 = String.length u) as Hlu.
      { apply (f_equal String.length) in Eq. rewrite !str_length_app in Eq. destruct Hub; subst; lia. }
      apply str_app_inj in Eq as [-> ->]; [|exact Hlu]. destruct Hub as [->| ->]; eauto.
    + by right.
Qed.

(** C14. An inclusion proof of 32 bytes against the root of a tree over 32-byte digests that
    verifies, and whose path is as long as the tree is high, proves that its leaf
    is one of the leaves (as bytes), whatever the texts of its path are, unless the hash has a
    collision.  [verify] checks neither length: see [empty_leaf_verifies] and [inner_node_verifies]. *)
Theorem merkle_proof_sound leaves t p b : leaves ≠ [] → Forall is_digest leaves →
  (∀ s, String.length (sha256 s) = 32%nat) → new_MerkleTree leaves = Ok t → root_hash t = Ok (ip_root_hash p) →
  length (ip_audit_path p) = (length (mt_levels t) - 1)%nat →
  fromhex (ip_leaf_hash p) = Ok b → String.length b = 32%nat → verify p = Ok true →
  (∃ leaf, leaf ∈ leaves ∧ fromhex leaf = Ok b) ∨ collision.
Proof using.
  intros Hne Hd H32 Hnew Hroot Hlen Hleaf Hlb Hv.
  destruct (new_MerkleTree_built leaves Hne) as (t' & root & Hnew' & _ & Hb & Ht & Hroot').
  { eapply Forall_impl; [exact Hd|]. apply is_digest_hex. }
  rewrite Hnew in Hnew'. injection Hnew' as <-. rewrite Hroot in Hroot'. injection Hroot' as <-.
  unfold verify in Hv. apply bind_ok in Hv as (c & Hf & [= Hc]). apply str_eqb_true in Hc.
  by eapply path_sound.
Qed.

(** An odd last leaf may be repeated without changing the root. *)
Lemma duplicated_leaf_same_root x y z : is_hex x → is_hex y → is_hex z →
  ∃ t t', new_MerkleTree [x; y; z] = Ok t ∧ new_MerkleTree [x; y; z; z] = Ok t' ∧ root_hash t = root_hash t'.
Proof using.
  intros [a Ha] [b Hb] [c Hc].
  eexists _, _. unfold new_MerkleTree. cbn [build_levels next_level length Nat.leb raise_if mbind res_bind].
  rewrite (parent_hash_ok x y a b), (parent_hash_ok z z c c) by done. cbn [mbind res_bind length Nat.leb].
  cbn [next_level]. rewrite (parent_hash_ok (hexdigest _) (hexdigest _) _ _ (fromhex_hex _) (fromhex_hex _)). cbn [mbind res_bind length Nat.leb].
  by split_and!.
Qed.

(** Without a bound on its path a proof also verifies for an inner node. *)
Lemma inner_node_verifies x y : is_hex x → is_hex y →
  ∃ t root, new_MerkleTree [x; y] = Ok t ∧ root_hash t = Ok root ∧
    verify {| ip_record_index := 0; ip_leaf_hash := root; ip_root_hash := root; ip_audit_path := [] |} = Ok true.
Proof using.
  intros [a Ha] [b Hb].
  eexists _, _. unfold new_MerkleTree. cbn [build_levels next_level length Nat.leb raise_if mbind res_bind].
  rewrite (parent_hash_ok x y a b) by done. cbn [mbind res_bind length Nat.leb]. split; [done|]. split; [done|].
  unfold verify. cbn. by rewrite (proj2 (str_eqb_true _ _) eq_refl).
Qed.

(** Without a bound on its leaf a path of full length verifies for a text that is no leaf: the empty
    one, beside both leaves at once. *)
Lemma empty_leaf_verifies a b :
  ∃ t root, new_MerkleTree [hex a; hex b] = Ok t ∧ root_hash t = Ok root ∧
    let p := {| ip_record_index := 0; ip_leaf_hash := ""; ip_root_hash := root;
                ip_audit_path := [{| an_hash_hex := hex (a +:+ b); an_direction := "right" |}] |} in
    length (ip_audit_path p) = (length (mt_levels t) - 1)%nat ∧ verify p = Ok true.
Proof using.
  eexists _, _. unfold new_MerkleTree. cbn [build_levels next_level length Nat.leb raise_if mbind res_bind].
  rewrite (parent_hash_ok (hex a) (hex b) a b) by apply fromhex_hex. cbn [mbind res_bind length Nat.leb]. split; [done|]. split; [done|].
  split; [done|]. unfold verify. cbn [ip_audit_path foldM]. unfold verify_step. cbn [an_direction an_hash_hex].
  change (str_eqb "right" "left") with false. cbv iota. cbn [ip_leaf_hash]. change (fromhex "") with (Ok (A:=string) ""). rewrite fromhex_hex.
  cbn [mbind res_bind ip_root_hash]. change ("" +:+ (a +:+ b)) with (a +:+ b). by rewrite (proj2 (str_eqb_true _ _) eq_refl).
Qed.

(** ** Sealing *)

Lemma xor_xor_byte b k :
  Ascii.ascii_of_N (N.lxor (Ascii.N_of_ascii (Ascii.ascii_of_N (N.lxor (Ascii.N_of_ascii b) (Ascii.N_of_ascii k)))) (Ascii.N_of_ascii k)) = b.
Proof using.
  rewrite Ascii.N_ascii_embedding.
  - by rewrite N.lxor_assoc, N.lxor_nilpotent, N.lxor_0_r, Ascii.ascii_N_embedding.
  - pose proof (Ascii.N_ascii_bounded b). pose proof (Ascii.N_ascii_bounded k).
    destruct (N.eq_dec (N.lxor (Ascii.N_of_ascii b) (Ascii.N_of_ascii k)) 0%N) as [->|Hne]; [done|].
    change 256%N with (2 ^ 8)%N in *. apply N.log2_lt_pow2; [lia|]. eapply N.le_lt_trans; [apply N.log2_lxor|].
    apply N.max_lub_lt.
    + destruct (N.eq_dec (Ascii.N_of_ascii b) 0%N) as [->|]; [done|]. apply N.log2_lt_pow2; lia.
    + destruct (N.eq_dec (Ascii.N_of_ascii k) 0%N) as [->|]; [done|]. apply N.log2_lt_pow2; lia.
Qed.

Lemma xor_bytes_length a key : (String.length a <= String.length key)%nat → String.length (xor_bytes a key) = String.length a.
Proof using.
  revert key. induction a as [|b a IH]; intros [|k key] H; cbn in *; try lia. rewrite IH; lia.
Qed.

Lemma xor_bytes_twice a key : (String.length a <= String.length key)%nat → xor_bytes (xor_bytes a key) key = a.
Proof using.
  revert key. induction a as [|b a IH]; intros [|k key] H; try done; [cbn in H; lia|].
  cbn [xor_bytes]. rewrite xor_xor_byte, IH; [done|]. cbn in H. lia.
Qed.

Context (Hsha3 : ∀ s, String.length (sha3 s) = 64%nat).

Lemma keystream_from_total k i blocks : 0 <= i → i + Z.of_nat blocks <= 2 ^ 32 →
  ∃ stream, keystream_from k i blocks = Ok stream ∧ String.length stream = (64 * blocks)%nat.
Proof using Hsha3.
  revert i. induction blocks as [|blocks IH]; intros i Hi Hb; cbn [keystream_from]; [by eexists|].
  unfold to_bytes4. rewrite (proj2 (Z.leb_le 0 i)), (proj2 (Z.ltb_lt i (2 ^ 32))) by lia.
  cbn [andb negb raise_if mbind res_bind].
  destruct (IH (i + 1)) as (rest & Er & Hl); [lia..|]. rewrite Er. cbn [mbind res_bind].
  eexists. split; [reflexivity|]. rewrite str_length_app, Hsha3, Hl. lia.
Qed.

(** Enough key stream for any text below 64 * 2^32 bytes. *)
Lemma keystream_total k n : Z.of_nat n <= 64 * 2 ^ 32 →
  ∃ stream, keystream k n = Ok stream ∧ (n <= String.length stream)%nat.
Proof using Hsha3.
  intros Hn. unfold keystream.
  assert (Hz : Z.of_nat ((n + 63) / 64) = (Z.of_nat n + 63) / 64) by (rewrite Nat2Z.inj_div; lia).
  destruct (keystream_from_total k 0 ((n + 63) / 64)) as (stream & Es & Hl); [lia| |].
  - rewrite Hz. apply Z.le_trans with ((64 * 2 ^ 32 + 63) / 64); [apply Z.div_le_mono; lia|]. vm_compute. discriminate.
  - exists stream. split; [done|]. rewrite Hl. pose proof (Nat.div_mod_eq (n + 63) 64).
    pose proof (Nat.mod_upper_bound (n + 63) 64 ltac:(lia)). lia.
Qed.

(** What [seal] produces. *)
Lemma seal_ok id secret payload recipient level text key : dumps payload = Ok text → fromhex recipient = Ok key →
  Z.of_nat (String.length text) <= 64 * 2 ^ 32 →
  ∃ e stream, seal id secret payload recipient level = Ok e ∧ keystream (sha3 key) (String.length text) = Ok stream ∧
    (String.length text <= String.length stream)%nat ∧
    sl_ciphertext_payload_hex e = hex (xor_bytes text stream) ∧
    sl_integrity_tag_sha3_512 e = sha3_512_hash (xor_bytes text stream +:+ sha3 key).
Proof using Hsha3.
  intros Hd Hk Hlen. destruct (keystream_total (sha3 key) _ Hlen) as (stream & Es & Hl).
  unfold seal. rewrite Hd. cbn [mbind res_bind]. rewrite Hk. cbn [mbind res_bind]. rewrite Es. cbn [mbind res_bind].
  by eexists _, stream.
Qed.

(** C24. A payload whose JSON text is read back is sealed and unsealed to itself
    with the key of the recipient; with the tag kept and any other ciphertext
    unsealing raises, unless SHA3-512 has a collision. *)
Theorem seal_unseal id secret payload recipient level text key :
  dumps payload = Ok text → loads text = Ok payload → fromhex recipient = Ok key →
  Z.of_nat (String.length text) <= 64 * 2 ^ 32 →
  ∃ e, seal id secret payload recipient level = Ok e ∧ unseal e recipient = Ok payload ∧
    ∀ e' c c', sl_integrity_tag_sha3_512 e' = sl_integrity_tag_sha3_512 e →
      fromhex (sl_ciphertext_payload_hex e) = Ok c → fromhex (sl_ciphertext_payload_hex e') = Ok c' → c' ≠ c →
      unseal e' recipient = Raise (ValueError "Integrity tag mismatch in sealed envelope") ∨
      ∃ a b, a ≠ b ∧ sha3 a = sha3 b.
Proof using Hsha3.
  intros Hd Hloads Hk Hlen. destruct (seal_ok id secret payload recipient level text key Hd Hk Hlen) as (e & stream & He & Es & Hl & Hc & Ht).
  exists e. split; [done|]. split.
  - unfold unseal. rewrite Hc, fromhex_hex. cbn [mbind res_bind]. rewrite Hk. cbn [mbind res_bind].
    rewrite Ht, (proj2 (str_eqb_true _ _) eq_refl). cbn [negb raise_if mbind res_bind].
    rewrite xor_bytes_length, Es by done. cbn [mbind res_bind]. by rewrite xor_bytes_twice.
  - intros e' c c' Ht' Hfc Hfc' Hne. rewrite Hc, fromhex_hex in Hfc. injection Hfc as <-.
    unfold unseal. rewrite Hfc'. cbn [mbind res_bind]. rewrite Hk. cbn [mbind res_bind]. rewrite Ht', Ht.
    destruct (str_eqb _ _) eqn:E; [right|by left]. apply str_eqb_true in E. unfold sha3_512_hash in E.
    apply (f_equal fromhex) in E. rewrite !fromhex_hex in E. injection E as E.
    exists (c' +:+ sha3 key), (xor_bytes text stream +:+ sha3 key). split; [|done].
    intros Heq. apply Hne. assert (Hlen' : String.length c' = String.length (xor_bytes text stream)).
    { apply (f_equal String.length) in Heq. rewrite !str_length_app in Heq. lia. }
    by apply str_app_inj in Heq as [-> _].
Qed.

(** The ciphertext does not depend on the ephemeral secret: the key stream of a
    recipient is the same for every message. *)
Lemma seal_ignores_ephemeral id secret id' secret' payload recipient level e e' :
  seal id secret payload recipient level = Ok e → seal id' secret' payload recipient level = Ok e' →
  sl_ciphertext_payload_hex e = sl_ciphertext_payload_hex e'.
Proof using.
  unfold seal. destruct (dumps payload) as [text|]; [|done]. cbn [mbind res_bind].
  destruct (fromhex recipient) as [key|]; [|done]. cbn [mbind res_bind].
  destruct (keystream _ _) as [stream|]; [|done]. cbn [mbind res_bind]. by intros [= <-] [= <-].
Qed.

(** ** Reserve proofs *)

Lemma hash_chain_add seed n m : 0 <= n → 0 <= m → hash_chain (hash_chain seed n) m = hash_chain seed (n + m).
Proof using.
  intros Hn Hm. unfold hash_chain. rewrite Z2Nat.inj_add, Nat.add_comm by lia. by rewrite Nat.iter_add.
Qed.

Lemma new_prover_ok seed reserve capacity : 0 <= reserve <= capacity → new_ZKPProver seed reserve capacity =
  Ok {| zk_actual_reserve := reserve; zk_max_capacity := capacity; zk_secret_seed := seed;
        zk_commitment_bytes := hash_chain seed capacity |}.
Proof using.
  intros Hr. unfold new_ZKPProver. by rewrite (proj2 (Z.ltb_ge reserve 0)), (proj2 (Z.ltb_ge capacity reserve)) by lia.
Qed.

(** The proof of [r] that any prover with the seed computes. *)
Definition proof_of (seed : string) (capacity r : Z) : ZKPReserveProof :=
  {| zp_commitment_hash_hex := hex (hash_chain seed capacity); zp_policy_minimum := r;
     zp_proof_hash_hex := hex (hash_chain seed (capacity - r)) |}.

Lemma proof_verifies seed capacity r : r <= capacity → verify_reserve (proof_of seed capacity r) capacity = Ok (0 <=? r).
Proof using.
  intros Hr. unfold verify_reserve, proof_of. cbn [zp_policy_minimum zp_proof_hash_hex zp_commitment_hash_hex].
  rewrite (proj2 (Z.ltb_ge capacity r)) by lia.
  destruct (Z.ltb_spec r 0), (Z.leb_spec 0 r); try lia; cbn [orb]; [done|].
  rewrite fromhex_hex. cbn [mbind res_bind]. rewrite hash_chain_add by lia.
  replace (capacity - r + r) with capacity by lia. by rewrite (proj2 (str_eqb_true _ _) eq_refl).
Qed.

(** A prover within its capacity refuses exactly the minimums above its
    reserve; the proof of any other minimum verifies exactly when the minimum is
    not negative. Neither commitment nor proof depends on the reserve: the proof
    of a fuller reserve with the same seed verifies against the same commitment. *)
Theorem reserve_proof_exact seed reserve capacity : 0 <= reserve <= capacity →
  ∃ p, new_ZKPProver seed reserve capacity = Ok p ∧
    (∀ r, if reserve <? r then is_ok (prove_minimum r p) = false
          else ∃ proof, prove_minimum r p = Ok proof ∧ verify_reserve proof capacity = Ok (0 <=? r)) ∧
    ∀ fuller q r proof, reserve <= fuller <= capacity → new_ZKPProver seed fuller capacity = Ok q →
      0 <= r → prove_minimum r q = Ok proof →
      zp_commitment_hash_hex proof = hex (zk_commitment_bytes p) ∧ verify_reserve proof capacity = Ok true.
Proof using.
  intros Hr. rewrite new_prover_ok by done. eexists. split; [reflexivity|]. split.
  - intros r. unfold prove_minimum. cbn [zk_actual_reserve zk_max_capacity zk_secret_seed zk_commitment_bytes].
    destruct (Z.ltb_spec reserve r); [done|]. cbn [raise_if mbind res_bind].
    exists (proof_of seed capacity r). split; [done|]. apply proof_verifies. lia.
  - intros fuller q r proof Hf. rewrite new_prover_ok by lia. intros [= <-] H0. unfold prove_minimum.
    cbn [zk_actual_reserve zk_max_capacity zk_secret_seed zk_commitment_bytes].
    destruct (Z.ltb_spec fuller r); [done|]. cbn [raise_if mbind res_bind]. intros [= <-]. split; [done|].
    fold (proof_of seed capacity r). rewrite proof_verifies by lia. by rewrite (proj2 (Z.leb_le 0 r)).
Qed.

(** ** Hybrid envelopes *)

Section signatures_correct.
Context {private_key public_key : Type}.
Context (ed_sign : private_key → string → string) (ed_verify : public_key → string → string → bool).

(** An envelope verifies with the public key of its signer for its payload,
    and never for another payload unless SHA-256 has a collision. *)
Theorem envelope_exact key pub payload key_id stamp now :
  ed_verify pub (ed_sign key payload) payload = true →
  let e := sign_hybrid_envelope ed_sign key payload key_id stamp now in
  verify_envelope ed_verify e pub payload = Ok true ∧
  ∀ other, other ≠ payload → verify_envelope ed_verify e pub other = Ok false ∨ collision.
Proof using.
  intros Hv e. unfold verify_envelope, e, sign_hybrid_envelope.
  cbn [he_signed_payload_sha256 he_classical_signature_hex he_quantum_resistant_digest_hex]. split.
  - rewrite (proj2 (str_eqb_true _ _) eq_refl). cbn [negb]. rewrite fromhex_hex. cbn [mbind res_bind].
    rewrite (proj2 (str_eqb_true _ _) eq_refl). cbn [negb]. by rewrite Hv.
  - intros other Hne. destruct (str_eqb (hexdigest other) (hexdigest payload)) eqn:E; [right|by left].
    apply str_eqb_true in E. unfold hexdigest in E. apply (f_equal fromhex) in E. rewrite !fromhex_hex in E.
    injection E as E. by exists other, payload.
Qed.
End signatures_correct.
End crypto.

(** ** Concrete inputs *)

Definition toy_hash (s : string) : string := str_repeat 32 (if str_empty s then "0" else "1").
Definition toy_hash3 (s : string) : string := str_repeat 64 (if str_empty s then "0" else "1").
Definition toy_leaf (c : string) : string := str_repeat 32 c.
Definition toy_leaves : list string := [toy_leaf "aa"; toy_leaf "bb"; toy_leaf "cc"].

Lemma toy_leaves_digests : Forall is_digest toy_leaves.
Proof. repeat constructor; eexists; split; vm_compute; reflexivity. Qed.

Lemma toy_hash_length s : String.length (toy_hash s) = 32%nat.
Proof. unfold toy_hash. by destruct (str_empty s). Qed.

Lemma toy_hash3_length s : String.length (toy_hash3 s) = 64%nat.
Proof. unfold toy_hash3. by destruct (str_empty s). Qed.

Lemma merkle_proof_complete_witness : ∃ t, new_MerkleTree toy_hash toy_leaves = Ok t ∧
  generate_inclusion_proof 3 t = Raise IndexError.
Proof.
  destruct (merkle_proof_complete toy_hash toy_leaves) as (t & Ht & H).
  - discriminate.
  - eapply Forall_impl; [exact toy_leaves_digests|]. apply is_digest_hex.
  - exists t. split; [exact Ht|]. exact (H 3).
Defined.

Definition toy_tree : MerkleTree :=
  match new_MerkleTree toy_hash toy_leaves with Ok t => t | Raise _ => {| mt_leaf_hashes := []; mt_levels := [] |} end.

Definition toy_proof : MerkleInclusionProof :=
  match generate_inclusion_proof 2 toy_tree with
  | Ok p => p
  | Raise _ => {| ip_record_index := 0; ip_leaf_hash := ""; ip_root_hash := ""; ip_audit_path := [] |}
  end.

Lemma merkle_proof_sound_witness : ∃ b, fromhex (toy_leaf "cc") = Ok b ∧
  ((∃ leaf, leaf ∈ toy_leaves ∧ fromhex leaf = Ok b) ∨ collision toy_hash).
Proof.
  eexists. split; [vm_compute; reflexivity|].
  apply (merkle_proof_sound toy_hash toy_leaves toy_tree toy_proof).
  - discriminate.
  - exact toy_leaves_digests.
  - exact toy_hash_length.
  - vm_compute. reflexivity.
  - vm_compute. reflexivity.
  - vm_compute. reflexivity.
  - vm_compute. reflexivity.
  - vm_compute. reflexivity.
  - vm_compute. reflexivity.
Defined.

Lemma seal_unseal_witness : ∃ e,
  seal toy_hash toy_hash3 (λ _, Ok "{}") "id" "secret" ∅ "00ff" "SECRET" = Ok e ∧
  unseal toy_hash3 (λ _, Ok ∅) e "00ff" = Ok ∅.
Proof.
  assert (∃ key, fromhex "00ff" = Ok key) as [key Hk] by (eexists; vm_compute; reflexivity).
  destruct (seal_unseal toy_hash toy_hash3 (λ _, Ok "{}") (λ _, Ok ∅) toy_hash3_length "id" "secret" ∅ "00ff" "SECRET" "{}" key)
    as (e & He & Hu & _); [reflexivity|reflexivity|exact Hk|vm_compute; discriminate|].
  exists e. split; [exact He|exact Hu].
Defined.

Lemma reserve_proof_exact_witness : ∃ p, new_ZKPProver toy_hash "seed" 10 30 = Ok p ∧
  ∃ proof, prove_minimum toy_hash 5 p = Ok proof ∧ verify_reserve toy_hash proof 30 = Ok true.
Proof.
  destruct (reserve_proof_exact toy_hash "seed" 10 30) as (p & Hp & H & _); [split; vm_compute; discriminate|].
  exists p. split; [exact Hp|]. exact (H 5).
Defined.

Lemma envelope_exact_witness :
  verify_envelope toy_hash toy_hash3 (λ _ _ _, true)
    (sign_hybrid_envelope toy_hash toy_hash3 (λ _ _, "sig") tt "data" "k" "" {| dt_us := 0; dt_aware := true |}) tt "data" = Ok true.
Proof.
  apply (envelope_exact toy_hash toy_hash3 (λ (_ : unit) _, "sig") (λ (_ : unit) _ _, true) tt tt "data" "k" "" _ eq_refl).
Defined.
