(* ===== verification/Dsl.v ===== *)
(** * dsl.py: continuity as code

    Declarative resources: documents of a YAML file (read by a third-party
    parser, seen as JSON values) become typed specifications.  The conversions of
    scalar fields are pydantic's: [to_int], [to_float], [to_bool], [to_str] and
    [to_datetime] are arguments that convert a value or raise.  The constraints of
    the fields, the defaults, the nesting and the two spellings of keys are those
    of the source.  A model with several wrong fields raises one validation error
    that lists them all; here it names the first. *)

From Stdlib Require Import ZArith QArith.
From S2P Require Import Prelude PyFloat FloatError PyFormat Domain State Assurance.

Open Scope Z_scope.

(** ** Kinds *)

Inductive ResourceKind :=
| RK_SUPPLY_NETWORK
| RK_CORRIDOR
| RK_ROUTE
| RK_PORT
| RK_TERMINAL
| RK_CARRIER
| RK_VESSEL_CLASS
| RK_ICEBREAKER_SERVICE
| RK_INVENTORY
| RK_SUPPLIER
| RK_FACILITY
| RK_COMMUNICATION_PROVIDER
| RK_NAVIGATION_SOURCE
| RK_OBSERVATION_SOURCE
| RK_DEPENDENCY
| RK_DEPENDENCY_TRUST
| RK_CONTINUITY_POLICY
| RK_SCENARIO
| RK_RECOVERY_OBJECTIVE
| RK_EVIDENCE
| RK_OBSERVATION
| RK_REMEDIATION
| RK_ASSURANCE_POLICY
| RK_ROUTE_SUBSTITUTION
| RK_STRATEGIC_INVENTORY
| RK_RECOVERY_STATE
| RK_UNCREWED_SYSTEM
| RK_SENSOR_NODE
| RK_RELAY_NODE
| RK_OBSERVATION_PLATFORM
| RK_COUNTER_UAS_COVERAGE.

#[export] Instance ResourceKind_eq_dec : EqDecision ResourceKind.
Proof. solve_decision. Defined.

Definition ResourceKind_value (k : ResourceKind) : string :=
  match k with
  | RK_SUPPLY_NETWORK => "SupplyNetwork"
  | RK_CORRIDOR => "Corridor"
  | RK_ROUTE => "Route"
  | RK_PORT => "Port"
  | RK_TERMINAL => "Terminal"
  | RK_CARRIER => "Carrier"
  | RK_VESSEL_CLASS => "VesselClass"
  | RK_ICEBREAKER_SERVICE => "IcebreakerService"
  | RK_INVENTORY => "Inventory"
  | RK_SUPPLIER => "Supplier"
  | RK_FACILITY => "Facility"
  | RK_COMMUNICATION_PROVIDER => "CommunicationProvider"
  | RK_NAVIGATION_SOURCE => "NavigationSource"
  | RK_OBSERVATION_SOURCE => "ObservationSource"
  | RK_DEPENDENCY => "Dependency"
  | RK_DEPENDENCY_TRUST => "DependencyTrust"
  | RK_CONTINUITY_POLICY => "ContinuityPolicy"
  | RK_SCENARIO => "Scenario"
  | RK_RECOVERY_OBJECTIVE => "RecoveryObjective"
  | RK_EVIDENCE => "Evidence"
  | RK_OBSERVATION => "Observation"
  | RK_REMEDIATION => "Remediation"
  | RK_ASSURANCE_POLICY => "AssurancePolicy"
  | RK_ROUTE_SUBSTITUTION => "RouteSubstitution"
  | RK_STRATEGIC_INVENTORY => "StrategicInventory"
  | RK_RECOVERY_STATE => "RecoveryState"
  | RK_UNCREWED_SYSTEM => "UncrewedSystem"
  | RK_SENSOR_NODE => "SensorNode"
  | RK_RELAY_NODE => "RelayNode"
  | RK_OBSERVATION_PLATFORM => "ObservationPlatform"
  | RK_COUNTER_UAS_COVERAGE => "CounterUASCoverage"
  end.

Definition ResourceKind_all : list ResourceKind :=
  [RK_SUPPLY_NETWORK; RK_CORRIDOR; RK_ROUTE; RK_PORT; RK_TERMINAL; RK_CARRIER; RK_VESSEL_CLASS; RK_ICEBREAKER_SERVICE; RK_INVENTORY; RK_SUPPLIER; RK_FACILITY; RK_COMMUNICATION_PROVIDER; RK_NAVIGATION_SOURCE; RK_OBSERVATION_SOURCE; RK_DEPENDENCY; RK_DEPENDENCY_TRUST; RK_CONTINUITY_POLICY; RK_SCENARIO; RK_RECOVERY_OBJECTIVE; RK_EVIDENCE; RK_OBSERVATION; RK_REMEDIATION; RK_ASSURANCE_POLICY; RK_ROUTE_SUBSTITUTION; RK_STRATEGIC_INVENTORY; RK_RECOVERY_STATE; RK_UNCREWED_SYSTEM; RK_SENSOR_NODE; RK_RELAY_NODE; RK_OBSERVATION_PLATFORM; RK_COUNTER_UAS_COVERAGE].

(** ** Models *)

Record ResourceMetadata := {
  md_name : string;
  md_namespace : string;
  md_labels : gmap string string;
  md_annotations : gmap string string;
  md_owner : option string;
  md_created_at : option datetime
}.

Record RedundancySpec := {
  rd_minimum_routes : Z;
  rd_minimum_ports : Z;
  rd_minimum_satcom_providers : Z;
  rd_minimum_navigation_sources : Z;
  rd_minimum_observation_sources : Z
}.

Record InventorySpec := {
  iv_fuel_reserve_days : Z;
  iv_medical_reserve_days : Z
}.

Record FailureToleranceSpec := {
  ft_routes_unavailable : Z;
  ft_ports_unavailable : Z;
  ft_communication_providers_unavailable : Z;
  ft_navigation_sources_untrusted : Z
}.

Record RecoverySpec := {
  rv_require_inventory_recovery_model : bool;
  rv_require_carrier_return_model : bool;
  rv_require_port_backlog_model : bool
}.

Record ObjectivesSpec := {
  ob_minimum_continuity : float;
  ob_maximum_critical_shortage_days : Z;
  ob_maximum_recovery_days : Z
}.

Record DependencyRulesSpec := {
  dr_prohibit_single_state_service_dependency : bool;
  dr_require_independent_navigation_sources : bool;
  dr_require_independent_observation_sources : bool
}.

Record TrustDimensions := {
  td_physical_availability : float;
  td_cyber_integrity : float;
  td_legal_availability : float;
  td_commercial_availability : float;
  td_insurance_availability : float;
  td_communications_integrity : float;
  td_navigation_integrity : float;
  td_operator_confidence : float;
  td_information_confidence : float
}.

Record SupplyNetworkSpec := {
  sn_objectives : ObjectivesSpec;
  sn_redundancy : RedundancySpec;
  sn_inventory : InventorySpec;
  sn_dependency_rules : DependencyRulesSpec;
  sn_failure_tolerance : FailureToleranceSpec;
  sn_recovery : RecoverySpec
}.

Inductive TrustAggregation := TA_MINIMUM | TA_WEIGHTED | TA_MEAN.

Record DependencyTrustSpec := {
  dt_dependency_ref : string;
  dt_dimensions : TrustDimensions;
  dt_aggregation : TrustAggregation;
  dt_minimum_independent_sources : Z
}.

Record PolicyAssertion := {
  pa_minimum_providers : option Z;
  pa_minimum_reserve_days : option Z;
  pa_minimum_independent_routes : option Z;
  pa_minimum_continuity : option float;
  pa_maximum_single_dependency_concentration : option float;
  pa_minimum_trust_score : option float
}.

Record PolicyRule := { pr_rule_id : string; pr_description : string; pr_assertion : PolicyAssertion }.

Record ContinuityPolicySpec := { cp_rules : list PolicyRule }.

Record ScenarioEvent := { ev_target : string; ev_state : string; ev_description : option string }.

Record ScenarioSpec := { sp_events : list ScenarioEvent; sp_duration_days : Z; sp_description : option string }.

Record RouteSubstitutionSpec := {
  rs_primary_route_id : string;
  rs_alternative_route_id : string;
  rs_cargo_type : string;
  rs_quantity : float;
  rs_required_arrival_days : Z;
  rs_vessel_class_required : option string;
  rs_ice_class_required : bool;
  rs_max_acceptable_delay_days : Z
}.

Record Resource := { r_api_version : string; r_kind : ResourceKind; r_metadata : ResourceMetadata; r_spec : object }.

(** The [ValidationError] record of dsl.py. *)
Record spec_error := { se_path : string; se_message : string; se_severity : string }.

Section dsl.
Context (to_int : json → res Z) (to_float : json → res float) (to_bool : json → res bool) (to_str : json → res string)
  (to_datetime : json → res datetime).

(** ** Fields *)

(** A field with a default, and one without. *)
Definition field {A} (m : object) (name : string) (default : A) (conv : json → res A) : res A :=
  match m !! name with Some v => conv v | None => Ok default end.
Definition required {A} (m : object) (name : string) (conv : json → res A) : res A :=
  match m !! name with Some v => conv v | None => Raise (ValidationError name) end.

Definition int_in (a b : Z) (name : string) (v : json) : res Z :=
  z ← to_int v; _ ← require (between a b z) name; Ok z.
Definition score_of (name : string) (v : json) : res float := x ← to_float v; _ ← require (is_score x) name; Ok x.
Definition str_in (a b : Z) (name : string) (v : json) : res string :=
  s ← to_str v; _ ← require (between a b (str_len s)) name; Ok s.
Definition optional {A} (conv : json → res A) (v : json) : res (option A) :=
  match v with JNull => Ok None | _ => x ← conv v; Ok (Some x) end.
Definition model {A} (parse : object → res A) (v : json) : res A :=
  match v with JObj m => parse m | _ => Raise (ValidationError "model_type") end.
Definition list_of {A} (conv : json → res A) (a b : Z) (name : string) (v : json) : res (list A) :=
  match v with
  | JArr l => l' ← mapM_res conv l; _ ← require (between a b (Z.of_nat (length l))) name; Ok l'
  | _ => Raise (ValidationError name)
  end.

(** [dict[str, str]] *)
Definition str_dict (v : json) : res (gmap string string) :=
  match v with
  | JObj m => kvs ← mapM_res (λ kv, s ← to_str kv.2; Ok (kv.1, s)) (map_to_list m); Ok (list_to_map kvs)
  | _ => Raise (ValidationError "dict_type")
  end.

Definition kind_of (v : json) : res ResourceKind :=
  s ← to_str v;
  match List.find (λ k, str_eqb (ResourceKind_value k) s) ResourceKind_all with
  | Some k => Ok k
  | None => Raise (ValidationError "kind")
  end.

Definition aggregation_of (v : json) : res TrustAggregation :=
  s ← to_str v;
  if str_eqb s "minimum" then Ok TA_MINIMUM else if str_eqb s "weighted" then Ok TA_WEIGHTED
  else if str_eqb s "mean" then Ok TA_MEAN else Raise (ValidationError "aggregation").

(** ** [model_validate] of each model *)

Definition parse_ResourceMetadata (m : object) : res ResourceMetadata :=
  name ← required m "name" (str_in 1 256 "name");
  namespace ← field m "namespace" "default" (str_in 1 128 "namespace");
  labels ← field m "labels" ∅ str_dict;
  annotations ← field m "annotations" ∅ str_dict;
  owner ← field m "owner" None (optional to_str);
  created_at ← field m "created_at" None (optional to_datetime);
  Ok {| md_name := name; md_namespace := namespace; md_labels := labels; md_annotations := annotations;
        md_owner := owner; md_created_at := created_at |}.

Definition parse_RedundancySpec (m : object) : res RedundancySpec :=
  minimum_routes ← field m "minimum_routes" 2 (int_in 1 100 "minimum_routes");
  minimum_ports ← field m "minimum_ports" 2 (int_in 1 100 "minimum_ports");
  minimum_satcom_providers ← field m "minimum_satcom_providers" 2 (int_in 1 20 "minimum_satcom_providers");
  minimum_navigation_sources ← field m "minimum_navigation_sources" 3 (int_in 1 20 "minimum_navigation_sources");
  minimum_observation_sources ← field m "minimum_observation_sources" 2 (int_in 1 20 "minimum_observation_sources");
  Ok {| rd_minimum_routes := minimum_routes; rd_minimum_ports := minimum_ports; rd_minimum_satcom_providers := minimum_satcom_providers; rd_minimum_navigation_sources := minimum_navigation_sources; rd_minimum_observation_sources := minimum_observation_sources |}.

Definition default_RedundancySpec : RedundancySpec :=
  {| rd_minimum_routes := 2; rd_minimum_ports := 2; rd_minimum_satcom_providers := 2; rd_minimum_navigation_sources := 3; rd_minimum_observation_sources := 2 |}.

Definition parse_InventorySpec (m : object) : res InventorySpec :=
  fuel_reserve_days ← field m "fuel_reserve_days" 30 (int_in 0 3650 "fuel_reserve_days");
  medical_reserve_days ← field m "medical_reserve_days" 60 (int_in 0 3650 "medical_reserve_days");
  Ok {| iv_fuel_reserve_days := fuel_reserve_days; iv_medical_reserve_days := medical_reserve_days |}.

Definition default_InventorySpec : InventorySpec :=
  {| iv_fuel_reserve_days := 30; iv_medical_reserve_days := 60 |}.

Definition parse_FailureToleranceSpec (m : object) : res FailureToleranceSpec :=
  routes_unavailable ← field m "routes_unavailable" 1 (int_in 0 50 "routes_unavailable");
  ports_unavailable ← field m "ports_unavailable" 1 (int_in 0 50 "ports_unavailable");
  communication_providers_unavailable ← field m "communication_providers_unavailable" 1 (int_in 0 20 "communication_providers_unavailable");
  navigation_sources_untrusted ← field m "navigation_sources_untrusted" 2 (int_in 0 20 "navigation_sources_untrusted");
  Ok {| ft_routes_unavailable := routes_unavailable; ft_ports_unavailable := ports_unavailable; ft_communication_providers_unavailable := communication_providers_unavailable; ft_navigation_sources_untrusted := navigation_sources_untrusted |}.

Definition default_FailureToleranceSpec : FailureToleranceSpec :=
  {| ft_routes_unavailable := 1; ft_ports_unavailable := 1; ft_communication_providers_unavailable := 1; ft_navigation_sources_untrusted := 2 |}.

Definition parse_RecoverySpec (m : object) : res RecoverySpec :=
  require_inventory_recovery_model ← field m "require_inventory_recovery_model" true to_bool;
  require_carrier_return_model ← field m "require_carrier_return_model" true to_bool;
  require_port_backlog_model ← field m "require_port_backlog_model" true to_bool;
  Ok {| rv_require_inventory_recovery_model := require_inventory_recovery_model; rv_require_carrier_return_model := require_carrier_return_model; rv_require_port_backlog_model := require_port_backlog_model |}.

Definition default_RecoverySpec : RecoverySpec :=
  {| rv_require_inventory_recovery_model := true; rv_require_carrier_return_model := true; rv_require_port_backlog_model := true |}.

Definition parse_ObjectivesSpec (m : object) : res ObjectivesSpec :=
  minimum_continuity ← field m "minimum_continuity" (lit 0.95) (score_of "minimum_continuity");
  maximum_critical_shortage_days ← field m "maximum_critical_shortage_days" 7 (int_in 0 365 "maximum_critical_shortage_days");
  maximum_recovery_days ← field m "maximum_recovery_days" 30 (int_in 1 730 "maximum_recovery_days");
  Ok {| ob_minimum_continuity := minimum_continuity; ob_maximum_critical_shortage_days := maximum_critical_shortage_days; ob_maximum_recovery_days := maximum_recovery_days |}.

Definition default_ObjectivesSpec : ObjectivesSpec :=
  {| ob_minimum_continuity := lit 0.95; ob_maximum_critical_shortage_days := 7; ob_maximum_recovery_days := 30 |}.

Definition parse_DependencyRulesSpec (m : object) : res DependencyRulesSpec :=
  prohibit_single_state_service_dependency ← field m "prohibit_single_state_service_dependency" true to_bool;
  require_independent_navigation_sources ← field m "require_independent_navigation_sources" true to_bool;
  require_independent_observation_sources ← field m "require_independent_observation_sources" true to_bool;
  Ok {| dr_prohibit_single_state_service_dependency := prohibit_single_state_service_dependency; dr_require_independent_navigation_sources := require_independent_navigation_sources; dr_require_independent_observation_sources := require_independent_observation_sources |}.

Definition default_DependencyRulesSpec : DependencyRulesSpec :=
  {| dr_prohibit_single_state_service_dependency := true; dr_require_independent_navigation_sources := true; dr_require_independent_observation_sources := true |}.

Definition parse_TrustDimensions (m : object) : res TrustDimensions :=
  physical_availability ← field m "physical_availability" f1 (score_of "physical_availability");
  cyber_integrity ← field m "cyber_integrity" f1 (score_of "cyber_integrity");
  legal_availability ← field m "legal_availability" f1 (score_of "legal_availability");
  commercial_availability ← field m "commercial_availability" f1 (score_of "commercial_availability");
  insurance_availability ← field m "insurance_availability" f1 (score_of "insurance_availability");
  communications_integrity ← field m "communications_integrity" f1 (score_of "communications_integrity");
  navigation_integrity ← field m "navigation_integrity" f1 (score_of "navigation_integrity");
  operator_confidence ← field m "operator_confidence" f1 (score_of "operator_confidence");
  information_confidence ← field m "information_confidence" f1 (score_of "information_confidence");
  Ok {| td_physical_availability := physical_availability; td_cyber_integrity := cyber_integrity; td_legal_availability := legal_availability; td_commercial_availability := commercial_availability; td_insurance_availability := insurance_availability; td_communications_integrity := communications_integrity; td_navigation_integrity := navigation_integrity; td_operator_confidence := operator_confidence; td_information_confidence := information_confidence |}.

Definition default_TrustDimensions : TrustDimensions :=
  {| td_physical_availability := f1; td_cyber_integrity := f1; td_legal_availability := f1; td_commercial_availability := f1; td_insurance_availability := f1; td_communications_integrity := f1; td_navigation_integrity := f1; td_operator_confidence := f1; td_information_confidence := f1 |}.

Definition parse_SupplyNetworkSpec (m : object) : res SupplyNetworkSpec :=
  objectives ← field m "objectives" default_ObjectivesSpec (model parse_ObjectivesSpec);
  redundancy ← field m "redundancy" default_RedundancySpec (model parse_RedundancySpec);
  inventory ← field m "inventory" default_InventorySpec (model parse_InventorySpec);
  dependency_rules ← field m "dependency_rules" default_DependencyRulesSpec (model parse_DependencyRulesSpec);
  failure_tolerance ← field m "failure_tolerance" default_FailureToleranceSpec (model parse_FailureToleranceSpec);
  recovery ← field m "recovery" default_RecoverySpec (model parse_RecoverySpec);
  Ok {| sn_objectives := objectives; sn_redundancy := redundancy; sn_inventory := inventory;
        sn_dependency_rules := dependency_rules; sn_failure_tolerance := failure_tolerance; sn_recovery := recovery |}.

Definition parse_TrustStrategySpec (m : object) : res TrustAggregation := field m "aggregation" TA_MINIMUM aggregation_of.
Definition parse_TrustProvenanceSpec (m : object) : res Z :=
  field m "minimum_independent_sources" 2 (int_in 1 20 "minimum_independent_sources").

Definition parse_DependencyTrustSpec (m : object) : res DependencyTrustSpec :=
  dependency_ref ← required m "dependency_ref" (str_in 1 256 "dependency_ref");
  dimensions ← field m "dimensions" default_TrustDimensions (model parse_TrustDimensions);
  aggregation ← field m "strategy" TA_MINIMUM (model parse_TrustStrategySpec);
  sources ← field m "provenance" 2 (model parse_TrustProvenanceSpec);
  Ok {| dt_dependency_ref := dependency_ref; dt_dimensions := dimensions; dt_aggregation := aggregation;
        dt_minimum_independent_sources := sources |}.

Definition parse_PolicyAssertion (m : object) : res PolicyAssertion :=
  minimum_providers ← field m "minimum_providers" None (optional to_int);
  minimum_reserve_days ← field m "minimum_reserve_days" None (optional to_int);
  minimum_independent_routes ← field m "minimum_independent_routes" None (optional to_int);
  minimum_continuity ← field m "minimum_continuity" None (optional (score_of "minimum_continuity"));
  concentration ← field m "maximum_single_dependency_concentration" None
    (optional (score_of "maximum_single_dependency_concentration"));
  minimum_trust_score ← field m "minimum_trust_score" None (optional (score_of "minimum_trust_score"));
  Ok {| pa_minimum_providers := minimum_providers; pa_minimum_reserve_days := minimum_reserve_days;
        pa_minimum_independent_routes := minimum_independent_routes; pa_minimum_continuity := minimum_continuity;
        pa_maximum_single_dependency_concentration := concentration; pa_minimum_trust_score := minimum_trust_score |}.

Definition parse_PolicyRule (m : object) : res PolicyRule :=
  rule_id ← required m "rule_id" (str_in 1 64 "rule_id");
  description ← required m "description" (str_in 1 512 "description");
  assertion ← required m "assertion" (model parse_PolicyAssertion);
  Ok {| pr_rule_id := rule_id; pr_description := description; pr_assertion := assertion |}.

Definition parse_ContinuityPolicySpec (m : object) : res ContinuityPolicySpec :=
  rules ← required m "rules" (list_of (model parse_PolicyRule) 1 500 "rules");
  Ok {| cp_rules := rules |}.

Definition parse_ScenarioEvent (m : object) : res ScenarioEvent :=
  target ← required m "target" (str_in 1 256 "target");
  state ← required m "state" (str_in 1 64 "state");
  description ← field m "description" None (optional to_str);
  Ok {| ev_target := target; ev_state := state; ev_description := description |}.

Definition parse_ScenarioSpec (m : object) : res ScenarioSpec :=
  events ← field m "events" [] (list_of (model parse_ScenarioEvent) 0 200 "events");
  duration_days ← field m "duration_days" 30 (int_in 1 3650 "duration_days");
  description ← field m "description" None (optional to_str);
  Ok {| sp_events := events; sp_duration_days := duration_days; sp_description := description |}.

(** ** Keys in camelCase or snake_case *)

(** [raw.get(camel, raw.get(snake, default))] *)
Definition either (raw : object) (camel snake : string) (default : json) : json :=
  match raw !! camel with
  | Some v => v
  | None => match raw !! snake with Some v => v | None => default end
  end.

(** The truth value of a JSON value. *)
Definition truthy (v : json) : bool :=
  match v with
  | JNull => false
  | JBool b => b
  | JNum z => negb (z =? 0)
  | JFloat x => negb (x =? f0)%F
  | JStr s => negb (str_empty s)
  | JArr l => negb (bool_decide (length l = 0%nat))
  | JObj m => negb (bool_decide (dom m = ∅))
  end.

(** [data.get(camel) or data.get(snake) or {}] *)
Definition first_truthy (data : object) (camel snake : string) : json :=
  let get k := match data !! k with Some v => v | None => JNull end in
  if truthy (get camel) then get camel else if truthy (get snake) then get snake else JObj ∅.

(** [Model( **raw)]: only a mapping unpacks. *)
Definition unpack (v : json) : res object :=
  match v with JObj m => Ok m | _ => Raise (TypeError "argument after ** must be a mapping") end.

(** A section of the data, as the receiver of [.get]; [None] when it is absent. *)
Definition section (data : object) (name : string) : res (option object) :=
  match data !! name with
  | None => Ok None
  | Some (JObj m) => Ok (Some m)
  | Some _ => Raise (AttributeError "get")
  end.

Definition default_AssuranceToleranceSpec : AssuranceToleranceSpec :=
  {| at_corridor_loss := 1; at_port_loss := 1; at_communication_provider_loss := 1; at_navigation_source_loss := 2;
     at_observation_source_loss := 1 |}.
Definition default_AssuranceEvidenceSpec : AssuranceEvidenceSpec :=
  {| ae_minimum_independent_operational_sources := 2; ae_minimum_independent_navigation_sources := 3;
     ae_minimum_independent_environmental_sources := 2 |}.
Definition default_AssuranceCommercialSpec : AssuranceCommercialSpec :=
  {| ac_minimum_carrier_options := 2; ac_insurance_required := true |}.
Definition default_AssuranceInventorySpec : AssuranceInventorySpec :=
  {| ai_minimum_reserve_days := 30; ai_minimum_assured_replenishment_cycles := 1 |}.
Definition default_AssuranceRecoverySpec : AssuranceRecoverySpec :=
  {| ar_verify_carrier_return := true; ar_verify_backlog_clearance := true; ar_verify_reserve_restoration := true |}.

Definition objective_of (data : object) : res float :=
  if bool_decide (is_Some (data !! "continuityObjective")) || bool_decide (is_Some (data !! "continuity_objective")) then
    raw_obj ← unpack (first_truthy data "continuityObjective" "continuity_objective");
    field raw_obj "minimum" (lit 0.95) (score_of "minimum")
  else Ok (lit 0.95).

Definition tolerate_of (raw : object) : res AssuranceToleranceSpec :=
  corridor ← int_in 0 50 "corridor_loss" (either raw "corridorLoss" "corridor_loss" (JNum 1));
  port ← int_in 0 50 "port_loss" (either raw "portLoss" "port_loss" (JNum 1));
  communication ← int_in 0 20 "communication_provider_loss"
    (either raw "communicationProviderLoss" "communication_provider_loss" (JNum 1));
  navigation ← int_in 0 20 "navigation_source_loss" (either raw "navigationSourceLoss" "navigation_source_loss" (JNum 2));
  observation ← int_in 0 20 "observation_source_loss" (either raw "observationSourceLoss" "observation_source_loss" (JNum 1));
  Ok {| at_corridor_loss := corridor; at_port_loss := port; at_communication_provider_loss := communication;
        at_navigation_source_loss := navigation; at_observation_source_loss := observation |}.

Definition evidence_of (raw : object) : res AssuranceEvidenceSpec :=
  operational ← int_in 1 20 "minimum_independent_operational_sources"
    (either raw "minimumIndependentOperationalSources" "minimum_independent_operational_sources" (JNum 2));
  navigation ← int_in 1 20 "minimum_independent_navigation_sources"
    (either raw "minimumIndependentNavigationSources" "minimum_independent_navigation_sources" (JNum 3));
  environmental ← int_in 1 20 "minimum_independent_environmental_sources"
    (either raw "minimumIndependentEnvironmentalSources" "minimum_independent_environmental_sources" (JNum 2));
  Ok {| ae_minimum_independent_operational_sources := operational; ae_minimum_independent_navigation_sources := navigation;
        ae_minimum_independent_environmental_sources := environmental |}.

Definition commercial_of (raw : object) : res AssuranceCommercialSpec :=
  carriers ← int_in 1 20 "minimum_carrier_options" (either raw "minimumCarrierOptions" "minimum_carrier_options" (JNum 2));
  insurance ← to_bool (either raw "insuranceRequired" "insurance_required" (JBool true));
  Ok {| ac_minimum_carrier_options := carriers; ac_insurance_required := insurance |}.

Definition inventory_of (raw : object) : res AssuranceInventorySpec :=
  days ← int_in 0 3650 "minimum_reserve_days" (either raw "minimumReserveDays" "minimum_reserve_days" (JNum 30));
  cycles ← int_in 0 50 "minimum_assured_replenishment_cycles"
    (either raw "minimumAssuredReplenishmentCycles" "minimum_assured_replenishment_cycles" (JNum 1));
  Ok {| ai_minimum_reserve_days := days; ai_minimum_assured_replenishment_cycles := cycles |}.

Definition recovery_of (raw : object) : res AssuranceRecoverySpec :=
  carrier ← to_bool (either raw "verifyCarrierReturn" "verify_carrier_return" (JBool true));
  backlog ← to_bool (either raw "verifyBacklogClearance" "verify_backlog_clearance" (JBool true));
  reserve ← to_bool (either raw "verifyReserveRestoration" "verify_reserve_restoration" (JBool true));
  Ok {| ar_verify_carrier_return := carrier; ar_verify_backlog_clearance := backlog;
        ar_verify_reserve_restoration := reserve |}.

(** A section that is parsed when it is present, and otherwise its default. *)
Definition parse_section {A} (data : object) (name : string) (default : A) (parse : object → res A) : res A :=
  raw ← section data name; match raw with Some raw => parse raw | None => Ok default end.

(** [AssurancePolicySpec.from_camel_or_snake] *)
Definition assurance_from_camel_or_snake (data : object) : res AssurancePolicySpec :=
  minimum ← objective_of data;
  tolerate ← parse_section data "tolerate" default_AssuranceToleranceSpec tolerate_of;
  evidence ← parse_section data "evidence" default_AssuranceEvidenceSpec evidence_of;
  commercial ← parse_section data "commercial" default_AssuranceCommercialSpec commercial_of;
  inventory ← parse_section data "inventory" default_AssuranceInventorySpec inventory_of;
  recovery ← parse_section data "recovery" default_AssuranceRecoverySpec recovery_of;
  Ok {| ap_minimum := minimum; ap_tolerate := tolerate; ap_evidence := evidence; ap_commercial := commercial;
        ap_inventory := inventory; ap_recovery := recovery |}.

(** [RouteSubstitutionSpec.from_camel_or_snake]; [py_float] and [py_int] are the
    built-in conversions of a JSON value, [py_float] an argument. *)
Definition substitution_from_camel_or_snake (py_float : json → res float) (data : object) : res RouteSubstitutionSpec :=
  quantity ← py_float (match data !! "quantity" with Some v => v | None => JFloat (lit 1000) end);
  required_arrival_days ← int_of_json (either data "requiredArrivalDays" "required_arrival_days" (JNum 30));
  max_acceptable_delay_days ← int_of_json (either data "maxAcceptableDelayDays" "max_acceptable_delay_days" (JNum 14));
  primary ← str_in 1 128 "primary_route_id" (either data "primaryRouteId" "primary_route_id" (JStr ""));
  alternative ← str_in 1 128 "alternative_route_id" (either data "alternativeRouteId" "alternative_route_id" (JStr ""));
  cargo ← to_str (either data "cargoType" "cargo_type" (JStr "general"));
  _ ← require (f0 <? quantity)%F "quantity";
  _ ← require (between 1 365 required_arrival_days) "required_arrival_days";
  vessel ← optional to_str (either data "vesselClassRequired" "vessel_class_required" JNull);
  _ ← require (between 0 365 max_acceptable_delay_days) "max_acceptable_delay_days";
  Ok {| rs_primary_route_id := primary; rs_alternative_route_id := alternative; rs_cargo_type := cargo;
        rs_quantity := quantity; rs_required_arrival_days := required_arrival_days; rs_vessel_class_required := vessel;
        rs_ice_class_required := truthy (either data "iceClassRequired" "ice_class_required" (JBool false));
        rs_max_acceptable_delay_days := max_acceptable_delay_days |}.

(** ** Resources *)

Definition parse_Resource (m : object) : res Resource :=
  api_version ← field m "apiVersion" "continuity.io/v1" to_str;
  kind ← required m "kind" kind_of;
  metadata ← required m "metadata" (model parse_ResourceMetadata);
  spec ← required m "spec" (model (λ m, Ok m));
  Ok {| r_api_version := api_version; r_kind := kind; r_metadata := metadata; r_spec := spec |}.

(** A typed accessor of the specification: [if self.kind != kind: raise]. *)
Definition spec_as {A} (kind : ResourceKind) (parse : object → res A) (r : Resource) : res A :=
  _ ← raise_if (negb (bool_decide (r_kind r = kind)))
        (ValueError ("expected " +:+ ResourceKind_value kind +:+ ", got " +:+ ResourceKind_value (r_kind r)));
  parse (r_spec r).

Definition supply_network_spec : Resource → res SupplyNetworkSpec := spec_as RK_SUPPLY_NETWORK parse_SupplyNetworkSpec.
Definition dependency_trust_spec : Resource → res DependencyTrustSpec := spec_as RK_DEPENDENCY_TRUST parse_DependencyTrustSpec.
Definition continuity_policy_spec : Resource → res ContinuityPolicySpec := spec_as RK_CONTINUITY_POLICY parse_ContinuityPolicySpec.
Definition scenario_spec : Resource → res ScenarioSpec := spec_as RK_SCENARIO parse_ScenarioSpec.
Definition assurance_policy_spec : Resource → res AssurancePolicySpec := spec_as RK_ASSURANCE_POLICY assurance_from_camel_or_snake.
Definition route_substitution_spec (py_float : json → res float) : Resource → res RouteSubstitutionSpec :=
  spec_as RK_ROUTE_SUBSTITUTION (substitution_from_camel_or_snake py_float).

(** [load_resource]: [raw] is the document of the file. *)
Definition load_resource (raw : json) : res Resource :=
  match raw with
  | JObj m => parse_Resource m
  | _ => Raise (ValueError "expected a YAML object at document root")
  end.

Definition load_step (acc : list Resource) (doc : json) : res (list Resource) :=
  match doc with
  | JNull => Ok acc
  | JObj m => r ← parse_Resource m; Ok (acc ++ [r])
  | _ => Raise (ValueError "expected a YAML object in multi-document")
  end.

Definition load_resources (documents : list json) : res (list Resource) := foldM load_step [] documents.

(** The accessor [validate_resource] calls, without its result. *)
Definition check_spec (py_float : json → res float) (r : Resource) : res unit :=
  match r_kind r with
  | RK_SUPPLY_NETWORK => _ ← supply_network_spec r; Ok tt
  | RK_DEPENDENCY_TRUST => _ ← dependency_trust_spec r; Ok tt
  | RK_CONTINUITY_POLICY => _ ← continuity_policy_spec r; Ok tt
  | RK_SCENARIO => _ ← scenario_spec r; Ok tt
  | RK_ASSURANCE_POLICY => _ ← assurance_policy_spec r; Ok tt
  | RK_ROUTE_SUBSTITUTION => _ ← route_substitution_spec py_float r; Ok tt
  | _ => Ok tt
  end.

(** [str_exn] is the text of an exception. *)
Definition validate_resource (py_float : json → res float) (str_exn : exn → string) (r : Resource) : list spec_error :=
  (if str_eqb (r_api_version r) "continuity.io/v1" then []
   else [{| se_path := "apiVersion"; se_message := "unsupported API version: " +:+ r_api_version r; se_severity := "error" |}])
  ++ match check_spec py_float r with
     | Ok _ => []
     | Raise e => [{| se_path := "spec"; se_message := str_exn e; se_severity := "error" |}]
     end.

(** ** Well-formed specifications *)

Definition RedundancySpec_valid (s : RedundancySpec) : bool :=
  between 1 100 (rd_minimum_routes s) && between 1 100 (rd_minimum_ports s) && between 1 20 (rd_minimum_satcom_providers s)
  && between 1 20 (rd_minimum_navigation_sources s) && between 1 20 (rd_minimum_observation_sources s).

Definition ObjectivesSpec_valid (s : ObjectivesSpec) : bool :=
  is_score (ob_minimum_continuity s) && between 0 365 (ob_maximum_critical_shortage_days s)
  && between 1 730 (ob_maximum_recovery_days s).

Definition InventorySpec_valid (s : InventorySpec) : bool :=
  between 0 3650 (iv_fuel_reserve_days s) && between 0 3650 (iv_medical_reserve_days s).

Definition FailureToleranceSpec_valid (s : FailureToleranceSpec) : bool :=
  between 0 50 (ft_routes_unavailable s) && between 0 50 (ft_ports_unavailable s)
  && between 0 20 (ft_communication_providers_unavailable s) && between 0 20 (ft_navigation_sources_untrusted s).

Definition SupplyNetworkSpec_valid (s : SupplyNetworkSpec) : bool :=
  ObjectivesSpec_valid (sn_objectives s) && RedundancySpec_valid (sn_redundancy s)
  && InventorySpec_valid (sn_inventory s) && FailureToleranceSpec_valid (sn_failure_tolerance s).

Definition dimension_values (d : TrustDimensions) : list float :=
  [td_physical_availability d; td_cyber_integrity d; td_legal_availability d; td_commercial_availability d;
   td_insurance_availability d; td_communications_integrity d; td_navigation_integrity d; td_operator_confidence d;
   td_information_confidence d].

Definition TrustDimensions_valid (d : TrustDimensions) : bool := forallb is_score (dimension_values d).

Definition DependencyTrustSpec_valid (s : DependencyTrustSpec) : bool :=
  between 1 256 (str_len (dt_dependency_ref s)) && TrustDimensions_valid (dt_dimensions s)
  && between 1 20 (dt_minimum_independent_sources s).

Definition optional_score (x : option float) : bool := match x with Some x => is_score x | None => true end.

Definition PolicyRule_valid (r : PolicyRule) : bool :=
  let a := pr_assertion r in
  between 1 64 (str_len (pr_rule_id r)) && between 1 512 (str_len (pr_description r))
  && optional_score (pa_minimum_continuity a) && optional_score (pa_maximum_single_dependency_concentration a)
  && optional_score (pa_minimum_trust_score a).

Definition ContinuityPolicySpec_valid (s : ContinuityPolicySpec) : bool :=
  between 1 500 (Z.of_nat (length (cp_rules s))) && forallb PolicyRule_valid (cp_rules s).

Definition ScenarioEvent_valid (e : ScenarioEvent) : bool :=
  between 1 256 (str_len (ev_target e)) && between 1 64 (str_len (ev_state e)).

Definition ScenarioSpec_valid (s : ScenarioSpec) : bool :=
  between 0 200 (Z.of_nat (length (sp_events s))) && forallb ScenarioEvent_valid (sp_events s)
  && between 1 3650 (sp_duration_days s).

Definition RouteSubstitutionSpec_valid (s : RouteSubstitutionSpec) : bool :=
  between 1 128 (str_len (rs_primary_route_id s)) && between 1 128 (str_len (rs_alternative_route_id s))
  && (f0 <? rs_quantity s)%F && between 1 365 (rs_required_arrival_days s)
  && between 0 365 (rs_max_acceptable_delay_days s).

(** What a conversion that succeeds returns satisfies. *)
Lemma field_ok {A} (P : A → Prop) m name (d : A) conv x : P d → (∀ v y, conv v = Ok y → P y) → field m name d conv = Ok x → P x.
Proof using. unfold field. intros Hd Hc. destruct (m !! name); [apply Hc|by intros [= <-]]. Qed.

Lemma required_ok {A} (P : A → Prop) m name (conv : json → res A) x :
  (∀ v y, conv v = Ok y → P y) → required m name conv = Ok x → P x.
Proof using. unfold required. intros Hc. destruct (m !! name); [apply Hc|done]. Qed.

Lemma int_in_ok a b name v z : int_in a b name v = Ok z → between a b z = true.
Proof using. unfold int_in. intros H. by inv_ok. Qed.

Lemma score_of_ok name v x : score_of name v = Ok x → is_score x = true.
Proof using. unfold score_of. intros H. by inv_ok. Qed.

Lemma str_in_ok a b name v s : str_in a b name v = Ok s → between a b (str_len s) = true.
Proof using. unfold str_in. intros H. by inv_ok. Qed.

Lemma model_ok {A} (P : A → Prop) parse v (x : A) : (∀ m y, parse m = Ok y → P y) → model parse v = Ok x → P x.
Proof using. unfold model. intros Hp. destruct v; try done. apply Hp. Qed.

Lemma optional_score_ok name v x : optional (score_of name) v = Ok x → optional_score x = true.
Proof using. unfold optional. destruct v; intros H; inv_ok; try done; cbn; by eapply score_of_ok. Qed.

Lemma list_of_ok {A} (valid : A → bool) conv a b name v (l : list A) :
  (∀ v y, conv v = Ok y → valid y = true) → list_of conv a b name v = Ok l →
  between a b (Z.of_nat (length l)) = true ∧ forallb valid l = true.
Proof using.
  unfold list_of. intros Hc. destruct v; try done. intros H. inv_ok.
  pose proof (mapM_res_Forall2 _ _ _ H0) as HF. split.
  - by rewrite <-(Forall2_length _ _ _ HF).
  - apply forallb_forall. intros y Hy%list_elem_of_In. apply list_elem_of_lookup in Hy as [i Hi].
    destruct (Forall2_lookup_r _ _ _ _ _ HF Hi) as (w & _ & Hw). by eapply Hc.
Qed.

#[local] Hint Resolve int_in_ok score_of_ok str_in_ok optional_score_ok : dsl.

(** Read the constraint of a field from the step that parsed it. *)
Ltac field_facts :=
  repeat match goal with
  | H : field _ _ _ (int_in ?a ?b _) = Ok ?x |- _ =>
      apply (field_ok (λ x, between a b x = true)) in H; [|reflexivity|by eauto with dsl]
  | H : field _ _ _ (score_of _) = Ok ?x |- _ =>
      apply (field_ok (λ x, is_score x = true)) in H; [|reflexivity|by eauto with dsl]
  | H : field _ _ _ (optional (score_of _)) = Ok ?x |- _ =>
      apply (field_ok (λ x, optional_score x = true)) in H; [|reflexivity|by eauto with dsl]
  | H : required _ _ (str_in ?a ?b _) = Ok ?x |- _ =>
      apply (required_ok (λ x, between a b (str_len x) = true)) in H; [|by eauto with dsl]
  | H : int_in _ _ _ _ = Ok _ |- _ => apply int_in_ok in H
  | H : str_in _ _ _ _ = Ok _ |- _ => apply str_in_ok in H
  | H : score_of _ _ = Ok _ |- _ => apply score_of_ok in H
  end.

Ltac split_and_true := repeat lazymatch goal with |- _ && _ = true => apply andb_true_intro; split end.

Ltac all_true := split_and_true; first [assumption | reflexivity].

(** A model of scalar fields only. *)
Ltac parsed := let H := fresh in intros H; inv_ok; field_facts; all_true.

Lemma parse_ObjectivesSpec_valid m s : parse_ObjectivesSpec m = Ok s → ObjectivesSpec_valid s = true.
Proof using. unfold parse_ObjectivesSpec, ObjectivesSpec_valid. parsed. Qed.

Lemma parse_RedundancySpec_valid m s : parse_RedundancySpec m = Ok s → RedundancySpec_valid s = true.
Proof using. unfold parse_RedundancySpec, RedundancySpec_valid. parsed. Qed.

Lemma parse_InventorySpec_valid m s : parse_InventorySpec m = Ok s → InventorySpec_valid s = true.
Proof using. unfold parse_InventorySpec, InventorySpec_valid. parsed. Qed.

Lemma parse_FailureToleranceSpec_valid m s : parse_FailureToleranceSpec m = Ok s → FailureToleranceSpec_valid s = true.
Proof using. unfold parse_FailureToleranceSpec, FailureToleranceSpec_valid. parsed. Qed.

Lemma parse_TrustDimensions_valid m s : parse_TrustDimensions m = Ok s → TrustDimensions_valid s = true.
Proof using. unfold parse_TrustDimensions, TrustDimensions_valid, dimension_values, forallb. parsed. Qed.

(** A nested model with a default. *)
Lemma nested_ok {A} (valid : A → bool) parse m name d (x : A) : valid d = true →
  (∀ m y, parse m = Ok y → valid y = true) → field m name d (model parse) = Ok x → valid x = true.
Proof using.
  intros Hd Hp. apply (field_ok (λ x, valid x = true)); [done|]. intros v y. by apply (model_ok (λ y, valid y = true)).
Qed.

Lemma parse_SupplyNetworkSpec_valid m s : parse_SupplyNetworkSpec m = Ok s → SupplyNetworkSpec_valid s = true.
Proof using.
  unfold parse_SupplyNetworkSpec. intros H. inv_ok. unfold SupplyNetworkSpec_valid.
  cbn [sn_objectives sn_redundancy sn_inventory sn_failure_tolerance].
  split_and_true; (eapply nested_ok; [| |eassumption]); [reflexivity| |reflexivity| |reflexivity| |reflexivity|].
  - exact parse_ObjectivesSpec_valid.
  - exact parse_RedundancySpec_valid.
  - exact parse_InventorySpec_valid.
  - exact parse_FailureToleranceSpec_valid.
Qed.

Lemma parse_DependencyTrustSpec_valid m s : parse_DependencyTrustSpec m = Ok s → DependencyTrustSpec_valid s = true.
Proof using.
  unfold parse_DependencyTrustSpec. intros H. inv_ok. unfold DependencyTrustSpec_valid.
  cbn [dt_dependency_ref dt_dimensions dt_minimum_independent_sources]. field_facts.
  match goal with H : field m "dimensions" _ _ = _ |- _ =>
    apply (nested_ok TrustDimensions_valid) in H; [|reflexivity|exact parse_TrustDimensions_valid] end.
  match goal with H : field m "provenance" _ _ = _ |- _ => apply (nested_ok (between 1 20)) in H; [all_true|reflexivity|] end.
  intros m' y. unfold parse_TrustProvenanceSpec. intros Hf. by field_facts.
Qed.

Lemma parse_PolicyRule_valid m r : parse_PolicyRule m = Ok r → PolicyRule_valid r = true.
Proof using.
  unfold parse_PolicyRule. intros H. inv_ok. unfold PolicyRule_valid. cbn [pr_rule_id pr_description pr_assertion]. field_facts.
  match goal with H : required m "assertion" _ = _ |- _ =>
    apply (required_ok (λ a, optional_score (pa_minimum_continuity a) && optional_score (pa_maximum_single_dependency_concentration a)
      && optional_score (pa_minimum_trust_score a) = true)) in H; [bool_norm; all_true|] end.
  intros v y. apply (model_ok (λ a, optional_score (pa_minimum_continuity a) && optional_score (pa_maximum_single_dependency_concentration a)
    && optional_score (pa_minimum_trust_score a) = true)). clear. intros m y. unfold parse_PolicyAssertion. parsed.
Qed.

Lemma parse_ContinuityPolicySpec_valid m s : parse_ContinuityPolicySpec m = Ok s → ContinuityPolicySpec_valid s = true.
Proof using.
  unfold parse_ContinuityPolicySpec. intros H. inv_ok. unfold ContinuityPolicySpec_valid. cbn [cp_rules].
  apply andb_true_intro. revert H0. apply (required_ok (λ l, between 1 500 (Z.of_nat (length l)) = true ∧ forallb PolicyRule_valid l = true)).
  intros v l. apply list_of_ok. intros w y. apply (model_ok (λ y, PolicyRule_valid y = true)), parse_PolicyRule_valid.
Qed.

Lemma parse_ScenarioEvent_valid m e : parse_ScenarioEvent m = Ok e → ScenarioEvent_valid e = true.
Proof using. unfold parse_ScenarioEvent, ScenarioEvent_valid. parsed. Qed.

Lemma parse_ScenarioSpec_valid m s : parse_ScenarioSpec m = Ok s → ScenarioSpec_valid s = true.
Proof using.
  unfold parse_ScenarioSpec. intros H. inv_ok. unfold ScenarioSpec_valid. cbn [sp_events sp_duration_days]. field_facts.
  match goal with H : field m "events" _ _ = _ |- _ =>
    apply (field_ok (λ l, between 0 200 (Z.of_nat (length l)) = true ∧ forallb ScenarioEvent_valid l = true)) in H;
    [destruct H; all_true|done|] end.
  intros v l. apply list_of_ok. intros w y. apply (model_ok (λ y, ScenarioEvent_valid y = true)), parse_ScenarioEvent_valid.
Qed.

Lemma substitution_valid py_float data s : substitution_from_camel_or_snake py_float data = Ok s → RouteSubstitutionSpec_valid s = true.
Proof using. unfold substitution_from_camel_or_snake, RouteSubstitutionSpec_valid. parsed. Qed.

(** ** Assurance policies *)

Lemma parse_section_ok {A} (P : A → Prop) data name d parse x :
  P d → (∀ m y, parse m = Ok y → P y) → parse_section data name d parse = Ok x → P x.
Proof using.
  unfold parse_section. intros Hd Hp H. apply bind_ok in H as ([m|] & _ & H); [by eapply Hp|by injection H as <-].
Qed.

Lemma objective_of_valid data x : objective_of data = Ok x → is_score x = true.
Proof using.
  unfold objective_of. destruct (_ || _); intros H; inv_ok; [|reflexivity]. by field_facts.
Qed.

(** The constraints of the sections. *)
Definition tolerate_valid (t : AssuranceToleranceSpec) : bool :=
  between 0 50 (at_corridor_loss t) && between 0 50 (at_port_loss t) && between 0 20 (at_communication_provider_loss t)
  && between 0 20 (at_navigation_source_loss t) && between 0 20 (at_observation_source_loss t).

Definition evidence_valid (e : AssuranceEvidenceSpec) : bool :=
  between 1 20 (ae_minimum_independent_operational_sources e) && between 1 20 (ae_minimum_independent_navigation_sources e)
  && between 1 20 (ae_minimum_independent_environmental_sources e).

Definition inventory_valid (i : AssuranceInventorySpec) : bool :=
  between 0 3650 (ai_minimum_reserve_days i) && between 0 50 (ai_minimum_assured_replenishment_cycles i).

Lemma tolerate_of_valid m t : tolerate_of m = Ok t → tolerate_valid t = true.
Proof using. unfold tolerate_of, tolerate_valid. parsed. Qed.

Lemma evidence_of_valid m e : evidence_of m = Ok e → evidence_valid e = true.
Proof using. unfold evidence_of, evidence_valid. parsed. Qed.

Lemma commercial_of_valid m c : commercial_of m = Ok c → between 1 20 (ac_minimum_carrier_options c) = true.
Proof using. unfold commercial_of. parsed. Qed.

Lemma inventory_of_valid m i : inventory_of m = Ok i → inventory_valid i = true.
Proof using. unfold inventory_of, inventory_valid. parsed. Qed.

Lemma assurance_valid data p : assurance_from_camel_or_snake data = Ok p → AssurancePolicySpec_valid p = true.
Proof using.
  unfold assurance_from_camel_or_snake. intros H. inv_ok. unfold AssurancePolicySpec_valid.
  cbn [ap_minimum ap_tolerate ap_evidence ap_commercial ap_inventory ap_recovery].
  repeat match goal with
  | H : objective_of _ = _ |- _ => apply objective_of_valid in H
  | H : parse_section _ "tolerate" _ _ = _ |- _ =>
      apply (parse_section_ok (λ t, tolerate_valid t = true)) in H; [|reflexivity|exact tolerate_of_valid]; unfold tolerate_valid in H
  | H : parse_section _ "evidence" _ _ = _ |- _ =>
      apply (parse_section_ok (λ e, evidence_valid e = true)) in H; [|reflexivity|exact evidence_of_valid]; unfold evidence_valid in H
  | H : parse_section _ "commercial" _ _ = _ |- _ =>
      apply (parse_section_ok (λ c, between 1 20 (ac_minimum_carrier_options c) = true)) in H; [|reflexivity|exact commercial_of_valid]
  | H : parse_section _ "inventory" _ _ = _ |- _ =>
      apply (parse_section_ok (λ i, inventory_valid i = true)) in H; [|reflexivity|exact inventory_of_valid]; unfold inventory_valid in H
  end.
  bool_norm. all_true.
Qed.

(** ** Theorems *)

Lemma spec_as_ok {A} kind (parse : object → res A) r s : spec_as kind parse r = Ok s → r_kind r = kind ∧ parse (r_spec r) = Ok s.
Proof using. unfold spec_as. intros H. inv_ok. by bool_norm. Qed.

(** C21. Every typed accessor returns only specifications that satisfy all the
    constraints of their model, of nested models and of list elements, for any
    conversions of scalars and in either spelling of the keys. *)
Theorem specs_well_typed py_float r :
  (∀ s, supply_network_spec r = Ok s → SupplyNetworkSpec_valid s = true) ∧
  (∀ s, dependency_trust_spec r = Ok s → DependencyTrustSpec_valid s = true) ∧
  (∀ s, continuity_policy_spec r = Ok s → ContinuityPolicySpec_valid s = true) ∧
  (∀ s, scenario_spec r = Ok s → ScenarioSpec_valid s = true) ∧
  (∀ s, assurance_policy_spec r = Ok s → AssurancePolicySpec_valid s = true) ∧
  (∀ s, route_substitution_spec py_float r = Ok s → RouteSubstitutionSpec_valid s = true).
Proof using.
  split_and!; intros s [_ H]%spec_as_ok.
  - by eapply parse_SupplyNetworkSpec_valid.
  - by eapply parse_DependencyTrustSpec_valid.
  - by eapply parse_ContinuityPolicySpec_valid.
  - by eapply parse_ScenarioSpec_valid.
  - by eapply assurance_valid.
  - by eapply substitution_valid.
Qed.

(** [check_spec] succeeds exactly when the accessor of the kind does. *)
Lemma no_errors py_float str_exn r : validate_resource py_float str_exn r = [] ↔
  r_api_version r = "continuity.io/v1" ∧ check_spec py_float r = Ok tt.
Proof using.
  unfold validate_resource. destruct (str_eqb _ _) eqn:E.
  - apply str_eqb_true in E. cbn [app]. destruct (check_spec py_float r) as [[]|]; naive_solver.
  - split; [done|]. intros [H _]. rewrite (proj2 (str_eqb_true _ _) H) in E. done.
Qed.

(** A resource that validates without errors and declares an assurance
    policy can always be evaluated: for every observed state without negative
    numbers the assurance engine returns a scorecard that lists exactly the
    requirements of the parsed policy the state misses. *)
Theorem validated_policy_evaluates py_float str_exn r state name id clock :
  validate_resource py_float str_exn r = [] → r_kind r = RK_ASSURANCE_POLICY → state_sane state = true →
  ∃ p c, assurance_policy_spec r = Ok p ∧ evaluate_assurance p state name id clock = Ok c ∧
    as_failed_dimensions c = fst <$> List.filter (λ q, negb q.2) (requirements p state) ∧
    (as_overall_compliant c = true ↔ as_failed_dimensions c = []).
Proof using.
  intros [_ Hc]%no_errors Hk Hs. unfold check_spec in Hc. rewrite Hk in Hc. apply bind_ok in Hc as (p & Hp & _).
  pose proof (proj2 (spec_as_ok _ _ _ _ Hp)) as Hv. apply assurance_valid in Hv.
  destruct (evaluate_ok p state Hv Hs name id clock) as (c & Hcard & Hf & Ho & _). by exists p, c.
Qed.

(** Loading does not look into the specification. *)
Lemma load_ignores_spec m r spec : parse_Resource m = Ok r →
  parse_Resource (<["spec" := JObj spec]> m) = Ok {| r_api_version := r_api_version r; r_kind := r_kind r; r_metadata := r_metadata r; r_spec := spec |}.
Proof using.
  unfold parse_Resource, field, required. rewrite lookup_insert_eq, !lookup_insert_ne by done. intros H.
  apply bind_ok in H as (a & Ha & H). apply bind_ok in H as (k & Hk & H). apply bind_ok in H as (md & Hm & H).
  apply bind_ok in H as (sp & Hsp & H). injection H as <-. rewrite Ha. cbn [mbind res_bind]. rewrite Hk. cbn [mbind res_bind].
  rewrite Hm. done.
Qed.

(** A list of documents loads to the resources of its objects, in order. *)
Lemma load_resources_app d1 d2 : load_resources (d1 ++ d2) = (r1 ← load_resources d1; foldM load_step r1 d2).
Proof using. apply foldM_app. Qed.
End dsl.

(** ** A concrete resource *)

Definition strict_int (v : json) : res Z := match v with JNum z => Ok z | _ => Raise (ValidationError "int") end.
Definition strict_float (v : json) : res float := match v with JFloat x => Ok x | JNum z => Ok (f_of_Z z) | _ => Raise (ValidationError "float") end.
Definition strict_bool (v : json) : res bool := match v with JBool b => Ok b | _ => Raise (ValidationError "bool") end.
Definition strict_str (v : json) : res string := match v with JStr s => Ok s | _ => Raise (ValidationError "str") end.
Definition no_datetime (v : json) : res datetime := Raise (ValidationError "datetime").

Definition policy_resource : Resource :=
  {| r_api_version := "continuity.io/v1"; r_kind := RK_ASSURANCE_POLICY;
     r_metadata := {| md_name := "p"; md_namespace := "default"; md_labels := ∅; md_annotations := ∅; md_owner := None;
                      md_created_at := None |};
     r_spec := {["tolerate" := JObj (<["corridorLoss" := JNum 2]> {["port_loss" := JNum 0]})]} |}.

Lemma specs_well_typed_witness : ∃ s, assurance_policy_spec strict_int strict_float strict_bool policy_resource = Ok s ∧
  AssurancePolicySpec_valid s = true ∧ at_corridor_loss (ap_tolerate s) = 2 ∧ at_port_loss (ap_tolerate s) = 0.
Proof.
  eexists. split; [vm_compute; reflexivity|]. split; [|split; reflexivity].
  apply (specs_well_typed strict_int strict_float strict_bool strict_str strict_float policy_resource). vm_compute. reflexivity.
Defined.

Lemma validated_policy_evaluates_witness : ∃ p c,
  assurance_policy_spec strict_int strict_float strict_bool policy_resource = Ok p ∧
  evaluate_assurance p (example_state 1 true) "n" "id" {| dt_us := 0; dt_aware := true |} = Ok c.
Proof.
  destruct (validated_policy_evaluates strict_int strict_float strict_bool strict_str strict_float (λ _, "") policy_resource
    (example_state 1 true) "n" "id" {| dt_us := 0; dt_aware := true |}) as (p & c & Hp & Hc & _);
    [vm_compute; reflexivity|reflexivity|vm_compute; reflexivity|].
  exists p, c. split; [exact Hp|exact Hc].
Defined.
