(* ===== verification/Interop.v ===== *)
(** * interoperability.py: CloudEvents and CAP alerts

    An XML document is the tree [ElementTree.fromstring] gives; that parser and
    the parser of times are arguments. *)

From Stdlib Require Import ZArith Ascii.
From S2P Require Import Prelude Post PyFormat Domain State.

Open Scope Z_scope.

(** ** CloudEvents *)

Record ContinuityCloudEvent := {
  ce_id : string;
  ce_type : string;
  ce_source : string;
  ce_subject : option string;
  ce_time : datetime;
  ce_datacontenttype : string;
  ce_data : object;
  ce_extra : object
}.

(** [Field(min_length=lo, max_length=hi)] *)
Definition bounded (lo hi : Z) (s : string) : bool := (lo <=? str_len s) && (str_len s <=? hi).
Definition bounded_option (hi : Z) (s : option string) : bool := match s with Some s => bounded 0 hi s | None => true end.

Definition new_ContinuityCloudEvent (e : ContinuityCloudEvent) : res ContinuityCloudEvent :=
  _ ← require (bounded 1 256 (ce_id e)) "id";
  _ ← require (bounded 1 256 (ce_type e)) "type";
  _ ← require (bounded 1 512 (ce_source e)) "source";
  _ ← require (bounded_option 512 (ce_subject e)) "subject";
  _ ← require (bounded 0 128 (ce_datacontenttype e)) "datacontenttype";
  Ok e.

Definition SUPPORTED_CLOUD_EVENT_TYPES : list string := ["com.continuityos.operator.observation.v1"].

(** ** XML *)

Inductive element := Element (tag : string) (text : option string) (children : list element).

(** The outcome of [ElementTree.fromstring]. *)
Inductive parsed := Root (root : element) | ParseError | ParserRaises (e : exn).

(** [element.iter()]: the element and its descendants in document order. *)
Fixpoint iter (e : element) : list element :=
  match e with Element _ _ children => e :: concat (map iter children) end.

(** [tag.rsplit("}", 1)[-1]] *)
Fixpoint after_brace (s : string) : option string :=
  match s with
  | EmptyString => None
  | String c s' => match after_brace s' with
                   | Some t => Some t
                   | None => if Ascii.eqb c (ascii_of_N 125) then Some s' else None
                   end
  end.

Definition local_name (e : element) : string := match e with Element tag _ _ => default tag (after_brace tag) end.
Definition text_of (e : element) : string := match e with Element _ text _ => default "" text end.

(** The inner function [text]: the stripped text of the first element of that
    name, if there is any. *)
Definition text (name : string) (parent : element) : option string :=
  match List.find (λ e, str_eqb (local_name e) name) (iter parent) with
  | Some e => let value := str_strip (text_of e) in if str_empty value then None else Some value
  | None => None
  end.

Definition contains (needle s : string) : bool := match String.index 0 needle s with Some _ => true | None => false end.

(** ** CAP alerts *)

Record CAPAlert := {
  ca_identifier : string;
  ca_sender : string;
  ca_sent : datetime;
  ca_status : string;
  ca_message_type : string;
  ca_scope : string;
  ca_language : option string;
  ca_category : option string;
  ca_event : option string;
  ca_headline : option string;
  ca_description : option string;
  ca_area_description : option string;
  ca_polygon : option string
}.

Definition CAPAlert_bounds (a : CAPAlert) : bool :=
  bounded 1 256 (ca_identifier a) && bounded 1 256 (ca_sender a) && bounded 1 64 (ca_status a)
  && bounded 1 64 (ca_message_type a) && bounded 1 64 (ca_scope a) && bounded_option 32 (ca_language a)
  && bounded_option 64 (ca_category a) && bounded_option 256 (ca_event a) && bounded_option 512 (ca_headline a)
  && bounded_option 4096 (ca_description a) && bounded_option 1024 (ca_area_description a)
  && bounded_option 4096 (ca_polygon a).

Definition new_CAPAlert (a : CAPAlert) : res CAPAlert := _ ← require (CAPAlert_bounds a) "CAPAlert"; Ok a.

(** [s.replace("Z", "+00:00")] *)
Fixpoint replace_Z (s : string) : string :=
  match s with
  | EmptyString => EmptyString
  | String c s => if Ascii.eqb c (ascii_of_N 90) then "+00:00" +:+ replace_Z s else String c (replace_Z s)
  end.

Section cap.
Context (fromstring : string → parsed) (fromisoformat : string → res datetime).

Definition parse_cap_alert (payload : string) : res CAPAlert :=
  _ ← raise_if (2000000 <? Z.of_nat (String.length payload)) (ValueError "CAP payload exceeds 2 MiB");
  let upper_payload := str_upper payload in
  _ ← raise_if (contains "<!DOCTYPE" upper_payload || contains "<!ENTITY" upper_payload)
        (ValueError "CAP payload cannot contain DOCTYPE or ENTITY declarations");
  root ← match fromstring payload with
         | Root e => Ok e
         | ParseError => Raise (ValueError "invalid CAP XML")
         | ParserRaises e => Raise e
         end;
  info ← match List.find (λ e, str_eqb (local_name e) "info") (iter root) with
         | Some e => Ok e
         | None => Raise (ValueError "CAP alert has no info block")
         end;
  match text "identifier" root, text "sender" root, text "sent" root, text "status" root, text "msgType" root,
        text "scope" root with
  | Some identifier, Some sender, Some sent, Some status, Some message_type, Some scope =>
      sent_at ← match fromisoformat (replace_Z sent) with
                | Raise (ValueError _) => Raise (ValueError "CAP sent timestamp is invalid")
                | r => r
                end;
      new_CAPAlert
        {| ca_identifier := identifier; ca_sender := sender; ca_sent := sent_at; ca_status := status;
           ca_message_type := message_type; ca_scope := scope; ca_language := text "language" info;
           ca_category := text "category" info; ca_event := text "event" info; ca_headline := text "headline" info;
           ca_description := text "description" info; ca_area_description := text "areaDesc" info;
           ca_polygon := text "polygon" info |}
  | _, _, _, _, _, _ => Raise (ValueError "CAP alert is missing required metadata")
  end.

(** ** What a parsed alert satisfies *)

Definition value_error (e : exn) : Prop := (∃ m, e = ValueError m) ∨ ∃ m, e = ValidationError m.

Lemma value_error_intro m : value_error (ValueError m).
Proof using. left. by eexists. Qed.

Lemma text_some name parent s : text name parent = Some s →
  s ≠ "" ∧ ∃ e, e ∈ iter parent ∧ local_name e = name ∧ s = str_strip (text_of e).
Proof using.
  unfold text. destruct (List.find _ _) as [e|] eqn:E; [|done]. apply List.find_some in E as [Hin Hn].
  destruct (str_empty _) eqn:Es; [done|]. intros [= <-]. split; [by intros H; rewrite H in Es|].
  exists e. split_and!; [by apply list_elem_of_In|by apply str_eqb_true|done].
Qed.

(** CAP alerts.  When the XML and time parsers fail only with their
    documented errors, [parse_cap_alert] gives an alert within all length bounds,
    each required field of which is the text of an element of the document, from a
    payload of at most 2000000 bytes without a DOCTYPE or ENTITY declaration; or it
    raises a [ValueError], never another exception. *)
Theorem parse_cap_alert_safe payload :
  (∀ e, fromstring payload = ParserRaises e → value_error e) →
  (∀ s e, fromisoformat s = Raise e → value_error e) →
  match parse_cap_alert payload with
  | Ok a => CAPAlert_bounds a = true ∧ Z.of_nat (String.length payload) <= 2000000 ∧
      contains "<!DOCTYPE" (str_upper payload) = false ∧ contains "<!ENTITY" (str_upper payload) = false ∧
      ∃ root, fromstring payload = Root root ∧
        ∀ name field, (name, field) ∈ [("identifier", ca_identifier a); ("sender", ca_sender a); ("status", ca_status a);
                                       ("msgType", ca_message_type a); ("scope", ca_scope a)] →
        ∃ e, e ∈ iter root ∧ local_name e = name ∧ field = str_strip (text_of e) ∧ field ≠ ""
  | Raise e => value_error e
  end.
Proof using.
  intros Hp Ht. unfold parse_cap_alert.
  destruct (2000000 <? _) eqn:El; [apply value_error_intro|]. cbn [raise_if mbind res_bind].
  destruct (contains "<!DOCTYPE" _) eqn:Ed; [apply value_error_intro|].
  destruct (contains "<!ENTITY" _) eqn:Ee; [apply value_error_intro|]. cbn [orb raise_if mbind res_bind].
  destruct (fromstring payload) as [root| |e] eqn:Er; [|apply value_error_intro|by apply Hp]. cbn [mbind res_bind].
  destruct (List.find _ _) as [info|]; [|apply value_error_intro]. cbn [mbind res_bind].
  destruct (text "identifier" root) as [identifier|] eqn:E1; [|apply value_error_intro].
  destruct (text "sender" root) as [sender|] eqn:E2; [|apply value_error_intro].
  destruct (text "sent" root) as [sent|] eqn:E3; [|apply value_error_intro].
  destruct (text "status" root) as [status|] eqn:E4; [|apply value_error_intro].
  destruct (text "msgType" root) as [message_type|] eqn:E5; [|apply value_error_intro].
  destruct (text "scope" root) as [scope|] eqn:E6; [|apply value_error_intro].
  destruct (fromisoformat (replace_Z sent)) as [sent_at|e] eqn:E7.
  - cbn [mbind res_bind]. unfold new_CAPAlert, require.
    match goal with |- context [CAPAlert_bounds ?a] => set (alert := a) end.
    destruct (CAPAlert_bounds alert) eqn:Eb; [|right; by eexists]. cbn [mbind res_bind].
    split_and!; [done|apply Z.ltb_ge in El; exact El|done|done|]. exists root. split; [done|]. intros name field Hin.
    repeat (apply elem_of_cons in Hin as [[= -> ->]|Hin]); [..|by apply elem_of_nil in Hin]; cbn.
    + destruct (text_some _ _ _ E1) as (? & e & ? & ? & ?). by exists e.
    + destruct (text_some _ _ _ E2) as (? & e & ? & ? & ?). by exists e.
    + destruct (text_some _ _ _ E4) as (? & e & ? & ? & ?). by exists e.
    + destruct (text_some _ _ _ E5) as (? & e & ? & ? & ?). by exists e.
    + destruct (text_some _ _ _ E6) as (? & e & ? & ? & ?). by exists e.
  - specialize (Ht _ _ E7). destruct e; try exact Ht. apply value_error_intro.
Qed.
End cap.

(** ** Concrete inputs *)

Definition leaf (tag value : string) : element := Element ("{urn:oasis:names:tc:emergency:cap:1.2}" +:+ tag) (Some value) [].

Definition example_alert : element :=
  Element "alert" None [leaf "identifier" " A-1 "; leaf "sender" "eccc"; leaf "sent" "2026-01-01T00:00:00Z"; leaf "status" "Actual";
    leaf "msgType" "Alert"; leaf "scope" "Public"; Element "info" None [leaf "event" "Storm"]].

Definition example_sent (s : string) : res datetime :=
  if str_eqb s "2026-01-01T00:00:00+00:00" then Ok {| dt_us := 1767225600000000; dt_aware := true |} else Raise (ValueError s).

Lemma parse_cap_alert_safe_witness :
  ∃ a, parse_cap_alert (λ _, Root example_alert) example_sent "<alert/>" = Ok a ∧ CAPAlert_bounds a = true ∧ ca_identifier a = "A-1".
Proof.
  assert (∀ s e, example_sent s = Raise e → value_error e) as Ht.
  { intros s e. unfold example_sent. destruct (str_eqb _ _); intros H; inversion H. apply value_error_intro. }
  assert (∀ e, Root example_alert = ParserRaises e → value_error e) as Hp by (intros e H; discriminate H).
  pose proof (parse_cap_alert_safe (λ _, Root example_alert) example_sent "<alert/>" Hp Ht) as H.
  destruct (parse_cap_alert _ _ _) as [a|e] eqn:E; [|vm_compute in E; discriminate E].
  exists a. split; [reflexivity|]. split; [exact (proj1 H)|]. vm_compute in E. injection E as <-. reflexivity.
Defined.

(** A required field is looked up anywhere in the document: a sender inside the
    info block is taken for that of the alert. *)
Example sender_of_info :
  text "sender" (Element "alert" None [Element "info" None [Element "source" None [leaf "sender" "anyone"]]]) = Some "anyone".
Proof. reflexivity. Qed.
