(* ===== verification/Telemetry.v ===== *)
(** * telemetry.py: drone kinematics, operator signatures and observations

    Binary telemetry is a list of bytes.  [hmac_sha256] (secret and message to
    hexadecimal digest), [sha256], the parsers of times and of decimal numbers
    ([fromisoformat], [float_of_str]) and the text of containers ([repr]) are
    arguments.  The theorem relates the observations made here to the source
    policy of [Sources]. *)

From Stdlib Require Import ZArith QArith Ascii.
From S2P Require Import Prelude PyFloat PyFormat Domain Sources Embedded State Interop.

Open Scope Z_scope.

(** ** Binary kinematics *)

Record DroneKinematics := {
  dk_drone_id : string;
  dk_latitude : float;
  dk_longitude : float;
  dk_altitude_m : float;
  dk_velocity_mps : float;
  dk_heading_deg : float;
  dk_signal_strength_dbm : float;
  dk_timestamp : datetime
}.

Definition new_DroneKinematics (k : DroneKinematics) : res DroneKinematics :=
  _ ← require ((fneg (lit 90) <=? dk_latitude k)%F && (dk_latitude k <=? lit 90)%F) "latitude";
  _ ← require ((fneg (lit 180) <=? dk_longitude k)%F && (dk_longitude k <=? lit 180)%F) "longitude";
  _ ← require ((f0 <=? dk_heading_deg k)%F && (dk_heading_deg k <=? lit 360)%F) "heading_deg";
  Ok k.

(** A binary32 number from its bits; every such number is a binary64 number. *)
Definition float32 (bits : Z) : float :=
  let negative := 1 <=? bits / 2 ^ 31 in
  let e := bits / 2 ^ 23 mod 256 in
  let m := bits mod 2 ^ 23 in
  if e =? 255 then (if m =? 0 then Inf negative else NaN)
  else
    let x := fl (if e =? 0 then inject_Z m * pow2 (-149) else inject_Z (2 ^ 23 + m) * pow2 (e - 150)) in
    if negative then fneg x else x.

Example float32_hundred : float32 1120403456 = lit 100 ∧ float32 3212836864 = lit (-1).
Proof. vm_compute. done. Qed.

(** Bytes that continue a UTF-8 sequence, and well-formed UTF-8 (no overlong
    forms, surrogates or code points beyond U+10FFFF). *)
Definition continues (b : Z) : bool := (128 <=? b) && (b <=? 191).

Fixpoint utf8_valid (fuel : nat) (bs : list Z) : bool :=
  match fuel, bs with
  | _, [] => true
  | O, _ => false
  | S fuel, a :: bs =>
      if a <=? 127 then utf8_valid fuel bs
      else match bs with
           | b :: bs =>
               if (194 <=? a) && (a <=? 223) then continues b && utf8_valid fuel bs
               else match bs with
                    | c :: bs =>
                        if (224 <=? a) && (a <=? 239) then
                          (if a =? 224 then 160 <=? b else true) && (if a =? 237 then b <=? 159 else true)
                          && continues b && continues c && utf8_valid fuel bs
                        else match bs with
                             | d :: bs =>
                                 (240 <=? a) && (a <=? 244) && (if a =? 240 then 144 <=? b else true)
                                 && (if a =? 244 then b <=? 143 else true)
                                 && continues b && continues c && continues d && utf8_valid fuel bs
                             | [] => false
                             end
                    | [] => false
                    end
           | [] => false
           end
  end.

Definition string_of_bytes (bs : list Z) : string := foldr (λ b s, String (ascii_of_N (Z.to_N b)) s) EmptyString bs.

Definition decode_utf8 (bs : list Z) : res string :=
  if utf8_valid (length bs) bs then Ok (string_of_bytes bs) else Raise (ValueError "'utf-8' codec can't decode").

(** [s.strip(NUL)] on the bytes. *)
Definition drop_nul : list Z → list Z :=
  fix go bs := match bs with b :: bs' => if b =? 0 then go bs' else bs | [] => [] end.
Definition strip_nul (bs : list Z) : list Z := reverse (drop_nul (reverse (drop_nul bs))).

(** The n-th four-byte field after the eight bytes of the identifier. *)
Definition word_at (n : nat) (payload : list Z) : Z := le_value (take 4 (drop (8 + 4 * n) payload)).

Definition parse_binary_kinematics (payload : list Z) : res DroneKinematics :=
  _ ← raise_if (length payload <? 36)%nat (ValueError ("Payload too short for kinematics: " +:+ str_nat (length payload) +:+ " bytes"));
  let frame := take 36 payload in
  _ ← decode_utf8 (take 8 frame);
  new_DroneKinematics
    {| dk_drone_id := string_of_bytes (strip_nul (take 8 frame)); dk_latitude := float32 (word_at 0 frame);
       dk_longitude := float32 (word_at 1 frame); dk_altitude_m := float32 (word_at 2 frame);
       dk_velocity_mps := float32 (word_at 3 frame); dk_heading_deg := float32 (word_at 4 frame);
       dk_signal_strength_dbm := float32 (word_at 5 frame);
       dk_timestamp := {| dt_us := word_at 6 frame * 1000000; dt_aware := true |} |}.

(** ** Anomalies *)

Inductive ThreatIndicatorType := GPS_SPOOFING | RF_JAMMING | UNAUTHORIZED_DRONE | KINEMATIC_ANOMALY.

Record ThreatIndicator := {
  ti_indicator_type : ThreatIndicatorType;
  ti_confidence : float;
  ti_latitude : option float;
  ti_longitude : option float;
  ti_description : option string;
  ti_detected_at : datetime
}.

Definition new_ThreatIndicator (t : ThreatIndicator) : res ThreatIndicator :=
  _ ← require (is_score (ti_confidence t)) "confidence"; Ok t.

(** The two loops, each over the whole stream. *)
Definition jamming_indicator (k : DroneKinematics) : ThreatIndicator :=
  {| ti_indicator_type := RF_JAMMING; ti_confidence := lit 0.85; ti_latitude := Some (dk_latitude k);
     ti_longitude := Some (dk_longitude k);
     ti_description := Some ("Critical signal drop to " +:+ str_float (dk_signal_strength_dbm k) +:+ " dBm");
     ti_detected_at := dk_timestamp k |}.

Definition jamming_step (threats : list ThreatIndicator) (k : DroneKinematics) : res (list ThreatIndicator) :=
  if (dk_signal_strength_dbm k <? fneg (lit 100))%F then
    t ← new_ThreatIndicator (jamming_indicator k); Ok (threats ++ [t])
  else Ok threats.

Definition spoofing_indicator (k : DroneKinematics) : ThreatIndicator :=
  {| ti_indicator_type := GPS_SPOOFING; ti_confidence := lit 0.99; ti_latitude := Some (dk_latitude k);
     ti_longitude := Some (dk_longitude k);
     ti_description := Some ("Unrealistic velocity detected: " +:+ str_float (dk_velocity_mps k) +:+ " m/s");
     ti_detected_at := dk_timestamp k |}.

Definition spoofing_step (threats : list ThreatIndicator) (k : DroneKinematics) : res (list ThreatIndicator) :=
  if (lit 300 <? dk_velocity_mps k)%F then
    t ← new_ThreatIndicator (spoofing_indicator k); Ok (threats ++ [t])
  else Ok threats.

Definition detect_anomalies (kinematics_stream : list DroneKinematics) : res (list ThreatIndicator) :=
  match kinematics_stream with
  | [] => Ok []
  | _ => threats ← foldM jamming_step [] kinematics_stream; foldM spoofing_step threats kinematics_stream
  end.

(** ** Operator payloads *)

(** [hmac_sha256 secret message] and [sha256 body] are hexadecimal digests;
    [float_of_str] is [float(s)], [fromisoformat] the parser of times and [repr]
    the text of a JSON value that is not a string. *)
Section operator.
Context (hmac_sha256 : string → string → string) (sha256 : string → string)
  (float_of_str : string → res float) (fromisoformat : string → res datetime) (repr : json → string).

Fixpoint is_ascii (s : string) : bool :=
  match s with EmptyString => true | String c s => (N_of_ascii c <? 128)%N && is_ascii s end.

(** [s.removeprefix(p)] *)
Definition removeprefix (p s : string) : string :=
  if String.prefix p s then String.substring (String.length p) (String.length s - String.length p) s else s.

(** [hmac.compare_digest] on two strings *)
Definition compare_digest (a b : string) : res bool :=
  if is_ascii a && is_ascii b then Ok (str_eqb a b)
  else Raise (TypeError "comparing strings with non-ASCII characters is not supported").

Definition verify_operator_signature (now : Z) (body timestamp signature secret : string) (maximum_skew_seconds : Z) : res unit :=
  timestamp_value ← match int_of_str timestamp with
                    | Raise (ValueError _) => Raise (TelemetryAuthenticationError "invalid timestamp")
                    | r => r
                    end;
  _ ← raise_if (maximum_skew_seconds <? Z.abs (now - timestamp_value))
        (TelemetryAuthenticationError "timestamp outside allowed skew");
  let signed := timestamp +:+ "." +:+ body in
  let expected := hmac_sha256 secret signed in
  let supplied := removeprefix "sha256=" signature in
  same ← compare_digest expected supplied;
  raise_if (negb same) (TelemetryAuthenticationError "signature mismatch").

(** [str(v)], [float(v)] and [m[key]] on JSON values *)
Definition py_str (v : json) : string := match v with JStr s => s | _ => repr v end.

Definition py_float (v : json) : res float :=
  match v with
  | JNum z => let x := f_of_Z z in if isfinite x then Ok x else Raise OverflowError
  | JFloat x => Ok x
  | JBool b => Ok (if b then f1 else f0)
  | JStr s => float_of_str s
  | _ => Raise (TypeError "float() argument must be a string or a real number")
  end.

Definition item (m : object) (key : string) : res json :=
  match m !! key with Some v => Ok v | None => Raise (KeyError key) end.

(** [MetricName(s)]: the member of that value *)
Definition metric_members : list MetricName :=
  [M_SEA_ICE_CONCENTRATION; M_SEA_ICE_EXTENT_ANOMALY; M_EARTH_OBSERVATION_COVERAGE; M_WIND_SEVERITY; M_WAVE_SEVERITY;
   M_PORT_GEOMETRY; M_PORT_CAPACITY; M_PORT_AVAILABILITY; M_AIS_TRAFFIC_INDEX; M_TRADE_DEPENDENCY;
   M_SATELLITE_GEOMETRY_DENSITY; M_SATCOM_AVAILABILITY; M_CYBER_CONTROL_HEALTH; M_DATA_INTEGRITY;
   M_INSURANCE_AVAILABILITY; M_GEOPOLITICAL_PRESSURE; M_ESCORT_CAPACITY; M_INVENTORY_DAYS; M_WEATHER_ALERT_ACTIVITY;
   M_DISASTER_EVENT_ACTIVITY; M_CASUALTY_COUNT; M_INJURED_COUNT; M_EVACUATION_COUNT; M_UTILITY_IMPACT_COUNT;
   M_WATER_LEVEL; M_UAV_LINK_MARGIN; M_UAV_SWARM_COHESION; M_STARLINK_LATENCY_MS; M_STARLINK_DOWNLINK_MBPS;
   M_STARLINK_OBSTRUCTION_RATE; M_CUAS_THREAT_DENSITY; M_CUAS_JAMMING_ACTIVE; M_RAIL_NETWORK_FLUIDITY;
   M_MINERAL_RESERVE_DAYS; M_REFINERY_CAPACITY_UTILIZATION; M_BORDER_CROSSING_DELAY_HOURS; M_DEMURRAGE_RISK_INDEX;
   M_LOCK_OPERATIONAL_STATUS; M_PERMAFROST_THAW_DEPTH_CM; M_WILDFIRE_INDEX_FWI; M_DARK_VESSEL_PROXIMITY_KM;
   M_SAR_SATELLITE_EXPOSURE_INDEX; M_ACOUSTIC_ANOMALY_LEVEL; M_SEABED_CABLE_INTEGRITY; M_EMCON_COMPLIANCE_SCORE].

Definition metric_of (s : string) : res MetricName :=
  match List.find (λ m, str_eqb (MetricName_value m) s) metric_members with
  | Some m => Ok m
  | None => Raise (ValueError (str_repr s +:+ " is not a valid MetricName"))
  end.

Definition assertion_map (m : MetricName) : option AssertionClass :=
  match m with
  | M_PORT_CAPACITY => Some AC_LIVE_CAPACITY
  | M_PORT_AVAILABILITY => Some AC_LIVE_AVAILABILITY
  | M_SATCOM_AVAILABILITY => Some AC_LIVE_AVAILABILITY
  | M_CYBER_CONTROL_HEALTH => Some AC_CYBER_HEALTH
  | M_DATA_INTEGRITY => Some AC_CYBER_HEALTH
  | M_INSURANCE_AVAILABILITY => Some AC_INSURANCE_ACCESS
  | M_ESCORT_CAPACITY => Some AC_LIVE_CAPACITY
  | M_INVENTORY_DAYS => Some AC_LIVE_CAPACITY
  | _ => None
  end.

(** A string with something other than white space. *)
Definition named (v : json) (what : string) : res string :=
  match v with
  | JStr s => if str_empty (str_strip s) then Raise (ValueError ("operator telemetry requires " +:+ what)) else Ok s
  | _ => Raise (ValueError ("operator telemetry requires " +:+ what))
  end.

(** [isinstance(sequence, int)]: Python's booleans are integers. *)
Definition sequence_of (v : json) : res pyval :=
  match v with
  | JNum z => if z <? 0 then Raise (ValueError "operator telemetry requires a non-negative integer sequence") else Ok (VInt z)
  | JBool b => Ok (VBool b)
  | _ => Raise (ValueError "operator telemetry requires a non-negative integer sequence")
  end.

(** [^[a-f0-9]{64}$] *)
Definition is_digest (s : string) : bool :=
  (String.length s =? 64)%nat
  && (fix all s := match s with
                   | EmptyString => true
                   | String c s => let n := N_of_ascii c in
                       (((48 <=? n) && (n <=? 57) || (97 <=? n) && (n <=? 102))%N && all s)%bool
                   end) s.

Definition new_Provenance (p : Provenance) : res Provenance :=
  _ ← require (is_digest (prov_content_sha256 p)) "content_sha256"; Ok p.

(** [now] and [id] are what [datetime.now] and [uuid4] give. *)
Definition normalized_operator_observation (now : datetime) (id : string) (payload : object) (body : string) : res Observation :=
  tenant_id ← named (dict_get payload "tenant_id") "tenant_id";
  asset_id ← named (dict_get payload "asset_id") "asset_id";
  sequence ← sequence_of (dict_get payload "sequence");
  metric ← item payload "metric" ≫= λ v, metric_of (py_str v);
  assertion_class ← match assertion_map metric with
                    | Some c => Ok c
                    | None => Raise (ValueError ("operator telemetry metric not accepted: " +:+ MetricName_value metric))
                    end;
  observed_at ← item payload "observed_at" ≫= λ v, fromisoformat (replace_Z (py_str v));
  let observed_at := if dt_aware observed_at then observed_at else {| dt_us := dt_us observed_at; dt_aware := true |} in
  value ← item payload "value" ≫= py_float;
  unit ← py_str <$> item payload "unit";
  confidence ← py_float (default (JFloat (lit 0.95)) (payload !! "confidence"));
  provenance ← new_Provenance
    {| prov_uri := "operator://" +:+ tenant_id +:+ "/" +:+ asset_id; prov_retrieved_at := now;
       prov_content_sha256 := sha256 body; prov_snapshot_id := None; prov_licence := Some "customer-controlled" |};
  new_Observation
    {| obs_observation_id := id; obs_source_id := "operator-telemetry"; obs_source_trust := ST_AUTHENTICATED_OPERATOR;
       obs_assertion_class := assertion_class; obs_metric := metric; obs_value := value; obs_unit := unit;
       obs_observed_at := observed_at; obs_valid_until := None; obs_location := None; obs_confidence := confidence;
       obs_provenance := provenance;
       obs_metadata := [("tenant_id", VStr tenant_id); ("asset_id", VStr asset_id); ("sequence", sequence)] |}.

End operator.

(** ** Detection *)

Lemma threat_steps step (test : DroneKinematics → bool) (mk : DroneKinematics → ThreatIndicator) l acc :
  (∀ acc k, step acc k = if test k then Ok (acc ++ [mk k]) else Ok acc) →
  foldM step acc l = Ok (acc ++ (mk <$> List.filter test l)).
Proof.
  intros H. revert acc. induction l as [|k l IH]; intros acc; cbn [foldM List.filter fmap list_fmap];
    [by rewrite app_nil_r|].
  rewrite H. destruct (test k); cbn [mbind res_bind fmap list_fmap]; rewrite IH; [|done]. by rewrite <-app_assoc.
Qed.

(** Detection never fails: it gives an indicator for every weak signal, then one
    for every impossible speed, each group in the order of the stream. *)
Lemma detect_anomalies_exact l :
  detect_anomalies l = Ok ((jamming_indicator <$> List.filter (λ k, dk_signal_strength_dbm k <? fneg (lit 100))%F l)
    ++ (spoofing_indicator <$> List.filter (λ k, lit 300 <? dk_velocity_mps k)%F l)).
Proof.
  unfold detect_anomalies. destruct l as [|k l]; [done|]. set (ks := k :: l). clearbody ks.
  rewrite (threat_steps jamming_step (λ k, dk_signal_strength_dbm k <? fneg (lit 100))%F jamming_indicator) by done.
  cbn [mbind res_bind app].
  by rewrite (threat_steps spoofing_step (λ k, lit 300 <? dk_velocity_mps k)%F spoofing_indicator) by done.
Qed.

(** ** Signatures and observations *)

Section operator_proofs.
Context (hmac_sha256 : string → string → string) (sha256 : string → string)
  (float_of_str : string → res float) (fromisoformat : string → res datetime) (repr : json → string).

Lemma int_of_str_error s e : int_of_str s = Raise e → ∃ m, e = ValueError m.
Proof using.
  unfold int_of_str. destruct (match str_strip s with EmptyString => _ | String _ _ => _ end) as [sign t].
  destruct (digits_value 0 false t); intros H; inversion H. by eexists.
Qed.

Lemma compare_digest_true a b : compare_digest a b = Ok true ↔ a = b ∧ is_ascii a = true.
Proof using.
  unfold compare_digest. destruct (is_ascii a && is_ascii b) eqn:E.
  - apply andb_true_iff in E as [Ha Hb]. split.
    + intros [= H]. split; [by apply str_eqb_true|done].
    + intros [-> _]. f_equal. by apply str_eqb_true.
  - split; [done|]. intros [-> H]. by rewrite H in E.
Qed.

(** Authentication.  A signature is accepted exactly when the time stamp
    is an integer within the allowed skew of the clock and the signature, after
    an optional [sha256=], is the HMAC of the time stamp, a dot and the body
    under the secret. *)
Theorem signature_exact now body timestamp signature secret skew :
  (∀ k m, is_ascii (hmac_sha256 k m) = true) →
  verify_operator_signature hmac_sha256 now body timestamp signature secret skew = Ok tt ↔
  ∃ t, int_of_str timestamp = Ok t ∧ Z.abs (now - t) <= skew ∧
    removeprefix "sha256=" signature = hmac_sha256 secret (timestamp +:+ "." +:+ body).
Proof using.
  intros Hh. unfold verify_operator_signature. split.
  - intros H. destruct (int_of_str timestamp) as [t|e] eqn:Et; cbn [mbind res_bind] in H.
    + inv_ok. exists t. split_and!; [done|lia|].
      lazymatch goal with H : compare_digest _ _ = Ok ?b |- _ => destruct b; [apply compare_digest_true in H as [H _]|] end;
        [done|by inv_ok].
    + by destruct (int_of_str_error _ _ Et) as [m ->].
  - intros (t & -> & Ht & Hs). cbn [mbind res_bind]. replace (skew <? Z.abs (now - t)) with false by lia.
    cbn [raise_if mbind res_bind]. rewrite Hs.
    assert (compare_digest (hmac_sha256 secret (timestamp +:+ "." +:+ body)) (hmac_sha256 secret (timestamp +:+ "." +:+ body))
      = Ok true) as -> by (by apply compare_digest_true). done.
Qed.

Lemma assertion_map_policy m c :
  assertion_map m = Some c →
  m ∈ live_metrics ∧ METRIC_ASSERTIONS m = Some [c] ∧
  c ∈ live_assertions.
Proof using.
  destruct m; intros [= <-]; (split_and!; [apply (bool_decide_unpack _); vm_compute; exact I|done|
    apply (bool_decide_unpack _); vm_compute; exact I]).
Qed.

(** What a normalised observation is made of. *)
Record normalized (now : datetime) (payload : object) (body : string) (o : Observation) : Prop := {
  nz_source : obs_source_id o = "operator-telemetry";
  nz_trust : obs_source_trust o = ST_AUTHENTICATED_OPERATOR;
  nz_map : assertion_map (obs_metric o) = Some (obs_assertion_class o);
  nz_digest : prov_content_sha256 (obs_provenance o) = sha256 body;
  nz_time : dt_aware (obs_observed_at o) = true;
  nz_finite : isfinite (obs_value o) = true;
  nz_confidence : in_unit (obs_confidence o) = true;
  nz_names : ∃ t a s, payload !! "tenant_id" = Some (JStr t) ∧ str_strip t ≠ "" ∧
    payload !! "asset_id" = Some (JStr a) ∧ str_strip a ≠ "" ∧
    sequence_of (dict_get payload "sequence") = Ok s ∧
    obs_metadata o = [("tenant_id", VStr t); ("asset_id", VStr a); ("sequence", s)]
}.

Lemma named_ok m key what s : named (dict_get m key) what = Ok s → m !! key = Some (JStr s) ∧ str_strip s ≠ "".
Proof using.
  unfold named, dict_get. destruct (m !! key) as [[]|]; cbn; try done. intros H.
  destruct (str_empty _) eqn:E; [done|]. injection H as ->. split; [done|]. intros E'. by rewrite E' in E.
Qed.

Lemma new_Observation_ok o o' : new_Observation o = Ok o' →
  o' = o ∧ dt_aware (obs_observed_at o) = true ∧ isfinite (obs_value o) = true ∧ in_unit (obs_confidence o) = true.
Proof using.
  unfold new_Observation. intros H. inv_ok.
  unfold validate_metric_value in *. inv_ok. unfold ensure_timezone in *.
  repeat match goal with H : (if ?b then _ else _) = Ok _ |- _ => destruct b eqn:?; try done end; inv_ok.
  all: split_and!; try done; by apply negb_false_iff.
Qed.

Lemma normalized_ok now id payload body o :
  normalized_operator_observation sha256 float_of_str fromisoformat repr now id payload body = Ok o →
  normalized now payload body o.
Proof using.
  unfold normalized_operator_observation. intros H. inv_ok.
  apply named_ok in H0 as [Ht Ht'], H2 as [Ha Ha'].
  apply new_Observation_ok in H11 as (-> & H11 & Hfin & Hconf).
  unfold new_Provenance in H9. inv_ok. destruct (assertion_map a2) as [c|] eqn:Em; [|done]. inv_ok.
  constructor; try done. exists a, a0, a1. by split_and!.
Qed.

Lemma operator_source : dget SOURCES "operator-telemetry" ≠ None ∧
  ∀ s, dget SOURCES "operator-telemetry" = Some s → sd_trust s = ST_AUTHENTICATED_OPERATOR ∧
    sd_allowed_assertions s = live_assertions.
Proof using. split; [done|]. intros s [= <-]. done. Qed.

Lemma normalized_policy now payload body o : normalized now payload body o → validate_observation_source o = Ok tt.
Proof using.
  intros [Hs Ht Hm _ _ _ _ _]. apply assertion_map_policy in Hm as (_ & Hm & Hl).
  unfold validate_observation_source, get_source. rewrite Hs. destruct operator_source as [Hn Hd].
  destruct (dget SOURCES "operator-telemetry") as [s|]; [|done]. destruct (Hd s eq_refl) as [Htr Hal].
  cbn [mbind res_bind]. rewrite Ht, Htr, Hal. unfold mem_assertion. rewrite (bool_decide_eq_true_2 _ Hl).
  rewrite Hm. cbn [negb raise_if mbind res_bind].
  rewrite (bool_decide_eq_true_2 (obs_assertion_class o ∈ [obs_assertion_class o])); [done|by apply list_elem_of_singleton].
Qed.

(** Operator payloads are normalised to observations that the source
    policy accepts: every observation that comes out has a live metric, is
    attributed to the authenticated operator, carries the digest of the body, an
    aware time and a finite value, names its tenant, asset and sequence number,
    and passes [validate_observation_source]; a payload cannot choose its source,
    trust or assertion class. *)
Theorem operator_observation_live now id payload body o :
  normalized_operator_observation sha256 float_of_str fromisoformat repr now id payload body = Ok o →
  validate_observation_source o = Ok tt ∧ obs_metric o ∈ live_metrics ∧
  obs_source_id o = "operator-telemetry" ∧ prov_content_sha256 (obs_provenance o) = sha256 body ∧
  dt_aware (obs_observed_at o) = true ∧ isfinite (obs_value o) = true ∧
  ∃ t a s, obs_metadata o = [("tenant_id", VStr t); ("asset_id", VStr a); ("sequence", s)] ∧
    str_strip t ≠ "" ∧ str_strip a ≠ "" ∧ payload !! "tenant_id" = Some (JStr t) ∧ payload !! "asset_id" = Some (JStr a).
Proof using.
  intros H%normalized_ok. pose proof (normalized_policy _ _ _ _ H) as Hp. destruct H as [Hs _ Hm Hd Ht Hf _ Hn].
  apply assertion_map_policy in Hm as [Hm _]. destruct Hn as (t & a & s & ? & ? & ? & ? & ? & ?).
  split_and!; try done. exists t, a, s. by split_and!.
Qed.

End operator_proofs.

(** ** Concrete inputs *)

Definition example_hmac (secret message : string) : string := secret +:+ message.
Definition example_sha (_ : string) : string := str_repeat 64 "a".
Definition example_float (s : string) : res float := Raise (ValueError s).
Definition example_time (s : string) : res datetime :=
  if str_eqb s "2026-01-01T00:00:00+00:00" then Ok {| dt_us := 1767225600000000; dt_aware := true |}
  else Raise (ValueError s).
Definition example_repr (_ : json) : string := "".

Definition example_payload : object :=
  <["tenant_id" := JStr "t"]> (<["asset_id" := JStr "buoy"]> (<["sequence" := JNum 7]>
  (<["metric" := JStr "port_capacity"]> (<["observed_at" := JStr "2026-01-01T00:00:00Z"]>
  (<["value" := JFloat (lit 0.5)]> {["unit" := JStr "ratio"]}))))).

Definition example_now : datetime := {| dt_us := 1767225660000000; dt_aware := true |}.

Lemma signature_exact_witness :
  verify_operator_signature (λ k m, if is_ascii (k +:+ m) then k +:+ m else "") 1000 "{}" "1100" "sha256=key1100.{}" "key" 300 = Ok tt.
Proof.
  apply (signature_exact (λ k m, if is_ascii (k +:+ m) then k +:+ m else "")).
  - intros k m. destruct (is_ascii (k +:+ m)) eqn:E; [exact E|reflexivity].
  - exists 1100. split; [reflexivity|]. split; [discriminate|]. vm_compute. reflexivity.
Defined.

Lemma operator_observation_live_witness :
  ∃ o, normalized_operator_observation example_sha example_float example_time example_repr example_now "id" example_payload "{}" = Ok o ∧
    validate_observation_source o = Ok tt.
Proof.
  destruct (normalized_operator_observation example_sha example_float example_time example_repr example_now "id" example_payload "{}")
    as [o|e] eqn:E; [|vm_compute in E; discriminate E].
  exists o. split; [reflexivity|].
  exact (proj1 (operator_observation_live example_sha example_float example_time example_repr example_now "id" example_payload "{}" o E)).
Defined.

(** A boolean is accepted as a sequence number. *)
Example boolean_sequence : sequence_of (JBool true) = Ok (VBool true).
Proof. reflexivity. Qed.

(** A signature with a character outside ASCII raises a [TypeError], and a null
    confidence another: neither is an error the endpoint turns into a response. *)
Example type_errors :
  verify_operator_signature example_hmac 1000 "{}" "1000" (String (ascii_of_N 195) "") "key" 300
    = Raise (TypeError "comparing strings with non-ASCII characters is not supported") ∧
  normalized_operator_observation example_sha example_float example_time example_repr example_now "id"
    (<["confidence" := JNull]> example_payload) "{}" = Raise (TypeError "float() argument must be a string or a real number").
Proof. vm_compute. done. Qed.
