(* ===== verification/Edge.v ===== *)
(** * edge.py and its endpoints: the gossip of snapshots

    A node keeps the snapshot cache of [Cache], the peers it asks and the background
    task that asks them in turn; a peer answers from its own cache (the edge endpoints
    of service.py).  An answer of the network is a status with a body, no answer
    ([httpx.RequestError]) or another exception; [get] is the network, from URL to
    answer.  [glob] is the order in which the metadata files of a cache are found,
    [arrange] the iteration order of a set, [other_json] the JSON of a metadata file that
    is no record, and [as_text] stands for a URL or a content type that is no text.
    [sha256] is the hexadecimal digest. *)

From Stdlib Require Import ZArith QArith Ascii.
From S2P Require Import Prelude PyFloat PyFormat Domain State Cache Crypto.
From S2P Require Dsl.

Open Scope Z_scope.

(** ** The fleet of small devices *)

Record ModelPayload := {
  mp_model_id : string;
  mp_version : string;
  mp_layer_embeddings_hex : string;
  mp_vocabulary_hex : string;
  mp_target_architecture : string
}.

Record IoTMeshNode := {
  iot_fleet_id : string;
  iot_devices : list string;
  iot_active_deployments : dict string ModelPayload
}.

Definition new_IoTMeshNode (fleet_id : string) : IoTMeshNode :=
  {| iot_fleet_id := fleet_id; iot_devices := []; iot_active_deployments := [] |}.

Definition register_device (device_id : string) (n : IoTMeshNode) : IoTMeshNode :=
  {| iot_fleet_id := iot_fleet_id n; iot_devices := set_add (iot_devices n) device_id;
     iot_active_deployments := iot_active_deployments n |}.

Definition deploy_model (payload : ModelPayload) (n : IoTMeshNode) : IoTMeshNode :=
  {| iot_fleet_id := iot_fleet_id n; iot_devices := iot_devices n;
     iot_active_deployments := dset (iot_active_deployments n) (mp_model_id payload) payload |}.

Definition get_delta_sync (device_id last_sync_hash : string) (n : IoTMeshNode) : res object :=
  _ ← raise_if (negb (mem_str device_id (iot_devices n))) (ValueError "Unknown device");
  Ok (list_to_map [("type", JStr "delta_sync"); ("device_id", JStr device_id); ("base_hash", JStr last_sync_hash);
                   ("patches", JArr []); ("models_available", JArr (JStr <$> dkeys (iot_active_deployments n)))]).

(** ** The gossip node *)

Record EdgeManifest := { em_peer_id : string; em_snapshot_ids : list string }.

(** [EdgeManifest.model_validate(v)] *)
Definition parse_manifest (v : json) : res EdgeManifest :=
  match v with
  | JObj m =>
      peer_id ← match m !! "peer_id" with Some (JStr s) => Ok s | _ => Raise (ValidationError "peer_id") end;
      items ← match m !! "snapshot_ids" with Some (JArr l) => Ok l | _ => Raise (ValidationError "snapshot_ids") end;
      ids ← mapM_res (λ x, match x with JStr s => Ok s | _ => Raise (ValidationError "snapshot_ids") end) items;
      Ok {| em_peer_id := peer_id; em_snapshot_ids := ids |}
  | _ => Raise (ValidationError "EdgeManifest")
  end.

(** The answer to a GET request. *)
Inductive answer :=
| Answer (status : Z) (body : res json)
| NoAnswer
| Fails (e : exn).

(** [except (httpx.RequestError, ValueError)]; a validation error is a [ValueError]. *)
Definition caught (e : exn) : bool := match e with ValueError _ | ValidationError _ => true | _ => false end.

(** [v[key]] of a JSON value *)
Definition subscript (v : json) (key : string) : res json :=
  match v with
  | JObj m => match m !! key with Some x => Ok x | None => Raise (KeyError key) end
  | _ => Raise (TypeError "indices must be integers or slices, not str")
  end.

(** [url.rstrip("/")] *)
Fixpoint rstrip_slash (s : string) : string :=
  match s with
  | EmptyString => EmptyString
  | String c s' =>
      match rstrip_slash s' with
      | EmptyString => if Ascii.eqb c (Ascii.ascii_of_N 47) then EmptyString else String c EmptyString
      | r => String c r
      end
  end.

Section edge.
Context (sha256 : string → string) (glob : cache → list (string * string)) (arrange : list string → list string).
Context (other_json : string * string → json) (as_text : json → string).

(** [json.loads] of a metadata file of the cache. *)
Definition metadata_object (m : SnapshotMetadata) : object :=
  let text o := match o with Some s => JStr s | None => JNull end in
  list_to_map [("snapshot_id", JStr (sm_snapshot_id m)); ("source_id", JStr (sm_source_id m)); ("url", JStr (sm_url m));
               ("retrieved_at", JStr (isoformat (sm_retrieved_at m))); ("content_sha256", JStr (sm_content_sha256 m));
               ("content_type", text (sm_content_type m)); ("etag", text (sm_etag m));
               ("last_modified", text (sm_last_modified m)); ("status_code", JNum (sm_status_code m))].

(** [None]: the text is no JSON. *)
Definition metadata_json (key : string * string) (f : metafile) : option json :=
  match f with Meta m => Some (JObj (metadata_object m)) | OtherJson => Some (other_json key) | NotJson => None end.

Definition metadata_at (fs : cache) (key : string * string) : option json :=
  match fs !! key ≫= d_metadata with Some f => metadata_json key f | None => None end.

(** One file in the loop of [get_manifest]: [JSONDecodeError] and [KeyError] skip it. *)
Definition manifest_step (fs : cache) (ids : list json) (key : string * string) : res (list json) :=
  match metadata_at fs key with
  | None => Ok ids
  | Some data =>
      match subscript data "snapshot_id" with
      | Ok v => Ok (ids ++ [v])
      | Raise (KeyError _) => Ok ids
      | Raise e => Raise e
      end
  end.

Definition get_manifest (node_id : string) (fs : cache) : res EdgeManifest :=
  ids ← foldM (manifest_step fs) [] (glob fs);
  parse_manifest (JObj (list_to_map [("peer_id", JStr node_id); ("snapshot_ids", JArr ids)])).

(** [set(manifest.snapshot_ids) - local_ids], in the order of iteration *)
Definition missing_ids (remote local : list string) : list string :=
  arrange (List.filter (λ i, negb (mem_str i local)) (set_of remote)).

(** What the node stores of the answer for one identifier: the source, the URL, the
    body and the headers. *)
Definition synced_snapshot (data : json) : res (string * string * string * dict string string) :=
  metadata ← subscript data "metadata"; source_id ← subscript metadata "source_id";
  metadata ← subscript data "metadata"; url ← subscript metadata "url";
  payload ← subscript data "payload";
  body ← match payload with JStr s => Ok s | _ => Raise (TypeError "fromhex() argument must be str") end;
  metadata ← subscript data "metadata";
  let content_type := match metadata with JObj m => dict_get m "content_type" | _ => JNull end in
  source ← match source_id with JStr s => Ok s | _ => Raise (TypeError "unsupported operand type(s) for /") end;
  Ok (source, match url with JStr u => u | v => as_text v end, body,
      [("content-type", match content_type with
                        | JStr s => s
                        | v => if Dsl.truthy v then as_text v else ""
                        end)]).

(** How a call ends: it returns, it logs what it caught, or it raises. *)
Inductive outcome := Synced | Failed | Crashed (e : exn).

Definition raised (e : exn) : outcome := if caught e then Failed else Crashed e.

Section sync.
Context (get : string → answer) (clock : string → datetime).

(** One missing identifier; [clock] is the instant of its store. *)
Definition sync_one (peer_url missing_id : string) (fs : cache) : outcome * cache :=
  match get (peer_url +:+ "/v1/edge/sync/" +:+ missing_id) with
  | NoAnswer => (Failed, fs)
  | Fails e => (raised e, fs)
  | Answer status body =>
      if negb (status =? 200) then (Synced, fs)
      else match (data ← body; synced_snapshot data) with
           | Raise e => (raised e, fs)
           | Ok (source_id, url, body, headers) =>
               match store sha256 source_id url body headers 200 (clock missing_id) fs with
               | (Ok _, fs) => (Synced, fs)
               | (Raise e, fs) => (raised e, fs)
               end
           end
  end.

Fixpoint sync_missing (peer_url : string) (ids : list string) (fs : cache) : outcome * cache :=
  match ids with
  | [] => (Synced, fs)
  | i :: ids => match sync_one peer_url i fs with (Synced, fs) => sync_missing peer_url ids fs | r => r end
  end.

Definition sync_with_peer (node_id peer_url : string) (fs : cache) : outcome * cache :=
  match get (peer_url +:+ "/v1/edge/manifest") with
  | NoAnswer => (Failed, fs)
  | Fails e => (raised e, fs)
  | Answer status body =>
      if negb (status =? 200) then (Synced, fs)
      else match (data ← body; manifest ← parse_manifest data;
                  local_manifest ← get_manifest node_id fs; Ok (manifest, local_manifest)) with
           | Raise e => (raised e, fs)
           | Ok (manifest, local_manifest) =>
               sync_missing peer_url (missing_ids (em_snapshot_ids manifest) (em_snapshot_ids local_manifest)) fs
           end
  end.

End sync.

(** ** The node and its task *)

Inductive task := Looping | Died (e : exn).

Record EdgeNode := {
  en_node_id : string;
  en_cache : cache;
  en_peers : list string;
  en_running : bool;
  en_task : option task
}.

Definition new_EdgeNode (node_id : string) (fs : cache) : EdgeNode :=
  {| en_node_id := node_id; en_cache := fs; en_peers := []; en_running := false; en_task := None |}.

Definition add_peer (url : string) (n : EdgeNode) : EdgeNode :=
  {| en_node_id := en_node_id n; en_cache := en_cache n; en_peers := set_add (en_peers n) (rstrip_slash url);
     en_running := en_running n; en_task := en_task n |}.

Definition start (n : EdgeNode) : EdgeNode :=
  if en_running n then n
  else {| en_node_id := en_node_id n; en_cache := en_cache n; en_peers := en_peers n; en_running := true; en_task := Some Looping |}.

(** Awaiting a task that has died raises its exception, before the task is forgotten. *)
Definition stop (n : EdgeNode) : res unit * EdgeNode :=
  let stopped t := {| en_node_id := en_node_id n; en_cache := en_cache n; en_peers := en_peers n; en_running := false; en_task := t |} in
  match en_task n with
  | Some (Died e) => (Raise e, stopped (Some (Died e)))
  | _ => (Ok tt, stopped None)
  end.

(** The peers of one round in turn; what one of them raises ends the task. *)
Fixpoint gossip (get : string → answer) (clock : string → string → datetime) (node_id : string) (peers : list string)
    (fs : cache) : option exn * cache :=
  match peers with
  | [] => (None, fs)
  | p :: peers =>
      match sync_with_peer get (clock p) node_id p fs with
      | (Crashed e, fs) => (Some e, fs)
      | (_, fs) => gossip get clock node_id peers fs
      end
  end.

(** One round of [_loop]. *)
Definition loop_round (get : string → answer) (clock : string → string → datetime) (n : EdgeNode) : EdgeNode :=
  match en_task n with
  | Some Looping =>
      if en_running n then
        let '(e, fs) := gossip get clock (en_node_id n) (arrange (en_peers n)) (en_cache n) in
        {| en_node_id := en_node_id n; en_cache := fs; en_peers := en_peers n; en_running := en_running n;
           en_task := Some (match e with Some e => Died e | None => Looping end) |}
      else n
  | _ => n
  end.

(** ** The endpoints of a peer *)

Definition http_error (status : Z) (detail : string) : answer :=
  Answer status (Ok (JObj {["detail" := JStr detail]})).

(** An exception nothing handles: status 500 with a text. *)
Definition server_error : answer := Answer 500 (Raise (ValueError "Expecting value")).

Definition edge_manifest_endpoint (edge_enabled : bool) (node_id : string) (fs : cache) : answer :=
  if negb edge_enabled then http_error 403 "Edge protocol disabled"
  else match get_manifest node_id fs with
       | Ok m => Answer 200 (Ok (JObj (list_to_map [("peer_id", JStr (em_peer_id m));
                                                    ("snapshot_ids", JArr (JStr <$> em_snapshot_ids m))])))
       | Raise _ => server_error
       end.

(** One metadata file of the search: found, skipped or an exception. *)
Definition snapshot_answer (fs : cache) (snapshot_id : string) (key : string * string) : res (option json) :=
  match metadata_at fs key with
  | None => Ok None
  | Some data =>
      match subscript data "snapshot_id" with
      | Raise (KeyError _) => Ok None
      | Raise e => Raise e
      | Ok v =>
          if eq_str v snapshot_id then
            Ok (match fs !! key ≫= d_payload with
                | Some body => Some (JObj (list_to_map [("metadata", data); ("payload", JStr (hex body))]))
                | None => None
                end)
          else Ok None
      end
  end.

Fixpoint find_snapshot (fs : cache) (snapshot_id : string) (keys : list (string * string)) : answer :=
  match keys with
  | [] => http_error 404 "Snapshot not found"
  | key :: keys =>
      match snapshot_answer fs snapshot_id key with
      | Ok (Some data) => Answer 200 (Ok data)
      | Ok None => find_snapshot fs snapshot_id keys
      | Raise _ => server_error
      end
  end.

Definition edge_sync_endpoint (edge_enabled : bool) (snapshot_id : string) (fs : cache) : answer :=
  if negb edge_enabled then http_error 403 "Edge protocol disabled" else find_snapshot fs snapshot_id (glob fs).

(** [payload] is a dictionary of texts; no API key is asked for. *)
Definition edge_add_peer_endpoint (edge_enabled : bool) (payload : dict string string) (n : EdgeNode) : answer * EdgeNode :=
  if negb edge_enabled then (http_error 403 "Edge protocol disabled", n)
  else match dget payload "url" with
       | Some url =>
           if str_empty url then (http_error 400 "Missing peer url", n)
           else (Answer 200 (Ok (JObj (list_to_map [("status", JStr "ok"); ("message", JStr ("Added peer " +:+ url))]))), add_peer url n)
       | None => (http_error 400 "Missing peer url", n)
       end.

(** An identifier that is a segment of a path as it stands: it has no separator, no escape and no
    query, and is not removed when the path is normalised. *)
Fixpoint plain_chars (s : string) : bool :=
  match s with
  | EmptyString => true
  | String c s => negb (mem_str (String c EmptyString) ["/"; "?"; "#"; "%"; String backslash EmptyString]) && (33 <=? N_of_ascii c)%N && (N_of_ascii c <=? 126)%N
                  && plain_chars s
  end.

Definition segment (i : string) : bool := negb (mem_str i [""; "."; ".."]) && plain_chars i.

(** The network leads the URLs of [peer_url] to a node that runs this program: what the client
    makes of an identifier that is no segment of a path is left open. *)
Definition serves (get : string → answer) (peer_url node_id : string) (fs : cache) : Prop :=
  get (peer_url +:+ "/v1/edge/manifest") = edge_manifest_endpoint true node_id fs ∧
  ∀ i, segment i = true → get (peer_url +:+ "/v1/edge/sync/" +:+ i) = edge_sync_endpoint true i fs.

End edge.

(** ** What a peer answers *)

Section laws.
Context (sha256 : string → string) (glob : cache → list (string * string)) (arrange : list string → list string).
Context (other_json : string * string → json) (as_text : json → string).
Context (Hglob : ∀ fs key, key ∈ glob fs ↔ is_Some (fs !! key ≫= d_metadata)) (Harrange : ∀ l, arrange l ≡ₚ l).

Local Abbreviation cache_ok := (Cache.cache_ok sha256).
Local Abbreviation store := (Cache.store sha256).

(** The record a metadata file holds. *)
Definition meta_at (fs : cache) (key : string * string) : option SnapshotMetadata :=
  match fs !! key ≫= d_metadata with Some (Meta m) => Some m | _ => None end.

(** The snapshots a node lists, and their identifiers. *)
Definition metas (fs : cache) : list SnapshotMetadata := omap (meta_at fs) (glob fs).
Definition ids (fs : cache) : list string := sm_snapshot_id <$> metas fs.

Lemma elem_of_metas fs m : m ∈ metas fs ↔ ∃ key, meta_at fs key = Some m.
Proof using Hglob.
  unfold metas. rewrite list_elem_of_omap. split; [intros (key & _ & H); eauto|]. intros [key H]. exists key. split; [|done].
  apply Hglob. unfold meta_at in H. destruct (fs !! key ≫= d_metadata); [by eexists|done].
Qed.

Lemma elem_of_ids fs i : i ∈ ids fs ↔ ∃ key m, meta_at fs key = Some m ∧ sm_snapshot_id m = i.
Proof using Hglob.
  unfold ids. rewrite list_elem_of_fmap. split.
  - intros (m & -> & [key H]%elem_of_metas). eauto.
  - intros (key & m & H & <-). exists m. split; [done|]. apply elem_of_metas. eauto.
Qed.

(** In a well-formed cache a listed file is a record beside its payload. *)
Lemma listed fs key : cache_ok fs → key ∈ glob fs →
  ∃ m b, meta_at fs key = Some m ∧ metadata_at other_json fs key = Some (JObj (metadata_object m)) ∧
    fs !! key ≫= d_payload = Some b ∧ sm_source_id m = key.1.
Proof using Hglob.
  intros Hfs [f Hf]%Hglob. destruct (fs !! key) as [dir|] eqn:E; [|done]. cbn [mbind option_bind] in Hf.
  destruct (Hfs key dir E) as [_ Hm]. destruct (Hm f Hf) as (m & -> & [b Hb] & Hs & _).
  exists m, b. unfold meta_at, metadata_at. rewrite E. cbn [mbind option_bind]. rewrite Hf, Hb. done.
Qed.

Lemma metadata_id m : subscript (JObj (metadata_object m)) "snapshot_id" = Ok (JStr (sm_snapshot_id m)).
Proof using. reflexivity. Qed.

Lemma manifest_fold fs keys acc : cache_ok fs → (∀ key, key ∈ keys → key ∈ glob fs) →
  foldM (manifest_step other_json fs) acc keys = Ok (acc ++ (JStr ∘ sm_snapshot_id <$> omap (meta_at fs) keys)).
Proof using Hglob.
  intros Hfs. revert acc. induction keys as [|key keys IH]; intros acc Hk; cbn [foldM].
  { by rewrite app_nil_r. }
  destruct (listed fs key Hfs ltac:(apply Hk; by left)) as (m & b & Em & Ej & _).
  assert (manifest_step other_json fs acc key = Ok (acc ++ [JStr (sm_snapshot_id m)])) as ->.
  { unfold manifest_step. rewrite Ej. by rewrite metadata_id. }
  cbn [mbind res_bind]. rewrite IH by (intros; apply Hk; by right). cbn [omap list_omap]. rewrite Em. by rewrite <-app_assoc.
Qed.

Lemma parse_ids (l : list string) :
  mapM_res (λ x, match x with JStr s => Ok s | _ => Raise (ValidationError "snapshot_ids") end) (JStr <$> l) = Ok l.
Proof using. induction l as [|x l IH]; [done|]. cbn. cbn in IH. by rewrite IH. Qed.

Lemma manifest_ok node_id fs : cache_ok fs →
  get_manifest glob other_json node_id fs = Ok {| em_peer_id := node_id; em_snapshot_ids := ids fs |}.
Proof using Hglob.
  intros Hfs. unfold get_manifest. rewrite manifest_fold by done. cbn [mbind res_bind app].
  replace (JStr ∘ sm_snapshot_id <$> omap (meta_at fs) (glob fs)) with (JStr <$> ids fs) by (symmetry; apply list_fmap_compose).
  generalize (ids fs). intros l. unfold parse_manifest. 
  change (?m !! "peer_id") with (Some (JStr node_id)). change (?m !! "snapshot_ids") with (Some (JArr (JStr <$> l))).
  cbn [mbind res_bind]. by rewrite parse_ids.
Qed.

(** The body of an answer of the sync endpoint. *)
Definition snapshot_json (m : SnapshotMetadata) (b : string) : json :=
  JObj (list_to_map [("metadata", JObj (metadata_object m)); ("payload", JStr (hex b))]).

Definition content_type_of (m : SnapshotMetadata) : dict string string := [("content-type", default "" (sm_content_type m))].

(** What a node reads from it: the body is the hexadecimal text. *)
Lemma synced_hex m b :
  synced_snapshot as_text (snapshot_json m b) = Ok (sm_source_id m, sm_url m, hex b, content_type_of m).
Proof using.
  destruct m as [i s u r c [t|] e l st]; reflexivity.
Qed.

(** A peer has the snapshot of an identifier it lists, and no other. *)
Lemma find_listed fs i keys : cache_ok fs → (∀ key, key ∈ keys → key ∈ glob fs) →
  (∃ key m b, key ∈ keys ∧ meta_at fs key = Some m ∧ sm_snapshot_id m = i ∧ fs !! key ≫= d_payload = Some b ∧
     find_snapshot other_json fs i keys = Answer 200 (Ok (snapshot_json m b))) ∨
  (∀ key m, key ∈ keys → meta_at fs key = Some m → sm_snapshot_id m ≠ i).
Proof using Hglob.
  intros Hfs. induction keys as [|key keys IH]; intros Hk; cbn [find_snapshot].
  { right. by intros key m Hin%elem_of_nil. }
  destruct (listed fs key Hfs ltac:(apply Hk; by left)) as (m & b & Em & Ej & Eb & _).
  unfold snapshot_answer. rewrite Ej, metadata_id, Eb. cbn [eq_str].
  destruct (str_eqb (sm_snapshot_id m) i) eqn:E.
  - left. exists key, m, b. split; [by left|]. apply str_eqb_true in E. split_and!; done.
  - destruct IH as [(key' & m' & b' & Hin & H)|H]; [intros; apply Hk; by right| |].
    + left. exists key', m', b'. split; [by right|done].
    + right. intros key' m' [->|Hin]%elem_of_cons Em'; [|by apply (H key')].
      assert (m' = m) as -> by congruence. intros <-. by rewrite (proj2 (str_eqb_true _ _) eq_refl) in E.
Qed.

Lemma sync_endpoint_listed fs i : cache_ok fs → i ∈ ids fs →
  ∃ key m b, meta_at fs key = Some m ∧ sm_snapshot_id m = i ∧ fs !! key ≫= d_payload = Some b ∧
    edge_sync_endpoint glob other_json true i fs = Answer 200 (Ok (snapshot_json m b)).
Proof using Hglob.
  intros Hfs (key & m & Em & Ei)%elem_of_ids. unfold edge_sync_endpoint. cbn [negb].
  destruct (find_listed fs i (glob fs) Hfs ltac:(done)) as [(key' & m' & b & _ & H)|H]; [by exists key', m', b|].
  exfalso. apply (H key m); [|done|done]. apply Hglob. unfold meta_at in Em. by destruct (fs !! key ≫= d_metadata).
Qed.

(** ** One exchange with a peer of this program *)

(** What a node may hold after it has stored hexadecimal texts of [bodies], by source. *)
Definition replica (bodies : string → string → Prop) (clock : string → datetime) (m : SnapshotMetadata) : Prop :=
  ∃ i s u b h, bodies s b ∧ m = new_metadata sha256 s u (hex b) h 200 (clock i).

Definition extends (bodies : string → string → Prop) (clock : string → datetime) (fs fs' : cache) : Prop :=
  grows fs fs' ∧ cache_ok fs' ∧ ∀ key m, meta_at fs' key = Some m → meta_at fs key = Some m ∨ replica bodies clock m.

Lemma extends_refl bodies clock fs : cache_ok fs → extends bodies clock fs fs.
Proof using. intros H. split_and!; [done|done|intros; by left]. Qed.

Lemma extends_trans bodies clock a b c : extends bodies clock a b → extends bodies clock b c → extends bodies clock a c.
Proof using.
  intros (G & _ & M) (G' & O' & M'). split_and!; [by etrans|done|].
  intros key m H. destruct (M' key m H) as [H'|H']; [by apply M|by right].
Qed.

Lemma meta_at_insert fs key dir key' : meta_at (<[key := dir]> fs) key' =
  if decide (key = key') then match d_metadata dir with Some (Meta m) => Some m | _ => None end else meta_at fs key'.
Proof using.
  unfold meta_at. case_decide as E; [subst; by rewrite lookup_insert_eq|by rewrite lookup_insert_ne].
Qed.

Lemma meta_at_directory fs key : match d_metadata (make_directory key fs) with Some (Meta m) => Some m | _ => None end = meta_at fs key.
Proof using. unfold make_directory, meta_at. by destruct (fs !! key). Qed.

(** The metadata of a cache after a store. *)
Lemma store_meta s u b h st now fs key m : meta_at (store s u b h st now fs).2 key = Some m →
  meta_at fs key = Some m ∨ m = new_metadata sha256 s u b h st now.
Proof using.
  unfold Cache.store, store_payload. set (k := (s, sha256 b)). pose proof (meta_at_directory fs k) as D.
  destruct (atomic_write (d_payload _) b) as [p|e].
  - set (fs1 := <[k := _]> fs). assert (∀ key, meta_at fs1 key = meta_at fs key) as E1.
    { intros key'. unfold fs1. rewrite meta_at_insert. case_decide as E; [by subst|done]. }
    unfold store_metadata. set (k' := (sm_source_id _, _)). pose proof (meta_at_directory fs1 k') as D1.
    destruct (atomic_write (d_metadata _) _) as [q|e] eqn:E; cbn [snd].
    + apply atomic_write_ok in E as [-> _]. rewrite meta_at_insert. case_decide as Ek.
      * intros [= <-]. by right.
      * rewrite E1. by left.
    + rewrite E1. by left.
  - cbn [snd]. rewrite meta_at_insert. case_decide as E; [subst; rewrite D|]; by left.
Qed.

Lemma store_extends bodies clock s u b h i fs : bodies s b → dt_aware (clock i) = true ∧ calendar (clock i) → cache_ok fs →
  extends bodies clock fs (store s u (hex b) h 200 (clock i) fs).2.
Proof using.
  intros Hb Ht Hfs. change (store s u (hex b) h 200 (clock i) fs).2 with (exec sha256 fs (Store s u (hex b) h 200 (clock i))).
  split_and!; [apply exec_grows|by apply exec_ok|]. intros key m [H| ->]%store_meta; [by left|right]. by exists i, s, u, b, h.
Qed.

Section exchange.
Context (get : string → answer) (peer_url peer_id : string) (peer : cache).
Context (Hpeer : cache_ok peer) (Hserves : serves glob other_json get peer_url peer_id peer).
Context (Hsegments : ∀ i, i ∈ ids peer → segment i = true).

(** The peer has the body, as a snapshot of the source. *)
Definition held (fs : cache) (s b : string) : Prop :=
  ∃ key m, meta_at fs key = Some m ∧ sm_source_id m = s ∧ fs !! key ≫= d_payload = Some b.

Definition timely_clock (clock : string → datetime) : Prop := ∀ i, dt_aware (clock i) = true ∧ calendar (clock i).

Local Abbreviation sync_one := (Edge.sync_one sha256 as_text get).
Local Abbreviation sync_missing := (Edge.sync_missing sha256 as_text get).
Local Abbreviation sync_with_peer := (Edge.sync_with_peer sha256 glob arrange other_json as_text get).

(** What the node stores for an identifier the peer lists is the same each time. *)
Lemma sync_one_listed i : i ∈ ids peer →
  ∃ s u b h, held peer s b ∧ ∀ clock fs,
    sync_one clock peer_url i fs =
      match store s u (hex b) h 200 (clock i) fs with (Ok _, fs) => (Synced, fs) | (Raise e, fs) => (raised e, fs) end.
Proof using Hglob Hpeer Hserves Hsegments.
  intros Hi. destruct (sync_endpoint_listed _ i Hpeer Hi) as (key & m & b & Em & _ & Hb & E).
  exists (sm_source_id m), (sm_url m), b, (content_type_of m). split; [by exists key, m|]. intros clock fs.
  unfold Edge.sync_one. rewrite (proj2 Hserves), E by by apply Hsegments. cbn [negb Z.eqb Pos.eqb mbind res_bind]. by rewrite synced_hex.
Qed.

Lemma sync_missing_extends clock l fs : timely_clock clock → cache_ok fs → (∀ i, i ∈ l → i ∈ ids peer) →
  extends (held peer) clock fs (sync_missing clock peer_url l fs).2 ∧
  ((sync_missing clock peer_url l fs).1 = Synced ∨ (sync_missing clock peer_url l fs).1 = Failed).
Proof using Hglob Hpeer Hserves Hsegments.
  intros Ht. revert fs. induction l as [|i l IH]; intros fs Hfs Hl; cbn [Edge.sync_missing].
  { split; [by apply extends_refl|by left]. }
  destruct (sync_one_listed i ltac:(apply Hl; by left)) as (s & u & b & h & Hb & E). rewrite E.
  pose proof (store_extends (held peer) clock s u b h i fs Hb (Ht i) Hfs) as X.
  destruct (store_cases sha256 s u (hex b) h 200 (clock i) fs) as [[fs1 E1]|[fs1 E1]]; rewrite E1 in X |- *; cbn [snd fst raised caught] in *.
  - destruct (IH fs1) as [Y Z]; [by destruct X as (_ & ? & _)|intros; apply Hl; by right|].
    split; [|exact Z]. by eapply extends_trans.
  - split; [done|by right].
Qed.

Lemma missing_listed fs i : i ∈ missing_ids arrange (ids peer) (ids fs) ↔ i ∈ ids peer ∧ i ∉ ids fs.
Proof using Harrange.
  unfold missing_ids. rewrite Harrange, list_elem_of_In, List.filter_In, <-list_elem_of_In. unfold set_of. rewrite elem_of_remove_dups.
  unfold mem_str. split; intros [? H]; (split; [done|]).
  - by apply negb_true_iff, bool_decide_eq_false in H.
  - by apply negb_true_iff, bool_decide_eq_false.
Qed.

Lemma exchange_step clock node_id fs : cache_ok fs →
  sync_with_peer clock node_id peer_url fs = sync_missing clock peer_url (missing_ids arrange (ids peer) (ids fs)) fs.
Proof using Hglob Hpeer Hserves.
  intros Hfs. unfold Edge.sync_with_peer. rewrite (proj1 Hserves). unfold edge_manifest_endpoint. cbn [negb].
  rewrite (manifest_ok peer_id peer Hpeer). cbn [negb Z.eqb Pos.eqb mbind res_bind em_peer_id em_snapshot_ids].
  generalize (ids peer). intros l. unfold parse_manifest.
  change (?m !! "peer_id") with (Some (JStr peer_id)). change (?m !! "snapshot_ids") with (Some (JArr (JStr <$> l))).
  cbn [mbind res_bind]. rewrite parse_ids. cbn [mbind res_bind]. by rewrite (manifest_ok node_id fs Hfs).
Qed.

Lemma extends_ids bodies clock fs fs' i : extends bodies clock fs fs' → i ∈ ids fs' →
  i ∈ ids fs ∨ ∃ m, replica bodies clock m ∧ sm_snapshot_id m = i.
Proof using Hglob.
  intros (_ & _ & M) (key & m & Em & Ei)%elem_of_ids. destruct (M key m Em) as [H|H]; [left|right; eauto].
  apply elem_of_ids. eauto.
Qed.

(** The identifier of the snapshot that a node makes of a body of the peer: that of the
    hexadecimal text of the body. *)
Definition copy_id (s b : string) : string := s +:+ "-" +:+ String.substring 0 20 (sha256 (hex b)).

Lemma exchange_gains clock node_id fs : cache_ok fs → timely_clock clock →
  ∃ out fs', sync_with_peer clock node_id peer_url fs = (out, fs') ∧ (out = Synced ∨ out = Failed) ∧ grows fs fs' ∧ cache_ok fs' ∧
    ∀ i, i ∈ ids fs' → i ∈ ids fs ∨ ∃ s b, held peer s b ∧ i = copy_id s b.
Proof using Hglob Harrange Hpeer Hserves Hsegments.
  intros Hfs Ht. rewrite (exchange_step clock node_id fs Hfs).
  destruct (sync_missing_extends clock (missing_ids arrange (ids peer) (ids fs)) fs Ht Hfs) as [X O].
  { intros j [Hj _]%missing_listed. exact Hj. }
  destruct (sync_missing clock peer_url _ fs) as [out fs']. cbn [fst snd] in *. exists out, fs'. destruct X as (G & C & M).
  split_and!; [done|done|done|done|]. intros i Hi'. destruct (extends_ids (held peer) clock fs fs' i) as [H|(m & (j & s & u & b & h & Hb & ->) & E)];
    [by split_and!|done|by left|]. right. exists s, b. by rewrite <-E.
Qed.

(** C29. An exchange with a peer that runs this program, whose identifiers are plain segments of
    a path, returns or logs an error and keeps every file; and every identifier it adds is that
    of the hexadecimal text of a body of the peer, not of the body.  So a snapshot that was missing is
    missing afterwards, unless its identifier is that of such a text. *)
Theorem gossip_never_replicates clock node_id fs : cache_ok fs → timely_clock clock →
  ∃ out fs', sync_with_peer clock node_id peer_url fs = (out, fs') ∧ (out = Synced ∨ out = Failed) ∧ grows fs fs' ∧ cache_ok fs' ∧
    (∀ i, i ∈ ids fs' → i ∈ ids fs ∨ ∃ s b, held peer s b ∧ i = copy_id s b) ∧
    ∀ i, i ∈ ids peer → i ∉ ids fs → (∀ s b, held peer s b → i ≠ copy_id s b) → i ∉ ids fs'.
Proof using Hglob Harrange Hpeer Hserves Hsegments.
  intros Hfs Ht. destruct (exchange_gains clock node_id fs Hfs Ht) as (out & fs' & E & O & G & C & M). exists out, fs'.
  split_and!; [done|done|done|done|done|]. intros i _ Hn Hc Hi. destruct (M i Hi) as [?|(s & b & Hb & ->)]; [done|]. by apply (Hc s b).
Qed.

(** After a complete exchange, the hexadecimal text of every missing body is stored. *)
Lemma synced_stored clock l fs fs' : (∀ i, i ∈ l → i ∈ ids peer) → sync_missing clock peer_url l fs = (Synced, fs') →
  grows fs fs' ∧ ∀ i, i ∈ l → ∃ s u b h,
    fs' !! (s, sha256 (hex b)) = Some {| d_payload := Some (hex b); d_metadata := Some (Meta (new_metadata sha256 s u (hex b) h 200 (clock i))) |} ∧
    ∀ clock fs, sync_one clock peer_url i fs =
      match store s u (hex b) h 200 (clock i) fs with (Ok _, fs) => (Synced, fs) | (Raise e, fs) => (raised e, fs) end.
Proof using Hglob Hpeer Hserves Hsegments.
  revert fs. induction l as [|i l IH]; intros fs Hl; cbn [Edge.sync_missing].
  { intros [= <-]. split; [done|]. by intros i ?%elem_of_nil. }
  destruct (sync_one_listed i ltac:(apply Hl; by left)) as (s & u & b & h & _ & E). rewrite E.
  destruct (store_cases sha256 s u (hex b) h 200 (clock i) fs) as [[fs1 E1]|[fs1 E1]]; rewrite E1; cbn [raised caught]; [|done].
  intros H. destruct (IH fs1 ltac:(intros; apply Hl; by right) H) as [G1 M].
  assert (grows fs fs1) as G0.
  { pose proof (exec_grows sha256 fs (Store s u (hex b) h 200 (clock i))) as X. unfold exec in X. by rewrite E1 in X. }
  split; [by etrans|]. intros j [->|Hj]%elem_of_cons; [|by apply M]. exists s, u, b, h. split; [|exact E].
  apply store_files in E1 as [_ Hf]. destruct (G1 _ _ Hf) as ([p m] & -> & Hp & Hm). cbn in Hp, Hm.
  by rewrite <-(Hp _ eq_refl), <-(Hm _ eq_refl).
Qed.

(** Once an exchange with an unchanged peer has completed, every later exchange with
    it fails on the first snapshot and changes nothing, as long as one is missing. *)
Theorem gossip_stuck clock clock' node_id fs fs' i : cache_ok fs → timely_clock clock → i ∈ ids peer → i ∉ ids fs → (∀ s b, held peer s b → i ≠ copy_id s b) →
  sync_with_peer clock node_id peer_url fs = (Synced, fs') → (∀ j, clock' j ≠ clock j) →
  sync_with_peer clock' node_id peer_url fs' = (Failed, fs').
Proof using Hglob Harrange Hpeer Hserves Hsegments.
  intros Hfs Ht Hi Hn Hc Hs Hclock.
  destruct (exchange_gains clock node_id fs Hfs Ht) as (out & fs1 & E & _ & G & C & M0).
  rewrite Hs in E. injection E as <- <-. assert (i ∉ ids fs') as Hi'.
  { intros Hi'. destruct (M0 i Hi') as [?|(s & b & Hb & ->)]; [done|]. by apply (Hc s b). }
  rewrite (exchange_step clock node_id fs Hfs) in Hs. rewrite (exchange_step clock' node_id fs' C).
  destruct (synced_stored clock _ fs fs' ltac:(by intros j [Hj _]%missing_listed) Hs) as [_ M].
  assert (i ∈ missing_ids arrange (ids peer) (ids fs')) as Hm by (by apply missing_listed).
  destruct (missing_ids arrange (ids peer) (ids fs')) as [|j l] eqn:El; [by apply elem_of_nil in Hm|].
  assert (j ∈ missing_ids arrange (ids peer) (ids fs')) as [Hj Hj']%missing_listed by (rewrite El; by left).
  assert (j ∉ ids fs) as Hj0.
  { intros (key & m & Em & Ej)%elem_of_ids. apply Hj', elem_of_ids. exists key, m. split; [|done].
    unfold meta_at in Em |- *. destruct (fs !! key) as [dir|] eqn:Ek; [|done]. cbn in Em.
    destruct (G key dir Ek) as (dir' & -> & _ & Hk). cbn. destruct (d_metadata dir) as [f|]; [|done]. by rewrite (Hk f eq_refl). }
  destruct (M j ltac:(by apply missing_listed)) as (s & u & b & h & Hf & E). cbn [Edge.sync_missing]. rewrite E.
  rewrite (store_collides sha256 _ _ _ _ _ _ _ _ Hf) by (cbn; intros X; by apply (Hclock j)). done.
Qed.

End exchange.

(** ** A peer that does not follow the program *)

Local Abbreviation sync_one := (Edge.sync_one sha256 as_text).
Local Abbreviation sync_with_peer := (Edge.sync_with_peer sha256 glob arrange other_json as_text).
Local Abbreviation loop_round := (Edge.loop_round sha256 glob arrange other_json as_text).

(** The manifest of a peer that lists one snapshot. *)
Definition lists_one (get : string → answer) (peer_url i : string) : Prop :=
  get (peer_url +:+ "/v1/edge/manifest") =
    Answer 200 (Ok (JObj (list_to_map [("peer_id", JStr "peer"); ("snapshot_ids", JArr [JStr i])]))).

Lemma sync_one_missing get clock node_id peer_url i fs : cache_ok fs → lists_one get peer_url i → i ∉ ids fs →
  sync_with_peer get clock node_id peer_url fs = sync_one get clock peer_url i fs.
Proof using Hglob Harrange.
  intros Hfs Hget Hi. unfold Edge.sync_with_peer. rewrite Hget. cbn [negb Z.eqb Pos.eqb mbind res_bind].
  unfold parse_manifest. change (?m !! "peer_id") with (Some (JStr "peer")). change (?m !! "snapshot_ids") with (Some (JArr [JStr i])).
  cbn [mbind res_bind mapM_res]. rewrite (manifest_ok node_id fs Hfs). cbn [mbind res_bind em_snapshot_ids].
  assert (missing_ids arrange [i] (ids fs) = [i]) as ->.
  { unfold missing_ids. change (set_of [i]) with [i]. cbn [List.filter]. unfold mem_str. rewrite bool_decide_eq_false_2 by done.
    cbn [negb]. apply Permutation_singleton_r, Harrange. }
  cbn [Edge.sync_missing]. destruct (sync_one get clock peer_url i fs) as [[]]; reflexivity.
Qed.

(** What may happen to a node between two calls of [stop]. *)
Inductive event :=
| AddPeer (url : string)
| Start
| LoopRound (get : string → answer) (clock : string → string → datetime).

Definition run_event (n : EdgeNode) (e : event) : EdgeNode :=
  match e with
  | AddPeer url => add_peer url n
  | Start => start n
  | LoopRound get clock => loop_round get clock n
  end.

Definition dead (e : exn) (fs : cache) (n : EdgeNode) : Prop := en_running n = true ∧ en_task n = Some (Died e) ∧ en_cache n = fs.

Lemma dead_stays e fs n events : dead e fs n → dead e fs (foldl run_event n events).
Proof using.
  revert n. induction events as [|ev events IH]; intros n (R & T & C); cbn [foldl]; [done|]. apply IH.
  destruct ev; cbn [run_event]; unfold dead.
  - done.
  - unfold start. by rewrite R.
  - unfold Edge.loop_round. by rewrite T.
Qed.

(** C30. One answer without metadata from the first peer ends the gossip: the cache never
    changes again, whatever peers are added, whatever they answer and however often
    the node is started, and stopping the node raises the [KeyError]. *)
Theorem malformed_answer_kills get clock n p peers i events :
  cache_ok (en_cache n) → en_running n = true → en_task n = Some Looping → arrange (en_peers n) = p :: peers →
  lists_one get p i → i ∉ ids (en_cache n) → get (p +:+ "/v1/edge/sync/" +:+ i) = Answer 200 (Ok (JObj ∅)) →
  let n' := foldl run_event (loop_round get clock n) events in
  en_cache n' = en_cache n ∧ (stop n').1 = Raise (KeyError "metadata").
Proof using Hglob Harrange.
  intros Hfs Hr Ht Hp Hl Hi Hget n'.
  assert (dead (KeyError "metadata") (en_cache n) (loop_round get clock n)) as D.
  { unfold Edge.loop_round, dead. rewrite Ht, Hr, Hp. cbn [gossip].
    rewrite (sync_one_missing get (clock p) (en_node_id n) p i (en_cache n) Hfs Hl Hi).
    unfold Edge.sync_one. rewrite Hget. cbn [negb Z.eqb Pos.eqb mbind res_bind].
    assert (synced_snapshot as_text (JObj ∅) = Raise (KeyError "metadata")) as -> by reflexivity. done. }
  apply (dead_stays _ _ _ events) in D as (_ & T & C). fold n' in T, C. split; [done|]. unfold stop. by rewrite T.
Qed.

(** The answer of a peer that makes up a snapshot. *)
Definition invented (s u text : string) : json :=
  JObj (list_to_map [("metadata", JObj (list_to_map [("source_id", JStr s); ("url", JStr u)])); ("payload", JStr text)]).

(** Whoever can reach an enabled node, without an API key, can add a peer and have its
    invented text served as the newest snapshot of any source and URL: the cache stays
    well-formed, and its reader returns the text until a later snapshot is stored. *)
Lemma unauthenticated_poison get clock n p s u text i url age now order :
  cache_ok (en_cache n) → en_running n = true → en_task n = Some Looping → en_peers n = [] → str_empty url = false →
  rstrip_slash url = p → lists_one get p i → i ∉ ids (en_cache n) → get (p +:+ "/v1/edge/sync/" +:+ i) = Answer 200 (Ok (invented s u text)) →
  en_cache n !! (s, sha256 text) = None → dt_aware (clock p i) = true → calendar (clock p i) → calendar now →
  (∀ d m, snapshot_at s (en_cache n) d = Some m → str_ltb (isoformat (sm_retrieved_at m)) (isoformat (clock p i)) = true) →
  fresh_at age now (clock p i) = true →
  let n' := loop_round get clock (edge_add_peer_endpoint true [("url", url)] n).2 in
  (∀ d, d ∈ order ↔ is_Some (snapshot_at s (en_cache n') d)) →
  cache_ok (en_cache n') ∧
  ∃ m, latest sha256 s (Some u) age now order (en_cache n') = Ok (Some (m, text)) ∧ sm_source_id m = s ∧ sm_url m = u.
Proof using Hglob Harrange.
  intros Hfs Hr Ht Hp Hurl Hstrip Hl Hi Hget Hnew Ha Hc Hnow Hold Hage n' Horder.
  set (h := [("content-type", "")] : dict string string). set (m := new_metadata sha256 s u text h 200 (clock p i)).
  assert (en_cache n' = <[(s, sha256 text) := files text m]> (en_cache n)) as E.
  { unfold n', edge_add_peer_endpoint. cbn [negb dget]. rewrite decide_True by done. rewrite Hurl. cbn [snd].
    unfold Edge.loop_round, add_peer. cbn [en_task en_running en_peers en_node_id en_cache]. rewrite Ht, Hr, Hp.
    assert (set_add [] (rstrip_slash url) = [p]) as -> by (rewrite Hstrip; reflexivity).
    assert (arrange [p] = [p]) as -> by apply Permutation_singleton_r, Harrange. cbn [gossip].
    rewrite (sync_one_missing get (clock p) (en_node_id n) p i (en_cache n) Hfs Hl Hi). unfold Edge.sync_one. rewrite Hget.
    cbn [negb Z.eqb Pos.eqb mbind res_bind].
    assert (synced_snapshot as_text (invented s u text) = Ok (s, u, text, h)) as -> by reflexivity.
    by rewrite (store_fresh sha256 s u text h 200 (clock p i) (en_cache n) Hnew). }
  rewrite E in Horder |- *.
  destruct (latest_stored sha256 s u text h 200 (clock p i) age now order (en_cache n)) as [Hok El]; [done..|].
  split; [exact Hok|]. exists m. split; [exact El|done].
Qed.

End laws.

(** ** Concrete nodes *)

Definition has_metadata (fs : cache) (key : string * string) : bool :=
  match fs !! key ≫= d_metadata with Some _ => true | None => false end.

(** Some order in which the files of a cache are found. *)
Definition sample_glob (fs : cache) : list (string * string) := List.filter (has_metadata fs) (map_to_list fs).*1.

Lemma sample_glob_ok fs key : key ∈ sample_glob fs ↔ is_Some (fs !! key ≫= d_metadata).
Proof.
  unfold sample_glob. rewrite list_elem_of_In, List.filter_In, <-list_elem_of_In. unfold has_metadata. split.
  - intros [_ H]. destruct (fs !! key ≫= d_metadata); [by eexists|done].
  - intros [f Hf]. split; [|by rewrite Hf]. destruct (fs !! key) as [dir|] eqn:E; [|done].
    apply list_elem_of_fmap. exists (key, dir). split; [done|]. by apply elem_of_map_to_list.
Qed.

Definition sample_arrange (l : list string) : list string := l.

Lemma sample_arrange_ok l : sample_arrange l ≡ₚ l.
Proof. done. Qed.

Definition no_other (_ : string * string) : json := JNull.
Definition no_text (_ : json) : string := "".

Definition sample_directory (s u b : string) : directory :=
  {| d_payload := Some b; d_metadata := Some (Meta (new_metadata sample_hash s u b [] 200 sample_now)) |}.

(** A peer with one snapshot. *)
Definition sample_peer : cache := {[("src", "hone") := sample_directory "src" "http://a" "one"]}.

Fixpoint strip_prefix (p s : string) : option string :=
  match p, s with
  | EmptyString, _ => Some s
  | String c p, String d s => if Ascii.eqb c d then strip_prefix p s else None
  | _, EmptyString => None
  end.

(** The network of a peer that runs this program. *)
Definition network (peer_url : string) (fs : cache) (url : string) : answer :=
  match strip_prefix peer_url url with
  | Some path =>
      match strip_prefix "/v1/edge/sync/" path with
      | Some i => edge_sync_endpoint sample_glob no_other true i fs
      | None => if str_eqb path "/v1/edge/manifest" then edge_manifest_endpoint sample_glob no_other true "peer" fs else NoAnswer
      end
  | None => NoAnswer
  end.

Lemma strip_prefix_app p s : strip_prefix p (p +:+ s) = Some s.
Proof. induction p as [|c p IH]; [by destruct s|]. change (strip_prefix (String c p) (String c (p +:+ s)) = Some s). cbn [strip_prefix]. by rewrite Ascii.eqb_refl. Qed.

Lemma network_serves peer_url fs : serves sample_glob no_other (network peer_url fs) peer_url "peer" fs.
Proof. split; [|intros i _]; unfold network; by rewrite strip_prefix_app. Qed.

Lemma sample_segments i : i ∈ ids sample_glob sample_peer → segment i = true.
Proof. revert i. apply Forall_forall. apply (bool_decide_unpack _). vm_compute. exact I. Qed.

Lemma sample_peer_ok : cache_ok sample_hash sample_peer.
Proof.
  intros key dir H. unfold sample_peer in H. apply lookup_singleton_Some in H as [<- <-]. split; cbn.
  - by intros b [= <-].
  - intros f [= <-]. eexists. split; [done|]. split; [by eexists|]. split_and!; done.
Qed.

Lemma sample_no_collision s b : held sample_peer s b → "src-hone" ≠ copy_id sample_hash s b.
Proof.
  intros (key & m & Em & Es & Hb). unfold meta_at in Em. destruct (sample_peer !! key) as [dir|] eqn:E; [|done].
  unfold sample_peer in E. apply lookup_singleton_Some in E as [<- <-]. cbn in Em, Hb. injection Em as <-. injection Hb as <-. subst s. by vm_compute.
Qed.

Lemma sample_listed : "src-hone" ∈ ids sample_glob sample_peer.
Proof. apply (bool_decide_unpack _). vm_compute. exact I. Qed.

Lemma empty_not_listed i : i ∉ ids sample_glob ∅.
Proof. change (i ∉ []). by intros ?%elem_of_nil. Qed.

Lemma empty_ok : cache_ok sample_hash ∅.
Proof. by intros key dir ?%lookup_empty_Some. Qed.

Definition first_clock (_ : string) : datetime := sample_now.
Definition second_clock (_ : string) : datetime := later_now.

Lemma first_clock_timely : timely_clock first_clock.
Proof. intros i. split; [done|]. split; by vm_compute. Qed.

(** A node that fetches the only snapshot of a peer, and does not have it afterwards. *)
Lemma gossip_never_replicates_witness : ∃ out fs',
  sync_with_peer sample_hash sample_glob sample_arrange no_other no_text (network "http://b" sample_peer) first_clock "me" "http://b" ∅ = (out, fs') ∧
  "src-hone" ∉ ids sample_glob fs'.
Proof.
  destruct (gossip_never_replicates sample_hash sample_glob sample_arrange no_other no_text sample_glob_ok sample_arrange_ok
    (network "http://b" sample_peer) "http://b" "peer" sample_peer sample_peer_ok (network_serves "http://b" sample_peer) sample_segments
    first_clock "me" ∅ empty_ok first_clock_timely) as (out & fs' & E & _ & _ & _ & _ & H).
  exists out, fs'. split; [exact E|]. exact (H "src-hone" sample_listed (empty_not_listed "src-hone") sample_no_collision).
Defined.

Lemma gossip_stuck_witness : ∃ fs',
  sync_with_peer sample_hash sample_glob sample_arrange no_other no_text (network "http://b" sample_peer) first_clock "me" "http://b" ∅ = (Synced, fs') ∧
  sync_with_peer sample_hash sample_glob sample_arrange no_other no_text (network "http://b" sample_peer) second_clock "me" "http://b" fs' = (Failed, fs').
Proof.
  destruct (sync_with_peer sample_hash sample_glob sample_arrange no_other no_text (network "http://b" sample_peer) first_clock "me" "http://b" ∅)
    as [out fs'] eqn:E.
  assert (out = Synced) as ->.
  { assert (H : (sync_with_peer sample_hash sample_glob sample_arrange no_other no_text (network "http://b" sample_peer) first_clock "me" "http://b" ∅).1 = Synced)
      by (vm_compute; reflexivity). rewrite E in H. exact H. }
  exists fs'. split; [reflexivity|].
  apply (gossip_stuck sample_hash sample_glob sample_arrange no_other no_text sample_glob_ok sample_arrange_ok
    (network "http://b" sample_peer) "http://b" "peer" sample_peer sample_peer_ok (network_serves "http://b" sample_peer) sample_segments
    first_clock second_clock "me" ∅ fs' "src-hone").
  - exact empty_ok.
  - exact first_clock_timely.
  - exact sample_listed.
  - apply empty_not_listed.
  - exact sample_no_collision.
  - exact E.
  - intros j. discriminate.
Defined.

(** A peer whose only answer has no metadata. *)
Definition malformed (url : string) : answer :=
  if str_eqb url "http://b/v1/edge/manifest" then
    Answer 200 (Ok (JObj (list_to_map [("peer_id", JStr "peer"); ("snapshot_ids", JArr [JStr "src-h"])])))
  else Answer 200 (Ok (JObj ∅)).

Definition running_node : EdgeNode := start (add_peer "http://b/" (new_EdgeNode "me" ∅)).

Lemma malformed_answer_kills_witness :
  (stop (run_event sample_hash sample_glob sample_arrange no_other no_text
     (loop_round sample_hash sample_glob sample_arrange no_other no_text malformed (λ _, first_clock) running_node) Start)).1 =
  Raise (KeyError "metadata").
Proof.
  apply (malformed_answer_kills sample_hash sample_glob sample_arrange no_other no_text sample_glob_ok sample_arrange_ok
    malformed (λ _, first_clock) running_node "http://b" [] "src-h" [Start]); try reflexivity.
  - exact empty_ok.
  - apply empty_not_listed.
Defined.

(** A peer that offers a text under the name of another source. *)
Definition attacker (url : string) : answer :=
  if str_eqb url "http://evil/v1/edge/manifest" then
    Answer 200 (Ok (JObj (list_to_map [("peer_id", JStr "peer"); ("snapshot_ids", JArr [JStr "x"])])))
  else Answer 200 (Ok (invented "eccc-geomet-alerts" "https://api.weather.gc.ca" "{}")).

Definition victim : EdgeNode := start (new_EdgeNode "me" ∅).

Definition poisoned : EdgeNode :=
  loop_round sample_hash sample_glob sample_arrange no_other no_text attacker (λ _, first_clock)
    (edge_add_peer_endpoint true [("url", "http://evil/")] victim).2.

Lemma poisoned_files d : d ∈ ["h{}"] ↔ is_Some (snapshot_at "eccc-geomet-alerts" (en_cache poisoned) d).
Proof.
  assert (en_cache poisoned = (Cache.store sample_hash "eccc-geomet-alerts" "https://api.weather.gc.ca" "{}" [("content-type", "")] 200 sample_now ∅).2)
    as -> by (vm_compute; reflexivity).
  rewrite (store_fresh sample_hash "eccc-geomet-alerts" "https://api.weather.gc.ca" "{}" [("content-type", "")] 200 sample_now ∅) by done. cbn [snd].
  unfold snapshot_at. rewrite list_elem_of_singleton. split.
  - intros ->. rewrite lookup_insert_eq. by eexists.
  - intros [m H]. destruct (decide (("eccc-geomet-alerts", sample_hash "{}") = ("eccc-geomet-alerts", d))) as [[= <-]|Hne]; [done|].
    by rewrite lookup_insert_ne, lookup_empty in H by done.
Qed.

Lemma unauthenticated_poison_witness : ∃ m,
  latest sample_hash "eccc-geomet-alerts" (Some "https://api.weather.gc.ca") (Some (lit 6%Q)) later_now ["h{}"]
    (en_cache (loop_round sample_hash sample_glob sample_arrange no_other no_text attacker (λ _, first_clock)
       (edge_add_peer_endpoint true [("url", "http://evil/")] victim).2)) = Ok (Some (m, "{}")).
Proof.
  destruct (unauthenticated_poison sample_hash sample_glob sample_arrange no_other no_text sample_glob_ok sample_arrange_ok
    attacker (λ _, first_clock) victim "http://evil" "eccc-geomet-alerts" "https://api.weather.gc.ca" "{}" "x" "http://evil/"
    (Some (lit 6%Q)) later_now ["h{}"]) as (_ & m & H & _ & _).
  - exact empty_ok.
  - reflexivity.
  - reflexivity.
  - reflexivity.
  - reflexivity.
  - reflexivity.
  - reflexivity.
  - apply empty_not_listed.
  - reflexivity.
  - reflexivity.
  - reflexivity.
  - exact (proj2 (first_clock_timely "x")).
  - split; vm_compute; discriminate.
  - intros d m H. discriminate H.
  - vm_compute. reflexivity.
  - exact poisoned_files.
  - exists m. exact H.
Defined.

(** Two nodes that gossip with each other copy the copies, each twice as long. *)
Definition exchange (clock : string → datetime) (local remote : cache) : cache :=
  (sync_with_peer sample_hash sample_glob (@rev string) no_other no_text (network "http://b" remote) clock "me" "http://b" local).2.

Definition bodies_of (fs : cache) : list string := omap (λ kd, d_payload kd.2) (map_to_list fs).

Example gossip_doubles :
  let b1 := exchange first_clock ∅ sample_peer in
  let a1 := exchange first_clock sample_peer b1 in
  let b2 := exchange second_clock b1 a1 in
  bodies_of b1 = [hex "one"] ∧ bodies_of a1 = ["one"; hex (hex "one")] ∧ bodies_of b2 = [hex (hex (hex "one")); hex "one"].
Proof. split_and!; vm_compute; reflexivity. Qed.

(** The models a fleet may fetch are the staged ones, by first staging. *)
Example staged_models (p q : ModelPayload) : mp_model_id p = "a" → mp_model_id q = "b" →
  (λ o : object, o !! "models_available") <$>
    get_delta_sync "d" "h" (deploy_model p (deploy_model q (deploy_model p (register_device "d" (new_IoTMeshNode "f"))))) =
  Ok (Some (JArr [JStr "a"; JStr "b"])) ∧
  get_delta_sync "e" "h" (register_device "d" (new_IoTMeshNode "f")) = Raise (ValueError "Unknown device").
Proof. intros Hp Hq. unfold deploy_model. rewrite Hp, Hq. split; reflexivity. Qed.
