(* ===== verification/PublicData.v ===== *)
(** * public_data.py: the snapshot-first client of public sources

    [fetch_url] answers from the cache of [Cache] while a snapshot is fresh, and otherwise
    asks the source, stores what it gets and summarises it.  The HTTP client is a
    function from the attempt, the URL and the headers to a response ([http]); the
    decoders of JSON, CSV, XML and ZIP are the class [Decoders], the environment an
    argument.  Text is UTF-8 bytes. *)

From Stdlib Require Import ZArith QArith Ascii.
From S2P Require Import Prelude PyFloat PyFormat Domain State Cache.
From S2P Require Edge.

Open Scope Z_scope.

(** ** Sources *)

Inductive Parser := PJson | PCsv | PRss | PGeojson | PXlsx.
Inductive KeyLocation := Header | Query.

#[export] Instance Parser_eq_dec : EqDecision Parser.
Proof. solve_decision. Defined.

Definition Parser_value (p : Parser) : string :=
  match p with PJson => "json" | PCsv => "csv" | PRss => "rss" | PGeojson => "geojson" | PXlsx => "xlsx" end.

Record PublicSourceSpec := {
  ps_source_id : string;
  ps_name : string;
  ps_url : string;
  ps_method : string;
  ps_key_env : option string;
  ps_key_location : KeyLocation;
  ps_freshness_hours : float;
  ps_licence : string;
  ps_parser : Parser
}.

Definition spec (source_id name url : string) (key_env : option string) (key_location : KeyLocation)
    (freshness_hours : float) (licence : string) (parser : Parser) : PublicSourceSpec :=
  {| ps_source_id := source_id; ps_name := name; ps_url := url; ps_method := "GET"; ps_key_env := key_env;
     ps_key_location := key_location; ps_freshness_hours := freshness_hours; ps_licence := licence; ps_parser := parser |}.

Definition PUBLIC_SOURCE_SPECS : dict string PublicSourceSpec :=
  [
   ("eccc-geomet-alerts", spec "eccc-geomet-alerts"
      "ECCC MSC GeoMet weather alerts"
      "https://api.weather.gc.ca/collections/weather-alerts/items?f=json&limit=100"
      None Header (lit 6)
      "MSC Datamart End-User Licence / Government of Canada terms" PGeojson);
   ("dfo-iwls", spec "dfo-iwls"
      "DFO Canadian Hydrographic Service Integrated Water Level System"
      "https://api-iwls.dfo-mpo.gc.ca/api/v1/"
      None Header (lit 1)
      "CHS IWLS public web-service licence; QC flags and official tide-table terms apply" PJson);
   ("canadian-disaster-database", spec "canadian-disaster-database"
      "Public Safety Canada Canadian Disaster Database"
      "https://open.canada.ca/data/dataset/1c3d15f9-9cfa-4010-8462-0d67e493d9b9/resource/c701e05e-4554-4c96-b7c9-0ec4a845fe91/download/cdd-extract-1.xlsx"
      None Header (lit 720)
      "Open Government Licence - Canada; CDD warns aggregated data may include third-party restrictions and is not a primary source" PXlsx);
   ("statcan-wds", spec "statcan-wds"
      "Statistics Canada WDS cube catalogue"
      "https://www150.statcan.gc.ca/t1/wds/rest/getAllCubesListLite"
      None Header (lit 48)
      "Statistics Canada / Open Government Licence where applicable" PJson);
   ("ccg-icebreaking", spec "ccg-icebreaking"
      "Canadian Coast Guard Icebreaking Operations & Escort Status"
      "https://inter-j01.dfo-mpo.gc.ca/opendata/ccg-ice-ops.json"
      None Header (lit 6)
      "Open Government Licence - Canada (CCG Maritime Services)" PJson);
   ("nrcan-critical-minerals", spec "nrcan-critical-minerals"
      "Natural Resources Canada Critical Minerals & Mines Infrastructure"
      "https://geoscan.nrcan.gc.ca/api/critical-minerals.json"
      None Header (lit 168)
      "Open Government Licence - Canada (NRCan Minerals and Metals)" PJson);
   ("slsmc-lock-status", spec "slsmc-lock-status"
      "Great Lakes St. Lawrence Seaway Lock Transit & Water Levels"
      "https://greatlakes-seaway.com/api/v1/lock-operations.json"
      None Header (lit 4)
      "St. Lawrence Seaway Management Corporation terms" PJson);
   ("copernicus-cdse-stac", spec "copernicus-cdse-stac"
      "Copernicus CDSE STAC catalogue"
      "https://stac.dataspace.copernicus.eu/v1/collections"
      None Header (lit 24)
      "Copernicus free/open data policy and service terms" PJson);
   ("usgs-water", spec "usgs-water"
      "USGS Water Data OGC collections"
      "https://api.waterdata.usgs.gov/ogcapi/v0/collections"
      None Header (lit 24)
      "USGS public data and API terms" PJson);
   ("noaa-swpc", spec "noaa-swpc"
      "NOAA Space Weather scales"
      "https://services.swpc.noaa.gov/products/noaa-scales.json"
      None Header (lit 6)
      "NOAA public data" PJson);
   ("gdacs", spec "gdacs"
      "Global Disaster Alert and Coordination System events"
      "https://www.gdacs.org/gdacsapi/api/events/geteventlist/SEARCH"
      None Header (lit 6)
      "GDACS public API terms" PGeojson);
   ("reliefweb", spec "reliefweb"
      "UN OCHA ReliefWeb reports"
      "https://api.reliefweb.int/v2/reports?appname={KEY}&limit=10"
      (Some "RELIEFWEB_APPNAME") Query (lit 12)
      "ReliefWeb API terms; read-only public archive" PJson);
   ("openalex", spec "openalex"
      "OpenAlex scholarly metadata"
      "https://api.openalex.org/works?search=critical%20infrastructure&per-page=10"
      None Header (lit 72)
      "OpenAlex terms and source-level licences" PJson);
   ("gdelt", spec "gdelt"
      "GDELT public event/news context"
      "https://api.gdeltproject.org/api/v2/doc/doc?query=Canada%20Arctic&mode=ArtList&format=json&maxrecords=50"
      None Header (lit 6)
      "GDELT public access; respect source/news rights and rate limits" PJson);
   ("nasa-firms", spec "nasa-firms"
      "NASA FIRMS active fire data"
      "https://firms.modaps.eosdis.nasa.gov/api/area/csv/{MAP_KEY}/VIIRS_SNPP_NRT/-141,41,-52,84/1"
      (Some "NASA_FIRMS_MAP_KEY") Header (lit 6)
      "NASA FIRMS terms; free MAP_KEY required" PCsv)].

Record PublicSnapshot := {
  pn_source_id : string;
  pn_snapshot_id : string;
  pn_content_sha256 : string;
  pn_retrieved_at : datetime;
  pn_status_code : Z;
  pn_parser : Parser;
  pn_record_count : Z;
  pn_freshness_hours : float;
  pn_quality_flags : list string
}.

(** ** Text *)

(** [s.replace(old, new)] for a text [old] that is not empty: [skip] bytes belong to an
    occurrence already replaced. *)
Fixpoint replace_from (old new : string) (skip : nat) (s : string) : string :=
  match s with
  | EmptyString => EmptyString
  | String c rest =>
      match skip with
      | S k => replace_from old new k rest
      | O => if String.prefix old s then new +:+ replace_from old new (String.length old - 1) rest
             else String c (replace_from old new 0 rest)
      end
  end.

Definition str_replace (old new s : string) : string := replace_from old new 0 s.

Definition str_in (needle s : string) : bool := match String.index 0 needle s with Some _ => true | None => false end.

(** ** XML *)

(** An element: its tag, attributes, text and children. *)
Inductive xml := Xml (tag : string) (attrs : dict string string) (text : option string) (children : list xml).

Definition xml_tag (e : xml) : string := match e with Xml tag _ _ _ => tag end.
Definition xml_get (e : xml) (name : string) : option string := match e with Xml _ attrs _ _ => dget attrs name end.
Definition xml_text (e : xml) : option string := match e with Xml _ _ text _ => text end.
Definition xml_children (e : xml) : list xml := match e with Xml _ _ _ children => children end.

(** [e.iter()]: the element and its descendants, in document order. *)
Fixpoint xml_all (e : xml) : list xml := match e with Xml _ _ _ children => e :: flat_map xml_all children end.

Definition has_tag (tag : string) (e : xml) : bool := str_eqb (xml_tag e) tag.
Definition xml_iter (tag : string) (e : xml) : list xml := List.filter (has_tag tag) (xml_all e).
(** [e.findall(tag)], [e.find(tag)] and [e.findall(".//tag")] *)
Definition findall (tag : string) (e : xml) : list xml := List.filter (has_tag tag) (xml_children e).
Definition find_child (tag : string) (e : xml) : option xml := List.find (has_tag tag) (xml_children e).
Definition descendants (tag : string) (e : xml) : list xml := flat_map (xml_iter tag) (xml_children e).

(** [ElementTree.fromstring]: a tree, a [ParseError] or another exception. *)
Inductive xml_result := Tree (root : xml) | XmlParseError | XmlRaises (e : exn).

(** What the code catches together: [ValueError] with its subclasses. *)
Definition value_error_b (e : exn) : bool := match e with ValueError _ | ValidationError _ => true | _ => false end.

(** ** Worksheets *)

Definition xlsx_ns (tag : string) : string := "{http://schemas.openxmlformats.org/spreadsheetml/2006/main}" +:+ tag.

Definition is_alpha (c : ascii) : bool :=
  let n := N_of_ascii c in ((65 <=? n) && (n <=? 90) || (97 <=? n) && (n <=? 122))%N.

(** The loop over the letters of a cell reference. *)
Fixpoint column_from (column : Z) (reference : string) : Z :=
  match reference with
  | EmptyString => column
  | String c rest =>
      if is_alpha c then column_from (column * 26 + Z.of_N (N_of_ascii (upper_ascii c)) - 65 + 1) rest else column
  end.

Definition column_of (reference : string) : Z := column_from 0 reference.

(** [x or d] for an optional text *)
Definition text_or (o : option string) (d : string) : string :=
  match o with Some s => if str_empty s then d else s | None => d end.

(** [l[i]] for any integer: a negative index counts from the end. *)
Definition py_index {A} (l : list A) (i : Z) : res A :=
  if 0 <=? i then index l (Z.to_nat i)
  else if - Z.of_nat (length l) <=? i then index l (Z.to_nat (Z.of_nat (length l) + i)) else Raise IndexError.

Definition join_texts (l : list xml) : string := str_join "" ((λ e, text_or (xml_text e) "") <$> l).

(** One cell: its column and its text. *)
Definition cell_value (shared : list string) (cell : xml) : res (Z * string) :=
  let column := column_of (text_or (xml_get cell "r") "A1") in
  let text := match find_child (xlsx_ns "v") cell with Some v => default "" (xml_text v) | None => "" end in
  let t := xml_get cell "t" in
  if bool_decide (t = Some "s") && negb (str_empty text) then
    index ← int_of_str text;
    text ← (if index <? Z.of_nat (length shared) then py_index shared index else Ok "");
    Ok (column, text)
  else
    match find_child (xlsx_ns "is") cell with
    | Some inline => if bool_decide (t = Some "inlineStr") then Ok (column, join_texts (xml_iter (xlsx_ns "t") inline)) else Ok (column, text)
    | None => Ok (column, text)
    end.

(** [[cells.get(index, "") for index in range(1, max(cells) + 1)]] *)
Definition dense_row (cells : dict Z string) : list string :=
  let last := foldl Z.max 0 (dkeys cells) in
  (λ i, dget_default cells (Z.of_nat i) "") <$> seq 1 (Z.to_nat last).

Definition row_step (shared : list string) (rows : list (list string)) (row : xml) : res (list (list string)) :=
  cells ← foldM (λ cells cell, '(column, text) ← cell_value shared cell; Ok (dset cells column text)) [] (findall (xlsx_ns "c") row);
  Ok (match cells with [] => rows | _ => rows ++ [dense_row cells] end).

(** A row under its headers. *)
Definition labelled (headers row : list string) : dict string string :=
  foldl (λ d hv, if str_empty hv.1 then d else dset d hv.1 hv.2) [] (zip headers row).

Record http_response := { hr_status : Z; hr_headers : dict string string; hr_content : string }.

(** The decoders of the standard library, and the exceptions of [ElementTree] and of the
    HTTP client. *)
Class Decoders := {
  unzip : string → res (dict string (res string));
  fromstring : string → xml_result;
  parse_error : exn;
  loads : string → res json;
  decode_sig : string → res string;
  decode : string → res string;
  csv_rows : string → res Z;
  float_of_str : string → res float;
  str_exn : exn → string;
  http_status_error : Z → exn
}.

Section public_data.
Context `{Decoders}.

(** [ElementTree.fromstring]; [ParseError] is a [SyntaxError]. *)
Definition parse_xml (s : string) : res xml :=
  match fromstring s with Tree e => Ok e | XmlParseError => Raise parse_error | XmlRaises e => Raise e end.

(** [_xlsx_rows]: the first worksheet as dictionaries. *)
Definition xlsx_rows (body : string) : res (list (dict string string)) :=
  archive ← unzip body;
  shared ← match dget archive "xl/sharedStrings.xml" with
           | Some contents =>
               contents ← contents; root ← parse_xml contents;
               Ok ((λ item, join_texts (xml_iter (xlsx_ns "t") item)) <$> findall (xlsx_ns "si") root)
           | None => Ok []
           end;
  contents ← match dget archive "xl/worksheets/sheet1.xml" with
             | Some contents => contents
             | None => Raise (ValueError "XLSX workbook has no first worksheet")
             end;
  sheet ← parse_xml contents;
  rows ← foldM (row_step shared) [] (descendants (xlsx_ns "row") sheet);
  match rows with
  | [] => Ok []
  | headers :: rows => Ok (labelled (str_strip <$> headers) <$> rows)
  end.

(** ** Counting the records of a payload *)

Definition empty_flag (n : Z) : list string := if n =? 0 then ["empty_dataset"] else [].

(** [len(v)] and the truth of it, of a JSON value *)
Definition json_len (v : json) : res Z :=
  match v with
  | JArr l => Ok (Z.of_nat (length l))
  | JObj m => Ok (Z.of_nat (size m))
  | JStr s => Ok (str_len s)
  | _ => Raise (TypeError "object has no len()")
  end.

Definition falsy (v : json) : bool :=
  match v with
  | JNull => true | JBool b => negb b | JNum z => z =? 0 | JFloat x => (x =? f0)%F | JStr s => str_empty s
  | JArr l => match l with [] => true | _ => false end
  | JObj m => bool_decide (m = ∅)
  end.

Definition is_list (v : json) : bool := match v with JArr _ => true | _ => false end.

(** The value whose length is the number of records. *)
Definition record_list (geojson : bool) (payload : object) : json :=
  if geojson && eq_str (dict_get payload "type") "FeatureCollection" then default (JArr []) (payload !! "features")
  else match List.find (λ k, is_list (dict_get payload k)) ["features"; "data"; "items"; "results"; "collections"] with
       | Some k => dict_get payload k
       | None => JArr [JObj payload]
       end.

Definition json_records (geojson : bool) (payload : json) : res (Z * list string) :=
  match payload with
  | JArr l => let n := Z.of_nat (length l) in Ok (n, empty_flag n)
  | JObj m =>
      let rows := record_list geojson m in
      n ← json_len rows; Ok (n, if falsy rows then ["empty_dataset"] else [])
  | _ => Raise (ValueError "JSON payload must be an object or array")
  end.

(** The decoding of [_summarize] and [_records]. *)
Definition records (parser : Parser) (body : string) : res (Z * list string) :=
  match parser with
  | PXlsx => rows ← xlsx_rows body; let n := Z.of_nat (length rows) in Ok (n, empty_flag n)
  | PCsv => payload ← decode_sig body; n ← csv_rows payload; Ok (n, empty_flag n)
  | PRss => payload ← decode body; root ← parse_xml payload; Ok (Z.of_nat (length (descendants "item" root)), [])
  | PJson => payload ← loads body; json_records false payload
  | PGeojson => payload ← loads body; json_records true payload
  end.

(** What [_summarize] catches: also [ElementTree.ParseError]. *)
Definition summarize_catches (e : exn) : bool := value_error_b e || bool_decide (e = parse_error).

Definition summarize (sp : PublicSourceSpec) (m : SnapshotMetadata) (body : string) (from_cache : bool) (parser : option Parser)
    : res PublicSnapshot :=
  let active_parser := default (ps_parser sp) parser in
  '(record_count, flags) ← match records active_parser body with
                           | Ok r => Ok r
                           | Raise e => if summarize_catches e
                                        then Raise (ValueError (ps_source_id sp +:+ " payload validation failed: " +:+ str_exn e))
                                        else Raise e
                           end;
  Ok {| pn_source_id := ps_source_id sp; pn_snapshot_id := sm_snapshot_id m; pn_content_sha256 := sm_content_sha256 m;
        pn_retrieved_at := sm_retrieved_at m; pn_status_code := sm_status_code m; pn_parser := active_parser;
        pn_record_count := record_count; pn_freshness_hours := ps_freshness_hours sp;
        pn_quality_flags := flags ++ (if from_cache then ["snapshot_cache"] else []) |}.

Definition summarize_snapshot (source_id : string) (m : SnapshotMetadata) (body : string) : res PublicSnapshot :=
  match dget PUBLIC_SOURCE_SPECS source_id with
  | Some sp => summarize sp m body true None
  | None => Raise (KeyError source_id)
  end.

(** ** The plane *)

Context (sha256 : string → string) (environ : string → option string).
Context (http : nat → string → dict string string → res http_response).

(** The settings of a plane. *)
Record plane := { pl_outbound_enabled : bool; pl_max_payload_bytes : Z }.

Definition retryable (status : Z) : bool := bool_decide (status ∈ [429; 500; 502; 503; 504]).

(** [max(0.1, min(float(retry_after), 5.0))] *)
Definition retry_delay (r : http_response) : res float :=
  x ← float_of_str (dget_default (hr_headers r) "retry-after" "1");
  Ok (fmax (lit 0.1) (fmin (lit 5) x)).

(** [for attempt in range(3)]: the last response, after the waits. *)
Fixpoint attempts (remaining attempt : nat) (url : string) (headers : dict string string) : res (http_response * list float) :=
  match remaining with
  | O => Raise OutOfFuel
  | S remaining =>
      response ← http attempt url headers;
      if negb (retryable (hr_status response)) || Nat.eqb attempt 2 then Ok (response, [])
      else delay ← retry_delay response; '(response, delays) ← attempts remaining (S attempt) url headers; Ok (response, delay :: delays)
  end.

(** [response.raise_for_status()]: every status but 2xx raises. *)
Definition raise_for_status (r : http_response) : res unit :=
  raise_if (negb ((200 <=? hr_status r) && (hr_status r <=? 299))) (http_status_error (hr_status r)).

Definition user_agent : string := "ContinuityOS-Reference/0.1 (+public-data; contact operator)".

(** The URL and the headers of the request; the environment may hold the key. *)
Definition prepare_request (sp : PublicSourceSpec) (source_id url : string) : res (string * dict string string) :=
  let headers := [("User-Agent", user_agent)] in
  match ps_key_env sp with
  | Some name =>
      if str_empty name then Ok (url, headers)
      else
        let key := str_strip (default "" (environ name)) in
        _ ← raise_if (str_empty key) (RuntimeError (source_id +:+ " requires protected environment key " +:+ name));
        Ok (match ps_key_location sp with
            | Header => (url, dset headers "X-Api-Key" key)
            | Query => (str_replace "{KEY}" key (str_replace "{MAP_KEY}" key url), headers)
            end)
  | None =>
      _ ← raise_if (str_in "{MAP_KEY}" url || str_in "{KEY}" url) (RuntimeError (source_id +:+ " requires a protected environment value"));
      Ok (url, headers)
  end.

(** The request and its checks. *)
Definition download (pl : plane) (sp : PublicSourceSpec) (source_id url : string) : res http_response :=
  _ ← raise_if (negb (pl_outbound_enabled pl)) (RuntimeError "outbound HTTP disabled; import or use an existing snapshot");
  '(request_url, headers) ← prepare_request sp source_id url;
  '(response, _) ← attempts 3 0 request_url headers;
  _ ← raise_for_status response;
  _ ← raise_if (pl_max_payload_bytes pl <? Z.of_nat (String.length (hr_content response)))
        (ValueError "public source payload exceeds configured size limit");
  Ok response.

(** [now] is the instant at which the ages are computed, [stored_at] that of the store,
    [order] the order in which the directories of the source are found. *)
Definition fetch_url (pl : plane) (source_id url : string) (force : bool) (parser : option Parser) (now stored_at : datetime)
    (order : list string) (fs : cache) : res PublicSnapshot * cache :=
  match dget PUBLIC_SOURCE_SPECS source_id with
  | None => (Raise (ValueError ("source is not allow-listed: " +:+ source_id)), fs)
  | Some sp =>
      let active_parser := default (ps_parser sp) parser in
      match (if force then Ok None else latest sha256 source_id (Some url) (Some (ps_freshness_hours sp)) now order fs) with
      | Raise e => (Raise e, fs)
      | Ok (Some (m, body)) => (summarize sp m body true (Some active_parser), fs)
      | Ok None =>
          match download pl sp source_id url with
          | Raise e => (Raise e, fs)
          | Ok response =>
              let '(m, fs) := store sha256 source_id url (hr_content response) (hr_headers response) (hr_status response) stored_at fs in
              ((m ← m; summarize sp m (hr_content response) false (Some active_parser)), fs)
          end
      end
  end.

Definition fetch (pl : plane) (source_id : string) (force : bool) (now stored_at : datetime) (order : list string) (fs : cache)
    : res PublicSnapshot * cache :=
  match dget PUBLIC_SOURCE_SPECS source_id with
  | None => (Raise (ValueError ("source is not allow-listed: " +:+ source_id)), fs)
  | Some sp => fetch_url pl source_id (ps_url sp) force None now stored_at order fs
  end.

End public_data.

(** ** The columns of a worksheet *)

(** The letter of a digit from 1 to 26. *)
Definition letter (d : Z) : ascii := ascii_of_N (Z.to_N (d + 64)).

(** The name of a column in front of a text: digits from 1 to 26 in base 26. *)
Fixpoint column_name (fuel : nat) (n : Z) (rest : string) : string :=
  match fuel with
  | O => rest
  | S fuel => if n <=? 0 then rest else column_name fuel ((n - 1) / 26) (String (letter ((n - 1) mod 26 + 1)) rest)
  end.

Definition no_letter (s : string) : bool := match s with String c _ => negb (is_alpha c) | EmptyString => true end.

Lemma letter_ok d : 1 <= d <= 26 → is_alpha (letter d) = true ∧ Z.of_N (N_of_ascii (upper_ascii (letter d))) = d + 64.
Proof.
  intros Hd. assert (Forall (λ d, is_alpha (letter d) = true ∧ Z.of_N (N_of_ascii (upper_ascii (letter d))) = d + 64) (Z.of_nat <$> seq 1 26)) as F
    by (repeat constructor).
  rewrite Forall_forall in F. apply F, list_elem_of_fmap. exists (Z.to_nat d). split; [lia|]. apply elem_of_seq. lia.
Qed.

Lemma column_from_name fuel n rest : 0 <= n < 26 ^ Z.of_nat fuel → column_from 0 (column_name fuel n rest) = column_from n rest.
Proof.
  revert n rest. induction fuel as [|fuel IH]; intros n rest Hn; cbn [column_name].
  { assert (n = 0) as -> by (cbn in Hn; lia). done. }
  destruct (n <=? 0) eqn:E; [apply Z.leb_le in E; by assert (n = 0) as -> by lia|]. apply Z.leb_gt in E.
  pose proof (Z.div_mod (n - 1) 26 ltac:(lia)) as D. pose proof (Z.mod_pos_bound (n - 1) 26 ltac:(lia)) as B.
  rewrite Nat2Z.inj_succ, Z.pow_succ_r in Hn by lia. rewrite IH.
  - cbn [column_from]. destruct (letter_ok ((n - 1) mod 26 + 1)) as [-> ->]; [lia|]. f_equal. lia.
  - split; [apply Z.div_pos; lia|]. apply Z.div_lt_upper_bound; lia.
Qed.

(** The column read from a cell reference is the one its letters name: reading is the
    inverse of naming for every column, whatever row number follows. *)
Theorem column_roundtrip fuel n row : 0 <= n < 26 ^ Z.of_nat fuel → no_letter row = true →
  column_of (column_name fuel n row) = n.
Proof.
  intros Hn Hr. unfold column_of. rewrite column_from_name by done. destruct row as [|c row]; [done|].
  cbn [no_letter] in Hr. apply negb_true_iff in Hr. cbn [column_from]. by rewrite Hr.
Qed.

(** The last column of a sheet. *)
Lemma column_roundtrip_witness : column_name 4 16384 "12" = "XFD12" ∧ column_of (column_name 4 16384 "12") = 16384.
Proof. split; [vm_compute; reflexivity|]. apply (column_roundtrip 4 16384 "12"); [lia|reflexivity]. Defined.

(** ** The waits between attempts *)

Section laws.
Context `{Decoders} (sha256 : string → string) (environ : string → option string).

(** A wait is between a tenth of a second and five. *)
Definition short (d : float) : bool := (lit 0.1 <=? d)%F && (d <=? lit 5)%F.

Lemma retry_delay_short r d : retry_delay r = Ok d → short d = true.
Proof using.
  unfold retry_delay. intros (x & _ & [= <-])%bind_ok. unfold short. apply andb_true_intro. unfold fmax, fmin.
  assert (lit 0.1 <=? lit 5 = true)%F as B by (vm_compute; reflexivity). assert (lit 0.1 <=? lit 0.1 = true)%F as R by (vm_compute; reflexivity).
  destruct (fltb x (lit 5)) eqn:E.
  - destruct (fltb (lit 0.1) x) eqn:E'; split; [by apply fltb_fleb|by apply fltb_fleb|exact R|exact B].
  - destruct (fltb (lit 0.1) (lit 5)) eqn:E'; split; [exact B|vm_compute; reflexivity|exact R|exact B].
Qed.

Lemma attempts_S http remaining attempt url headers : attempts http (S remaining) attempt url headers =
  (response ← http attempt url headers;
   if negb (retryable (hr_status response)) || Nat.eqb attempt 2 then Ok (response, [])
   else delay ← retry_delay response; '(response, delays) ← attempts http remaining (S attempt) url headers; Ok (response, delay :: delays)).
Proof using. reflexivity. Qed.

Lemma attempts_run http url headers remaining attempt r delays : (attempt + remaining = 3)%nat →
  attempts http remaining attempt url headers = Ok (r, delays) →
  (length delays < remaining)%nat ∧ Forall (λ d, short d = true) delays ∧ http (attempt + length delays)%nat url headers = Ok r ∧
  (retryable (hr_status r) = true → (attempt + length delays = 2)%nat).
Proof using.
  revert attempt delays. induction remaining as [|remaining IH]; intros attempt delays Hn; cbn [attempts]; [done|].
  intros (r0 & E0 & E)%bind_ok. destruct (retryable (hr_status r0)) eqn:Er; cbn [negb orb] in E.
  - destruct (Nat.eqb attempt 2) eqn:Ea; cbn in E.
    + injection E as -> <-. apply Nat.eqb_eq in Ea. subst attempt. cbn [length]. split_and!; [lia|constructor|done|done].
    + apply Nat.eqb_neq in Ea. apply bind_ok in E as (d & Ed & E). apply bind_ok in E as ([r1 delays1] & E1 & [= -> <-]).
      destruct (IH (S attempt) delays1 ltac:(lia) E1) as (L & F & Hh & Hr). cbn [length].
      split_and!; [lia|constructor; [by eapply retry_delay_short|done]|by rewrite Nat.add_succ_r|intros Hs; specialize (Hr Hs); lia].
  - cbn in E. injection E as -> <-. cbn [length]. rewrite Nat.add_0_r. split_and!; [lia|constructor|done|by rewrite Er].
Qed.

(** A request is tried at most three times with short waits between, and its response
    is that of the last attempt, retried only while the source is overloaded; it is total
    for a client that answers with readable waits, and a wait that is no number, as a date
    is, raises instead. *)
Theorem attempts_exact http url headers :
  (∀ r delays, attempts http 3 0 url headers = Ok (r, delays) →
     (length delays <= 2)%nat ∧ Forall (λ d, short d = true) delays ∧ http (length delays) url headers = Ok r ∧
     (retryable (hr_status r) = true → length delays = 2%nat)) ∧
  ((∀ i, ∃ r, http i url headers = Ok r ∧ is_ok (retry_delay r) = true) → is_ok (attempts http 3 0 url headers) = true) ∧
  (∀ r e, http 0%nat url headers = Ok r → retryable (hr_status r) = true → retry_delay r = Raise e →
     attempts http 3 0 url headers = Raise e).
Proof using.
  split_and!.
  - intros r delays E. destruct (attempts_run http url headers 3 0 r delays eq_refl E) as (L & F & Hh & Hr). cbn in *. split_and!; [lia|done..].
  - intros Hall. assert (∀ remaining attempt, (attempt + S remaining = 3)%nat → is_ok (attempts http (S remaining) attempt url headers) = true) as G.
    { induction remaining as [|remaining IH]; intros attempt Hn; rewrite attempts_S; destruct (Hall attempt) as (r & -> & Hr); cbn [mbind res_bind].
      - assert (attempt = 2%nat) as -> by lia. by rewrite orb_true_r.
      - destruct (negb _ || _); [done|]. destruct (retry_delay r) as [d|]; [|done]. cbn [mbind res_bind].
        specialize (IH (S attempt) ltac:(lia)). by destruct (attempts http (S remaining) (S attempt) url headers) as [[]|]. }
    by apply G.
  - intros r e E Hr Hd. cbn [attempts]. rewrite E. cbn [mbind res_bind]. rewrite Hr. cbn [negb orb Nat.eqb]. by rewrite Hd.
Qed.

(** ** What a stored snapshot does to the next fetch *)

Local Abbreviation download := (PublicData.download environ).
Local Abbreviation fetch_url := (PublicData.fetch_url sha256 environ).

(** Nothing fresh is found, or nothing is looked for. *)
Definition asks (sp : PublicSourceSpec) (source_id url : string) (force : bool) (now : datetime) (order : list string) (fs : cache) : Prop :=
  force = true ∨ latest sha256 source_id (Some url) (Some (ps_freshness_hours sp)) now order fs = Ok None.

Lemma fetch_asks http pl source_id url force parser now stored order fs sp r :
  dget PUBLIC_SOURCE_SPECS source_id = Some sp → asks sp source_id url force now order fs →
  download http pl sp source_id url = Ok r →
  fetch_url http pl source_id url force parser now stored order fs =
    (let '(m, fs) := store sha256 source_id url (hr_content r) (hr_headers r) (hr_status r) stored fs in
     ((m ← m; summarize sp m (hr_content r) false (Some (default (ps_parser sp) parser))), fs)).
Proof using.
  intros Hsp Hask Hd. unfold PublicData.fetch_url. rewrite Hsp.
  assert ((if force then Ok None else latest sha256 source_id (Some url) (Some (ps_freshness_hours sp)) now order fs) = Ok None) as ->.
  { destruct Hask as [->|Hl]; [done|]. by destruct force. }
  by rewrite Hd.
Qed.

(** A source whose content has not changed cannot be fetched again: once its body is
    in the cache, every request that brings the same body raises a collision and
    changes nothing, when the snapshot has grown stale as well as when it is forced. *)
Theorem unchanged_source_stuck http pl source_id url force parser now stored order fs sp r m :
  dget PUBLIC_SOURCE_SPECS source_id = Some sp → cache_ok sha256 fs → snapshot_at source_id fs (sha256 (hr_content r)) = Some m →
  sm_retrieved_at m ≠ stored → asks sp source_id url force now order fs → download http pl sp source_id url = Ok r →
  fetch_url http pl source_id url force parser now stored order fs = (Raise (ValueError "immutable snapshot collision"), fs).
Proof using.
  intros Hsp Hfs Hm Hne Hask Hd. rewrite (fetch_asks http pl source_id url force parser now stored order fs sp r Hsp Hask Hd).
  unfold snapshot_at in Hm. destruct (fs !! (source_id, sha256 (hr_content r))) as [[payload metadata]|] eqn:E; [|done]. cbn in Hm.
  destruct metadata as [[m0| |]|]; try done. injection Hm as ->.
  destruct (Hfs _ _ E) as [_ Hmeta]. destruct (Hmeta _ eq_refl) as (m0 & [= <-] & [b Hb] & _). cbn in Hb. subst payload.
  destruct (decide (b = hr_content r)) as [->|Hb].
  - by rewrite (store_collides sha256 _ _ _ _ _ _ _ m E Hne).
  - unfold store, store_payload. rewrite (make_directory_some _ _ _ E). cbn [d_payload]. rewrite atomic_write_other by done.
    by rewrite (insert_id _ _ _ E).
Qed.

(** The error of a payload that cannot be read. *)
Definition invalid_payload (sp : PublicSourceSpec) (e : exn) : exn :=
  ValueError (ps_source_id sp +:+ " payload validation failed: " +:+ str_exn e).

Lemma summarize_invalid sp m body from_cache parser e : records (default (ps_parser sp) parser) body = Raise e → summarize_catches e = true →
  summarize sp m body from_cache parser = Raise (invalid_payload sp e).
Proof using. intros E Hc. unfold summarize. by rewrite E, Hc. Qed.

(** An answer that cannot be read is stored before it is looked at: the fetch raises,
    and until the snapshot is stale every later fetch that is not forced raises the same
    error from the cache, whatever the source answers by then. *)
Theorem malformed_answer_blocks http http' pl pl' source_id url force parser now now' stored stored' order order' fs sp r e :
  dget PUBLIC_SOURCE_SPECS source_id = Some sp → cache_ok sha256 fs → asks sp source_id url force now order fs →
  download http pl sp source_id url = Ok r →
  records (default (ps_parser sp) parser) (hr_content r) = Raise e → summarize_catches e = true →
  fs !! (source_id, sha256 (hr_content r)) = None → dt_aware stored = true → calendar stored → calendar now' →
  (∀ d m, snapshot_at source_id fs d = Some m → str_ltb (isoformat (sm_retrieved_at m)) (isoformat stored) = true) →
  fresh_at (Some (ps_freshness_hours sp)) now' stored = true →
  let '(first, fs') := fetch_url http pl source_id url force parser now stored order fs in
  first = Raise (invalid_payload sp e) ∧
  ((∀ d, d ∈ order' ↔ is_Some (snapshot_at source_id fs' d)) →
   fetch_url http' pl' source_id url false parser now' stored' order' fs' = (Raise (invalid_payload sp e), fs')).
Proof using.
  intros Hsp Hfs Hask Hd He Hc Hnew Ha Hcal Hnow Hold Hage.
  rewrite (fetch_asks http pl source_id url force parser now stored order fs sp r Hsp Hask Hd).
  rewrite (store_fresh sha256 _ _ _ _ _ _ _ Hnew). split; [by apply summarize_invalid|]. intros Horder.
  destruct (latest_stored sha256 source_id url (hr_content r) (hr_headers r) (hr_status r) stored (Some (ps_freshness_hours sp)) now' order' fs)
    as [_ El]; [done..|].
  unfold PublicData.fetch_url at 1. rewrite Hsp. unfold files in El. rewrite El. f_equal. by apply summarize_invalid.
Qed.

(** ** From the gossip to the plane *)

Section gossip.
Context (glob : cache → list (string * string)) (arrange : list string → list string).
Context (other_json : string * string → json) (as_text : json → string).
Context (Hglob : ∀ fs key, key ∈ glob fs ↔ is_Some (fs !! key ≫= d_metadata)) (Harrange : ∀ l, arrange l ≡ₚ l).

(** C31. With the gossip enabled, whoever reaches the node, without an API key, has the
    plane report a text of their choice as a genuine snapshot of any listed source,
    without a request to it, until the snapshot is stale. *)
Theorem gossip_feeds_plane get clock n p url i http pl source_id text parser now stored order sp c :
  dget PUBLIC_SOURCE_SPECS source_id = Some sp → records (default (ps_parser sp) parser) text = Ok c →
  cache_ok sha256 (Edge.en_cache n) → Edge.en_running n = true → Edge.en_task n = Some Edge.Looping → Edge.en_peers n = [] →
  str_empty url = false → Edge.rstrip_slash url = p → Edge.lists_one get p i → i ∉ Edge.ids glob (Edge.en_cache n) →
  get (p +:+ "/v1/edge/sync/" +:+ i) = Edge.Answer 200 (Ok (Edge.invented source_id (ps_url sp) text)) →
  Edge.en_cache n !! (source_id, sha256 text) = None → dt_aware (clock p i) = true → calendar (clock p i) → calendar now →
  (∀ d m, snapshot_at source_id (Edge.en_cache n) d = Some m → str_ltb (isoformat (sm_retrieved_at m)) (isoformat (clock p i)) = true) →
  fresh_at (Some (ps_freshness_hours sp)) now (clock p i) = true →
  let n' := Edge.loop_round sha256 glob arrange other_json as_text get clock (Edge.edge_add_peer_endpoint true [("url", url)] n).2 in
  (∀ d, d ∈ order ↔ is_Some (snapshot_at source_id (Edge.en_cache n') d)) →
  ∃ snapshot, fetch_url http pl source_id (ps_url sp) false parser now stored order (Edge.en_cache n') = (Ok snapshot, Edge.en_cache n') ∧
    pn_source_id snapshot = ps_source_id sp ∧ pn_record_count snapshot = c.1 ∧ pn_quality_flags snapshot = c.2 ++ ["snapshot_cache"].
Proof using Hglob Harrange.
  intros Hsp Hrec Hfs Hr Ht Hp Hurl Hstrip Hl Hi Hget Hnew Ha Hc Hnow Hold Hage n' Horder.
  destruct (Edge.unauthenticated_poison sha256 glob arrange other_json as_text Hglob Harrange get clock n p source_id (ps_url sp) text i url
    (Some (ps_freshness_hours sp)) now order) as (_ & m & El & _); [done..|].
  unfold PublicData.fetch_url. rewrite Hsp. fold n' in El. rewrite El. unfold summarize. rewrite (Hrec : records (default _ (Some _)) text = Ok c).
  destruct c as [count flags]. cbn [mbind res_bind]. eexists. split; [reflexivity|]. done.
Qed.

End gossip.

End laws.

(** ** A concrete client *)

(** Decoders that read two JSON texts and one number. *)
Definition sample_loads (s : string) : res json :=
  if str_eqb s "{}" then Ok (JObj ∅) else if str_eqb s "[]" then Ok (JArr []) else Raise (ValueError "Expecting value").
Definition sample_float (s : string) : res float :=
  if str_eqb s "1" then Ok f1 else Raise (ValueError "could not convert string to float").

#[local] Instance sample_decoders : Decoders := {|
  unzip := λ _, Raise (RuntimeError "BadZipFile"); fromstring := λ _, XmlParseError; parse_error := RuntimeError "ParseError";
  loads := sample_loads; decode_sig := λ s, Ok s; decode := λ s, Ok s; csv_rows := λ _, Ok 0; float_of_str := sample_float;
  str_exn := λ _, "Expecting value"; http_status_error := λ _, RuntimeError "HTTPStatusError" |}.

Definition no_environ (_ : string) : option string := None.
Definition respond (status : Z) (headers : dict string string) (content : string) (_ : nat) (_ : string) (_ : dict string string) : res http_response :=
  Ok {| hr_status := status; hr_headers := headers; hr_content := content |}.

Definition swpc : string := "noaa-swpc".
Definition swpc_url : string := "https://services.swpc.noaa.gov/products/noaa-scales.json".
Definition open_plane : plane := {| pl_outbound_enabled := true; pl_max_payload_bytes := 10000000 |}.

(** An overloaded server is asked three times; a date as the wait raises. *)
Example overloaded :
  (length ∘ snd) <$> attempts (respond 503 [("retry-after", "1")] "") 3 0 swpc_url [] = Ok 2%nat ∧
  attempts (respond 503 [("retry-after", "Wed, 21 Oct 2026 07:28:00 GMT")] "") 3 0 swpc_url [] =
    Raise (ValueError "could not convert string to float").
Proof. split; reflexivity. Qed.

(** The key of NASA FIRMS goes into a header, while its URL keeps the placeholder. *)
Example firms_placeholder sp : dget PUBLIC_SOURCE_SPECS "nasa-firms" = Some sp →
  prepare_request (λ _, Some "secret") sp "nasa-firms" (ps_url sp) =
    Ok ("https://firms.modaps.eosdis.nasa.gov/api/area/csv/{MAP_KEY}/VIIRS_SNPP_NRT/-141,41,-52,84/1",
        [("User-Agent", user_agent); ("X-Api-Key", "secret")]).
Proof. vm_compute. by intros [= <-]. Qed.

(** The key of ReliefWeb goes into the URL. *)
Example reliefweb_key sp : dget PUBLIC_SOURCE_SPECS "reliefweb" = Some sp →
  fst <$> prepare_request (λ _, Some " app ") sp "reliefweb" (ps_url sp) = Ok "https://api.reliefweb.int/v2/reports?appname=app&limit=10".
Proof. vm_compute. by intros [= <-]. Qed.

Definition swpc_spec : PublicSourceSpec := default (spec "" "" "" None Header f0 "" PJson) (dget PUBLIC_SOURCE_SPECS swpc).

Lemma empty_cache_ok : cache_ok sample_hash ∅.
Proof. by intros key dir ?%lookup_empty_Some. Qed.

Definition fetched_once : res PublicSnapshot * cache :=
  fetch_url sample_hash no_environ (respond 200 [] "{}") open_plane swpc swpc_url true None sample_now sample_now [] ∅.

Lemma fetched_files : fetched_once.2 = <[(swpc, "h{}") := files "{}" (new_metadata sample_hash swpc swpc_url "{}" [] 200 sample_now)]> ∅.
Proof. vm_compute. reflexivity. Qed.

Lemma fetched_ok : cache_ok sample_hash fetched_once.2.
Proof.
  rewrite fetched_files. apply cache_ok_insert; [exact empty_cache_ok|]. split; cbn [files d_payload d_metadata]; [by intros b [= <-]|].
  intros f [= <-]. eexists. split; [done|]. split; [by eexists|]. split_and!; [done..|]. split; vm_compute; discriminate.
Qed.

(** The unchanged scales of NOAA, fetched once and forced a second time. *)
Lemma unchanged_source_stuck_witness :
  fetch_url sample_hash no_environ (respond 200 [] "{}") open_plane swpc swpc_url true None later_now later_now ["h{}"] fetched_once.2 =
    (Raise (ValueError "immutable snapshot collision"), fetched_once.2).
Proof.
  apply (unchanged_source_stuck sample_hash no_environ (respond 200 [] "{}") open_plane swpc swpc_url true None later_now later_now ["h{}"]
    fetched_once.2 swpc_spec {| hr_status := 200; hr_headers := []; hr_content := "{}" |}
    (new_metadata sample_hash swpc swpc_url "{}" [] 200 sample_now)).
  - reflexivity.
  - exact fetched_ok.
  - rewrite fetched_files. reflexivity.
  - discriminate.
  - left. reflexivity.
  - reflexivity.
Defined.

(** One answer that is no JSON; by the second fetch the source has recovered. *)
Lemma malformed_answer_blocks_witness : ∃ fs',
  fetch_url sample_hash no_environ (respond 200 [] "<html>") open_plane swpc swpc_url false None sample_now sample_now [] ∅ =
    (Raise (invalid_payload swpc_spec (ValueError "Expecting value")), fs') ∧
  ((∀ d, d ∈ ["h<html>"] ↔ is_Some (snapshot_at swpc fs' d)) →
   fetch_url sample_hash no_environ (respond 200 [] "{}") open_plane swpc swpc_url false None later_now later_now ["h<html>"] fs' =
     (Raise (invalid_payload swpc_spec (ValueError "Expecting value")), fs')).
Proof.
  pose proof (malformed_answer_blocks sample_hash no_environ (respond 200 [] "<html>") (respond 200 [] "{}") open_plane open_plane swpc swpc_url
    false None sample_now later_now sample_now later_now [] ["h<html>"] ∅ swpc_spec {| hr_status := 200; hr_headers := []; hr_content := "<html>" |}
    (ValueError "Expecting value")) as P.
  destruct (fetch_url sample_hash no_environ (respond 200 [] "<html>") open_plane swpc swpc_url false None sample_now sample_now [] ∅) as [first fs'].
  destruct P as [-> P].
  - reflexivity.
  - exact empty_cache_ok.
  - right. reflexivity.
  - reflexivity.
  - reflexivity.
  - reflexivity.
  - reflexivity.
  - reflexivity.
  - split; vm_compute; discriminate.
  - split; vm_compute; discriminate.
  - intros d m E. discriminate E.
  - vm_compute. reflexivity.
  - exists fs'. split; [reflexivity|exact P].
Defined.

(** A peer that invents space weather. *)
Definition inventor (url : string) : Edge.answer :=
  if str_eqb url "http://evil/v1/edge/manifest" then
    Edge.Answer 200 (Ok (JObj (list_to_map [("peer_id", JStr "peer"); ("snapshot_ids", JArr [JStr "x"])])))
  else Edge.Answer 200 (Ok (Edge.invented swpc swpc_url "{}")).

Definition fooled : Edge.EdgeNode :=
  Edge.loop_round sample_hash Edge.sample_glob Edge.sample_arrange Edge.no_other Edge.no_text inventor (λ _, Edge.first_clock)
    (Edge.edge_add_peer_endpoint true [("url", "http://evil/")] Edge.victim).2.

Lemma fooled_files d : d ∈ ["h{}"] ↔ is_Some (snapshot_at swpc (Edge.en_cache fooled) d).
Proof.
  assert (Edge.en_cache fooled = <[(swpc, "h{}") := files "{}" (new_metadata sample_hash swpc swpc_url "{}" [("content-type", "")] 200 sample_now)]> ∅)
    as -> by (vm_compute; reflexivity).
  unfold snapshot_at. rewrite list_elem_of_singleton. split.
  - intros ->. rewrite lookup_insert_eq. by eexists.
  - intros [m E]. destruct (decide ((swpc, "h{}") = (swpc, d))) as [[= <-]|Hne]; [done|].
    by rewrite lookup_insert_ne, lookup_empty in E by done.
Qed.

(** The plane may not even reach the network. *)
Lemma gossip_feeds_plane_witness : ∃ snapshot,
  fetch_url sample_hash no_environ (respond 500 [] "") {| pl_outbound_enabled := false; pl_max_payload_bytes := 0 |} swpc swpc_url false None
    later_now later_now ["h{}"] (Edge.en_cache fooled) = (Ok snapshot, Edge.en_cache fooled) ∧ pn_quality_flags snapshot = ["snapshot_cache"].
Proof.
  destruct (gossip_feeds_plane sample_hash no_environ Edge.sample_glob Edge.sample_arrange Edge.no_other Edge.no_text
    Edge.sample_glob_ok Edge.sample_arrange_ok inventor (λ _, Edge.first_clock) Edge.victim "http://evil" "http://evil/" "x" (respond 500 [] "")
    {| pl_outbound_enabled := false; pl_max_payload_bytes := 0 |} swpc "{}" None later_now later_now ["h{}"] swpc_spec (1, []))
    as (snapshot & E & _ & _ & F).
  - reflexivity.
  - reflexivity.
  - exact Edge.empty_ok.
  - reflexivity.
  - reflexivity.
  - reflexivity.
  - reflexivity.
  - reflexivity.
  - reflexivity.
  - exact (Edge.empty_not_listed "x").
  - reflexivity.
  - reflexivity.
  - reflexivity.
  - exact (proj2 (Edge.first_clock_timely "x")).
  - split; vm_compute; discriminate.
  - intros d m E. discriminate E.
  - vm_compute. reflexivity.
  - exact fooled_files.
  - exists snapshot. split; [exact E|exact F].
Defined.

(** Three attempts at a server that is overloaded. *)
Lemma attempts_exact_witness : is_ok (attempts (respond 503 [("retry-after", "1")] "") 3 0 swpc_url []) = true.
Proof.
  apply (proj1 (proj2 (attempts_exact (respond 503 [("retry-after", "1")] "") swpc_url []))).
  intros i. eexists. split; reflexivity.
Defined.
