(* ===== verification/Indicators.v ===== *)
(** * public_data.py: the adapters that turn payloads into indicators

    The disaster database (an XLSX workbook), the weather alerts (GeoJSON) and the water
    levels of one station (JSON), each from the payload to a list of indicators that name
    the snapshot they come from.  [datetime.fromisoformat] and [parsedate_to_datetime]
    are arguments that give an instant (conversion to UTC keeps it), [repr] is [str] of
    a JSON value that is no text. *)

From Stdlib Require Import ZArith QArith Ascii.
From S2P Require Import Prelude PyFloat PyFormat Domain State Cache PublicData.
From S2P Require Interop Telemetry Dsl.

Open Scope Z_scope.

Record NormalizedIndicator := {
  ni_indicator_id : string;
  ni_observed_at : datetime;
  ni_value : float;
  ni_unit : string;
  ni_source_id : string;
  ni_provenance_snapshot_ids : list string;
  ni_quality_flags : list string;
  ni_metadata : dict string string
}.

(** ** Dates *)

(** The days of [datetime.min] and [datetime.max], in microseconds since the epoch. *)
Definition in_calendar (us : Z) : bool := (-62135596800000000 <=? us) && (us <=? 253402300799999999).

(** [timedelta(days=x)] in microseconds: whole days exactly, the fraction of a day rounded
    once as a float and once to a microsecond. *)
Definition days_us (x : float) : res Z :=
  match x with
  | Fin q =>
      let whole := Z.quot (Qnum q) (Zpos (Qden q)) in
      match (fl (q - inject_Z whole) * lit 86400000000)%F with
      | Fin us =>
          let total := rne (inject_Z (whole * 86400000000) + us) in
          if (Z.abs (total / 86400000000) <=? 999999999) then Ok total else Raise OverflowError
      | _ => Raise OverflowError
      end
  | Inf _ => Raise OverflowError
  | NaN => Raise (ValueError "cannot convert float NaN to integer")
  end.

(** [datetime(1899, 12, 30, tzinfo=UTC)] *)
Definition excel_epoch : Z := -25569 * 86400000000.

Section adapters.
Context `{Decoders} (fromisoformat parsedate_to_datetime : string → res datetime) (repr : json → string).

Definition as_utc (d : datetime) : datetime := {| dt_us := dt_us d; dt_aware := true |}.

(** [_parse_date] of a text. *)
Definition parse_date_str (value : string) : res (option datetime) :=
  match fromisoformat (Interop.replace_Z value) with
  | Ok parsed => Ok (Some (as_utc parsed))
  | Raise e =>
      if value_error_b e then
        match parsedate_to_datetime value with
        | Ok d => Ok (Some (as_utc d))
        | Raise (TypeError _) | Raise OverflowError => Ok None
        | Raise e => if value_error_b e then Ok None else Raise e
        end
      else Raise e
  end.

Definition parse_date (value : json) : res (option datetime) :=
  match value with JStr s => parse_date_str s | _ => Ok None end.

(** [(datetime(1899, 12, 30) + timedelta(days=float(value)))] *)
Definition excel_instant (value : string) : res datetime :=
  x ← float_of_str value; us ← days_us x;
  if in_calendar (excel_epoch + us) then Ok {| dt_us := excel_epoch + us; dt_aware := true |} else Raise OverflowError.

Definition parse_excel_date (value : option string) : res (option datetime) :=
  match value with
  | None => Ok None
  | Some s =>
      if str_empty s || str_eqb s "NULL" then Ok None
      else match excel_instant s with
           | Ok d => Ok (Some d)
           | Raise (TypeError _) | Raise OverflowError => parse_date_str s
           | Raise e => if value_error_b e then parse_date_str s else Raise e
           end
  end.

(** ** Disasters *)

Definition common_flags : list string := ["aggregated_secondary_source"; "not_primary_source"].

Definition person_columns : dict string string :=
  [("DEAD", "cdd.deaths"); ("INJURED", "cdd.injured"); ("EVACUATED", "cdd.evacuated");
   ("UTILITY_PEOPLE_AFFECTED", "cdd.utility_people_affected")].

Definition cdd_indicator (snapshot : PublicSnapshot) (at_ : datetime) (metadata : dict string string) (indicator_id unit_ : string) (value : float)
    : NormalizedIndicator :=
  {| ni_indicator_id := indicator_id; ni_observed_at := at_; ni_value := value; ni_unit := unit_;
     ni_source_id := pn_source_id snapshot; ni_provenance_snapshot_ids := [pn_snapshot_id snapshot];
     ni_quality_flags := common_flags; ni_metadata := metadata |}.

Definition cdd_metadata (event_id : string) (row : dict string string) : dict string string :=
  [("event_id", event_id); ("category", dget_default row "EVENT_CATEGORY_NAME" ""); ("group", dget_default row "EVENT_GROUP_NAME" "");
   ("event_type", dget_default row "EVENT_TYPE" ""); ("place", dget_default row "PLACE" "");
   ("provinces", dget_default row "PROVINCES_AFFECTED / PROVINCES AFFECTÉES" "")].

(** A column of persons whose text is a number. *)
Definition person_step (snapshot : PublicSnapshot) (at_ : datetime) (metadata row : dict string string)
    (indicators : list NormalizedIndicator) (column : string * string) : res (list NormalizedIndicator) :=
  match float_of_str (dget_default row column.1 "") with
  | Ok value => Ok (indicators ++ [cdd_indicator snapshot at_ metadata column.2 "persons" value])
  | Raise (TypeError _) => Ok indicators
  | Raise e => if value_error_b e then Ok indicators else Raise e
  end.

Definition event_step (snapshot : PublicSnapshot) (indicators : list NormalizedIndicator) (row : dict string string)
    : res (list NormalizedIndicator) :=
  observed_at ← parse_excel_date (dget row "EVENT_START_DATE");
  let event_id := str_strip (dget_default row "EVENT_ID" "") in
  match observed_at with
  | None => Ok indicators
  | Some observed_at =>
      if str_empty event_id then Ok indicators
      else
        let metadata := cdd_metadata event_id row in
        foldM (person_step snapshot observed_at metadata row)
          (indicators ++ [cdd_indicator snapshot observed_at metadata "cdd.disaster_event" "historical_event" f1]) person_columns
  end.

Definition normalize_events (snapshot : PublicSnapshot) (body : string) : res (list NormalizedIndicator) :=
  rows ← xlsx_rows body;
  indicators ← foldM (event_step snapshot) [] rows;
  match indicators with
  | [] => Raise (ValueError "CDD workbook contained no dated event rows")
  | _ => Ok indicators
  end.

(** ** Weather alerts *)

(** [str(v or default)] *)
Definition str_or (v : json) (default : string) : string := if Dsl.truthy v then Telemetry.py_str repr v else default.

(** The elements of a JSON value in a [for] loop. *)
Definition iterate (v : json) : res (list json) :=
  match v with
  | JArr l => Ok l
  | JStr s => Ok ((λ c, JStr (String c EmptyString)) <$> String.list_ascii_of_string s)
  | JObj m => Ok (JStr <$> (map_to_list m).*1)
  | _ => Raise (TypeError "object is not iterable")
  end.

(** [expires is not None and expires < reference_time] *)
Definition expired_at (expires : option datetime) (reference_time : datetime) : res bool :=
  match expires with
  | Some e =>
      _ ← raise_if (negb (dt_aware reference_time)) (TypeError "can't compare offset-naive and offset-aware datetimes");
      Ok (dt_us e <? dt_us reference_time)
  | None => Ok false
  end.

Definition alert_indicator (snapshot : PublicSnapshot) (reference_time : datetime) (feature props : object) : res NormalizedIndicator :=
  published ← parse_date (dict_get props "publication_datetime");
  let observed_at := default (pn_retrieved_at snapshot) published in
  expires ← parse_date (dict_get props "expiration_datetime");
  expired ← expired_at expires reference_time;
  let confidence := str_lower (str_or (dict_get props "confidence_en") "unknown") in
  let flags := (if (expired : bool) then ["expired_at_normalization"] else [])
               ++ (if mem_str confidence ["high"; "medium"] then [] else ["nonstandard_confidence"])
               ++ (if is_None (dict_get feature "geometry") then ["missing_geometry"] else []) in
  let alert_code := str_lower (str_or (dict_get props "alert_code") "unknown") in
  Ok {| ni_indicator_id := "eccc.alert." +:+ alert_code; ni_observed_at := observed_at; ni_value := f1;
        ni_unit := "active_alert_event"; ni_source_id := pn_source_id snapshot;
        ni_provenance_snapshot_ids := [pn_snapshot_id snapshot]; ni_quality_flags := flags;
        ni_metadata := [("alert_type", str_or (dict_get props "alert_type") "unknown");
                        ("alert_name", str_or (dict_get props "alert_name_en") "unknown");
                        ("province", str_or (dict_get props "province") "unknown");
                        ("status", str_or (dict_get props "status_en") "unknown"); ("confidence", confidence);
                        ("impact", str_or (dict_get props "impact_en") "unknown");
                        ("expiration_datetime", match expires with Some e => isoformat e | None => "" end)] |}.

Definition alert_step (snapshot : PublicSnapshot) (reference_time : datetime) (indicators : list NormalizedIndicator) (feature : json)
    : res (list NormalizedIndicator) :=
  match feature with
  | JObj feature =>
      match dict_get feature "properties" with
      | JObj props => i ← alert_indicator snapshot reference_time feature props; Ok (indicators ++ [i])
      | _ => Ok indicators
      end
  | _ => Ok indicators
  end.

Definition normalize_alerts (snapshot : PublicSnapshot) (body : string) (reference_time : datetime) : res (list NormalizedIndicator) :=
  payload ← loads body;
  match payload with
  | JObj m =>
      if eq_str (dict_get m "type") "FeatureCollection" then
        features ← iterate (default (JArr []) (m !! "features"));
        foldM (alert_step snapshot reference_time) [] features
      else Raise (ValueError "ECCC alert response must be a GeoJSON FeatureCollection")
  | _ => Raise (ValueError "ECCC alert response must be a GeoJSON FeatureCollection")
  end.

(** ** Queries *)

(** [quote_plus]: letters, digits and [_.-~] stay, a space becomes a plus. *)
Definition unreserved (c : ascii) : bool :=
  let n := N_of_ascii c in
  is_alpha c || ((48 <=? n) && (n <=? 57) || (n =? 95) || (n =? 46) || (n =? 45) || (n =? 126))%N.

Definition hex_upper (n : N) : ascii := ascii_of_N (if (n <? 10)%N then n + 48 else n + 55)%N.

Fixpoint quote_plus (s : string) : string :=
  match s with
  | EmptyString => EmptyString
  | String c s =>
      let n := N_of_ascii c in
      if unreserved c then String c (quote_plus s)
      else if (n =? 32)%N then String "+" (quote_plus s)
      else String "%" (String (hex_upper (n / 16)) (String (hex_upper (n mod 16)) (quote_plus s)))
  end.

Definition urlencode (query : dict string string) : string :=
  str_join "&" ((λ kv, quote_plus kv.1 +:+ "=" +:+ quote_plus kv.2) <$> query).

(** ** Water levels *)

Definition dfo : string := "dfo-iwls".
Definition dfo_api : string := "https://api-iwls.dfo-mpo.gc.ca/api/v1/stations".

Definition stations_url (region : string) : string := dfo_api +:+ "?" +:+ urlencode [("chs-region-code", region)].

(** [isoformat().replace("+00:00", "Z")] of an instant converted to UTC. *)
Definition iso_z (d : datetime) : string := str_replace "+00:00" "Z" (isoformat (as_utc d)).

Definition data_url (station_id : string) (start end_ : datetime) (resolution time_series_code : string) : string :=
  dfo_api +:+ "/" +:+ station_id +:+ "/data?"
  +:+ urlencode [("time-series-code", time_series_code); ("from", iso_z start); ("to", iso_z end_); ("resolution", resolution)].

(** Whether a station of the list is taken. *)
Definition has_wlo (series : json) : res bool :=
  items ← iterate series;
  Ok (existsb (λ i, match i with JObj m => eq_str (dict_get m "code") "wlo" | _ => false end) items).

Fixpoint find_station (region : string) (stations : list json) : res object :=
  match stations with
  | [] => Raise (ValueError ("no operating DFO " +:+ region +:+ " station with wlo series found"))
  | JObj station :: stations =>
      if negb (Dsl.truthy (dict_get station "operating")) then find_station region stations
      else found ← has_wlo (default (JArr []) (station !! "timeSeries"));
           if (found : bool) then Ok station else find_station region stations
  | _ :: stations => find_station region stations
  end.

(** One item of the data: [None] is the [continue] of the loop; [bool] is an [int]. *)
Definition level_indicator (snapshot_id station_id time_series_code : string) (item : object) : res (option NormalizedIndicator) :=
  observed_at ← parse_date (dict_get item "eventDate");
  match observed_at, dict_get item "value" with
  | Some observed_at, (JNum _ | JFloat _ | JBool _) as value =>
      x ← Telemetry.py_float float_of_str value;
      let qc := Telemetry.py_str repr (match item !! "qcFlagCode" with Some v => v | None => JStr "2" end) in
      let flags := (if str_eqb qc "1" then [] else ["qc_" +:+ qc])
                   ++ (match dict_get item "reviewed" with JBool false => ["not_reviewed"] | _ => [] end) in
      Ok (Some {| ni_indicator_id := "dfo.iwls.water_level"; ni_observed_at := observed_at; ni_value := x;
                  ni_unit := "metres_relative_to_station_product_datum"; ni_source_id := dfo;
                  ni_provenance_snapshot_ids := [snapshot_id]; ni_quality_flags := flags;
                  ni_metadata := [("station_id", station_id); ("time_series_code", time_series_code);
                                  ("time_series_id", Telemetry.py_str repr (match item !! "timeSeriesId" with Some v => v | None => JStr "" end));
                                  ("qc_flag_code", qc)] |})
  | _, _ => Ok None
  end.

Definition level_step (snapshot_id station_id time_series_code : string) (indicators : list NormalizedIndicator) (item : json)
    : res (list NormalizedIndicator) :=
  match item with
  | JObj item => i ← level_indicator snapshot_id station_id time_series_code item;
                 Ok (match i with Some i => indicators ++ [i] | None => indicators end)
  | _ => Raise (ValueError "DFO data item must be an object")
  end.

Definition normalize_levels (snapshot_id station_id time_series_code body : string) : res (list NormalizedIndicator) :=
  payload ← loads body;
  items ← match payload with JArr l => Ok l | _ => Raise (ValueError "DFO data response must be an array") end;
  indicators ← foldM (level_step snapshot_id station_id time_series_code) [] items;
  match indicators with
  | [] => Raise (ValueError "DFO response contained no numeric water-level observations")
  | _ => Ok indicators
  end.

Definition resolutions : list string :=
  ["ALL"; "ONE_MINUTE"; "THREE_MINUTES"; "FIVE_MINUTES"; "FIFTEEN_MINUTES"; "SIXTY_MINUTES"].

(** ** Fetching *)

Context (sha256 : string → string) (environ : string → option string).
Context (http : nat → string → dict string string → res http_response) (pl : plane).
(** [dirs source fs]: the order in which the directories of a source are found. *)
Context (dirs : string → cache → list string).

(** A fetch by [fetch], then the body it left in the cache. *)
Definition fetched (get : cache → res PublicSnapshot * cache) (source_id url missing : string) (now : datetime) (fs : cache)
    : res (PublicSnapshot * SnapshotMetadata * string) * cache :=
  let '(snapshot, fs) := get fs in
  ((snapshot ← snapshot;
    cached ← latest sha256 source_id (Some url) None now (dirs source_id fs) fs;
    match cached with Some (m, body) => Ok (snapshot, m, body) | None => Raise (RuntimeError missing) end), fs).

Definition plane_fetch (source_id : string) (force : bool) (now stored_at : datetime) (fs : cache) : res PublicSnapshot * cache :=
  PublicData.fetch sha256 environ http pl source_id force now stored_at (dirs source_id fs) fs.

Definition plane_fetch_url (source_id url : string) (force : bool) (now stored_at : datetime) (fs : cache) : res PublicSnapshot * cache :=
  PublicData.fetch_url sha256 environ http pl source_id url force None now stored_at (dirs source_id fs) fs.

Definition spec_url (source_id : string) : string :=
  match dget PUBLIC_SOURCE_SPECS source_id with Some sp => ps_url sp | None => "" end.

Definition CDD_fetch (force : bool) (now stored_at : datetime) (fs : cache) : res (PublicSnapshot * list NormalizedIndicator) * cache :=
  let '(r, fs) := fetched (plane_fetch "canadian-disaster-database" force now stored_at) "canadian-disaster-database"
                    (spec_url "canadian-disaster-database") "CDD snapshot disappeared after fetch" now fs in
  (('(snapshot, _, body) ← r; indicators ← normalize_events snapshot body; Ok (snapshot, indicators)), fs).

Definition ECCC_fetch (force : bool) (now stored_at : datetime) (fs : cache) : res (PublicSnapshot * list NormalizedIndicator) * cache :=
  let '(r, fs) := fetched (plane_fetch "eccc-geomet-alerts" force now stored_at) "eccc-geomet-alerts"
                    (spec_url "eccc-geomet-alerts") "ECCC snapshot disappeared after fetch" now fs in
  (('(snapshot, _, body) ← r; indicators ← normalize_alerts snapshot body now; Ok (snapshot, indicators)), fs).

Definition fetch_operating_station (region : string) (force : bool) (now stored_at : datetime) (fs : cache)
    : res (PublicSnapshot * object) * cache :=
  if negb (mem_str region ["ATL"; "QUE"; "PAC"; "CNA"]) then (Raise (ValueError "DFO region must be ATL, QUE, PAC, or CNA"), fs)
  else
    let url := stations_url region in
    let '(r, fs) := fetched (plane_fetch_url dfo url force now stored_at) dfo url "DFO station snapshot disappeared after fetch" now fs in
    (('(snapshot, _, body) ← r;
      payload ← loads body;
      stations ← match payload with JArr l => Ok l | _ => Raise (ValueError "DFO station response must be an array") end;
      station ← find_station region stations; Ok (snapshot, station)), fs).

Definition fetch_dfo_water_levels (station_id : string) (start end_ : datetime) (resolution time_series_code : string) (force : bool)
    (now stored_at : datetime) (fs : cache) : res (PublicSnapshot * list NormalizedIndicator) * cache :=
  match (_ ← raise_if (negb (dt_aware start) || negb (dt_aware end_)) (ValueError "DFO start and end must be timezone-aware");
         _ ← raise_if (dt_us end_ <=? dt_us start) (ValueError "DFO end must be after start");
         raise_if (negb (mem_str resolution resolutions)) (ValueError "unsupported DFO IWLS resolution")) with
  | Raise e => (Raise e, fs)
  | Ok _ =>
      let url := data_url station_id start end_ resolution time_series_code in
      let '(r, fs) := fetched (plane_fetch_url dfo url force now stored_at) dfo url "DFO snapshot disappeared after fetch" now fs in
      (('(snapshot, m, body) ← r;
        indicators ← normalize_levels (sm_snapshot_id m) station_id time_series_code body; Ok (snapshot, indicators)), fs)
  end.

(** The station of an indicator, in front of its provenance and in its metadata. *)
Definition at_station (station_snapshot : PublicSnapshot) (station : object) (i : NormalizedIndicator) : NormalizedIndicator :=
  let extra := [("station_name", str_or (dict_get station "officialName") "unknown"); ("station_code", str_or (dict_get station "code") "unknown");
                ("latitude", str_or (dict_get station "latitude") ""); ("longitude", str_or (dict_get station "longitude") "")] in
  {| ni_indicator_id := ni_indicator_id i; ni_observed_at := ni_observed_at i; ni_value := ni_value i; ni_unit := ni_unit i;
     ni_source_id := ni_source_id i; ni_provenance_snapshot_ids := pn_snapshot_id station_snapshot :: ni_provenance_snapshot_ids i;
     ni_quality_flags := ni_quality_flags i; ni_metadata := foldl (λ d kv, dset d kv.1 kv.2) (ni_metadata i) extra |}.

(** [str(station["id"])] *)
Definition with_id (r : res (PublicSnapshot * object)) : res (PublicSnapshot * object * string) :=
  '(station_snapshot, station) ← r; id ← Telemetry.item station "id"; Ok (station_snapshot, station, Telemetry.py_str repr id).

Definition combined (station_snapshot : PublicSnapshot) (station : object) (r : res (PublicSnapshot * list NormalizedIndicator))
    : res (PublicSnapshot * PublicSnapshot * object * list NormalizedIndicator) :=
  match r with
  | Ok (data_snapshot, indicators) => Ok (station_snapshot, data_snapshot, station, List.map (at_station station_snapshot station) indicators)
  | Raise e => Raise e
  end.

(** [clock] gives the instants of the reads and of the stores, in order. *)
Definition fetch_current (region : string) (start end_ : datetime) (force : bool) (clock : nat → datetime) (fs : cache)
    : res (PublicSnapshot * PublicSnapshot * object * list NormalizedIndicator) * cache :=
  let '(r, fs) := fetch_operating_station region force (clock 0%nat) (clock 1%nat) fs in
  match with_id r with
  | Raise e => (Raise e, fs)
  | Ok (station_snapshot, station, station_id) =>
      let '(r, fs) := fetch_dfo_water_levels station_id start end_ "SIXTY_MINUTES" "wlo" force (clock 2%nat) (clock 3%nat) fs in
      (combined station_snapshot station r, fs)
  end.

End adapters.

Example wlo_url : data_url "s1" {| dt_us := 0; dt_aware := true |} {| dt_us := 3600000000; dt_aware := true |} "SIXTY_MINUTES" "wlo" =
  "https://api-iwls.dfo-mpo.gc.ca/api/v1/stations/s1/data?time-series-code=wlo&from=1970-01-01T00%3A00%3A00Z&to=1970-01-01T01%3A00%3A00Z&resolution=SIXTY_MINUTES".
Proof. vm_compute. reflexivity. Qed.

(** ** What the adapters produce *)

Section laws.
Context `{Decoders} (fromisoformat parsedate_to_datetime : string → res datetime) (repr : json → string).

(** The documented errors of the three parsers of text. *)
Context (Hiso : ∀ s e, fromisoformat s = Raise e → value_error_b e = true).
Context (Hmail : ∀ s e, parsedate_to_datetime s = Raise e → value_error_b e = true ∨ e = OverflowError ∨ ∃ m, e = TypeError m).
Context (Hfloat : ∀ s e, float_of_str s = Raise e → value_error_b e = true).

Local Abbreviation parse_date := (Indicators.parse_date fromisoformat parsedate_to_datetime).
Local Abbreviation parse_date_str := (Indicators.parse_date_str fromisoformat parsedate_to_datetime).
Local Abbreviation parse_excel_date := (Indicators.parse_excel_date fromisoformat parsedate_to_datetime).

Lemma parse_date_str_total s : ∃ d, parse_date_str s = Ok d ∧ ∀ x, d = Some x → dt_aware x = true.
Proof using Hiso Hmail.
  unfold Indicators.parse_date_str. destruct (fromisoformat (Interop.replace_Z s)) as [d|e] eqn:E.
  { eexists. split; [reflexivity|]. by intros x [= <-]. }
  rewrite (Hiso _ _ E). destruct (parsedate_to_datetime s) as [d|e'] eqn:E'.
  { eexists. split; [reflexivity|]. by intros x [= <-]. }
  exists None. split; [|done]. destruct (Hmail _ _ E') as [Hv|[->|[m ->]]]; [|done|done]. destruct e'; done.
Qed.

Lemma parse_date_total v : ∃ d, parse_date v = Ok d ∧ ∀ x, d = Some x → dt_aware x = true.
Proof using Hiso Hmail. destruct v; try (by exists None). apply parse_date_str_total. Qed.

(** ** Alerts *)

(** The feature and its properties, when both are objects. *)
Definition properties_of (feature : json) : option (object * object) :=
  match feature with
  | JObj f => match dict_get f "properties" with JObj p => Some (f, p) | _ => None end
  | _ => None
  end.

(** What an alert becomes. *)
Record alert_of (snapshot : PublicSnapshot) (reference_time : datetime) (fp : object * object) (i : NormalizedIndicator) : Prop := {
  ao_value : ni_value i = f1;
  ao_source : ni_source_id i = pn_source_id snapshot;
  ao_provenance : ni_provenance_snapshot_ids i = [pn_snapshot_id snapshot];
  ao_expired : "expired_at_normalization" ∈ ni_quality_flags i ↔
    ∃ e, parse_date (dict_get fp.2 "expiration_datetime") = Ok (Some e) ∧ dt_us e < dt_us reference_time;
  ao_confidence : "nonstandard_confidence" ∈ ni_quality_flags i ↔
    str_lower (str_or repr (dict_get fp.2 "confidence_en") "unknown") ∉ ["high"; "medium"];
  ao_geometry : "missing_geometry" ∈ ni_quality_flags i ↔ dict_get fp.1 "geometry" = JNull
}.

Lemma flag_of (b : bool) (flag other : string) : other ∈ (if b then [flag] else []) ↔ b = true ∧ other = flag.
Proof using.
  destruct b; [rewrite list_elem_of_singleton; naive_solver|]. split; [by intros ?%elem_of_nil|by intros [? _]].
Qed.

Lemma alert_indicator_ok snapshot reference_time f p : dt_aware reference_time = true →
  ∃ i, alert_indicator fromisoformat parsedate_to_datetime repr snapshot reference_time f p = Ok i ∧ alert_of snapshot reference_time (f, p) i.
Proof using Hiso Hmail.
  intros Ha. unfold alert_indicator. destruct (parse_date_total (dict_get p "publication_datetime")) as (d & -> & _).
  destruct (parse_date_total (dict_get p "expiration_datetime")) as (e & Ee & _). rewrite Ee. cbn [mbind res_bind].
  assert (∃ b, expired_at e reference_time = Ok b ∧ (b = true ↔ ∃ x, e = Some x ∧ dt_us x < dt_us reference_time)) as (b & -> & Hb).
  { unfold expired_at. rewrite Ha. destruct e as [x|]; cbn [negb raise_if mbind res_bind]; eexists; (split; [reflexivity|]).
    - rewrite Z.ltb_lt. split; [eauto|]. by intros (y & [= <-] & ?).
    - split; [done|]. by intros (y & ? & _). }
  cbn [mbind res_bind]. eexists. split; [reflexivity|]. set (c := str_lower (str_or repr (dict_get p "confidence_en") "unknown")).
  split; cbn [ni_value ni_source_id ni_provenance_snapshot_ids ni_quality_flags fst snd]; [done..| | |]; rewrite !elem_of_app.
  - rewrite Ee. split.
    + intros [[Hx _]%flag_of|[Hx|[_ Hx]%flag_of]]; [apply Hb in Hx as (x & -> & ?); eauto| |done].
      destruct (mem_str c _); [by apply elem_of_nil in Hx|by apply list_elem_of_singleton in Hx].
    + intros (x & [= ->] & Hx). left. apply flag_of. split; [|done]. apply Hb. eauto.
  - unfold mem_str. split.
    + intros [[_ Hx]%flag_of|[Hx|[_ Hx]%flag_of]]; [done| |done]. case_bool_decide; [by apply elem_of_nil in Hx|done].
    + intros Hx. right. left. rewrite bool_decide_eq_false_2 by done. by left.
  - split.
    + intros [[_ Hx]%flag_of|[Hx|[Hx _]%flag_of]]; [done| |by destruct (dict_get f "geometry")].
      destruct (mem_str c _); [by apply elem_of_nil in Hx|by apply list_elem_of_singleton in Hx].
    + intros ->. right. right. by apply flag_of.
Qed.

(** An alert collection is never refused: every feature with properties becomes one
    indicator, in order, of value one and of the snapshot it names, flagged as expired
    exactly when its expiration can be read and lies before the reference time, and
    likewise for its confidence and its geometry. *)
Theorem alerts_exact snapshot body reference_time m features : dt_aware reference_time = true →
  loads body = Ok (JObj m) → dict_get m "type" = JStr "FeatureCollection" → m !! "features" = Some (JArr features) →
  ∃ l, normalize_alerts fromisoformat parsedate_to_datetime repr snapshot body reference_time = Ok l ∧
    Forall2 (alert_of snapshot reference_time) (omap properties_of features) l.
Proof using Hiso Hmail.
  intros Ha Hl Ht Hf. unfold normalize_alerts. rewrite Hl. cbn [mbind res_bind]. rewrite Ht, Hf. cbn [eq_str default].
  rewrite (proj2 (str_eqb_true _ _) eq_refl). cbn [iterate mbind res_bind].
  assert (∀ acc, ∃ l, foldM (alert_step fromisoformat parsedate_to_datetime repr snapshot reference_time) acc features = Ok (acc ++ l) ∧
    Forall2 (alert_of snapshot reference_time) (omap properties_of features) l) as G; [|exact (G [])].
  clear Hl Ht Hf. induction features as [|v features IH]; intros acc; cbn [foldM].
  { exists []. rewrite app_nil_r. split; [done|constructor]. }
  assert ((∃ f p, properties_of v = Some (f, p) ∧ ∃ i, alert_step fromisoformat parsedate_to_datetime repr snapshot reference_time acc v = Ok (acc ++ [i]) ∧
      alert_of snapshot reference_time (f, p) i) ∨
    properties_of v = None ∧ alert_step fromisoformat parsedate_to_datetime repr snapshot reference_time acc v = Ok acc) as [(f & p & E & i & -> & Hi)|[E ->]].
  { destruct v as [| | | | | |f]; try (right; done). unfold properties_of, alert_step.
    destruct (dict_get f "properties") as [| | | | | |p]; try (right; done). left. exists f, p. split; [done|].
    destruct (alert_indicator_ok snapshot reference_time f p Ha) as (i & -> & Hi). by exists i. }
  - cbn [mbind res_bind]. destruct (IH (acc ++ [i])) as (l & -> & F). exists (i :: l). rewrite <-app_assoc. split; [done|].
    cbn [omap list_omap]. rewrite E. by constructor.
  - cbn [mbind res_bind]. destruct (IH acc) as (l & -> & F). exists l. split; [done|]. cbn [omap list_omap]. by rewrite E.
Qed.

(** ** Water levels *)

Definition numeric (v : json) : bool := match v with JNum _ | JFloat _ | JBool _ => true | _ => false end.

(** An item with a date and a number. *)
Definition readable (item : object) : bool :=
  match parse_date (dict_get item "eventDate") with Ok (Some _) => numeric (dict_get item "value") | _ => false end.

Definition quality_code (item : object) : string := Telemetry.py_str repr (match item !! "qcFlagCode" with Some v => v | None => JStr "2" end).

Record level_of (snapshot_id : string) (item : object) (i : NormalizedIndicator) : Prop := {
  lo_observed : parse_date (dict_get item "eventDate") = Ok (Some (ni_observed_at i));
  lo_value : Telemetry.py_float float_of_str (dict_get item "value") = Ok (ni_value i);
  lo_provenance : ni_provenance_snapshot_ids i = [snapshot_id];
  lo_source : ni_source_id i = dfo;
  lo_flags : ni_quality_flags i = [] ↔ quality_code item = "1" ∧ dict_get item "reviewed" ≠ JBool false
}.

Lemma level_indicator_ok snapshot_id station code item :
  (∀ z, dict_get item "value" = JNum z → isfinite (f_of_Z z) = true) →
  if readable item
  then ∃ i, level_indicator fromisoformat parsedate_to_datetime repr snapshot_id station code item = Ok (Some i) ∧ level_of snapshot_id item i
  else level_indicator fromisoformat parsedate_to_datetime repr snapshot_id station code item = Ok None.
Proof using Hiso Hmail.
  intros Hz. unfold readable, level_indicator. destruct (parse_date_total (dict_get item "eventDate")) as (d & Ed & _). rewrite Ed.
  cbn [mbind res_bind]. destruct d as [d|]; [|done].
  destruct (dict_get item "value") as [|b|z|x| | |] eqn:Ev; cbn [numeric]; try done.
  all: assert (∃ y, Telemetry.py_float float_of_str (dict_get item "value") = Ok y) as [y Ey]
    by (rewrite Ev; cbn [Telemetry.py_float]; rewrite ?(Hz z eq_refl); by eexists).
  all: rewrite Ev in Ey; rewrite Ey; cbn [mbind res_bind]; eexists; split; [reflexivity|].
  all: split; cbn [ni_observed_at ni_value ni_provenance_snapshot_ids ni_source_id ni_quality_flags]; [done|by rewrite Ev|done|done|].
  all: fold (quality_code item); destruct (str_eqb (quality_code item) "1") eqn:Eq.
  all: try (apply str_eqb_true in Eq); try (assert (quality_code item ≠ "1") by (intros Hq; rewrite Hq in Eq; by vm_compute in Eq)).
  all: destruct (dict_get item "reviewed") as [|[]| | | | |]; cbn [app]; naive_solver.
Qed.

(** For an array of objects whose numbers are in the range of floats, the water levels
    are the dated numeric items in order, each of the snapshot, without a flag exactly
    when its quality code is 1 and it is not marked as unreviewed; without any, the
    response is refused. *)
Theorem levels_exact snapshot_id station code body items :
  loads body = Ok (JArr (JObj <$> items)) →
  (∀ item z, item ∈ items → dict_get item "value" = JNum z → isfinite (f_of_Z z) = true) →
  match normalize_levels fromisoformat parsedate_to_datetime repr snapshot_id station code body with
  | Ok l => l ≠ [] ∧ Forall2 (level_of snapshot_id) (List.filter readable items) l
  | Raise e => e = ValueError "DFO response contained no numeric water-level observations" ∧ List.filter readable items = []
  end.
Proof using Hiso Hmail.
  intros Hl Hz. unfold normalize_levels. rewrite Hl. cbn [mbind res_bind].
  assert (∀ acc, ∃ l, foldM (level_step fromisoformat parsedate_to_datetime repr snapshot_id station code) acc (JObj <$> items) = Ok (acc ++ l) ∧
    Forall2 (level_of snapshot_id) (List.filter readable items) l) as G.
  { clear Hl. induction items as [|item items IH]; intros acc; cbn [fmap list_fmap foldM List.filter].
    { exists []. rewrite app_nil_r. split; [done|constructor]. }
    pose proof (level_indicator_ok snapshot_id station code item ltac:(intros z; apply Hz; by left)) as K.
    destruct (readable item).
    - destruct K as (i & Ei & Hi). assert (level_step fromisoformat parsedate_to_datetime repr snapshot_id station code acc (JObj item) = Ok (acc ++ [i])) as ->
        by (unfold level_step; by rewrite Ei). cbn [mbind res_bind].
      destruct (IH ltac:(intros; eapply Hz; [by right|done]) (acc ++ [i])) as (l & El & F). exists (i :: l). rewrite <-app_assoc in El. split; [exact El|by constructor].
    - assert (level_step fromisoformat parsedate_to_datetime repr snapshot_id station code acc (JObj item) = Ok acc) as ->
        by (unfold level_step; by rewrite K). cbn [mbind res_bind].
      destruct (IH ltac:(intros; eapply Hz; [by right|done]) acc) as (l & El & F). by exists l. }
  destruct (G []) as (l & -> & F). cbn [mbind res_bind app]. destruct l as [|i l]; [|by split].
  split; [done|]. by apply Forall2_nil_inv_r in F.
Qed.

(** ** Disasters *)

Lemma excel_instant_errors s e : excel_instant s = Raise e → value_error_b e = true ∨ e = OverflowError.
Proof using Hfloat.
  unfold excel_instant. destruct (float_of_str s) as [x|e'] eqn:E; cbn [mbind res_bind].
  - destruct (days_us x) as [us|e'] eqn:Ed; cbn [mbind res_bind].
    + destruct (in_calendar _); [done|]. intros [= <-]. by right.
    + intros [= <-]. unfold days_us in Ed. destruct x as [q|b|]; [|injection Ed as <-; by right|injection Ed as <-; by left].
      destruct (fl _ * _)%F as [us|b|]; [|injection Ed as <-; by right..]. cbn zeta in Ed.
      destruct (Z.abs _ <=? _); [done|]. injection Ed as <-. by right.
  - intros [= <-]. left. by eapply Hfloat.
Qed.

Lemma parse_excel_date_total v : ∃ d, parse_excel_date v = Ok d.
Proof using Hiso Hmail Hfloat.
  destruct v as [s|]; [|by eexists]. unfold Indicators.parse_excel_date. destruct (str_empty s || str_eqb s "NULL"); [by eexists|].
  destruct (parse_date_str_total s) as (d & Ed & _).
  destruct (excel_instant s) as [x|e] eqn:E; [by eexists|]. destruct (excel_instant_errors s e E) as [Hv| ->]; [|by exists d].
  destruct e; try (by exists d); done.
Qed.

(** The persons of a row, column by column. *)
Definition row_persons (snapshot : PublicSnapshot) (at_ : datetime) (metadata row : dict string string) : list NormalizedIndicator :=
  omap (λ column : string * string, match float_of_str (dget_default row column.1 "") with
                 | Ok value => Some (cdd_indicator snapshot at_ metadata column.2 "persons" value)
                 | Raise _ => None
                 end) person_columns.

(** The indicators of one row. *)
Definition row_indicators (snapshot : PublicSnapshot) (row : dict string string) : list NormalizedIndicator :=
  let event_id := str_strip (dget_default row "EVENT_ID" "") in
  match parse_excel_date (dget row "EVENT_START_DATE") with
  | Ok (Some at_) =>
      if str_empty event_id then []
      else cdd_indicator snapshot at_ (cdd_metadata event_id row) "cdd.disaster_event" "historical_event" f1
           :: row_persons snapshot at_ (cdd_metadata event_id row) row
  | _ => []
  end.

Lemma persons_fold snapshot at_ metadata row columns acc :
  foldM (person_step snapshot at_ metadata row) acc columns =
    Ok (acc ++ omap (λ column : string * string, match float_of_str (dget_default row column.1 "") with
                 | Ok value => Some (cdd_indicator snapshot at_ metadata column.2 "persons" value)
                 | Raise _ => None
                 end) columns).
Proof using Hfloat.
  revert acc. induction columns as [|c columns IH]; intros acc; cbn [foldM omap list_omap].
  { by rewrite app_nil_r. }
  destruct (float_of_str (dget_default row c.1 "")) as [x|e] eqn:E.
  - assert (person_step snapshot at_ metadata row acc c = Ok (acc ++ [cdd_indicator snapshot at_ metadata c.2 "persons" x])) as ->
      by (unfold person_step; by rewrite E).
    cbn [mbind res_bind]. by rewrite IH, <-app_assoc.
  - assert (person_step snapshot at_ metadata row acc c = Ok acc) as ->
      by (unfold person_step; rewrite E; pose proof (Hfloat _ _ E); by destruct e).
    cbn [mbind res_bind]. apply IH.
Qed.

Lemma event_step_exact snapshot acc row :
  event_step fromisoformat parsedate_to_datetime snapshot acc row = Ok (acc ++ row_indicators snapshot row).
Proof using Hiso Hmail Hfloat.
  unfold event_step, row_indicators. destruct (parse_excel_date_total (dget row "EVENT_START_DATE")) as [d Ed]. rewrite Ed.
  cbn [mbind res_bind]. destruct d as [d|]; [|by rewrite app_nil_r]. destruct (str_empty _); [by rewrite app_nil_r|].
  rewrite persons_fold, <-app_assoc. done.
Qed.

(** A row that names a dated event. *)
Definition dated (row : dict string string) : bool :=
  match parse_excel_date (dget row "EVENT_START_DATE") with
  | Ok (Some _) => negb (str_empty (str_strip (dget_default row "EVENT_ID" "")))
  | _ => false
  end.

Definition is_event (i : NormalizedIndicator) : bool := str_eqb (ni_indicator_id i) "cdd.disaster_event".

Lemma row_events snapshot row : length (List.filter is_event (row_indicators snapshot row)) = if dated row then 1%nat else 0%nat.
Proof using.
  unfold row_indicators, dated. destruct (parse_excel_date (dget row "EVENT_START_DATE")) as [[d|]|]; [|done|done].
  destruct (str_empty _); [done|]. cbn [negb List.filter]. change (is_event (cdd_indicator _ _ _ "cdd.disaster_event" _ _)) with true. cbn [length].
  f_equal. unfold row_persons, person_columns. cbn [omap list_omap fst snd].
  by repeat (match goal with |- context [float_of_str ?x] => destruct (float_of_str x) end; cbn [List.filter length]).
Qed.

(** The disaster indicators are, row by row, one event for each row with a date and an
    identifier, followed by the counts of persons whose text is a number, all of the
    snapshot and flagged as a secondary source; a workbook without such a row is refused. *)
Theorem events_exact snapshot body rows : xlsx_rows body = Ok rows →
  normalize_events fromisoformat parsedate_to_datetime snapshot body =
    match flat_map (row_indicators snapshot) rows with
    | [] => Raise (ValueError "CDD workbook contained no dated event rows")
    | l => Ok l
    end ∧
  length (List.filter is_event (flat_map (row_indicators snapshot) rows)) = length (List.filter dated rows) ∧
  (∀ i, i ∈ flat_map (row_indicators snapshot) rows →
     ni_provenance_snapshot_ids i = [pn_snapshot_id snapshot] ∧ ni_source_id i = pn_source_id snapshot ∧ ni_quality_flags i = common_flags).
Proof using Hiso Hmail Hfloat.
  intros Hr. split; [|split].
  - unfold normalize_events. rewrite Hr. cbn [mbind res_bind].
    assert (∀ acc, foldM (event_step fromisoformat parsedate_to_datetime snapshot) acc rows = Ok (acc ++ flat_map (row_indicators snapshot) rows)) as G.
    { clear Hr. induction rows as [|row rows IH]; intros acc; cbn [foldM flat_map]; [by rewrite app_nil_r|].
      rewrite event_step_exact. cbn [mbind res_bind]. by rewrite IH, <-app_assoc. }
    rewrite (G []). cbn [mbind res_bind app]. by destruct (flat_map (row_indicators snapshot) rows).
  - clear Hr. induction rows as [|row rows IH]; [done|]. cbn [flat_map List.filter]. rewrite List.filter_app, length_app, row_events, IH.
    by destruct (dated row).
  - intros i Hi. apply list_elem_of_In, in_flat_map in Hi as (row & _ & Hi). apply list_elem_of_In in Hi. unfold row_indicators in Hi.
    destruct (parse_excel_date (dget row "EVENT_START_DATE")) as [[d|]|]; [|by apply elem_of_nil in Hi|by apply elem_of_nil in Hi].
    destruct (str_empty _); [by apply elem_of_nil in Hi|]. apply elem_of_cons in Hi as [->|Hi]; [done|].
    apply list_elem_of_omap in Hi as (c & _ & Hc). destruct (float_of_str _); [|done]. by injection Hc as <-.
Qed.

(** A date cell that holds a whole number of days is that many days after the last day
    but one of 1899. *)
Theorem excel_whole_days s n : str_empty s || str_eqb s "NULL" = false → float_of_str s = Ok (Fin (inject_Z n)) →
  in_calendar (excel_epoch + n * 86400000000) = true →
  parse_excel_date (Some s) = Ok (Some {| dt_us := excel_epoch + n * 86400000000; dt_aware := true |}).
Proof using.
  clear Hiso Hmail Hfloat. intros Hs Hx Hc. unfold Indicators.parse_excel_date. rewrite Hs. unfold excel_instant. rewrite Hx. cbn [mbind res_bind].
  assert (days_us (Fin (inject_Z n)) = Ok (n * 86400000000)) as ->.
  { unfold days_us. cbn [Qnum Qden inject_Z]. rewrite Z.quot_1_r.
    assert (fl (inject_Z n - inject_Z n) = fl 0) as -> by (apply fl_proper; ring). rewrite fl_0.
    change (Fin 0 * lit 86400000000)%F with (Fin 0 * Fin 86400000000)%F. change (Fin 0 * Fin 86400000000)%F with (fl (0 * 86400000000)).
    assert (fl (0 * 86400000000) = Fin 0) as -> by (rewrite <-fl_0; apply fl_proper; ring).
    assert (rne (inject_Z (n * 86400000000) + 0) = n * 86400000000) as ->.
    { rewrite <-(rne_int (n * 86400000000)) at 2. apply rne_proper. ring. }
    cbn zeta. unfold in_calendar, excel_epoch in Hc. rewrite Z.div_mul by lia. apply andb_prop in Hc as [H1 H2].
    apply Z.leb_le in H1, H2. by rewrite (proj2 (Z.leb_le _ _)) by lia. }
  cbn [mbind res_bind]. by rewrite Hc.
Qed.

End laws.

(** ** The body the indicators come from *)

Section provenance.
Context `{Decoders} (sha256 : string → string) (environ : string → option string).
Context (http : nat → string → dict string string → res http_response) (pl : plane) (dirs : string → cache → list string).
Context (Hdirs : ∀ s fs d, d ∈ dirs s fs ↔ is_Some (snapshot_at s fs d)).

(** When a source is asked, what the adapters read back from the cache is the very
    response: the snapshot an indicator names has the digest of the body the indicator
    was computed from, and the body is in the cache under it. *)
Theorem provenance_is_content source_id url missing force now stored fs sp r c :
  dget PUBLIC_SOURCE_SPECS source_id = Some sp → cache_ok sha256 fs →
  asks sha256 sp source_id url force now (dirs source_id fs) fs → download environ http pl sp source_id url = Ok r →
  records (ps_parser sp) (hr_content r) = Ok c → fs !! (source_id, sha256 (hr_content r)) = None →
  dt_aware stored = true → calendar stored → calendar now →
  (∀ d m, snapshot_at source_id fs d = Some m → str_ltb (isoformat (sm_retrieved_at m)) (isoformat stored) = true) →
  ∃ snapshot m fs',
    fetched sha256 dirs (plane_fetch_url sha256 environ http pl dirs source_id url force now stored) source_id url missing now fs =
      (Ok (snapshot, m, hr_content r), fs') ∧
    pn_snapshot_id snapshot = sm_snapshot_id m ∧ pn_content_sha256 snapshot = sha256 (hr_content r) ∧ pn_record_count snapshot = c.1 ∧
    (fs' !! (source_id, pn_content_sha256 snapshot) ≫= d_payload) = Some (hr_content r).
Proof using Hdirs.
  intros Hsp Hfs Hask Hd Hrec Hnew Ha Hc Hnow Hold. unfold fetched, plane_fetch_url.
  rewrite (fetch_asks sha256 environ http pl source_id url force None now stored (dirs source_id fs) fs sp r Hsp Hask Hd).
  rewrite (store_fresh sha256 _ _ _ _ _ _ _ Hnew).
  set (m := new_metadata sha256 source_id url (hr_content r) (hr_headers r) (hr_status r) stored).
  set (fs' := <[(source_id, sha256 (hr_content r)) := _]> fs).
  destruct (latest_stored sha256 source_id url (hr_content r) (hr_headers r) (hr_status r) stored None now (dirs source_id fs') fs)
    as [_ El]; [done..|apply Hdirs|].
  change (<[_ := _]> fs) with fs' in El. fold m in El.
  unfold summarize. change (default (ps_parser sp) (Some (default (ps_parser sp) None))) with (ps_parser sp). cbn [mbind res_bind]. rewrite Hrec. destruct c as [count flags].
  cbn [mbind res_bind]. fold m. rewrite El. cbn [mbind res_bind]. eexists _, m, fs'. split; [reflexivity|].
  cbn [pn_snapshot_id pn_content_sha256 pn_record_count fst]. split_and!; [done..|]. unfold fs'. by rewrite lookup_insert_eq.
Qed.

End provenance.

(** ** Concrete payloads *)

Definition sample_feature : json := JObj (list_to_map
  [("geometry", JNull); ("properties", JObj (list_to_map [("alert_code", JStr "FZRA"); ("confidence_en", JStr "High"); ("expiration_datetime", JStr "0")]))]).

Definition sample_collection : object := list_to_map
  [("type", JStr "FeatureCollection"); ("features", JArr [JNull; sample_feature])].

Definition sample_level (value : json) : object := list_to_map
  [("eventDate", JStr "0"); ("value", value); ("qcFlagCode", JStr "1")].

Definition sample_levels : list object := [sample_level (JNum 3); sample_level (JStr "high"); sample_level (JBool true)].

Definition sample_payload (body : string) : res json :=
  if str_eqb body "alerts" then Ok (JObj sample_collection)
  else if str_eqb body "levels" then Ok (JArr (JObj <$> sample_levels))
  else Raise (ValueError "Expecting value").

Definition sample_number (s : string) : res float :=
  if str_eqb s "30000" then Ok (Fin (inject_Z 30000)) else if str_eqb s "12" then Ok (Fin (inject_Z 12))
  else Raise (ValueError "could not convert string to float").

Definition cell (reference text : string) : xml :=
  Xml (xlsx_ns "c") [("r", reference)] None [Xml (xlsx_ns "v") [] (Some text) []].

Definition sample_sheet : xml := Xml (xlsx_ns "worksheet") [] None [Xml (xlsx_ns "sheetData") [] None
  [Xml (xlsx_ns "row") [] None [cell "A1" "EVENT_ID"; cell "B1" "EVENT_START_DATE"; cell "C1" " DEAD "];
   Xml (xlsx_ns "row") [] None [cell "A2" "7"; cell "B2" "30000"; cell "C2" "12"];
   Xml (xlsx_ns "row") [] None [cell "A3" "8"; cell "C3" "12"]]].

#[local] Instance sample_reader : Decoders := {|
  unzip := λ _, Ok [("xl/worksheets/sheet1.xml", Ok "sheet")]; fromstring := λ _, Tree sample_sheet; parse_error := RuntimeError "ParseError";
  loads := sample_payload; decode_sig := λ s, Ok s; decode := λ s, Ok s; csv_rows := λ _, Ok 0; float_of_str := sample_number;
  str_exn := λ _, ""; http_status_error := λ _, RuntimeError "HTTPStatusError" |}.

Definition sample_iso (s : string) : res datetime :=
  if str_eqb s "0" then Ok sample_now else Raise (ValueError "Invalid isoformat string").
Definition no_mail (_ : string) : res datetime := Raise (TypeError "cannot unpack non-iterable NoneType object").
Definition no_repr (_ : json) : string := "None".

Lemma sample_iso_error s e : sample_iso s = Raise e → value_error_b e = true.
Proof. unfold sample_iso. destruct (str_eqb s "0"); [done|]. by intros [= <-]. Qed.

Lemma no_mail_error s e : no_mail s = Raise e → value_error_b e = true ∨ e = OverflowError ∨ ∃ m, e = TypeError m.
Proof. intros [= <-]. right. right. by eexists. Qed.

Lemma sample_number_error s e : float_of_str s = Raise e → value_error_b e = true.
Proof. cbn. unfold sample_number. destruct (str_eqb s "30000"); [done|]. destruct (str_eqb s "12"); [done|]. by intros [= <-]. Qed.

Definition sample_summary : PublicSnapshot :=
  {| pn_source_id := "eccc-geomet-alerts"; pn_snapshot_id := "snap"; pn_content_sha256 := "h"; pn_retrieved_at := sample_now;
     pn_status_code := 200; pn_parser := PGeojson; pn_record_count := 2; pn_freshness_hours := lit 6; pn_quality_flags := [] |}.

Lemma alerts_exact_witness : ∃ i,
  normalize_alerts sample_iso no_mail no_repr sample_summary "alerts" later_now = Ok [i] ∧
  ni_provenance_snapshot_ids i = ["snap"] ∧ "expired_at_normalization" ∈ ni_quality_flags i.
Proof.
  destruct (alerts_exact sample_iso no_mail no_repr sample_iso_error no_mail_error sample_summary "alerts" later_now sample_collection
    [JNull; sample_feature]) as (l & E & F); [reflexivity..|].
  change (omap properties_of [JNull; sample_feature]) with
    (match properties_of sample_feature with Some fp => [fp] | None => [] end) in F.
  destruct (properties_of sample_feature) as [fp|] eqn:Ef; [|discriminate Ef].
  apply Forall2_cons_inv_l in F as (i & l' & Hi & F & ->). apply Forall2_nil_inv_l in F. subst l'.
  exists i. split; [exact E|]. destruct Hi as [_ _ P X _ _]. split; [exact P|]. apply X. exists sample_now.
  injection Ef as <-. split; [vm_compute; reflexivity|vm_compute; reflexivity].
Defined.

(** The quality code 1 and no review mark: no flag; a Boolean is read as a number. *)
Lemma levels_exact_witness : ∃ i j,
  normalize_levels sample_iso no_mail no_repr "snap" "s1" "wlo" "levels" = Ok [i; j] ∧
  ni_quality_flags i = [] ∧ ni_value j = f1.
Proof.
  pose proof (levels_exact sample_iso no_mail no_repr sample_iso_error no_mail_error "snap" "s1" "wlo" "levels" sample_levels eq_refl) as P.
  destruct (normalize_levels sample_iso no_mail no_repr "snap" "s1" "wlo" "levels") as [l|e] eqn:E; [|vm_compute in E; discriminate E].
  destruct P as [_ F].
  - intros item z Hin Hz. assert (Forall (λ item, match dict_get item "value" with JNum z => isfinite (f_of_Z z) | _ => true end = true) sample_levels) as A
      by (repeat constructor; vm_compute; reflexivity).
    rewrite Forall_forall in A. specialize (A item Hin). rewrite Hz in A. exact A.
  - change (List.filter (readable sample_iso no_mail) sample_levels) with [sample_level (JNum 3); sample_level (JBool true)] in F.
    apply Forall2_cons_inv_l in F as (i & l1 & Hi & F & ->). apply Forall2_cons_inv_l in F as (j & l2 & Hj & F & ->).
    apply Forall2_nil_inv_l in F. subst l2. exists i, j. split; [reflexivity|]. split.
    + apply (lo_flags _ _ _ _ _ _ Hi). split; [vm_compute; reflexivity|vm_compute; discriminate].
    + pose proof (lo_value _ _ _ _ _ _ Hj) as V. change (Ok f1 = Ok (ni_value j)) in V. congruence.
Defined.

Lemma events_exact_witness : ∃ l,
  normalize_events sample_iso no_mail sample_summary "book" = Ok l ∧ length l = 2%nat ∧ length (List.filter is_event l) = 1%nat.
Proof.
  destruct (xlsx_rows "book") as [rows|e] eqn:Er; [|vm_compute in Er; discriminate Er].
  destruct (events_exact sample_iso no_mail sample_iso_error no_mail_error sample_number_error sample_summary "book" rows Er) as (E & L & _).
  assert (rows = [[("EVENT_ID", "7"); ("EVENT_START_DATE", "30000"); ("DEAD", "12")]; [("EVENT_ID", "8"); ("EVENT_START_DATE", ""); ("DEAD", "12")]]) as ->
    by (vm_compute in Er; congruence).
  eexists. split; [exact E|]. split; [vm_compute; reflexivity|]. vm_compute. reflexivity.
Defined.

(** 30000 days: the 18th of February 1982. *)
Lemma excel_whole_days_witness : ∃ d, parse_excel_date sample_iso no_mail (Some "30000") = Ok (Some d) ∧ isoformat d = "1982-02-18T00:00:00+00:00".
Proof.
  exists {| dt_us := excel_epoch + 30000 * 86400000000; dt_aware := true |}. split; [|vm_compute; reflexivity].
  apply (excel_whole_days sample_iso no_mail "30000" 30000); vm_compute; reflexivity.
Defined.

(** The order of the directories in which a map lists them. *)
Definition sample_dirs (s : string) (fs : cache) : list string :=
  List.filter (λ d, match snapshot_at s fs d with Some _ => true | None => false end) ((map_to_list fs).*1.*2).

Lemma sample_dirs_ok s fs d : d ∈ sample_dirs s fs ↔ is_Some (snapshot_at s fs d).
Proof.
  unfold sample_dirs. rewrite list_elem_of_In, List.filter_In, <-list_elem_of_In. split.
  - intros [_ E]. destruct (snapshot_at s fs d); [by eexists|done].
  - intros [m E]. split; [|by rewrite E]. unfold snapshot_at in E. destruct (fs !! (s, d)) as [dir|] eqn:El; [|done].
    apply list_elem_of_fmap. exists (s, d). split; [done|]. apply list_elem_of_fmap. exists ((s, d), dir). split; [done|]. by apply elem_of_map_to_list.
Qed.

Lemma provenance_is_content_witness : ∃ snapshot m fs',
  fetched sample_hash sample_dirs (plane_fetch_url sample_hash no_environ (respond 200 [] "levels") open_plane sample_dirs
    dfo (stations_url "QUE") false sample_now sample_now) dfo (stations_url "QUE") "gone" sample_now ∅ = (Ok (snapshot, m, "levels"), fs') ∧
  pn_content_sha256 snapshot = "hlevels" ∧ pn_record_count snapshot = 3.
Proof.
  destruct (dget PUBLIC_SOURCE_SPECS dfo) as [sp|] eqn:Esp; [|discriminate Esp].
  destruct (provenance_is_content sample_hash no_environ (respond 200 [] "levels") open_plane sample_dirs sample_dirs_ok
    dfo (stations_url "QUE") "gone" false sample_now sample_now ∅ sp {| hr_status := 200; hr_headers := []; hr_content := "levels" |} (3, []))
    as (snapshot & m & fs' & E & _ & D & C & _).
  - exact Esp.
  - exact empty_cache_ok.
  - right. reflexivity.
  - injection Esp as <-. reflexivity.
  - injection Esp as <-. reflexivity.
  - reflexivity.
  - reflexivity.
  - split; vm_compute; discriminate.
  - split; vm_compute; discriminate.
  - intros d m E. discriminate E.
  - exists snapshot, m, fs'. split; [exact E|]. split; [exact D|exact C].
Defined.
