(* ===== verification/Ingest.v ===== *)
(** * sources/adapters.py and ingest.py: open sources as observations

    Three parsers turn a sea-ice table (CSV), orbital elements and an imagery search
    (JSON) into observations for [Fusion]; [ingest.py] feeds them from the cache of
    [Cache], asking the network only without a fresh snapshot.  The readers of CSV and
    JSON, of numbers and of instants are arguments, as in [PublicData] and [Indicators];
    so are the HTTP client, the digest and the identifiers of observations.  A group
    name of orbital elements is ASCII, the dates of a search are in UTC. *)

From Stdlib Require Import ZArith QArith Ascii.
From S2P Require Import Prelude PyFloat FloatError PyFormat Domain Sources Fusion State Cache PublicData.
From S2P Require Interop Indicators Compiler.

Open Scope Z_scope.

(** ** Dates of the calendar *)

Definition leap_year (y : Z) : bool := (y mod 4 =? 0) && (negb (y mod 100 =? 0) || (y mod 400 =? 0)).

Definition days_in_month (y m : Z) : Z :=
  if m =? 2 then (if leap_year y then 29 else 28)
  else if (m =? 4) || (m =? 6) || (m =? 9) || (m =? 11) then 30 else 31.

Record date := { d_year : Z; d_month : Z; d_day : Z }.

#[export] Instance date_eq_dec : EqDecision date.
Proof. solve_decision. Defined.

Definition valid_date (y m d : Z) : bool :=
  (1 <=? y) && (y <=? 9999) && (1 <=? m) && (m <=? 12) && (1 <=? d) && (d <=? days_in_month y m).

Definition c_int (z : Z) : bool := (-2147483648 <=? z) && (z <=? 2147483647).

(** [date(y, m, d)]: the arguments are converted to C integers first. *)
Definition new_date (y m d : Z) : res date :=
  _ ← raise_if (negb (c_int y && c_int m && c_int d)) OverflowError;
  _ ← raise_if (negb (valid_date y m d)) (ValueError "day is out of range for month");
  Ok {| d_year := y; d_month := m; d_day := d |}.

(** The days from 1970-01-01 to a date. *)
Definition days_from_civil (y m d : Z) : Z :=
  let y := if m <=? 2 then y - 1 else y in
  let era := y / 400 in
  let yoe := y mod 400 in
  let mp := if m <=? 2 then m + 9 else m - 3 in
  era * 146097 + (yoe * 365 + yoe / 4 - yoe / 100 + ((153 * mp + 2) / 5 + d - 1)) - 719468.

(** [datetime.combine(observed, datetime.min.time(), tzinfo=UTC)] *)
Definition midnight (d : date) : datetime :=
  {| dt_us := days_from_civil (d_year d) (d_month d) (d_day d) * 86400000000; dt_aware := true |}.

(** [statistics.median]; a list with a NaN is sorted otherwise by Python, but then its
    day raises anyway (its rows are among those an observation is made of). *)
Definition median (l : list float) : res float :=
  let data := sort_by fleb l in
  let n := length data in
  if (n =? 0)%nat then Raise (ValueError "no median for empty data")
  else if Nat.odd n then index data (n / 2)
  else a ← index data (n / 2 - 1); b ← index data (n / 2); fdiv (a + b)%F (lit 2).

(** ** The sea-ice table *)

(** A value of [csv.DictReader]: a text, none where the row is too short, and the list of
    the surplus texts (under the key [None]) where it is too long. *)
Inductive cell :=
| Text (s : string)
| Missing
| Surplus (l : list string).

Notation raw_row := (dict (option string) cell).
Notation row := (dict string string).

Definition cell_text (c : cell) : res string :=
  match c with
  | Text s => Ok (str_strip s)
  | Missing | Surplus [] => Ok ""
  | Surplus _ => Raise (AttributeError "'list' object has no attribute 'strip'")
  end.

(** [{str(key).strip().lower(): (value or "").strip() for key, value in raw.items()}] *)
Definition clean_row (raw : raw_row) : res row :=
  foldM (λ (d : row) kv, s ← cell_text kv.2; Ok (dset d (str_lower (str_strip (default "None" kv.1))) s)) [] raw.

(** The rows [csv.DictReader] yields and the error that ends it, if any. *)
Notation csv_read := (list raw_row * option exn)%type.

Definition extent_row := (date * float * row)%type.
Definition er_date (r : extent_row) : date := r.1.1.
Definition er_extent (r : extent_row) : float := r.1.2.

Section adapters.
Context `{Decoders} (sha256 : string → string) (dict_reader : string → csv_read) (int_of_str : string → res Z)
  (fromisoformat : string → res datetime).

Definition provenance (uri body : string) (snapshot_id : option string) (licence : string) (now : datetime) : Provenance :=
  {| prov_uri := uri; prov_retrieved_at := now; prov_content_sha256 := sha256 body; prov_snapshot_id := snapshot_id;
     prov_licence := Some licence |}.

Definition row_item (r : row) (k : string) : res string :=
  match dget r k with Some s => Ok s | None => Raise (KeyError k) end.

(** The body of the [try]. *)
Definition read_row (r : row) : res (float * date) :=
  extent ← float_of_str (dget_default r "extent" (dget_default r "extent_million_sq_km" ""));
  y ← row_item r "year"; y ← int_of_str y;
  m ← row_item r "month"; m ← int_of_str m;
  d ← row_item r "day"; d ← int_of_str d;
  observed ← new_date y m d;
  Ok (extent, observed).

Definition skipped (e : exn) : bool :=
  value_error_b e || match e with KeyError _ | TypeError _ => true | _ => false end.

Definition row_step (parsed : list extent_row) (raw : raw_row) : res (list extent_row) :=
  r ← clean_row raw;
  match read_row r with
  | Ok (extent, observed) => Ok (if (extent <? f0)%F then parsed else parsed ++ [(observed, extent, r)])
  | Raise e => if skipped e then Ok parsed else Raise e
  end.

Definition in_reference (d : date) : bool := (1981 <=? d_year d) && (d_year d <=? 2010).

Definition day_key (d : date) : Z * Z := (d_month d, d_day d).

Definition baseline_step (baseline : dict (Z * Z) (list float)) (r : extent_row) : dict (Z * Z) (list float) :=
  if in_reference (er_date r) then dappend baseline (day_key (er_date r)) (er_extent r) else baseline.

Definition baseline_of (parsed : list extent_row) : dict (Z * Z) (list float) := foldl baseline_step [] parsed.

Definition extent_observation (id : string) (p : Provenance) (r : extent_row) (reference : float) : Observation :=
    {| obs_observation_id := id; obs_source_id := "nsidc-sea-ice-index"; obs_source_trust := ST_AUTHORITATIVE_PUBLIC;
       obs_assertion_class := AC_CLIMATE; obs_metric := M_SEA_ICE_EXTENT_ANOMALY;
       obs_value := fround 6 (er_extent r - reference)%F; obs_unit := "million_km2_anomaly";
       obs_observed_at := midnight (er_date r); obs_valid_until := None; obs_location := None;
       obs_confidence := lit 0.97; obs_provenance := p;
       obs_metadata := [("hemisphere", VStr (dget_default r.2 "hemisphere" "north"));
                        ("absolute_extent_million_km2", VFloat (er_extent r));
                        ("baseline_median_million_km2", VFloat reference);
                        ("baseline_period", VStr "1981-2010"); ("operability_role", VStr "context_only")] |}.

(** One row of the last loop; [new_id] gives the identifier of each observation. *)
Definition observation_step (new_id : nat → string) (p : Provenance) (baseline : dict (Z * Z) (list float))
    (observations : list Observation) (r : extent_row) : res (list Observation) :=
  match dget_default baseline (day_key (er_date r)) [] with
  | [] => Ok observations
  | values =>
      reference ← median values;
      o ← new_Observation (extent_observation (new_id (length observations)) p r reference);
      Ok (observations ++ [o])
  end.

Definition parse_nsidc_daily_extent_csv (new_id : nat → string) (now : datetime) (body uri : string) (snapshot_id : option string)
    : res (list Observation) :=
  text ← decode_sig body;
  let '(rows, error) := dict_reader text in
  parsed ← foldM row_step [] rows;
  _ ← match error with Some e => Raise e | None => Ok tt end;
  foldM (observation_step new_id (provenance uri body snapshot_id "NOAA@NSIDC terms" now) (baseline_of parsed)) [] parsed.

(** ** Orbital elements *)

Definition parse_iso_timestamp (value : json) : res (option datetime) :=
  match value with
  | JStr s =>
      if str_empty (str_strip s) then Ok None
      else match fromisoformat (Interop.replace_Z (str_strip s)) with
           | Ok d => if Indicators.in_calendar (dt_us d) then Ok (Some (Indicators.as_utc d)) else Raise OverflowError
           | Raise e => if value_error_b e then Ok None else Raise e
           end
  | _ => Ok None
  end.

(** The epochs of the records with an identifier. *)
Definition epoch_step (epochs : list datetime) (item : json) : res (list datetime) :=
  match item with
  | JObj o =>
      if falsy (dict_get o "OBJECT_ID") then Ok epochs
      else epoch ← parse_iso_timestamp (dict_get o "EPOCH");
           Ok (match epoch with Some t => epochs ++ [t] | None => epochs end)
  | _ => Ok epochs
  end.

Definition latest_of (first : datetime) (rest : list datetime) : datetime :=
  foldl (λ a b, if dt_us a <? dt_us b then b else a) first rest.
Definition oldest_of (first : datetime) (rest : list datetime) : datetime :=
  foldl (λ a b, if dt_us b <? dt_us a then b else a) first rest.

Definition gp_observation (id : string) (p : Provenance) (first : datetime) (rest : list datetime) : Observation :=
  let n := Z.of_nat (length (first :: rest)) in
  {| obs_observation_id := id; obs_source_id := "celestrak-gp"; obs_source_trust := ST_OPEN_CONTEXT;
     obs_assertion_class := AC_ORBITAL_GEOMETRY; obs_metric := M_SATELLITE_GEOMETRY_DENSITY;
     obs_value := f_of_Z n; obs_unit := "catalogued_objects"; obs_observed_at := latest_of first rest;
     obs_valid_until := None; obs_location := None; obs_confidence := lit 0.80; obs_provenance := p;
     obs_metadata := [("record_count", VInt n); ("oldest_epoch", VStr (isoformat (oldest_of first rest)));
                      ("latest_epoch", VStr (isoformat (latest_of first rest)));
                      ("warning", VStr "not service availability"); ("operability_role", VStr "context_only")] |}.

Definition parse_celestrak_gp_json (id : string) (now : datetime) (body uri : string) (snapshot_id : option string)
    : res Observation :=
  payload ← loads body;
  match payload with
  | JArr items =>
      epochs ← foldM epoch_step [] items;
      match epochs with
      | [] => Raise (ValueError "CelesTrak response contains no epoch-qualified GP records")
      | first :: rest => new_Observation (gp_observation id (provenance uri body snapshot_id "CelesTrak usage policy" now) first rest)
      end
  | _ => Raise (ValueError "CelesTrak response must be a JSON array")
  end.

(** ** Imagery searches *)

(** [payload.get(k, default)] of a value that may not be a dictionary *)
Definition as_dict (v : json) : res object :=
  match v with JObj m => Ok m | _ => Raise (AttributeError "object has no attribute 'get'") end.

Definition acquisition_step (times : list datetime) (feature : json) : res (list datetime) :=
  match feature with
  | JObj f =>
      match dict_get f "properties" with
      | JObj p =>
          let d := dict_get p "datetime" in
          timestamp ← parse_iso_timestamp (if falsy d then dict_get p "start_datetime" else d);
          Ok (match timestamp with Some t => times ++ [t] | None => times end)
      | _ => Ok times
      end
  | _ => Ok times
  end.

(** The observation of [n] features with these acquisition times; [clock] is the reading of
    [datetime.now] when there are none. *)
Definition stac_observation (id : string) (p : Provenance) (clock : datetime) (n : Z) (times : list datetime) : Observation :=
  let latest := match times with first :: rest => Some (latest_of first rest) | [] => None end in
  {| obs_observation_id := id; obs_source_id := "copernicus-cdse-stac"; obs_source_trust := ST_AUTHORITATIVE_PUBLIC;
     obs_assertion_class := AC_EARTH_OBSERVATION; obs_metric := M_EARTH_OBSERVATION_COVERAGE;
     obs_value := f_of_Z n; obs_unit := "catalogue_features"; obs_observed_at := default clock latest;
     obs_valid_until := None; obs_location := None;
     obs_confidence := match latest with Some _ => lit 0.85 | None => lit 0.40 end; obs_provenance := p;
     obs_metadata := [("feature_count", VInt n); ("derived_analysis_required", VBool true);
                      ("latest_acquisition", match latest with Some t => VStr (isoformat t) | None => VNone end);
                      ("operability_role", VStr "context_only")] |}.

Definition parse_stac_search_response (id : string) (clock now : datetime) (body uri : string) (snapshot_id : option string)
    : res Observation :=
  v ← loads body; payload ← as_dict v;
  _ ← raise_if (negb (eq_str (dict_get payload "type") "FeatureCollection")) (ValueError "STAC response must be a FeatureCollection");
  match default (JArr []) (payload !! "features") with
  | JArr features =>
      times ← foldM acquisition_step [] features;
      new_Observation (stac_observation id (provenance uri body snapshot_id "Copernicus data terms" now) clock (Z.of_nat (length features)) times)
  | _ => Raise (ValueError "STAC features must be an array")
  end.

End adapters.

(** ** Requests *)

Record stac_query := {
  sq_bbox : float * float * float * float;
  sq_datetime : string;
  sq_limit : Z
}.

#[export] Instance stac_query_eq_dec : EqDecision stac_query.
Proof. solve_decision. Defined.

Definition build_copernicus_stac_query (bbox : float * float * float * float) (start end_ : datetime) (limit : Z) : res stac_query :=
  _ ← raise_if (negb (dt_aware start) || negb (dt_aware end_)) (ValueError "STAC query dates must be timezone-aware");
  _ ← raise_if (dt_us end_ <=? dt_us start) (ValueError "start must precede end");
  _ ← raise_if (negb ((1 <=? limit) && (limit <=? 1000))) (ValueError "limit outside supported range");
  let '(west, south, east, north) := bbox in
  _ ← raise_if (negb ((lit (-180) <=? west)%F && (west <? east)%F && (east <=? lit 180)%F)) (ValueError "invalid STAC longitude bounds");
  _ ← raise_if (negb ((lit (-90) <=? south)%F && (south <? north)%F && (north <=? lit 90)%F)) (ValueError "invalid STAC latitude bounds");
  Ok {| sq_bbox := bbox; sq_datetime := isoformat start +:+ "/" +:+ isoformat end_; sq_limit := limit |}.

Definition is_alnum (c : ascii) : bool :=
  let n := Ascii.N_of_ascii c in
  ((48 <=? n) && (n <=? 57) || (65 <=? n) && (n <=? 90) || (97 <=? n) && (n <=? 122))%N.

Fixpoint all_chars (p : ascii → bool) (s : string) : bool :=
  match s with EmptyString => true | String c s => p c && all_chars p s end.

(** [s.isalnum()] *)
Definition isalnum (s : string) : bool := negb (str_empty s) && all_chars is_alnum s.

(** [s.replace(c, '')] *)
Fixpoint drop_char (c : ascii) (s : string) : string :=
  match s with EmptyString => EmptyString | String c' s => if Ascii.eqb c' c then drop_char c s else String c' (drop_char c s) end.

Definition dash : ascii := ascii_of_N 45.

Definition celestrak_url (safe : string) : string :=
  "https://celestrak.org/NORAD/elements/gp.php?GROUP=" +:+ safe +:+ "&FORMAT=JSON".

Definition build_celestrak_query (group : string) : res string :=
  let safe := str_lower (str_strip group) in
  _ ← raise_if (negb (isalnum (drop_char dash safe))) (ValueError "invalid CelesTrak group");
  Ok (celestrak_url safe).

(** ** ingest.py *)

Definition NSIDC_NORTH_DAILY_EXTENT : string :=
  "https://noaadata.apps.nsidc.org/NOAA/G02135/north/daily/data/N_seaice_extent_daily_v4.0.csv".
Definition COPERNICUS_STAC_SEARCH : string := "https://stac.dataspace.copernicus.eu/v1/search".

Definition quoted (s : string) : string := String quote2 (s +:+ String quote2 EmptyString).

(** [json.dumps(query, sort_keys=True, separators=(",", ":"))] *)
Definition canonical_request (q : stac_query) : string :=
  let '(west, south, east, north) := sq_bbox q in
  "{" +:+ quoted "bbox" +:+ ":[" +:+ str_join "," (str_float <$> [west; south; east; north]) +:+ "],"
  +:+ quoted "collections" +:+ ":[" +:+ quoted "sentinel-1-grd" +:+ "],"
  +:+ quoted "datetime" +:+ ":" +:+ quoted (sq_datetime q) +:+ "," +:+ quoted "limit" +:+ ":" +:+ str_Z (sq_limit q) +:+ "}".

Definition source_uri (q : stac_query) : string := COPERNICUS_STAC_SEARCH +:+ "#request=" +:+ canonical_request q.

Record OpenSourceIngestor := { oi_outbound_enabled : bool; oi_max_cache_age_hours : float }.

(** The readings of the clock of one call: at the lookup, at the store, at the parse
    (where a search may read it twice), and the order in which the files are found. *)
Record moment := { at_lookup : datetime; at_store : datetime; at_search : datetime; at_parse : datetime; file_order : list string }.

Section ingest.
Context `{Decoders} (sha256 : string → string) (dict_reader : string → csv_read) (int_of_str : string → res Z)
  (fromisoformat : string → res datetime).
Context (http_get : string → res response) (http_post : stac_query → res response) (self : OpenSourceIngestor).

Definition cached (source_id url : string) (t : moment) (fs : cache) : res (option (SnapshotMetadata * string)) :=
  latest sha256 source_id (Some url) (Some (oi_max_cache_age_hours self)) (at_lookup t) (file_order t) fs.

(** [_get_or_fetch] *)
Definition get_or_fetch (source_id url : string) (t : moment) (fs : cache) : res (SnapshotMetadata * string) * cache :=
  match cached source_id url t fs with
  | Raise e => (Raise e, fs)
  | Ok (Some hit) => (Ok hit, fs)
  | Ok None => Cache.fetch sha256 http_get source_id url (oi_outbound_enabled self) (at_store t) fs
  end.

Definition nsidc_daily_extent (new_id : nat → string) (t : moment) (fs : cache) : res (list Observation) * cache :=
  match get_or_fetch "nsidc-sea-ice-index" NSIDC_NORTH_DAILY_EXTENT t fs with
  | (Ok (m, body), fs) =>
      (parse_nsidc_daily_extent_csv sha256 dict_reader int_of_str new_id (at_parse t) body NSIDC_NORTH_DAILY_EXTENT
         (Some (sm_snapshot_id m)), fs)
  | (Raise e, fs) => (Raise e, fs)
  end.

Definition celestrak_geometry (group id : string) (t : moment) (fs : cache) : res Observation * cache :=
  match build_celestrak_query group with
  | Raise e => (Raise e, fs)
  | Ok url =>
      match get_or_fetch "celestrak-gp" url t fs with
      | (Ok (m, body), fs) =>
          (parse_celestrak_gp_json sha256 fromisoformat id (at_parse t) body url (Some (sm_snapshot_id m)), fs)
      | (Raise e, fs) => (Raise e, fs)
      end
  end.

(** The part of [copernicus_stac] after the query is built; [http_post] answers a status
    that is no error. *)
Definition search (id : string) (q : stac_query) (t : moment) (fs : cache) : res Observation * cache :=
  let uri := source_uri q in
  let parse (m : SnapshotMetadata) (body : string) :=
    parse_stac_search_response sha256 fromisoformat id (at_search t) (at_parse t) body uri (Some (sm_snapshot_id m)) in
  match cached "copernicus-cdse-stac" uri t fs with
  | Raise e => (Raise e, fs)
  | Ok (Some (m, body)) => (parse m body, fs)
  | Ok None =>
      if negb (oi_outbound_enabled self) then
        (Raise (RuntimeError "outbound HTTP disabled; import a saved STAC response instead"), fs)
      else match http_post q with
           | Raise e => (Raise e, fs)
           | Ok (body, headers, status) =>
               match store sha256 "copernicus-cdse-stac" uri body headers status (at_store t) fs with
               | (Ok m, fs) => (parse m body, fs)
               | (Raise e, fs) => (Raise e, fs)
               end
           end
  end.

Definition copernicus_stac (id : string) (bbox : float * float * float * float) (start end_ : datetime) (limit : Z)
    (t : moment) (fs : cache) : res Observation * cache :=
  match build_copernicus_stac_query bbox start end_ limit with
  | Ok q => search id q t fs
  | Raise e => (Raise e, fs)
  end.

End ingest.

Definition is_feature (feature : json) : bool :=
  match feature with JObj f => eq_str (dict_get f "type") "Feature" | _ => false end.

Definition normalize_geomet_feature_collection (payload : object) : res (list json) :=
  match dict_get payload "features" with
  | JArr features => Ok (List.filter is_feature features)
  | _ => Raise (ValueError "GeoMet response missing features array")
  end.

(** ** Dates *)

(** The year of the era, counted from March, from the day of the era. *)
Lemma year_of_era yoe doy : 0 <= yoe < 400 → 0 <= doy <= 365 → (doy = 365 → leap_year (yoe + 1) = true) →
  let doe := yoe * 365 + yoe / 4 - yoe / 100 + doy in
  0 <= doe < 146097 ∧ (doe - doe / 1460 + doe / 36524 - doe / 146096) / 365 = yoe.
Proof.
  intros H1 H2 H3 doe.
  assert (doy = 365 → (yoe + 1) mod 4 = 0 ∧ ((yoe + 1) mod 100 ≠ 0 ∨ (yoe + 1) mod 400 = 0)) as H4.
  { intros E. specialize (H3 E). unfold leap_year in H3. bool_norm. split; [lia|].
    match goal with H : _ || _ = true |- _ => apply orb_true_iff in H as [H|H] end; bool_norm; auto. }
  clear H3. unfold doe. Z.to_euclidean_division_equations. lia.
Qed.

Lemma leap_year_period y era : leap_year (400 * era + y) = leap_year y.
Proof.
  unfold leap_year. assert ((400 * era + y) mod 4 = y mod 4) as -> by (Z.to_euclidean_division_equations; lia).
  assert ((400 * era + y) mod 100 = y mod 100) as -> by (Z.to_euclidean_division_equations; lia).
  assert ((400 * era + y) mod 400 = y mod 400) as -> by (Z.to_euclidean_division_equations; lia). done.
Qed.

(** The month, counted from March, from the day of the year. *)
Lemma month_of_year y m d : 1 <= m <= 12 → 1 <= d <= days_in_month y m →
  let mp := if m <=? 2 then m + 9 else m - 3 in
  let doy := (153 * mp + 2) / 5 + d - 1 in
  (5 * doy + 2) / 153 = mp ∧ 0 <= doy <= 365 ∧ (doy = 365 → m = 2 ∧ leap_year y = true).
Proof.
  intros Hm Hd. assert (m ∈ [1; 2; 3; 4; 5; 6; 7; 8; 9; 10; 11; 12]) as Hin by (rewrite !elem_of_cons, elem_of_nil; lia).
  repeat (apply elem_of_cons in Hin as [->|Hin]); [..|by apply elem_of_nil in Hin];
    unfold days_in_month in Hd; cbn in Hd |- *; destruct (leap_year y);
    (split_and!; [Z.to_euclidean_division_equations; lia..|intros H; first [by split|exfalso; Z.to_euclidean_division_equations; lia]]).
Qed.

(** The day number of a date of the calendar, read back. *)
Lemma date_roundtrip y m d : valid_date y m d = true → civil_from_days (days_from_civil y m d) = (y, m, d).
Proof.
  intros Hv. unfold valid_date in Hv. bool_norm. unfold days_from_civil.
  destruct (month_of_year y m d ltac:(lia) ltac:(lia)) as (Hmp & Hdoy & H365). cbv zeta in Hmp, Hdoy, H365.
  set (mp := if m <=? 2 then m + 9 else m - 3) in *. set (doy := (153 * mp + 2) / 5 + d - 1) in *.
  set (y' := if m <=? 2 then y - 1 else y). set (yoe := y' mod 400). set (era := y' / 400).
  assert (0 <= yoe < 400) as Hy by (apply Z.mod_pos_bound; lia).
  assert (y' = 400 * era + yoe) as Ey by (apply Z.div_mod; lia).
  assert (doy = 365 → leap_year (yoe + 1) = true) as Hleap.
  { intros E. destruct (H365 E) as [-> L]. cbn in y'. rewrite <-(leap_year_period (yoe + 1) era), <-L. f_equal. lia. }
  destruct (year_of_era yoe doy Hy Hdoy Hleap) as [Hdoe Hyear]. cbv zeta in Hdoe, Hyear.
  set (doe := yoe * 365 + yoe / 4 - yoe / 100 + doy) in *. unfold civil_from_days.
  replace (era * 146097 + doe - 719468 + 719468) with (doe + era * 146097) by lia.
  rewrite Z.div_add, Z.mod_add, (Z.div_small doe), (Z.mod_small doe) by lia. cbv zeta. rewrite Hyear.
  replace (doe - (365 * yoe + yoe / 4 - yoe / 100)) with doy by (unfold doe; lia). rewrite Hmp.
  assert ((if mp <? 10 then mp + 3 else mp - 9) = m) as ->.
  { unfold mp. destruct (Z.leb_spec m 2); [destruct (Z.ltb_spec (m + 9) 10)|destruct (Z.ltb_spec (m - 3) 10)]; lia. }
  f_equal; [f_equal|unfold doy; lia]. unfold y' in Ey. destruct (m <=? 2); lia.
Qed.

(** The observation of a row is dated at midnight of its day. *)
Lemma midnight_iso d : valid_date (d_year d) (d_month d) (d_day d) = true →
  isoformat (midnight d) =
    digits 4 (d_year d) +:+ "-" +:+ digits 2 (d_month d) +:+ "-" +:+ digits 2 (d_day d) +:+ "T00:00:00+00:00".
Proof.
  intros Hv. unfold isoformat, midnight. cbn [dt_us dt_aware]. rewrite Z.div_mul, Z.mod_mul, date_roundtrip by done.
  reflexivity.
Qed.

Lemma midnight_calendar d : valid_date (d_year d) (d_month d) (d_day d) = true → calendar (midnight d).
Proof.
  unfold valid_date, calendar, midnight, days_from_civil. cbn [dt_us]. intros Hv. bool_norm.
  assert (d_day d <= 31) by (unfold days_in_month in *; repeat case_match; lia).
  destruct (d_month d <=? 2) eqn:E; bool_norm; Z.to_euclidean_division_equations; lia.
Qed.

(** ** What the parsers assert *)

(** An observation the fusion policy accepts as context, never as evidence of operability. *)
Record context_observation (o : Observation) : Prop := {
  co_valid : validate_observation_source o = Ok tt;
  co_context : operative o = false;
  co_calendar : calendar (obs_observed_at o)
}.

Lemma new_Observation_same o o' : new_Observation o = Ok o' → o' = o ∧ isfinite (obs_value o) = true.
Proof.
  unfold new_Observation, validate_metric_value. intros H. inv_ok.
  repeat match goal with H : (if ?b then _ else _) = Ok _ |- _ => destruct b; try done end; inv_ok; by split.
Qed.

Section parsers.
Context `{Decoders} (sha256 : string → string) (dict_reader : string → csv_read) (int_of_str : string → res Z)
  (fromisoformat : string → res datetime).

Local Abbreviation parse_nsidc := (parse_nsidc_daily_extent_csv sha256 dict_reader int_of_str).
Local Abbreviation parse_celestrak := (parse_celestrak_gp_json sha256 fromisoformat).
Local Abbreviation parse_stac := (parse_stac_search_response sha256 fromisoformat).

(** An observation one of the parsers returned; a search is made at an instant of the calendar. *)
Inductive ingested (o : Observation) : Prop :=
| from_nsidc new_id now body uri snapshot_id l :
    parse_nsidc new_id now body uri snapshot_id = Ok l → o ∈ l → ingested o
| from_celestrak id now body uri snapshot_id : parse_celestrak id now body uri snapshot_id = Ok o → ingested o
| from_stac id clock now body uri snapshot_id : calendar clock →
    parse_stac id clock now body uri snapshot_id = Ok o → ingested o.

Lemma read_row_date r extent observed : read_row int_of_str r = Ok (extent, observed) →
  valid_date (d_year observed) (d_month observed) (d_day observed) = true.
Proof using.
  unfold read_row, new_date. intros E. inv_ok. by bool_norm.
Qed.

(** A row that counts. *)
Definition dated (raw : raw_row) : option extent_row :=
  match clean_row raw with
  | Ok r => match read_row int_of_str r with
            | Ok (extent, observed) => if (extent <? f0)%F then None else Some (observed, extent, r)
            | Raise _ => None
            end
  | Raise _ => None
  end.

Lemma rows_parsed rows parsed acc : foldM (row_step int_of_str) acc rows = Ok parsed → parsed = acc ++ omap dated rows.
Proof using.
  revert acc. induction rows as [|raw rows IH]; intros acc E; cbn in E; [inv_ok; by rewrite app_nil_r|].
  apply bind_ok in E as (acc' & E & ->%IH). unfold row_step in E. apply bind_ok in E as (r & Er & E).
  cbn [omap list_omap]. unfold dated at 2. rewrite Er. destruct (read_row int_of_str r) as [[x d]|e].
  - destruct (x <? f0)%F; inv_ok; [done|by rewrite <-app_assoc].
  - by destruct (skipped e); inv_ok.
Qed.

Lemma dated_valid raw r : dated raw = Some r →
  valid_date (d_year (er_date r)) (d_month (er_date r)) (d_day (er_date r)) = true.
Proof using.
  unfold dated. destruct (clean_row raw) as [r0|]; [|done]. destruct (read_row int_of_str r0) as [[x d]|] eqn:E; [|done].
  destruct (x <? f0)%F; [done|]. intros [= <-]. by apply read_row_date in E.
Qed.

Lemma extent_observation_context id p r reference o : valid_date (d_year (er_date r)) (d_month (er_date r)) (d_day (er_date r)) = true →
  new_Observation (extent_observation id p r reference) = Ok o → context_observation o.
Proof using.
  intros Hv [-> _]%new_Observation_same. constructor; [reflexivity|reflexivity|]. by apply midnight_calendar.
Qed.

Lemma observations_context new_id p base parsed acc l :
  Forall (λ r, valid_date (d_year (er_date r)) (d_month (er_date r)) (d_day (er_date r)) = true) parsed → Forall context_observation acc →
  foldM (observation_step new_id p base) acc parsed = Ok l → Forall context_observation l.
Proof using.
  intros Hp. revert acc. induction Hp as [|r parsed Hr Hp IH]; intros acc Hacc E; cbn in E; [by inv_ok|].
  apply bind_ok in E as (acc' & E & E'). eapply IH; [|exact E']. unfold observation_step in E.
  destruct (dget_default base _ _); inv_ok; [done|]. apply Forall_app; split; [done|]. constructor; [|done].
  by eapply extent_observation_context.
Qed.

Lemma parse_iso_calendar v t : parse_iso_timestamp fromisoformat v = Ok (Some t) → calendar t.
Proof using.
  unfold parse_iso_timestamp. destruct v; try done. destruct (str_empty _); [done|].
  destruct (fromisoformat _) as [d|e]; [|by destruct (value_error_b e)].
  destruct (Indicators.in_calendar (dt_us d)) eqn:E; [|done]. intros [= <-]. unfold Indicators.in_calendar in E. bool_norm.
  unfold calendar, Indicators.as_utc. cbn [dt_us]. lia.
Qed.

(** A loop that appends what it reads keeps a property of all instants read. *)
Lemma instants_calendar (step : list datetime → json → res (list datetime)) items acc l :
  (∀ acc item acc', Forall calendar acc → step acc item = Ok acc' → Forall calendar acc') →
  Forall calendar acc → foldM step acc items = Ok l → Forall calendar l.
Proof using.
  intros Hs. revert acc. induction items as [|x items IH]; intros acc Hacc E; cbn in E; [by inv_ok|].
  apply bind_ok in E as (acc' & E & E'). eauto.
Qed.

Lemma epoch_step_calendar acc item acc' : Forall calendar acc → epoch_step fromisoformat acc item = Ok acc' → Forall calendar acc'.
Proof using.
  unfold epoch_step. intros Hacc E. destruct item; inv_ok; try done. destruct (falsy _); inv_ok; [done|].
  destruct a as [t|]; [|done]. apply Forall_app; split; [done|]. constructor; [|done]. by eapply parse_iso_calendar.
Qed.

Lemma acquisition_step_calendar acc item acc' : Forall calendar acc → acquisition_step fromisoformat acc item = Ok acc' → Forall calendar acc'.
Proof using.
  unfold acquisition_step. intros Hacc E. destruct item; inv_ok; try done. destruct (dict_get _ "properties"); inv_ok; try done.
  destruct a as [t|]; [|done]. apply Forall_app; split; [done|]. constructor; [|done]. by eapply parse_iso_calendar.
Qed.

Lemma latest_of_calendar first rest : Forall calendar (first :: rest) → calendar (latest_of first rest).
Proof using.
  intros Hl. apply Forall_cons in Hl as [Hf Hr]. unfold latest_of. revert first Hf.
  induction Hr as [|t rest Ht Hr IH]; intros first Hf; cbn; [done|]. apply IH. by destruct (_ <? _).
Qed.

(** Everything the parsers return passes the source policy and is context only. *)
Lemma ingested_context o : ingested o → context_observation o.
Proof using.
  intros [new_id now body uri sid l E Ho|id now body uri sid E|id clock now body uri sid Hc E].
  - unfold parse_nsidc_daily_extent_csv in E. apply bind_ok in E as (text & _ & E).
    destruct (dict_reader text) as [rows error]. apply bind_ok in E as (parsed & Ep & E). apply bind_ok in E as (_ & _ & E).
    apply rows_parsed in Ep as ->. cbn [app] in E.
    eapply observations_context in E; [by eapply Forall_forall in E|..|done].
    apply Forall_forall. intros r (raw & _ & Hr)%list_elem_of_omap. by eapply dated_valid.
  - unfold parse_celestrak_gp_json in E. apply bind_ok in E as (v & _ & E). destruct v as [| | | | |items|]; try done.
    apply bind_ok in E as (epochs & Ee & E). apply (instants_calendar _ _ _ _ epoch_step_calendar) in Ee; [|done].
    destruct epochs as [|first rest]; [done|]. apply new_Observation_same in E as [-> _].
    constructor; [reflexivity|reflexivity|]. by apply latest_of_calendar.
  - unfold parse_stac_search_response in E. apply bind_ok in E as (v & _ & E). apply bind_ok in E as (payload & _ & E).
    apply bind_ok in E as (_ & _ & E). destruct (default _ _) as [| | | | |features|]; try done.
    apply bind_ok in E as (times & Et & E). apply (instants_calendar _ _ _ _ acquisition_step_calendar) in Et; [|done].
    apply new_Observation_same in E as [-> _]. constructor; [reflexivity|reflexivity|]. cbn [obs_observed_at].
    destruct times as [|first rest]; [done|]. by apply latest_of_calendar.
Qed.

End parsers.

(** ** Context beside evidence *)

(** [shuffle own context merged]: the two lists, interleaved in order. *)
Inductive shuffle {A} : list A → list A → list A → Prop :=
| shuffle_nil : shuffle [] [] []
| shuffle_own x own context merged : shuffle own context merged → shuffle (x :: own) context (x :: merged)
| shuffle_context x own context merged : shuffle own context merged → shuffle own (x :: context) (x :: merged).

(** What the screening of one observation decides: kept, or excluded with a caveat. *)
Definition screened (now : datetime) (o : Observation) : res (option string) :=
  match screen_step now ([], []) o with
  | Ok ([], s :: _) => Ok (Some s)
  | Ok _ => Ok None
  | Raise e => Raise e
  end.

Lemma screen_step_screened now v c o : screen_step now (v, c) o =
  match screened now o with Ok None => Ok (v ++ [o], c) | Ok (Some s) => Ok (v, c ++ [s]) | Raise e => Raise e end.
Proof.
  unfold screened, screen_step. destruct (validate_observation_source o); cbn; [|done].
  destruct (dt_us now <? _); [done|]. destruct (match obs_valid_until o with Some d => _ | None => _ end); [done|].
  destruct (hours_between _ _); cbn; [|done]. destruct (lookup_metric _ _); cbn; [|done]. by destruct (fltb _ _).
Qed.

Lemma context_screened now o : calendar now → context_observation o → ∃ r, screened now o = Ok r.
Proof.
  intros Hnow [Hv _ Hc]. unfold screened, screen_step. rewrite Hv. cbn [mbind res_bind].
  destruct (dt_us now <? _); [by eexists|]. destruct (match obs_valid_until o with Some d => _ | None => _ end); [by eexists|].
  destruct (hours_between_calendar now (obs_observed_at o) Hnow Hc) as [h ->]. cbn [mbind res_bind].
  destruct (gate_tables o Hv) as [[x Hx] _]. rewrite Hx. cbn. destruct (fltb _ _); by eexists.
Qed.

(** The same exception, or the same evidence kept. *)
Definition same_evidence (r r' : res (list Observation * list string)) : Prop :=
  match r, r' with
  | Ok (v, _), Ok (v', _) => v |? operative = v' |? operative ∧ (v ≠ [] → v' ≠ [])
  | Raise e, Raise e' => e = e'
  | _, _ => False
  end.

Lemma screen_shuffle now own context merged : shuffle own context merged → calendar now → Forall context_observation context →
  ∀ v c v' c', v |? operative = v' |? operative → (v ≠ [] → v' ≠ []) →
  same_evidence (foldM (screen_step now) (v, c) own) (foldM (screen_step now) (v', c') merged).
Proof.
  intros Hs Hnow. induction Hs as [|o own context merged Hs IH|o own context merged Hs IH]; intros Hctx v c v' c' Hv Hne; cbn [foldM].
  - done.
  - rewrite !screen_step_screened. destruct (screened now o) as [[s|]|e]; cbn [mbind res_bind]; [by apply IH|apply IH|done].
    + done.
    + by rewrite !List.filter_app, Hv.
    + by intros _ [_ ?]%app_eq_nil.
  - apply Forall_cons in Hctx as [Ho Hctx]. rewrite screen_step_screened.
    destruct (context_screened now o Hnow Ho) as [[s|] ->]; cbn [mbind res_bind]; apply IH; try done.
    + rewrite List.filter_app. cbn. by rewrite (co_context o Ho), app_nil_r.
    + by intros _ [_ ?]%app_eq_nil.
Qed.

(** The groups depend on the evidence only. *)
Definition same_groups (r r' : res (dict CorridorFactor (list Observation) * list MetricName * list MetricName)) : Prop :=
  match r, r' with
  | Ok (g, p, _), Ok (g', p', _) => g = g' ∧ p = p'
  | Raise e, Raise e' => e = e'
  | _, _ => False
  end.

Lemma group_evidence l g p c c' : same_groups (foldM group_step (g, p, c) l) (foldM group_step (g, p, c') (l |? operative)).
Proof.
  revert g p c c'. induction l as [|o l IH]; intros g p c c'; [done|]. cbn [foldM List.filter].
  unfold operative at 1. unfold group_step at 2. destruct (mem_metric (obs_metric o) CONTEXT_ONLY_METRICS) eqn:E; cbn [negb].
  - cbn [mbind res_bind]. apply IH.
  - cbn [foldM]. unfold group_step at 3. rewrite E. destruct (lookup_metric _ _) as [f|e]; cbn [mbind res_bind]; [apply IH|done].
Qed.

Lemma groups_of_evidence l l' c c' : l |? operative = l' |? operative →
  same_groups (foldM group_step ([], [], c) l) (foldM group_step ([], [], c') l').
Proof.
  intros E.
  assert (same_groups (foldM group_step ([], [], c) l) (foldM group_step ([], [], []) (l' |? operative))) as H1 by (rewrite <-E; apply group_evidence).
  assert (same_groups (foldM group_step ([], [], c') l') (foldM group_step ([], [], []) (l' |? operative))) as H2 by apply group_evidence.
  revert H1 H2. unfold same_groups.
  destruct (foldM group_step ([], [], c) l) as [[[g p] ?]|e], (foldM group_step ([], [], c') l') as [[[g' p'] ?]|e'],
    (foldM group_step ([], [], []) (l' |? operative)) as [[[g0 p0] ?]|e0]; try done.
  all: intros A B; try done; repeat match goal with H : _ ∧ _ |- _ => destruct H end; subst; by split_and?.
Qed.

Definition with_caveats (a : CorridorAssessment) (caveats : list string) : CorridorAssessment :=
  {| ca_assessment_id := ca_assessment_id a; ca_corridor_id := ca_corridor_id a; ca_generated_at := ca_generated_at a;
     ca_overall_risk := ca_overall_risk a; ca_confidence := ca_confidence a; ca_state := ca_state a; ca_factors := ca_factors a;
     ca_missing_required_metrics := ca_missing_required_metrics a; ca_caveats := caveats |}.

Section fusion.
Context `{LibM} `{Decoders} (sha256 : string → string) (dict_reader : string → csv_read) (int_of_str : string → res Z)
  (fromisoformat : string → res datetime).

Local Abbreviation ingested := (Ingest.ingested sha256 dict_reader int_of_str fromisoformat).

(** C32. Open data is context: mixed, in any order, into a list of observations of which one
    is current, whatever the parsers make of it changes neither the scores, the state, the
    factors nor the missing metrics of the assessment, only its caveats, and not which
    exception is raised. *)
Theorem open_sources_are_context id clock cid own context merged as_of :
  shuffle own context merged → Forall ingested context → calendar (default clock as_of) →
  (∃ o, o ∈ own ∧ is_current (default clock as_of) o = true) →
  match assess id clock cid own as_of, assess id clock cid merged as_of with
  | Ok a, Ok a' => a' = with_caveats a (ca_caveats a')
  | Raise e, Raise e' => e = e'
  | _, _ => False
  end.
Proof using.
  intros Hs Hctx Hnow (o & Ho & Hcur). assert (Forall context_observation context) as Hc.
  { eapply Forall_impl; [exact Hctx|]. apply ingested_context. }
  unfold assess. set (now := match as_of with Some t => t | None => clock end) in *. change (default clock as_of) with now in Hnow, Hcur.
  assert (own ≠ []) as Hne by (intros ->; by apply elem_of_nil in Ho).
  assert (merged ≠ []) as Hne' by (intros ->; inversion Hs; by subst).
  destruct own as [|o1 own]; [done|]. destruct merged as [|o2 merged]; [done|]. cbn [raise_if mbind res_bind].
  destruct (negb (dt_aware now)); [done|]. cbn [mbind res_bind].
  pose proof (screen_shuffle now _ _ _ Hs Hnow Hc [] [] [] [] eq_refl (λ H, H)) as E. revert E. unfold same_evidence.
  destruct (foldM (screen_step now) ([], []) (o1 :: own)) as [[v c]|e] eqn:E1, (foldM (screen_step now) ([], []) (o2 :: merged)) as [[v' c']|e'];
    try done. cbn [mbind res_bind]. intros [Ev Hv].
  assert (v ≠ []) as Hv0.
  { apply screen_ok in E1. cbn [app] in E1. subst v. intros E0.
    assert (o ∈ (o1 :: own) |? is_current now) as Hin by (by apply elem_of_bfilter). rewrite E0 in Hin. by apply elem_of_nil in Hin. }
  specialize (Hv Hv0). destruct v as [|v0 v]; [done|]. destruct v' as [|v0' v']; [done|]. cbn [raise_if mbind res_bind].
  pose proof (groups_of_evidence _ _ [] [] Ev) as G. revert G. unfold same_groups.
  destruct (foldM group_step ([], [], []) (v0 :: v)) as [[[g p] x]|e], (foldM group_step ([], [], []) (v0' :: v')) as [[[g' p'] x']|e']; try done.
  intros [<- <-]. cbn [mbind res_bind]. destruct (foldM (factor_step now g) _ _) as [acc|e]; [|done]. cbn [mbind res_bind].
  destruct (overall_scores acc _) as [[risk conf]|e]; [|done]. cbn [mbind res_bind]. unfold new_CorridorAssessment. cbn [ca_overall_risk ca_confidence].
  destruct (require (is_score (fround 6 risk)) _); [|done]. cbn [mbind res_bind]. by destruct (require _ _).
Qed.

Lemma shuffle_all {A} (l : list A) : shuffle [] l l.
Proof using. induction l; by constructor. Qed.

Lemma no_factors now acc fs : foldM (factor_step now []) acc fs = Ok acc.
Proof using. induction fs as [|f fs IH]; [done|]. exact IH. Qed.

(** Open data alone closes a corridor: whatever it says, an assessment made from it
    alone has every required metric missing, no factor and no confidence, and the state
    is functionally closed. *)
Theorem open_sources_alone id clock cid context as_of :
  Forall ingested context → calendar (default clock as_of) → dt_aware (default clock as_of) = true →
  (∃ o, o ∈ context ∧ is_current (default clock as_of) o = true) →
  ∃ caveats, assess id clock cid context as_of =
    Ok {| ca_assessment_id := id; ca_corridor_id := cid; ca_generated_at := clock; ca_overall_risk := lit 0.825;
          ca_confidence := f0; ca_state := CS_FUNCTIONALLY_CLOSED; ca_factors := [];
          ca_missing_required_metrics := sort_by metric_leb REQUIRED_METRICS; ca_caveats := caveats |}.
Proof using.
  intros Hctx Hnow Haware (o & Ho & Hcur). assert (Forall context_observation context) as Hc.
  { eapply Forall_impl; [exact Hctx|]. apply ingested_context. }
  unfold assess. set (now := match as_of with Some t => t | None => clock end) in *.
  change (default clock as_of) with now in Hnow, Hcur, Haware.
  destruct context as [|o1 context]; [by apply elem_of_nil in Ho|]. rewrite Haware. cbn [negb raise_if mbind res_bind].
  pose proof (screen_shuffle now _ _ _ (shuffle_all (o1 :: context)) Hnow Hc [] [] [] [] eq_refl (λ H, H)) as E. revert E.
  change (foldM (screen_step now) ([], []) []) with (@Ok (list Observation * list string) ([], [])).
  unfold same_evidence. destruct (foldM (screen_step now) ([], []) (o1 :: context)) as [[v c]|e] eqn:E1; [|done]. intros [Ev _].
  apply screen_ok in E1. cbn [app] in E1.
  assert (v ≠ []) as Hv. { intros E0. assert (o ∈ (o1 :: context) |? is_current now) as Hin by (by apply elem_of_bfilter).
    rewrite <-E1, E0 in Hin. by apply elem_of_nil in Hin. }
  clear E1. destruct v as [|v0 v]; [done|]. cbn [mbind res_bind raise_if].
  pose proof (groups_of_evidence [] (v0 :: v) [] [] Ev) as G. revert G. unfold same_groups.
  change (foldM group_step ([], [], []) []) with (@Ok (dict CorridorFactor (list Observation) * list MetricName * list MetricName) ([], [], [])).
  destruct (foldM group_step ([], [], []) (v0 :: v)) as [[[g p] x]|e]; [|done]. intros [<- <-].
  cbn [mbind res_bind]. rewrite no_factors. cbn [mbind res_bind].
  assert (overall_scores {| acc_assessments := []; acc_weighted_risk := f0; acc_weight_used := f0; acc_confidence_values := [] |}
            (missing_metrics []) = Ok (lit 0.825, f0)) as -> by (vm_compute; reflexivity).
  cbn [mbind res_bind]. unfold new_CorridorAssessment. cbn [ca_overall_risk ca_confidence].
  replace (fround 6 (lit 0.825)) with (lit 0.825) by (vm_compute; reflexivity).
  replace (fround 6 f0) with f0 by (vm_compute; reflexivity).
  replace (is_score (lit 0.825)) with true by (vm_compute; reflexivity).
  replace (is_score f0) with true by (vm_compute; reflexivity). cbn [require mbind res_bind]. eexists. reflexivity.
Qed.

End fusion.

(** ** The sea-ice table, row by row *)

Section nsidc.
Context `{Decoders} (sha256 : string → string) (dict_reader : string → csv_read) (int_of_str : string → res Z).

(** The extents of the reference period on the same day of the year. *)
Definition reference_values (parsed : list extent_row) (d : date) : list float :=
  er_extent <$> List.filter (λ r, in_reference (er_date r) && bool_decide (day_key (er_date r) = day_key d)) parsed.

Lemma baseline_spec parsed d acc : dget_default (foldl baseline_step acc parsed) (day_key d) [] =
  dget_default acc (day_key d) [] ++ reference_values parsed d.
Proof using.
  revert acc. induction parsed as [|r parsed IH]; intros acc; cbn [foldl]; [by rewrite app_nil_r|].
  rewrite IH. unfold reference_values. cbn [List.filter]. unfold baseline_step at 1.
  destruct (in_reference (er_date r)); cbn [andb]; [|done]. rewrite dget_default_dappend.
  case_bool_decide as E; case_decide as E'; try congruence; [by rewrite <-app_assoc|by rewrite app_nil_r].
Qed.

Lemma median_total l : l ≠ [] → ∃ m, median l = Ok m.
Proof using.
  intros Hl. unfold median. rewrite sort_by_length. set (n := length l).
  assert (n ≠ 0%nat) as Hn by (unfold n; by destruct l). destruct (Nat.eqb_spec n 0) as [|_]; [done|].
  assert (∀ i, (i < n)%nat → ∃ x, index (sort_by fleb l) i = Ok x) as Hi.
  { intros i Hi. destruct (lookup_lt_is_Some_2 (sort_by fleb l) i) as [x Hx]; [by rewrite sort_by_length|]. exists x. by apply index_ok. }
  assert (n / 2 < n)%nat by (apply Nat.div_lt; lia). destruct (Nat.odd n); [by apply Hi|].
  destruct (Hi (n / 2 - 1)%nat) as [x ->]; [lia|]. destruct (Hi (n / 2)%nat) as [y ->]; [lia|]. cbn [mbind res_bind].
  apply Compiler.fdiv_total. done.
Qed.

(** A row without surplus columns and whose numbers, if unreadable, are so by a
    ValueError or a missing column. *)
Definition readable (raw : raw_row) : Prop :=
  ∃ r, clean_row raw = Ok r ∧ ∀ e, read_row int_of_str r = Raise e → skipped e = true.

Lemma rows_total rows acc : Forall readable rows → foldM (row_step int_of_str) acc rows = Ok (acc ++ omap (dated int_of_str) rows).
Proof using.
  intros Hr. revert acc. induction Hr as [|raw rows (r & Er & He) Hr IH]; intros acc; cbn; [by rewrite app_nil_r|].
  unfold row_step at 2. rewrite Er. cbn [mbind res_bind]. unfold dated at 1. rewrite Er.
  destruct (read_row int_of_str r) as [[x d]|e]; [|rewrite He by done; cbn [mbind res_bind]; by rewrite IH].
  cbn [mbind res_bind]. rewrite IH. destruct (x <? f0)%F; [done|]. by rewrite <-app_assoc.
Qed.

(** The anomaly of a row, and the observation of it. *)
Record anomaly_of (parsed : list extent_row) (p : Provenance) (r : extent_row) (o : Observation) : Prop := {
  an_value : ∃ m, median (reference_values parsed (er_date r)) = Ok m ∧ obs_value o = fround 6 (er_extent r - m)%F ∧
    isfinite (fround 6 (er_extent r - m)%F) = true;
  an_day : obs_observed_at o = midnight (er_date r);
  an_provenance : obs_provenance o = p
}.

Definition not_finite : exn := ValidationError "observation value must be finite".

Lemma extent_observation_new id p r m :
  new_Observation (extent_observation id p r m) =
  if isfinite (fround 6 (er_extent r - m)%F) then Ok (extent_observation id p r m) else Raise not_finite.
Proof using.
  unfold new_Observation, validate_metric_value. cbn [extent_observation obs_confidence].
  replace (in_unit (lit 0.97)) with true by (vm_compute; reflexivity). cbn [require mbind res_bind obs_value]. by destruct (isfinite _).
Qed.

(** The rows of days that have a reference. *)
Definition usable (parsed : list extent_row) : list extent_row :=
  List.filter (λ r, negb (bool_decide (reference_values parsed (er_date r) = []))) parsed.

Lemma observation_step_spec new_id p parsed acc r : observation_step new_id p (baseline_of parsed) acc r =
  match reference_values parsed (er_date r) with
  | [] => Ok acc
  | values => m ← median values; o ← new_Observation (extent_observation (new_id (length acc)) p r m); Ok (acc ++ [o])
  end.
Proof using. unfold observation_step, baseline_of. by rewrite baseline_spec. Qed.

Lemma observations_exact new_id p parsed rows acc :
  match foldM (observation_step new_id p (baseline_of parsed)) acc rows with
  | Ok l => ∃ l', l = acc ++ l' ∧
      Forall2 (anomaly_of parsed p) (List.filter (λ r, negb (bool_decide (reference_values parsed (er_date r) = []))) rows) l' ∧
      obs_observation_id <$> l' = new_id <$> seq (length acc) (length l')
  | Raise e => e = not_finite ∧ ∃ r m, r ∈ rows ∧ median (reference_values parsed (er_date r)) = Ok m ∧
      isfinite (fround 6 (er_extent r - m)%F) = false
  end.
Proof using.
  revert acc. induction rows as [|r rows IH]; intros acc; cbn [foldM].
  { exists []. rewrite app_nil_r. split_and!; [done|constructor|done]. }
  rewrite observation_step_spec. cbn [List.filter]. destruct (reference_values parsed (er_date r)) as [|v vs] eqn:E.
  { rewrite bool_decide_true by done. cbn [negb mbind res_bind]. specialize (IH acc).
    destruct (foldM _ acc rows); [done|]. destruct IH as (-> & r' & m & Hr & Hm). split; [done|]. exists r', m. split; [by right|done]. }
  rewrite bool_decide_false by done. cbn [negb]. destruct (median_total (v :: vs) ltac:(done)) as [m Hm]. rewrite Hm. cbn [mbind res_bind].
  destruct (isfinite (fround 6 (er_extent r - m)%F)) eqn:Ef.
  - rewrite extent_observation_new, Ef. cbn [mbind res_bind]. set (o := extent_observation _ p r m). specialize (IH (acc ++ [o])).
    destruct (foldM _ (acc ++ [o]) rows) as [l|e].
    + destruct IH as (l' & -> & Hl & Hid). exists (o :: l'). split; [by rewrite <-app_assoc|]. split.
      * constructor; [|exact Hl]. constructor; cbn; [rewrite E; by exists m|done|done].
      * rewrite length_app in Hid. cbn [length] in *. rewrite Nat.add_1_r in Hid. cbn. by rewrite Hid.
    + destruct IH as (-> & r' & m' & Hr & Hm'). split; [done|]. exists r', m'. split; [by right|done].
  - rewrite extent_observation_new, Ef. cbn [mbind res_bind]. split; [done|]. exists r, m. rewrite E. split; [by left|done].
Qed.

(** C33. Of a table that can be read, the dated rows whose day of the year has extents
    between 1981 and 2010 become observations, in order: the extent less the median of
    those extents, which is finite, at midnight of the day, under the digest of the file.  The
    table is refused exactly when such a difference is not a finite number. *)
Theorem nsidc_exact new_id now body uri snapshot_id text rows :
  decode_sig body = Ok text → dict_reader text = (rows, None) → Forall readable rows →
  let parsed := omap (dated int_of_str) rows in
  match parse_nsidc_daily_extent_csv sha256 dict_reader int_of_str new_id now body uri snapshot_id with
  | Ok l => Forall2 (anomaly_of parsed (provenance sha256 uri body snapshot_id "NOAA@NSIDC terms" now)) (usable parsed) l ∧
      obs_observation_id <$> l = new_id <$> seq 0 (length l)
  | Raise e => e = not_finite ∧ ∃ r m, r ∈ usable parsed ∧ median (reference_values parsed (er_date r)) = Ok m ∧
      isfinite (fround 6 (er_extent r - m)%F) = false
  end.
Proof using.
  intros Ht Hd Hr parsed. unfold parse_nsidc_daily_extent_csv. rewrite Ht. cbn [mbind res_bind]. rewrite Hd.
  rewrite (rows_total rows [] Hr). cbn [mbind res_bind app]. fold parsed. set (p := provenance _ _ _ _ _ _).
  pose proof (observations_exact new_id p parsed parsed []) as E. destruct (foldM _ [] parsed) as [l|e].
  - destruct E as (l' & -> & Hl & Hid). by split.
  - destruct E as (-> & r & m & Hin & Hm & Hf). split; [done|]. exists r, m. split; [|done].
    unfold usable. apply elem_of_bfilter. split; [done|]. rewrite bool_decide_false; [done|]. intros E. by rewrite E in Hm.
Qed.

End nsidc.

(** ** The cache between the network and the parsers *)

Section replay.
Context `{Decoders} (sha256 : string → string) (dict_reader : string → csv_read) (int_of_str : string → res Z)
  (fromisoformat : string → res datetime).

(** A cached body is used without the network. *)
Lemma get_or_fetch_hit http_get self source_id url t fs hit : cached sha256 self source_id url t fs = Ok (Some hit) →
  get_or_fetch sha256 http_get self source_id url t fs = (Ok hit, fs).
Proof using. intros E. unfold get_or_fetch. by rewrite E. Qed.

(** The moment of a later call, while the snapshot stored at [stored] is fresh. *)
Definition replayed (self : OpenSourceIngestor) (source_id : string) (stored : datetime) (t : moment) (fs : cache) : Prop :=
  calendar (at_lookup t) ∧ fresh_at (Some (oi_max_cache_age_hours self)) (at_lookup t) stored = true ∧
  ∀ d, d ∈ file_order t ↔ is_Some (snapshot_at source_id fs d).

(** The moment of a call that stores a new body, after everything else of the source. *)
Definition stores_new (source_id body : string) (t : moment) (fs : cache) : Prop :=
  dt_aware (at_store t) = true ∧ calendar (at_store t) ∧ fs !! (source_id, sha256 body) = None ∧
  ∀ d m, snapshot_at source_id fs d = Some m → str_ltb (isoformat (sm_retrieved_at m)) (isoformat (at_store t)) = true.

Lemma fetched_then_cached http_get self source_id url t fs body headers status :
  cache_ok sha256 fs → oi_outbound_enabled self = true → cached sha256 self source_id url t fs = Ok None →
  http_get url = Ok (body, headers, status) → stores_new source_id body t fs →
  let m := new_metadata sha256 source_id url body headers status (at_store t) in
  let fs' := <[(source_id, sha256 body) := files body m]> fs in
  get_or_fetch sha256 http_get self source_id url t fs = (Ok (m, body), fs') ∧
  ∀ self' t', oi_max_cache_age_hours self' = oi_max_cache_age_hours self → replayed self source_id (at_store t) t' fs' →
    cached sha256 self' source_id url t' fs' = Ok (Some (m, body)).
Proof using.
  intros Hfs Hon Hmiss Hget (Ha & Hc & Hnew & Hold) m fs'. split.
  - unfold get_or_fetch. rewrite Hmiss. unfold Cache.fetch. rewrite Hon, Hget. cbn [negb]. by rewrite store_fresh.
  - intros self' t' Eage (Hcal & Hfresh & Horder). unfold cached. rewrite Eage.
    by apply (latest_stored sha256 source_id url body headers status (at_store t) _ (at_lookup t') (file_order t') fs Hfs Ha Hc Hcal Hnew Hold Hfresh Horder).
Qed.

(** An observation under another identifier, parsed at another time. *)
Definition reparsed (id : string) (now : datetime) (o : Observation) : Observation :=
  {| obs_observation_id := id; obs_source_id := obs_source_id o; obs_source_trust := obs_source_trust o;
     obs_assertion_class := obs_assertion_class o; obs_metric := obs_metric o; obs_value := obs_value o; obs_unit := obs_unit o;
     obs_observed_at := obs_observed_at o; obs_valid_until := obs_valid_until o; obs_location := obs_location o;
     obs_confidence := obs_confidence o;
     obs_provenance := {| prov_uri := prov_uri (obs_provenance o); prov_retrieved_at := now;
                          prov_content_sha256 := prov_content_sha256 (obs_provenance o);
                          prov_snapshot_id := prov_snapshot_id (obs_provenance o); prov_licence := prov_licence (obs_provenance o) |};
     obs_metadata := obs_metadata o |}.

(** The constraints of an observation depend on neither. *)
Lemma new_Observation_reparsed id now o : new_Observation (reparsed id now o) = (λ o, reparsed id now o) <$> new_Observation o.
Proof using.
  unfold new_Observation, validate_metric_value. cbn [reparsed obs_source_id obs_unit obs_observed_at obs_valid_until obs_confidence obs_metric obs_value].
  repeat match goal with |- (?m ≫= _) = _ => destruct m; cbn [mbind res_bind]; [|reflexivity] end. reflexivity.
Qed.

Lemma celestrak_reparsed id id' now now' body uri sid :
  parse_celestrak_gp_json sha256 fromisoformat id' now' body uri sid =
  reparsed id' now' <$> parse_celestrak_gp_json sha256 fromisoformat id now body uri sid.
Proof using.
  unfold parse_celestrak_gp_json. destruct (loads body) as [v|e]; [|done]. cbn [mbind res_bind]. destruct v; try done.
  destruct (foldM _ [] l) as [epochs|e]; [|done]. cbn [mbind res_bind]. destruct epochs as [|first rest]; [done|].
  set (p := provenance sha256 uri body sid "CelesTrak usage policy" now).
  assert (gp_observation id' (provenance sha256 uri body sid "CelesTrak usage policy" now') first rest =
    reparsed id' now' (gp_observation id p first rest)) as ->.
  { unfold reparsed, gp_observation, p, provenance.
    cbn [obs_source_id obs_source_trust obs_assertion_class obs_metric obs_value obs_unit obs_observed_at obs_valid_until obs_location
      obs_confidence obs_provenance obs_metadata prov_uri prov_content_sha256 prov_snapshot_id prov_licence]. reflexivity. }
  apply new_Observation_reparsed.
Qed.

Lemma step_reparsed new_id new_id' now now' body uri sid licence base acc r :
  observation_step new_id' (provenance sha256 uri body sid licence now') base (imap (λ i, reparsed (new_id' i) now') acc) r =
  imap (λ i, reparsed (new_id' i) now') <$> observation_step new_id (provenance sha256 uri body sid licence now) base acc r.
Proof using.
  unfold observation_step. destruct (dget_default base (day_key (er_date r)) []) as [|v vs]; [done|].
  destruct (median (v :: vs)) as [m|e]; [|done]. cbn [mbind res_bind]. rewrite length_imap.
  assert (extent_observation (new_id' (length acc)) (provenance sha256 uri body sid licence now') r m =
    reparsed (new_id' (length acc)) now' (extent_observation (new_id (length acc)) (provenance sha256 uri body sid licence now) r m)) as ->
    by reflexivity.
  rewrite new_Observation_reparsed. destruct (new_Observation _) as [o|e]; [|done]. cbn [mbind res_bind fmap res_fmap]. f_equal.
  rewrite imap_app. f_equal. cbn. by rewrite Nat.add_0_r.
Qed.

Lemma nsidc_steps_reparsed new_id new_id' now now' body uri sid licence base rows acc :
  foldM (observation_step new_id' (provenance sha256 uri body sid licence now') base) (imap (λ i, reparsed (new_id' i) now') acc) rows =
  imap (λ i, reparsed (new_id' i) now') <$> foldM (observation_step new_id (provenance sha256 uri body sid licence now) base) acc rows.
Proof using.
  revert acc. induction rows as [|r rows IH]; intros acc; [done|]. cbn [foldM]. rewrite (step_reparsed new_id new_id' now).
  destruct (observation_step new_id _ base acc r) as [acc'|e]; [|done]. apply IH.
Qed.

Lemma nsidc_reparsed new_id new_id' now now' body uri sid :
  parse_nsidc_daily_extent_csv sha256 dict_reader int_of_str new_id' now' body uri sid =
  imap (λ i, reparsed (new_id' i) now') <$> parse_nsidc_daily_extent_csv sha256 dict_reader int_of_str new_id now body uri sid.
Proof using.
  unfold parse_nsidc_daily_extent_csv. destruct (decode_sig body) as [text|e]; [|done]. cbn [mbind res_bind].
  destruct (dict_reader text) as [rows error]. destruct (foldM _ [] rows) as [parsed|e]; [|done]. cbn [mbind res_bind].
  destruct error; [done|]. cbn [mbind res_bind]. apply (nsidc_steps_reparsed new_id new_id' now now' body uri sid _ _ _ []).
Qed.

(** C34. What was ingested once is reproduced offline: after a table was fetched and stored,
    every later call while the snapshot is fresh, without network and whatever a server would
    answer, returns the same observations but for their identifiers and times of
    retrieval, or raises the same exception, and leaves the cache as it is. *)
Theorem ingestion_replayed http_get http_get' self self' new_id new_id' t t' fs body headers status :
  cache_ok sha256 fs → oi_outbound_enabled self = true →
  cached sha256 self "nsidc-sea-ice-index" NSIDC_NORTH_DAILY_EXTENT t fs = Ok None →
  http_get NSIDC_NORTH_DAILY_EXTENT = Ok (body, headers, status) → stores_new "nsidc-sea-ice-index" body t fs →
  oi_outbound_enabled self' = false → oi_max_cache_age_hours self' = oi_max_cache_age_hours self →
  let '(r, fs') := nsidc_daily_extent sha256 dict_reader int_of_str http_get self new_id t fs in
  replayed self "nsidc-sea-ice-index" (at_store t) t' fs' →
  nsidc_daily_extent sha256 dict_reader int_of_str http_get' self' new_id' t' fs' =
    (imap (λ i, reparsed (new_id' i) (at_parse t')) <$> r, fs').
Proof using.
  intros Hfs Hon Hmiss Hget Hnew Hoff Hage.
  destruct (fetched_then_cached http_get self _ _ t fs body headers status Hfs Hon Hmiss Hget Hnew) as [E Hc].
  unfold nsidc_daily_extent at 1. rewrite E. intros Ht. unfold nsidc_daily_extent.
  rewrite (get_or_fetch_hit _ _ _ _ _ _ _ (Hc self' t' Hage Ht)). f_equal. apply nsidc_reparsed.
Qed.

(** The same for the elements of a group. *)
Lemma orbits_replayed http_get http_get' self self' group url id id' t t' fs body headers status :
  cache_ok sha256 fs → oi_outbound_enabled self = true → build_celestrak_query group = Ok url →
  cached sha256 self "celestrak-gp" url t fs = Ok None → http_get url = Ok (body, headers, status) →
  stores_new "celestrak-gp" body t fs → oi_max_cache_age_hours self' = oi_max_cache_age_hours self →
  let '(r, fs') := celestrak_geometry sha256 fromisoformat http_get self group id t fs in
  replayed self "celestrak-gp" (at_store t) t' fs' →
  celestrak_geometry sha256 fromisoformat http_get' self' group id' t' fs' = (reparsed id' (at_parse t') <$> r, fs').
Proof using.
  intros Hfs Hon Hurl Hmiss Hget Hnew Hage.
  destruct (fetched_then_cached http_get self _ _ t fs body headers status Hfs Hon Hmiss Hget Hnew) as [E Hc].
  unfold celestrak_geometry at 1. rewrite Hurl, E. intros Ht. unfold celestrak_geometry. rewrite Hurl.
  rewrite (get_or_fetch_hit _ _ _ _ _ _ _ (Hc self' t' Hage Ht)). f_equal. apply celestrak_reparsed.
Qed.


Lemma count_finite n : 0 <= n < 2 ^ 53 → isfinite (f_of_Z n) = true ∧ fltb (f_of_Z n) f0 = false.
Proof using.
  intros Hn. unfold f_of_Z. rewrite fl_Z by lia. split; [done|]. rewrite f0_eq. destruct (fltb _ _) eqn:E; [|done].
  apply fltb_Fin in E. change 0%Q with (inject_Z 0) in E. rewrite <-Zlt_Qlt in E. lia.
Qed.

Lemma empty_search_new id p clock n : 0 <= n < 2 ^ 53 → dt_aware clock = true →
  new_Observation (stac_observation id p clock n []) = Ok (stac_observation id p clock n []).
Proof using.
  intros Hn Ha. destruct (count_finite n Hn) as [E1 E2]. unfold new_Observation, validate_metric_value, ensure_timezone.
  cbn [stac_observation obs_source_id obs_unit obs_observed_at obs_valid_until obs_confidence obs_metric obs_value default]. rewrite Ha, E1, E2.
  cbn [negb mbind res_bind]. replace (in_unit (lit 0.40)) with true by (vm_compute; reflexivity). reflexivity.
Qed.

(** A search without acquisition times is observed whenever it is parsed: answered from the
    cache it never grows old. *)
Lemma empty_search_never_ages http_post self id q t fs m body payload features :
  cached sha256 self "copernicus-cdse-stac" (source_uri q) t fs = Ok (Some (m, body)) →
  loads body = Ok (JObj payload) → eq_str (dict_get payload "type") "FeatureCollection" = true →
  payload !! "features" = Some (JArr features) → foldM (acquisition_step fromisoformat) [] features = Ok [] →
  Z.of_nat (length features) < 2 ^ 53 → dt_aware (at_search t) = true →
  ∃ o, search sha256 fromisoformat http_post self id q t fs = (Ok o, fs) ∧ obs_observed_at o = at_search t.
Proof using.
  intros Ec El Et Ef Ea Hn Haware. unfold search. rewrite Ec. unfold parse_stac_search_response. rewrite El. cbn [mbind res_bind as_dict].
  rewrite Et. cbn [negb raise_if mbind res_bind]. rewrite Ef.
  change (default (JArr []) (Some (JArr features))) with (JArr features). cbn iota. rewrite Ea. cbn [mbind res_bind].
  rewrite empty_search_new by (done || lia). eexists. by split.
Qed.

(** No snapshot of the source has this URL. *)
Definition unknown_url (source_id url : string) (fs : cache) : Prop :=
  ∀ d m, snapshot_at source_id fs d = Some m → sm_url m ≠ url.

Lemma unknown_missed self source_id url t fs : cache_ok sha256 fs → calendar (at_lookup t) →
  (∀ d, d ∈ file_order t ↔ is_Some (snapshot_at source_id fs d)) → unknown_url source_id url fs →
  cached sha256 self source_id url t fs = Ok None.
Proof using.
  intros Hfs Hc Ho Hu. unfold cached.
  destruct (latest_ok sha256 source_id (Some url) (Some (oi_max_cache_age_hours self)) (at_lookup t) (file_order t) fs Hfs Hc Ho) as ([[m b]|] & -> & Hr); [|done].
  destruct Hr as (Hs & Hm & _). apply Hu in Hs. apply andb_prop in Hm as [Hm _]. by apply str_eqb_true in Hm.
Qed.

(** C35. Two searches with the same answer cannot both be kept, and windows without imagery
    have the same answer: once a search was stored, a search for another window that is
    answered alike raises a collision and leaves the cache as it is, whenever it is made
    and however often. *)
Theorem same_answer_collides http_post self id1 id2 q1 q2 t1 t2 fs o body headers status headers' status' :
  cache_ok sha256 fs → unknown_url "copernicus-cdse-stac" (source_uri q2) fs → source_uri q1 ≠ source_uri q2 →
  oi_outbound_enabled self = true → cached sha256 self "copernicus-cdse-stac" (source_uri q1) t1 fs = Ok None →
  http_post q1 = Ok (body, headers, status) → http_post q2 = Ok (body, headers', status') →
  stores_new "copernicus-cdse-stac" body t1 fs → calendar (at_lookup t2) →
  let '(r, fs') := search sha256 fromisoformat http_post self id1 q1 t1 fs in
  r = Ok o → (∀ d, d ∈ file_order t2 ↔ is_Some (snapshot_at "copernicus-cdse-stac" fs' d)) →
  search sha256 fromisoformat http_post self id2 q2 t2 fs' = (Raise (ValueError "immutable snapshot collision"), fs').
Proof using.
  intros Hfs Hu Hne Hon Hmiss H1 H2 (Ha & Hc & Hnew & Hold) Hcal. unfold search at 1.
  rewrite Hmiss, Hon, H1. cbn [negb]. rewrite store_fresh by done.
  set (m := new_metadata sha256 "copernicus-cdse-stac" (source_uri q1) body headers status (at_store t1)).
  set (fs' := <[("copernicus-cdse-stac", sha256 body) := _]> fs). intros _ Horder.
  assert (cache_ok sha256 fs') as Hfs'.
  { apply cache_ok_insert; [done|]. split; cbn [d_payload d_metadata]; [by intros ? [= <-]|]. intros ? [= <-].
    exists m. split; [done|]. split; [by eexists|]. by split_and!. }
  assert (unknown_url "copernicus-cdse-stac" (source_uri q2) fs') as Hu'.
  { intros d m'. unfold snapshot_at, fs'.
    destruct (decide (("copernicus-cdse-stac", sha256 body) = ("copernicus-cdse-stac", d))) as [Ed|Ed].
    - rewrite Ed, lookup_insert_eq. cbn. intros [= <-]. exact Hne.
    - rewrite lookup_insert_ne by done. apply Hu. }
  unfold search. rewrite (unknown_missed self _ _ t2 fs' Hfs' Hcal Horder Hu'), Hon, H2. cbn [negb].
  rewrite (store_other sha256 _ _ _ _ _ _ fs' m); [done|apply lookup_insert_eq|]. intros E. by apply Hne, (f_equal sm_url E).
Qed.

End replay.

(** ** The group of a request *)

Lemma all_chars_drop c s : all_chars is_alnum (drop_char c s) = true → all_chars (λ c', is_alnum c' || Ascii.eqb c' c) s = true.
Proof.
  induction s as [|c' s IH]; [done|]. cbn. destruct (Ascii.eqb c' c); cbn; [rewrite orb_true_r; exact IH|].
  rewrite orb_false_r. intros [-> Hs]%andb_prop. exact (IH Hs).
Qed.

(** A group that is accepted adds letters, digits and hyphens to the URL only. *)
Lemma celestrak_query_safe group url : build_celestrak_query group = Ok url →
  ∃ safe, url = celestrak_url safe ∧ safe ≠ "" ∧ all_chars (λ c, is_alnum c || Ascii.eqb c dash) safe = true.
Proof.
  unfold build_celestrak_query. intros E. inv_ok. bool_norm. eexists. split; [reflexivity|].
  unfold isalnum in *. bool_norm. split; [|by apply all_chars_drop]. intros E'. by rewrite E' in *.
Qed.

(** ** Concrete inputs *)

Definition sample_number (s : string) : res Z :=
  match List.find (λ kv, str_eqb kv.1 s) [("1990", 1990); ("2000", 2000); ("2024", 2024); ("3", 3); ("7", 7); ("1", 1)] with
  | Some kv => Ok kv.2
  | None => Raise (ValueError "invalid literal for int()")
  end.

Definition sample_extent (s : string) : res float :=
  match List.find (λ kv, str_eqb kv.1 s) [("15.0", lit 15); ("14.0", lit 14); ("13.5", lit 13.5); ("inf", Inf false)] with
  | Some kv => Ok kv.2
  | None => Raise (ValueError "could not convert string to float")
  end.

Definition sample_epoch (s : string) : res datetime :=
  if str_eqb s "1970-01-01T00:30:00" then Ok (utc 1800) else Raise (ValueError "Invalid isoformat string").

Definition sample_gp : json := JArr [JObj {[ "OBJECT_ID" := JStr "1998-067A"; "EPOCH" := JStr "1970-01-01T00:30:00" ]}; JNull].
Definition empty_collection : object := {[ "type" := JStr "FeatureCollection"; "features" := JArr [] ]}.

Definition sample_json (s : string) : res json :=
  if str_eqb s "gp" then Ok sample_gp else Ok (JObj empty_collection).

#[local] Instance ingest_decoders : Decoders := {|
  unzip := λ _, Raise (RuntimeError "BadZipFile"); fromstring := λ _, XmlParseError; parse_error := RuntimeError "ParseError";
  loads := sample_json; decode_sig := λ s, Ok s; decode := λ s, Ok s; csv_rows := λ _, Ok 0; float_of_str := sample_extent;
  str_exn := λ _, ""; http_status_error := λ _, RuntimeError "HTTPStatusError" |}.

Definition table_row (y m d extent : string) : raw_row :=
  [(Some "Year", Text y); (Some " Month", Text m); (Some " Day", Text d); (Some " Extent", Text (" " +:+ extent)); (Some " Missing", Missing)].

(** The units under the header, two years of the reference period and one after it; a day
    of July has no reference. *)
Definition sample_rows : list raw_row :=
  [table_row "YYYY" "MM" "DD" "10^6 sq km"; table_row "1990" "3" "1" "15.0"; table_row "2000" "3" "1" "14.0";
   table_row "2024" "3" "1" "13.5"; table_row "2024" "7" "1" "13.5"].

Definition sample_reader_of (rows : list raw_row) (_ : string) : csv_read := (rows, None).

Definition numbered (i : nat) : string := "o" +:+ str_nat i.

Definition sample_parse (rows : list raw_row) : res (list Observation) :=
  parse_nsidc_daily_extent_csv sample_hash (sample_reader_of rows) sample_number numbered sample_now "body" "uri" (Some "snap").

(** The anomalies are taken against the median of 15 and 14. *)
Definition shown (l : list Observation) : list (string * float * string) :=
  (λ o, (obs_observation_id o, obs_value o, isoformat (obs_observed_at o))) <$> l.

Example sample_anomalies : (l ← sample_parse sample_rows; Ok (shown l)) =
  Ok [("o0", lit 0.5, "1990-03-01T00:00:00+00:00"); ("o1", lit (-0.5), "2000-03-01T00:00:00+00:00"); ("o2", lit (-1), "2024-03-01T00:00:00+00:00")].
Proof. vm_compute. reflexivity. Qed.

(** One row with a column more than the header ends the parse, where the code means to skip
    what it cannot read. *)
Example surplus_column : sample_parse (sample_rows ++ [table_row "2024" "3" "1" "13.5" ++ [(None, Surplus ["x"])]]) =
  Raise (AttributeError "'list' object has no attribute 'strip'").
Proof. vm_compute. reflexivity. Qed.

Example open_query : build_celestrak_query " Starlink " = Ok "https://celestrak.org/NORAD/elements/gp.php?GROUP=starlink&FORMAT=JSON".
Proof. vm_compute. reflexivity. Qed.

Lemma sample_readable : Forall (readable sample_number) sample_rows.
Proof.
  unfold sample_rows. repeat constructor; (eexists; split; [vm_compute; reflexivity|]); intros e; vm_compute; by intros [= <-].
Qed.

Lemma infinite_readable : Forall (readable sample_number) [table_row "1990" "3" "1" "inf"].
Proof. repeat constructor. eexists. split; [vm_compute; reflexivity|]. intros e. vm_compute. by intros [= <-]. Qed.

(** The table of the example, and one whose only day has no finite extent. *)
Lemma nsidc_exact_witness :
  (∃ l, sample_parse sample_rows = Ok l ∧
     Forall2 (anomaly_of (omap (dated sample_number) sample_rows) (provenance sample_hash "uri" "body" (Some "snap") "NOAA@NSIDC terms" sample_now))
       (usable (omap (dated sample_number) sample_rows)) l) ∧
  sample_parse [table_row "1990" "3" "1" "inf"] = Raise not_finite.
Proof.
  pose proof (nsidc_exact sample_hash (sample_reader_of sample_rows) sample_number numbered sample_now "body" "uri" (Some "snap") "body"
    sample_rows eq_refl eq_refl sample_readable) as P.
  pose proof (nsidc_exact sample_hash (sample_reader_of [table_row "1990" "3" "1" "inf"]) sample_number numbered sample_now "body" "uri" (Some "snap") "body"
    [table_row "1990" "3" "1" "inf"] eq_refl eq_refl infinite_readable) as Q.
  assert (is_ok (sample_parse sample_rows) = true) as E1 by (vm_compute; reflexivity).
  assert (is_ok (sample_parse [table_row "1990" "3" "1" "inf"]) = false) as E2 by (vm_compute; reflexivity).
  unfold sample_parse in *. split.
  - destruct (parse_nsidc_daily_extent_csv _ (sample_reader_of sample_rows) _ _ _ _ _ _) as [l|e]; [|discriminate E1].
    exists l. split; [reflexivity|exact (proj1 P)].
  - destruct (parse_nsidc_daily_extent_csv _ (sample_reader_of [_]) _ _ _ _ _ _) as [l|e]; [discriminate E2|].
    f_equal. exact (proj1 Q).
Defined.

(** ** Open data in an assessment *)

Definition gp_sample : Observation :=
  gp_observation "g1" (provenance sample_hash "uri" "gp" None "CelesTrak usage policy" sample_now) (utc 1800) [].

Lemma gp_ingested : Forall (ingested sample_hash (sample_reader_of []) sample_number sample_epoch) [gp_sample].
Proof.
  constructor; [|constructor]. apply (from_celestrak _ _ _ _ gp_sample "g1" sample_now "gp" "uri" None). vm_compute. reflexivity.
Qed.

Lemma utc_3600_calendar : calendar (utc 3600).
Proof. split; vm_compute; discriminate. Qed.

(** The observations of [Fusion], with orbital elements between them. *)
Definition with_elements : list Observation :=
  match example_observations with o :: rest => o :: gp_sample :: rest | [] => [] end.

Lemma open_sources_are_context_witness :
  match assess (H := example_LibM) "a-1" (utc 3600) "corridor/nsr" example_observations None,
        assess (H := example_LibM) "a-1" (utc 3600) "corridor/nsr" with_elements None with
  | Ok a, Ok a' => a' = with_caveats a (ca_caveats a')
  | Raise e, Raise e' => e = e'
  | _, _ => False
  end.
Proof.
  apply (open_sources_are_context (H := example_LibM) sample_hash (sample_reader_of []) sample_number sample_epoch
    "a-1" (utc 3600) "corridor/nsr" example_observations [gp_sample] with_elements None).
  - repeat constructor.
  - exact gp_ingested.
  - exact utc_3600_calendar.
  - eexists. split; [right; left|]. vm_compute. reflexivity.
Defined.

Lemma open_sources_alone_witness : ∃ caveats,
  assess (H := example_LibM) "a-1" (utc 3600) "corridor/nsr" [gp_sample] None =
    Ok {| ca_assessment_id := "a-1"; ca_corridor_id := "corridor/nsr"; ca_generated_at := utc 3600; ca_overall_risk := lit 0.825;
          ca_confidence := f0; ca_state := CS_FUNCTIONALLY_CLOSED; ca_factors := [];
          ca_missing_required_metrics := sort_by metric_leb REQUIRED_METRICS; ca_caveats := caveats |}.
Proof.
  apply (open_sources_alone (H := example_LibM) sample_hash (sample_reader_of []) sample_number sample_epoch
    "a-1" (utc 3600) "corridor/nsr" [gp_sample] None).
  - exact gp_ingested.
  - exact utc_3600_calendar.
  - reflexivity.
  - exists gp_sample. split; [left|]. vm_compute. reflexivity.
Defined.

(** ** Open data in the cache *)

Definition online : OpenSourceIngestor := {| oi_outbound_enabled := true; oi_max_cache_age_hours := lit 24 |}.
Definition offline : OpenSourceIngestor := {| oi_outbound_enabled := false; oi_max_cache_age_hours := lit 24 |}.

Definition at_moment (now : datetime) (order : list string) : moment :=
  {| at_lookup := now; at_store := now; at_search := now; at_parse := now; file_order := order |}.

Lemma one_snapshot s b m d : d ∈ [sample_hash b] ↔ is_Some (snapshot_at s (<[(s, sample_hash b) := files b m]> ∅) d).
Proof.
  rewrite list_elem_of_singleton. unfold snapshot_at. split.
  - intros ->. rewrite lookup_insert_eq. by eexists.
  - intros [x Hx]. destruct (decide (d = sample_hash b)) as [|Hne]; [done|]. rewrite lookup_insert_ne in Hx by congruence. done.
Qed.

Lemma sample_calendar t : t = sample_now ∨ t = later_now → calendar t.
Proof. intros [-> | ->]; split; vm_compute; discriminate. Qed.

Lemma stores_first s b : stores_new sample_hash s b (at_moment sample_now []) ∅.
Proof. split_and!; [done|by apply sample_calendar; left|done|]. intros d m. unfold snapshot_at. by rewrite lookup_empty. Qed.

Definition table_server (_ : string) : res response := Ok ("body", [], 200).
Definition dead_server (_ : string) : res response := Raise (RuntimeError "ConnectError").

Definition ingest_sample (http_get : string → res response) (self : OpenSourceIngestor) (new_id : nat → string) (t : moment) (fs : cache) :=
  nsidc_daily_extent sample_hash (sample_reader_of sample_rows) sample_number http_get self new_id t fs.

Definition ingested_table : cache :=
  <[("nsidc-sea-ice-index", "hbody") := files "body" (new_metadata sample_hash "nsidc-sea-ice-index" NSIDC_NORTH_DAILY_EXTENT "body" [] 200 sample_now)]> ∅.

(** The table is fetched once; a moment later the network is gone. *)
Lemma ingestion_replayed_witness :
  ingest_sample dead_server offline (λ i, "again" +:+ numbered i) (at_moment later_now ["hbody"]) ingested_table =
    (imap (λ i, reparsed ("again" +:+ numbered i) later_now) <$> (ingest_sample table_server online numbered (at_moment sample_now []) ∅).1, ingested_table).
Proof.
  pose proof (ingestion_replayed sample_hash (sample_reader_of sample_rows) sample_number table_server dead_server online offline numbered
    (λ i, "again" +:+ numbered i) (at_moment sample_now []) (at_moment later_now ["hbody"]) ∅ "body" [] 200) as P.
  assert ((ingest_sample table_server online numbered (at_moment sample_now []) ∅).2 = ingested_table) as E by (vm_compute; reflexivity).
  unfold ingest_sample in *. destruct (nsidc_daily_extent _ _ _ table_server _ _ _ _) as [r fs']. cbn [fst snd] in *. subst fs'.
  apply P.
  - exact empty_cache_ok.
  - reflexivity.
  - reflexivity.
  - reflexivity.
  - apply stores_first.
  - reflexivity.
  - reflexivity.
  - split_and!; [by apply sample_calendar; right|vm_compute; reflexivity|]. intros d. apply one_snapshot.
Defined.

Definition window (west : Q) : stac_query :=
  {| sq_bbox := (lit west, lit 60, lit 10, lit 70); sq_datetime := "1970-01-01T00:00:00+00:00/1970-01-02T00:00:00+00:00"; sq_limit := 100 |}.

Definition empty_catalogue (_ : stac_query) : res response := Ok ("{}", [], 200).

Definition first_search : res Observation * cache :=
  search sample_hash sample_epoch empty_catalogue online "s1" (window 0) (at_moment sample_now []) ∅.

(** Two windows without imagery. *)
Lemma same_answer_collides_witness :
  is_ok first_search.1 = true ∧
  search sample_hash sample_epoch empty_catalogue online "s2" (window 5) (at_moment later_now ["h{}"]) first_search.2 =
    (Raise (ValueError "immutable snapshot collision"), first_search.2).
Proof.
  assert (is_ok first_search.1 = true) as E by (vm_compute; reflexivity). split; [exact E|].
  assert (first_search.2 = <[("copernicus-cdse-stac", "h{}") := files "{}"
    (new_metadata sample_hash "copernicus-cdse-stac" (source_uri (window 0)) "{}" [] 200 sample_now)]> ∅) as E2 by (vm_compute; reflexivity).
  destruct first_search.1 as [o|e] eqn:Eo; [|discriminate E].
  pose proof (same_answer_collides sample_hash sample_epoch empty_catalogue online "s1" "s2" (window 0) (window 5)
    (at_moment sample_now []) (at_moment later_now ["h{}"]) ∅ o "{}" [] 200 [] 200) as P. fold first_search in P.
  destruct first_search as [r fs']. cbn [fst snd] in *. subst r fs'. apply P.
  - exact empty_cache_ok.
  - intros d m. unfold snapshot_at. by rewrite lookup_empty.
  - vm_compute. discriminate.
  - reflexivity.
  - reflexivity.
  - reflexivity.
  - reflexivity.
  - apply stores_first.
  - apply sample_calendar. right. reflexivity.
  - reflexivity.
  - intros d. apply one_snapshot.
Defined.
