(* ===== verification/Connectors.v ===== *)
(** * connectors.py: shipments, the networks made of them, and sensor feeds

    Three parsers read shipments (EDI 204, EDI 315, a bill of lading in JSON); the
    synthesiser turns shipments into a dependency graph for [Graph] and into a supply
    network; four adapters turn a message (AIS, space weather, earthquakes, SCADA) into
    an observation for [Fusion].  [float(s)], [repr] (the text of a JSON value that is no
    text), [json.dumps], the digest, the time and the identifiers are arguments. *)

From Stdlib Require Import ZArith QArith Ascii.
From S2P Require Import Prelude PyFloat PyFormat Domain Sources Fusion Graph State.
From S2P Require Telemetry PublicData Dsl Compiler.

Open Scope Z_scope.

(** ** Shipments *)

Record ShipmentStop := {
  st_stop_sequence : Z;
  st_facility_id : string;
  st_facility_name : string;
  st_city : string;
  st_country : string;
  st_postal_code : string;
  st_latitude : float;
  st_longitude : float;
  st_modal_type : string
}.

Definition new_stop (stop_sequence : Z) (facility_id facility_name city country modal_type : string) : ShipmentStop :=
  {| st_stop_sequence := stop_sequence; st_facility_id := facility_id; st_facility_name := facility_name; st_city := city;
     st_country := country; st_postal_code := ""; st_latitude := f0; st_longitude := f0; st_modal_type := modal_type |}.

Record ShipmentRecord := {
  sh_shipment_id : string;
  sh_bol_number : string;
  sh_carrier_scac : string;
  sh_shipper_name : string;
  sh_consignee_name : string;
  sh_commodity : string;
  sh_weight_tonnes : float;
  sh_declared_value_cad : float;
  sh_status : string;
  sh_stops : list ShipmentStop;
  sh_chokepoints_crossed : list string;
  sh_timestamp : datetime
}.

Definition shipment (shipment_id bol_number carrier_scac shipper_name consignee_name commodity : string) (weight_tonnes : float)
    (status : string) (stops : list ShipmentStop) (now : datetime) : ShipmentRecord :=
  {| sh_shipment_id := shipment_id; sh_bol_number := bol_number; sh_carrier_scac := carrier_scac; sh_shipper_name := shipper_name;
     sh_consignee_name := consignee_name; sh_commodity := commodity; sh_weight_tonnes := weight_tonnes; sh_declared_value_cad := f0;
     sh_status := status; sh_stops := stops; sh_chokepoints_crossed := []; sh_timestamp := now |}.

(** ** Segments *)

(** Split at every character that [p] holds of. *)
Fixpoint split_at (p : ascii → bool) (s : string) : string * list string :=
  match s with
  | EmptyString => (EmptyString, [])
  | String c s => let '(first, rest) := split_at p s in if p c then (EmptyString, first :: rest) else (String c first, rest)
  end.

Definition split (p : ascii → bool) (s : string) : list string := let '(first, rest) := split_at p s in first :: rest.

Definition is_terminator (c : ascii) : bool := Ascii.eqb c (ascii_of_N 126) || Ascii.eqb c (ascii_of_N 10).
Definition is_star (c : ascii) : bool := Ascii.eqb c (ascii_of_N 42).

(** [[line.strip() for line in re.split(r"~|\n", content) if line.strip()]] *)
Definition lines (content : string) : list string :=
  List.filter (λ s, negb (str_empty s)) (str_strip <$> split is_terminator content).

Definition elements (line : string) : list string := split is_star line.

(** [elements[i]], where the code has tested the length. *)
Definition element (l : list string) (i : nat) : string := default "" (l !! i).

(** The test [seg == name and len(elements) > n]. *)
Definition is_seg (l : list string) (name : string) (n : nat) : bool := str_eqb (element l 0) name && Nat.ltb n (length l).

(** The variables of the loop of [parse_edi_204]. *)
Record tender := {
  tn_shipment_id : string;
  tn_bol_number : string;
  tn_carrier_scac : string;
  tn_shipper : string;
  tn_consignee : string;
  tn_weight_tonnes : float;
  tn_stops : list ShipmentStop;
  tn_stop_seq : Z
}.

Definition empty_tender : tender :=
  {| tn_shipment_id := "EDI204-UNKNOWN"; tn_bol_number := ""; tn_carrier_scac := "UNKNOWN"; tn_shipper := "UNKNOWN SHIPPER";
     tn_consignee := "UNKNOWN CONSIGNEE"; tn_weight_tonnes := lit 20; tn_stops := []; tn_stop_seq := 1 |}.

Section parsers.
Context (float_of_str : string → res float) (repr : json → string).

Definition stop_of (n : Z) : ShipmentStop := new_stop n ("STOP-" +:+ str_Z n) ("Stop " +:+ str_Z n) "Unknown" "CAN" "TRUCK".

(** The weight of an OID segment, if it can be read. *)
Definition oid_weight (old : float) (text : string) : res float :=
  match float_of_str text with
  | Ok x => fdiv x (lit 1000)
  | Raise (TypeError _) => Ok old
  | Raise e => if PublicData.value_error_b e then Ok old else Raise e
  end.

Definition tender_step (t : tender) (line : string) : res tender :=
  let l := elements line in
  if is_seg l "B2" 2 then
    Ok {| tn_shipment_id := tn_shipment_id t; tn_bol_number := tn_bol_number t; tn_carrier_scac := element l 2; tn_shipper := tn_shipper t;
          tn_consignee := tn_consignee t; tn_weight_tonnes := tn_weight_tonnes t; tn_stops := tn_stops t; tn_stop_seq := tn_stop_seq t |}
  else if is_seg l "B2A" 2 then
    Ok {| tn_shipment_id := element l 2; tn_bol_number := tn_bol_number t; tn_carrier_scac := tn_carrier_scac t; tn_shipper := tn_shipper t;
          tn_consignee := tn_consignee t; tn_weight_tonnes := tn_weight_tonnes t; tn_stops := tn_stops t; tn_stop_seq := tn_stop_seq t |}
  else if is_seg l "L11" 2 then
    Ok {| tn_shipment_id := tn_shipment_id t; tn_bol_number := if str_eqb (element l 2) "BM" then element l 1 else element l 1;
          tn_carrier_scac := tn_carrier_scac t; tn_shipper := tn_shipper t;
          tn_consignee := tn_consignee t; tn_weight_tonnes := tn_weight_tonnes t; tn_stops := tn_stops t; tn_stop_seq := tn_stop_seq t |}
  else if is_seg l "N1" 2 then
    let shipper := if str_eqb (element l 1) "SH" then element l 2 else tn_shipper t in
    let consignee := if str_eqb (element l 1) "SH" then tn_consignee t else if str_eqb (element l 1) "CN" then element l 2 else tn_consignee t in
    Ok {| tn_shipment_id := tn_shipment_id t; tn_bol_number := tn_bol_number t; tn_carrier_scac := tn_carrier_scac t; tn_shipper := shipper;
          tn_consignee := consignee; tn_weight_tonnes := tn_weight_tonnes t; tn_stops := tn_stops t; tn_stop_seq := tn_stop_seq t |}
  else if is_seg l "S5" 1 then
    Ok {| tn_shipment_id := tn_shipment_id t; tn_bol_number := tn_bol_number t; tn_carrier_scac := tn_carrier_scac t; tn_shipper := tn_shipper t;
          tn_consignee := tn_consignee t; tn_weight_tonnes := tn_weight_tonnes t; tn_stops := tn_stops t ++ [stop_of (tn_stop_seq t)];
          tn_stop_seq := tn_stop_seq t + 1 |}
  else if is_seg l "OID" 4 then
    weight ← oid_weight (tn_weight_tonnes t) (element l 4);
    Ok {| tn_shipment_id := tn_shipment_id t; tn_bol_number := tn_bol_number t; tn_carrier_scac := tn_carrier_scac t; tn_shipper := tn_shipper t;
          tn_consignee := tn_consignee t; tn_weight_tonnes := weight; tn_stops := tn_stops t; tn_stop_seq := tn_stop_seq t |}
  else Ok t.

Definition parse_edi_204 (now : datetime) (content : string) : res ShipmentRecord :=
  t ← foldM tender_step empty_tender (lines content);
  let bol_number := if str_empty (tn_bol_number t) then "BOL-" +:+ tn_shipment_id t else tn_bol_number t in
  let stops := match tn_stops t with
               | [] => [new_stop 1 "ORIGIN" (tn_shipper t) "Origin City" "CAN" "TRUCK";
                        new_stop 2 "DESTINATION" (tn_consignee t) "Destination City" "CAN" "TRUCK"]
               | stops => stops
               end in
  Ok (shipment (tn_shipment_id t) bol_number (tn_carrier_scac t) (tn_shipper t) (tn_consignee t) "GENERAL FREIGHT"
        (tn_weight_tonnes t) "IN_TRANSIT" stops now).

(** The variables of the loop of [parse_edi_315]. *)
Record ocean_status := { oc_shipment_id : string; oc_bol_number : string; oc_status : string; oc_stops : list ShipmentStop }.

Definition ocean_step (t : ocean_status) (line : string) : ocean_status :=
  let l := elements line in
  if is_seg l "B4" 3 then
    {| oc_shipment_id := element l 1; oc_bol_number := oc_bol_number t; oc_status := element l 3; oc_stops := oc_stops t |}
  else if is_seg l "N9" 2 && str_eqb (element l 1) "BM" then
    {| oc_shipment_id := oc_shipment_id t; oc_bol_number := element l 2; oc_status := oc_status t; oc_stops := oc_stops t |}
  else if is_seg l "R4" 3 then
    let seq := if str_eqb (element l 1) "L" then 1 else 2 in
    {| oc_shipment_id := oc_shipment_id t; oc_bol_number := oc_bol_number t; oc_status := oc_status t;
       oc_stops := oc_stops t ++ [new_stop seq (element l 2) (element l 3) (element l 3) "CAN" "MARITIME"] |}
  else t.

Definition parse_edi_315 (now : datetime) (content : string) : ShipmentRecord :=
  let t := foldl ocean_step {| oc_shipment_id := "EDI315-CONTAINER"; oc_bol_number := "BOL-OCEAN"; oc_status := "VESSEL_DEPARTED"; oc_stops := [] |}
             (lines content) in
  let stops := match oc_stops t with
               | [] => [new_stop 1 "PORT-A" "Port of Loading" "Yokohama" "JPN" "MARITIME";
                        new_stop 2 "PORT-B" "Port of Discharge" "Vancouver" "CAN" "MARITIME"]
               | stops => stops
               end in
  shipment (oc_shipment_id t) (oc_bol_number t) "MAEU" "Global Shipper Inc." "Canadian Defence Logistics" "CRITICAL INDUSTRIAL PARTS"
    (lit 450) (oc_status t) stops now.

(** [str(d.get(key, default))] *)
Definition text_at (d : object) (key default_ : string) : string := Telemetry.py_str repr (default (JStr default_) (d !! key)).

(** [float(d.get(key, default))] *)
Definition float_at (d : object) (key : string) (default_ : json) : res float :=
  Telemetry.py_float float_of_str (default default_ (d !! key)).

Definition sap_stop (i : Z) (st : json) : res ShipmentStop :=
  match st with
  | JObj st =>
      Ok (new_stop i (text_at st "FacilityID" ("FAC-" +:+ str_Z i)) (text_at st "FacilityName" ("Facility " +:+ str_Z i))
            (text_at st "City" "Unknown") (text_at st "Country" "CAN") (text_at st "ModalType" "RAIL"))
  | _ => Raise (AttributeError "object has no attribute 'get'")
  end.

Definition parse_sap_bill_of_lading (now : datetime) (data : object) : res ShipmentRecord :=
  let shipment_id := Telemetry.py_str repr
    (default (default (JStr "SAP-DELIV-001") (data !! "ShipmentID")) (data !! "DeliveryDocument")) in
  let shipper := text_at data "ShipperPartyName" "Manufacturing Plant" in
  let consignee := text_at data "ShipToPartyName" "Central Strategic Depot" in
  weight ← float_at data "TotalGrossWeightTonnes" (JFloat (lit 120));
  stops ← match default (JArr []) (data !! "Stops") with
          | JArr ((_ :: _) as raw_stops) => mapM_res (λ ist, sap_stop ist.1 ist.2) (zip (seqZ 1 (Z.of_nat (length raw_stops))) raw_stops)
          | _ => Ok [new_stop 1 "ORIGIN-PLANT" shipper "James Bay" "CAN" "RAIL"; new_stop 2 "DEST-SMELTER" consignee "Sudbury" "CAN" "RAIL"]
          end;
  Ok (shipment shipment_id (text_at data "BillOfLading" ("BOL-" +:+ shipment_id)) (text_at data "ForwardingAgent" "CN-RAIL")
        shipper consignee (text_at data "CommodityDescription" "Cobalt & Nickel Concentrates") weight "IN_TRANSIT" stops now).

End parsers.

(** ** Networks *)

(** [facility_id.lower().replace(' ', '-')] *)
Definition node_id_of (facility_id : string) : string :=
  "node:" +:+ PublicData.str_replace " " "-" (str_lower facility_id).

Definition node_of (stop : ShipmentStop) : DependencyNode :=
  {| node_id := node_id_of (st_facility_id stop); node_name := st_facility_name stop;
     node_type := if PublicData.str_in "PLANT" (st_facility_id stop) || PublicData.str_in "DEPOT" (st_facility_id stop)
                  then NT_FACILITY else NT_INTERMODAL_TERMINAL;
     node_criticality := lit 0.5; node_location := None; node_provider_id := None;
     node_attributes := [("city", VStr (st_city stop)); ("country", VStr (st_country stop)); ("modal_type", VStr (st_modal_type stop))] |}.

Definition transport (prev stop : ShipmentStop) : DependencyEdge :=
  {| edge_source := node_id_of (st_facility_id prev); edge_target := node_id_of (st_facility_id stop); edge_kind := DK_TRANSPORTS;
     edge_strength := f1; edge_substitutable := false; edge_substitute_group := None |}.

(** The nodes, the edges and the previous stop of the shipment. *)
Notation network := (dict string DependencyNode * list DependencyEdge)%type.

Definition stop_step (acc : network * option ShipmentStop) (stop : ShipmentStop) : network * option ShipmentStop :=
  let '(nodes, edges, prev_stop) := acc in
  let nodes := if dmem nodes (node_id_of (st_facility_id stop)) then nodes else dset nodes (node_id_of (st_facility_id stop)) (node_of stop) in
  let edges := match prev_stop with Some prev => edges ++ [transport prev stop] | None => edges end in
  (nodes, edges, Some stop).

Definition shipment_step (acc : network) (s : ShipmentRecord) : network := (foldl stop_step (acc, None) (sh_stops s)).1.

Definition synthesize_dependency_graph (shipments : list ShipmentRecord) (network_id : string) : res DependencyGraph :=
  let '(nodes, edges) := foldl shipment_step ([], []) shipments in
  validate_references {| graph_id := network_id; graph_nodes := nodes.*2; graph_edges := edges |}.

Record SynthesizedSupplyNetwork := {
  sn_name : string;
  sn_version : string;
  sn_primary_corridors : list string;
  sn_declared_redundancy : Z;
  sn_required_providers : list string
}.

(** [if x not in l: l.append(x)] *)
Definition append_new (l : list string) (x : string) : list string := if mem_str x l then l else l ++ [x].

Definition corridor_name (a b : ShipmentStop) : string :=
  "corridor/" +:+ str_lower (st_facility_id a) +:+ "-to-" +:+ str_lower (st_facility_id b).

(** The pairs of consecutive stops. *)
Definition legs (s : ShipmentRecord) : list (ShipmentStop * ShipmentStop) := zip (sh_stops s) (tail (sh_stops s)).

Definition supply_step (acc : list string * list string) (s : ShipmentRecord) : list string * list string :=
  let '(corridors, providers) := acc in
  (foldl (λ l leg, append_new l (corridor_name leg.1 leg.2)) corridors (legs s),
   if str_empty (sh_carrier_scac s) then providers else append_new providers (sh_carrier_scac s)).

Definition synthesize_supply_network (shipments : list ShipmentRecord) (name : string) : SynthesizedSupplyNetwork :=
  let '(corridors, providers) := foldl supply_step ([], []) shipments in
  let corridors := match corridors with [] => ["corridor/primary-transit"] | _ => corridors end in
  let providers := match providers with [] => ["PRIMARY-CARRIER"] | _ => providers end in
  {| sn_name := name; sn_version := "1.0.0"; sn_primary_corridors := corridors;
     sn_declared_redundancy := Z.max 1 (Z.of_nat (length providers)); sn_required_providers := providers |}.

(** ** Sensor feeds *)

Section adapters.
Context (sha256 : string → string) (dumps : object → string) (float_of_str : string → res float) (repr : json → string)
  (value_of : json → pyval).

(** [hashlib.sha256(json.dumps(payload, sort_keys=True).encode("utf-8")).hexdigest()] *)
Definition digest_of (payload : object) : string := sha256 (dumps payload).

(** An observation of now. *)
Definition feed_observation (id : string) (now : datetime) (source_id : string) (trust : SourceTrust) (assertion : AssertionClass)
    (metric : MetricName) (value : float) (unit_ : string) (confidence : float) (uri digest : string) (metadata : dict string pyval)
    : res Observation :=
  p ← Telemetry.new_Provenance
        {| prov_uri := uri; prov_retrieved_at := now; prov_content_sha256 := digest; prov_snapshot_id := None; prov_licence := None |};
  new_Observation
    {| obs_observation_id := id; obs_source_id := source_id; obs_source_trust := trust; obs_assertion_class := assertion;
       obs_metric := metric; obs_value := value; obs_unit := unit_; obs_observed_at := now; obs_valid_until := None; obs_location := None;
       obs_confidence := confidence; obs_provenance := p; obs_metadata := metadata |}.

Local Abbreviation text_at := (Connectors.text_at repr).
Local Abbreviation float_at := (Connectors.float_at float_of_str).

Definition parse_ais_json (id : string) (now : datetime) (payload : object) : res Observation :=
  let mmsi := text_at payload "mmsi" "UNKNOWN_MMSI" in
  let vessel_name := text_at payload "vessel_name" ("Vessel-" +:+ mmsi) in
  lat ← float_at payload "latitude" (JFloat f0);
  lon ← float_at payload "longitude" (JFloat f0);
  sog ← float_at payload "speed_over_ground_knots" (default (JFloat (lit 12)) (payload !! "sog"));
  cog ← float_at payload "course_over_ground" (default (JFloat f0) (payload !! "cog"));
  nav_status ← int_of_json (default (JNum 0) (payload !! "nav_status"));
  let is_spoofed := Dsl.truthy (default (JBool false) (payload !! "gnss_spoof_flag")) in
  let is_speed_anomaly := (sog >? lit 45)%F in
  let effective_state := if is_spoofed then CS_OPEN_BUT_NAVIGATION_UNTRUSTED
                         else if is_speed_anomaly then CS_OPEN_DEGRADED else CS_OPEN in
  feed_observation id now ("ais:" +:+ mmsi) ST_AUTHORITATIVE_PUBLIC AC_TRAFFIC_HISTORY M_AIS_TRAFFIC_INDEX
    (if is_spoofed then lit 0.20 else lit 0.85) "index" (if negb is_spoofed then lit 0.85 else lit 0.20)
    ("ais://global/vessel/" +:+ mmsi) (digest_of payload)
    [("vessel_name", VStr vessel_name); ("latitude", VFloat lat); ("longitude", VFloat lon); ("speed_knots", VFloat sog);
     ("course", VFloat cog); ("nav_status", VInt nav_status); ("effective_state", VStr (CorridorState_value effective_state));
     ("is_spoofed", VBool is_spoofed)].

Definition parse_space_weather_alert (id : string) (now : datetime) (alert_data : object) : res Observation :=
  kp_index ← float_at alert_data "kp_index" (JFloat (lit 3));
  let event_type := text_at alert_data "event_type" "GEOMAGNETIC_INDEX" in
  let '(effective_state, satcom_val, confidence) :=
    if (kp_index >=? lit 7)%F then (CS_OPEN_BUT_COMMUNICATIONS_DEGRADED, lit 0.10, lit 0.95)
    else if (kp_index >=? lit 5)%F then (CS_OPEN_DEGRADED, lit 0.50, lit 0.85)
    else (CS_OPEN, lit 0.95, lit 0.90) in
  feed_observation id now "noaa:swpc" ST_AUTHORITATIVE_PUBLIC AC_WEATHER M_SATCOM_AVAILABILITY satcom_val "ratio" confidence
    "noaa://swpc/alerts/geomagnetic" (digest_of alert_data)
    [("event_type", VStr event_type); ("kp_index", VFloat kp_index); ("effective_state", VStr (CorridorState_value effective_state));
     ("hf_blackout", VBool (kp_index >=? lit 6)%F); ("satcom_degradation", VBool (kp_index >=? lit 7)%F)].

Definition parse_earthquake_alert (id : string) (now : datetime) (event_data : object) : res Observation :=
  mag ← float_at event_data "magnitude" (JFloat f0);
  let region := text_at event_data "region" "Global" in
  depth_km ← float_at event_data "depth_km" (JFloat (lit 10));
  let '(effective_state, avail_val) :=
    if (mag >=? lit 7)%F then (CS_PHYSICALLY_CLOSED, f0)
    else if (mag >=? lit 5.5)%F then (CS_OPEN_DEGRADED, lit 0.40)
    else (CS_OPEN, f1) in
  feed_observation id now "usgs:earthquake" ST_AUTHORITATIVE_PUBLIC AC_EARTH_OBSERVATION M_PORT_AVAILABILITY avail_val "ratio" (lit 0.98)
    ("usgs://earthquake/event/" +:+ String.substring 0 12 (digest_of event_data)) (digest_of event_data)
    [("magnitude", VFloat mag); ("region", VStr region); ("depth_km", VFloat depth_km);
     ("effective_state", VStr (CorridorState_value effective_state))].

(** [list(v)] of a JSON value: the elements, the characters (of ASCII text) or the keys. *)
Definition py_list (v : json) : res (list json) :=
  match v with
  | JArr l => Ok l
  | JStr s => Ok ((λ c, JStr (String c EmptyString)) <$> String.list_ascii_of_string s)
  | JObj m => Ok (JStr <$> (map_to_list m).*1)
  | _ => Raise (TypeError "object is not iterable")
  end.

Definition parse_scada_tag (id : string) (now : datetime) (payload : object) : res Observation :=
  let tag_name := text_at payload "tag" "PORT_CRANE_PLC_01" in
  let operational_state := text_at payload "status" "RUNNING" in
  throughput_rate ← float_at payload "throughput_percent" (JFloat (lit 100));
  error_codes ← py_list (default (JArr []) (payload !! "errors"));
  sv ← (if mem_str operational_state ["FAULT"; "EMERGENCY_STOP"; "MODBUS_FLOOD"] then Ok (CS_PHYSICALLY_CLOSED, f0)
        else if (throughput_rate <? lit 50)%F || negb (bool_decide (length error_codes = 0%nat))
        then v ← fdiv throughput_rate (lit 100); Ok (CS_OPEN_DEGRADED, v)
        else Ok (CS_OPEN, f1));
  let '(effective_state, cap_val) := sv in
  feed_observation id now ("scada:" +:+ tag_name) ST_AUTHENTICATED_OPERATOR AC_LIVE_AVAILABILITY M_PORT_CAPACITY cap_val "ratio" (lit 0.99)
    ("opcua://scada/historian/" +:+ str_lower tag_name) (digest_of payload)
    [("tag", VStr tag_name); ("status", VStr operational_state); ("throughput_percent", VFloat throughput_rate);
     ("error_codes", VList (value_of <$> error_codes)); ("effective_state", VStr (CorridorState_value effective_state))].

End adapters.

(** ** Load tenders *)

Section edi.
Context (float_of_str : string → res float).

(** [float] of a text raises a ValueError or nothing. *)
Context (Hfloat : ∀ s e, float_of_str s = Raise e → PublicData.value_error_b e = true).

(** The stops are numbered as they come. *)
Definition numbered (t : tender) : Prop :=
  tn_stop_seq t = Z.of_nat (length (tn_stops t)) + 1 ∧ tn_stops t = stop_of <$> seqZ 1 (Z.of_nat (length (tn_stops t))).

Lemma oid_weight_total old s : ∃ x, oid_weight float_of_str old s = Ok x.
Proof using Hfloat.
  unfold oid_weight. destruct (float_of_str s) as [x|e] eqn:E; [by apply Compiler.fdiv_total|].
  rewrite (Hfloat _ _ E). by destruct e; eexists.
Qed.

Lemma tender_step_total t line : numbered t → ∃ t', tender_step float_of_str t line = Ok t' ∧ numbered t'.
Proof using Hfloat.
  intros [Hn Hs]. unfold tender_step. set (l := elements line).
  destruct (is_seg l "B2" 2); [by eexists|]. destruct (is_seg l "B2A" 2); [by eexists|]. destruct (is_seg l "L11" 2); [by eexists|].
  destruct (is_seg l "N1" 2); [by eexists|]. destruct (is_seg l "S5" 1).
  - eexists. split; [done|]. unfold numbered. cbn [tn_stop_seq tn_stops]. rewrite length_app, Hn. cbn [length].
    split; [lia|]. replace (Z.of_nat (length (tn_stops t) + 1)) with (Z.of_nat (length (tn_stops t)) + 1) by lia.
    rewrite seqZ_app by lia. rewrite fmap_app, <-Hs. f_equal.
    assert (seqZ (1 + Z.of_nat (length (tn_stops t))) 1 = [Z.of_nat (length (tn_stops t)) + 1]) as ->
      by (rewrite seqZ_cons by lia; f_equal; lia). done.
  - destruct (is_seg l "OID" 4); [|by eexists]. destruct (oid_weight_total (tn_weight_tonnes t) (element l 4)) as [x ->]. by eexists.
Qed.

Lemma tender_total ls t : numbered t → ∃ t', foldM (tender_step float_of_str) t ls = Ok t' ∧ numbered t'.
Proof using Hfloat.
  revert t. induction ls as [|line ls IH]; intros t Ht; [by eexists|]. cbn.
  destruct (tender_step_total t line Ht) as (t' & -> & Ht'). cbn [mbind res_bind]. by apply IH.
Qed.

(** Any text is read as a load tender: the parse never raises, the shipment has a bill
    number and at least one stop, and its stops are numbered from one in order. *)
Theorem edi_204_total now content : ∃ r, parse_edi_204 float_of_str now content = Ok r ∧
  sh_bol_number r ≠ "" ∧ sh_stops r ≠ [] ∧ st_stop_sequence <$> sh_stops r = seqZ 1 (Z.of_nat (length (sh_stops r))).
Proof using Hfloat.
  unfold parse_edi_204. destruct (tender_total (lines content) empty_tender) as (t & -> & _ & Hs); [by split|]. cbn [mbind res_bind].
  eexists. split; [done|]. cbn [shipment sh_bol_number sh_stops]. split_and!.
  - destruct (tn_bol_number t); cbn; [|done]. by destruct (tn_shipment_id t).
  - by destruct (tn_stops t).
  - destruct (tn_stops t) as [|s l]; [done|]. rewrite Hs at 1. rewrite <-list_fmap_compose. cbn [length].
    erewrite list_fmap_ext; [apply list_fmap_id|]. done.
Qed.

End edi.

(** ** The graph of the shipments *)

(** A network whose nodes are named by their keys and whose edges lead between them. *)
Definition network_ok (n : network) : Prop :=
  NoDup (dkeys n.1) ∧ Forall (λ kv, node_id kv.2 = kv.1 ∧ node_valid kv.2 = true) n.1 ∧
  Forall (λ e, edge_source e ∈ dkeys n.1 ∧ edge_target e ∈ dkeys n.1 ∧ edge_valid e = true) n.2.

Definition prev_known (n : network) (prev : option ShipmentStop) : Prop :=
  match prev with Some p => node_id_of (st_facility_id p) ∈ dkeys n.1 | None => True end.

Lemma dkeys_keep (d : dict string DependencyNode) k v : let d' := if dmem d k then d else dset d k v in
  k ∈ dkeys d' ∧ (∀ k', k' ∈ dkeys d → k' ∈ dkeys d') ∧ (NoDup (dkeys d) → NoDup (dkeys d')) ∧ (∀ kv, kv ∈ d' → kv = (k, v) ∨ kv ∈ d).
Proof.
  unfold dmem. destruct (dget d k) as [v'|] eqn:E; cbn zeta.
  - split_and!; [apply dget_some_key; by eexists|done..|by right].
  - split_and!; [apply dget_some_key; rewrite dget_dset_eq; by eexists| |apply dset_NoDup|apply elem_of_dset].
    intros k' [v' Hk']%dget_some_key. apply dget_some_key. destruct (decide (k = k')) as [->|]; [congruence|]. rewrite dget_dset_ne by done. by eexists.
Qed.

Lemma stop_step_ok n prev stop : network_ok n → prev_known n prev →
  let '(n', prev') := stop_step (n, prev) stop in network_ok n' ∧ prev_known n' prev' ∧ length n'.2 = (length n.2 + (if prev then 1 else 0))%nat.
Proof.
  destruct n as [nodes edges]. intros (Hd & Hn & He) Hp. cbn [stop_step].
  destruct (dkeys_keep nodes (node_id_of (st_facility_id stop)) (node_of stop)) as (Hin & Hkeep & Hnd & Hel). cbn zeta in *.
  set (nodes' := if dmem nodes _ then _ else _) in *.
  assert (Forall (λ e, edge_source e ∈ dkeys nodes' ∧ edge_target e ∈ dkeys nodes' ∧ edge_valid e = true) edges) as He'.
  { eapply Forall_impl; [exact He|]. cbn. intros e (? & ? & ?). eauto. }
  unfold network_ok. cbn [fst snd] in *. split_and!.
  - by apply Hnd.
  - apply Forall_forall. intros kv [-> |Hkv]%Hel; [by split; [|vm_compute]|]. by eapply Forall_forall in Hn.
  - destruct prev as [p|]; [|done]. apply Forall_app; split; [done|]. constructor; [|done]. cbn.
    split_and!; [by apply Hkeep|done|by vm_compute].
  - done.
  - destruct prev; [rewrite length_app; cbn; lia|lia].
Qed.

Lemma stops_ok stops n prev : network_ok n → prev_known n prev →
  network_ok (foldl stop_step (n, prev) stops).1 ∧
  length (foldl stop_step (n, prev) stops).1.2 = (length n.2 + match prev with Some _ => length stops | None => length stops - 1 end)%nat.
Proof.
  revert n prev. induction stops as [|stop stops IH]; intros n prev Hn Hp; cbn [foldl].
  { split; [done|]. destruct prev; cbn; lia. }
  pose proof (stop_step_ok n prev stop Hn Hp) as H. destruct (stop_step (n, prev) stop) as [n' prev'] eqn:E.
  destruct H as (Hn' & Hp' & Hl). destruct (IH n' prev' Hn' Hp') as [H1 H2]. split; [done|]. rewrite H2, Hl.
  assert (prev' = Some stop) as -> by (destruct n; cbn in E; by injection E). cbn [length]. destruct prev; lia.
Qed.

Definition leg_count (shipments : list ShipmentRecord) : nat := sum_list ((λ s, length (sh_stops s) - 1)%nat <$> shipments).

Lemma shipments_ok shipments n : network_ok n →
  network_ok (foldl shipment_step n shipments) ∧ length (foldl shipment_step n shipments).2 = (length n.2 + leg_count shipments)%nat.
Proof.
  revert n. induction shipments as [|s shipments IH]; intros n Hn; cbn [foldl]; [split; [done|]; cbn; lia|].
  destruct (stops_ok (sh_stops s) n None Hn I) as [H1 H2]. destruct (IH (shipment_step n s) H1) as [H3 H4].
  split; [done|]. rewrite H4. unfold shipment_step. rewrite H2. unfold leg_count. cbn. lia.
Qed.

Lemma network_ids n : network_ok n → node_id <$> n.1.*2 = dkeys n.1.
Proof.
  intros (_ & Hn & _). unfold dkeys. rewrite <-list_fmap_compose. apply list_fmap_ext. intros i kv Hi.
  apply list_elem_of_lookup_2 in Hi. by eapply Forall_forall in Hn as [? _].
Qed.

(** C37. The shipments become a graph the engine accepts: the synthesis never raises, the
    nodes have distinct identifiers, every edge leads between two of them, all scores are
    valid, and there is one edge for each leg of a shipment. *)
Theorem synthesized_graph_valid shipments network_id : ∃ g, synthesize_dependency_graph shipments network_id = Ok g ∧
  NoDup (node_ids g) ∧ Forall (λ n, node_valid n = true) (graph_nodes g) ∧
  Forall (λ e, edge_known (node_ids g) e = true ∧ edge_valid e = true) (graph_edges g) ∧
  length (graph_edges g) = leg_count shipments.
Proof.
  unfold synthesize_dependency_graph.
  destruct (shipments_ok shipments ([], [])) as [Hok Hl]; [by repeat constructor|].
  pose proof (network_ids _ Hok) as Hids. destruct (foldl shipment_step ([], []) shipments) as [nodes edges].
  destruct Hok as (Hd & Hn & He). cbn [fst snd] in *. set (g := {| graph_id := network_id; graph_nodes := nodes.*2; graph_edges := edges |}).
  assert (node_ids g = dkeys nodes) as Eg by exact Hids.
  assert (Forall (λ e, edge_known (node_ids g) e = true ∧ edge_valid e = true) edges) as Hk.
  { rewrite Eg. eapply Forall_impl; [exact He|]. cbn. intros e (Hs & Ht & Hv). split; [|done]. unfold edge_known.
    by rewrite (proj2 (mem_str_true _ _) Hs), (proj2 (mem_str_true _ _) Ht). }
  exists g. split_and!; [|by rewrite Eg| | |exact Hl].
  - unfold validate_references. rewrite Eg. unfold set_of.
    assert (length (remove_dups (dkeys nodes)) = length nodes) as El.
    { rewrite <-(length_fmap fst nodes). apply Permutation_length, NoDup_Permutation; [apply NoDup_remove_dups|done|apply elem_of_remove_dups]. }
    rewrite El. cbn [g graph_nodes graph_edges]. rewrite length_fmap, Nat.eqb_refl. cbn [require mbind res_bind].
    destruct (List.find _ edges) as [e|] eqn:E; [|done]. apply List.find_some in E as [Hin E]. apply list_elem_of_In in Hin.
    eapply Forall_forall in He as (Hs & Ht & _); [|exact Hin].
    assert (edge_known (remove_dups (dkeys nodes)) e = true) as K; [|by rewrite K in E].
    unfold edge_known. by rewrite andb_true_iff, !mem_str_true, !elem_of_remove_dups.
  - cbn. apply Forall_fmap. eapply Forall_impl; [exact Hn|]. by intros kv [_ ?].
  - exact Hk.
Qed.

(** ** The supply network *)

Lemma elem_append_new l x y : y ∈ append_new l x ↔ y ∈ l ∨ y = x.
Proof.
  unfold append_new. destruct (mem_str x l) eqn:E.
  - apply mem_str_true in E. split; [by left|]. by intros [?| ->].
  - by rewrite elem_of_app, list_elem_of_singleton.
Qed.

Lemma append_new_NoDup l x : NoDup l → NoDup (append_new l x).
Proof.
  intros Hl. unfold append_new. destruct (mem_str x l) eqn:E; [done|]. apply NoDup_app. split_and!; [done| |apply NoDup_singleton].
  intros y Hy ->%list_elem_of_singleton. apply mem_str_true in Hy. congruence.
Qed.

Lemma append_all {A} (f : A → string) l acc : NoDup acc → let r := foldl (λ l x, append_new l (f x)) acc l in
  NoDup r ∧ ∀ y, y ∈ r ↔ y ∈ acc ∨ ∃ x, x ∈ l ∧ y = f x.
Proof.
  revert acc. induction l as [|x l IH]; intros acc Hacc; cbn.
  - split; [done|]. intros y. split; [by left|]. intros [?|(x & H & _)]; [done|by apply elem_of_nil in H].
  - destruct (IH (append_new acc (f x))) as [H1 H2]; [by apply append_new_NoDup|]. split; [done|]. intros y. rewrite H2, elem_append_new. split.
    + intros [[?| ->]|(z & ? & ?)]; [by left|right; exists x; by split; [left|]|right; exists z; by split; [right|]].
    + intros [?|(z & [-> | ?]%elem_of_cons & ->)]; [by left; left|by left; right|right; eauto].
Qed.

Lemma supply_ok shipments corridors providers : NoDup corridors → NoDup providers →
  let '(corridors', providers') := foldl supply_step (corridors, providers) shipments in
  NoDup corridors' ∧ NoDup providers' ∧
  (∀ c, c ∈ corridors' ↔ c ∈ corridors ∨ ∃ s leg, s ∈ shipments ∧ leg ∈ legs s ∧ c = corridor_name leg.1 leg.2) ∧
  (∀ p, p ∈ providers' ↔ p ∈ providers ∨ ∃ s, s ∈ shipments ∧ p = sh_carrier_scac s ∧ p ≠ "").
Proof.
  revert corridors providers. induction shipments as [|s shipments IH]; intros corridors providers Hc Hp; cbn [foldl].
  { split_and!; [done|done|..]; intros x; (split; [by left|]); intros [?|H]; [done|destruct H as (? & ? & H & _)|done|destruct H as (? & H & _)]; by apply elem_of_nil in H. }
  cbn [supply_step]. destruct (append_all (λ leg, corridor_name leg.1 leg.2) (legs s) corridors Hc) as [Hc' Ec]. cbv zeta in *.
  set (corridors1 := foldl _ corridors (legs s)) in *.
  set (providers1 := if str_empty (sh_carrier_scac s) then providers else append_new providers (sh_carrier_scac s)).
  assert (NoDup providers1) as Hp1 by (unfold providers1; destruct (str_empty _); [done|by apply append_new_NoDup]).
  assert (∀ p, p ∈ providers1 ↔ p ∈ providers ∨ p = sh_carrier_scac s ∧ p ≠ "") as Ep.
  { intros p. unfold providers1. destruct (sh_carrier_scac s) eqn:E; cbn [str_empty].
    - split; [by left|]. by intros [?|[-> ?]].
    - rewrite elem_append_new. split; intros [?|H]; [by left|right; by subst|by left|right; by destruct H]. }
  specialize (IH corridors1 providers1 Hc' Hp1). destruct (foldl supply_step (corridors1, providers1) shipments) as [c' p'].
  destruct IH as (H1 & H2 & H3 & H4). split_and!; [done|done|..].
  - intros c. rewrite H3, Ec. set_unfold. naive_solver.
  - intros p. rewrite H4, Ep. set_unfold. naive_solver.
Qed.

(** The supply network names every leg between consecutive stops and every carrier, each once,
    or a default when there is none; its redundancy is the number of its providers. *)
Lemma supply_network_exact shipments name : let n := synthesize_supply_network shipments name in
  NoDup (sn_primary_corridors n) ∧ NoDup (sn_required_providers n) ∧ sn_primary_corridors n ≠ [] ∧
  sn_declared_redundancy n = Z.of_nat (length (sn_required_providers n)) ∧ 1 <= sn_declared_redundancy n ∧
  (∀ s leg, s ∈ shipments → leg ∈ legs s → corridor_name leg.1 leg.2 ∈ sn_primary_corridors n) ∧
  (∀ s, s ∈ shipments → sh_carrier_scac s ≠ "" → sh_carrier_scac s ∈ sn_required_providers n).
Proof.
  unfold synthesize_supply_network. cbv zeta. pose proof (supply_ok shipments [] [] (NoDup_nil_2) (NoDup_nil_2)) as H.
  destruct (foldl supply_step ([], []) shipments) as [corridors providers]. destruct H as (Hc & Hp & Ec & Ep). cbn [sn_primary_corridors sn_required_providers sn_declared_redundancy].
  split_and!.
  - destruct corridors; [apply NoDup_singleton|done].
  - destruct providers; [apply NoDup_singleton|done].
  - by destruct corridors.
  - destruct providers; cbn [length]; lia.
  - lia.
  - intros s leg Hs Hl. assert (corridor_name leg.1 leg.2 ∈ corridors) as Hin by (apply Ec; right; eauto).
    destruct corridors; [by apply elem_of_nil in Hin|done].
  - intros s Hs Hne. assert (sh_carrier_scac s ∈ providers) as Hin by (apply Ep; right; eauto).
    destruct providers; [by apply elem_of_nil in Hin|done].
Qed.

(** ** The feeds and the fusion engine *)

Section feeds.
Context (sha256 : string → string) (dumps : object → string) (float_of_str : string → res float) (repr : json → string)
  (value_of : json → pyval).

(** An observation one of the adapters returned. *)
Definition adapted (o : Observation) : Prop := ∃ id now payload,
  parse_ais_json sha256 dumps float_of_str repr id now payload = Ok o ∨
  parse_space_weather_alert sha256 dumps float_of_str repr id now payload = Ok o ∨
  parse_earthquake_alert sha256 dumps float_of_str repr id now payload = Ok o ∨
  parse_scada_tag sha256 dumps float_of_str repr value_of id now payload = Ok o.

Lemma feed_source id now src trust c m v u k uri d md o : feed_observation id now src trust c m v u k uri d md = Ok o → obs_source_id o = src.
Proof using. unfold feed_observation. intros H. inv_ok. by apply Telemetry.new_Observation_ok in H1 as [-> _]. Qed.

Lemma adapted_source o : adapted o →
  ∃ s, obs_source_id o = "ais:" +:+ s ∨ obs_source_id o = "scada:" +:+ s ∨ obs_source_id o = "noaa:swpc" ∨ obs_source_id o = "usgs:earthquake".
Proof using.
  intros (id & now & payload & [E|[E|[E|E]]]).
  - unfold parse_ais_json in E. do 5 (apply bind_ok in E as (? & _ & E)). apply feed_source in E. eauto.
  - unfold parse_space_weather_alert in E. apply bind_ok in E as (kp & _ & E). exists "". right. right. left.
    destruct (fleb (lit 7) kp); [|destruct (fleb (lit 5) kp)]; by apply feed_source in E.
  - unfold parse_earthquake_alert in E. apply bind_ok in E as (mag & _ & E). apply bind_ok in E as (depth & _ & E). exists "". right. right. right.
    destruct (fleb (lit 7) mag); [|destruct (fleb (lit 5.5) mag)]; by apply feed_source in E.
  - unfold parse_scada_tag in E. apply bind_ok in E as (rate & _ & E). apply bind_ok in E as (codes & _ & E).
    apply bind_ok in E as ([st v] & _ & E). apply feed_source in E. eauto.
Qed.

Lemma unregistered s : dget SOURCES ("ais:" +:+ s) = None ∧ dget SOURCES ("scada:" +:+ s) = None ∧ dget SOURCES "noaa:swpc" = None ∧
  dget SOURCES "usgs:earthquake" = None.
Proof using. split_and!; vm_compute; reflexivity. Qed.

(** C36. No sensor feed reaches the fusion engine: whatever message an adapter reads, the
    source it names is not registered, so the source policy refuses the observation, and an
    assessment of any list that contains it fails. *)
Theorem sensor_feeds_refused `{LibM} o l id clock cid as_of : adapted o → o ∈ l →
  validate_observation_source o = Raise (ValueError ("unknown source_id: " +:+ obs_source_id o)) ∧
  is_ok (assess id clock cid l as_of) = false.
Proof using.
  intros Ho Hl. assert (validate_observation_source o = Raise (ValueError ("unknown source_id: " +:+ obs_source_id o))) as E.
  { unfold validate_observation_source, get_source. destruct (adapted_source o Ho) as (s & Hs). destruct (unregistered s) as (H1 & H2 & H3 & H4).
    by destruct Hs as [-> |[-> |[-> | ->]]]; rewrite ?H1, ?H2, ?H3, ?H4. }
  split; [exact E|]. destruct (assess id clock cid l as_of) as [a|] eqn:Ea; [exfalso|done].
  apply assess_ok in Ea as (g & acc & cav & ctx & risk & conf & _ & Hv & _). rewrite Forall_forall in Hv. specialize (Hv o Hl). by rewrite E in Hv.
Qed.

End feeds.

(** ** Concrete inputs *)

Definition toy_sha (_ : string) : string := "0123456789abcdef0123456789abcdef0123456789abcdef0123456789abcdef".
Definition toy_dumps (_ : object) : string := "{}".
Definition toy_float (s : string) : res float := if str_eqb s "24000" then Ok (lit 24000) else Raise (ValueError "could not convert string to float").
Definition toy_repr (_ : json) : string := "0".
Definition toy_value (_ : json) : pyval := VNone.

Definition sample_tender : string := "B2**CNRU~B2A*00*LD-7~N1*SH*Smelter~S5*1~ S5*2 ~OID*a*b*c*24000".

Example sample_shipment : ∃ r, parse_edi_204 toy_float (utc 0) sample_tender = Ok r ∧
  (sh_shipment_id r, sh_bol_number r, sh_carrier_scac r, sh_shipper_name r, sh_weight_tonnes r, st_facility_id <$> sh_stops r) =
  ("LD-7", "BOL-LD-7", "CNRU", "Smelter", lit 24, ["STOP-1"; "STOP-2"]).
Proof. eexists. split; vm_compute; reflexivity. Qed.

Lemma toy_float_error s e : toy_float s = Raise e → PublicData.value_error_b e = true.
Proof. unfold toy_float. destruct (str_eqb s "24000"); [done|]. by intros [= <-]. Qed.

Lemma edi_204_total_witness : ∃ r, parse_edi_204 toy_float (utc 0) sample_tender = Ok r ∧
  sh_bol_number r ≠ "" ∧ sh_stops r ≠ [] ∧ st_stop_sequence <$> sh_stops r = seqZ 1 (Z.of_nat (length (sh_stops r))).
Proof. apply (edi_204_total toy_float toy_float_error). Defined.

(** Two shipments through the same plant share its node. *)
Definition via (ids : list string) : ShipmentRecord :=
  shipment "s" "b" "CNRU" "a" "c" "ore" f1 "IN_TRANSIT" ((λ i, new_stop 1 i i "Sudbury" "CAN" "RAIL") <$> ids) (utc 0).

Example shared_plant : ∃ g, synthesize_dependency_graph [via ["Mine A"; "PLANT-1"]; via ["PLANT-1"; "DEPOT"; "Port"]] "n" = Ok g ∧
  node_ids g = ["node:mine-a"; "node:plant-1"; "node:depot"; "node:port"] ∧
  (λ e, (edge_source e, edge_target e)) <$> graph_edges g = [("node:mine-a", "node:plant-1"); ("node:plant-1", "node:depot"); ("node:depot", "node:port")].
Proof. eexists. split_and!; vm_compute; reflexivity. Qed.

(** An earthquake of magnitude 7.5. *)
Definition earthquake : object := {[ "magnitude" := JFloat (lit 7.5) ]}.

Lemma sensor_feeds_refused_witness : ∃ o, parse_earthquake_alert toy_sha toy_dumps toy_float toy_repr "e" (utc 0) earthquake = Ok o ∧
  obs_value o = f0 ∧ is_ok (assess (H := example_LibM) "a" (utc 60) "corridor" (o :: example_observations) None) = false.
Proof.
  destruct (parse_earthquake_alert toy_sha toy_dumps toy_float toy_repr "e" (utc 0) earthquake) as [o|e] eqn:E; [|vm_compute in E; discriminate E].
  exists o. split; [reflexivity|]. split; [vm_compute in E; by injection E as <-|].
  apply (sensor_feeds_refused toy_sha toy_dumps toy_float toy_repr toy_value (H := example_LibM) o (o :: example_observations) "a" (utc 60) "corridor" None).
  - exists "e", (utc 0), earthquake. right. right. left. exact E.
  - left.
Defined.
