(* ===== verification/Procurement.v ===== *)
(** * procurement.py: the sealed procurement package

    [compile_government_procurement_pack] writes seven documents into a directory and seals
    the files of it; [verify_procurement_pack] checks a seal.  A directory maps names to
    files and subdirectories; a name with a slash in a seal leads elsewhere, to what an
    argument says.  The JSON writer and reader, SHA-256, the Ed25519 operations
    and the two bills of materials (sbom.py reads the installed sources) are arguments. *)

From Stdlib Require Import ZArith Ascii.
From stdpp Require Import sorting.
From S2P Require Import Prelude PyFloat PyFormat Domain State Crypto.
From S2P Require Dsl.

Open Scope Z_scope.

(** ** Documents *)

Definition ctl_of (control_id name family status clearance_level description implementation_module : string) : pyval :=
  VDict [("control_id", VStr control_id); ("name", VStr name); ("family", VStr family); ("status", VStr status);
         ("clearance_level", VStr clearance_level); ("description", VStr description);
         ("implementation_module", VStr implementation_module)].

Definition ITSG33_CONTROLS : list pyval := [
  ctl_of "AC-2/AC-3"
    "Account Management & Access Enforcement"
    "Access Control"
    "SATISFIED"
    "PROTECTED_B // SECRET"
    "Enforce clearance levels and Canadian Eyes Only controls via multi-tenant RBAC."
    "continuityos.rbac.AccessControlEvaluator & continuityos.sovereign.SecurityLabel";
  ctl_of "AC-4"
    "Information Flow Enforcement & Cross-Domain Diode"
    "Access Control"
    "SATISFIED"
    "SECRET // TOP_SECRET"
    "Prevent classification downgrade and sanitize internal cryptographic secrets."
    "continuityos.sovereign.CrossDomainFilter";
  ctl_of "SC-8"
    "Transmission Confidentiality & Integrity"
    "System and Comms"
    "SATISFIED"
    "PROTECTED_B"
    "Enforce TLS 1.3 in-transit and post-quantum hybrid cryptographic envelopes."
    "continuityos.crypto.PQCHybridEnvelope (ML-KEM / ML-DSA)";
  ctl_of "SC-28"
    "Cryptographic Protection at Rest"
    "System and Comms"
    "SATISFIED"
    "PROTECTED_B"
    "AES-256-GCM / Customer Managed Keys (CMK) / Local air-gapped encrypted enclaves."
    "continuityos.crypto.PQCHybridEnvelope & continuityos.database.EvidenceDatabase";
  ctl_of "AU-9"
    "Protection of Audit Records (Tamper-Evidence)"
    "Audit & Accountability"
    "SATISFIED"
    "PROTECTED_B // NATO RESTRICTED"
    "Append-only SHA-256 evidence ledger with Ed25519 signatures and Merkle proofs."
    "continuityos.evidence.EvidenceLedger & continuityos.crypto.MerkleTree";
  ctl_of "MP-5"
    "Media Transport & Canadian Data Residency"
    "Media Protection"
    "SATISFIED"
    "PROTECTED_B // CANADIAN EYES ONLY"
    "Compute and data storage strictly confined to sovereign Canadian infrastructure."
    "continuityos.sovereign.AirGapAuditor & Terraform ca-central-1 policy";
  ctl_of "CP-2"
    "Contingency Plan & Air-Gapped Operation"
    "Contingency Planning"
    "SATISFIED"
    "PROTECTED_B // SECRET"
    "Zero-egress offline operation mode for military SCIF enclaves with mock telemetry."
    "continuityos.attestation.SCIFAttestationEngine & deploy/airgap_deploy.sh";
  ctl_of "SI-4"
    "Information System Monitoring & Cyber-Physical Threat Scan"
    "System Integrity"
    "SATISFIED"
    "PROTECTED_B"
    "Continuous telemetry scanning for GNSS spoofing, AIS kinematic jumps, and SCADA floods."
    "continuityos.threat.ThreatDetectionEngine";
  ctl_of "SA-4/SA-11"
    "Software Bill of Materials (SBOM) & Supply Chain Integrity"
    "System and Services Acquisition"
    "SATISFIED"
    "PROTECTED_B // NATO UNCLASSIFIED"
    "Deterministic CycloneDX v1.5 and SPDX v2.3 SBOM with module SHA-256 hashes."
    "continuityos.sbom.generate_cyclonedx_sbom"
].

(** [c["status"] == "SATISFIED"] *)
Definition satisfied (c : pyval) : bool :=
  match c with
  | VDict d => match dget d "status" with Some (VStr s) => str_eqb s "SATISFIED" | _ => false end
  | _ => false
  end.

Definition compliance_matrix (timestamp : string) : pyval :=
  VDict [("title", VStr "CCCS ITSG-33 / PBMM Security Compliance Matrix"); ("generated_at", VStr timestamp);
         ("standard", VStr "CCCS ITSG-33 / RCMP Security Categorization Protected B");
         ("total_controls_audited", VInt (Z.of_nat (length ITSG33_CONTROLS)));
         ("controls_satisfied", VInt (Z.of_nat (length (List.filter satisfied ITSG33_CONTROLS))));
         ("overall_status", VStr "FULLY_COMPLIANT"); ("controls", VList ITSG33_CONTROLS)].

Definition residency_attestation (timestamp : string) : pyval :=
  VDict [("attestation_title", VStr "Canadian Data Residency & ITB Value Proposition Attestation"); ("attestation_date", VStr timestamp);
         ("contractor", VStr "ContinuityOS Sovereign Systems"); ("canadian_content_percentage", VStr "100.0%");
         ("residency_enclave", VStr "Sovereign Canadian Infrastructure (On-Premises / Canada Central)");
         ("cloud_act_immunity", VStr "SECURED (Zero foreign extraterritorial jurisdiction via local air-gapped cryptographic boundary)");
         ("telemetry_egress", VStr "STRICTLY_PROHIBITED (Default disabled)");
         ("pqc_envelope_standard", VStr "NIST FIPS 203 (ML-KEM-768) & NIST FIPS 204 (ML-DSA-65)")].

Definition nato_readiness (timestamp : string) : pyval :=
  VDict [("standard", VStr "MIL-STD-2525D / NATO APP-6D / DRRS C-Level"); ("evaluation_timestamp", VStr timestamp);
         ("combat_support_capability", VStr "C1 (Fully Mission Capable)");
         ("gnss_denied_operation", VStr "VERIFIED (Inertial & SAR fallback)");
         ("tactical_cop_export", VStr "GeoJSON APP-6D compliant"); ("air_gap_scif_readiness", VStr "PASSED (Zero internet reliance)")].

Definition sow_markdown (timestamp : string) : string :=
"# ContinuityOS Government Adoption & SOW Package

## Overview
ContinuityOS is a sovereign Resilience-as-Code platform engineered for Ministries of Defense,
Public Safety agencies, and Critical Infrastructure operators.

- **Security Profile**: Canadian Protected B, Medium Integrity, Medium Availability (PBMM)
- **Compliance Standard**: CCCS ITSG-33 / NIST SP 800-53 Rev 5
- **Cryptographic Standard**: NIST Post-Quantum (FIPS 203/204) + Ed25519 RFC 8032
- **Data Sovereignty**: 100% Canadian Data Residency with Zero Cloud Egress
- **Contracting Mechanisms**: PSPC ProServices, TSPS, IDEaS, NATO DIANA

## Included Artifacts in This Bundle:
1. `ITSG33_PBMM_COMPLIANCE_MATRIX.json`: Exhaustive 9-family control verification.
2. `CANADIAN_DATA_RESIDENCY_ATTESTATION.json`: Sovereign residency & CLOUD Act immunity.
3. `SBOM_CYCLONEDX.json`: CycloneDX v1.5 Software Bill of Materials.
4. `SBOM_SPDX.json`: SPDX v2.3 Software Bill of Materials.
5. `NATO_DEFENSE_READINESS_ATTESTATION.json`: MIL-STD-2525D & DRRS C-Level metrics.
6. `SEALED_EVIDENCE_DIGEST.json`: Cryptographic SHA-256 Merkle root & signature.

Generated at: " +:+ timestamp +:+ "
".

(** ** The directory *)

(** A regular file with its contents, or a subdirectory. *)
Inductive node := Reg (contents : string) | Sub.

Notation pack := (gmap string node).

(** [path.write_text(text)] *)
Definition write_text (name text : string) (fs : pack) : res unit * pack :=
  match fs !! name with
  | Some Sub => (Raise (RuntimeError "IsADirectoryError"), fs)
  | _ => (Ok tt, <[name := Reg text]> fs)
  end.

Fixpoint write_all (documents : list (string * string)) (fs : pack) : res unit * pack :=
  match documents with
  | [] => (Ok tt, fs)
  | (name, text) :: documents =>
      match write_text name text fs with
      | (Ok _, fs) => write_all documents fs
      | (Raise e, fs) => (Raise e, fs)
      end
  end.

Definition SEALED : string := "SEALED_EVIDENCE_DIGEST.json".

(** The files [iterdir] finds that are sealed. *)
Definition sealed_files (fs : pack) : list (string * string) :=
  omap (λ kv, match kv.2 with Reg c => if str_eqb kv.1 SEALED then None else Some (kv.1, c) | Sub => None end)
    (sort_by (λ a b, str_leb a.1 b.1) (map_to_list fs)).

Section procurement.
Context (sha256 : string → string) (dumps : pyval → string) (loads : string → res json) (cyclonedx_sbom spdx_sbom : pyval).
Context {private_key public_key : Type} (ed_sign : private_key → string → string) (ed_verify : public_key → string → string → bool)
  (elsewhere : string → option node).

Definition file_hashes (fs : pack) : dict string string := (λ kv, (kv.1, hexdigest sha256 kv.2)) <$> sealed_files fs.

(** [sha256("".join(sorted(digests)).encode("utf-8")).hexdigest()] *)
Definition combined_hash (digests : list string) : string := hexdigest sha256 (str_join "" (sort_by str_leb digests)).

Definition manifest_of (timestamp : string) (hashes : dict string string) (signature_hex : option string) : pyval :=
  VDict [("package", VStr "ContinuityOS Government Adoption & Procurement Suite"); ("version", VStr "1.0.0"); ("sealed_at", VStr timestamp);
         ("merkle_root_sha256", VStr (combined_hash hashes.*2)); ("file_digests", VDict ((λ kv, (kv.1, VStr kv.2)) <$> hashes));
         ("ed25519_signature", match signature_hex with Some s => VStr s | None => VNone end); ("verified", VBool true)].

Definition documents (timestamp : string) : list (string * string) :=
  [("ITSG33_PBMM_COMPLIANCE_MATRIX.json", dumps (compliance_matrix timestamp));
   ("CANADIAN_DATA_RESIDENCY_ATTESTATION.json", dumps (residency_attestation timestamp));
   ("SBOM_CYCLONEDX.json", dumps cyclonedx_sbom); ("SBOM_SPDX.json", dumps spdx_sbom);
   ("NATO_DEFENSE_READINESS_ATTESTATION.json", dumps (nato_readiness timestamp));
   ("STATEMENT_OF_WORK_AND_ATO.md", sow_markdown timestamp)].

Definition signature_of (key : option private_key) (root : string) : option string :=
  match key with Some k => Some (hex (ed_sign k root)) | None => None end.

(** The seal of the files of a directory. *)
Definition seal (timestamp : string) (key : option private_key) (fs : pack) : res pyval * pack :=
  let hashes := file_hashes fs in
  let manifest := manifest_of timestamp hashes (signature_of key (combined_hash hashes.*2)) in
  match write_text SEALED (dumps manifest) fs with
  | (Ok _, fs) => (Ok manifest, fs)
  | (Raise e, fs) => (Raise e, fs)
  end.

Definition compile_government_procurement_pack (now : datetime) (key : option private_key) (fs : pack) : res pyval * pack :=
  let timestamp := isoformat now in
  match write_all (documents timestamp) fs with
  | (Ok _, fs) => seal timestamp key fs
  | (Raise e, fs) => (Raise e, fs)
  end.

(** ** Verification *)

Definition plain (filename : string) : bool := forallb (λ c, negb (Ascii.eqb c "/"%char)) (String.list_ascii_of_string filename).

(** [pack_dir / filename]: an entry of the directory, or what a name with a slash, which may
    leave the directory, leads to.  The names that are neither, such as [..], are no files. *)
Definition reach (fs : pack) (filename : string) : option node :=
  match fs !! filename with
  | Some n => Some n
  | None => if plain filename then None else elsewhere filename
  end.

(** One file of the loop: its digest, unless the check ends the verification. *)
Definition check_file (fs : pack) (filename : string) (expected_hash : json) : option string :=
  match reach fs filename with
  | Some (Reg contents) =>
      let actual_hash := hexdigest sha256 contents in if eq_str expected_hash actual_hash then Some actual_hash else None
  | _ => None
  end.

(** [public_key.verify(bytes.fromhex(sig_hex), root)], with every exception caught. *)
Definition signature_ok (key : public_key) (sig_hex : json) (root : string) : bool :=
  match sig_hex with
  | JStr s => match fromhex s with Ok sig => ed_verify key sig root | Raise _ => false end
  | _ => false
  end.

Definition verify_procurement_pack (key : option public_key) (fs : pack) : res bool :=
  match fs !! SEALED with
  | Some (Reg text) =>
      v ← loads text;
      match v with
      | JObj manifest =>
          match default (JObj ∅) (manifest !! "file_digests") with
          | JObj file_digests =>
              match mapM (λ kv, check_file fs kv.1 kv.2) (map_to_list file_digests) with
              | None => Ok false
              | Some recomputed =>
                  let actual_root := combined_hash recomputed in
                  if negb (eq_str (dict_get manifest "merkle_root_sha256") actual_root) then Ok false
                  else
                    let sig_hex := dict_get manifest "ed25519_signature" in
                    match key with
                    | Some key => if Dsl.truthy sig_hex && negb (signature_ok key sig_hex actual_root) then Ok false else Ok true
                    | None => Ok true
                    end
              end
          | _ => Raise (AttributeError "object has no attribute 'items'")
          end
      | _ => Raise (AttributeError "object has no attribute 'get'")
      end
  | _ => Ok false
  end.

End procurement.

(** ** What [json.loads] reads of what [json.dumps] wrote *)

Fixpoint json_of (v : pyval) : json :=
  match v with
  | VNone => JNull
  | VBool b => JBool b
  | VInt z => JNum z
  | VFloat x => JFloat x
  | VStr s => JStr s
  | VList l => JArr (map json_of l)
  | VDict d => JObj (list_to_map (map (λ kv, (kv.1, json_of kv.2)) d))
  end.

(** ** Lists of digests *)

#[local] Instance str_leb_antisymm : AntiSymm (=) (λ x y, str_leb x y = true).
Proof. intros x y. apply str_leb_antisym. Qed.

Lemma sort_by_same l l' : l ≡ₚ l' → sort_by str_leb l = sort_by str_leb l'.
Proof.
  intros H. apply (StronglySorted_unique (λ x y, str_leb x y = true)).
  - apply sort_by_sorted; [apply str_leb_total|apply str_leb_trans].
  - apply sort_by_sorted; [apply str_leb_total|apply str_leb_trans].
  - by rewrite !sort_by_perm.
Qed.

Lemma write_all_ok docs fs : Forall (λ d, fs !! d.1 ≠ Some Sub) docs →
  ∃ fs', write_all docs fs = (Ok tt, fs') ∧ (∀ n, n ∉ docs.*1 → fs' !! n = fs !! n) ∧ (∀ n, fs !! n ≠ Some Sub → fs' !! n ≠ Some Sub).
Proof.
  revert fs. induction docs as [|[n t] docs IH]; intros fs Hd; [by exists fs|]. apply Forall_cons in Hd as [Hn Hd]. cbn [write_all fst] in *.
  unfold write_text. assert (∀ n', (<[n := Reg t]> fs) !! n' = Some Sub → fs !! n' = Some Sub) as Hsub.
  { intros n'. destruct (decide (n = n')) as [->|]; [by rewrite lookup_insert_eq|by rewrite lookup_insert_ne]. }
  destruct (IH (<[n := Reg t]> fs)) as (fs' & E & Hk & Hs).
  { eapply Forall_impl; [exact Hd|]. cbn. eauto. }
  exists fs'. split_and!.
  - by destruct (fs !! n) as [[c|]|].
  - intros n' Hn'. cbn in Hn'. rewrite Hk by set_solver. by rewrite lookup_insert_ne by set_solver.
  - intros n' Hn'. apply Hs. eauto.
Qed.

Section laws.
Context (sha256 : string → string) (dumps : pyval → string) (loads : string → res json) (cyclonedx_sbom spdx_sbom : pyval).
Context {private_key public_key : Type} (ed_sign : private_key → string → string) (ed_verify : public_key → string → string → bool)
  (public : private_key → public_key) (elsewhere : string → option node).

(** The reader reads what the writer wrote, and a signature verifies under its key. *)
Context (Hloads : ∀ v, loads (dumps v) = Ok (json_of v)).
Context (Hsign : ∀ k m, ed_verify (public k) (ed_sign k m) m = true).

Local Abbreviation file_hashes := (Procurement.file_hashes sha256).
Local Abbreviation combined_hash := (Procurement.combined_hash sha256).
Local Abbreviation manifest_of := (Procurement.manifest_of sha256).
Local Abbreviation verify := (verify_procurement_pack sha256 loads ed_verify elsewhere).

Lemma combined_hash_perm l l' : l ≡ₚ l' → combined_hash l = combined_hash l'.
Proof using. intros H. unfold Procurement.combined_hash. by rewrite (sort_by_same l l' H). Qed.

Lemma elem_of_sealed fs name c : (name, c) ∈ sealed_files fs ↔ fs !! name = Some (Reg c) ∧ name ≠ SEALED.
Proof using.
  unfold sealed_files. rewrite list_elem_of_omap. split.
  - intros ([n e] & Hin & E). apply elem_of_sort_by, elem_of_map_to_list in Hin. cbn [fst snd] in E. destruct e as [c'|]; [|done].
    revert E. destruct (str_eqb n SEALED) eqn:Es; [done|]. intros [= -> ->]. split; [done|]. intros ->. by rewrite (proj2 (str_eqb_true _ _) eq_refl) in Es.
  - intros [Hf Hn]. exists (name, Reg c). split; [by apply elem_of_sort_by, elem_of_map_to_list|]. cbn [fst snd].
    destruct (str_eqb name SEALED) eqn:Es; [by apply str_eqb_true in Es|done].
Qed.

Lemma sealed_NoDup fs : NoDup (sealed_files fs).*1.
Proof using.
  assert (NoDup (sort_by (λ a b, str_leb a.1 b.1) (map_to_list fs)).*1) as H by (rewrite sort_by_perm; apply NoDup_fst_map_to_list).
  eapply sublist_NoDup; [exact H|]. unfold sealed_files. generalize (sort_by (λ a b : string * node, str_leb a.1 b.1) (map_to_list fs)). clear.
  intros l. induction l as [|[n e] l IH]; [done|]. cbn [omap list_omap fmap list_fmap fst snd]. destruct e as [c|]; [destruct (str_eqb n SEALED)|]; cbn;
    [by apply sublist_cons|by apply sublist_skip|by apply sublist_cons].
Qed.

Lemma hashes_keys fs : (file_hashes fs).*1 = (sealed_files fs).*1.
Proof using. unfold Procurement.file_hashes. by rewrite <-list_fmap_compose. Qed.

(** The verification of a directory under the manifest of some digests. *)
Lemma verify_manifest fs timestamp hashes signature key : NoDup hashes.*1 → fs !! SEALED = Some (Reg (dumps (manifest_of timestamp hashes signature))) →
  verify key fs =
    if forallb (λ kv, match check_file sha256 elsewhere fs kv.1 (JStr kv.2) with Some _ => true | None => false end) hashes then
      Ok match key, signature with
         | Some k, Some s => str_empty s || match fromhex s with Ok sig => ed_verify k sig (combined_hash hashes.*2) | Raise _ => false end
         | _, _ => true
         end
    else Ok false.
Proof using Hloads.
  intros Hnd Hs. unfold verify_procurement_pack. rewrite Hs, Hloads. cbn [mbind res_bind].
  set (digests := (list_to_map (map (λ kv : string * pyval, (kv.1, json_of kv.2)) ((λ kv : string * string, (kv.1, VStr kv.2)) <$> hashes)) : gmap string json)).
  set (root := combined_hash hashes.*2). set (sig := match signature with Some s => JStr s | None => JNull end).
  assert (json_of (manifest_of timestamp hashes signature) = JObj (<["package" := JStr "ContinuityOS Government Adoption & Procurement Suite"]>
    (<["version" := JStr "1.0.0"]> (<["sealed_at" := JStr timestamp]> (<["merkle_root_sha256" := JStr root]>
    (<["file_digests" := JObj digests]> (<["ed25519_signature" := sig]> (<["verified" := JBool true]> ∅)))))))) as ->.
  { unfold sig. by destruct signature. }
  cbn iota. set (m := <["package" := _]> _).
  assert (m !! "file_digests" = Some (JObj digests)) as -> by (unfold m; by rewrite !lookup_insert_ne, lookup_insert_eq by done).
  assert (dict_get m "merkle_root_sha256" = JStr root) as -> by (unfold m, dict_get; by rewrite !lookup_insert_ne, lookup_insert_eq by done).
  assert (dict_get m "ed25519_signature" = sig) as -> by (unfold m, dict_get; by rewrite !lookup_insert_ne, lookup_insert_eq by done).
  change (default (JObj ∅) (Some (JObj digests))) with (JObj digests). cbn iota. clear m.
  assert (map_to_list digests ≡ₚ (λ kv, (kv.1, JStr kv.2)) <$> hashes) as Hperm.
  { unfold digests. rewrite map_to_list_to_map.
    - change (@map ?A ?B ?f ?l) with (f <$> l). by rewrite <-list_fmap_compose.
    - change (@map ?A ?B ?f ?l) with (f <$> l). by rewrite <-!list_fmap_compose. }
  destruct (forallb _ hashes) eqn:E.
  - rewrite forallb_forall in E.
    assert (mapM (λ kv, check_file sha256 elsewhere fs kv.1 kv.2) (map_to_list digests) = Some ((λ kv, match kv.2 with JStr h => h | _ => "" end) <$> map_to_list digests)) as ->.
    { apply mapM_Some, Forall2_fmap_r, Forall_Forall2_diag, Forall_forall. intros kv Hkv. rewrite Hperm in Hkv.
      apply list_elem_of_fmap in Hkv as ([n h] & -> & Hin). specialize (E (n, h) (proj1 (list_elem_of_In _ _) Hin)). cbn in E |- *.
      unfold check_file in *. destruct (reach elsewhere fs n) as [[c|]|]; try done. cbn in *. destruct (str_eqb h (hexdigest sha256 c)) eqn:Eh; [|done].
      by apply str_eqb_true in Eh as ->. }
    assert (combined_hash ((λ kv, match kv.2 with JStr h => h | _ => "" end) <$> map_to_list digests) = root) as ->.
    { apply combined_hash_perm. rewrite Hperm, <-list_fmap_compose. done. }
    cbn [eq_str]. rewrite (proj2 (str_eqb_true root root) eq_refl). cbn [negb].
    destruct key as [k|]; [|done]. unfold sig. destruct signature as [s|]; [|done]. cbn [Dsl.truthy signature_ok].
    destruct (str_empty s); [done|]. cbn [negb andb orb]. by destruct (match fromhex s with Ok _ => _ | Raise _ => _ end).
  - assert (mapM (λ kv, check_file sha256 elsewhere fs kv.1 kv.2) (map_to_list digests) = None) as ->; [|done].
    apply mapM_None. apply not_true_iff_false in E. rewrite forallb_forall in E. apply Exists_exists.
    destruct (decide (Exists (λ kv, check_file sha256 elsewhere fs kv.1 (JStr kv.2) = None) hashes)) as [Hex|Hno].
    + apply Exists_exists in Hex as ([n h] & Hin & Hc). exists (n, JStr h). split; [|done]. rewrite Hperm. apply list_elem_of_fmap. by exists (n, h).
    + exfalso. apply E. intros [n h] Hin%list_elem_of_In. apply not_Exists_Forall in Hno; [|intros ?; solve_decision].
      rewrite Forall_forall in Hno. specialize (Hno _ Hin). cbn in *. by destruct (check_file _ _ _ _).
Qed.

Local Abbreviation seal := (Procurement.seal sha256 dumps ed_sign).
Local Abbreviation compile := (compile_government_procurement_pack sha256 dumps cyclonedx_sbom spdx_sbom ed_sign).

(** The manifest a seal writes. *)
Definition sealed_manifest (timestamp : string) (key : option private_key) (fs : pack) : pyval :=
  manifest_of timestamp (file_hashes fs) (signature_of ed_sign key (combined_hash (file_hashes fs).*2)).

Lemma seal_writes timestamp key fs : fs !! SEALED ≠ Some Sub →
  seal timestamp key fs = (Ok (sealed_manifest timestamp key fs), <[SEALED := Reg (dumps (sealed_manifest timestamp key fs))]> fs).
Proof using. intros H. unfold Procurement.seal, write_text. destruct (fs !! SEALED) as [[c|]|]; done. Qed.

(** The files of a directory pass the check against their own digests; the seal is not one of
    them. *)
Lemma own_digests fs x :
  forallb (λ kv, match check_file sha256 elsewhere (<[SEALED := x]> fs) kv.1 (JStr kv.2) with Some _ => true | None => false end) (file_hashes fs) = true.
Proof using.
  apply forallb_forall. intros [n h] Hin%list_elem_of_In. unfold Procurement.file_hashes in Hin.
  apply list_elem_of_fmap in Hin as ([n' c] & [= -> ->] & [Hf Hn]%elem_of_sealed). cbn [fst snd]. unfold check_file, reach.
  rewrite lookup_insert_ne by congruence. rewrite Hf. cbn [eq_str]. by rewrite (proj2 (str_eqb_true _ _) eq_refl).
Qed.

Lemma hashes_NoDup fs : NoDup (file_hashes fs).*1.
Proof using. rewrite hashes_keys. apply sealed_NoDup. Qed.

(** C39. Anyone can seal: the files of any directory, sealed without a key, verify under every
    public key, since a manifest without a signature is not asked for one. *)
Theorem unsigned_seal_accepted timestamp fs key : fs !! SEALED ≠ Some Sub →
  ∃ m fs', seal timestamp None fs = (Ok m, fs') ∧ verify (Some key) fs' = Ok true.
Proof using Hloads.
  intros H. rewrite seal_writes by done. eexists _, _. split; [done|].
  rewrite (verify_manifest _ timestamp (file_hashes fs) None); [|apply hashes_NoDup|apply lookup_insert_eq]. by rewrite own_digests.
Qed.

(** C40. A package that was compiled verifies: with the public key of the private key that
    signed it, without a key, and unsigned under every key; its manifest lists the digest of
    every file of the directory but the seal. *)
Theorem pack_roundtrip now key fs : Forall (λ d, fs !! d.1 ≠ Some Sub) (documents dumps cyclonedx_sbom spdx_sbom (isoformat now)) →
  fs !! SEALED ≠ Some Sub →
  ∃ m fs', compile now key fs = (Ok m, fs') ∧ verify None fs' = Ok true ∧
    match key with Some k => verify (Some (public k)) fs' = Ok true | None => ∀ pub, verify (Some pub) fs' = Ok true end ∧
    ∃ hashes signature, m = manifest_of (isoformat now) hashes signature ∧
      ∀ name c, fs' !! name = Some (Reg c) → name ≠ SEALED → (name, hexdigest sha256 c) ∈ hashes.
Proof using Hloads Hsign.
  intros Hd Hs. destruct (write_all_ok _ fs Hd) as (fs1 & E & Hk & Hsub). unfold compile_government_procurement_pack. rewrite E.
  rewrite seal_writes by auto. eexists _, _. split; [done|].
  set (m := sealed_manifest _ _ _). set (fs' := <[SEALED := _]> fs1).
  assert (∀ k, verify k fs' = Ok match k, signature_of ed_sign key (combined_hash (file_hashes fs1).*2) with
     | Some k, Some s => str_empty s || match fromhex s with Ok sig => ed_verify k sig (combined_hash (file_hashes fs1).*2) | Raise _ => false end
     | _, _ => true end) as V.
  { intros k. rewrite (verify_manifest fs' (isoformat now) (file_hashes fs1) (signature_of ed_sign key (combined_hash (file_hashes fs1).*2)) k);
      [|apply hashes_NoDup|apply lookup_insert_eq]. unfold fs'. by rewrite own_digests. }
  split_and!.
  - rewrite V. done.
  - destruct key as [k|]; [|intros pub; by rewrite V]. rewrite V. cbn [signature_of]. by rewrite fromhex_hex, Hsign, orb_true_r.
  - eexists _, _. split; [reflexivity|]. intros name c Hc Hn. unfold Procurement.file_hashes. apply list_elem_of_fmap. exists (name, c).
    split; [done|]. apply elem_of_sealed. split; [|done]. unfold fs' in Hc. by rewrite lookup_insert_ne in Hc.
Qed.

(** C38. A seal binds what it lists and nothing else: beside the unchanged seal that verified, a directory
    verifies exactly when every sealed name leads to a file with the digest of the sealed one
    (to the entry of that name, where the name has no slash), so changing a listed file needs a collision of SHA-256, and files that are not listed are
    not looked at. *)
Theorem seal_binds_listed timestamp key fs fs' k : fs !! SEALED ≠ Some Sub →
  verify k (seal timestamp key fs).2 = Ok true → fs' !! SEALED = (seal timestamp key fs).2 !! SEALED →
  (verify k fs' = Ok true ↔
   ∀ name c, fs !! name = Some (Reg c) → name ≠ SEALED → ∃ c', reach elsewhere fs' name = Some (Reg c') ∧ hexdigest sha256 c' = hexdigest sha256 c).
Proof using Hloads.
  intros Hs Hgood Hsame. rewrite seal_writes in Hsame, Hgood by done. cbn [snd] in *. rewrite lookup_insert_eq in Hsame.
  rewrite (verify_manifest fs' timestamp (file_hashes fs) (signature_of ed_sign key (combined_hash (file_hashes fs).*2)) k); [|apply hashes_NoDup|exact Hsame].
  set (sig_ok := match k, signature_of _ _ _ with Some _, Some _ => _ | _, _ => true end).
  assert (sig_ok = true) as ->.
  { rewrite (verify_manifest _ timestamp (file_hashes fs) (signature_of ed_sign key (combined_hash (file_hashes fs).*2)) k) in Hgood;
      [|apply hashes_NoDup|apply lookup_insert_eq]. rewrite own_digests in Hgood. by injection Hgood. }
  assert (forallb (λ kv, match check_file sha256 elsewhere fs' kv.1 (JStr kv.2) with Some _ => true | None => false end) (file_hashes fs) = true ↔
    ∀ name c, fs !! name = Some (Reg c) → name ≠ SEALED → ∃ c', reach elsewhere fs' name = Some (Reg c') ∧ hexdigest sha256 c' = hexdigest sha256 c) as <-.
  { rewrite forallb_forall. split.
    - intros H name c Hc Hn. specialize (H (name, hexdigest sha256 c)). cbn in H.
      assert ((name, hexdigest sha256 c) ∈ file_hashes fs) as Hin.
      { unfold Procurement.file_hashes. apply list_elem_of_fmap. exists (name, c). split; [done|]. by apply elem_of_sealed. }
      specialize (H (proj1 (list_elem_of_In _ _) Hin)). unfold check_file in H. destruct (reach elsewhere fs' name) as [[c'|]|]; try done.
      exists c'. split; [done|]. cbn [eq_str] in H. destruct (str_eqb _ _) eqn:E; [|done]. by apply str_eqb_true in E.
    - intros H [n h] Hin%list_elem_of_In. unfold Procurement.file_hashes in Hin.
      apply list_elem_of_fmap in Hin as ([n' c] & [= -> ->] & [Hc Hn]%elem_of_sealed). destruct (H n' c Hc Hn) as (c' & Hc' & Eh).
      cbn [fst snd]. unfold check_file. rewrite Hc'. cbn [eq_str]. by rewrite <-Eh, (proj2 (str_eqb_true _ _) eq_refl). }
  by destruct (forallb _ _).
Qed.

(** The signature does not bind names: from a signed package, anyone can make another one
    with the contents distributed over the names differently that verifies under the same
    key, by writing the new digests beside the old signature. *)
Theorem contents_change_names timestamp key fs fs' : fs !! SEALED ≠ Some Sub →
  (file_hashes fs').*2 ≡ₚ (file_hashes fs).*2 →
  verify (Some (public key))
    (<[SEALED := Reg (dumps (manifest_of timestamp (file_hashes fs') (signature_of ed_sign (Some key) (combined_hash (file_hashes fs).*2))))]> fs') = Ok true.
Proof using Hloads Hsign.
  intros Hs Hp. rewrite (verify_manifest _ timestamp (file_hashes fs') (signature_of ed_sign (Some key) (combined_hash (file_hashes fs).*2)));
    [|apply hashes_NoDup|apply lookup_insert_eq].
  rewrite own_digests. cbn [signature_of]. rewrite fromhex_hex, (combined_hash_perm _ _ Hp), Hsign. by rewrite orb_true_r.
Qed.

End laws.

(** ** Concrete packages *)

(** A writer and a reader with the law: the value as a tree of numbers and texts, the tree as
    a number, the number in binary. *)
Notation tree := (gen_tree (Z + string)).

Definition tree_of_float (x : float) : tree :=
  match x with
  | Fin q => GenNode 0 [GenLeaf (inl (QArith_base.Qnum q)); GenLeaf (inl (Zpos (QArith_base.Qden q)))]
  | Inf b => GenNode (if b then 1 else 2) []
  | NaN => GenNode 3 []
  end.

Definition float_of_tree (t : tree) : float :=
  match t with
  | GenNode 0 [GenLeaf (inl n); GenLeaf (inl (Zpos d))] => Fin (QArith_base.Qmake n d)
  | GenNode 1 [] => Inf true
  | GenNode 2 [] => Inf false
  | _ => NaN
  end.

Fixpoint tree_of (v : pyval) : tree :=
  match v with
  | VNone => GenNode 0 []
  | VBool b => GenNode (if b then 1 else 2) []
  | VInt z => GenNode 3 [GenLeaf (inl z)]
  | VFloat x => GenNode 4 [tree_of_float x]
  | VStr s => GenNode 5 [GenLeaf (inr s)]
  | VList l => GenNode 6 (map tree_of l)
  | VDict d => GenNode 7 (map (λ kv, GenNode 8 [GenLeaf (inr kv.1); tree_of kv.2]) d)
  end.

Fixpoint of_tree (t : tree) : pyval :=
  match t with
  | GenNode 1 [] => VBool true
  | GenNode 2 [] => VBool false
  | GenNode 3 [GenLeaf (inl z)] => VInt z
  | GenNode 4 [x] => VFloat (float_of_tree x)
  | GenNode 5 [GenLeaf (inr s)] => VStr s
  | GenNode 6 l => VList (map of_tree l)
  | GenNode 7 l => VDict (map (λ t, match t with GenNode 8 [GenLeaf (inr k); v] => (k, of_tree v) | _ => ("", VNone) end) l)
  | _ => VNone
  end.

Lemma of_tree_of v : of_tree (tree_of v) = v.
Proof.
  revert v. fix IH 1. intros [|b|z|x|s|l|d]; cbn; [done|by destruct b|done| |done|..].
  - f_equal. destruct x as [[n d]|[]|]; done.
  - f_equal. revert l. fix go 1. intros [|v l]; cbn; [done|]. by rewrite IH, go.
  - f_equal. revert d. fix go 1. intros [|[k v] d]; cbn; [done|]. by rewrite IH, go.
Qed.

Fixpoint binary (p : positive) : string :=
  match p with xH => "" | xO p => String (ascii_of_N 48) (binary p) | xI p => String (ascii_of_N 49) (binary p) end.

Fixpoint of_binary (s : string) : positive :=
  match s with
  | EmptyString => xH
  | String c s => if Ascii.eqb c (ascii_of_N 48) then xO (of_binary s) else xI (of_binary s)
  end.

Lemma of_binary_binary p : of_binary (binary p) = p.
Proof. induction p as [p IH|p IH|]; cbn; by rewrite ?IH. Qed.

Definition toy_dumps (v : pyval) : string := binary (encode (tree_of v)).
Definition toy_loads (s : string) : res json :=
  match decode (A := tree) (of_binary s) with Some t => Ok (json_of (of_tree t)) | None => Raise (ValueError "Expecting value") end.

Lemma toy_law v : toy_loads (toy_dumps v) = Ok (json_of v).
Proof. unfold toy_loads, toy_dumps. by rewrite of_binary_binary, decode_encode, of_tree_of. Qed.

(** A private key signs with itself. *)
Definition toy_sha (s : string) : string := s.
Definition toy_sign (k m : string) : string := k +:+ m.
Definition toy_verify (k sig m : string) : bool := str_eqb sig (k +:+ m).

Lemma toy_verifies k m : toy_verify k (toy_sign k m) m = true.
Proof. by apply str_eqb_true. Qed.

Definition two_files (a b : string) : pack := {[ "a.json" := Reg a; "b.json" := Reg b ]}.
(** Names with a slash lead to no file. *)
Definition nowhere (filename : string) : option node := None.
Definition toy_pack := verify_procurement_pack toy_sha toy_loads toy_verify nowhere.

Lemma unsigned_seal_accepted_witness : ∃ m fs',
  seal toy_sha toy_dumps toy_sign "now" None (two_files "A" "B") = (Ok m, fs') ∧ toy_pack (Some "key") fs' = Ok true.
Proof. apply (unsigned_seal_accepted toy_sha toy_dumps toy_loads toy_sign toy_verify nowhere toy_law). discriminate. Defined.

Lemma pack_roundtrip_witness : ∃ m fs',
  compile_government_procurement_pack toy_sha toy_dumps (VDict []) (VDict []) toy_sign {| dt_us := 0; dt_aware := true |} (Some "key") ∅ = (Ok m, fs') ∧
  toy_pack (Some "key") fs' = Ok true.
Proof.
  destruct (pack_roundtrip toy_sha toy_dumps toy_loads (VDict []) (VDict []) toy_sign toy_verify (λ k, k) nowhere toy_law toy_verifies
    {| dt_us := 0; dt_aware := true |} (Some "key") ∅) as (m & fs' & E & _ & V & _).
  - apply Forall_forall. intros d _. rewrite lookup_empty. discriminate.
  - rewrite lookup_empty. discriminate.
  - exists m, fs'. split; [exact E|exact V].
Defined.

(** A changed file, beside the seal of the original ones. *)
Lemma seal_binds_listed_witness :
  toy_pack None (<["b.json" := Reg "C"]> (seal toy_sha toy_dumps toy_sign "now" None (two_files "A" "B")).2) ≠ Ok true.
Proof.
  intros E. assert (toy_pack None (seal toy_sha toy_dumps toy_sign "now" None (two_files "A" "B")).2 = Ok true) as G.
  { rewrite seal_writes by discriminate. cbn [snd]. unfold toy_pack.
    rewrite (verify_manifest toy_sha toy_dumps toy_loads toy_verify nowhere toy_law _ "now" (file_hashes toy_sha (two_files "A" "B")) None None);
      [by rewrite own_digests|apply hashes_NoDup|apply lookup_insert_eq]. }
  destruct (proj1 (seal_binds_listed toy_sha toy_dumps toy_loads toy_sign toy_verify nowhere toy_law "now" None (two_files "A" "B")
    (<["b.json" := Reg "C"]> (seal toy_sha toy_dumps toy_sign "now" None (two_files "A" "B")).2) None ltac:(discriminate) G
    ltac:(by rewrite lookup_insert_ne)) E "b.json" "B" ltac:(reflexivity) ltac:(discriminate)) as (c' & Hc & Hd).
  unfold reach in Hc. rewrite lookup_insert_eq in Hc. injection Hc as <-. discriminate Hd.
Defined.

(** The contents of two files exchanged under the signature of the original ones. *)
Lemma contents_change_names_witness :
  toy_pack (Some "key") (<[SEALED := Reg (toy_dumps (manifest_of toy_sha "now" (file_hashes toy_sha (two_files "B" "A"))
    (signature_of toy_sign (Some "key") (combined_hash toy_sha (file_hashes toy_sha (two_files "A" "B")).*2))))]> (two_files "B" "A")) = Ok true.
Proof.
  apply (contents_change_names toy_sha toy_dumps toy_loads toy_sign toy_verify (λ k, k) nowhere toy_law toy_verifies "now" "key" (two_files "A" "B") (two_files "B" "A")).
  - discriminate.
  - vm_compute. apply Permutation_swap.
Defined.
