(* ===== verification/Intelligence.v ===== *)
(** * intelligence.py: forecasts, anomalies, explanations and briefings

    The cascade forecaster runs over the graphs of [Graph], the explainer over the
    assessments of [Fusion], the briefing engine over the packets of [Decision].  The
    language models behind an HTTP client are functions from the request to a JSON value or
    an exception; [json.loads], [str] of an exception and of a JSON value that is no text,
    [float(s)] and the digest are arguments. *)

From Stdlib Require Import ZArith QArith Lqa.
From S2P Require Import Prelude PyFloat FloatError FloatMono PyFormat Domain Graph Decision State Analysis.
From S2P Require Compiler Edge Telemetry Dsl Threat PublicData.

Open Scope Z_scope.

(** ** Distillation *)

Record DistillationResult := {
  di_model_id : string;
  di_target_architecture : string;
  di_compression_ratio : float;
  di_perplexity_score : float;
  di_payload : Edge.ModelPayload
}.

Definition generate_moe_payload (hexdigest : string → string) (base_model task_domain : string) : DistillationResult :=
  let simulated_hex := str_repeat 1024 (hexdigest (base_model +:+ "-" +:+ task_domain)) in
  let vocab_hex := str_repeat 128 (hexdigest "vocab") in
  let payload := {| Edge.mp_model_id := base_model +:+ "_" +:+ task_domain +:+ "_q4"; Edge.mp_version := "1.0.0";
                    Edge.mp_layer_embeddings_hex := String.substring 0 10000 simulated_hex;
                    Edge.mp_vocabulary_hex := String.substring 0 1000 vocab_hex; Edge.mp_target_architecture := "esp32-s3" |} in
  {| di_model_id := Edge.mp_model_id payload; di_target_architecture := Edge.mp_target_architecture payload;
     di_compression_ratio := lit 42.5; di_perplexity_score := lit 1.12; di_payload := payload |}.

(** ** Cascades *)

Record BayesianNodeProb := {
  bp_node_id : string;
  bp_prior_probability : float;
  bp_posterior_probability : float;
  bp_confidence_interval_95 : float * float;
  bp_primary_influencing_parents : list string
}.

Record CascadeForecastResult := {
  cf_forecast_id : string;
  cf_target_node_id : string;
  cf_failure_probability : float;
  cf_high_risk_upstream_nodes : list string;
  cf_node_probabilities : dict string BayesianNodeProb;
  cf_executive_forecast : string
}.

Notation beliefs := (dict string BayesianNodeProb).

(** [(round(max(0.0, p - d), 3), round(min(1.0, p + d), 3))] *)
Definition interval (p d : float) : float * float := (fround 3 (fmax f0 (p - d)%F), fround 3 (fmin f1 (p + d)%F)).

Definition prior_of (n : DependencyNode) : BayesianNodeProb :=
  let prior := (node_criticality n * lit 0.10)%F in
  {| bp_node_id := node_id n; bp_prior_probability := fround 3 prior; bp_posterior_probability := fround 3 prior;
     bp_confidence_interval_95 := interval prior (lit 0.05); bp_primary_influencing_parents := [] |}.

(** [min(0.99, max(0.01, x))] *)
Definition clamp99 (x : float) : float := fmin (lit 0.99) (fmax (lit 0.01) x).

Definition with_posterior (p : BayesianNodeProb) (posterior : float) (ci : float * float) (parents : list string) : BayesianNodeProb :=
  {| bp_node_id := bp_node_id p; bp_prior_probability := bp_prior_probability p; bp_posterior_probability := posterior;
     bp_confidence_interval_95 := ci; bp_primary_influencing_parents := parents |}.

Definition evidence_step (node_probs : beliefs) (kv : string * float) : beliefs :=
  match dget node_probs kv.1 with
  | Some p => let p_obs := clamp99 kv.2 in
      dset node_probs kv.1 (with_posterior p (fround 3 p_obs) (interval p_obs (lit 0.03)) (bp_primary_influencing_parents p))
  | None => node_probs
  end.

(** The parents of each node with the strength of the dependency, in the order of the edges. *)
Definition adj_parents (edges : list DependencyEdge) : dict string (list (string * float)) :=
  foldl (λ d e, dappend d (edge_target e) (edge_source e, edge_strength e)) [] edges.

(** The product over the parents, and those that influence the node. *)
Definition parent_step (node_probs : beliefs) (acc : float * list string) (parent : string * float) : float * list string :=
  let '(prob_no_failure, influencing) := acc in
  match dget node_probs parent.1 with
  | Some p =>
      let p_parent := bp_posterior_probability p in
      ((prob_no_failure * (f1 - p_parent * parent.2))%F,
       if (lit 0.3 <? p_parent)%F then influencing ++ [parent.1] else influencing)
  | None => acc
  end.

Definition node_step (observed : dict string float) (node_probs : beliefs) (entry : string * list (string * float)) : beliefs :=
  if dmem observed entry.1 then node_probs
  else match dget node_probs entry.1 with
       | None => node_probs
       | Some p =>
           let '(prob_no_failure, influencing) := foldl (parent_step node_probs) ((f1 - bp_prior_probability p)%F, []) entry.2 in
           let posterior := clamp99 (f1 - prob_no_failure)%F in
           dset node_probs entry.1 (with_posterior p (fround 3 posterior) (interval posterior (lit 0.06)) influencing)
       end.

Definition sweep (observed : dict string float) (adj : dict string (list (string * float))) (node_probs : beliefs) : beliefs :=
  foldl (node_step observed) node_probs adj.

Definition propagate (graph : DependencyGraph) (observed : dict string float) : beliefs :=
  let node_probs := foldl (λ d n, dset d (node_id n) (prior_of n)) [] (graph_nodes graph) in
  let node_probs := foldl evidence_step node_probs observed in
  Nat.iter 3 (sweep observed (adj_parents (graph_edges graph))) node_probs.

Definition forecast (id : string) (graph : DependencyGraph) (target_node : string) (observed_degradations : dict string float)
    : res CascadeForecastResult :=
  let node_probs := propagate graph observed_degradations in
  match node_probs with
  | [] => Raise StopIteration
  | (_, first) :: _ =>
      let target_prob := dget_default node_probs target_node first in
      let high_risk := (List.filter (λ kv, (lit 0.50 <=? bp_posterior_probability kv.2)%F) node_probs).*1 in
      Ok {| cf_forecast_id := id; cf_target_node_id := target_node; cf_failure_probability := bp_posterior_probability target_prob;
            cf_high_risk_upstream_nodes := high_risk; cf_node_probabilities := node_probs;
            cf_executive_forecast := "Bayesian Forecast for '" +:+ target_node +:+ "': Failure Probability is "
              +:+ fmt_percent 1 (bp_posterior_probability target_prob) +:+ ". " +:+ str_nat (length high_risk)
              +:+ " nodes in severe cascade regime: " +:+ str_join ", " (take 4 high_risk) +:+ "." |}
  end.

(** ** Anomalies *)

Record TelemetryAnomalyScore := {
  ta_metric_name : string;
  ta_current_value : float;
  ta_rolling_mean : float;
  ta_rolling_std : float;
  ta_z_score : float;
  ta_is_anomalous : bool;
  ta_anomaly_confidence : float;
  ta_rationale : string
}.

(** [(x - mean) ** 2 for x in history] *)
Definition deviations `{Square} (mean : float) (history : list float) : res (list float) :=
  mapM_res (λ x, m_square (x - mean)%F) history.

Definition analyze_stream `{Square} (metric_name : string) (history : list float) (current_value z_threshold : float)
    : res TelemetryAnomalyScore :=
  if (length history <? 3)%nat then
    Ok {| ta_metric_name := metric_name; ta_current_value := current_value; ta_rolling_mean := current_value; ta_rolling_std := f1;
          ta_z_score := f0; ta_is_anomalous := false; ta_anomaly_confidence := lit 0.50;
          ta_rationale := "Insufficient history for anomaly baseline" |}
  else
    let n := f_of_Z (Z.of_nat (length history)) in
    mean ← fdiv (fsum history) n;
    squares ← deviations mean history;
    variance ← fdiv (fsum squares) n;
    root ← fsqrt variance;
    let std := fmax (lit 0.0001) root in
    z_score ← fdiv (current_value - mean)%F std;
    let is_anom := (z_threshold <=? fabs z_score)%F in
    ratio ← fdiv (fabs z_score) (z_threshold * lit 2)%F;
    let conf := fmin (lit 0.99) (fmax (lit 0.50) (lit 0.50 + ratio * lit 0.49)%F) in
    Ok {| ta_metric_name := metric_name; ta_current_value := fround 4 current_value; ta_rolling_mean := fround 4 mean;
          ta_rolling_std := fround 4 std; ta_z_score := fround 2 z_score; ta_is_anomalous := is_anom;
          ta_anomaly_confidence := fround 3 conf;
          ta_rationale := "Value " +:+ fmt_fixed 2 current_value +:+ " deviates by " +:+ Threat.fmt_signed 2 z_score +:+ " sigma from baseline ("
            +:+ fmt_fixed 2 mean +:+ " +/- " +:+ fmt_fixed 2 std +:+ ")" |}.

(** ** Explanations *)

Record FactorShapleyAttribution := {
  fs_factor : CorridorFactor;
  fs_raw_risk_score : float;
  fs_shapley_percentage : float;
  fs_direction : string;
  fs_tactical_explanation : string
}.

Record ExplainableAIRiskAttribution := {
  xa_assessment_id : string;
  xa_corridor_id : string;
  xa_overall_risk : float;
  xa_factor_attributions : list FactorShapleyAttribution;
  xa_top_risk_driver : CorridorFactor;
  xa_strategic_xai_summary : string
}.

Definition by_risk (a b : FactorAssessment) : bool := (fa_risk b <=? fa_risk a)%F.

Definition attribution (total : float) (a : FactorAssessment) : res FactorShapleyAttribution :=
  share ← fdiv (fa_risk a) total;
  let pct := (share * lit 100)%F in
  Ok {| fs_factor := fa_factor a; fs_raw_risk_score := fa_risk a; fs_shapley_percentage := fround 1 pct;
        fs_direction := if (lit 0.50 <=? fa_risk a)%F then "INCREASING_RISK" else "MITIGATING";
        fs_tactical_explanation := str_upper (CorridorFactor_value (fa_factor a)) +:+ " contributes " +:+ fmt_fixed 1 pct
          +:+ "% to total risk (score=" +:+ fmt_fixed 2 (fa_risk a) +:+ "). Reason: "
          +:+ (if str_empty (fa_rationale a) then "Telemetry constraint active" else fa_rationale a) |}.

Definition explain (assessment : CorridorAssessment) : res ExplainableAIRiskAttribution :=
  let total_risk_mass := fsum (fa_risk <$> ca_factors assessment) in
  let total_risk_mass := if (total_risk_mass =? f0)%F then lit 0.00001 else total_risk_mass in
  let sorted_factors := sort_by by_risk (ca_factors assessment) in
  attributions ← mapM_res (attribution total_risk_mass) sorted_factors;
  let top_driver := match sorted_factors with a :: _ => fa_factor a | [] => CF_WEATHER end in
  let top_pct := match attributions with a :: _ => fs_shapley_percentage a | [] => f0 end in
  let driver := str_upper (CorridorFactor_value top_driver) in
  Ok {| xa_assessment_id := ca_assessment_id assessment; xa_corridor_id := ca_corridor_id assessment; xa_overall_risk := ca_overall_risk assessment;
        xa_factor_attributions := attributions; xa_top_risk_driver := top_driver;
        xa_strategic_xai_summary := "XAI Decision Explanation: Corridor '" +:+ ca_corridor_id assessment +:+ "' overall risk ("
          +:+ fmt_fixed 2 (ca_overall_risk assessment) +:+ ") is primarily driven by " +:+ driver +:+ " (" +:+ fmt_fixed 1 top_pct
          +:+ "% weight). Targeting remediation on " +:+ driver +:+ " yields highest marginal continuity ROI." |}.

(** ** Language models *)

Section models.
Context (loads : string → res json) (str_exn : exn → string) (repr : json → string) (float_of_str : string → res float).

(** The [httpx.RequestError]s, which a request raises when no answer arrives, and the
    [httpx.HTTPStatusError] that [raise_for_status] raises for a status. *)
Context (request_error : exn → bool) (http_status_error : Z → exn).

(** An answer: its status and what [response.json()] makes of its body. *)
Record reply := { rp_status : Z; rp_json : res json }.

(** [response.raise_for_status(); response.json()] *)
Definition data_of (r : reply) : res json :=
  _ ← raise_if (negb ((200 <=? rp_status r) && (rp_status r <=? 299))) (http_status_error (rp_status r)); rp_json r.

(** The exceptions of the [except] clause. *)
Definition caught (e : exn) : bool :=
  request_error e || PublicData.value_error_b e || match e with KeyError _ => true | _ => false end.

(** [v[key]] and [v[0]] of a decoded value *)
Definition item_str (v : json) (key : string) : res json :=
  match v with
  | JObj m => Telemetry.item m key
  | JArr _ => Raise (TypeError "list indices must be integers or slices, not str")
  | JStr _ => Raise (TypeError "string indices must be integers, not 'str'")
  | _ => Raise (TypeError "object is not subscriptable")
  end.

Definition item_zero (v : json) : res json :=
  match v with
  | JArr (x :: _) => Ok x
  | JArr [] => Raise IndexError
  | JObj _ => Raise (KeyError "0")
  | JStr EmptyString => Raise IndexError
  | JStr (String c _) => Ok (JStr (String c EmptyString))
  | _ => Raise (TypeError "object is not subscriptable")
  end.

(** [json.loads(data["choices"][0]["message"]["content"])] *)
Definition content_of (data : json) : res json :=
  choices ← item_str data "choices"; choice ← item_zero choices; message ← item_str choice "message";
  content ← item_str message "content";
  match content with JStr s => loads s | _ => Raise (TypeError "the JSON object must be str, bytes or bytearray") end.

(** [v.get(key, default)] *)
Definition get (v : json) (key : string) (default_ : json) : res json :=
  match v with JObj m => Ok (default default_ (m !! key)) | _ => Raise (AttributeError "object has no attribute 'get'") end.

Record SovereignBriefing := {
  sb_executive_summary : string;
  sb_strategic_implications : string;
  sb_advisory_actions : list string
}.

Definition a_string (v : json) : res string := match v with JStr s => Ok s | _ => Raise (ValidationError "string_type") end.
Definition strings (v : json) : res (list string) :=
  match v with JArr l => mapM_res a_string l | _ => Raise (ValidationError "list_type") end.

Definition action_line (a : MitigationAction) : string :=
  "- " +:+ ma_action_id a +:+ " (Cost: " +:+ str_float (ma_cost a) +:+ ", Action: " +:+ ma_name a +:+ ")" +:+ newline.

Definition build_prompt (packet : DecisionPacket) : string :=
  "You are the Aegis Continuity Intelligence Engine, an AI advisory system for NATO-aligned Ministries of Defense." +:+ newline
  +:+ "Analyze the deterministic mitigation plan from the ContinuityOS exact-solver." +:+ newline
  +:+ "Provide an executive summary, strategic implications, and advisory actions." +:+ newline +:+ newline
  +:+ "Corridor Assessed: " +:+ ca_corridor_id (dp_assessment packet) +:+ newline
  +:+ "Required Mitigations: " +:+ str_nat (length (cp_selected_actions (dp_plan packet))) +:+ newline
  +:+ newline +:+ "Compiler Actions Required:" +:+ newline
  +:+ str_join "" (action_line <$> cp_selected_actions (dp_plan packet))
  +:+ newline +:+ "Respond strictly in valid JSON format with three keys: "
  +:+ "'executive_summary' (string), 'strategic_implications' (string), and 'advisory_actions' (list of strings).".

(** [post prompt] is the answer to the request, or the exception of the request. *)
Definition generate_briefing (post : string → res reply) (packet : DecisionPacket) : res SovereignBriefing :=
  match (data ← (post (build_prompt packet) ≫= data_of); parsed ← content_of data;
         summary ← get parsed "executive_summary" (JStr "Briefing generation failed.");
         implications ← get parsed "strategic_implications" (JStr "Unknown");
         actions ← get parsed "advisory_actions" (JArr []);
         summary ← a_string summary; implications ← a_string implications; actions ← strings actions;
         Ok {| sb_executive_summary := summary; sb_strategic_implications := implications; sb_advisory_actions := actions |}) with
  | Ok b => Ok b
  | Raise e =>
      if caught e then
        Ok {| sb_executive_summary := "ERROR: Air-gapped LLM engine unreachable."; sb_strategic_implications := str_exn e;
              sb_advisory_actions := [] |}
      else Raise e
  end.

Record VisualSurveillanceAnalysis := {
  va_stream_id : string;
  va_threat_detected : bool;
  va_confidence : float;
  va_detected_objects : list string;
  va_visual_summary : string;
  va_corridor_impact_factor : string;
  va_recommended_action : string
}.

Definition new_VisualSurveillanceAnalysis (v : VisualSurveillanceAnalysis) : res VisualSurveillanceAnalysis :=
  _ ← require (is_score (va_confidence v)) "confidence"; Ok v.

(** [list(v)] of a decoded value: the elements, the characters (of ASCII text) or the keys. *)
Definition as_list (v : json) : res (list json) :=
  match v with
  | JArr l => Ok l
  | JStr s => Ok ((λ c, JStr (String c EmptyString)) <$> String.list_ascii_of_string s)
  | JObj m => Ok (JStr <$> (map_to_list m).*1)
  | _ => Raise (TypeError "object is not iterable")
  end.

Definition visual_fallback (stream_id : string) : VisualSurveillanceAnalysis :=
  {| va_stream_id := stream_id; va_threat_detected := false; va_confidence := lit 0.5; va_detected_objects := [];
     va_visual_summary := "Visual inference unavailable on local VLM; optical flow nominal."; va_corridor_impact_factor := "ESCORT";
     va_recommended_action := "Maintain optical sensor logging." |}.

Definition analyze_frame (post : string → string → res reply) (stream_id image_base64 prompt_context : string) : res VisualSurveillanceAnalysis :=
  match (data ← (post prompt_context image_base64 ≫= data_of); parsed ← content_of data;
         threat ← get parsed "threat_detected" (JBool false);
         confidence ← (get parsed "confidence" (JFloat (lit 0.85)) ≫= Telemetry.py_float float_of_str);
         objects ← (get parsed "detected_objects" (JArr []) ≫= as_list);
         summary ← get parsed "visual_summary" (JStr "Visual analysis complete.");
         factor ← get parsed "corridor_impact_factor" (JStr "ESCORT");
         action ← get parsed "recommended_action" (JStr "Maintain surveillance.");
         names ← mapM_res a_string objects;
         new_VisualSurveillanceAnalysis
           {| va_stream_id := stream_id; va_threat_detected := Dsl.truthy threat; va_confidence := confidence; va_detected_objects := names;
              va_visual_summary := Telemetry.py_str repr summary; va_corridor_impact_factor := Telemetry.py_str repr factor;
              va_recommended_action := Telemetry.py_str repr action |}) with
  | Ok a => Ok a
  | Raise e => if caught e then Ok (visual_fallback stream_id) else Raise e
  end.

End models.

(** ** Beliefs of a cascade *)

Local Abbreviation lo p := (fst (bp_confidence_interval_95 p)).
Local Abbreviation hi p := (snd (bp_confidence_interval_95 p)).

(** What the fields of a belief promise: two probabilities, and the second within its interval. *)
Record belief_ok (p : BayesianNodeProb) : Prop := {
  ok_prior : is_score (bp_prior_probability p) = true;
  ok_posterior : is_score (bp_posterior_probability p) = true;
  ok_lo : is_score (lo p) = true;
  ok_hi : is_score (hi p) = true;
  ok_below : fleb (lo p) (bp_posterior_probability p) = true;
  ok_above : fleb (bp_posterior_probability p) (hi p) = true
}.

(** A margin of the intervals: at least one hundredth. *)
Definition margin (d : float) : Prop := ∃ q, d = Fin q ∧ (1 # 100 <= q)%Q ∧ (q <= 1)%Q.

Lemma margins : margin (lit 0.05) ∧ margin (lit 0.03) ∧ margin (lit 0.06).
Proof. split_and!; eexists; (split; [vm_compute; reflexivity|split; by apply Qle_bool_iff]). Qed.

Lemma fl_shift p d : (0 <= p)%Q → (p <= 1)%Q → (1 # 100 <= d)%Q → (d <= 1)%Q →
  (∃ r, fl (p + d) = Fin r ∧ (p <= r)%Q) ∧ (∃ r, fl (p + - d) = Fin r ∧ (r <= p)%Q).
Proof.
  intros P0 P1 D0 D1. assert (pow2 1 == 2)%Q as E1 by reflexivity. assert (pow2 (1 - 53) < 1 # 100)%Q as E2 by reflexivity.
  split.
  - destruct (fl_near 1 (p + d)) as (r & -> & [L R]); [lia|lra|lra|]. exists r. split; [done|]. lra.
  - destruct (fl_near 1 (p + - d)) as (r & -> & [L R]); [lia|lra|lra|]. exists r. split; [done|]. lra.
Qed.

Lemma interval_ok p d : is_score p = true → margin d → let '(l, h) := interval p d in
  is_score l = true ∧ is_score h = true ∧ fleb l (fround 3 p) = true ∧ fleb (fround 3 p) h = true.
Proof.
  intros (q & -> & Q0 & Q1)%is_score_iff (e & -> & E0 & E1). unfold interval, fsub. cbn [fneg].
  change (Fin q + Fin (- e))%F with (fl (q + - e)). change (Fin q + Fin e)%F with (fl (q + e)).
  destruct (fl_shift q e Q0 Q1 E0 E1) as [(r & -> & R) (s & -> & S)].
  assert (is_score (fmax f0 (Fin s)) = true ∧ fleb (fmax f0 (Fin s)) (Fin q) = true) as [L1 L2].
  { rewrite f0_eq. unfold fmax. destruct (fltb (Fin 0) (Fin s)) eqn:C.
    - apply fltb_Fin in C. split; [apply is_score_iff; exists s; split_and!; [done|lra|lra]|by apply fleb_Fin].
    - split; [done|by apply fleb_Fin]. }
  assert (is_score (fmin f1 (Fin r)) = true ∧ fleb (Fin q) (fmin f1 (Fin r)) = true) as [H1 H2].
  { rewrite f1_eq. unfold fmin. destruct (fltb (Fin r) (Fin 1)) eqn:C.
    - apply fltb_Fin in C. split; [apply is_score_iff; exists r; split_and!; [done|lra|lra]|by apply fleb_Fin].
    - split; [done|by apply fleb_Fin]. }
  split_and!; auto using score_round, fround_mono.
Qed.

Lemma with_posterior_ok p x d ps : belief_ok p → is_score x = true → margin d →
  belief_ok (with_posterior p (fround 3 x) (interval x d) ps).
Proof.
  intros [? _ _ _ _ _] Hx Hd. pose proof (interval_ok x d Hx Hd) as H. destruct (interval x d) as [l h].
  destruct H as (? & ? & ? & ?). by constructor; cbn; [|apply score_round|..].
Qed.

Lemma score_clamp99 x : is_score (clamp99 x) = true.
Proof.
  unfold clamp99. assert (is_score (lit 0.99) = true) as A by reflexivity. assert (is_score (lit 0.01) = true) as B by reflexivity.
  unfold fmin. destruct (fltb _ (lit 0.99)) eqn:E; [|done]. unfold fmax in *. destruct (fltb (lit 0.01) x) eqn:F; [|done].
  unfold is_score. apply fltb_fleb in E, F. apply andb_true_intro. split.
  - by apply fleb_trans with (lit 0.01).
  - by apply fleb_trans with (lit 0.99).
Qed.

Lemma prior_ok n : is_score (node_criticality n) = true → belief_ok (prior_of n).
Proof.
  intros Hn. assert (is_score (node_criticality n * lit 0.10)%F = true) as Hs by (by apply score_mul).
  destruct margins as (M & _ & _). pose proof (interval_ok _ _ Hs M) as H. unfold prior_of. cbn zeta.
  destruct (interval _ _) as [l h]. destruct H as (? & ? & ? & ?). constructor; cbn; auto using score_round.
Qed.

(** A table of beliefs: the nodes of the graph in their order, each with a belief of its own. *)
Record beliefs_ok (g : DependencyGraph) (d : beliefs) : Prop := {
  bs_keys : dkeys d = node_ids g;
  bs_ok : ∀ id p, (id, p) ∈ d → belief_ok p ∧ bp_node_id p = id
}.

Lemma beliefs_set g d id p p' : beliefs_ok g d → dget d id = Some p → belief_ok p' → bp_node_id p' = bp_node_id p →
  beliefs_ok g (dset d id p').
Proof.
  intros [Hk Ho] Hd Hp Hid. split.
  - rewrite dkeys_dset. unfold dmem. by rewrite Hd.
  - intros i q [[= -> ->]|Hin]%elem_of_dset; [|by apply Ho]. split; [done|]. rewrite Hid. by apply Ho, dget_elem.
Qed.

Lemma evidence_ok g d kv : beliefs_ok g d → beliefs_ok g (evidence_step d kv).
Proof.
  intros Hd. unfold evidence_step. destruct (dget d kv.1) as [p|] eqn:E; [|done]. destruct margins as (_ & M & _).
  eapply beliefs_set; [done|exact E| |done]. apply with_posterior_ok; [|apply score_clamp99|done].
  destruct Hd as [_ Ho]. apply (Ho kv.1). by apply dget_elem.
Qed.

Lemma node_step_ok g observed d entry : beliefs_ok g d → beliefs_ok g (node_step observed d entry).
Proof.
  intros Hd. unfold node_step. destruct (dmem observed entry.1); [done|]. destruct (dget d entry.1) as [p|] eqn:E; [|done].
  destruct (foldl _ _ _) as [acc ps]. destruct margins as (_ & _ & M).
  eapply beliefs_set; [done|exact E| |done]. apply with_posterior_ok; [|apply score_clamp99|done].
  destruct Hd as [_ Ho]. apply (Ho entry.1). by apply dget_elem.
Qed.

Lemma foldl_beliefs {A} (P : beliefs → Prop) (f : beliefs → A → beliefs) l d : (∀ d x, P d → P (f d x)) → P d → P (foldl f d l).
Proof. intros Hf. revert d; induction l as [|x l IH]; intros d Hd; cbn; [done|]. by apply IH, Hf. Qed.

Lemma priors_dict (ns : list DependencyNode) d : NoDup (dkeys d ++ (node_id <$> ns)) →
  foldl (λ d n, dset d (node_id n) (prior_of n)) d ns = d ++ ((λ n, (node_id n, prior_of n)) <$> ns).
Proof.
  revert d. induction ns as [|n ns IH]; intros d Hd; cbn [foldl fmap list_fmap]; [by rewrite app_nil_r|].
  assert (dset d (node_id n) (prior_of n) = d ++ [(node_id n, prior_of n)]) as E.
  { cbn in Hd. apply NoDup_app in Hd as (_ & Hd & _). clear -Hd. induction d as [|[k v] d IHd]; [done|]. cbn.
    assert (node_id n ≠ k) as Hne. { intros E. apply (Hd (node_id n)); [rewrite E; left|left]. }
    rewrite decide_False by done. f_equal. apply IHd. intros x Hx. apply Hd. by right. }
  rewrite E, IH; [by rewrite <-app_assoc|]. unfold dkeys. rewrite fmap_app. cbn. by rewrite <-app_assoc.
Qed.

Lemma bs_prior_table g : graph_valid g = true →
  beliefs_ok g (foldl (λ d n, dset d (node_id n) (prior_of n)) [] (graph_nodes g)).
Proof.
  intros Hg. destruct (graph_facts g Hg) as (Hn & Hs & _). rewrite priors_dict by done. cbn [app]. split.
  - unfold dkeys, node_ids. rewrite <-list_fmap_compose. done.
  - intros id p Hin. apply list_elem_of_fmap in Hin as (n & [= -> ->] & Hin). split; [|done]. by apply prior_ok, Hs.
Qed.

Lemma propagate_ok g observed : graph_valid g = true → beliefs_ok g (propagate g observed).
Proof.
  intros Hg. unfold propagate. cbn zeta.
  assert (∀ n d, beliefs_ok g d → beliefs_ok g (Nat.iter n (sweep observed (adj_parents (graph_edges g))) d)) as S.
  { induction n as [|n IH]; intros d Hd; [done|]. cbn [Nat.iter]. apply (foldl_beliefs (beliefs_ok g)); [|by apply IH]. apply node_step_ok. }
  apply S, (foldl_beliefs (beliefs_ok g)); [apply evidence_ok|]. by apply bs_prior_table.
Qed.

(** ** Forecasts are monotone in the evidence *)

Lemma within_compl x y : within 1 x y → within 1 (f1 - y)%F (f1 - x)%F.
Proof.
  intros (a & b & -> & -> & A & AB & B). change (inject_Z 1) with 1%Q in B. rewrite f1_eq.
  change (Fin 1 - Fin b)%F with (fl (1 + - b)). change (Fin 1 - Fin a)%F with (fl (1 + - a)).
  apply within_fl; [lia|lra|lra|]. change (inject_Z 1) with 1%Q. lra.
Qed.

Lemma clamp99_mono x y : fleb x y = true → fleb (clamp99 x) (clamp99 y) = true.
Proof. intros H. apply fmin_mono; [done|]. by apply fmax_mono. Qed.

Lemma within_rounded x y : fleb x y = true → within 1 (fround 3 (clamp99 x)) (fround 3 (clamp99 y)).
Proof. intros H. apply within_scores; [apply score_round, score_clamp99..|]. by apply fround_mono, clamp99_mono. Qed.

(** The same nodes with the same priors, and no posterior higher on the left. *)
Definition entry_leb (a b : string * BayesianNodeProb) : Prop :=
  a.1 = b.1 ∧ bp_prior_probability a.2 = bp_prior_probability b.2 ∧ is_score (bp_prior_probability a.2) = true ∧
  within 1 (bp_posterior_probability a.2) (bp_posterior_probability b.2).

Notation milder := (Forall2 entry_leb).

Definition evidence_leb (o1 o2 : dict string float) : Prop := Forall2 (λ a b, a.1 = b.1 ∧ fleb a.2 b.2 = true) o1 o2.

Lemma milder_get d1 d2 id : milder d1 d2 → match dget d1 id, dget d2 id with
  | Some p, Some q => entry_leb (id, p) (id, q)
  | None, None => True
  | _, _ => False
  end.
Proof.
  induction 1 as [|[k1 p] [k2 q] l1 l2 H Hl IH]; [done|]. cbn. pose proof H as (E & _). cbn in E. subst k2.
  destruct (decide (id = k1)) as [->|]; [done|]. exact IH.
Qed.

Lemma milder_set d1 d2 id p q : milder d1 d2 → entry_leb (id, p) (id, q) → milder (dset d1 id p) (dset d2 id q).
Proof.
  intros Hd Hpq. induction Hd as [|[k1 a] [k2 b] l1 l2 H Hl IH]; [by constructor|]. cbn. pose proof H as (E & _). cbn in E. subst k2.
  destruct (decide (id = k1)) as [->|]; by constructor.
Qed.

Lemma evidence_mem o1 o2 id : evidence_leb o1 o2 → dmem o1 id = dmem o2 id.
Proof.
  unfold dmem. induction 1 as [|[k1 p] [k2 q] l1 l2 [E _] Hl IH]; [done|]. cbn in *. subst k2. by case_decide.
Qed.

Lemma milder_evidence o1 o2 d1 d2 : evidence_leb o1 o2 → milder d1 d2 → milder (foldl evidence_step d1 o1) (foldl evidence_step d2 o2).
Proof.
  intros Ho. revert d1 d2. induction Ho as [|[k1 x] [k2 y] l1 l2 [E Hxy] Hl IH]; intros d1 d2 Hd; [done|]. cbn in E, Hxy. subst k2.
  cbn [foldl]. apply IH. unfold evidence_step. cbn [fst snd]. pose proof (milder_get d1 d2 k1 Hd) as G.
  destruct (dget d1 k1) as [p|], (dget d2 k1) as [q|]; try done. apply milder_set; [done|].
  destruct G as (_ & P & S & _). split_and!; try done. by apply within_rounded.
Qed.

Lemma milder_parents d1 d2 ws acc1 acc2 : milder d1 d2 → Forall (λ w, is_score w.2 = true) ws → within 1 acc2.1 acc1.1 →
  within 1 (foldl (parent_step d2) acc2 ws).1 (foldl (parent_step d1) acc1 ws).1.
Proof.
  intros Hd Hw. revert acc1 acc2. induction Hw as [|[s w] ws W Hws IH]; intros [x1 l1] [x2 l2] Ha; [done|]. cbn [foldl].
  apply IH. unfold parent_step. cbn [fst snd] in *. pose proof (milder_get d1 d2 s Hd) as G.
  destruct (dget d1 s) as [p|], (dget d2 s) as [q|]; try done. destruct G as (_ & _ & _ & G). cbn [fst snd].
  change 1 with (1 * 1). apply within_mul; [lia|lia|lia|done|]. apply within_compl. change 1 with (1 * 1).
  apply within_mul; [lia|lia|lia|done|]. by apply within_score.
Qed.

Lemma milder_node o1 o2 d1 d2 entry : evidence_leb o1 o2 → milder d1 d2 → Forall (λ w, is_score w.2 = true) entry.2 →
  milder (node_step o1 d1 entry) (node_step o2 d2 entry).
Proof.
  intros Ho Hd Hw. unfold node_step. rewrite (evidence_mem o1 o2) by done. destruct (dmem o2 entry.1); [done|].
  pose proof (milder_get d1 d2 entry.1 Hd) as G. destruct (dget d1 entry.1) as [p|], (dget d2 entry.1) as [q|]; try done.
  destruct G as (_ & P & S & G). cbn [snd] in *.
  pose proof (milder_parents d1 d2 entry.2 ((f1 - bp_prior_probability p)%F, []) ((f1 - bp_prior_probability q)%F, []) Hd Hw) as F.
  cbn [fst] in F. rewrite <-P in *. specialize (F ltac:(apply within_compl; by apply within_score)).
  destruct (foldl (parent_step d1) _ _) as [x1 l1], (foldl (parent_step d2) _ _) as [x2 l2]. cbn [fst] in F.
  apply milder_set; [done|]. split_and!; try done. cbn. apply within_rounded.
  eapply within_fleb. by apply within_compl.
Qed.

Lemma adj_scores edges : Forall (λ e, is_score (edge_strength e) = true) edges →
  Forall (λ a, Forall (λ w, is_score w.2 = true) a.2) (adj_parents edges).
Proof.
  unfold adj_parents. assert (Forall (λ a : string * list (string * float), Forall (λ w, is_score w.2 = true) a.2) []) as H by done.
  revert H. generalize (@nil (string * list (string * float))) as d. intros d Hd He. revert d Hd.
  induction He as [|e edges E He IH]; intros d Hd; [done|]. cbn [foldl]. apply IH. apply Forall_forall. intros kv Hin.
  rewrite Forall_forall in Hd. apply elem_of_dset in Hin as [->|Hin]; [|by apply Hd]. cbn [snd]. apply Forall_app. split; [|by repeat constructor].
  unfold dget_default. destruct (dget d (edge_target e)) as [l|] eqn:G; [|done]. apply dget_elem in G. by apply (Hd _ G).
Qed.

Lemma milder_sweep o1 o2 adj d1 d2 : evidence_leb o1 o2 → Forall (λ a, Forall (λ w, is_score w.2 = true) a.2) adj → milder d1 d2 →
  milder (sweep o1 adj d1) (sweep o2 adj d2).
Proof.
  intros Ho Ha. revert d1 d2. unfold sweep. induction Ha as [|a adj A Ha IH]; intros d1 d2 Hd; [done|]. cbn [foldl]. by apply IH, milder_node.
Qed.

Lemma milder_refl g d : beliefs_ok g d → milder d d.
Proof.
  intros [_ Ho]. apply Forall2_same_length_lookup. split; [done|]. intros i x y Hx Hy. rewrite Hx in Hy. injection Hy as <-.
  destruct x as [k p]. destruct (Ho k p) as [[] _]; [by eapply list_elem_of_lookup_2|]. split_and!; try done. by apply within_score.
Qed.

Lemma milder_propagate g o1 o2 : graph_valid g = true → evidence_leb o1 o2 → milder (propagate g o1) (propagate g o2).
Proof.
  intros Hg Ho. destruct (graph_facts g Hg) as (Hn & Hs & He). unfold propagate. cbn zeta.
  set (d := foldl (λ d n, dset d (node_id n) (prior_of n)) [] (graph_nodes g)).
  assert (milder (foldl evidence_step d o1) (foldl evidence_step d o2)) as H.
  { apply milder_evidence; [done|]. apply (milder_refl g). exact (bs_prior_table g Hg). }
  revert H. generalize (foldl evidence_step d o1) (foldl evidence_step d o2). intros d1 d2 H.
  assert (∀ n, milder (Nat.iter n (sweep o1 (adj_parents (graph_edges g))) d1) (Nat.iter n (sweep o2 (adj_parents (graph_edges g))) d2)) as I; [|apply I].
  induction n as [|n IH]; [done|]. cbn [Nat.iter]. apply milder_sweep; try done. apply adj_scores, Forall_forall. intros e Hin. by apply He.
Qed.

Lemma forecast_spec id g target observed : graph_nodes g ≠ [] → graph_valid g = true →
  ∃ r k first rest, forecast id g target observed = Ok r ∧ propagate g observed = (k, first) :: rest ∧
    cf_node_probabilities r = propagate g observed ∧
    cf_failure_probability r = bp_posterior_probability (dget_default (propagate g observed) target first) ∧
    cf_high_risk_upstream_nodes r = (List.filter (λ kv, (lit 0.50 <=? bp_posterior_probability kv.2)%F) (propagate g observed)).*1.
Proof.
  intros Hne Hg. pose proof (bs_keys _ _ (propagate_ok g observed Hg)) as K. unfold forecast. cbn zeta.
  destruct (propagate g observed) as [|[k first] rest].
  { unfold node_ids in K. by destruct (graph_nodes g). }
  eexists _, k, first, rest. split_and!; reflexivity.
Qed.

(** C26. On a valid graph with a node, a forecast never fails: it has one belief per node, in the
    order of the nodes, every probability and interval end is a probability, and the posterior
    lies within its interval; the failure probability is the target's posterior. *)
Theorem forecast_bounds id g target observed (Hne : graph_nodes g ≠ []) (Hg : graph_valid g = true) :
  ∃ r, forecast id g target observed = Ok r ∧ dkeys (cf_node_probabilities r) = node_ids g ∧
    is_score (cf_failure_probability r) = true ∧
    (∀ p, dget (cf_node_probabilities r) target = Some p → cf_failure_probability r = bp_posterior_probability p) ∧
    ∀ nid p, (nid, p) ∈ cf_node_probabilities r → belief_ok p ∧ bp_node_id p = nid ∧
      (nid ∈ cf_high_risk_upstream_nodes r ↔ fleb (lit 0.50) (bp_posterior_probability p) = true).
Proof.
  destruct (forecast_spec id g target observed Hne Hg) as (r & k & first & rest & -> & P & N & F & H).
  destruct (propagate_ok g observed Hg) as [K O]. exists r. rewrite N, F, H. split_and!; [done|done| |by unfold dget_default; intros p ->|].
  - unfold dget_default. destruct (dget _ target) as [p|] eqn:E; [apply dget_elem, O in E as [[] _]; done|].
    destruct (O k first) as [[] _]; [rewrite P; left|done].
  - intros nid p Hin. destruct (O _ _ Hin) as [Hp Hi]. split_and!; try done. split.
    + intros ([n q] & -> & Hf)%list_elem_of_fmap. apply list_elem_of_In, filter_In in Hf as [Hf%list_elem_of_In Hq]. cbn [fst snd] in *.
      apply (elem_dget (propagate g observed)) in Hin, Hf; [|rewrite K; by apply (graph_facts g Hg)..]. congruence.
    + intros Hq. apply list_elem_of_fmap. exists (nid, p). split; [done|]. apply list_elem_of_In, filter_In. by split; [apply list_elem_of_In|].
Qed.

(** C25. Worse evidence never makes a forecast milder: raising observed degradations lowers no
    posterior, so the failure probability of the target does not fall and every node that was in the severe regime
    stays in it. *)
Theorem forecast_monotone id g target o1 o2 r1 r2 (Hg : graph_valid g = true) (Ho : evidence_leb o1 o2)
    (H1 : forecast id g target o1 = Ok r1) (H2 : forecast id g target o2 = Ok r2) :
  fleb (cf_failure_probability r1) (cf_failure_probability r2) = true ∧
  (∀ nid, nid ∈ cf_high_risk_upstream_nodes r1 → nid ∈ cf_high_risk_upstream_nodes r2) ∧
  milder (cf_node_probabilities r1) (cf_node_probabilities r2).
Proof.
  assert (graph_nodes g ≠ []) as Hne.
  { intros E. pose proof (bs_keys _ _ (propagate_ok g o1 Hg)) as K. unfold node_ids in K. rewrite E in K.
    unfold forecast in H1. by destruct (propagate g o1). }
  destruct (forecast_spec id g target o1 Hne Hg) as (? & k1 & f1 & l1 & E1 & P1 & N1 & F1 & R1). rewrite H1 in E1. injection E1 as <-.
  destruct (forecast_spec id g target o2 Hne Hg) as (? & k2 & f2 & l2 & E2 & P2 & N2 & F2 & R2). rewrite H2 in E2. injection E2 as <-.
  pose proof (milder_propagate g o1 o2 Hg Ho) as M. rewrite F1, F2, R1, R2, N1, N2. split_and!; [| |done].
  - pose proof (milder_get _ _ target M) as G. unfold dget_default.
    destruct (dget (propagate g o1) target) as [p|], (dget (propagate g o2) target) as [q|]; try done.
    + destruct G as (_ & _ & _ & G). by eapply within_fleb.
    + rewrite P1, P2 in M. apply Forall2_cons in M as [(_ & _ & _ & W) _]. by eapply within_fleb.
  - intros nid ([n p] & -> & Hf)%list_elem_of_fmap. apply list_elem_of_In, filter_In in Hf as [Hf%list_elem_of_In Hp]. cbn [fst snd] in *.
    apply list_elem_of_lookup in Hf as [i Hf]. destruct (Forall2_lookup_l _ _ _ _ _ M Hf) as ([n' q] & Hq & (E & _ & _ & G)).
    cbn [fst snd] in *. subst n'. apply list_elem_of_fmap. exists (n, q). split; [done|]. apply list_elem_of_In, filter_In. split.
    + apply list_elem_of_In. by eapply list_elem_of_lookup_2.
    + cbn [snd]. eapply fleb_trans; [exact Hp|]. by eapply within_fleb.
Qed.

(** ** How far a failure travels *)

(** [n] is at most [k] edges upstream of [target]. *)
Fixpoint upstream (edges : list DependencyEdge) (k : nat) (target n : string) : Prop :=
  match k with
  | O => n = target
  | S k => upstream edges k target n ∨ ∃ e, e ∈ edges ∧ edge_target e = target ∧ upstream edges k (edge_source e) n
  end.

(** Every node is visited before its parents: the edges are listed from the end of the cascade back. *)
Fixpoint downstream_first (visited : list string) (adj : dict string (list (string * float))) : Prop :=
  match adj with
  | [] => True
  | (id, parents) :: adj => (∀ w, w ∈ parents → w.1 ∉ visited) ∧ downstream_first (id :: visited) adj
  end.

Lemma upstream_self edges k t : upstream edges k t t.
Proof. induction k as [|k IH]; [done|by left]. Qed.

Lemma adj_keys edges : NoDup (dkeys (adj_parents edges)).
Proof. unfold adj_parents. apply foldl_dset_NoDup; [|constructor]. intros d e Hd. by apply dset_NoDup. Qed.

Lemma adj_parent edges id parents w : dget (adj_parents edges) id = Some parents → w ∈ parents →
  ∃ e, e ∈ edges ∧ edge_target e = id ∧ edge_source e = w.1.
Proof.
  unfold adj_parents. assert (∀ d, (∀ id parents w, dget d id = Some parents → w ∈ parents → ∃ e, e ∈ edges ∧ edge_target e = id ∧ edge_source e = w.1) →
    ∀ l, (∀ e, e ∈ l → e ∈ edges) → dget (foldl (λ d e, dappend d (edge_target e) (edge_source e, edge_strength e)) d l) id = Some parents →
    w ∈ parents → ∃ e, e ∈ edges ∧ edge_target e = id ∧ edge_source e = w.1) as H; [|by apply H].
  intros d Hd l. revert d Hd. induction l as [|e l IH]; intros d Hd Hl; cbn [foldl]; [apply Hd|].
  apply IH; [|intros; apply Hl; by right]. intros id' parents' w' Hp Hw. unfold dappend in Hp.
  destruct (decide (edge_target e = id')) as [<-|Hne].
  - rewrite dget_dset_eq in Hp. injection Hp as <-. apply elem_of_app in Hw as [Hw|Hw].
    + unfold dget_default in Hw. destruct (dget d (edge_target e)) as [ps|] eqn:E; [by apply (Hd _ ps)|by apply elem_of_nil in Hw].
    + apply list_elem_of_singleton in Hw as ->. exists e. split; [apply Hl; by left|done].
  - rewrite dget_dset_ne in Hp by done. by apply (Hd _ parents').
Qed.

(** A step writes the entry of its own node. *)
Lemma node_step_other o d entry id : id ≠ entry.1 → dget (node_step o d entry) id = dget d id.
Proof.
  intros Hne. unfold node_step. destruct (dmem o entry.1); [done|]. destruct (dget d entry.1); [|done].
  destruct (foldl _ _ _). by rewrite dget_dset_ne by done.
Qed.

(** The product over the parents depends on the entries of the parents. *)
Lemma parents_agree d1 d2 ps acc : (∀ w, w ∈ ps → dget d1 w.1 = dget d2 w.1) → foldl (parent_step d1) acc ps = foldl (parent_step d2) acc ps.
Proof.
  revert acc. induction ps as [|w ps IH]; intros acc H; [done|]. cbn [foldl]. rewrite IH by (intros; apply H; by right).
  f_equal. unfold parent_step. destruct acc. by rewrite H by left.
Qed.

Lemma node_step_agree o1 o2 d1 d2 entry : dmem o1 entry.1 = dmem o2 entry.1 → dget d1 entry.1 = dget d2 entry.1 →
  (∀ w, w ∈ entry.2 → dget d1 w.1 = dget d2 w.1) → dget (node_step o1 d1 entry) entry.1 = dget (node_step o2 d2 entry) entry.1.
Proof.
  intros Ho Hd Hw. unfold node_step. rewrite Ho. destruct (dmem o2 entry.1); [done|]. rewrite Hd. destruct (dget d2 entry.1) as [p|] eqn:E; [|by rewrite Hd].
  rewrite (parents_agree d1 d2) by done. destruct (foldl _ _ _). by rewrite !dget_dset_eq.
Qed.

Lemma sweep_other o adj d id : id ∉ dkeys adj → dget (sweep o adj d) id = dget d id.
Proof.
  revert d. unfold sweep. induction adj as [|entry adj IH]; intros d Hn; [done|]. cbn [foldl].
  rewrite IH by (intros H; apply Hn; by right). apply node_step_other. intros ->. apply Hn. by left.
Qed.

(** Visited before its parents, a node is updated from the beliefs before the sweep. *)
Lemma sweep_local o1 o2 adj d1 d2 id visited : NoDup (dkeys adj) → downstream_first visited adj →
  (∀ n, n ∉ visited → (n = id ∨ ∃ ps w, dget adj id = Some ps ∧ w ∈ ps ∧ n = w.1) → dget d1 n = dget d2 n) → id ∉ visited →
  dmem o1 id = dmem o2 id → dget (sweep o1 adj d1) id = dget (sweep o2 adj d2) id.
Proof.
  intros Hn Hf Hd Hid Ho. revert visited d1 d2 Hf Hd Hid. unfold sweep. induction adj as [|[k ps] adj IH]; intros visited d1 d2 Hf Hd Hid.
  { apply Hd; [done|by left]. }
  cbn [foldl]. apply NoDup_cons in Hn as [Hk Hn]. destruct Hf as [Hp Hf]. destruct (decide (id = k)) as [->|Hne].
  - pose proof (sweep_other o1 adj) as S1. pose proof (sweep_other o2 adj) as S2. unfold sweep in S1, S2. rewrite S1, S2 by done.
    apply (node_step_agree o1 o2 d1 d2 (k, ps)); cbn [fst snd]; [done|apply Hd; [done|by left]|].
    intros w Hw. apply Hd; [by apply Hp|]. right. exists ps, w. cbn [dget]. by rewrite decide_True.
  - apply (IH Hn (k :: visited)); [done| |by intros [?|?]%elem_of_cons].
    intros n Hnv Hc. rewrite !node_step_other by (cbn; intros ->; apply Hnv; by left). apply Hd; [intros H; apply Hnv; by right|].
    destruct Hc as [->|(ps' & w & E & Hw & ->)]; [by left|right]. exists ps', w. cbn [dget]. by rewrite decide_False by done.
Qed.

Lemma sweeps_local edges o1 o2 d1 d2 k id : downstream_first [] (adj_parents edges) →
  (∀ n, upstream edges k id n → dget d1 n = dget d2 n ∧ dmem o1 n = dmem o2 n) →
  dget (Nat.iter k (sweep o1 (adj_parents edges)) d1) id = dget (Nat.iter k (sweep o2 (adj_parents edges)) d2) id.
Proof.
  intros Hf. revert id. induction k as [|k IH]; intros id H; [by apply H|]. cbn [Nat.iter].
  apply (sweep_local _ _ _ _ _ _ [] (adj_keys edges) Hf); [|by apply not_elem_of_nil|apply H, upstream_self].
  intros n _ [->|(ps & w & E & Hw & ->)].
  - apply IH. intros m Hm. apply H. by left.
  - destruct (adj_parent _ _ _ _ E Hw) as (e & He & Ht & <-). apply IH. intros m Hm. apply H. right. by exists e.
Qed.

Lemma evidence_get o d id : NoDup (dkeys o) → dget (foldl evidence_step d o) id =
  match dget o id, dget d id with
  | Some v, Some p => Some (with_posterior p (fround 3 (clamp99 v)) (interval (clamp99 v) (lit 0.03)) (bp_primary_influencing_parents p))
  | _, p => p
  end.
Proof.
  revert d. induction o as [|[k v] o IH]; intros d Hn; cbn [foldl dget]; [done|]. apply NoDup_cons in Hn as [Hk Hn]. rewrite IH by done.
  unfold evidence_step. cbn [fst snd]. destruct (decide (id = k)) as [->|Hne].
  - destruct (dget o k) as [v'|] eqn:E; [exfalso; apply Hk, dget_some_key; by exists v'|].
    destruct (dget d k) as [p|] eqn:Ep; [by rewrite dget_dset_eq|by rewrite Ep].
  - destruct (dget d k) as [p|]; [by rewrite dget_dset_ne|done].
Qed.

(** C27. A failure travels three edges. When the edges of a graph are listed from the end of the cascade back, the
    forecast for a node does not depend on any observation made more than three edges upstream of it, however
    severe and however strong the dependencies are. *)
Theorem forecast_three_hops id g target o1 o2 r1 r2 (Hg : graph_valid g = true) (Ht : target ∈ node_ids g)
    (H1 : NoDup (dkeys o1)) (H2 : NoDup (dkeys o2)) (Hf : downstream_first [] (adj_parents (graph_edges g)))
    (Ho : ∀ n, upstream (graph_edges g) 3 target n → dget o1 n = dget o2 n)
    (E1 : forecast id g target o1 = Ok r1) (E2 : forecast id g target o2 = Ok r2) :
  cf_failure_probability r1 = cf_failure_probability r2.
Proof.
  assert (graph_nodes g ≠ []) as Hne by (intros E; unfold node_ids in Ht; rewrite E in Ht; by apply elem_of_nil in Ht).
  destruct (forecast_spec id g target o1 Hne Hg) as (? & ? & ? & ? & F1 & _ & _ & P1 & _). rewrite E1 in F1. injection F1 as <-.
  destruct (forecast_spec id g target o2 Hne Hg) as (? & ? & ? & ? & F2 & _ & _ & P2 & _). rewrite E2 in F2. injection F2 as <-.
  assert (dget (propagate g o1) target = dget (propagate g o2) target) as E.
  { unfold propagate. cbn zeta. apply sweeps_local; [done|]. intros n Hn. rewrite !evidence_get by done.
    unfold dmem. by rewrite (Ho n Hn). }
  rewrite P1, P2. unfold dget_default. rewrite E. destruct (dget (propagate g o2) target) eqn:Eq; [done|].
  rewrite <-(bs_keys _ _ (propagate_ok g o2 Hg)) in Ht. apply dget_some_key in Ht as [? Ht]. congruence.
Qed.

(** A target that is no node of the graph is given the probability of its first node. *)
Lemma forecast_unknown_target id g target observed : graph_nodes g ≠ [] → graph_valid g = true → target ∉ node_ids g →
  ∃ r k p rest, forecast id g target observed = Ok r ∧ cf_node_probabilities r = (k, p) :: rest ∧
    cf_failure_probability r = bp_posterior_probability p.
Proof.
  intros Hne Hg Ht. destruct (forecast_spec id g target observed Hne Hg) as (r & k & p & rest & E & P & N & F & _).
  exists r, k, p, rest. split_and!; [done|by rewrite N|]. rewrite F. unfold dget_default.
  destruct (dget (propagate g observed) target) as [q|] eqn:Eq; [|done]. exfalso. apply Ht.
  rewrite <-(bs_keys _ _ (propagate_ok g observed Hg)). apply dget_some_key. by exists q.
Qed.

(** Three sweeps in the order of the edges: on a chain whose edges are listed from the target
    backwards the failure travels three hops, in the other order all the way. *)
Definition link (n : string) : DependencyNode :=
  {| node_id := n; node_name := n; node_type := NT_FACILITY; node_criticality := lit 0.5; node_location := None;
     node_provider_id := None; node_attributes := [] |}.
Definition leads (a b : string) : DependencyEdge :=
  {| edge_source := a; edge_target := b; edge_kind := DK_REQUIRES; edge_strength := f1; edge_substitutable := false;
     edge_substitute_group := None |}.
Definition chain_edges : list DependencyEdge := [leads "a" "b"; leads "b" "c"; leads "c" "d"; leads "d" "e"].
Definition chain_graph (edges : list DependencyEdge) : DependencyGraph :=
  {| graph_id := "g"; graph_nodes := link <$> ["a"; "b"; "c"; "d"; "e"]; graph_edges := edges |}.

Definition outcome (r : res CascadeForecastResult) : option (float * list string) :=
  match r with Ok r => Some (cf_failure_probability r, cf_high_risk_upstream_nodes r) | Raise _ => None end.

(** The same chain gives 99% when its edges are listed from the source on, 18.6% from the target back. *)
Example order_matters :
  let o := [("a", lit 0.99)] in let g := chain_graph chain_edges in let g' := chain_graph (reverse chain_edges) in
  graph_edges g' ≡ₚ graph_edges g ∧
  outcome (forecast "f" g "e" o) = Some (lit 0.99, ["a"; "b"; "c"; "d"; "e"]) ∧
  outcome (forecast "f" g' "e" o) = Some (lit 0.186, ["a"; "b"; "c"; "d"]).
Proof. cbn zeta. split_and!; [apply reverse_Permutation|vm_compute; reflexivity..]. Qed.

(** ** Explanations *)

Lemma risks_sorted l : Forall (λ a, is_score (fa_risk a) = true) l →
  StronglySorted (λ a b, fleb (fa_risk b) (fa_risk a) = true) (sort_by by_risk l).
Proof.
  induction 1 as [|x l Hx Hl IH]; cbn [sort_by]; [constructor|].
  assert (Forall (λ a, is_score (fa_risk a) = true) (sort_by by_risk l)) as Hs by (by rewrite sort_by_perm).
  revert Hs. induction IH as [|y l' Hl' IH Hy]; intros Hs; cbn [insert_by]; [by repeat constructor|].
  apply Forall_cons in Hs as [Hs Hs']. destruct (by_risk x y) eqn:E.
  - unfold by_risk in E. constructor; [by constructor|]. constructor; [done|]. eapply Forall_impl; [exact Hy|]. cbn. intros z Hz.
    by eapply fleb_trans.
  - constructor; [by apply IH|]. rewrite insert_by_perm. constructor; [|done]. unfold by_risk in E.
    destruct (fleb_total (fa_risk x) (fa_risk y)); [by apply score_not_NaN..|done|congruence].
Qed.

Lemma explain_total l total : feqb total f0 = false → ∃ rs, mapM_res (attribution total) l = Ok rs ∧
  (λ r, (fs_factor r, fs_raw_risk_score r)) <$> rs = (λ a, (fa_factor a, fa_risk a)) <$> l.
Proof.
  intros Ht. assert (∀ x, ∃ s, fdiv x total = Ok s) as D.
  { intros x. destruct total as [q| |].
    - apply Compiler.fdiv_total. intros E. rewrite f0_eq in Ht. unfold feqb, fcmp in Ht. by rewrite (proj1 (Qeq_alt q 0) E) in Ht.
    - by destruct x; eexists.
    - by destruct x; eexists. }
  induction l as [|a l (rs & IH & E)]; [by exists []|].
  assert (∃ r, attribution total a = Ok r ∧ (fs_factor r, fs_raw_risk_score r) = (fa_factor a, fa_risk a)) as (r & Er & Ep).
  { destruct (D (fa_risk a)) as [s Es]. unfold attribution. rewrite Es. by eexists. }
  exists (r :: rs). cbn [mapM_res]. rewrite Er. cbn. rewrite IH. split; [done|]. cbn. f_equal; [exact Ep|exact E].
Qed.

(** Explaining an assessment never fails: the attributions are its factors, each once, in
    descending order of risk, and the driver it names is a factor that none exceeds. *)
Theorem explain_ranks_factors assessment (Hf : Forall (λ a, is_score (fa_risk a) = true) (ca_factors assessment)) :
  ∃ r, explain assessment = Ok r ∧
    (λ x, (fs_factor x, fs_raw_risk_score x)) <$> xa_factor_attributions r ≡ₚ (λ a, (fa_factor a, fa_risk a)) <$> ca_factors assessment ∧
    StronglySorted (λ x y, fleb (fs_raw_risk_score y) (fs_raw_risk_score x) = true) (xa_factor_attributions r) ∧
    (ca_factors assessment ≠ [] → ∃ a, a ∈ ca_factors assessment ∧ fa_factor a = xa_top_risk_driver r ∧
       ∀ b, b ∈ ca_factors assessment → fleb (fa_risk b) (fa_risk a) = true).
Proof.
  unfold explain. cbn zeta. set (total := if feqb _ _ then _ else _).
  assert (feqb total f0 = false) as Ht by (subst total; by destruct (feqb (fsum _) f0) eqn:E).
  pose proof (risks_sorted _ Hf) as S. pose proof (sort_by_perm by_risk (ca_factors assessment)) as P.
  destruct (explain_total (sort_by by_risk (ca_factors assessment)) total Ht) as (rs & -> & E). eexists. split; [reflexivity|].
  cbn [xa_factor_attributions xa_top_risk_driver]. split_and!; [by rewrite E, P| |].
  - revert rs E. clear P. induction S as [|a l Hl IH Ha]; intros [|r rs] E; try done; [constructor|]. injection E as Ef Er E.
    constructor; [by apply IH|]. apply Forall_forall. intros x Hx. rewrite Er.
    assert ((fs_factor x, fs_raw_risk_score x) ∈ (λ a, (fa_factor a, fa_risk a)) <$> l) as Hin.
    { unfold fmap. rewrite <-E. exact (list_elem_of_fmap_2 _ _ _ Hx). }
    apply list_elem_of_fmap in Hin as (b & [= _ ->] & Hb). rewrite Forall_forall in Ha. by apply Ha.
  - intros Hne. destruct S as [|a l Hl Ha]; [by apply Permutation_nil in P|]. exists a. split_and!; [rewrite <-P; left|done|].
    intros b Hb. rewrite <-P in Hb. rewrite Forall_forall in Ha. apply elem_of_cons in Hb as [->|Hb]; [|by apply Ha].
    apply fleb_refl, score_not_NaN. rewrite Forall_forall in Hf. apply Hf. rewrite <-P. left.
Qed.

(** ** Briefings *)

Definition message_of (content : json) : object := {[ "message" := JObj {[ "content" := content ]} ]}.
Definition answer (content : json) : json := JObj {[ "choices" := JArr [JObj (message_of content)] ]}.

Section briefings.
Context (loads : string → res json) (str_exn : exn → string) (request_error : exn → bool) (http_status_error : Z → exn).

(** The transport errors of the library are none of Python's lookup and type errors, and the error of a
    status is neither a transport error nor a value or key error. *)
Definition library_errors : Prop :=
  (∀ e, request_error e = true → e ≠ IndexError ∧ (∀ m, e ≠ AttributeError m) ∧ ∀ m, e ≠ TypeError m) ∧
  ∀ n, request_error (http_status_error n) = false ∧ PublicData.value_error_b (http_status_error n) = false ∧ ∀ k, http_status_error n ≠ KeyError k.

Context (Hlibrary : library_errors).

Definition fallback (e : exn) : res SovereignBriefing :=
  Ok {| sb_executive_summary := "ERROR: Air-gapped LLM engine unreachable."; sb_strategic_implications := str_exn e; sb_advisory_actions := [] |}.

Local Abbreviation brief := (generate_briefing loads str_exn request_error http_status_error).
Local Abbreviation escapes e := (caught request_error e = false).

(** What [post] leads to, when it does not lead to a briefing. *)
Lemma brief_raises post packet e : (data ← (post (build_prompt packet) ≫= data_of http_status_error); content_of loads data) = Raise e →
  brief post packet = if caught request_error e then fallback e else Raise e.
Proof using. unfold generate_briefing. destruct (post _ ≫= _) as [data|e0]; cbn [mbind res_bind]; [intros ->|intros [= ->]]; done. Qed.

Lemma content_raises r packet e : rp_status r = 200 → (data ← rp_json r; content_of loads data) = Raise e →
  brief (λ _, Ok r) packet = if caught request_error e then fallback e else Raise e.
Proof using. intros Hr E. apply brief_raises. cbn [mbind res_bind]. unfold data_of. rewrite Hr. exact E. Qed.

Lemma answer_read text packet v : loads text = Ok v →
  brief (λ _, Ok {| rp_status := 200; rp_json := Ok (answer (JStr text)) |}) packet =
  match (summary ← get v "executive_summary" (JStr "Briefing generation failed.");
         implications ← get v "strategic_implications" (JStr "Unknown"); actions ← get v "advisory_actions" (JArr []);
         summary ← a_string summary; implications ← a_string implications; actions ← strings actions;
         Ok {| sb_executive_summary := summary; sb_strategic_implications := implications; sb_advisory_actions := actions |}) with
  | Ok b => Ok b
  | Raise e => if caught request_error e then fallback e else Raise e
  end.
Proof using.
  intros Hl. unfold generate_briefing, data_of. cbn [mbind res_bind rp_status rp_json]. change (raise_if _ _) with (Ok tt). cbn [mbind res_bind].
  change (content_of loads (answer (JStr text))) with (loads text). by rewrite Hl.
Qed.

Lemma lookup_errors_escape : escapes IndexError ∧ (∀ m, escapes (AttributeError m)) ∧ ∀ m, escapes (TypeError m).
Proof using Hlibrary.
  clear loads str_exn. destruct Hlibrary as [H _]. unfold caught. cbn [PublicData.value_error_b]. rewrite !orb_false_r.
  split_and!; [|intros m; rewrite !orb_false_r..]; match goal with |- ?b = false => destruct b eqn:E; [|done] end; apply H in E as (? & ? & ?); naive_solver.
Qed.

Lemma status_escapes n : escapes (http_status_error n).
Proof using Hlibrary.
  clear loads str_exn. destruct Hlibrary as [_ H]. destruct (H n) as (E1 & E2 & E3). unfold caught. rewrite E1, E2. cbn [orb].
  destruct (http_status_error n); try done. by destruct (E3 key).
Qed.

(** C28. Which failures a briefing survives.  The fallback briefing, with the text of the exception, covers a
    request without an answer, a body that is not JSON, an answer without one of the three keys on the way to
    the text, a text that is not JSON, and an object whose summary is no text; but a status that is an error, an
    empty list of choices, a content that is no text, and a text that is JSON but no object escape from the handler. *)
Theorem briefing_errors packet :
  (∀ e, request_error e = true → brief (λ _, Raise e) packet = fallback e) ∧
  (∀ m, brief (λ _, Ok {| rp_status := 200; rp_json := Raise (ValueError m) |}) packet = fallback (ValueError m)) ∧
  (∀ m : object, m !! "choices" = None →
     brief (λ _, Ok {| rp_status := 200; rp_json := Ok (JObj m) |}) packet = fallback (KeyError "choices")) ∧
  (∀ m : object, m !! "message" = None →
     brief (λ _, Ok {| rp_status := 200; rp_json := Ok (JObj {[ "choices" := JArr [JObj m] ]}) |}) packet = fallback (KeyError "message")) ∧
  (∀ m : object, m !! "content" = None →
     brief (λ _, Ok {| rp_status := 200; rp_json := Ok (JObj {[ "choices" := JArr [JObj {[ "message" := JObj m ]}] ]}) |}) packet = fallback (KeyError "content")) ∧
  (∀ text m, loads text = Raise (ValueError m) →
     brief (λ _, Ok {| rp_status := 200; rp_json := Ok (answer (JStr text)) |}) packet = fallback (ValueError m)) ∧
  (∀ text (m : object) v, loads text = Ok (JObj m) → m !! "executive_summary" = Some v → (∀ s, v ≠ JStr s) →
     brief (λ _, Ok {| rp_status := 200; rp_json := Ok (answer (JStr text)) |}) packet = fallback (ValidationError "string_type")) ∧
  (∀ n data, ¬ 200 <= n <= 299 → brief (λ _, Ok {| rp_status := n; rp_json := data |}) packet = Raise (http_status_error n)) ∧
  brief (λ _, Ok {| rp_status := 200; rp_json := Ok (JObj {[ "choices" := JArr [] ]}) |}) packet = Raise IndexError ∧
  (∀ v, (∀ s, v ≠ JStr s) → ∃ m, brief (λ _, Ok {| rp_status := 200; rp_json := Ok (answer v) |}) packet = Raise (TypeError m)) ∧
  (∀ text v, loads text = Ok v → (∀ m, v ≠ JObj m) →
     ∃ m, brief (λ _, Ok {| rp_status := 200; rp_json := Ok (answer (JStr text)) |}) packet = Raise (AttributeError m)).
Proof using Hlibrary.
  destruct lookup_errors_escape as (EI & EA & ET).
  assert (∀ k, caught request_error (KeyError k) = true) as CK by (intros k; unfold caught; by rewrite orb_true_r).
  assert (∀ m, caught request_error (ValueError m) = true) as CV by (intros m; unfold caught; by rewrite orb_true_r).
  assert (∀ m, caught request_error (ValidationError m) = true) as CW by (intros m; unfold caught; by rewrite orb_true_r).
  split_and!.
  - intros e He. rewrite (brief_raises _ _ e) by reflexivity. unfold caught. by rewrite He.
  - intros m. rewrite (content_raises _ _ (ValueError m)) by reflexivity. by rewrite CV.
  - intros m Hm. rewrite (content_raises _ _ (KeyError "choices")); [by rewrite CK|done|]. cbn. unfold Telemetry.item. by rewrite Hm.
  - intros m Hm. rewrite (content_raises _ _ (KeyError "message")); [by rewrite CK|done|]. cbn [rp_json mbind res_bind]. unfold content_of.
    change (item_str (JObj {[ "choices" := JArr [JObj m] ]}) "choices") with (Ok (JArr [JObj m])). cbn. unfold Telemetry.item. by rewrite Hm.
  - intros m Hm. rewrite (content_raises _ _ (KeyError "content")); [by rewrite CK|done|]. cbn [rp_json mbind res_bind]. unfold content_of.
    change (item_str (JObj {[ "choices" := ?x ]}) "choices") with (Ok (A:=json) x). cbn [mbind res_bind item_zero].
    change (item_str (JObj {[ "message" := ?x ]}) "message") with (Ok (A:=json) x). cbn. unfold Telemetry.item. by rewrite Hm.
  - intros text m Hl. rewrite (content_raises _ _ (ValueError m)); [by rewrite CV|done|]. cbn [rp_json mbind res_bind].
    change (content_of loads (answer (JStr text))) with (loads text). done.
  - intros text m v Hl Hv Hs. rewrite (answer_read text packet (JObj m) Hl). cbn. rewrite Hv. cbn.
    assert (a_string v = Raise (ValidationError "string_type")) as -> by (destruct v; try done; by destruct (Hs s)). cbn. by rewrite CW.
  - intros n data Hn. rewrite (brief_raises _ _ (http_status_error n)); [by rewrite status_escapes|]. cbn [mbind res_bind]. unfold data_of. cbn [rp_status].
    assert ((200 <=? n) && (n <=? 299) = false) as -> by (destruct (Z.leb_spec 200 n), (Z.leb_spec n 299); try done; lia). done.
  - rewrite (content_raises _ _ IndexError) by reflexivity. by rewrite EI.
  - intros v Hv. exists "the JSON object must be str, bytes or bytearray".
    rewrite (content_raises _ _ (TypeError "the JSON object must be str, bytes or bytearray")); [by rewrite ET|done|]. cbn [rp_json mbind res_bind].
    unfold content_of. change (item_str (answer v) "choices") with (Ok (JArr [JObj (message_of v)])). cbn [mbind res_bind item_zero].
    change (item_str (JObj (message_of v)) "message") with (Ok (JObj {[ "content" := v ]})). cbn [mbind res_bind].
    change (item_str (JObj {[ "content" := v ]}) "content") with (Ok v). cbn [mbind res_bind]. destruct v; try done. by destruct (Hv s).
  - intros text v Hl Hv. exists "object has no attribute 'get'". rewrite (answer_read text packet v Hl).
    assert (get v "executive_summary" (JStr "Briefing generation failed.") = Raise (AttributeError "object has no attribute 'get'")) as ->
      by (destruct v; try done; by destruct (Hv m)). cbn [mbind res_bind]. by rewrite EA.
Qed.
End briefings.

(** ** Witnesses *)

Definition sample_assessment : CorridorAssessment :=
  {| ca_assessment_id := "a"; ca_corridor_id := "northwest"; ca_generated_at := Sources.utc 0; ca_overall_risk := lit 0.6; ca_confidence := f1;
     ca_state := CS_OPEN_DEGRADED;
     ca_factors := [{| fa_factor := CF_WEATHER; fa_risk := lit 0.3; fa_confidence := f1; fa_evidence_ids := []; fa_rationale := "" |};
                    {| fa_factor := CF_CYBER; fa_risk := lit 0.9; fa_confidence := f1; fa_evidence_ids := []; fa_rationale := "intrusion" |}];
     ca_missing_required_metrics := []; ca_caveats := [] |}.

Definition sample_packet : DecisionPacket :=
  {| dp_contract_version := "decision-packet/1.0"; dp_packet_id := "d"; dp_generated_at := Sources.utc 0; dp_corridor_id := "northwest";
     dp_assessment := sample_assessment;
     dp_dependency_assessment := {| ga_graph_id := "g"; ga_failed_nodes := []; ga_impacted_nodes := []; ga_total_weighted_impact := f0;
                                    ga_provider_concentration := []; ga_single_points_of_failure := [] |};
     dp_plan := {| cp_plan_id := "p"; cp_assessment_id := "a"; cp_selected_actions := []; cp_total_cost := f0;
                   cp_projected_continuity := lit 0.4; cp_projected_risk := lit 0.6; cp_objective_met := false;
                   cp_deterministic_solver := "exact"; cp_approval_required := true; cp_rejected_reason := None |};
     dp_evidence_manifest := Decision.example_manifest; dp_approval_required := true; dp_human_action_boundary := "human" |}.

Lemma forecast_bounds_witness : ∃ r, forecast "f" (chain_graph chain_edges) "e" [("a", lit 0.9)] = Ok r ∧
  is_score (cf_failure_probability r) = true.
Proof.
  assert (graph_nodes (chain_graph chain_edges) ≠ []) as H1 by (intros E; discriminate E).
  assert (graph_valid (chain_graph chain_edges) = true) as H2 by (vm_compute; reflexivity).
  destruct (forecast_bounds "f" (chain_graph chain_edges) "e" [("a", lit 0.9)] H1 H2) as (r & E & _ & S & _).
  exists r. exact (conj E S).
Defined.

Lemma forecast_monotone_witness : ∃ r1 r2,
  forecast "f" (chain_graph chain_edges) "e" [("a", lit 0.2)] = Ok r1 ∧ forecast "f" (chain_graph chain_edges) "e" [("a", lit 0.9)] = Ok r2 ∧
  fleb (cf_failure_probability r1) (cf_failure_probability r2) = true ∧ cf_high_risk_upstream_nodes r1 ≠ cf_high_risk_upstream_nodes r2.
Proof.
  assert (graph_valid (chain_graph chain_edges) = true) as H by (vm_compute; reflexivity).
  assert (evidence_leb [("a", lit 0.2)] [("a", lit 0.9)]) as Ho.
  { constructor; [|constructor]. split; vm_compute; reflexivity. }
  destruct (forecast "f" (chain_graph chain_edges) "e" [("a", lit 0.2)]) as [r1|e] eqn:E1; [|vm_compute in E1; discriminate E1].
  destruct (forecast "f" (chain_graph chain_edges) "e" [("a", lit 0.9)]) as [r2|e] eqn:E2; [|vm_compute in E2; discriminate E2].
  pose proof (forecast_monotone "f" (chain_graph chain_edges) "e" _ _ r1 r2 H Ho E1 E2) as (M & _).
  exists r1, r2. split; [reflexivity|]. split; [reflexivity|]. split; [exact M|].
  vm_compute in E1, E2. injection E1 as <-. injection E2 as <-. cbn [cf_high_risk_upstream_nodes]. discriminate.
Defined.

(** A total failure at the head of the chain, and none: the end of the chain is as before. *)
Lemma forecast_three_hops_witness : ∃ r1 r2,
  forecast "f" (chain_graph (reverse chain_edges)) "e" [("a", lit 0.99)] = Ok r1 ∧ forecast "f" (chain_graph (reverse chain_edges)) "e" [] = Ok r2 ∧
  cf_failure_probability r1 = cf_failure_probability r2.
Proof.
  assert (graph_valid (chain_graph (reverse chain_edges)) = true) as H by (vm_compute; reflexivity).
  assert ("e" ∈ node_ids (chain_graph (reverse chain_edges))) as Ht by (apply (bool_decide_unpack _); vm_compute; exact I).
  assert (downstream_first [] (adj_parents (graph_edges (chain_graph (reverse chain_edges))))) as Hf.
  { assert (adj_parents (graph_edges (chain_graph (reverse chain_edges))) = [("e", [("d", f1)]); ("d", [("c", f1)]); ("c", [("b", f1)]); ("b", [("a", f1)])])
      as -> by (vm_compute; reflexivity).
    cbn [downstream_first]. split_and!; try exact I; intros w ->%list_elem_of_singleton; apply (bool_decide_unpack _); vm_compute; exact I. }
  assert (∀ e, e ∈ graph_edges (chain_graph (reverse chain_edges)) → (edge_target e = "e" ∧ edge_source e = "d") ∨ (edge_target e = "d" ∧ edge_source e = "c") ∨
    (edge_target e = "c" ∧ edge_source e = "b") ∨ (edge_target e = "b" ∧ edge_source e = "a")) as Hs.
  { apply Forall_forall. repeat (constructor; [cbn; tauto|]). constructor. }
  destruct (forecast "f" (chain_graph (reverse chain_edges)) "e" [("a", lit 0.99)]) as [r1|x] eqn:E1; [|vm_compute in E1; discriminate E1].
  destruct (forecast "f" (chain_graph (reverse chain_edges)) "e" []) as [r2|x] eqn:E2; [|vm_compute in E2; discriminate E2].
  exists r1, r2. split; [reflexivity|]. split; [reflexivity|].
  apply (forecast_three_hops "f" (chain_graph (reverse chain_edges)) "e" [("a", lit 0.99)] [] r1 r2 H Ht (NoDup_singleton _) (NoDup_nil_2) Hf); [|exact E1|exact E2].
  intros n Hn. assert (n ≠ "a") as Hna.
  { intros ->. cbn [upstream] in Hn.
    repeat match goal with X : _ ∨ _ |- _ => destruct X | X : ∃ _, _ |- _ => destruct X | X : _ ∧ _ |- _ => destruct X | X : _ ∈ _ |- _ => apply Hs in X end; congruence. }
  cbn [dget]. destruct (decide (n = "a")); [contradiction|reflexivity].
Defined.

Lemma explain_ranks_factors_witness : ∃ r, explain sample_assessment = Ok r ∧ xa_top_risk_driver r = CF_CYBER.
Proof.
  assert (Forall (λ a, is_score (fa_risk a) = true) (ca_factors sample_assessment)) as H by (repeat constructor).
  destruct (explain_ranks_factors sample_assessment H) as (r & E & _). exists r. split; [exact E|].
  assert (match explain sample_assessment with Ok r => xa_top_risk_driver r | Raise _ => CF_WEATHER end = CF_CYBER) as T by (vm_compute; reflexivity).
  rewrite E in T. exact T.
Defined.

Lemma briefing_errors_witness :
  generate_briefing (λ _, Ok JNull) (λ _, "") (λ e, match e with OverflowError => true | _ => false end) (λ _, RuntimeError "HTTPStatusError")
    (λ _, Ok {| rp_status := 503; rp_json := Ok JNull |}) sample_packet = Raise (RuntimeError "HTTPStatusError").
Proof.
  assert (library_errors (λ e, match e with OverflowError => true | _ => false end) (λ _, RuntimeError "HTTPStatusError")) as H.
  { split.
    - intros e He. destruct e; try discriminate He. split; [discriminate|split; intros m; discriminate].
    - intros n. split; [reflexivity|split; [reflexivity|intros k; discriminate]]. }
  destruct (briefing_errors (λ _, Ok JNull) (λ _, "") _ _ H sample_packet) as (_ & _ & _ & _ & _ & _ & _ & Hs & _).
  apply (Hs 503 (Ok JNull)). lia.
Defined.
