(* ===== verification/Posture.v ===== *)
(** * attestation.py, hsm.py, allied_defense.py, cop.py, hub.py: certificates and exports

    The facility attestation, the key token, the compliance audit, the exports of a corridor
    to tactical displays and the catalogue of corridors.  SHA-256, Ed25519 and the
    environment are arguments; the XML writer of the standard library is modelled. *)

From Stdlib Require Import ZArith QArith Lqa Ascii.
From S2P Require Import Prelude PyFloat FloatError PyFormat Domain.
From S2P Require Crypto PublicData.

Open Scope Z_scope.

(** ** Facility attestation *)

Record AttestationStatus := {
  at_control_id : string;
  at_control_name : string;
  at_is_compliant : bool;
  at_details : string;
  at_score : float
}.

Record SCIFAttestationCertificate := {
  sc_certificate_id : string;
  sc_scif_facility_id : string;
  sc_facility_name : string;
  sc_issued_at : datetime;
  sc_overall_compliance_score : float;
  sc_is_scif_certified : bool;
  sc_control_checks : list AttestationStatus;
  sc_hardware_pcr_quote_hash : string;
  sc_certificate_signature_hex : string;
  sc_attestation_verdict : string
}.

Definition new_AttestationStatus (a : AttestationStatus) : res AttestationStatus := _ ← require (is_score (at_score a)) "score"; Ok a.

Definition new_SCIFAttestationCertificate (c : SCIFAttestationCertificate) : res SCIFAttestationCertificate :=
  _ ← require (is_score (sc_overall_compliance_score c)) "overall_compliance_score"; Ok c.

Definition default_pcrs : list (Z * string) :=
  [(0, "e3b0c44298fc1c149afbf4c8996fb92427ae41e4649b934ca495991b7852b855");
   (7, "f7a26f8d30e46ff87e14d3f58a36c5898858e99805561a1de0681c7ff9288e0b")].

(** [sorted(d.items())] of a dictionary: its keys are distinct. *)
Definition by_key (a b : Z * string) : bool := a.1 <=? b.1.

Definition pcr_combined (measurements : list (Z * string)) : string :=
  str_join "" ((λ kv : Z * string, str_Z kv.1 +:+ ":" +:+ kv.2) <$> sort_by by_key measurements).

Definition controls (pcr_hash : string) (outbound : Z) (secure_boot zeroization : bool) (entropy : Z) (throughput : float)
    : list AttestationStatus :=
  let zero_egress := outbound =? 0 in
  let entropy_ok := 65536 <=? entropy in
  [{| at_control_id := "TPM-2.0-PCR"; at_control_name := "TPM 2.0 Hardware Root of Trust PCR Measurement"; at_is_compliant := true;
      at_details := "Valid PCR[0,7] quote verified against baseline (" +:+ String.substring 0 16 pcr_hash +:+ "...)"; at_score := f1 |};
   {| at_control_id := "AIRGAP-ZERO-EGRESS"; at_control_name := "Zero-Egress Physical Network Isolation"; at_is_compliant := zero_egress;
      at_details := if zero_egress then "No non-local outbound network sockets detected (100% air-gap isolation)"
                    else "VIOLATION: " +:+ str_Z outbound +:+ " outbound interfaces";
      at_score := if zero_egress then f1 else f0 |};
   {| at_control_id := "SECURE-BOOT-LOCKDOWN"; at_control_name := "UEFI Secure Boot & Kernel Lockdown Mode"; at_is_compliant := secure_boot;
      at_details := "Kernel integrity lockdown active; unsigned kernel modules prohibited"; at_score := if secure_boot then f1 else f0 |};
   {| at_control_id := "MEM-ZEROIZATION"; at_control_name := "Deterministic Cryptographic Key Zeroization on SIGTERM/Panic";
      at_is_compliant := zeroization; at_details := "Volatile key material overwritten with CSPRNG entropy upon process exit";
      at_score := if zeroization then f1 else f0 |};
   {| at_control_id := "HARDWARE-ENTROPY"; at_control_name := "Hardware TRNG / CSPRNG Entropy Rate"; at_is_compliant := entropy_ok;
      at_details := "Entropy pool throughput: " +:+ fmt_fixed 1 throughput +:+ " KB/s"; at_score := if entropy_ok then f1 else lit 0.5 |}].

Section attestation.
Context (sha256 : string → string) (certificate_id : string) (now : datetime).

Definition signature_of (facility_id pcr_hash : string) (score : float) (certified : bool) : string :=
  Crypto.hexdigest sha256 (facility_id +:+ ":" +:+ pcr_hash +:+ ":" +:+ str_float score +:+ ":" +:+ str_bool certified)
  +:+ "00112233445566778899aabbccddeeff".

Definition perform_attestation (facility_id facility_name : string) (tpm_pcr_measurements : option (list (Z * string)))
    (outbound_network_interfaces_detected entropy_rate_bytes_per_sec : Z) (secure_boot_enabled memory_zeroization_verified : bool)
    : res SCIFAttestationCertificate :=
  let pcr_hash := Crypto.hexdigest sha256 (pcr_combined (default default_pcrs tpm_pcr_measurements)) in
  throughput ← int_div entropy_rate_bytes_per_sec 1024;
  checks ← mapM_res new_AttestationStatus
    (controls pcr_hash outbound_network_interfaces_detected secure_boot_enabled memory_zeroization_verified entropy_rate_bytes_per_sec throughput);
  overall_score ← fdiv (fsum (at_score <$> checks)) (f_of_Z (Z.of_nat (length checks)));
  let is_certified := forallb at_is_compliant checks in
  new_SCIFAttestationCertificate
    {| sc_certificate_id := certificate_id; sc_scif_facility_id := facility_id; sc_facility_name := facility_name; sc_issued_at := now;
       sc_overall_compliance_score := fround 3 overall_score; sc_is_scif_certified := is_certified; sc_control_checks := checks;
       sc_hardware_pcr_quote_hash := pcr_hash; sc_certificate_signature_hex := signature_of facility_id pcr_hash overall_score is_certified;
       sc_attestation_verdict :=
         if is_certified then "SCIF Facility '" +:+ facility_name +:+ "' (" +:+ facility_id +:+ ") is FULLY CERTIFIED. Overall compliance index: "
           +:+ fmt_fixed 1 (overall_score * lit 100)%F +:+ "%."
         else "SCIF Attestation FAILED for '" +:+ facility_name +:+ "'. Controls non-compliant." |}.
End attestation.

(** ** Key token *)

Record HSMStatus := {
  hs_is_hardware_backed : bool;
  hs_hsm_device_name : string;
  hs_fips_mode : bool;
  hs_pkcs11_slot_id : Z;
  hs_trng_entropy_rate_kb_s : float;
  hs_firmware_version : string;
  hs_active_key_count : Z;
  hs_health_verdict : string
}.

(** [os.path.basename(p)]: what follows the last slash. *)
Fixpoint basename (p : string) : string :=
  match p with
  | EmptyString => EmptyString
  | String c rest => if PublicData.str_in "/" p then basename rest else p
  end.

Section hsm.
Context {private_key public_key : Type} (public_of : private_key → public_key) (ed_sign : private_key → string → string)
  (ed_verify : public_key → string → string → bool) (raw_bytes : public_key → string).

Record HSMInterface := {
  hi_device_type : string;
  hi_slot_id : Z;
  hi_is_hardware : bool;
  hi_device_name : string;
  hi_private_key : private_key;
  hi_public_key : public_key
}.

(** [key] is the key that [generate()] draws, [lib_path] the variable of the environment. *)
Definition new_HSMInterface (key : private_key) (lib_path : option string) (exists_ : string → bool) (device_type : string) (slot_id : Z)
    : HSMInterface :=
  let bound := match lib_path with Some p => if negb (str_empty p) && exists_ p then Some p else None | None => None end in
  {| hi_device_type := device_type; hi_slot_id := slot_id; hi_is_hardware := match bound with Some _ => true | None => false end;
     hi_device_name := match bound with Some p => "PKCS#11 Physical HSM (" +:+ basename p +:+ ")"
                                      | None => "FIPS-Validated Software CSPRNG (Ed25519)" end;
     hi_private_key := key; hi_public_key := public_of key |}.

Definition get_status (h : HSMInterface) : HSMStatus :=
  {| hs_is_hardware_backed := hi_is_hardware h; hs_hsm_device_name := hi_device_name h; hs_fips_mode := true;
     hs_pkcs11_slot_id := hi_slot_id h; hs_trng_entropy_rate_kb_s := lit 1024; hs_firmware_version := "3.2.0-FIPS";
     hs_active_key_count := 1; hs_health_verdict := "OPERATIONAL" |}.

Definition sign_payload (h : HSMInterface) (data : string) : string := ed_sign (hi_private_key h) data.
Definition verify_signature (h : HSMInterface) (signature data : string) : bool := ed_verify (hi_public_key h) signature data.
Definition get_public_key_hex (h : HSMInterface) : string := Crypto.hex (raw_bytes (hi_public_key h)).
End hsm.

(** ** Compliance audit *)

Record STIGFinding := {
  sf_stig_id : string;
  sf_control : string;
  sf_title : string;
  sf_severity : string;
  sf_status : string;
  sf_rationale : string;
  sf_module_provenance : string
}.

Record DoDILComplianceReport := {
  dl_assessment_id : string;
  dl_evaluated_at : datetime;
  dl_impact_level_target : string;
  dl_is_accredited : bool;
  dl_compliance_score : float;
  dl_total_checks : Z;
  dl_findings : list STIGFinding;
  dl_verdict : string
}.

Definition stig_findings : list STIGFinding :=
  [{| sf_stig_id := "V-205601"; sf_control := "AC-2/AC-3";
      sf_title := "Strict Enclave Separation and CAC/PKI Multi-Factor Authentication";
      sf_severity := "CAT_I"; sf_status := "NOT_A_FINDING";
      sf_rationale := "Sovereign RBAC and X.509 client certificate authentication strictly enforced.";
      sf_module_provenance := "continuityos.sso & continuityos.rbac" |};
   {| sf_stig_id := "V-205602"; sf_control := "SC-13/SC-28";
      sf_title := "FIPS 140-3 Cryptographic Key Protection at Rest and in Transit";
      sf_severity := "CAT_I"; sf_status := "NOT_A_FINDING";
      sf_rationale := "Post-Quantum ML-KEM/ML-DSA hybrid envelopes and PKCS#11 HSM interfaces active.";
      sf_module_provenance := "continuityos.crypto & continuityos.hsm" |};
   {| sf_stig_id := "V-205603"; sf_control := "AU-9";
      sf_title := "Cryptographic Protection of Audit Records Against Tampering";
      sf_severity := "CAT_II"; sf_status := "NOT_A_FINDING";
      sf_rationale := "RFC 6962 append-only Merkle tree hash chain with Ed25519 digital signatures.";
      sf_module_provenance := "continuityos.evidence" |};
   {| sf_stig_id := "V-205604"; sf_control := "AC-4";
      sf_title := "Cross-Domain Hardware Diode Flow Enforcement";
      sf_severity := "CAT_I"; sf_status := "NOT_A_FINDING";
      sf_rationale := "CrossDomainFilter sanitizing and stripping classification across security enclaves.";
      sf_module_provenance := "continuityos.sovereign.CrossDomainFilter" |};
   {| sf_stig_id := "V-205605"; sf_control := "CP-2";
      sf_title := "Disruption Contingency and Zero-Cloud Air-Gapped Operation";
      sf_severity := "CAT_II"; sf_status := "NOT_A_FINDING";
      sf_rationale := "100% offline runtime capability with zero required foreign network dependencies.";
      sf_module_provenance := "continuityos.sovereign.AirGapAuditor" |};
   {| sf_stig_id := "V-205606"; sf_control := "SI-4";
      sf_title := "Cyber-Physical Information System Telemetry and Electronic Warfare Monitoring";
      sf_severity := "CAT_II"; sf_status := "NOT_A_FINDING";
      sf_rationale := "ThreatDetectionEngine active for GNSS EW spoofing, AIS jumping, and SCADA floods.";
      sf_module_provenance := "continuityos.threat" |}].

Definition audit_system (now : datetime) (target_level : string) : DoDILComplianceReport :=
  let open_cat1 := List.filter (λ f, str_eqb (sf_status f) "OPEN" && str_eqb (sf_severity f) "CAT_I") stig_findings in
  let is_accredited := Nat.eqb (length open_cat1) 0 in
  {| dl_assessment_id := "DOD-IL-AUDIT-2026"; dl_evaluated_at := now; dl_impact_level_target := target_level; dl_is_accredited := is_accredited;
     dl_compliance_score := if is_accredited then f1 else lit 0.50; dl_total_checks := Z.of_nat (length stig_findings);
     dl_findings := stig_findings;
     dl_verdict := "Deployment satisfies US DoD " +:+ target_level +:+ " (FedRAMP High / SIPRNet / JWICS) baseline. "
       +:+ "Zero open CAT I findings detected." |}.

(** ** XML documents *)

Inductive xml := Element (tag : string) (attributes : list (string * string)) (text : string) (children : list xml).

Definition escape_attrib_char (c : ascii) : string :=
  if Ascii.eqb c "&" then "&amp;" else if Ascii.eqb c "<" then "&lt;" else if Ascii.eqb c ">" then "&gt;"
  else if Ascii.eqb c quote2 then "&quot;" else if Ascii.eqb c (ascii_of_N 13) then "&#13;"
  else if Ascii.eqb c (ascii_of_N 10) then "&#10;" else if Ascii.eqb c (ascii_of_N 9) then "&#09;" else String c EmptyString.

Definition escape_cdata_char (c : ascii) : string :=
  if Ascii.eqb c "&" then "&amp;" else if Ascii.eqb c "<" then "&lt;" else if Ascii.eqb c ">" then "&gt;" else String c EmptyString.

Fixpoint escape (f : ascii → string) (s : string) : string :=
  match s with EmptyString => EmptyString | String c s => f c +:+ escape f s end.

Definition q2 : string := String quote2 EmptyString.

Definition attribute_text (kv : string * string) : string := " " +:+ kv.1 +:+ "=" +:+ q2 +:+ escape escape_attrib_char kv.2 +:+ q2.

(** [ET.tostring] with short empty elements. *)
Fixpoint element_text (e : xml) : string :=
  match e with
  | Element tag attributes text children =>
      "<" +:+ tag +:+ str_join "" (attribute_text <$> attributes)
      +:+ (if str_empty text && match children with [] => true | _ => false end then " />"
           else ">" +:+ escape escape_cdata_char text +:+ str_join "" (List.map element_text children) +:+ "</" +:+ tag +:+ ">")
  end.

Definition tostring (e : xml) : string := "<?xml version='1.0' encoding='utf-8'?>" +:+ newline +:+ element_text e.

(** ** Cursor on target *)

(** [d.strftime("%Y-%m-%dT%H:%M:%SZ")]; the year is not padded. *)
Definition strftime_z (us : Z) : string :=
  let day := 86400000000 in
  let '(y, m, dd) := civil_from_days (us / day) in
  let seconds := us mod day / 1000000 in
  str_Z y +:+ "-" +:+ digits 2 m +:+ "-" +:+ digits 2 dd +:+ "T" +:+ digits 2 (seconds / 3600) +:+ ":" +:+ digits 2 (seconds / 60 mod 60)
  +:+ ":" +:+ digits 2 (seconds mod 60) +:+ "Z".

(** [datetime.fromtimestamp(t, tz=UTC)] as microseconds: the fraction of a second is rounded.
    Outside the years 1 to 9999 the class of the exception depends on the distance;
    here it is one. *)
Definition fromtimestamp (t : float) : res Z :=
  match t with
  | NaN => Raise (ValueError "cannot convert float NaN to integer")
  | Inf _ => Raise OverflowError
  | Fin q =>
      let whole := Z.quot (Qnum q) (Zpos (Qden q)) in
      match fl ((q - inject_Z whole) * inject_Z 1000000) with
      | Fin f => let us := whole * 1000000 + rne f in
          if (-62135596800000000 <=? us) && (us <? 253402300800000000) then Ok us else Raise (ValueError "year is out of range")
      | _ => Raise OverflowError
      end
  end.

Definition cot_type (state : CorridorState) : string :=
  match state with
  | CS_PHYSICALLY_CLOSED | CS_FUNCTIONALLY_CLOSED => "a-h-G-I-U-T"
  | CS_OPEN_DEGRADED | CS_OPEN_BUT_NAVIGATION_UNTRUSTED | CS_OPEN_BUT_UNINSURABLE => "a-u-G-I-U-T"
  | _ => "a-f-G-I-U-T"
  end.

Definition cot_event (corridor_id corridor_name : string) (lat lon : float) (state : CorridorState) (now_str stale_str : string) : xml :=
  Element "event" [("version", "2.0"); ("uid", "continuityos." +:+ corridor_id); ("type", cot_type state); ("how", "m-g");
                   ("time", now_str); ("start", now_str); ("stale", stale_str)] ""
    [Element "point" [("lat", fmt_fixed 6 lat); ("lon", fmt_fixed 6 lon); ("hae", "0.0"); ("ce", "10.0"); ("le", "10.0")] "" [];
     Element "detail" [] ""
       [Element "contact" [("callsign", "CORRIDOR-" +:+ str_upper corridor_name); ("endpoint", "127.0.0.1:8082")] "" [];
        Element "status" [("readiness", CorridorState_value state); ("platform", "ContinuityOS")] "" [];
        Element "remarks" []
          ("Operational state: " +:+ CorridorState_value state +:+ ". Verified by Continuity-as-Code exact solver.") []]].

Definition export_cot_xml (now : datetime) (corridor_id corridor_name : string) (lat lon : float) (state : CorridorState)
    (stale_minutes : float) : res string :=
  timestamp ← int_div (dt_us now) 1000000;
  stale ← fromtimestamp (timestamp + stale_minutes * lit 60)%F;
  Ok (tostring (cot_event corridor_id corridor_name lat lon state (strftime_z (dt_us now)) (strftime_z stale))).

Definition cot_type_json (state : CorridorState) : string := match state with CS_OPEN => "a-f-G-I-U-T" | _ => "a-u-G-I-U-T" end.

Definition export_cot_json (now : datetime) (corridor_id corridor_name : string) (lat lon : float) (state : CorridorState) : pyval :=
  VDict [("type", VStr "Feature"); ("id", VStr ("cot:" +:+ corridor_id));
         ("geometry", VDict [("type", VStr "Point"); ("coordinates", VList [VFloat lon; VFloat lat])]);
         ("properties", VDict [("callsign", VStr ("CORRIDOR-" +:+ str_upper corridor_name)); ("effective_state", VStr (CorridorState_value state));
                               ("cot_type", VStr (cot_type_json state)); ("stale_at", VStr (isoformat now));
                               ("solver_provenance", VStr "ContinuityOS Tactical C2 Engine")])].

(** ** Link 16 *)

Record Link16TrackReport := {
  lt_track_number : string;
  lt_identity : string;
  lt_corridor_name : string;
  lt_latitude : float;
  lt_longitude : float;
  lt_speed_knots : float;
  lt_altitude_feet : float;
  lt_operational_status : string;
  lt_gnss_jamming_active : bool;
  lt_emcon_stealth_active : bool;
  lt_timestamp : datetime
}.

Definition identity_of (state : CorridorState) : string :=
  match state with
  | CS_PHYSICALLY_CLOSED | CS_FUNCTIONALLY_CLOSED => "HOSTILE"
  | CS_OPEN => "FRIEND"
  | _ => "SUSPECT"
  end.

Definition generate_track_report (now : datetime) (corridor_name : string) (lat lon : float) (state : CorridorState) (track_num : string)
    : Link16TrackReport :=
  {| lt_track_number := track_num; lt_identity := identity_of state; lt_corridor_name := corridor_name; lt_latitude := lat;
     lt_longitude := lon; lt_speed_knots := f0; lt_altitude_feet := f0; lt_operational_status := CorridorState_value state;
     lt_gnss_jamming_active := bool_decide (state = CS_OPEN_BUT_NAVIGATION_UNTRUSTED); lt_emcon_stealth_active := false; lt_timestamp := now |}.

(** ** Common operating picture *)

Record symbology := symbol {
  sy_sidc : string;
  sy_symbol_name : string;
  sy_condition : string;
  sy_color : string
}.

Definition MIL_STD_2525_SIDCS (state : CorridorState) : option symbology :=
  match state with
  | CS_OPEN => Some (symbol "10033000001201000000" "Maritime Transit Lane - Operational (Friend/Green)" "Fully Capable" "#00FF00")
  | CS_OPEN_DEGRADED => Some (symbol "10033000001202000000" "Maritime Transit Lane - Degraded (Yellow)" "Damaged / Degraded" "#FFFF00")
  | CS_OPEN_CAPACITY_CONSTRAINED => Some (symbol "10033000001203000000" "Maritime Transit Lane - Capacity Constrained (Yellow/Amber)" "Throughput Constrained" "#FFA500")
  | CS_OPEN_BUT_UNINSURABLE => Some (symbol "10043000001204000000" "Maritime Transit Lane - Uninsurable (Orange)" "Commercial Failure" "#FF8C00")
  | CS_OPEN_BUT_NO_CARRIER_CAPACITY => Some (symbol "10043000001205000000" "Maritime Transit Lane - Carrier Diverted (Orange)" "Logistics Abandoned" "#FF7F50")
  | CS_OPEN_BUT_NAVIGATION_UNTRUSTED => Some (symbol "10043000001206000000" "Maritime Transit Lane - PNT/GNSS Spoofed (Purple/Red)" "Navigation Denied" "#800080")
  | CS_OPEN_BUT_COMMUNICATIONS_DEGRADED => Some (symbol "10043000001207000000" "Maritime Transit Lane - SATCOM Denied (Blue/Red)" "Communications Severed" "#4682B4")
  | CS_FUNCTIONALLY_CLOSED => Some (symbol "10063000001208000000" "Maritime Transit Lane - Functionally Closed (Red)" "Impassable / Denied" "#FF0000")
  | CS_PHYSICALLY_CLOSED => Some (symbol "10063000001209000000" "Maritime Transit Lane - Physically Blocked (Dark Red)" "Destroyed / Impassable" "#8B0000")
  | _ => None
  end.

Definition unknown_symbol : symbology := symbol "10043000000000000000" "Unknown Corridor Condition" "Unknown" "#808080".

(** [f.model_dump(mode="json")] *)
Definition dump_factor (f : FactorAssessment) : pyval :=
  VDict [("factor", VStr (CorridorFactor_value (fa_factor f))); ("risk", VFloat (fa_risk f)); ("confidence", VFloat (fa_confidence f));
         ("evidence_ids", VList (VStr <$> fa_evidence_ids f)); ("rationale", VStr (fa_rationale f))].

Definition line_string (points : list (list float)) : pyval :=
  VDict [("type", VStr "LineString"); ("coordinates", VList ((λ p, VList (VFloat <$> p)) <$> points))].

Definition export_cop_feature (corridor_id : string) (assessment : CorridorAssessment) (coordinates : option (list (list float)))
    (security_banner : string) : pyval :=
  let state := ca_state assessment in
  let symbology := default unknown_symbol (MIL_STD_2525_SIDCS state) in
  let geometry := match coordinates with
                  | Some (p :: points) => line_string (p :: points)
                  | _ => line_string [[lit 33.08; lit 68.95]; [lit 40; lit 70]; [lit 60; lit 75]; [lit 72.07; lit 71.27]]
                  end in
  VDict [("type", VStr "Feature"); ("id", VStr corridor_id); ("geometry", geometry);
    ("properties", VDict [
      ("corridor_id", VStr corridor_id); ("corridor_state", VStr (CorridorState_value state)); ("overall_risk", VFloat (ca_overall_risk assessment));
      ("confidence", VFloat (ca_confidence assessment)); ("mil_std_2525_sidc", VStr (sy_sidc symbology));
      ("mil_std_2525_name", VStr (sy_symbol_name symbology)); ("operational_condition", VStr (sy_condition symbology));
      ("map_color", VStr (sy_color symbology)); ("security_classification_banner", VStr security_banner);
      ("factors", VList (dump_factor <$> ca_factors assessment)); ("caveats", VList (VStr <$> ca_caveats assessment))])].

Definition export_cop_feature_collection (features : list pyval) : pyval :=
  VDict [("type", VStr "FeatureCollection");
    ("properties", VDict [("title", VStr "ContinuityOS Defense Common Operating Picture (COP) Layer");
                          ("symbology_standard", VStr "MIL-STD-2525D / NATO APP-6D"); ("generated_by", VStr "ContinuityOS Sovereign Defense Suite")]);
    ("features", VList features)].

(** ** Catalogue of corridors *)

Record GlobalChokepointModel := chokepoint_at {
  gc_corridor_id : string;
  gc_name : string;
  gc_category : string;
  gc_region : string;
  gc_latitude : float;
  gc_longitude : float;
  gc_annual_tonnage_millions : float;
  gc_primary_threat_vector : string;
  gc_nominal_transit_days : float;
  gc_alternate_route_id : string;
  gc_alternate_transit_days : float;
  gc_current_effective_state : CorridorState;
  gc_resilience_rating : string
}.

(** The state has its default. *)
Definition chokepoint (corridor_id name category region : string) (latitude longitude tonnage : float) (threat : string) (nominal : float)
    (alternate : string) (alternate_days : float) (rating : string) : GlobalChokepointModel :=
  chokepoint_at corridor_id name category region latitude longitude tonnage threat nominal alternate alternate_days CS_OPEN rating.

Definition GLOBAL_CORRIDOR_CATALOG : dict string GlobalChokepointModel :=
  [("malacca-strait",
    chokepoint "corridor/malacca-strait" "Strait of Malacca" "MARITIME_CHOKEPOINT" "Southeast Asia"
      (lit 2.5) (lit 101.5) (lit 1200.0) "Congestion, Piracy & Naval Chokepoint Interdiction"
      (lit 3.0) "corridor/sunda-lombok-bypass" (lit 6.5) "A");
   ("suez-red-sea",
    chokepoint "corridor/suez-red-sea" "Suez Canal & Bab-el-Mandeb" "MARITIME_CHOKEPOINT" "Middle East / Red Sea"
      (lit 29.97) (lit 32.55) (lit 1000.0) "Drone/Missile Anti-Ship Strikes & War-Risk Underwriter Withdrawal"
      (lit 4.0) "corridor/cape-of-good-hope-bypass" (lit 16.0) "BBB");
   ("panama-canal",
    chokepoint "corridor/panama-canal" "Panama Canal Locks" "MARITIME_CHOKEPOINT" "Central America"
      (lit 9.08) (lit (-79.68)) (lit 510.0) "Gatun Lake Freshwater Drought & Vessel Draft Restrictions"
      (lit 2.0) "corridor/us-intermodal-rail-landbridge" (lit 7.0) "A");
   ("hormuz-strait",
    chokepoint "corridor/hormuz-strait" "Strait of Hormuz" "ENERGY_CANAL" "Persian Gulf"
      (lit 26.56) (lit 56.25) (lit 950.0) "Petroleum Tanker Seizures, Mines & GNSS EW Spoofing"
      (lit 2.0) "corridor/east-west-crude-pipeline" (lit 5.0) "BBB");
   ("taiwan-strait",
    chokepoint "corridor/taiwan-strait" "Taiwan Strait Advanced Semiconductor Corridor" "STRATEGIC_MINERALS" "East Asia"
      (lit 24.0) (lit 119.5) (lit 750.0) "Airspace Denial, Maritime Blockades & Foundry Logistics Severance"
      (lit 3.0) "corridor/luzon-east-philippine-bypass" (lit 5.5) "BB");
   ("baltic-danish-straits",
    chokepoint "corridor/baltic-danish-straits" "Baltic Sea & Danish Straits" "MARITIME_CHOKEPOINT" "Northern Europe"
      (lit 55.5) (lit 11.0) (lit 420.0) "Subsea Fiber Cuts, Dark Fleet Collisions & GPS Jamming"
      (lit 3.0) "corridor/kiel-canal-rail-corridor" (lit 4.5) "AA");
   ("rhine-alpine",
    chokepoint "corridor/rhine-alpine" "Rhine-Alpine Inland Heavy Freight Corridor" "INLAND_WATERWAY" "Western Europe"
      (lit 50.15) (lit 7.65) (lit 300.0) "Kaub Gauge Low-Water Barge Groundings & Rail Bottlenecks"
      (lit 4.0) "corridor/betuwe-heavy-rail-freight" (lit 3.5) "AA");
   ("arctic-northwest-passage",
    chokepoint "corridor/arctic-northwest-passage" "Canadian Arctic Northwest Passage & Ring of Fire" "STRATEGIC_MINERALS" "North America (Arctic)"
      (lit 74.0) (lit (-95.0)) (lit 45.0) "Multi-Year Sea-Ice Obstruction, Polar Night & Zero SATCOM"
      (lit 18.0) "corridor/trans-canada-all-weather-rail" (lit 8.0) "A")].

Definition list_corridors (category : option string) : list GlobalChokepointModel :=
  match category with
  | Some c => if str_empty c then GLOBAL_CORRIDOR_CATALOG.*2
              else List.filter (λ m, str_eqb (gc_category m) c) GLOBAL_CORRIDOR_CATALOG.*2
  | None => GLOBAL_CORRIDOR_CATALOG.*2
  end.

Definition pull_corridor (corridor_id : string) : option GlobalChokepointModel :=
  dget GLOBAL_CORRIDOR_CATALOG (PublicData.str_replace "corridor/" "" corridor_id).

(** ** What the certificates and exports say *)

(** The score and the verdict of an attestation depend on four controls; the measurements that the
    root of trust reports are hashed but compared with nothing, and the signature is a digest that anyone computes. *)
Definition controls_hold (outbound entropy : Z) (secure_boot zeroization : bool) : bool :=
  (outbound =? 0) && secure_boot && zeroization && (65536 <=? entropy).

Lemma attestation_scores (z s m e : bool) :
  ∃ x, fdiv (fsum [f1; if z then f1 else f0; if s then f1 else f0; if m then f1 else f0; if e then f1 else lit 0.5]) (f_of_Z 5) = Ok x ∧
    is_score (fround 3 x) = true ∧ (z && s && m && e = true ↔ fround 3 x = f1).
Proof.
  destruct z, s, m, e; (eexists; split; [vm_compute; reflexivity|]; split; [vm_compute; reflexivity|]; split; intros H;
    vm_compute in H |- *; first [reflexivity|discriminate H]).
Qed.

Lemma controls_valid pcr outbound secure_boot zeroization entropy x :
  mapM_res new_AttestationStatus (controls pcr outbound secure_boot zeroization entropy x) = Ok (controls pcr outbound secure_boot zeroization entropy x).
Proof.
  rewrite (mapM_res_ok _ (λ a, a)); [by rewrite list_fmap_id|]. intros a Ha. unfold new_AttestationStatus.
  assert (is_score (at_score a) = true) as ->; [|done]. revert a Ha. apply Forall_forall. unfold controls.
  repeat constructor; cbn; repeat case_match; reflexivity.
Qed.

Lemma attestation_exact sha256 cid now facility name pcrs outbound entropy secure_boot zeroization x :
  int_div entropy 1024 = Ok x →
  ∃ c, perform_attestation sha256 cid now facility name pcrs outbound entropy secure_boot zeroization = Ok c ∧
    sc_is_scif_certified c = controls_hold outbound entropy secure_boot zeroization ∧
    (sc_is_scif_certified c = true ↔ sc_overall_compliance_score c = f1) ∧ length (sc_control_checks c) = 5%nat.
Proof.
  intros Hx. unfold perform_attestation, controls_hold. rewrite Hx. cbn [mbind res_bind]. rewrite controls_valid. cbn [mbind res_bind].
  destruct (attestation_scores (outbound =? 0) secure_boot zeroization (65536 <=? entropy)) as (s & E & S & C).
  change (fdiv (fsum (at_score <$> _)) _) with
    (fdiv (fsum [f1; if outbound =? 0 then f1 else f0; if secure_boot then f1 else f0; if zeroization then f1 else f0;
                 if 65536 <=? entropy then f1 else lit 0.5]) (f_of_Z 5)).
  rewrite E. cbn [mbind res_bind]. unfold new_SCIFAttestationCertificate. cbn [sc_overall_compliance_score]. rewrite S. cbn [require mbind res_bind].
  assert (forallb at_is_compliant (controls (Crypto.hexdigest sha256 (pcr_combined (default default_pcrs pcrs))) outbound secure_boot zeroization entropy x) =
    (outbound =? 0) && secure_boot && zeroization && (65536 <=? entropy)) as F.
  { cbn. by rewrite andb_true_r, !andb_assoc. }
  eexists. split; [reflexivity|]. cbn [sc_is_scif_certified sc_overall_compliance_score sc_control_checks]. rewrite F. done.
Qed.

Lemma signature_public sha256 cid now facility name pcrs outbound entropy secure_boot zeroization c :
  perform_attestation sha256 cid now facility name pcrs outbound entropy secure_boot zeroization = Ok c →
  ∃ score, sc_certificate_signature_hex c = signature_of sha256 facility (sc_hardware_pcr_quote_hash c) score (sc_is_scif_certified c).
Proof.
  unfold perform_attestation, new_SCIFAttestationCertificate. destruct (int_div _ _); cbn [mbind res_bind]; [|done].
  destruct (mapM_res _ _); cbn [mbind res_bind]; [|done]. destruct (fdiv _ _) as [score|]; cbn [mbind res_bind]; [|done].
  destruct (require _ _); cbn [mbind res_bind]; [|done]. intros [= <-]. by exists score.
Qed.

(** Whatever the measurements are, the same facility is certified. *)
Lemma measurements_ignored sha256 cid now facility name pcrs pcrs' outbound entropy secure_boot zeroization :
  (c ← perform_attestation sha256 cid now facility name pcrs outbound entropy secure_boot zeroization; Ok (sc_is_scif_certified c)) =
  (c ← perform_attestation sha256 cid now facility name pcrs' outbound entropy secure_boot zeroization; Ok (sc_is_scif_certified c)).
Proof.
  destruct (int_div entropy 1024) as [x|e] eqn:E.
  - destruct (attestation_exact sha256 cid now facility name pcrs outbound entropy secure_boot zeroization x E) as (c & -> & C & _).
    destruct (attestation_exact sha256 cid now facility name pcrs' outbound entropy secure_boot zeroization x E) as (c' & -> & C' & _).
    cbn. by rewrite C, C'.
  - unfold perform_attestation. by rewrite E.
Qed.

(** A token that found a library reports hardware, but signs with the key it drew itself. *)
Lemma token_signs_in_software {private_key public_key} (public_of : private_key → public_key) ed_sign ed_verify key lib lib' exists_ device slot data :
  (∀ m, ed_verify (public_of key) (ed_sign key m) m = true) →
  let h := new_HSMInterface public_of key lib exists_ device slot in let h' := new_HSMInterface public_of key lib' exists_ device slot in
  sign_payload ed_sign h data = sign_payload ed_sign h' data ∧ verify_signature ed_verify h (sign_payload ed_sign h data) data = true ∧
  hs_fips_mode (get_status h) = true.
Proof. intros H. cbn. split_and!; [done| |done]. apply H. Qed.

(** The audit looks at nothing. *)
Lemma audit_always_accredits now level : dl_is_accredited (audit_system now level) = true ∧ dl_compliance_score (audit_system now level) = f1.
Proof. by vm_compute. Qed.

(** ** Exports *)

Fixpoint no_char (c : ascii) (s : string) : bool :=
  match s with EmptyString => true | String d s => negb (Ascii.eqb c d) && no_char c s end.

Lemma no_char_app c s t : no_char c (s +:+ t) = no_char c s && no_char c t.
Proof. induction s as [|d s IH]; [done|]. cbn. rewrite <-andb_assoc, <-IH. reflexivity. Qed.

(** No value of an attribute ends the attribute or opens an element, whatever the names of a corridor are. *)
Lemma attributes_contained s : no_char "<" (escape escape_attrib_char s) = true ∧ no_char quote2 (escape escape_attrib_char s) = true.
Proof.
  induction s as [|c s [I1 I2]]; [done|]. cbn [escape]. rewrite !no_char_app, I1, I2, !andb_true_r.
  unfold escape_attrib_char. repeat case_match; try done. cbn [no_char]. rewrite !andb_true_r. split.
  - rewrite Ascii.eqb_sym. by apply negb_true_iff.
  - rewrite Ascii.eqb_sym. by apply negb_true_iff.
Qed.

(** The three exports of one state agree on a closed corridor except for the JSON event, and a state that the
    XML event shows as friendly may be suspect on Link 16. *)
Lemma exports_compared state :
  (cot_type state = "a-h-G-I-U-T" ↔ identity_of state = "HOSTILE") ∧
  (identity_of state = "FRIEND" ↔ cot_type_json state = "a-f-G-I-U-T") ∧
  cot_type_json state ≠ "a-h-G-I-U-T".
Proof. destruct state; cbn; split_and!; try split; done. Qed.

Lemma exports_disagree :
  List.filter (λ s, str_eqb (cot_type s) "a-f-G-I-U-T" && str_eqb (identity_of s) "SUSPECT") CorridorState_all =
    [CS_OPEN_CAPACITY_CONSTRAINED; CS_OPEN_BUT_NO_CARRIER_CAPACITY; CS_OPEN_BUT_COMMUNICATIONS_DEGRADED; CS_OPEN_BUT_SERVICE_DEPENDENT;
     CS_RECOVERY_BACKLOGGED; CS_UNKNOWN].
Proof. reflexivity. Qed.

(** The states with a symbol have symbols and colours of their own. *)
Lemma symbols_distinct s s' y y' : MIL_STD_2525_SIDCS s = Some y → MIL_STD_2525_SIDCS s' = Some y' →
  sy_sidc y = sy_sidc y' ∨ sy_color y = sy_color y' → s = s'.
Proof. destruct s, s'; cbn; try done; intros [= <-] [= <-] [E|E]; discriminate E. Qed.

Lemma symbols_missing : List.filter (λ s, negb (bool_decide (is_Some (MIL_STD_2525_SIDCS s)))) CorridorState_all =
  [CS_OPEN_BUT_SERVICE_DEPENDENT; CS_RECOVERY_BACKLOGGED; CS_UNKNOWN].
Proof. reflexivity. Qed.

(** ** Catalogue *)

(** Every corridor is found by its slug and by its identifier, and the categories divide the catalogue. *)
Lemma catalog_pull : Forall (λ kv : string * GlobalChokepointModel, pull_corridor kv.1 = Some kv.2 ∧ pull_corridor (gc_corridor_id kv.2) = Some kv.2)
  GLOBAL_CORRIDOR_CATALOG.
Proof. repeat constructor; vm_compute; reflexivity. Qed.

Lemma catalog_categories m : m ∈ list_corridors None ↔
  ∃ c, c ∈ ["MARITIME_CHOKEPOINT"; "ENERGY_CANAL"; "STRATEGIC_MINERALS"; "INLAND_WATERWAY"] ∧ m ∈ list_corridors (Some c).
Proof.
  assert (Forall (λ m, gc_category m ∈ ["MARITIME_CHOKEPOINT"; "ENERGY_CANAL"; "STRATEGIC_MINERALS"; "INLAND_WATERWAY"]) (list_corridors None)) as H.
  { apply Forall_forall. intros x Hx. apply (bool_decide_unpack _). revert x Hx. apply Forall_forall. repeat constructor. }
  rewrite Forall_forall in H. split.
  - intros Hm. exists (gc_category m). split; [by apply H|]. pose proof (H m Hm) as Hc. unfold list_corridors in *.
    assert (str_empty (gc_category m) = false) as ->.
    { revert Hc. generalize (gc_category m). intros s Hs. repeat (apply elem_of_cons in Hs as [->|Hs]; [reflexivity|]). by apply elem_of_nil in Hs. }
    apply list_elem_of_In, filter_In. split; [by apply list_elem_of_In|]. by apply str_eqb_true.
  - intros (c & Hc & Hm). unfold list_corridors in Hm. destruct (str_empty c); [done|]. apply list_elem_of_In, filter_In in Hm as [Hm _].
    by apply list_elem_of_In.
Qed.
