(* ===== verification/Sbom.v ===== *)
(** * sbom.py: bills of materials

    Both bills of materials as the values that are written as JSON, and the check of their
    structure.  The modules are a function from the name of a file to its bytes; SHA-256 is an argument. *)

From Stdlib Require Import ZArith Ascii.
From S2P Require Import Prelude PyFloat PyFormat Domain.
From S2P Require Crypto Posture PublicData.

Open Scope Z_scope.

Definition COMPONENT_VERSION : string := "1.0.0".
Definition ORGANIZATION : string := "ContinuityOS Sovereign Systems".
Definition AUTHORS : pyval :=
  VList [VDict [("name", VStr "ContinuityOS Architecture Core"); ("email", VStr "security@continuityos.com")]].

Definition CORE_MODULES : list string :=
  ["domain.py"; "dsl.py"; "schemas.py"; "compiler.py"; "evidence.py"; "crypto.py"; "sovereign.py"; "readiness.py"; "cop.py"; "threat.py"; "database.py"; "rbac.py"; "attestation.py"; "cluster.py"; "wargame.py"; "reconcile.py"; "assurance.py"; "graph.py"; "fusion.py"; "policy.py"; "scenario.py"; "inventory.py"; "recovery.py"; "remediation.py"; "closure.py"; "trust.py"; "independence.py"; "substitution.py"; "service.py"; "cli.py"].

Record RuntimeDependency := {
  rd_name : string;
  rd_version : string;
  rd_purl : string;
  rd_license : string;
  rd_description : string
}.

Definition RUNTIME_DEPENDENCIES : list RuntimeDependency :=
  [{| rd_name := "pydantic"; rd_version := ">=2.10.0"; rd_purl := "pkg:pypi/pydantic@2.10.0";
      rd_license := "MIT"; rd_description := "Data validation and settings management using Python type annotations" |};
   {| rd_name := "cryptography"; rd_version := ">=43.0.0"; rd_purl := "pkg:pypi/cryptography@43.0.0";
      rd_license := "Apache-2.0 OR BSD-3-Clause"; rd_description := "Cryptographic recipes and primitives (Ed25519, SHA-256, AES-GCM)" |};
   {| rd_name := "fastapi"; rd_version := ">=0.115.0"; rd_purl := "pkg:pypi/fastapi@0.115.0";
      rd_license := "MIT"; rd_description := "High performance sovereign REST API framework" |};
   {| rd_name := "uvicorn"; rd_version := ">=0.32.0"; rd_purl := "pkg:pypi/uvicorn@0.32.0";
      rd_license := "BSD-3-Clause"; rd_description := "Lightning-fast ASGI server implementation" |};
   {| rd_name := "pyyaml"; rd_version := ">=6.0.2"; rd_purl := "pkg:pypi/pyyaml@6.0.2";
      rd_license := "MIT"; rd_description := "YAML 1.2 parser and emitter for declarative policy specs" |};
   {| rd_name := "numpy"; rd_version := ">=2.1.0"; rd_purl := "pkg:pypi/numpy@2.1.0";
      rd_license := "BSD-3-Clause"; rd_description := "Deterministic matrix arithmetic for risk fusion and recovery solvers" |}].

Definition text (fields : list (string * string)) : list (string * pyval) := (λ kv, (kv.1, VStr kv.2)) <$> fields.

Section bills.
Context (sha256 : string → string) (files : string → option string).

Definition hash_file (name : string) : string :=
  match files name with None => str_repeat 64 "0" | Some contents => Crypto.hexdigest sha256 contents end.

(** ** CycloneDX *)

Definition license (key value : string) : pyval := VList [VDict [("license", VDict [(key, VStr value)])]].

Definition property (name value : string) : pyval := VDict (text [("name", name); ("value", value)]).

Definition root_component : pyval :=
  VDict (text [("type", "application"); ("bom-ref", "pkg:pypi/continuityos@1.0.0"); ("name", "continuityos"); ("version", COMPONENT_VERSION);
               ("description", "ContinuityOS Sovereign Resilience-as-Code Engine"); ("scope", "required")]
         ++ [("supplier", VDict [("name", VStr ORGANIZATION); ("url", VList [VStr "https://continuityos.com"])]);
             ("licenses", license "id" "Apache-2.0");
             ("properties", VList [property "sovereign:classification" "PROTECTED_B"; property "sovereign:dataResidency" "CANADIAN_SOVEREIGN";
                                   property "sovereign:airGapCertified" "true"; property "sovereign:pqcSupported" "true"])]).

Definition module_ref (mod_name : string) : string := "continuityos:src/" +:+ mod_name.

Definition module_component (mod_name : string) : pyval :=
  VDict (text [("type", "file"); ("bom-ref", module_ref mod_name); ("name", "src/continuityos/" +:+ mod_name); ("version", COMPONENT_VERSION);
               ("scope", "required")]
         ++ [("hashes", VList [VDict (text [("alg", "SHA-256"); ("content", hash_file mod_name)])]); ("licenses", license "id" "Apache-2.0")]).

Definition library_component (dep : RuntimeDependency) : pyval :=
  VDict (text [("type", "library"); ("bom-ref", rd_purl dep); ("name", rd_name dep); ("version", rd_version dep); ("purl", rd_purl dep);
               ("description", rd_description dep); ("scope", "required")]
         ++ [("licenses", license "name" (rd_license dep))]).

Definition sorted_modules : list string := sort_by str_leb CORE_MODULES.

Definition components : list pyval := (module_component <$> sorted_modules) ++ (library_component <$> RUNTIME_DEPENDENCIES).

(** [c["bom-ref"] for c in components] *)
Definition references : list string := (module_ref <$> sorted_modules) ++ (rd_purl <$> RUNTIME_DEPENDENCIES).

Definition generate_cyclonedx_sbom (now : datetime) : dict string pyval :=
  [("bomFormat", VStr "CycloneDX"); ("specVersion", VStr "1.5"); ("serialNumber", VStr "urn:uuid:837fa6b9-aac3-5639-97c3-65f98b8455b5");
   ("version", VInt 1);
   ("metadata", VDict [("timestamp", VStr (isoformat now));
      ("tools", VList [VDict (text [("vendor", ORGANIZATION); ("name", "ContinuityOS SBOM Generator"); ("version", COMPONENT_VERSION)])]);
      ("authors", AUTHORS); ("component", root_component);
      ("manufacture", VDict [("name", VStr ORGANIZATION); ("url", VList [VStr "https://continuityos.com"])])]);
   ("components", VList components);
   ("dependencies", VList [VDict [("ref", VStr "pkg:pypi/continuityos@1.0.0"); ("dependsOn", VList (VStr <$> references))]])].
End bills.

(** ** SPDX *)

Definition year_of (now : datetime) : Z := (civil_from_days (dt_us now / 86400000000)).1.1.

Definition root_pkg (now : datetime) : pyval :=
  VDict (text [("SPDXID", "SPDXRef-Package-ContinuityOS"); ("name", "continuityos"); ("versionInfo", COMPONENT_VERSION);
               ("downloadLocation", "https://github.com/Hardonian/continuityos")]
         ++ [("filesAnalyzed", VBool true)]
         ++ text [("supplier", "Organization: " +:+ ORGANIZATION); ("originator", "Organization: " +:+ ORGANIZATION);
                  ("licenseConcluded", "Apache-2.0"); ("licenseDeclared", "Apache-2.0");
                  ("copyrightText", "Copyright (c) " +:+ str_Z (year_of now) +:+ " ContinuityOS. All rights reserved.");
                  ("summary", "ContinuityOS Sovereign Resilience-as-Code Engine");
                  ("description", "Cyber-physical resilience declaration, simulation, and exact recovery compilation.")]).

Definition spdx_id (dep : RuntimeDependency) : string := "SPDXRef-Dependency-" +:+ PublicData.str_replace "-" "_" (rd_name dep).

Definition dependency_pkg (dep : RuntimeDependency) : pyval :=
  VDict (text [("SPDXID", spdx_id dep); ("name", rd_name dep); ("versionInfo", rd_version dep);
               ("downloadLocation", "https://pypi.org/project/" +:+ rd_name dep +:+ "/")]
         ++ [("filesAnalyzed", VBool false)]
         ++ text [("supplier", "Organization: PyPI Community (" +:+ rd_name dep +:+ ")"); ("licenseConcluded", rd_license dep);
                  ("licenseDeclared", rd_license dep); ("copyrightText", "NOASSERTION"); ("summary", rd_description dep)]
         ++ [("externalRefs", VList [VDict (text [("referenceCategory", "PACKAGE-MANAGER"); ("referenceType", "purl"); ("referenceLocator", rd_purl dep)])])]).

Definition relationship (dep : RuntimeDependency) : pyval :=
  VDict (text [("spdxElementId", "SPDXRef-Package-ContinuityOS"); ("relatedSpdxElement", spdx_id dep); ("relationshipType", "DEPENDS_ON")]).

Definition generate_spdx_sbom (now : datetime) : dict string pyval :=
  [("spdxVersion", VStr "SPDX-2.3"); ("dataLicense", VStr "CC0-1.0"); ("SPDXID", VStr "SPDXRef-DOCUMENT");
   ("name", VStr ("ContinuityOS-" +:+ COMPONENT_VERSION +:+ "-SBOM"));
   ("documentNamespace", VStr ("https://continuityos.com/spdx/continuityos-" +:+ COMPONENT_VERSION));
   ("creationInfo", VDict [("created", VStr (Posture.strftime_z (dt_us now)));
      ("creators", VList [VStr ("Organization: " +:+ ORGANIZATION); VStr "Tool: ContinuityOS-SBOM-2026"]); ("licenseListVersion", VStr "3.22")]);
   ("packages", VList (root_pkg now :: (dependency_pkg <$> RUNTIME_DEPENDENCIES)));
   ("relationships", VList (relationship <$> RUNTIME_DEPENDENCIES))].

(** ** The check *)

(** [d.get(key) == s] for a text [s] *)
Definition is_text (d : dict string pyval) (key s : string) : bool := match dget d key with Some (VStr t) => str_eqb t s | _ => false end.

(** [len(d[key])] for a key that is there *)
Definition length_of (d : dict string pyval) (key : string) : res nat :=
  match dget d key with
  | Some (VList l) => Ok (length l)
  | Some (VDict l) => Ok (length l)
  | Some (VStr s) => Ok (Z.to_nat (str_len s))
  | Some _ => Raise (TypeError "object has no len()")
  | None => Raise (KeyError key)
  end.

(** [version and key in d and len(d[key]) >= least and other in d], from left to right *)
Definition structure_ok (d : dict string pyval) (version : bool) (key : string) (least : nat) (other : string) : res bool :=
  if version && dmem d key then
    n ← length_of d key;
    Ok ((least <=? n)%nat && dmem d other)
  else Ok false.

Definition verify_sbom_integrity (sbom : dict string pyval) : res bool :=
  if is_text sbom "bomFormat" "CycloneDX" then
    structure_ok sbom (is_text sbom "specVersion" "1.5") "components" (length RUNTIME_DEPENDENCIES) "metadata"
  else if is_text sbom "spdxVersion" "SPDX-2.3" then
    structure_ok sbom (is_text sbom "dataLicense" "CC0-1.0") "packages" 1 "creationInfo"
  else Ok false.

(** ** What the check shows *)

(** Every generated bill passes, from whatever directory: with changed modules, and without any. *)
Lemma generated_bills_pass sha256 files now :
  verify_sbom_integrity (generate_cyclonedx_sbom sha256 files now) = Ok true ∧ verify_sbom_integrity (generate_spdx_sbom now) = Ok true.
Proof. split; reflexivity. Qed.

Lemma references_of_components sha256 files :
  Forall2 (λ c r, ∃ d, c = VDict d ∧ dget d "bom-ref" = Some (VStr r)) (components sha256 files) references.
Proof.
  apply Forall2_app; apply Forall2_fmap, Forall_Forall2_diag, Forall_forall; intros x _; eexists; split; reflexivity.
Qed.

(** The references that the root depends on are those of the components, each once. *)
Lemma references_distinct : NoDup references.
Proof. apply (bool_decide_unpack _). vm_compute. exact I. Qed.

(** The structure is all that is checked: replacing the value of every digest, of the tools or of the licences goes unnoticed. *)
Lemma integrity_is_structure d d' : (∀ k, k ∈ ["bomFormat"; "specVersion"; "spdxVersion"; "dataLicense"] → dget d k = dget d' k) →
  (∀ k, dmem d k = dmem d' k) → (∀ k, length_of d k = length_of d' k) → verify_sbom_integrity d = verify_sbom_integrity d'.
Proof.
  intros H1 H2 H3. unfold verify_sbom_integrity, structure_ok, is_text. rewrite !H2, !H3, !H1; [done|..]; set_solver.
Qed.

(** An absent module is listed with a digest of zeros. *)
Lemma absent_module sha256 now : ∃ c, c ∈ components sha256 (λ _, None) ∧ c = module_component sha256 (λ _, None) "domain.py" ∧
  hash_file sha256 (λ _, None) "domain.py" = str_repeat 64 "0" ∧ verify_sbom_integrity (generate_cyclonedx_sbom sha256 (λ _, None) now) = Ok true.
Proof.
  eexists. split_and!; [|reflexivity..]. apply elem_of_app. left. apply list_elem_of_fmap_2. apply (bool_decide_unpack _). vm_compute. exact I.
Qed.
