(* ===== verification/Platform.v ===== *)
(** * providers/mock.py, ecosystem.py, metrics.py, config.py: the platform around the engines

    The synthetic provider, the reconciliation and the gate offered to other platforms, the
    request counters and the settings.  SHA-256, [float(s)], [int(s)], [str] of a JSON value that is no
    text, the clock and the identifiers are arguments. *)

From Stdlib Require Import ZArith QArith Lqa.
From S2P Require Import Prelude PyFloat PyFormat Domain Sources Fusion State.
From S2P Require Crypto Dsl Telemetry.

Open Scope Z_scope.

(** ** Synthetic observations *)

Record mock_reading := reading {
  mr_metric : MetricName;
  mr_value : float;
  mr_unit : string;
  mr_trust : SourceTrust;
  mr_class : AssertionClass;
  mr_confidence : float
}.

Definition normal_observations : list mock_reading :=
  [reading M_SEA_ICE_CONCENTRATION (lit 35.0) "percent" ST_AUTHORITATIVE_PUBLIC AC_ICE (lit 0.9);
   reading M_WIND_SEVERITY (lit 0.3) "ratio" ST_AUTHORITATIVE_PUBLIC AC_WEATHER (lit 0.9);
   reading M_PORT_AVAILABILITY (lit 0.85) "ratio" ST_AUTHENTICATED_OPERATOR AC_LIVE_AVAILABILITY (lit 0.9);
   reading M_SATCOM_AVAILABILITY (lit 0.95) "ratio" ST_AUTHENTICATED_OPERATOR AC_LIVE_AVAILABILITY (lit 0.9);
   reading M_CYBER_CONTROL_HEALTH (lit 0.92) "ratio" ST_AUTHENTICATED_OPERATOR AC_CYBER_HEALTH (lit 0.9);
   reading M_DATA_INTEGRITY (lit 0.88) "ratio" ST_AUTHENTICATED_OPERATOR AC_CYBER_HEALTH (lit 0.9);
   reading M_INSURANCE_AVAILABILITY (lit 0.78) "ratio" ST_AUTHENTICATED_OPERATOR AC_INSURANCE_ACCESS (lit 0.9);
   reading M_ESCORT_CAPACITY (lit 0.7) "ratio" ST_AUTHENTICATED_OPERATOR AC_LIVE_CAPACITY (lit 0.9);
   reading M_INVENTORY_DAYS (lit 25.0) "days" ST_AUTHENTICATED_OPERATOR AC_LIVE_CAPACITY (lit 0.9)].

Definition degraded_observations : list mock_reading :=
  [reading M_SEA_ICE_CONCENTRATION (lit 65.0) "percent" ST_AUTHORITATIVE_PUBLIC AC_ICE (lit 0.9);
   reading M_WIND_SEVERITY (lit 0.6) "ratio" ST_AUTHORITATIVE_PUBLIC AC_WEATHER (lit 0.9);
   reading M_PORT_AVAILABILITY (lit 0.55) "ratio" ST_AUTHENTICATED_OPERATOR AC_LIVE_AVAILABILITY (lit 0.9);
   reading M_SATCOM_AVAILABILITY (lit 0.4) "ratio" ST_AUTHENTICATED_OPERATOR AC_LIVE_AVAILABILITY (lit 0.9);
   reading M_CYBER_CONTROL_HEALTH (lit 0.6) "ratio" ST_AUTHENTICATED_OPERATOR AC_CYBER_HEALTH (lit 0.9);
   reading M_DATA_INTEGRITY (lit 0.55) "ratio" ST_AUTHENTICATED_OPERATOR AC_CYBER_HEALTH (lit 0.9);
   reading M_INSURANCE_AVAILABILITY (lit 0.3) "ratio" ST_AUTHENTICATED_OPERATOR AC_INSURANCE_ACCESS (lit 0.9);
   reading M_ESCORT_CAPACITY (lit 0.3) "ratio" ST_AUTHENTICATED_OPERATOR AC_LIVE_CAPACITY (lit 0.7);
   reading M_INVENTORY_DAYS (lit 12.0) "days" ST_AUTHENTICATED_OPERATOR AC_LIVE_CAPACITY (lit 0.9)].

Definition disrupted_observations : list mock_reading :=
  [reading M_SEA_ICE_CONCENTRATION (lit 85.0) "percent" ST_AUTHORITATIVE_PUBLIC AC_ICE (lit 0.9);
   reading M_WIND_SEVERITY (lit 0.85) "ratio" ST_AUTHORITATIVE_PUBLIC AC_WEATHER (lit 0.9);
   reading M_PORT_AVAILABILITY (lit 0.1) "ratio" ST_AUTHENTICATED_OPERATOR AC_LIVE_AVAILABILITY (lit 0.9);
   reading M_SATCOM_AVAILABILITY (lit 0.15) "ratio" ST_AUTHENTICATED_OPERATOR AC_LIVE_AVAILABILITY (lit 0.9);
   reading M_CYBER_CONTROL_HEALTH (lit 0.3) "ratio" ST_AUTHENTICATED_OPERATOR AC_CYBER_HEALTH (lit 0.9);
   reading M_DATA_INTEGRITY (lit 0.25) "ratio" ST_AUTHENTICATED_OPERATOR AC_CYBER_HEALTH (lit 0.9);
   reading M_INSURANCE_AVAILABILITY (lit 0.05) "ratio" ST_AUTHENTICATED_OPERATOR AC_INSURANCE_ACCESS (lit 0.9);
   reading M_ESCORT_CAPACITY (lit 0.1) "ratio" ST_AUTHENTICATED_OPERATOR AC_LIVE_CAPACITY (lit 0.5);
   reading M_INVENTORY_DAYS (lit 5.0) "days" ST_AUTHENTICATED_OPERATOR AC_LIVE_CAPACITY (lit 0.9)].

Section mock.
Context (sha256 : string → string) (scenario : string) (clock : datetime) (uuid : MetricName → string).

Definition mock_observation (now : datetime) (r : mock_reading) : Observation :=
  {| obs_observation_id := uuid (mr_metric r); obs_source_id := "mock-provider"; obs_source_trust := mr_trust r;
       obs_assertion_class := mr_class r; obs_metric := mr_metric r; obs_value := mr_value r; obs_unit := mr_unit r; obs_observed_at := now;
       obs_valid_until := None; obs_location := None; obs_confidence := mr_confidence r;
       obs_provenance :=
         {| prov_uri := "mock://synthetic"; prov_retrieved_at := clock;
            prov_content_sha256 := Crypto.hexdigest sha256 (MetricName_value (mr_metric r) +:+ ":" +:+ str_float (mr_value r) +:+ ":" +:+ isoformat now);
            prov_snapshot_id := None; prov_licence := Some "synthetic-data" |};
       obs_metadata := [("synthetic", VBool true); ("scenario", VStr scenario)] |}.

Definition make_observation (now : datetime) (r : mock_reading) : res Observation := new_Observation (mock_observation now r).

Definition generator : list mock_reading :=
  if str_eqb scenario "degraded" then degraded_observations
  else if str_eqb scenario "disrupted" then disrupted_observations else normal_observations.

(** [as_of or datetime.now(UTC)]: a time is always true. *)
Definition mock_fetch (as_of : option datetime) : res (list Observation) := mapM_res (make_observation (default clock as_of)) generator.
End mock.

Definition mock_validate (observations : list Observation) : list string :=
  (λ o, "unexpected source: " +:+ obs_source_id o) <$> List.filter (λ o, negb (str_eqb (obs_source_id o) "mock-provider")) observations.

(** ** Reconciliation of a declared corridor *)

Record KubernetesReconciliationResult := {
  kr_resource_name : string;
  kr_resource_kind : string;
  kr_effective_state : CorridorState;
  kr_resilience_score : float;
  kr_is_compliant : bool;
  kr_closure_reasons : list string;
  kr_reconciled_at : datetime
}.

Section ecosystem.
Context (float_of_str : string → res float) (int_of_str : string → res Z) (repr : json → string).

(** [int(v)] *)
Definition py_int (v : json) : res Z :=
  match v with
  | JNum z => Ok z
  | JBool b => Ok (if b then 1 else 0)
  | JFloat (Fin q) => Ok (Z.quot (Qnum q) (Zpos (Qden q)))
  | JFloat (Inf _) => Raise OverflowError
  | JFloat NaN => Raise (ValueError "cannot convert float NaN to integer")
  | JStr s => int_of_str s
  | _ => Raise (TypeError "int() argument must be a string, a bytes-like object or a real number")
  end.

(** [m.get(key, default)] *)
Definition obj_get (m : object) (key : string) (default_ : json) : json := default default_ (m !! key).

(** [v.get(key, default)] of a value that may be no object *)
Definition val_get (v : json) (key : string) (default_ : json) : res json :=
  match v with JObj m => Ok (obj_get m key default_) | _ => Raise (AttributeError "object has no attribute 'get'") end.

Record live_signals := {
  lv_physically_closed : bool;
  lv_uninsurable : bool;
  lv_gnss_denied : bool;
  lv_lag_days : float
}.

Definition read_signals (m : object) : res live_signals :=
  lag ← Telemetry.py_float float_of_str (obj_get m "recovery_lag_days" (JFloat f0));
  Ok {| lv_physically_closed := Dsl.truthy (obj_get m "physically_closed" (JBool false));
        lv_uninsurable := Dsl.truthy (obj_get m "uninsurable" (JBool false));
        lv_gnss_denied := Dsl.truthy (obj_get m "gnss_denied" (JBool false)); lv_lag_days := lag |}.

(** What the signals say of the corridor: its state, its score and the reasons. *)
Definition judge (s : live_signals) (max_lag : float) : CorridorState * float * list string :=
  let '(state, score, reasons) :=
    if lv_physically_closed s then (CS_PHYSICALLY_CLOSED, f0, ["PHYSICAL_OBSTRUCTION"])
    else if lv_uninsurable s then (CS_OPEN_BUT_UNINSURABLE, lit 0.35, ["WAR_RISK_UNDERWRITER_WITHDRAWAL"])
    else if lv_gnss_denied s then (CS_OPEN_BUT_NAVIGATION_UNTRUSTED, lit 0.45, ["GNSS_EW_SPOOFING"])
    else (CS_OPEN, f1, []) in
  if (max_lag <? lv_lag_days s)%F then
    (CS_RECOVERY_BACKLOGGED, fmin score (lit 0.40),
     reasons ++ ["RECOVERY_LAG_" +:+ str_float (lv_lag_days s) +:+ "D_EXCEEDS_" +:+ str_float max_lag +:+ "D"])
  else (state, score, reasons).

Definition compliant (state : CorridorState) (score : float) : bool :=
  (lit 0.70 <=? score)%F && negb (bool_decide (state = CS_PHYSICALLY_CLOSED ∨ state = CS_FUNCTIONALLY_CLOSED)).

Definition reconcile_corridor (now : datetime) (spec : object) (live_telemetry : option object) : res KubernetesReconciliationResult :=
  name ← val_get (obj_get spec "metadata" (JObj ∅)) "name" (JStr "corridor-unnamed");
  let props := obj_get spec "spec" (JObj spec) in
  redundancy ← val_get props "required_redundancy" (JNum 2); redundancy ← val_get props "requiredRedundancy" redundancy; _ ← py_int redundancy;
  lag ← val_get props "max_recovery_lag_days" (JFloat (lit 14)); lag ← val_get props "maxRecoveryLagDays" lag;
  max_lag ← Telemetry.py_float float_of_str lag;
  judged ← match live_telemetry with
           | Some m => if bool_decide (m = ∅) then Ok (CS_OPEN, f1, []) else signals ← read_signals m; Ok (judge signals max_lag)
           | None => Ok (CS_OPEN, f1, [])
           end;
  let '(state, score, reasons) := judged in
  Ok {| kr_resource_name := Telemetry.py_str repr name; kr_resource_kind := "MissionCorridor"; kr_effective_state := state;
        kr_resilience_score := score; kr_is_compliant := compliant state score; kr_closure_reasons := reasons; kr_reconciled_at := now |}.

(** ** The gate *)

Record OPAGateEvaluation := {
  og_policy_name : string;
  og_allowed : bool;
  og_violations : list string;
  og_evaluated_at : datetime;
  og_rules_checked : Z
}.

Record gate_rules := {
  gr_min_redundancy : Z;
  gr_max_closure_risk : float;
  gr_min_replenishment_days : float;
  gr_prohibit_spof : bool
}.

Record gate_proposal := {
  gp_available_routes : Z;
  gp_closure_probability : float;
  gp_replenishment_days : float;
  gp_has_spof : bool
}.

Definition read_rules (m : object) : res gate_rules :=
  redundancy ← py_int (obj_get m "min_redundancy" (JNum 2));
  risk ← Telemetry.py_float float_of_str (obj_get m "max_closure_risk" (JFloat (lit 0.40)));
  days ← Telemetry.py_float float_of_str (obj_get m "min_assured_replenishment_days" (JFloat (lit 30)));
  Ok {| gr_min_redundancy := redundancy; gr_max_closure_risk := risk; gr_min_replenishment_days := days;
        gr_prohibit_spof := Dsl.truthy (obj_get m "prohibit_unhedged_spof" (JBool true)) |}.

Definition read_proposal (m : object) : res gate_proposal :=
  routes ← py_int (obj_get m "available_routes" (JNum 1));
  risk ← Telemetry.py_float float_of_str (obj_get m "closure_probability" (JFloat f0));
  days ← Telemetry.py_float float_of_str (obj_get m "assured_replenishment_days" (JFloat (lit 45)));
  Ok {| gp_available_routes := routes; gp_closure_probability := risk; gp_replenishment_days := days;
        gp_has_spof := Dsl.truthy (obj_get m "has_unhedged_spof" (JBool false)) |}.

Definition violation_if (b : bool) (text : string) : list string := if b then [text] else [].

Definition gate_violations (r : gate_rules) (p : gate_proposal) : list string :=
  violation_if (gp_available_routes p <? gr_min_redundancy r)
    ("REDUNDANCY_VIOLATION: Required " +:+ str_Z (gr_min_redundancy r) +:+ " routes, but only " +:+ str_Z (gp_available_routes p) +:+ " available")
  ++ violation_if (gr_max_closure_risk r <? gp_closure_probability p)%F
    ("RISK_VIOLATION: Corridor closure risk " +:+ fmt_fixed 2 (gp_closure_probability p) +:+ " exceeds threshold " +:+ fmt_fixed 2 (gr_max_closure_risk r))
  ++ violation_if (gp_replenishment_days p <? gr_min_replenishment_days r)%F
    ("STOCKPILE_VIOLATION: Assured replenishment " +:+ fmt_fixed 1 (gp_replenishment_days p) +:+ "d below minimum "
     +:+ fmt_fixed 1 (gr_min_replenishment_days r) +:+ "d")
  ++ violation_if (gr_prohibit_spof r && gp_has_spof p)
    "SPOF_VIOLATION: Route commits to single-point-of-failure transit without verified substitute".

Definition evaluate_gate (now : datetime) (policy_rules proposed_action_or_state : object) : res OPAGateEvaluation :=
  rules ← read_rules policy_rules;
  proposal ← read_proposal proposed_action_or_state;
  let violations := gate_violations rules proposal in
  Ok {| og_policy_name := Telemetry.py_str repr (obj_get policy_rules "name" (JStr "standard-resilience-gate"));
        og_allowed := Nat.eqb (length violations) 0; og_violations := violations; og_evaluated_at := now; og_rules_checked := 4 |}.
End ecosystem.

(** ** Counters *)

Record MetricSnapshot := {
  ms_requests_total : Z;
  ms_errors_total : Z;
  ms_request_seconds_total : float
}.

Definition new_Metrics : MetricSnapshot := {| ms_requests_total := 0; ms_errors_total := 0; ms_request_seconds_total := f0 |}.

Definition observe (s : MetricSnapshot) (elapsed : float) (status_code : Z) : MetricSnapshot :=
  {| ms_requests_total := ms_requests_total s + 1;
     ms_errors_total := if 500 <=? status_code then ms_errors_total s + 1 else ms_errors_total s;
     ms_request_seconds_total := (ms_request_seconds_total s + elapsed)%F |}.

Definition prometheus (s : MetricSnapshot) : string :=
  str_join newline
    ["# HELP continuityos_requests_total Total HTTP requests."; "# TYPE continuityos_requests_total counter";
     "continuityos_requests_total " +:+ str_Z (ms_requests_total s);
     "# HELP continuityos_errors_total Total HTTP 5xx responses."; "# TYPE continuityos_errors_total counter";
     "continuityos_errors_total " +:+ str_Z (ms_errors_total s);
     "# HELP continuityos_request_seconds_total Total request duration in seconds."; "# TYPE continuityos_request_seconds_total counter";
     "continuityos_request_seconds_total " +:+ fmt_fixed 6 (ms_request_seconds_total s); ""].

(** ** Settings *)

Inductive Environment := ENV_development | ENV_test | ENV_production.

Record Settings := {
  se_environment : Environment;
  se_data_dir : string;
  se_database_path : option string;
  se_evidence_private_key_path : option string;
  se_evidence_public_key_path : option string;
  se_operator_webhook_secret : option string;
  se_api_key : option string;
  se_outbound_http_enabled : bool;
  se_outbound_timeout_seconds : float;
  se_max_snapshot_age_hours : Z;
  se_compiler_max_actions : Z;
  se_max_request_bytes : Z;
  se_rate_limit_per_minute : Z;
  se_cors_origins : list string;
  se_llm_endpoint : string;
  se_llm_model : string;
  se_edge_enabled : bool;
  se_edge_gossip_interval_seconds : float
}.

Definition at_least_32 (s : option string) : bool := match s with Some s => 32 <=? str_len s | None => true end.
Definition between (lo hi v : Z) : bool := (lo <=? v) && (v <=? hi).
Definition missing_if (v : option string) (name : string) : list string := match v with None => [name] | Some _ => [] end.

Definition missing_controls (s : Settings) : list string :=
  missing_if (se_evidence_private_key_path s) "CONTINUITYOS_EVIDENCE_PRIVATE_KEY_PATH"
  ++ missing_if (se_evidence_public_key_path s) "CONTINUITYOS_EVIDENCE_PUBLIC_KEY_PATH"
  ++ missing_if (se_operator_webhook_secret s) "CONTINUITYOS_OPERATOR_WEBHOOK_SECRET"
  ++ missing_if (se_api_key s) "CONTINUITYOS_API_KEY"
  ++ missing_if (se_database_path s) "CONTINUITYOS_DATABASE_PATH (in-memory DB forbidden in production)".

Definition validate_production_controls (s : Settings) : res Settings :=
  match se_environment s with
  | ENV_production =>
      let missing := missing_controls s in
      match missing with
      | [] => Ok s
      | _ => Raise (ValidationError ("production configuration missing: " +:+ str_join ", " missing))
      end
  | _ => Ok s
  end.

Definition new_Settings (s : Settings) : res Settings :=
  _ ← require (at_least_32 (se_operator_webhook_secret s)) "operator_webhook_secret";
  _ ← require (at_least_32 (se_api_key s)) "api_key";
  _ ← require ((f0 <? se_outbound_timeout_seconds s)%F && (se_outbound_timeout_seconds s <=? lit 120)%F) "outbound_timeout_seconds";
  _ ← require (between 1 720 (se_max_snapshot_age_hours s)) "max_snapshot_age_hours";
  _ ← require (between 1 64 (se_compiler_max_actions s)) "compiler_max_actions";
  _ ← require (between 16384 10485760 (se_max_request_bytes s)) "max_request_bytes";
  _ ← require (between 1 10000 (se_rate_limit_per_minute s)) "rate_limit_per_minute";
  _ ← require (f0 <? se_edge_gossip_interval_seconds s)%F "edge_gossip_interval_seconds";
  validate_production_controls s.

(** [str(d / name)] of a normalised path [d] *)
Definition path_join (d name : string) : string := if str_eqb d "." then name else if str_eqb d "/" then "/" +:+ name else d +:+ "/" +:+ name.

Definition snapshots_dir (s : Settings) : string := path_join (se_data_dir s) "snapshots".
Definition evidence_dir (s : Settings) : string := path_join (se_data_dir s) "evidence".

Definition resolved_database_path (s : Settings) : string :=
  match se_database_path s with
  | Some p => p
  | None => match se_environment s with ENV_production => path_join (se_data_dir s) "evidence.db" | _ => ":memory:" end
  end.

(** ** The synthetic provider *)

(** The checks of an observation that do not depend on the time. *)
Definition reading_valid (r : mock_reading) : bool :=
  let v := mr_value r in let m := mr_metric r in
  let pct := mem_str (str_lower (mr_unit r)) ["percent"; "%"] in
  (1 <=? str_len (mr_unit r)) && (str_len (mr_unit r) <=? 32) && in_unit (mr_confidence r) && isfinite v
  && negb (mem_metric m ratio_metrics && negb (in_unit v))
  && (if decide (m = M_SEA_ICE_CONCENTRATION) then (f0 <=? v)%F && (v <=? (if pct then lit 100 else f1))%F else true)
  && negb (mem_metric m [M_INVENTORY_DAYS; M_MINERAL_RESERVE_DAYS] && negb ((f0 <=? v)%F && (v <=? lit 3650)%F))
  && negb (mem_metric m non_negative_metrics && (v <? f0)%F).

Lemma readings_valid scenario : Forall (λ r, reading_valid r = true) (generator scenario).
Proof. unfold generator. repeat case_match; (repeat constructor; vm_compute; reflexivity). Qed.

Lemma make_observation_ok sha256 scenario clock uuid now r : dt_aware now = true → reading_valid r = true →
  make_observation sha256 scenario clock uuid now r = Ok (mock_observation sha256 scenario clock uuid now r).
Proof.
  intros Hn Hr. unfold reading_valid in Hr. cbn zeta in Hr.
  repeat match goal with H : _ && _ = true |- _ => apply andb_prop in H as [? ?] end.
  unfold make_observation, new_Observation, validate_metric_value.
  cbn [mock_observation obs_source_id obs_unit obs_observed_at obs_valid_until obs_confidence obs_metric obs_value]. unfold ensure_timezone. rewrite Hn.
  change ((2 <=? str_len "mock-provider") && (str_len "mock-provider" <=? 128)) with true.
  repeat match goal with H : ?b = true |- context [?b] => rewrite H end. cbn [negb andb require mbind res_bind].
  destruct (decide (mr_metric r = M_SEA_ICE_CONCENTRATION)); [|reflexivity].
  repeat match goal with H : _ && _ = true |- _ => apply andb_prop in H as [? ?] end.
  repeat match goal with H : ?b = true |- context [?b] => rewrite H end. reflexivity.
Qed.

(** In every scenario the provider returns its nine observations, valid and in its own name. *)
Lemma mock_fetch_total sha256 scenario clock uuid as_of : dt_aware (default clock as_of) = true →
  ∃ l, mock_fetch sha256 scenario clock uuid as_of = Ok l ∧ length l = 9%nat ∧ mock_validate l = [] ∧
    Forall (λ o, obs_source_id o = "mock-provider") l.
Proof.
  intros Hn. exists (mock_observation sha256 scenario clock uuid (default clock as_of) <$> generator scenario). split_and!.
  - apply mapM_res_ok. intros r Hr. apply make_observation_ok; [done|]. pose proof (readings_valid scenario) as H. rewrite Forall_forall in H. by apply H.
  - rewrite length_fmap. unfold generator. by repeat case_match.
  - unfold mock_validate, generator. by repeat case_match.
  - apply Forall_fmap, Forall_forall. done.
Qed.

(** The fusion engine accepts none of them: the provider is not a registered source. *)
Lemma mock_refused `{LibM} sha256 scenario clock uuid as_of l o id now cid obs at_time : mock_fetch sha256 scenario clock uuid as_of = Ok l →
  o ∈ l → o ∈ obs →
  validate_observation_source o = Raise (ValueError "unknown source_id: mock-provider") ∧ is_ok (assess id now cid obs at_time) = false.
Proof.
  intros Hl Ho Hobs. assert (obs_source_id o = "mock-provider") as Hs.
  { apply mapM_res_Forall2 in Hl. apply list_elem_of_lookup in Ho as [i Ho]. destruct (Forall2_lookup_r _ _ _ _ _ Hl Ho) as (r & _ & E).
    unfold make_observation, new_Observation, validate_metric_value in E. repeat apply bind_ok in E as (? & _ & E). by injection E as <-. }
  assert (validate_observation_source o = Raise (ValueError "unknown source_id: mock-provider")) as E.
  { unfold validate_observation_source, get_source. rewrite Hs. reflexivity. }
  split; [exact E|]. destruct (assess id now cid obs at_time) as [a|] eqn:Ea; [exfalso|done].
  apply assess_ok in Ea as (g & acc & cav & ctx & risk & conf & _ & Hv & _). rewrite Forall_forall in Hv. specialize (Hv o Hobs). by rewrite E in Hv.
Qed.

(** ** Reconciliation *)

(** A corridor complies exactly when there is no reason against it. *)
Lemma compliant_iff s max_lag : let '(state, score, reasons) := judge s max_lag in compliant state score = true ↔ reasons = [].
Proof.
  assert (compliant CS_PHYSICALLY_CLOSED f0 = false ∧ compliant CS_OPEN_BUT_UNINSURABLE (lit 0.35) = false ∧
          compliant CS_OPEN_BUT_NAVIGATION_UNTRUSTED (lit 0.45) = false ∧ compliant CS_OPEN f1 = true) as (A1 & A2 & A3 & A4)
    by (split_and!; vm_compute; reflexivity).
  assert (∀ x, x ∈ [f0; lit 0.35; lit 0.45; f1] → compliant CS_RECOVERY_BACKLOGGED (fmin x (lit 0.40)) = false) as B.
  { apply Forall_forall. repeat constructor; vm_compute; reflexivity. }
  unfold judge. generalize ("RECOVERY_LAG_" +:+ str_float (lv_lag_days s) +:+ "D_EXCEEDS_" +:+ str_float max_lag +:+ "D"). intros text.
  destruct (lv_physically_closed s); [|destruct (lv_uninsurable s); [|destruct (lv_gnss_denied s)]]; destruct (max_lag <? lv_lag_days s)%F; cbn [app];
    rewrite ?A1, ?A2, ?A3, ?A4, ?B by (repeat first [apply list_elem_of_here|apply list_elem_of_further]);
    split; intros H; first [discriminate H|reflexivity].
Qed.

(** A recovery that lags hides a closure: the state of a physically closed corridor is reported as a backlog. *)
Lemma closure_hidden s max_lag : lv_physically_closed s = true → (max_lag <? lv_lag_days s)%F = true →
  ∃ reason, judge s max_lag = (CS_RECOVERY_BACKLOGGED, f0, ["PHYSICAL_OBSTRUCTION"; reason]).
Proof. intros Hc Hl. unfold judge. rewrite Hc, Hl. by eexists. Qed.

(** ** The gate *)

Lemma gate_exact float_of_str int_of_str repr now rules state r p :
  read_rules float_of_str int_of_str rules = Ok r → read_proposal float_of_str int_of_str state = Ok p →
  ∃ e, evaluate_gate float_of_str int_of_str repr now rules state = Ok e ∧
    (og_allowed e = true ↔ gr_min_redundancy r <= gp_available_routes p ∧ (gr_max_closure_risk r <? gp_closure_probability p)%F = false ∧
       (gp_replenishment_days p <? gr_min_replenishment_days r)%F = false ∧ (gr_prohibit_spof r = false ∨ gp_has_spof p = false)).
Proof.
  intros Hr Hp. unfold evaluate_gate. rewrite Hr, Hp. eexists. split; [reflexivity|]. cbn [og_allowed]. unfold gate_violations, violation_if.
  destruct (gp_available_routes p <? gr_min_redundancy r) eqn:E1; [apply Z.ltb_lt in E1|apply Z.ltb_ge in E1];
    destruct (gr_max_closure_risk r <? gp_closure_probability p)%F, (gp_replenishment_days p <? gr_min_replenishment_days r)%F,
      (gr_prohibit_spof r), (gp_has_spof p); cbn [app length andb Nat.eqb]; (split; [intros H|intros (H1 & H2 & H3 & H4)]);
    first [discriminate|done|lia|split_and!; [lia|done|done|auto]|by destruct H4].
Qed.

(** ** Counters and settings *)

Lemma metrics_count l s : let s' := foldl (λ s r, observe s r.1 r.2) s l in
  ms_requests_total s' = ms_requests_total s + Z.of_nat (length l) ∧
  ms_errors_total s' = ms_errors_total s + Z.of_nat (length (List.filter (λ r : float * Z, 500 <=? r.2) l)).
Proof.
  revert s; induction l as [|[e c] l IH]; intros s; cbn; [lia|]. destruct (IH (observe s e c)) as [-> ->]. cbn.
  destruct (500 <=? c); cbn [length]; lia.
Qed.

Lemma production_complete s s' : new_Settings s = Ok s' → se_environment s = ENV_production →
  s' = s ∧ missing_controls s = [] ∧ ∃ key path, se_api_key s = Some key ∧ 32 <= str_len key ∧ se_database_path s = Some path ∧
    resolved_database_path s = path.
Proof.
  unfold new_Settings. intros E He. apply bind_ok in E as (? & _ & E). apply bind_ok in E as (? & Hk & E).
  repeat apply bind_ok in E as (? & _ & E). unfold validate_production_controls in E. rewrite He in E.
  destruct (missing_controls s) as [|] eqn:M; [|done]. injection E as <-. split_and!; [done|done|].
  unfold missing_controls in M. repeat (apply app_eq_nil in M as [? M]). unfold missing_if in *.
  destruct (se_api_key s) as [key|]; [|done]. destruct (se_database_path s) as [path|] eqn:P; [|done]. exists key, path. split_and!; try done.
  - unfold at_least_32, require in Hk. destruct (32 <=? str_len key) eqn:L; [by apply Z.leb_le|done].
  - unfold resolved_database_path. by rewrite P.
Qed.

(** The database in memory that the message forbids is accepted by its name. *)
Definition in_memory : Settings :=
  {| se_environment := ENV_production; se_data_dir := "var"; se_database_path := Some ":memory:"; se_evidence_private_key_path := Some "k";
     se_evidence_public_key_path := Some "p"; se_operator_webhook_secret := Some "0123456789abcdef0123456789abcdef";
     se_api_key := Some "0123456789abcdef0123456789abcdef"; se_outbound_http_enabled := false; se_outbound_timeout_seconds := lit 20;
     se_max_snapshot_age_hours := 72; se_compiler_max_actions := 24; se_max_request_bytes := 1048576; se_rate_limit_per_minute := 60;
     se_cors_origins := ["*"]; se_llm_endpoint := ""; se_llm_model := "llama3"; se_edge_enabled := false; se_edge_gossip_interval_seconds := lit 30 |}.

Lemma memory_accepted : new_Settings in_memory = Ok in_memory ∧ resolved_database_path in_memory = ":memory:".
Proof. split; vm_compute; reflexivity. Qed.
