(* ===== verification/Federation.v ===== *)
(** * federation.py: enclave reports over a one-way link

    A forward enclave packs its corridors into a report with a digest of the
    summaries and, if it has a key, a signature of the digest; headquarters reads the
    report back and checks both.  [sha256] is the hexadecimal digest, [dumps] the JSON
    text of a value with sorted keys, [loads] the JSON parser, [ed_sign] and
    [ed_verify] Ed25519 (third party).  [to_str], [to_float], [to_bool] and
    [to_datetime] are the conversions of pydantic. *)

From Stdlib Require Import ZArith QArith.
From S2P Require Import Prelude PyFloat PyFormat Domain State Dsl Telemetry Crypto.

Open Scope Z_scope.

(** ** Data *)

Record TacticalCorridorSummary := {
  ts_corridor_id : string;
  ts_corridor_name : string;
  ts_effective_state : string;
  ts_resilience_score : float;
  ts_replenishment_horizon_days : float;
  ts_has_active_threat : bool
}.

Record FederatedEnclaveReport := {
  fr_report_id : string;
  fr_origin_enclave_id : string;
  fr_origin_classification : string;
  fr_exported_classification : string;
  fr_generated_at : datetime;
  fr_corridor_summaries : list TacticalCorridorSummary;
  fr_sha256_digest : string;
  fr_signature_hex : string
}.

(** [s.model_dump()] *)
Definition summary_object (s : TacticalCorridorSummary) : object :=
  list_to_map [("corridor_id", JStr (ts_corridor_id s)); ("corridor_name", JStr (ts_corridor_name s));
               ("effective_state", JStr (ts_effective_state s)); ("resilience_score", JFloat (ts_resilience_score s));
               ("replenishment_horizon_days", JFloat (ts_replenishment_horizon_days s));
               ("has_active_threat", JBool (ts_has_active_threat s))].

Section federation.
Context (sha256 : string → string) (dumps : json → string) (loads : string → res json).
Context {private_key public_key : Type}.
Context (ed_sign : private_key → string → string) (ed_verify : public_key → string → string → bool).
Context (repr : json → string) (float_of_str : string → res float) (str_exn : exn → string).
Context (to_str : json → res string) (to_float : json → res float) (to_bool : json → res bool)
  (to_datetime : json → res datetime).

(** ** The forward enclave *)

(** [json.dumps([s.model_dump() for s in summaries], sort_keys=True)] and its digest *)
Definition payload_repr (summaries : list TacticalCorridorSummary) : string :=
  dumps (JArr ((λ s, JObj (summary_object s)) <$> summaries)).
Definition content_digest (summaries : list TacticalCorridorSummary) : string := sha256 (payload_repr summaries).

Definition get_or (c : object) (key : string) (default : json) : json :=
  match c !! key with Some v => v | None => default end.

Definition summary_of (c : object) : res TacticalCorridorSummary :=
  score ← py_float float_of_str (get_or c "score" (JFloat f1));
  days ← py_float float_of_str (get_or c "replenishment_days" (JFloat (lit 45)));
  Ok {| ts_corridor_id := py_str repr (get_or c "id" (JStr "c-unknown"));
        ts_corridor_name := py_str repr (get_or c "name" (JStr "Unknown Corridor"));
        ts_effective_state := py_str repr (get_or c "state" (JStr "HEALTHY"));
        ts_resilience_score := score; ts_replenishment_horizon_days := days;
        ts_has_active_threat := truthy (get_or c "has_threat" (JBool false)) |}.

Definition create_tactical_report (enclave_id classification : string) (corridors : list object)
    (signing_key : option private_key) (now : datetime) : res FederatedEnclaveReport :=
  summaries ← mapM_res summary_of corridors;
  let digest := content_digest summaries in
  Ok {| fr_report_id := "FED-" +:+ enclave_id +:+ "-" +:+ String.substring 0 8 digest;
        fr_origin_enclave_id := enclave_id; fr_origin_classification := classification;
        fr_exported_classification := "PROTECTED_B // REL_ALLIED"; fr_generated_at := now;
        fr_corridor_summaries := summaries; fr_sha256_digest := digest;
        fr_signature_hex := match signing_key with Some k => hex (ed_sign k digest) | None => "" end |}.

(** ** Headquarters *)

Definition parse_summary (v : json) : res TacticalCorridorSummary :=
  model (λ m,
    corridor_id ← required m "corridor_id" to_str;
    corridor_name ← required m "corridor_name" to_str;
    effective_state ← required m "effective_state" to_str;
    resilience_score ← required m "resilience_score" to_float;
    replenishment_horizon_days ← required m "replenishment_horizon_days" to_float;
    has_active_threat ← required m "has_active_threat" to_bool;
    Ok {| ts_corridor_id := corridor_id; ts_corridor_name := corridor_name; ts_effective_state := effective_state;
          ts_resilience_score := resilience_score; ts_replenishment_horizon_days := replenishment_horizon_days;
          ts_has_active_threat := has_active_threat |}) v.

Definition parse_summaries (v : json) : res (list TacticalCorridorSummary) :=
  match v with JArr l => mapM_res parse_summary l | _ => Raise (ValidationError "list_type") end.

(** [FederatedEnclaveReport.model_validate(data)] *)
Definition parse_report (now : datetime) (v : json) : res FederatedEnclaveReport :=
  model (λ m,
    report_id ← required m "report_id" to_str;
    origin_enclave_id ← required m "origin_enclave_id" to_str;
    origin_classification ← required m "origin_classification" to_str;
    exported_classification ← required m "exported_classification" to_str;
    generated_at ← field m "generated_at" now to_datetime;
    corridor_summaries ← field m "corridor_summaries" [] parse_summaries;
    sha256_digest ← field m "sha256_digest" "" to_str;
    signature_hex ← field m "signature_hex" "" to_str;
    Ok {| fr_report_id := report_id; fr_origin_enclave_id := origin_enclave_id;
          fr_origin_classification := origin_classification; fr_exported_classification := exported_classification;
          fr_generated_at := generated_at; fr_corridor_summaries := corridor_summaries;
          fr_sha256_digest := sha256_digest; fr_signature_hex := signature_hex |}) v.

(** [verifying_key.verify(bytes.fromhex(signature), digest)]: whether it returns. *)
Definition signature_verifies (key : public_key) (signature_hex digest : string) : bool :=
  match fromhex signature_hex with Ok sig => ed_verify key sig digest | Raise _ => false end.

Definition ingest_diode_report (now : datetime) (report_json : string) (verifying_key : option public_key)
    : bool * string * option FederatedEnclaveReport :=
  match (data ← loads report_json; parse_report now data) with
  | Raise e => (false, "MALFORMED_PAYLOAD: " +:+ str_exn e, None)
  | Ok report =>
      if negb (str_eqb (content_digest (fr_corridor_summaries report)) (fr_sha256_digest report)) then
        (false, "TAMPER_DETECTED: Digest mismatch", None)
      else
        match verifying_key with
        | Some key =>
            if negb (str_empty (fr_signature_hex report))
               && negb (signature_verifies key (fr_signature_hex report) (fr_sha256_digest report)) then
              (false, "SIGNATURE_INVALID: Cryptographic verification failed", None)
            else (true, "VERIFIED", Some report)
        | None => (true, "VERIFIED", Some report)
        end
  end.

(** ** What verification means *)

(** [report.model_dump(mode="json")], with the text of the time. *)
Definition report_object (stamp : string) (r : FederatedEnclaveReport) : object :=
  list_to_map [("report_id", JStr (fr_report_id r)); ("origin_enclave_id", JStr (fr_origin_enclave_id r));
               ("origin_classification", JStr (fr_origin_classification r));
               ("exported_classification", JStr (fr_exported_classification r)); ("generated_at", JStr stamp);
               ("corridor_summaries", JArr ((λ s, JObj (summary_object s)) <$> fr_corridor_summaries r));
               ("sha256_digest", JStr (fr_sha256_digest r)); ("signature_hex", JStr (fr_signature_hex r))].

(** The conversions keep values that have the type of the field. *)
Definition strict : Prop :=
  (∀ s, to_str (JStr s) = Ok s) ∧ (∀ x, to_float (JFloat x) = Ok x) ∧ (∀ b, to_bool (JBool b) = Ok b).

(** The text [t] is read back as report [r]. *)
Definition transmits (t : string) (r : FederatedEnclaveReport) : Prop :=
  ∃ stamp, loads t = Ok (JObj (report_object stamp r)) ∧ to_datetime (JStr stamp) = Ok (fr_generated_at r).

Definition digest_matches (r : FederatedEnclaveReport) : bool :=
  str_eqb (content_digest (fr_corridor_summaries r)) (fr_sha256_digest r).

Definition signature_accepted (key : option public_key) (r : FederatedEnclaveReport) : bool :=
  match key with
  | Some key => str_empty (fr_signature_hex r) || signature_verifies key (fr_signature_hex r) (fr_sha256_digest r)
  | None => true
  end.

Lemma parse_summary_object s : strict → parse_summary (JObj (summary_object s)) = Ok s.
Proof using.
  intros (Hs & Hf & Hb). unfold parse_summary, model, required, summary_object. cbn [list_to_map foldr fst snd].
  repeat ((rewrite lookup_insert_ne by done) || rewrite lookup_insert_eq || rewrite Hs || rewrite Hf || rewrite Hb
          || cbn [mbind res_bind]).
  by destruct s.
Qed.

Lemma parse_summaries_objects l : strict →
  parse_summaries (JArr ((λ s, JObj (summary_object s)) <$> l)) = Ok l.
Proof using.
  intros H. cbn [parse_summaries]. induction l as [|s l IH]; [done|]. rewrite fmap_cons. cbn [mapM_res].
  rewrite parse_summary_object by done. cbn [mbind res_bind]. by rewrite IH.
Qed.

Lemma parse_report_object now stamp r : strict → to_datetime (JStr stamp) = Ok (fr_generated_at r) →
  parse_report now (JObj (report_object stamp r)) = Ok r.
Proof using.
  intros H Ht. pose proof H as (Hs & _). unfold parse_report, model, required, field, report_object.
  cbn [list_to_map foldr fst snd].
  repeat ((rewrite lookup_insert_ne by done) || rewrite lookup_insert_eq || rewrite Hs || rewrite Ht
          || (rewrite parse_summaries_objects by done) || cbn [mbind res_bind]).
  by destruct r.
Qed.

(** What headquarters answers for a text that is read as a report. *)
Lemma ingest_spec now t r key : strict → transmits t r →
  ingest_diode_report now t key =
    if negb (digest_matches r) then (false, "TAMPER_DETECTED: Digest mismatch", None)
    else if signature_accepted key r then (true, "VERIFIED", Some r)
    else (false, "SIGNATURE_INVALID: Cryptographic verification failed", None).
Proof using.
  intros Hs (stamp & Hl & Ht). unfold ingest_diode_report, digest_matches, signature_accepted. rewrite Hl.
  cbn [mbind res_bind]. rewrite parse_report_object by done. destruct (str_eqb _ _); [|done]. cbn [negb].
  destruct key as [key|]; [|done]. destruct (str_empty _), (signature_verifies _ _ _); done.
Qed.

Lemma ingest_accepted now t key msg r : ingest_diode_report now t key = (true, msg, Some r) →
  digest_matches r = true ∧ signature_accepted key r = true.
Proof using.
  unfold ingest_diode_report, digest_matches, signature_accepted.
  destruct (data ← loads t; parse_report now data) as [r'|e]; [|discriminate].
  destruct (str_eqb _ _) eqn:E; [|discriminate]. cbn [negb]. destruct key as [key|].
  - destruct (str_empty _) eqn:E1, (signature_verifies _ _ _) eqn:E2; cbn [negb andb]; intros [= _ <-];
      rewrite ?E, ?E1, ?E2; done.
  - intros [= _ <-]. by rewrite E.
Qed.

(** Round trip: a report made by an enclave, signed or not, whose text is
    transmitted unchanged is verified at headquarters with the matching key, and
    arrives as it was made. *)
Theorem report_verifies enclave classification corridors key pub now now' r t :
  strict → (∀ k m, key = Some k → ed_verify pub (ed_sign k m) m = true) →
  create_tactical_report enclave classification corridors key now = Ok r → transmits t r →
  ingest_diode_report now' t (Some pub) = (true, "VERIFIED", Some r) ∧
  ingest_diode_report now' t None = (true, "VERIFIED", Some r) ∧
  length (fr_corridor_summaries r) = length corridors.
Proof using.
  intros Hs Hkey Hr Ht. unfold create_tactical_report in Hr. inv_ok.
  assert (Hd : ∀ r, fr_sha256_digest r = content_digest (fr_corridor_summaries r) → digest_matches r = true).
  { intros r E. unfold digest_matches. rewrite E. by apply str_eqb_true. }
  rewrite !(ingest_spec _ _ _ _ Hs Ht), Hd by done. cbn [negb]. split_and!; [|done|].
  - unfold signature_accepted, signature_verifies. cbn. destruct key as [k|]; [|done].
    rewrite fromhex_hex, (Hkey k) by done. by rewrite orb_true_r.
  - cbn. symmetry. eapply Forall2_length, mapM_res_Forall2. eassumption.
Qed.

(** A collision of the digest among the texts of summaries. *)
Definition payload_collision : Prop := ∃ a b, payload_repr a ≠ payload_repr b ∧ content_digest a = content_digest b.

(** What an accepted signed report proves: its signature verifies on the digest of
    exactly the summaries it carries, so any other summaries the holder of the key
    signed under that digest have the same text, unless the hash has a collision. *)
Theorem accepted_report_signed now t pub msg r :
  ingest_diode_report now t (Some pub) = (true, msg, Some r) → fr_signature_hex r ≠ "" →
  ∃ sig, fromhex (fr_signature_hex r) = Ok sig ∧ ed_verify pub sig (content_digest (fr_corridor_summaries r)) = true ∧
    ∀ summaries, content_digest summaries = fr_sha256_digest r →
      payload_repr summaries = payload_repr (fr_corridor_summaries r) ∨ payload_collision.
Proof using.
  intros H Hne. apply ingest_accepted in H as [Hd Hsig]. unfold digest_matches in Hd. apply str_eqb_true in Hd.
  unfold signature_accepted, signature_verifies in Hsig. destruct (fr_signature_hex r) as [|c s] eqn:E; [done|].
  cbn [str_empty orb] in Hsig. destruct (fromhex _) as [sig|] eqn:Ef; [|discriminate]. exists sig.
  split_and!; [done|by rewrite Hd|]. intros l Hl. destruct (decide (payload_repr l = payload_repr (fr_corridor_summaries r)));
    [by left|right]. exists l, (fr_corridor_summaries r). split; [done|congruence].
Qed.

(** The report with another header. *)
Definition with_header (r : FederatedEnclaveReport) (enclave classification exported : string) : FederatedEnclaveReport :=
  {| fr_report_id := fr_report_id r; fr_origin_enclave_id := enclave; fr_origin_classification := classification;
     fr_exported_classification := exported; fr_generated_at := fr_generated_at r;
     fr_corridor_summaries := fr_corridor_summaries r; fr_sha256_digest := fr_sha256_digest r;
     fr_signature_hex := fr_signature_hex r |}.

(** What verification does not establish.  A report without a signature is
    verified even by a headquarters that has a key, whatever its summaries; and the
    enclave and the classifications of a verified report can be replaced. *)
Theorem verification_gaps now t r :
  strict → transmits t r → digest_matches r = true →
  (fr_signature_hex r = "" → ∀ key, ingest_diode_report now t key = (true, "VERIFIED", Some r)) ∧
  (∀ key t' e c x, ingest_diode_report now t key = (true, "VERIFIED", Some r) → transmits t' (with_header r e c x) →
    ingest_diode_report now t' key = (true, "VERIFIED", Some (with_header r e c x))).
Proof using.
  intros Hs Ht Hd. split.
  - intros E key. rewrite (ingest_spec _ _ _ _ Hs Ht), Hd. unfold signature_accepted. rewrite E. by destruct key.
  - intros key t' e c x Hacc Ht'. apply ingest_accepted in Hacc as [_ Hsig].
    rewrite (ingest_spec _ _ _ _ Hs Ht'). unfold digest_matches, signature_accepted, with_header in *. cbn. by rewrite Hd, Hsig.
Qed.

End federation.

(** ** Concrete reports *)

Definition sample_dumps (v : json) : string := match v with JArr l => "corridors: " +:+ str_nat (length l) | _ => "" end.
Definition sample_sign (_ : unit) (m : string) : string := m.
Definition sample_verify (_ : unit) (s m : string) : bool := str_eqb s m.
Definition sample_stamp : datetime := {| dt_us := 0; dt_aware := true |}.
Definition sample_datetime (_ : json) : res datetime := Ok sample_stamp.
Definition sample_corridor : object := list_to_map [("id", JStr "c-1"); ("score", JFloat (lit 0.5))].

Definition sample_summary : TacticalCorridorSummary :=
  {| ts_corridor_id := "c-1"; ts_corridor_name := "Unknown Corridor"; ts_effective_state := "HEALTHY";
     ts_resilience_score := lit 0.5; ts_replenishment_horizon_days := lit 45; ts_has_active_threat := false |}.

Definition sample_report (signature : string) : FederatedEnclaveReport :=
  {| fr_report_id := "FED-E1-corridor"; fr_origin_enclave_id := "E1"; fr_origin_classification := "SECRET";
     fr_exported_classification := "PROTECTED_B // REL_ALLIED"; fr_generated_at := sample_stamp;
     fr_corridor_summaries := [sample_summary]; fr_sha256_digest := "corridors: 1"; fr_signature_hex := signature |}.

(** A parser that reads every text as this report. *)
Definition sample_loads (r : FederatedEnclaveReport) (_ : string) : res json := Ok (JObj (report_object "t" r)).

Lemma sample_strict : strict strict_str strict_float strict_bool.
Proof. split_and!; done. Qed.

Lemma sample_created : create_tactical_report (λ s, s) sample_dumps sample_sign (λ _, "") (λ s, Raise (ValueError s))
  "E1" "SECRET" [sample_corridor] (Some tt) sample_stamp = Ok (sample_report (hex "corridors: 1")).
Proof. vm_compute. reflexivity. Qed.

Lemma report_verifies_witness :
  let r := sample_report (hex "corridors: 1") in
  ingest_diode_report (λ s, s) sample_dumps (sample_loads r) sample_verify (λ _, "") strict_str strict_float strict_bool
    sample_datetime sample_stamp "text" (Some tt) = (true, "VERIFIED", Some r).
Proof.
  intros r.
  destruct (report_verifies (λ s, s) sample_dumps (sample_loads r) sample_sign sample_verify (λ _, "")
    (λ s, Raise (ValueError s)) (λ _, "") strict_str strict_float strict_bool sample_datetime
    "E1" "SECRET" [sample_corridor] (Some tt) tt sample_stamp sample_stamp r "text") as [H _];
    [exact sample_strict| |exact sample_created|exists "t"; done|exact H].
  intros k m _. by apply str_eqb_true.
Defined.

Lemma accepted_report_signed_witness :
  let r := sample_report (hex "corridors: 1") in
  ∃ sig, fromhex (fr_signature_hex r) = Ok sig ∧ sample_verify tt sig "corridors: 1" = true.
Proof.
  intros r.
  destruct (accepted_report_signed (λ s, s) sample_dumps (sample_loads r) sample_verify (λ _, "") strict_str strict_float
    strict_bool sample_datetime sample_stamp "text" tt "VERIFIED" r) as (sig & Hsig & Hv & _);
    [vm_compute; reflexivity|discriminate|].
  exists sig. split; [exact Hsig|exact Hv].
Defined.

Lemma verification_gaps_witness :
  let r := sample_report "" in
  ingest_diode_report (λ s, s) sample_dumps (sample_loads r) sample_verify (λ _, "") strict_str strict_float strict_bool
    sample_datetime sample_stamp "text" (Some tt) = (true, "VERIFIED", Some r).
Proof.
  intros r.
  destruct (verification_gaps (λ s, s) sample_dumps (sample_loads r) sample_verify (λ _, "") strict_str strict_float
    strict_bool sample_datetime sample_stamp "text" r) as [H _];
    [exact sample_strict|exists "t"; done|reflexivity|exact (H eq_refl (Some tt))].
Defined.
