(* ===== verification/Tactical.v ===== *)
(** * tactical.py: drones, satellite terminals and counter-drone sensors

    Three engines grade a telemetry frame, a channel and a list of detections; the
    bridge turns their assessments into observations.  [now] is what
    [datetime.now(UTC)] gives, [sha256] the hexadecimal digest and [fresh] the
    identifiers of the observations made. *)

From Stdlib Require Import ZArith QArith Lqa Ascii.
From S2P Require Import Prelude Post PyFloat FloatError FloatMono PyFormat Domain Sources Fusion Telemetry Threat.

Open Scope Z_scope.

(** ** Drones *)

Record UAVTelemetryFrame := {
  uf_drone_id : string;
  uf_latitude : float;
  uf_longitude : float;
  uf_altitude_m_msl : float;
  uf_ground_speed_mps : float;
  uf_climb_rate_mps : float;
  uf_roll_deg : float;
  uf_pitch_deg : float;
  uf_yaw_deg : float;
  uf_battery_state_of_charge : float;
  uf_rf_link_margin_db : float;
  uf_optical_flow_quality : float;
  uf_eoir_detections_count : Z;
  uf_is_gps_spoofed_or_denied : bool;
  uf_timestamp : datetime
}.

Definition between_f (a b x : float) : bool := (a <=? x)%F && (x <=? b)%F.

Definition new_UAVTelemetryFrame (f : UAVTelemetryFrame) : res UAVTelemetryFrame :=
  _ ← require (between_f (lit (-90)) (lit 90) (uf_latitude f)) "latitude";
  _ ← require (between_f (lit (-180)) (lit 180) (uf_longitude f)) "longitude";
  _ ← require (f0 <=? uf_ground_speed_mps f)%F "ground_speed_mps";
  _ ← require (between_f (lit (-180)) (lit 180) (uf_roll_deg f)) "roll_deg";
  _ ← require (between_f (lit (-90)) (lit 90) (uf_pitch_deg f)) "pitch_deg";
  _ ← require (between_f f0 (lit 360) (uf_yaw_deg f)) "yaw_deg";
  _ ← require (is_score (uf_battery_state_of_charge f)) "battery_state_of_charge";
  _ ← require (is_score (uf_optical_flow_quality f)) "optical_flow_quality";
  _ ← require (0 <=? uf_eoir_detections_count f) "eoir_detections_count";
  Ok f.

Record UAVSurveillanceAssessment := {
  ua_drone_id : string;
  ua_airworthiness_status : string;
  ua_swarm_cohesion_score : float;
  ua_link_health_score : float;
  ua_navigation_integrity_score : float;
  ua_tactical_risk_score : float;
  ua_indicators : list string;
  ua_advisory_directive : string
}.

Definition new_UAVSurveillanceAssessment (a : UAVSurveillanceAssessment) : res UAVSurveillanceAssessment :=
  _ ← require (is_score (ua_swarm_cohesion_score a)) "swarm_cohesion_score";
  _ ← require (is_score (ua_link_health_score a)) "link_health_score";
  _ ← require (is_score (ua_navigation_integrity_score a)) "navigation_integrity_score";
  _ ← require (is_score (ua_tactical_risk_score a)) "tactical_risk_score";
  Ok a.

(** The link: indicators, health, risk. *)
Definition uav_link (f : UAVTelemetryFrame) : list string * float * float :=
  let margin := uf_rf_link_margin_db f in
  if (margin <? lit 6)%F then
    (["Severe RF link degradation (" +:+ fmt_fixed 1 margin +:+ " dB margin)"], lit 0.2, lit 0.8)
  else if (margin <? lit 12)%F then
    (["Moderate RF attenuation (" +:+ fmt_fixed 1 margin +:+ " dB margin)"], lit 0.6, lit 0.4)
  else ([], lit 0.95, lit 0.05).

(** Navigation: indicators, integrity, risk. *)
Definition uav_navigation (f : UAVTelemetryFrame) : list string * float * float :=
  if uf_is_gps_spoofed_or_denied f then
    if (uf_optical_flow_quality f <? lit 0.4)%F then
      (["GPS/GNSS denied; relying on Optical Flow / VIO odometry";
        "Optical flow degraded (" +:+ fmt_fixed 2 (uf_optical_flow_quality f) +:+ "); drift critical"], lit 0.2, lit 0.9)
    else (["GPS/GNSS denied; relying on Optical Flow / VIO odometry"], lit 0.7, lit 0.35)
  else ([], lit 0.98, lit 0.02).

(** The battery: indicators, risks, status, advisory. *)
Definition uav_battery (f : UAVTelemetryFrame) : list string * list float * string * string :=
  let charge := uf_battery_state_of_charge f in
  if (charge <? lit 0.15)%F then
    (["Battery critically low (" +:+ fmt_percent 1 charge +:+ ")"], [lit 0.95], "CRITICAL_RETURN_TO_BASE",
     "Initiate immediate automated Return-to-Base (RTB) on secondary INS vector")
  else if (charge <? lit 0.25)%F then
    (["Battery reserve caution (" +:+ fmt_percent 1 charge +:+ ")"], [lit 0.4], "DEGRADED",
     "Reroute patrol trajectory towards primary recovery staging zone")
  else ([], [], "NOMINAL", "Maintain tactical surveillance orbit; link and sensor payloads verified").

Definition near_stall (f : UAVTelemetryFrame) : bool :=
  (fabs (uf_pitch_deg f) >? lit 45)%F || (fabs (uf_roll_deg f) >? lit 60)%F.

(** [round(sum(risks) / max(1, len(risks)), 3)] *)
Definition mean_risk (risks : list float) : res float :=
  q ← fdiv (fsum risks) (f_of_Z (Z.max 1 (Z.of_nat (length risks)))); Ok (fround 3 q).

Definition analyze_frame (f : UAVTelemetryFrame) : res UAVSurveillanceAssessment :=
  let '(link_text, link_health, link_risk) := uav_link f in
  let '(nav_text, nav_integrity, nav_risk) := uav_navigation f in
  let '(battery_text, battery_risk, status, advisory) := uav_battery f in
  let stall := near_stall f in
  let stall_text := if stall then
      ["Flight near stall (Pitch=" +:+ fmt_fixed 1 (uf_pitch_deg f) +:+ "°, Roll=" +:+ fmt_fixed 1 (uf_roll_deg f) +:+ "°)"]
    else [] in
  let stall_risk := if stall then [lit 0.7] else [] in
  let status := if stall then "DEGRADED" else status in
  total_risk ← mean_risk ([link_risk; nav_risk] ++ battery_risk ++ stall_risk);
  let swarm_cohesion := fround 2 (fmax f0 (f1 - total_risk * lit 0.8)%F) in
  let status := if (total_risk >=? lit 0.75)%F then "CRITICAL_RETURN_TO_BASE" else status in
  new_UAVSurveillanceAssessment
    {| ua_drone_id := uf_drone_id f; ua_airworthiness_status := status; ua_swarm_cohesion_score := swarm_cohesion;
       ua_link_health_score := fround 2 link_health; ua_navigation_integrity_score := fround 2 nav_integrity;
       ua_tactical_risk_score := total_risk; ua_indicators := link_text ++ nav_text ++ battery_text ++ stall_text;
       ua_advisory_directive := advisory |}.

(** ** Satellite terminals *)

Record StarlinkTelemetry := {
  st_terminal_id : string;
  st_downlink_throughput_mbps : float;
  st_uplink_throughput_mbps : float;
  st_round_trip_latency_ms : float;
  st_packet_loss_rate : float;
  st_obstruction_fraction : float;
  st_snr_db : float;
  st_beam_handover_jitter_ms : float;
  st_rain_fade_attenuation_db : float;
  st_timestamp : datetime
}.

Definition new_StarlinkTelemetry (t : StarlinkTelemetry) : res StarlinkTelemetry :=
  _ ← require (f0 <=? st_downlink_throughput_mbps t)%F "downlink_throughput_mbps";
  _ ← require (f0 <=? st_uplink_throughput_mbps t)%F "uplink_throughput_mbps";
  _ ← require (f0 <=? st_round_trip_latency_ms t)%F "round_trip_latency_ms";
  _ ← require (is_score (st_packet_loss_rate t)) "packet_loss_rate";
  _ ← require (is_score (st_obstruction_fraction t)) "obstruction_fraction";
  _ ← require (f0 <=? st_beam_handover_jitter_ms t)%F "beam_handover_jitter_ms";
  _ ← require (f0 <=? st_rain_fade_attenuation_db t)%F "rain_fade_attenuation_db";
  Ok t.

Record StarlinkAssessment := {
  sl_terminal_id : string;
  sl_channel_state : string;
  sl_availability_score : float;
  sl_effective_bandwidth_score : float;
  sl_latency_threat_score : float;
  sl_indicators : list string;
  sl_advisory : string
}.

Definition new_StarlinkAssessment (a : StarlinkAssessment) : res StarlinkAssessment :=
  _ ← require (is_score (sl_availability_score a)) "availability_score";
  _ ← require (is_score (sl_effective_bandwidth_score a)) "effective_bandwidth_score";
  _ ← require (is_score (sl_latency_threat_score a)) "latency_threat_score";
  Ok a.

(** One [if test: indicators.append(text); risk += weight]. *)
Definition raise_risk (test : bool) (text : string) (weight : float) (acc : list string * float) : list string * float :=
  if test then (acc.1 ++ [text], (acc.2 + weight)%F) else acc.

Definition channel_risk (t : StarlinkTelemetry) : list string * float :=
  let rtt := st_round_trip_latency_ms t in
  let high := (rtt >? lit 120)%F in
  raise_risk (st_packet_loss_rate t >? lit 0.05)%F ("High packet loss (" +:+ fmt_percent 1 (st_packet_loss_rate t) +:+ ")") (lit 0.35)
    (raise_risk (st_obstruction_fraction t >? lit 0.10)%F
       ("Sky view obstruction (" +:+ fmt_percent 1 (st_obstruction_fraction t) +:+ ") causing dropouts") (lit 0.4)
    (raise_risk (st_rain_fade_attenuation_db t >? lit 8)%F
       ("Severe atmospheric rain fade (" +:+ fmt_fixed 1 (st_rain_fade_attenuation_db t) +:+ " dB)") (lit 0.3)
    (raise_risk (st_beam_handover_jitter_ms t >? lit 25)%F
       ("Satellite handover jitter spike (" +:+ fmt_fixed 1 (st_beam_handover_jitter_ms t) +:+ " ms)") (lit 0.2)
    (raise_risk (negb high && (rtt >? lit 65)%F) ("Elevated latency (" +:+ fmt_fixed 1 rtt +:+ " ms)") (lit 0.15)
    (raise_risk high ("High LEO RTT latency (" +:+ fmt_fixed 1 rtt +:+ " ms) exceeds SLA") (lit 0.35) ([], f0)))))).

Definition channel_state (avail_score : float) (t : StarlinkTelemetry) : string * string :=
  if (avail_score <? lit 0.2)%F then
    ("OFFLINE", "Failover tactical comms to secondary Iridium Certus / terrestrial HF mesh")
  else if (st_rain_fade_attenuation_db t >? lit 8)%F then
    ("RAIN_FADE_ATTENUATED", "Enable adaptive coding (ACM) & prioritize telemetry over video feeds")
  else if (st_round_trip_latency_ms t >? lit 100)%F then
    ("DEGRADED_LATENCY", "Buffer telemetry frames; suppress non-critical drone payload streams")
  else ("OPTIMAL", "LEO Constellation locked; beam handover nominal").

Definition evaluate_channel (t : StarlinkTelemetry) : res StarlinkAssessment :=
  let '(indicators, risk) := channel_risk t in
  bandwidth ← fdiv (st_downlink_throughput_mbps t) (lit 100);
  let bw_score := fmin f1 bandwidth in
  let threat_score := fmin f1 risk in
  let avail_score := fmax f0 (f1 - threat_score)%F in
  let '(state, advisory) := channel_state avail_score t in
  new_StarlinkAssessment
    {| sl_terminal_id := st_terminal_id t; sl_channel_state := state; sl_availability_score := fround 2 avail_score;
       sl_effective_bandwidth_score := fround 2 bw_score; sl_latency_threat_score := fround 2 threat_score;
       sl_indicators := indicators; sl_advisory := advisory |}.

(** ** Counter-drone sensors *)

Record CUASDetectionEvent := {
  ce_sensor_id : string;
  ce_detected_target_id : string;
  ce_frequency_mhz : float;
  ce_protocol_fingerprint : string;
  ce_rf_signal_strength_dbm : float;
  ce_bearing_azimuth_deg : float;
  ce_elevation_deg : float;
  ce_estimated_distance_m : float;
  ce_radar_cross_section_sqm : float;
  ce_micro_doppler_blade_count : Z;
  ce_is_swarm_formation : bool;
  ce_interdiction_active : bool;
  ce_interdiction_type : string;
  ce_timestamp : datetime
}.

Definition new_CUASDetectionEvent (e : CUASDetectionEvent) : res CUASDetectionEvent :=
  _ ← require (between_f f0 (lit 360) (ce_bearing_azimuth_deg e)) "bearing_azimuth_deg";
  _ ← require (between_f (lit (-90)) (lit 90) (ce_elevation_deg e)) "elevation_deg";
  _ ← require (f0 <=? ce_estimated_distance_m e)%F "estimated_distance_m";
  _ ← require (f0 <=? ce_radar_cross_section_sqm e)%F "radar_cross_section_sqm";
  _ ← require (0 <=? ce_micro_doppler_blade_count e) "micro_doppler_blade_count";
  Ok e.

Record CUASAssessment := {
  cu_airspace_sector : string;
  cu_threat_severity : ThreatSeverity;
  cu_detected_drones_count : Z;
  cu_swarm_likelihood : float;
  cu_electronic_warfare_active : bool;
  cu_recommended_interdiction : string;
  cu_tactical_summary : string
}.

Definition new_CUASAssessment (a : CUASAssessment) : res CUASAssessment :=
  _ ← require (is_score (cu_swarm_likelihood a)) "swarm_likelihood"; Ok a.

Definition military (e : CUASDetectionEvent) : bool :=
  mem_str (ce_protocol_fingerprint e) ["CUSTOM_FHSS"; "UNKNOWN_DIRECT_SEQUENCE"].

(** What the distance adds to the score. *)
Definition distance_weight (e : CUASDetectionEvent) : float :=
  if (ce_estimated_distance_m e <? lit 500)%F then lit 0.4
  else if (ce_estimated_distance_m e <? lit 2000)%F then lit 0.2
  else lit 0.1.

(** The body of the loop over the events. *)
Definition event_step (acc : list string * float) (e : CUASDetectionEvent) : list string * float :=
  let '(indicators, threat_score) := acc in
  let indicators := indicators ++ ["Target " +:+ ce_detected_target_id e +:+ " [" +:+ ce_protocol_fingerprint e +:+ "]: "
    +:+ fmt_fixed 0 (ce_estimated_distance_m e) +:+ "m, RCS=" +:+ fmt_fixed 3 (ce_radar_cross_section_sqm e) +:+ "m²"] in
  let threat_score := (threat_score + distance_weight e)%F in
  if military e then
    (indicators ++ ["Target " +:+ ce_detected_target_id e +:+ " using military FHSS spread spectrum"], (threat_score + lit 0.25)%F)
  else (indicators, threat_score).

Definition is_swarm (events : list CUASDetectionEvent) : bool :=
  (3 <=? length events)%nat || existsb ce_is_swarm_formation events.

Definition swarm_score (events : list CUASDetectionEvent) : float :=
  let threat_score := (foldl event_step ([], f0) events).2 in
  fmin f1 (if is_swarm events then threat_score + lit 0.35 else threat_score)%F.

Definition cuas_level (score : float) : string :=
  if (score >=? lit 0.75)%F then "CRITICAL" else if (score >=? lit 0.45)%F then "HIGH" else "MEDIUM".

Definition cuas_remedy (score : float) : string :=
  if (score >=? lit 0.75)%F then "Authorize directional C-UAS RF barrage jamming; prepare kinetic net intercept"
  else if (score >=? lit 0.45)%F then "Activate targeted RF protocol disruption; focus PTZ EO/IR cameras on bearing"
  else "Track target trajectory and log RF signature".

Definition analyze_events (sector : string) (events : list CUASDetectionEvent) : res CUASAssessment :=
  match events with
  | [] =>
      threat ← new_ThreatSeverity
        {| tv_level := "NOMINAL"; tv_score := lit 0.05; tv_confidence := lit 0.95;
           tv_indicators := ["Airspace clear; no unauthorized RF or radar drone signatures"];
           tv_remediation_recommendation := "" |};
      new_CUASAssessment
        {| cu_airspace_sector := sector; cu_threat_severity := threat; cu_detected_drones_count := 0;
           cu_swarm_likelihood := f0; cu_electronic_warfare_active := false;
           cu_recommended_interdiction := "Maintain passive RF spectral monitoring";
           cu_tactical_summary := "Sector " +:+ sector +:+ " airspace nominal." |}
  | _ =>
      let swarm_count := Z.of_nat (length events) in
      let swarm := is_swarm events in
      let ew_active := existsb ce_interdiction_active events in
      let indicators := (foldl event_step ([], f0) events).1
        ++ (if swarm then ["Swarm attack pattern: " +:+ str_Z swarm_count +:+ " coordinated targets in sector"] else []) in
      let threat_score := swarm_score events in
      let level := cuas_level threat_score in
      let remed := cuas_remedy threat_score in
      threat ← new_ThreatSeverity
        {| tv_level := level; tv_score := fround 3 threat_score; tv_confidence := lit 0.94; tv_indicators := indicators;
           tv_remediation_recommendation := remed |};
      new_CUASAssessment
        {| cu_airspace_sector := sector; cu_threat_severity := threat; cu_detected_drones_count := swarm_count;
           cu_swarm_likelihood := if swarm then lit 0.9 else fmin (lit 0.4) (f_of_Z swarm_count * lit 0.15)%F;
           cu_electronic_warfare_active := ew_active; cu_recommended_interdiction := remed;
           cu_tactical_summary := "C-UAS Threat Level " +:+ level +:+ " in " +:+ sector +:+ ": " +:+ str_Z swarm_count
             +:+ " active targets. Swarm: " +:+ (if swarm then "CONFIRMED" else "UNLIKELY")
             +:+ ". Interdiction: " +:+ (if ew_active then "ACTIVE" else "STANDBY") +:+ "." |}
  end.

(** ** The bridge *)

(** [str(d)]: the ISO form with a space for the T. *)
Definition str_datetime (d : datetime) : string :=
  str_map (λ c, if Ascii.eqb c "T" then " "%char else c) (isoformat d).

Definition new_GeoPoint (p : GeoPoint) : res GeoPoint :=
  _ ← require (between_f (lit (-90)) (lit 90) (latitude p)) "latitude";
  _ ← require (between_f (lit (-180)) (lit 180) (longitude p)) "longitude"; Ok p.

Section bridge.
Context (sha256 : string → string) (now : datetime).

Definition tactical_provenance (uri content : string) : res Provenance :=
  new_Provenance {| prov_uri := uri; prov_retrieved_at := now; prov_content_sha256 := sha256 content;
                    prov_snapshot_id := None; prov_licence := Some "sovereign-tactical" |}.

Definition tactical_fields (fresh source_id : string) (prov : Provenance) (location : option GeoPoint)
    (class : AssertionClass) (metric : MetricName) (value : float) (unit : string) (confidence : Q)
    (metadata : dict string pyval) : Observation :=
  {| obs_observation_id := fresh; obs_source_id := source_id; obs_source_trust := ST_AUTHENTICATED_OPERATOR;
     obs_assertion_class := class; obs_metric := metric; obs_value := value; obs_unit := unit; obs_observed_at := now;
     obs_valid_until := None; obs_location := location; obs_confidence := lit confidence; obs_provenance := prov;
     obs_metadata := metadata |}.

Definition tactical_observation fresh source_id prov location class metric value unit confidence metadata : res Observation :=
  new_Observation (tactical_fields fresh source_id prov location class metric value unit confidence metadata).

Definition uav_to_observations (fresh : nat → string) (a : UAVSurveillanceAssessment) (f : UAVTelemetryFrame)
    (source_id : string) : res (list Observation) :=
  prov ← tactical_provenance ("tactical://uav/" +:+ uf_drone_id f) (uf_drone_id f +:+ ":" +:+ str_datetime (uf_timestamp f));
  location ← new_GeoPoint {| latitude := uf_latitude f; longitude := uf_longitude f |};
  o1 ← tactical_observation (fresh 0%nat) source_id prov (Some location) AC_TACTICAL_SURVEILLANCE M_UAV_LINK_MARGIN
         (fmax f0 (uf_rf_link_margin_db f)) "dB" 0.95
         [("drone_id", VStr (uf_drone_id f)); ("status", VStr (ua_airworthiness_status a))];
  o2 ← tactical_observation (fresh 1%nat) source_id prov (Some location) AC_TACTICAL_SURVEILLANCE M_UAV_SWARM_COHESION
         (ua_swarm_cohesion_score a) "score" 0.92 [("drone_id", VStr (uf_drone_id f))];
  Ok [o1; o2].

Definition starlink_to_observations (fresh : nat → string) (a : StarlinkAssessment) (t : StarlinkTelemetry)
    (source_id : string) : res (list Observation) :=
  prov ← tactical_provenance ("tactical://starlink/" +:+ st_terminal_id t)
           (st_terminal_id t +:+ ":" +:+ str_datetime (st_timestamp t));
  o1 ← tactical_observation (fresh 0%nat) source_id prov None AC_LEO_SATCOM M_STARLINK_LATENCY_MS
         (st_round_trip_latency_ms t) "ms" 0.96
         [("terminal_id", VStr (st_terminal_id t)); ("state", VStr (sl_channel_state a))];
  o2 ← tactical_observation (fresh 1%nat) source_id prov None AC_LEO_SATCOM M_STARLINK_DOWNLINK_MBPS
         (st_downlink_throughput_mbps t) "mbps" 0.96 [("terminal_id", VStr (st_terminal_id t))];
  o3 ← tactical_observation (fresh 2%nat) source_id prov None AC_LEO_SATCOM M_STARLINK_OBSTRUCTION_RATE
         (st_obstruction_fraction t) "fraction" 0.95 [("terminal_id", VStr (st_terminal_id t))];
  Ok [o1; o2; o3].

Definition cuas_to_observations (fresh : nat → string) (a : CUASAssessment) (sector source_id : string)
    : res (list Observation) :=
  prov ← tactical_provenance ("tactical://cuas/" +:+ sector) (sector +:+ ":" +:+ isoformat now);
  o1 ← tactical_observation (fresh 0%nat) source_id prov None AC_COUNTER_UAS M_CUAS_THREAT_DENSITY
         (tv_score (cu_threat_severity a)) "score" 0.94
         [("sector", VStr sector); ("level", VStr (tv_level (cu_threat_severity a)))];
  o2 ← tactical_observation (fresh 1%nat) source_id prov None AC_COUNTER_UAS M_CUAS_JAMMING_ACTIVE
         (if cu_electronic_warfare_active a then f1 else f0) "binary" 0.99 [("sector", VStr sector)];
  Ok [o1; o2].
End bridge.

(** ** Drones: the status as a table *)

(** The alarms of a frame. *)
Definition low_battery (f : UAVTelemetryFrame) : bool := (uf_battery_state_of_charge f <? lit 0.15)%F.
Definition caution_battery (f : UAVTelemetryFrame) : bool := (uf_battery_state_of_charge f <? lit 0.25)%F && negb (low_battery f).
Definition severe_link (f : UAVTelemetryFrame) : bool := (uf_rf_link_margin_db f <? lit 6)%F.
Definition drifting (f : UAVTelemetryFrame) : bool := uf_is_gps_spoofed_or_denied f && (uf_optical_flow_quality f <? lit 0.4)%F.

Definition uav_status (f : UAVTelemetryFrame) : string :=
  if low_battery f && negb (near_stall f) || severe_link f && drifting f && negb (caution_battery f) then "CRITICAL_RETURN_TO_BASE"
  else if near_stall f || caution_battery f then "DEGRADED"
  else "NOMINAL".

(** The mean risk for the alarms, and what it decides. *)
Definition risk_check (severe moderate denied poor low caution stall : bool) : bool :=
  match mean_risk ([if severe then lit 0.8 else if moderate then lit 0.4 else lit 0.05;
                    if denied then if poor then lit 0.9 else lit 0.35 else lit 0.02]
                   ++ (if low then [lit 0.95] else if caution then [lit 0.4] else []) ++ (if stall then [lit 0.7] else [])) with
  | Ok r => is_score r && is_score (fround 2 (fmax f0 (f1 - r * lit 0.8)%F))
      && Bool.eqb (lit 0.75 <=? r)%F
           (severe && (denied && poor) && (low || negb caution) || negb severe && moderate && (denied && poor) && low && negb stall)
  | Raise _ => false
  end.

Lemma risk_table severe moderate denied poor low caution stall : risk_check severe moderate denied poor low caution stall = true.
Proof. destruct severe, moderate, denied, poor, low, caution, stall; vm_compute; reflexivity. Qed.

Lemma uav_link_shape f : ∃ text health,
  uav_link f = (text, health, if severe_link f then lit 0.8 else if (uf_rf_link_margin_db f <? lit 12)%F then lit 0.4 else lit 0.05) ∧
  is_score (fround 2 health) = true.
Proof.
  unfold uav_link, severe_link. destruct (_ <? lit 6)%F; [|destruct (_ <? lit 12)%F]; eexists _, _; (split; [reflexivity|]); vm_compute; reflexivity.
Qed.

Lemma uav_navigation_shape f : ∃ text integrity,
  uav_navigation f = (text, integrity,
    if uf_is_gps_spoofed_or_denied f then if (uf_optical_flow_quality f <? lit 0.4)%F then lit 0.9 else lit 0.35 else lit 0.02) ∧
  is_score (fround 2 integrity) = true.
Proof.
  unfold uav_navigation. destruct (uf_is_gps_spoofed_or_denied f); [destruct (_ <? lit 0.4)%F|]; eexists _, _; (split; [reflexivity|]);
    vm_compute; reflexivity.
Qed.

Definition battery_status (low caution : bool) : string :=
  if low then "CRITICAL_RETURN_TO_BASE" else if caution then "DEGRADED" else "NOMINAL".

Lemma uav_battery_shape f : ∃ text advisory,
  uav_battery f = (text, if low_battery f then [lit 0.95] else if (uf_battery_state_of_charge f <? lit 0.25)%F then [lit 0.4] else [],
    battery_status (low_battery f) (uf_battery_state_of_charge f <? lit 0.25)%F, advisory) ∧
  (advisory = "Initiate immediate automated Return-to-Base (RTB) on secondary INS vector" ↔ low_battery f = true).
Proof.
  unfold uav_battery, low_battery. destruct (_ <? lit 0.15)%F; [|destruct (_ <? lit 0.25)%F]; eexists _, _; (split; [reflexivity|]);
    by split.
Qed.

(** The analysis of any frame returns an assessment in range.  The drone is called
    back exactly when its battery is below 15 % and it is not near a stall, or when a
    severe link loss meets an uncorrected drift and the battery is not in the caution
    band; it is DEGRADED exactly for the other stalls and caution batteries, so it is
    never told to land at once.  The advisory depends on the battery alone. *)
Theorem uav_exact f : ∃ a, analyze_frame f = Ok a ∧ ua_airworthiness_status a = uav_status f ∧
  is_score (ua_tactical_risk_score a) = true ∧ is_score (ua_swarm_cohesion_score a) = true ∧
  ua_airworthiness_status a ≠ "EMERGENCY_LANDING" ∧
  (ua_advisory_directive a = "Initiate immediate automated Return-to-Base (RTB) on secondary INS vector" ↔ low_battery f = true).
Proof.
  pose proof (risk_table (severe_link f) (uf_rf_link_margin_db f <? lit 12)%F (uf_is_gps_spoofed_or_denied f)
    (uf_optical_flow_quality f <? lit 0.4)%F (low_battery f) (uf_battery_state_of_charge f <? lit 0.25)%F (near_stall f)) as T.
  destruct (uav_link_shape f) as (t1 & h1 & E1 & S1). destruct (uav_navigation_shape f) as (t2 & h2 & E2 & S2).
  destruct (uav_battery_shape f) as (t3 & adv & E3 & S3).
  unfold risk_check in T. unfold analyze_frame. rewrite E1, E2, E3. destruct (mean_risk _) as [r|] in T |- *; [|done].
  apply andb_true_iff in T as [[T1 T2]%andb_true_iff T3%eqb_prop]. cbn [mbind res_bind].
  unfold new_UAVSurveillanceAssessment.
  cbn [ua_swarm_cohesion_score ua_link_health_score ua_navigation_integrity_score ua_tactical_risk_score].
  rewrite T1, T2, S1, S2. cbn [require mbind res_bind]. eexists. split; [reflexivity|].
  cbn [ua_airworthiness_status ua_tactical_risk_score ua_swarm_cohesion_score ua_advisory_directive]. rewrite T3.
  unfold uav_status, caution_battery, drifting. split_and!; [|done|done| |done].
  - by destruct (severe_link f), (_ <? lit 12)%F, (uf_is_gps_spoofed_or_denied f), (_ <? lit 0.4)%F, (low_battery f), (_ <? lit 0.25)%F, (near_stall f).
  - destruct (_ || _); [discriminate|]. destruct (near_stall f); [discriminate|]. unfold battery_status.
    destruct (low_battery f); [discriminate|]. destruct (_ <? lit 0.25)%F; discriminate.
Qed.

(** ** Satellite terminals: the score counts points *)

(** The outage points of a channel, in hundredths. *)
Definition outage_points (t : StarlinkTelemetry) : Z :=
  (if (lit 120 <? st_round_trip_latency_ms t)%F then 35 else if (lit 65 <? st_round_trip_latency_ms t)%F then 15 else 0)
  + (if (lit 25 <? st_beam_handover_jitter_ms t)%F then 20 else 0)
  + (if (lit 8 <? st_rain_fade_attenuation_db t)%F then 30 else 0)
  + (if (lit 0.1 <? st_obstruction_fraction t)%F then 40 else 0)
  + (if (lit 0.05 <? st_packet_loss_rate t)%F then 35 else 0).

Definition hundredths (z : Z) : float := fl (inject_Z z / inject_Z 100).

(** The sum of the weights, and the checks on it, by alarm. *)
Definition weigh (b : bool) (w risk : float) : float := if b then (risk + w)%F else risk.

Definition points_check (high elevated jitter rain obstructed loss : bool) : bool :=
  let risk := weigh loss (lit 0.35) (weigh obstructed (lit 0.4) (weigh rain (lit 0.3) (weigh jitter (lit 0.2)
    (weigh (negb high && elevated) (lit 0.15) (weigh high (lit 0.35) f0))))) in
  let points := (if high then 35 else if elevated then 15 else 0) + (if jitter then 20 else 0) + (if rain then 30 else 0)
    + (if obstructed then 40 else 0) + (if loss then 35 else 0) in
  let threat := fmin f1 risk in
  bool_decide (fround 2 threat = hundredths (Z.min 100 points))
  && bool_decide (fround 2 (fmax f0 (f1 - threat)%F) = hundredths (100 - Z.min 100 points))
  && Bool.eqb (fmax f0 (f1 - threat) <? lit 0.2)%F (80 <? points)
  && is_score (hundredths (Z.min 100 points)) && is_score (hundredths (100 - Z.min 100 points)).

Lemma points_table high elevated jitter rain obstructed loss : points_check high elevated jitter rain obstructed loss = true.
Proof. destruct high, elevated, jitter, rain, obstructed, loss; vm_compute; reflexivity. Qed.

Lemma raise_risk_weigh b text w acc : (raise_risk b text w acc).2 = weigh b w acc.2.
Proof. by destruct b. Qed.

(** The rounding errors of the sum never show. *)
Lemma channel_risk_points t :
  let threat := fmin f1 (channel_risk t).2 in
  let points := Z.min 100 (outage_points t) in
  fround 2 threat = hundredths points ∧ fround 2 (fmax f0 (f1 - threat)%F) = hundredths (100 - points) ∧
  (fmax f0 (f1 - threat) <? lit 0.2)%F = (80 <? outage_points t) ∧
  is_score (hundredths points) = true ∧ is_score (hundredths (100 - points)) = true.
Proof.
  pose proof (points_table (st_round_trip_latency_ms t >? lit 120)%F (st_round_trip_latency_ms t >? lit 65)%F
    (st_beam_handover_jitter_ms t >? lit 25)%F (st_rain_fade_attenuation_db t >? lit 8)%F
    (st_obstruction_fraction t >? lit 0.1)%F (st_packet_loss_rate t >? lit 0.05)%F) as T.
  unfold points_check in T. cbv zeta in T |- *. unfold channel_risk, outage_points. rewrite !raise_risk_weigh. cbn [snd].
  apply andb_true_iff in T as [[[[T1%bool_decide_eq_true T2%bool_decide_eq_true]%andb_true_iff T3%eqb_prop]%andb_true_iff T4]%andb_true_iff T5].
  split_and!; assumption.
Qed.

(** The channel engine agrees with integer arithmetic: for every valid telemetry
    it returns an assessment whose threat is the outage points capped at a hundred,
    whose availability is the rest, both in hundredths, and whose state is OFFLINE
    exactly above eighty points, then decided by rain and latency alone: neither
    packet loss nor obstruction nor jitter has a state of its own. *)
Theorem channel_exact t : new_StarlinkTelemetry t = Ok t →
  ∃ a, evaluate_channel t = Ok a ∧
    sl_latency_threat_score a = hundredths (Z.min 100 (outage_points t)) ∧
    sl_availability_score a = hundredths (100 - Z.min 100 (outage_points t)) ∧
    is_score (sl_effective_bandwidth_score a) = true ∧
    sl_channel_state a =
      (if 80 <? outage_points t then "OFFLINE"
       else if (lit 8 <? st_rain_fade_attenuation_db t)%F then "RAIN_FADE_ATTENUATED"
       else if (lit 100 <? st_round_trip_latency_ms t)%F then "DEGRADED_LATENCY"
       else "OPTIMAL").
Proof.
  unfold new_StarlinkTelemetry. intros Hv. inv_ok.
  match goal with E : (f0 <=? st_downlink_throughput_mbps t)%F = true |- _ =>
    destruct (div_nonneg _ (lit 100) E) as (bw & Ebw & Hbw); [done..|] end.
  destruct (channel_risk_points t) as (P1 & P2 & P3 & P4 & P5). unfold evaluate_channel.
  destruct (channel_risk t) as [text risk]. cbn [snd] in *. rewrite Ebw. cbn [mbind res_bind].
  destruct (channel_state _ t) as [state advisory] eqn:Es. unfold channel_state in Es. rewrite P3 in Es.
  unfold new_StarlinkAssessment. cbn [sl_availability_score sl_effective_bandwidth_score sl_latency_threat_score].
  rewrite P1, P2, P4, P5, (score_round 2 (fmin f1 bw)) by (by apply clamp_score). cbn [require mbind res_bind].
  eexists. split; [reflexivity|]. cbn [sl_availability_score sl_effective_bandwidth_score sl_latency_threat_score sl_channel_state].
  split_and!; [done|done|by apply score_round, clamp_score|].
  revert Es. repeat case_match; by intros [= <- _].
Qed.

(** ** Counter-drone sensors: more detections, more threat *)

Definition event_weight (s : float) (e : CUASDetectionEvent) : float := weigh (military e) (lit 0.25) (s + distance_weight e)%F.

Lemma event_scores events acc : (foldl event_step acc events).2 = foldl event_weight acc.2 events.
Proof.
  revert acc. induction events as [|e events IH]; intros [text s]; [done|]. cbn [foldl]. rewrite IH. f_equal.
  unfold event_step, event_weight, weigh. by destruct (military e).
Qed.

Lemma distance_weight_nonneg e : (f0 <=? distance_weight e)%F = true.
Proof. unfold distance_weight. by repeat case_match. Qed.

Lemma event_weight_grows s e : rounded s → (f0 <=? s)%F = true →
  rounded (event_weight s e) ∧ (f0 <=? event_weight s e)%F = true ∧ (s <=? event_weight s e)%F = true.
Proof.
  intros Hr Hs. pose proof (distance_weight_nonneg e) as Hw. unfold event_weight, weigh.
  pose proof (fadd_ge _ _ Hr Hs Hw) as H1. pose proof (rounded_fadd s (distance_weight e)) as Hr1.
  pose proof (fadd_nonneg _ _ Hs Hw) as Hn1. destruct (military e); [|done].
  assert (f0 <=? lit 0.25 = true)%F as Hq by done.
  split_and!; [apply rounded_fadd|by apply fadd_nonneg|]. eapply fleb_trans; [exact H1|]. by apply fadd_ge.
Qed.

Lemma events_grow events s : rounded s → (f0 <=? s)%F = true →
  rounded (foldl event_weight s events) ∧ (f0 <=? foldl event_weight s events)%F = true ∧ (s <=? foldl event_weight s events)%F = true.
Proof.
  revert s. induction events as [|e events IH]; intros s Hr Hs; cbn [foldl].
  { split_and!; [done|done|]. apply fleb_refl. by eapply fleb_not_NaN_r. }
  destruct (event_weight_grows s e Hr Hs) as (H1 & H2 & H3). destruct (IH _ H1 H2) as (K1 & K2 & K3).
  split_and!; [done|done|]. by eapply fleb_trans.
Qed.

Lemma is_swarm_app events more : is_swarm events = true → is_swarm (events ++ more) = true.
Proof.
  unfold is_swarm. rewrite length_app, existsb_app, !orb_true_iff, !Nat.leb_le. intros [H|H]; [left; lia|by auto].
Qed.

Lemma swarm_score_grows events more :
  (f0 <=? swarm_score events)%F = true ∧ is_score (swarm_score events) = true ∧ (swarm_score events <=? swarm_score (events ++ more))%F = true.
Proof.
  unfold swarm_score. rewrite !event_scores, foldl_app. cbn [snd].
  destruct (events_grow events f0) as (R & N & _); [done..|]. set (s := foldl event_weight f0 events) in *.
  destruct (events_grow more s R N) as (R' & N' & L). set (s' := foldl event_weight s more) in *.
  assert (f0 <=? lit 0.35 = true)%F as Hw by done.
  pose proof (fadd_mono _ _ _ L N Hw) as L1. pose proof (fadd_ge _ _ R' N' Hw) as L2.
  assert (∀ b, (f0 <=? if b : bool then s + lit 0.35 else s)%F = true) as Hn by (intros []; [by apply fadd_nonneg|done]).
  pose proof (clamp_score _ (Hn (is_swarm events))) as Hc. split_and!; [by apply (andb_prop _ _ Hc)|done|].
  apply fmin_mono; [done|]. destruct (is_swarm events) eqn:E; [by rewrite (is_swarm_app _ more E)|].
  destruct (is_swarm (events ++ more)); [|done]. by eapply fleb_trans.
Qed.

(** The order of the levels. *)
Definition level_rank (level : string) : Z :=
  if str_eqb level "CRITICAL" then 3 else if str_eqb level "HIGH" then 2 else if str_eqb level "MEDIUM" then 1 else 0.

Lemma cuas_level_mono x y : (x <=? y)%F = true → 1 <= level_rank (cuas_level x) <= level_rank (cuas_level y).
Proof.
  intros H. unfold cuas_level.
  assert ((lit 0.75 <=? x)%F = true → (lit 0.75 <=? y)%F = true) as H1 by (intros E; by eapply fleb_trans).
  assert ((lit 0.45 <=? x)%F = true → (lit 0.45 <=? y)%F = true) as H2 by (intros E; by eapply fleb_trans).
  revert H1 H2. generalize (lit 0.75 <=? x)%F (lit 0.75 <=? y)%F (lit 0.45 <=? x)%F (lit 0.45 <=? y)%F. clear.
  intros [] [] [] [] H1 H2; try (by discriminate H1); try (by discriminate H2); split; vm_compute; discriminate.
Qed.

Lemma swarm_likelihood_score (swarm : bool) n : 0 <= n →
  is_score (if swarm then lit 0.9 else fmin (lit 0.4) (f_of_Z n * lit 0.15)%F) = true.
Proof.
  intros Hn. destruct swarm; [done|]. assert (f0 <=? f_of_Z n = true)%F as H0.
  { pose proof (fl_mono 0 (inject_Z n)) as M. rewrite fl_0 in M. apply M. change 0%Q with (inject_Z 0). by rewrite <-Zle_Qle. }
  assert (f0 <=? f_of_Z n * lit 0.15 = true)%F as H1 by (by apply mul_nonneg).
  unfold is_score, fmin. destruct (fltb _ (lit 0.4)) eqn:E; [|done]. rewrite H1. cbn [andb].
  apply fltb_fleb in E. by eapply fleb_trans.
Qed.

(** What the assessment of a list of detections holds. *)
Lemma cuas_exact sector events : ∃ a, analyze_events sector events = Ok a ∧
  cu_detected_drones_count a = Z.of_nat (length events) ∧
  cu_electronic_warfare_active a = existsb ce_interdiction_active events ∧
  is_score (tv_score (cu_threat_severity a)) = true ∧
  (events = [] → tv_level (cu_threat_severity a) = "NOMINAL") ∧
  (events ≠ [] → tv_level (cu_threat_severity a) = cuas_level (swarm_score events) ∧
    tv_score (cu_threat_severity a) = fround 3 (swarm_score events)).
Proof.
  destruct events as [|e events']; [eexists; split; [vm_compute; reflexivity|by split_and!]|].
  unfold analyze_events. set (events := e :: events'). unfold new_ThreatSeverity, new_CUASAssessment. cbn [tv_score tv_confidence].
  destruct (swarm_score_grows events []) as (_ & Hs & _). rewrite (score_round 3 _ Hs). change (is_score (lit 0.94)) with true.
  cbn [require mbind res_bind cu_swarm_likelihood]. rewrite swarm_likelihood_score by lia. cbn [require mbind res_bind].
  eexists. split; [reflexivity|]. cbn [cu_detected_drones_count cu_electronic_warfare_active cu_threat_severity tv_score tv_level].
  split_and!; [done|done|by apply score_round|done|done].
Qed.

(** The counter-drone engine is total and monotone: for any detections it returns an
    assessment that counts them; it is NOMINAL exactly when there are none; and further
    detections never lower its level or its score. *)
Theorem cuas_monotone sector events more : ∃ a a',
  analyze_events sector events = Ok a ∧ analyze_events sector (events ++ more) = Ok a' ∧
  cu_detected_drones_count a = Z.of_nat (length events) ∧
  (tv_level (cu_threat_severity a) = "NOMINAL" ↔ events = []) ∧
  level_rank (tv_level (cu_threat_severity a)) <= level_rank (tv_level (cu_threat_severity a')) ∧
  (events ≠ [] → (tv_score (cu_threat_severity a) <=? tv_score (cu_threat_severity a'))%F = true).
Proof.
  destruct (cuas_exact sector events) as (a & E & Hn & _ & _ & H0 & H1).
  destruct (cuas_exact sector (events ++ more)) as (a' & E' & _ & _ & _ & H0' & H1').
  exists a, a'. split_and!; [done|done|done| | |].
  - split; [|done]. intros Hl. destruct events as [|e events]; [done|]. rewrite (proj1 (H1 ltac:(done))) in Hl.
    destruct (swarm_score_grows (e :: events) []) as (_ & _ & Hle). pose proof (cuas_level_mono _ _ Hle) as [Hr _].
    by rewrite Hl in Hr.
  - destruct (swarm_score_grows events more) as (_ & _ & Hle). pose proof (cuas_level_mono _ _ Hle) as Hr.
    destruct events as [|e events]; [rewrite H0 by done; unfold level_rank; by repeat case_match|].
    rewrite (proj1 (H1 ltac:(done))), (proj1 (H1' ltac:(done))). lia.
  - intros Hne. destruct (swarm_score_grows events more) as (_ & _ & Hle).
    rewrite (proj2 (H1 Hne)), (proj2 (H1' ltac:(by intros [? _]%app_eq_nil))). by apply fround_mono.
Qed.

(** ** The bridge: its observations and the fusion engine *)

Section feed.
Context `{LibM} (sha256 : string → string) (now : datetime) (fresh : nat → string).

(** No metric of the bridge is in the table of the source policy. *)
Lemma unlisted_refused o : METRIC_ASSERTIONS (obs_metric o) = None → validate_observation_source o ≠ Ok tt.
Proof using. intros Hm (s & l & _ & _ & _ & Hl & _)%validate_observation_source_ok. congruence. Qed.

Lemma tactical_observation_metric id src prov loc c m v u k md o :
  tactical_observation now id src prov loc c m v u k md = Ok o → obs_metric o = m ∧ obs_value o = v.
Proof using. unfold tactical_observation, new_Observation, validate_metric_value. intros E. by inv_ok. Qed.

(** What the three bridges may produce. *)
Definition bridged (obs : list Observation) : Prop :=
  (∃ a f src, uav_to_observations sha256 now fresh a f src = Ok obs) ∨
  (∃ a t src, starlink_to_observations sha256 now fresh a t src = Ok obs) ∨
  (∃ a sector src, cuas_to_observations sha256 now fresh a sector src = Ok obs).

Lemma bridged_unlisted obs : bridged obs → Forall (λ o, METRIC_ASSERTIONS (obs_metric o) = None) obs.
Proof using.
  intros [(a & f & src & E)|[(a & t & src & E)|(a & sector & src & E)]];
    unfold uav_to_observations, starlink_to_observations, cuas_to_observations in E; inv_ok;
    repeat match goal with K : tactical_observation _ _ _ _ _ _ _ _ _ _ _ = Ok _ |- _ => apply tactical_observation_metric in K as [K _] end;
    repeat constructor; by repeat match goal with K : obs_metric _ = _ |- _ => rewrite K; clear K end.
Qed.
End feed.

Lemma fusion_refuses `{LibM} id clock cid l as_of o : METRIC_ASSERTIONS (obs_metric o) = None → o ∈ l →
  is_ok (assess id clock cid l as_of) = false.
Proof.
  intros Hm Ho. destruct (assess id clock cid l as_of) as [a|] eqn:E; [exfalso|done].
  apply assess_ok in E as (g & acc & cav & ctx & risk & conf & _ & Hv & _). rewrite Forall_forall in Hv.
  by eapply unlisted_refused, Hv.
Qed.

(** Nothing a tactical bridge produces can be fused: whatever telemetry it is given
    and whatever source it names, each of its observations carries a metric the source
    policy does not list, so an assessment of any list that contains one fails. *)
Theorem tactical_feed_refused `{LibM} sha256 now fresh obs o l id clock cid as_of : bridged sha256 now fresh obs → o ∈ obs → o ∈ l →
  validate_observation_source o ≠ Ok tt ∧ is_ok (assess id clock cid l as_of) = false.
Proof.
  intros Hb Ho Hl. apply bridged_unlisted in Hb. rewrite Forall_forall in Hb. specialize (Hb o Ho).
  split; [by apply unlisted_refused|by eapply fusion_refuses].
Qed.

(** ** The bridge succeeds *)

Section feed_ok.
Context (sha256 : string → string) (now : datetime).
Context (digests : ∀ s, is_digest (sha256 s) = true) (aware : dt_aware now = true).

Lemma tactical_observation_ok id src prov loc c m v u k md :
  2 <= str_len src <= 128 → 1 <= str_len u <= 32 → is_score (lit k) = true → isfinite v = true → (f0 <=? v)%F = true →
  (m ∈ ratio_metrics → is_score v = true) → m ∉ [M_SEA_ICE_CONCENTRATION; M_INVENTORY_DAYS; M_MINERAL_RESERVE_DAYS] →
  tactical_observation now id src prov loc c m v u k md = Ok (tactical_fields now id src prov loc c m v u k md).
Proof using aware.
  intros Hs Hu Hk Hf Hv Hr Hm. unfold tactical_observation, tactical_fields, new_Observation, validate_metric_value.
  cbn [obs_source_id obs_unit obs_observed_at obs_valid_until obs_confidence obs_metric obs_value].
  assert ((2 <=? str_len src) && (str_len src <=? 128) = true) as -> by lia.
  assert ((1 <=? str_len u) && (str_len u <=? 32) = true) as -> by lia. cbn [require mbind res_bind].
  unfold ensure_timezone. rewrite aware. cbn [negb mbind res_bind]. unfold in_unit.
  change ((f0 <=? lit k)%F && (lit k <=? f1)%F) with (is_score (lit k)). rewrite Hk, Hf. cbn [require mbind res_bind].
  assert (mem_metric m ratio_metrics && negb ((f0 <=? v)%F && (v <=? f1)%F) = false) as ->.
  { unfold mem_metric. case_bool_decide as E; [|done]. change (negb (is_score v) = false). by rewrite (Hr E). }
  cbn [negb require mbind res_bind]. rewrite !elem_of_cons in Hm. rewrite decide_False by tauto. cbn [mbind res_bind].
  assert (mem_metric m [M_INVENTORY_DAYS; M_MINERAL_RESERVE_DAYS] = false) as ->.
  { unfold mem_metric. apply bool_decide_eq_false. rewrite !elem_of_cons. tauto. }
  cbn [andb negb require mbind res_bind]. rewrite (fltb_irrefl_le _ _ Hv), andb_false_r. by cbn [negb require mbind res_bind].
Qed.

(** Side conditions on a given metric, unit and confidence. *)
Ltac not_member := apply (bool_decide_unpack _); vm_compute; exact I.

Ltac by_metric :=
  match goal with
  | H : ?P |- ?P => exact H
  | |- is_score (lit _) = true => vm_compute; reflexivity
  | |- fleb f0 (fmax f0 _) = true => apply fmax0_nonneg
  | |- _ ∉ _ => not_member
  | |- _ → _ => first [intros E; exfalso; revert E; not_member | intros _; match goal with H : ?P |- ?P => exact H end]
  | |- _ ∧ _ => vm_compute; split; discriminate
  end.

(** A valid frame with a finite margin becomes exactly two observations: the link
    margin, with negative margins reported as zero and the status of the assessment in
    its metadata, and the swarm cohesion the assessment computed. *)
Theorem uav_feed fresh src f : new_UAVTelemetryFrame f = Ok f → isfinite (fmax f0 (uf_rf_link_margin_db f)) = true →
  2 <= str_len src <= 128 →
  ∃ a o1 o2, analyze_frame f = Ok a ∧ uav_to_observations sha256 now fresh a f src = Ok [o1; o2] ∧
    obs_metric o1 = M_UAV_LINK_MARGIN ∧ obs_value o1 = fmax f0 (uf_rf_link_margin_db f) ∧
    dget (obs_metadata o1) "status" = Some (VStr (uav_status f)) ∧
    obs_metric o2 = M_UAV_SWARM_COHESION ∧ obs_value o2 = ua_swarm_cohesion_score a.
Proof using digests aware.
  intros Hv Hf Hs. destruct (uav_exact f) as (a & Ea & Hst & _ & Hc & _). exists a.
  unfold uav_to_observations, tactical_provenance, new_Provenance. cbn [prov_content_sha256]. rewrite digests.
  cbn [require mbind res_bind]. unfold new_UAVTelemetryFrame in Hv. inv_ok. unfold new_GeoPoint. cbn [latitude longitude].
  repeat match goal with K : between_f _ _ _ = true |- _ => rewrite ?K; clear K end. cbn [require mbind res_bind].
  pose proof (proj1 (andb_prop _ _ Hc)) as Hc0. pose proof Hc as (q & Eq & _)%is_score_iff.
  assert (isfinite (ua_swarm_cohesion_score a) = true) as Hcf by (by rewrite Eq).
  rewrite (tactical_observation_ok (fresh 0%nat)) by by_metric. cbn [mbind res_bind].
  rewrite (tactical_observation_ok (fresh 1%nat)) by by_metric. cbn [mbind res_bind].
  rewrite <-Hst. eexists _, _. split_and!; [done|reflexivity|done..].
Qed.
End feed_ok.

(** ** Concrete inputs *)

#[local] Existing Instance example_LibM.

Definition toy_sha (_ : string) : string := str_repeat 64 "a".

Definition patrol (charge margin pitch : Q) (denied : bool) (flow : Q) : UAVTelemetryFrame :=
  {| uf_drone_id := "uav-1"; uf_latitude := lit 70.5; uf_longitude := lit 35; uf_altitude_m_msl := lit 300;
     uf_ground_speed_mps := lit 20; uf_climb_rate_mps := f0; uf_roll_deg := f0; uf_pitch_deg := lit pitch; uf_yaw_deg := f0;
     uf_battery_state_of_charge := lit charge; uf_rf_link_margin_db := lit margin; uf_optical_flow_quality := lit flow;
     uf_eoir_detections_count := 0; uf_is_gps_spoofed_or_denied := denied; uf_timestamp := utc 0 |}.

Definition link (t : Z) (latency loss : Q) : StarlinkTelemetry :=
  {| st_terminal_id := "t-1"; st_downlink_throughput_mbps := lit 120; st_uplink_throughput_mbps := lit 20;
     st_round_trip_latency_ms := lit latency; st_packet_loss_rate := lit loss; st_obstruction_fraction := f0;
     st_snr_db := lit 9.5; st_beam_handover_jitter_ms := lit 5; st_rain_fade_attenuation_db := f0; st_timestamp := utc t |}.

(** A battery at 5 % near a stall: DEGRADED, with the advisory to return. *)
Example stall_hides_battery :
  (λ a, (ua_airworthiness_status a, ua_advisory_directive a)) <$> analyze_frame (patrol 0.05 20 50 false 0.9) =
  Ok ("DEGRADED", "Initiate immediate automated Return-to-Base (RTB) on secondary INS vector").
Proof. vm_compute. reflexivity. Qed.

(** With the link lost and the drift uncorrected, a lower battery lifts the alarm. *)
Example caution_lifts_alarm :
  uav_status (patrol 0.9 2 0 true 0.1) = "CRITICAL_RETURN_TO_BASE" ∧ uav_status (patrol 0.2 2 0 true 0.1) = "DEGRADED".
Proof. split; vm_compute; reflexivity. Qed.

(** Every packet lost: the channel is OPTIMAL. *)
Lemma channel_exact_witness : new_StarlinkTelemetry (link 0 40 1) = Ok (link 0 40 1) ∧
  ∃ a, evaluate_channel (link 0 40 1) = Ok a ∧ sl_channel_state a = "OPTIMAL" ∧ sl_availability_score a = lit 0.65.
Proof.
  split; [vm_compute; reflexivity|].
  destruct (channel_exact (link 0 40 1) ltac:(vm_compute; reflexivity)) as (a & Ha & _ & Hs & _ & Hst).
  exists a. split; [exact Ha|]. rewrite Hs, Hst. split; vm_compute; reflexivity.
Defined.

Lemma toy_digests s : is_digest (toy_sha s) = true.
Proof. vm_compute. reflexivity. Qed.

Lemma uav_feed_witness : new_UAVTelemetryFrame (patrol 0.05 20 50 false 0.9) = Ok (patrol 0.05 20 50 false 0.9) ∧
  ∃ a o1 o2, uav_to_observations toy_sha (utc 9) (λ _, "id") a (patrol 0.05 20 50 false 0.9) "tactical-uav-fleet" = Ok [o1; o2] ∧
    dget (obs_metadata o1) "status" = Some (VStr "DEGRADED").
Proof.
  split; [vm_compute; reflexivity|].
  destruct (uav_feed toy_sha (utc 9) toy_digests eq_refl (λ _, "id") "tactical-uav-fleet" (patrol 0.05 20 50 false 0.9)
    ltac:(vm_compute; reflexivity) ltac:(vm_compute; reflexivity) ltac:(vm_compute; split; discriminate))
    as (a & o1 & o2 & _ & E & _ & _ & Hst & _).
  exists a, o1, o2. split; [exact E|]. rewrite Hst. vm_compute. reflexivity.
Defined.

Definition quiet_channel : StarlinkAssessment :=
  {| sl_terminal_id := "t-1"; sl_channel_state := "OPTIMAL"; sl_availability_score := f1; sl_effective_bandwidth_score := f1;
     sl_latency_threat_score := f0; sl_indicators := []; sl_advisory := "" |}.

Lemma tactical_feed_refused_witness : ∃ obs,
  starlink_to_observations toy_sha (utc 9) (λ _, "id") quiet_channel (link 0 40 0) "operator-telemetry" = Ok obs ∧ length obs = 3%nat ∧
  is_ok (assess "a" (utc 9) "corridor" obs None) = false.
Proof.
  destruct (starlink_to_observations toy_sha (utc 9) (λ _, "id") quiet_channel (link 0 40 0) "operator-telemetry") as [obs|e] eqn:E;
    [|exfalso; vm_compute in E; discriminate E].
  exists obs. split; [reflexivity|]. assert (length obs = 3%nat) as Hl by (vm_compute in E; by injection E as <-).
  split; [exact Hl|]. destruct obs as [|o obs]; [discriminate Hl|].
  apply (tactical_feed_refused toy_sha (utc 9) (λ _, "id") (o :: obs) o (o :: obs) "a" (utc 9) "corridor" None).
  - right. left. exists quiet_channel, (link 0 40 0), "operator-telemetry". exact E.
  - by left.
  - by left.
Defined.
