(* ===== verification/CounterIntel.v ===== *)
(** * counter_intel.py: dark vessels, satellite passes and insider queries

    Contacts and ephemerides are dictionaries of JSON values; [float_of_str] is
    [float(s)] and [repr] the text of a value that is not a string, as in [Telemetry].
    Distances are those of [Threat.haversine_km]. *)

From Stdlib Require Import ZArith QArith Lqa.
From S2P Require Import Prelude Post PyFloat FloatError FloatMono PyFormat Domain State Analysis Dsl Interop Telemetry Threat.

Open Scope Z_scope.

Inductive EMCONLevel := ALPHA_SILENT | BRAVO_LOW_PROBABILITY | CHARLIE_ACTIVE.

Definition EMCONLevel_value (l : EMCONLevel) : string :=
  match l with
  | ALPHA_SILENT => "alpha_silent"
  | BRAVO_LOW_PROBABILITY => "bravo_low_probability"
  | CHARLIE_ACTIVE => "charlie_active"
  end.

(** [c.get(key, default)] *)
Definition get_default (c : object) (key : string) (default : json) : json := match c !! key with Some v => v | None => default end.

Record DarkVesselContact := {
  dv_contact_id : string;
  dv_latitude : float;
  dv_longitude : float;
  dv_estimated_speed_knots : float;
  dv_estimated_length_meters : float;
  dv_ais_active : bool;
  dv_spoofed_mmsi : option string;
  dv_proximity_to_critical_asset_km : float;
  dv_threat_level : float;
  dv_anomaly_flags : list string
}.

Definition new_DarkVesselContact (c : DarkVesselContact) : res DarkVesselContact :=
  _ ← require ((lit (-90) <=? dv_latitude c)%F && (dv_latitude c <=? lit 90)%F) "latitude";
  _ ← require ((lit (-180) <=? dv_longitude c)%F && (dv_longitude c <=? lit 180)%F) "longitude";
  _ ← require (f0 <=? dv_estimated_speed_knots c)%F "estimated_speed_knots";
  _ ← require (f0 <=? dv_estimated_length_meters c)%F "estimated_length_meters";
  _ ← require (f0 <=? dv_proximity_to_critical_asset_km c)%F "proximity_to_critical_asset_km";
  _ ← require (is_score (dv_threat_level c)) "threat_level";
  Ok c.

Record DarkFleetAssessment := {
  df_assessment_id : string;
  df_corridor_id : string;
  df_assessed_at : datetime;
  df_total_contacts_detected : Z;
  df_dark_vessels_count : Z;
  df_highest_threat_score : float;
  df_contacts : list DarkVesselContact;
  df_surveillance_advisory : string
}.

Record OverflightPass := {
  op_satellite_id : string;
  op_sensor_type : string;
  op_pass_start : datetime;
  op_pass_end : datetime;
  op_elevation_angle_max_deg : float;
  op_exposure_vulnerability_score : float;
  op_masking_recommendation : string
}.

Record OverflightExposureReport := {
  oe_corridor_id : string;
  oe_total_passes_projected : Z;
  oe_peak_vulnerability_index : float;
  oe_passes : list OverflightPass;
  oe_recommended_emcon_level : EMCONLevel;
  oe_tactical_directive : string
}.

Section counter_intel.
Context `{Trig, Square} (float_of_str : string → res float) (repr : json → string).

(** ** Dark vessels *)

(** [reported_mmsi is None or str(reported_mmsi) not in active_ais_mmsis] *)
Definition is_dark (active_ais_mmsis : list string) (contact : object) : bool :=
  let reported_mmsi := dict_get contact "mmsi" in
  is_None reported_mmsi || negb (mem_str (py_str repr reported_mmsi) active_ais_mmsis).

(** The flags and the threat of a contact. *)
Definition contact_threat (dark : bool) (dist_km speed : float) : list string * float :=
  let near := (dist_km <? lit 25)%F in
  let loiters := (speed <? lit 2)%F && (dist_km <? lit 50)%F in
  let threat := lit 0.2 in
  let threat := if dark then (threat + lit 0.4)%F else threat in
  let threat := if near then (threat + lit 0.25)%F else threat in
  let threat := if loiters then (threat + lit 0.15)%F else threat in
  ((if dark then ["AIS_TRANSPONDER_INACTIVE_OR_DARK"] else [])
   ++ (if near then ["CRITICAL_PROXIMITY_" +:+ fmt_fixed 1 dist_km +:+ "KM"] else [])
   ++ (if loiters then ["SUSPICIOUS_CHOKEPOINT_LOITERING"] else []),
   fmin f1 threat).

Definition counter_haversine_km (lat1 lon1 lat2 lon2 : float) : res float := haversine_km lat1 lon1 lat2 lon2.

(** The body of the loop: the contacts so far, the largest threat, the index. *)
Definition contact_step (active_ais_mmsis : list string) (asset_location : GeoPoint)
    (acc : list DarkVesselContact * float * Z) (contact : object) : res (list DarkVesselContact * float * Z) :=
  let '(contacts, max_threat, idx) := acc in
  c_lat ← py_float float_of_str (get_default contact "latitude" (JFloat f0));
  c_lon ← py_float float_of_str (get_default contact "longitude" (JFloat f0));
  c_speed ← py_float float_of_str (get_default contact "speed_knots" (JFloat f0));
  c_len ← py_float float_of_str (get_default contact "length_meters" (JFloat (lit 80)));
  let reported_mmsi := dict_get contact "mmsi" in
  dist_km ← counter_haversine_km (latitude asset_location) (longitude asset_location) c_lat c_lon;
  let dark := is_dark active_ais_mmsis contact in
  let '(flags, threat_score) := contact_threat dark dist_km c_speed in
  c ← new_DarkVesselContact
    {| dv_contact_id := "CONTACT-RADAR-" +:+ digits 3 (idx + 1); dv_latitude := c_lat; dv_longitude := c_lon;
       dv_estimated_speed_knots := c_speed; dv_estimated_length_meters := c_len; dv_ais_active := negb dark;
       dv_spoofed_mmsi := if truthy reported_mmsi && dark then Some (py_str repr reported_mmsi) else None;
       dv_proximity_to_critical_asset_km := fround 2 dist_km; dv_threat_level := fround 3 threat_score;
       dv_anomaly_flags := flags |};
  Ok (contacts ++ [c], fmax max_threat threat_score, idx + 1).

Definition correlate_contacts (id : string) (now : datetime) (corridor_id : string) (radar_optical_contacts : list object)
    (active_ais_mmsis : list string) (asset_location : GeoPoint) : res DarkFleetAssessment :=
  r ← foldM (contact_step active_ais_mmsis asset_location) ([], f0, 0) radar_optical_contacts;
  let '(contacts, max_threat, _) := r in
  let dark_count := Z.of_nat (length (List.filter (λ c, negb (dv_ais_active c)) contacts)) in
  _ ← require (is_score (fround 3 max_threat)) "highest_threat_score";
  Ok {| df_assessment_id := id; df_corridor_id := corridor_id; df_assessed_at := now;
        df_total_contacts_detected := Z.of_nat (length contacts); df_dark_vessels_count := dark_count;
        df_highest_threat_score := fround 3 max_threat; df_contacts := contacts;
        df_surveillance_advisory := "Detected " +:+ str_Z dark_count +:+ " dark/unverified contacts within sensor range. "
          +:+ "Highest contact threat score: " +:+ fmt_fixed 2 max_threat +:+ "." |}.

(** ** Satellite passes *)

Definition pass_vulnerability (sensor : string) (elev : float) : res float :=
  q ← fdiv elev (lit 90);
  let elev_factor := fmin f1 q in
  let sensor_weight := if contains "SAR" (str_upper sensor) then f1 else lit 0.8 in
  Ok (fmin f1 (elev_factor * sensor_weight)%F).

(** The body of the loop: the passes so far and the largest vulnerability. *)
Definition pass_step (now : datetime) (acc : list OverflightPass * float) (eph : object) : res (list OverflightPass * float) :=
  let '(passes, max_vuln) := acc in
  let sat_id := py_str repr (get_default eph "satellite_id" (JStr "UNKNOWN-SAT")) in
  let sensor := py_str repr (get_default eph "sensor_type" (JStr "SAR_RADAR")) in
  elev ← py_float float_of_str (get_default eph "elevation_max_deg" (JFloat (lit 45)));
  vuln ← pass_vulnerability sensor elev;
  _ ← require (is_score (fround 3 vuln)) "exposure_vulnerability_score";
  Ok (passes ++
        [{| op_satellite_id := sat_id; op_sensor_type := sensor; op_pass_start := now; op_pass_end := now;
            op_elevation_angle_max_deg := elev; op_exposure_vulnerability_score := fround 3 vuln;
            op_masking_recommendation :=
              if (vuln >? lit 0.6)%F then "Execute RF emissions cutoff & scatter decoy transponders during pass window"
              else "Maintain standard low-power directional communications" |}],
      fmax max_vuln vuln).

Definition emcon_of (max_vuln : float) : EMCONLevel :=
  if (max_vuln >? lit 0.75)%F then ALPHA_SILENT
  else if (max_vuln >? lit 0.4)%F then BRAVO_LOW_PROBABILITY
  else CHARLIE_ACTIVE.

Definition evaluate_exposure (now : datetime) (corridor_id : string) (orbital_ephemeris : list object) : res OverflightExposureReport :=
  r ← foldM (pass_step now) ([], f0) orbital_ephemeris;
  let '(passes, max_vuln) := r in
  let emcon := emcon_of max_vuln in
  _ ← require (is_score (fround 3 max_vuln)) "peak_vulnerability_index";
  Ok {| oe_corridor_id := corridor_id; oe_total_passes_projected := Z.of_nat (length passes);
        oe_peak_vulnerability_index := fround 3 max_vuln; oe_passes := passes; oe_recommended_emcon_level := emcon;
        oe_tactical_directive := "Orbital reconnaissance risk index: " +:+ fmt_fixed 2 max_vuln
          +:+ ". Recommended operational posture: " +:+ str_upper (EMCONLevel_value emcon) +:+ "." |}.
End counter_intel.

(** ** Insiders *)

(** The dictionary of the answer. *)
Record query_verdict := {
  qv_operator_id : string;
  qv_counter_intel_threat_score : float;
  qv_is_anomaly_threat : bool;
  qv_anomaly_flags : list string;
  qv_counter_measure : string
}.

Definition evaluate_query_telemetry (operator_id : string)
    (query_count_last_hour geographic_bounding_boxes_scraped attempted_clearance_escalations : Z) : query_verdict :=
  let bulk := 500 <? query_count_last_hour in
  let wide := 20 <? geographic_bounding_boxes_scraped in
  let escalates := 0 <? attempted_clearance_escalations in
  let risk := lit 0.1 in
  let risk := if bulk then (risk + lit 0.35)%F else risk in
  let risk := if wide then (risk + lit 0.3)%F else risk in
  let risk := if escalates then (risk + lit 0.4)%F else risk in
  let risk_score := fmin f1 risk in
  let is_threat := (risk_score >? lit 0.65)%F in
  {| qv_operator_id := operator_id; qv_counter_intel_threat_score := fround 3 risk_score; qv_is_anomaly_threat := is_threat;
     qv_anomaly_flags :=
       (if bulk then ["HIGH_FREQUENCY_BULK_TELEMETRY_SCRAPING"] else [])
       ++ (if wide then ["WIDE_AREA_GEOGRAPHIC_RECONNAISSANCE"] else [])
       ++ (if escalates then
             ["UNAUTHORIZED_CLEARANCE_ESCALATION_ATTEMPTS_" +:+ str_Z attempted_clearance_escalations]
           else []);
     qv_counter_measure :=
       if is_threat then "Isolate session, enforce rate limiting, and alert sovereign security officer"
       else "Nominal activity logged" |}.

(** ** Insiders: two signals of three *)

(** A query pattern is a threat exactly when at least two of its three signals show;
    in particular no number of clearance escalations is one by itself. *)
Theorem insider_exact operator queries boxes escalations :
  let v := evaluate_query_telemetry operator queries boxes escalations in
  let signals := (if 500 <? queries then 1 else 0) + (if 20 <? boxes then 1 else 0) + (if 0 <? escalations then 1 else 0) in
  qv_is_anomaly_threat v = (2 <=? signals) ∧ Z.of_nat (length (qv_anomaly_flags v)) = signals ∧
  is_score (qv_counter_intel_threat_score v) = true ∧
  (qv_counter_measure v = "Nominal activity logged" ↔ qv_is_anomaly_threat v = false).
Proof.
  cbv zeta. unfold evaluate_query_telemetry. cbv zeta.
  cbn [qv_is_anomaly_threat qv_anomaly_flags qv_counter_intel_threat_score qv_counter_measure].
  destruct (500 <? queries), (20 <? boxes), (0 <? escalations); (split; [vm_compute; reflexivity|]); (split; [reflexivity|]);
    (split; [vm_compute; reflexivity|]);
    match goal with |- context [(?x >? lit 0.65)%F] => let b := eval vm_compute in (x >? lit 0.65)%F in
      assert ((x >? lit 0.65)%F = b) as -> by (vm_compute; reflexivity) end; by split.
Qed.

Section laws.
Context `{Trig, Square} (float_of_str : string → res float) (repr : json → string).

(** ** Passes: one more never relaxes the posture *)

(** How much a posture restrains emissions. *)
Definition silence (l : EMCONLevel) : Z := match l with ALPHA_SILENT => 2 | BRAVO_LOW_PROBABILITY => 1 | CHARLIE_ACTIVE => 0 end.

Lemma emcon_mono x y : (x <=? y)%F = true → silence (emcon_of x) <= silence (emcon_of y).
Proof using.
  intros Hxy. unfold emcon_of.
  assert ((lit 0.75 <? x)%F = true → (lit 0.75 <? y)%F = true) as H1 by (intros E; by eapply fltb_fleb_trans).
  assert ((lit 0.4 <? x)%F = true → (lit 0.4 <? y)%F = true) as H2 by (intros E; by eapply fltb_fleb_trans).
  revert H1 H2. generalize (lit 0.75 <? x)%F (lit 0.75 <? y)%F (lit 0.4 <? x)%F (lit 0.4 <? y)%F. clear.
  intros [] [] [] [] H1 H2; try (by discriminate H1); try (by discriminate H2); vm_compute; discriminate.
Qed.

Lemma fmax_grows x y : x ≠ NaN → (x <=? fmax x y)%F = true ∧ fmax x y ≠ NaN.
Proof using.
  intros Hx. unfold fmax. destruct (fltb x y) eqn:E; [|split; [by apply fleb_refl|done]].
  split; [by apply fltb_fleb|]. intros ->. by destruct x as [|[]|].
Qed.

Lemma passes_fold now l acc r : foldM (pass_step float_of_str repr now) acc l = Ok r → acc.2 ≠ NaN → is_score (fround 3 acc.2) = true →
  length r.1 = (length acc.1 + length l)%nat ∧ (acc.2 <=? r.2)%F = true ∧ r.2 ≠ NaN ∧ is_score (fround 3 r.2) = true.
Proof using.
  revert acc. induction l as [|eph l IH]; intros [passes m] E Hm Hs; cbn [foldM] in E.
  { injection E as <-. cbn [fst snd length]. split_and!; [lia|by apply fleb_refl|done|done]. }
  apply bind_ok in E as (acc' & Es & E). unfold pass_step in Es.
  apply bind_ok in Es as (elev & _ & Es). apply bind_ok in Es as (v & _ & Es). apply bind_ok in Es as (? & Hv%require_ok & Es).
  injection Es as <-. destruct (fmax_grows m v Hm) as [L N].
  assert (is_score (fround 3 (fmax m v)) = true) as Hs' by (unfold fmax; by destruct (fltb m v)).
  destruct (IH _ E N Hs') as (H1 & H2 & H3 & H4). cbn [fst snd] in *.
  rewrite H1, length_app. cbn [length]. split_and!; [lia|by eapply fleb_trans|done|done].
Qed.

(** If the report over a list of passes exists, so does the report over any first
    part of it; both count their passes, and the further passes never make the
    recommended posture less silent. *)
Theorem posture_monotone now corridor passes more r' : evaluate_exposure float_of_str repr now corridor (passes ++ more) = Ok r' →
  ∃ r, evaluate_exposure float_of_str repr now corridor passes = Ok r ∧
    oe_total_passes_projected r = Z.of_nat (length passes) ∧
    oe_total_passes_projected r' = Z.of_nat (length passes + length more) ∧
    silence (oe_recommended_emcon_level r) <= silence (oe_recommended_emcon_level r').
Proof using.
  intros E. unfold evaluate_exposure in *. apply bind_ok in E as ([ps' v'] & E1 & E). apply bind_ok in E as (? & _ & E).
  injection E as <-. rewrite foldM_app in E1. apply bind_ok in E1 as ([ps v] & Em & E1). rewrite Em. cbn [mbind res_bind].
  assert (is_score (fround 3 f0) = true) as S0 by (vm_compute; reflexivity).
  destruct (passes_fold _ _ _ _ Em) as (L1 & _ & N & S); [done|exact S0|]. destruct (passes_fold _ _ _ _ E1 N S) as (L2 & H2 & _).
  cbn [fst snd length] in *. rewrite S. cbn [require mbind res_bind]. eexists. split; [reflexivity|].
  cbn [oe_recommended_emcon_level oe_total_passes_projected]. rewrite L2, L1. split_and!; [done|done|by apply emcon_mono].
Qed.

(** ** Contacts *)

Lemma contact_threat_score dark near loiters :
  is_score (fmin f1 (let t := if dark : bool then (lit 0.2 + lit 0.4)%F else lit 0.2 in
    let t := if near : bool then (t + lit 0.25)%F else t in if loiters : bool then (t + lit 0.15)%F else t)) = true ∧
  (dark = true → (lit 0.6 <=? fmin f1 (let t := if dark then (lit 0.2 + lit 0.4)%F else lit 0.2 in
    let t := if near then (t + lit 0.25)%F else t in if loiters then (t + lit 0.15)%F else t))%F = true).
Proof using. destruct dark, near, loiters; split; try discriminate; intros; vm_compute; reflexivity. Qed.

(** The invariant of the loop: the contacts follow the inputs, and the running maximum
    is a score no smaller than any of theirs. *)
Definition contacts_ok (active : list string) (inputs : list object) (acc : list DarkVesselContact * float * Z) : Prop :=
  let '(contacts, m, idx) := acc in
  dv_ais_active <$> contacts = (λ c, negb (is_dark repr active c)) <$> inputs ∧ is_score m = true ∧ idx = Z.of_nat (length inputs) ∧
  Forall (λ c, (dv_threat_level c <=? fround 3 m)%F = true) contacts ∧
  (existsb (is_dark repr active) inputs = true → (lit 0.6 <=? m)%F = true).

Lemma contact_step_ok active asset inputs acc c acc' : contacts_ok active inputs acc →
  contact_step float_of_str repr active asset acc c = Ok acc' → contacts_ok active (inputs ++ [c]) acc'.
Proof using.
  destruct acc as [[contacts m] idx]. intros (Ha & Hm & -> & Ht & Hd) E. unfold contact_step in E.
  apply bind_ok in E as (lat & _ & E). apply bind_ok in E as (lon & _ & E). apply bind_ok in E as (speed & _ & E).
  apply bind_ok in E as (len & _ & E). apply bind_ok in E as (dist & _ & E).
  unfold contact_threat in E. set (dark := is_dark repr active c) in *. set (near := (dist <? lit 25)%F) in *.
  set (loiters := (speed <? lit 2)%F && (dist <? lit 50)%F) in *.
  destruct (contact_threat_score dark near loiters) as [Hs Hdark]. cbv zeta in Hs, Hdark.
  match type of Hs with is_score ?t = true => set (threat := t) in * end. clearbody near loiters.
  apply bind_ok in E as (v & Ev & E). injection E as <-. unfold new_DarkVesselContact in Ev.
  repeat (apply bind_ok in Ev as (? & _ & Ev)). injection Ev as <-.
  destruct (fmax_scores m threat Hm Hs) as (S & L1 & L2 & _). split_and!.
  - rewrite !fmap_app, Ha. done.
  - done.
  - rewrite length_app. cbn [length]. lia.
  - apply Forall_app. split; [|apply Forall_singleton; cbn [dv_threat_level]; by apply fround_mono].
    eapply Forall_impl; [exact Ht|]. intros y Hy. eapply fleb_trans; [exact Hy|]. by apply fround_mono.
  - rewrite existsb_app. cbn [existsb]. rewrite orb_false_r. fold dark. intros [Ho|Ho]%orb_true_iff.
    + eapply fleb_trans; [by apply Hd|done].
    + eapply fleb_trans; [by apply Hdark|done].
Qed.

Lemma contacts_fold active asset l acc inputs r : contacts_ok active inputs acc →
  foldM (contact_step float_of_str repr active asset) acc l = Ok r → contacts_ok active (inputs ++ l) r.
Proof using.
  revert acc inputs. induction l as [|c l IH]; intros acc inputs Ha E; cbn [foldM] in E.
  - injection E as <-. by rewrite app_nil_r.
  - apply bind_ok in E as (acc' & Es & E). replace (inputs ++ c :: l) with ((inputs ++ [c]) ++ l) by (by rewrite <-app_assoc).
    eapply IH; [|exact E]. by eapply contact_step_ok.
Qed.

(** An assessment of contacts lists them in order; it counts as dark exactly those
    without an identity or with one that no active transponder has; its score is the
    bound of theirs, and at least 0.6 as soon as one is dark. *)
Theorem dark_fleet_exact id now corridor contacts active asset a :
  correlate_contacts float_of_str repr id now corridor contacts active asset = Ok a →
  df_total_contacts_detected a = Z.of_nat (length contacts) ∧
  df_dark_vessels_count a = Z.of_nat (length (List.filter (is_dark repr active) contacts)) ∧
  (dv_ais_active <$> df_contacts a) = (λ c, negb (is_dark repr active c)) <$> contacts ∧
  Forall (λ c, (dv_threat_level c <=? df_highest_threat_score a)%F = true) (df_contacts a) ∧
  (existsb (is_dark repr active) contacts = true → (lit 0.6 <=? df_highest_threat_score a)%F = true).
Proof using.
  intros E. unfold correlate_contacts in E. apply bind_ok in E as ([[cs m] idx] & Ef & E). apply bind_ok in E as (? & _ & E).
  injection E as <-. cbn [df_total_contacts_detected df_dark_vessels_count df_contacts df_highest_threat_score].
  apply (contacts_fold _ _ _ _ []) in Ef; [|by split_and!]. destruct Ef as (Ha & Hm & _ & Ht & Hd). cbn [app] in *.
  split_and!; [| |done|done|].
  - by rewrite <-(length_fmap dv_ais_active), Ha, length_fmap.
  - f_equal. clear -Ha. revert contacts Ha. induction cs as [|c cs IH]; intros [|i contacts] Ha; try discriminate Ha; [done|].
    cbn [fmap list_fmap] in Ha. injection Ha as Hc Ha. cbn [List.filter]. rewrite Hc, negb_involutive.
    destruct (is_dark repr active i); cbn [length]; by rewrite (IH contacts).
  - intros Ho. pose proof (fround_mono 3 _ _ (Hd Ho)) as M.
    assert (fround 3 (lit 0.6) = lit 0.6) as E6 by (vm_compute; reflexivity). by rewrite E6 in M.
Qed.
End laws.

(** ** Concrete inputs *)

#[local] Existing Instance example_Square.

Definition grounded_Trig : Trig := {| t_radians := id; t_sin := λ _, Ok f0; t_cos := λ _, Ok f1; t_atan2 := λ _ _, f0 |}.
#[local] Existing Instance grounded_Trig.

Definition no_strings (s : string) : res float := Raise (ValueError s).
Definition no_text (_ : json) : string := "".

Definition radar : list object := [list_to_map [("mmsi", JStr "316")]; list_to_map [("mmsi", JStr "999"); ("speed_knots", JNum 10)]; ∅].

Lemma dark_fleet_exact_witness : ∃ a,
  correlate_contacts no_strings no_text "id" {| dt_us := 0; dt_aware := true |} "c" radar ["316"] {| latitude := f0; longitude := f0 |} = Ok a ∧
  df_dark_vessels_count a = 2 ∧ (lit 0.6 <=? df_highest_threat_score a)%F = true.
Proof.
  destruct (correlate_contacts no_strings no_text "id" {| dt_us := 0; dt_aware := true |} "c" radar ["316"] {| latitude := f0; longitude := f0 |})
    as [a|e] eqn:E; [|exfalso; vm_compute in E; discriminate E].
  exists a. split; [reflexivity|].
  destruct (dark_fleet_exact no_strings no_text "id" {| dt_us := 0; dt_aware := true |} "c" radar ["316"] {| latitude := f0; longitude := f0 |} a E)
    as (_ & H2 & _ & _ & H5).
  split; [rewrite H2; vm_compute; reflexivity|]. apply H5. vm_compute. reflexivity.
Defined.

Definition overhead (elevation : Z) : object := list_to_map [("elevation_max_deg", JNum elevation)].

Lemma posture_monotone_witness : ∃ r,
  evaluate_exposure no_strings no_text {| dt_us := 0; dt_aware := true |} "c" ([overhead 40] ++ [overhead 80]) = Ok r ∧
  oe_total_passes_projected r = 2.
Proof.
  destruct (evaluate_exposure no_strings no_text {| dt_us := 0; dt_aware := true |} "c" ([overhead 40] ++ [overhead 80])) as [r|e] eqn:E;
    [|exfalso; vm_compute in E; discriminate E].
  exists r. split; [reflexivity|].
  destruct (posture_monotone no_strings no_text _ "c" [overhead 40] [overhead 80] r E) as (_ & _ & _ & H & _). exact H.
Defined.

(** A pass below the horizon is a negative vulnerability, which is refused. *)
Example pass_below_horizon : evaluate_exposure no_strings no_text {| dt_us := 0; dt_aware := true |} "c" [overhead (-10)] =
  Raise (ValidationError "exposure_vulnerability_score").
Proof. vm_compute. reflexivity. Qed.
