(* ===== verification/Security.v ===== *)
(** * security.py: the rate limiter and the API key

    The limiter keeps the times of the recent requests of each key, and a queue
    of keys in the order of the requests it let through; time is the reading of
    the monotonic clock.  The reference limiter of the second half remembers
    every request it let through and counts those inside the window. *)

From Stdlib Require Import ZArith QArith Lqa.
From S2P Require Import Prelude PyFloat PyFormat FloatError State.

Open Scope Z_scope.

(** ** The limiter *)

Record limiter := {
  lm_events : gmap string (list float);
  lm_access_order : list string
}.

Definition new_limiter : limiter := {| lm_events := ∅; lm_access_order := [] |}.

(** [while events and events[0] <= cutoff: events.popleft()] *)
Fixpoint drop_expired (cutoff : float) (events : list float) : list float :=
  match events with
  | [] => []
  | t :: events' => if (t <=? cutoff)%F then drop_expired cutoff events' else events
  end.

(** [max(1, int(first + window_seconds - now) + 1)] *)
Definition retry_after (first : float) (window_seconds : Z) (now : float) : res Z :=
  wait ← int_of_json (JFloat (first + f_of_Z window_seconds - now)%F); Ok (Z.max 1 (wait + 1)).

(** The eviction of the key at the head of the queue, when the key is new and the
    table is full. *)
Definition evict (max_keys : Z) (key : string) (s : limiter) : res limiter :=
  if bool_decide (lm_events s !! key = None) && (max_keys <=? Z.of_nat (size (lm_events s))) then
    match lm_access_order s with
    | evict_key :: order => Ok {| lm_events := delete evict_key (lm_events s); lm_access_order := order |}
    | [] => Raise IndexError
    end
  else Ok s.

Definition check (max_keys : Z) (key : string) (limit window_seconds : Z) (now : float) (s : limiter)
    : res (option Z) * limiter :=
  let cutoff := (now - f_of_Z window_seconds)%F in
  match evict max_keys key s with
  | Raise e => (Raise e, s)
  | Ok s =>
      let events := drop_expired cutoff (default [] (lm_events s !! key)) in
      if limit <=? Z.of_nat (length events) then
        (match events with
         | first :: _ => Some <$> retry_after first window_seconds now
         | [] => Raise IndexError
         end, {| lm_events := <[key := events]> (lm_events s); lm_access_order := lm_access_order s |})
      else (Ok None, {| lm_events := <[key := events ++ [now]]> (lm_events s);
                        lm_access_order := lm_access_order s ++ [key] |})
  end.

(** ** The API key *)

Inductive gate :=
| Allowed
| Refused (status : Z) (detail : string)
| Crashed (e : exn).

(** [configured] is the key of the settings, [supplied] the header or the empty
    string; [compare_digest] as the standard library has it. *)
Definition require_api_key (compare_digest : string → string → res bool) (production : bool) (configured : option string)
    (supplied : string) : gate :=
  match configured with
  | None => if production then Refused 503 "API key unavailable" else Allowed
  | Some key =>
      if str_empty supplied then Refused 401 "valid X-Continuity-API-Key required"
      else match compare_digest supplied key with
           | Ok true => Allowed
           | Ok false => Refused 401 "valid X-Continuity-API-Key required"
           | Raise e => Crashed e
           end
  end.

(** [enforce_rate_limit]: the key of the limiter is the digest of the API key, or
    of the address of a client that sent none. *)
Definition rate_key (sha256 : string → string) (supplied : string) (host : option string) : string :=
  sha256 (if str_empty supplied then default "unknown" host else supplied).

Definition enforce_rate_limit (sha256 : string → string) (max_keys limit : Z) (supplied : string) (host : option string)
    (now : float) (s : limiter) : res (option Z) * limiter :=
  check max_keys (rate_key sha256 supplied host) limit 60 now s.

(** ** A sequence of checks, and the reference limiter *)

Section runs.
Context (max_keys limit window_seconds : Z).

Fixpoint run {S} (step : string → float → S → res (option Z) * S) (requests : list (string * float)) (s : S)
    : list (res (option Z)) * S :=
  match requests with
  | [] => ([], s)
  | (key, now) :: requests => let '(r, s) := step key now s in let '(rs, s) := run step requests s in (r :: rs, s)
  end.

Definition limiter_step (key : string) (now : float) (s : limiter) : res (option Z) * limiter :=
  check max_keys key limit window_seconds now s.

(** Every request let through, by key; a request is let through when fewer than
    [limit] of its key are inside the window. *)
Notation log := (gmap string (list float)).

Definition in_window (now t : float) : bool := negb (t <=? now - f_of_Z window_seconds)%F.

Definition reference_step (key : string) (now : float) (s : log) : res (option Z) * log :=
  let seen := default [] (s !! key) in
  match List.filter (in_window now) seen with
  | first :: rest =>
      if limit <=? Z.of_nat (length (first :: rest)) then (Some <$> retry_after first window_seconds now, s)
      else (Ok None, <[key := seen ++ [now]]> s)
  | [] => (Ok None, <[key := seen ++ [now]]> s)
  end.

(** ** The limiter implements the reference *)

Notation cut now := (now - f_of_Z window_seconds)%F.

Context (limit_pos : 1 <= limit) (window_ok : 0 <= window_seconds < 2 ^ 53).

Lemma limit_zero : (limit <=? Z.of_nat 0) = false.
Proof using limit_pos. clear window_ok. apply Z.leb_gt. exact (Z.lt_le_trans 0 1 limit eq_refl limit_pos). Qed.

Lemma cut_mono a b : isfinite a = true → isfinite b = true → (a <=? b)%F = true → (cut a <=? cut b)%F = true.
Proof using window_ok.
  clear limit_pos. destruct a as [x| |], b as [y| |]; try done. intros _ _ H%fleb_Fin. unfold f_of_Z. rewrite (fl_Z _ window_ok).
  apply fl_mono. lra.
Qed.

Lemma drop_expired_twice c d l : (c <=? d)%F = true → drop_expired d (drop_expired c l) = drop_expired d l.
Proof using.
  intros Hc. induction l as [|t l IH]; [done|]. cbn [drop_expired]. destruct (t <=? c)%F eqn:E; [|done].
  rewrite IH. by rewrite (fleb_trans _ _ _ E Hc).
Qed.

Lemma drop_expired_snoc c l x :
  drop_expired c (l ++ [x]) = match drop_expired c l with
                              | [] => if (x <=? c)%F then [] else [x]
                              | l' => l' ++ [x]
                              end.
Proof using.
  induction l as [|t l IH]; [done|]. cbn [app drop_expired]. by destruct (t <=? c)%F.
Qed.

(** At any time from [last] on, the recent requests of the limiter are those of
    the log inside the window. *)
Record tracks (keys : gset string) (last : float) (s : limiter) (l : log) : Prop := {
  tr_recent : ∀ key now, isfinite now = true → (last <=? now)%F = true →
    drop_expired (cut now) (default [] (lm_events s !! key)) = List.filter (in_window now) (default [] (l !! key));
  tr_past : ∀ key t, t ∈ default [] (l !! key) → (t <=? last)%F = true;
  tr_keys : dom (lm_events s) ⊆ keys
}.

Lemma filter_none now l : Forall (λ t, (t <=? cut now)%F = true) l → List.filter (in_window now) l = [].
Proof using. induction 1 as [|t l Ht H IH]; [done|]. cbn. unfold in_window at 1. by rewrite Ht. Qed.

Lemma evict_none keys key s : dom (lm_events s) ⊆ keys → key ∈ keys → Z.of_nat (size keys) <= max_keys →
  evict max_keys key s = Ok s.
Proof using.
  clear limit_pos window_ok. intros Hd Hk Hs. unfold evict. case_bool_decide as E; [|done]. cbn [andb].
  assert (size ({[key]} ∪ dom (lm_events s)) <= size keys)%nat as H by (apply subseteq_size; set_solver).
  rewrite size_union, size_singleton, size_dom in H by (apply disjoint_singleton_l, not_elem_of_dom; done).
  by replace (max_keys <=? Z.of_nat (size (lm_events s))) with false by lia.
Qed.

(** The request is refused: the expired times are dropped for good. *)
Lemma tracks_refused keys last key now s l :
  isfinite now = true → (last <=? now)%F = true → key ∈ keys → tracks keys last s l →
  tracks keys now {| lm_events := <[key := drop_expired (cut now) (default [] (lm_events s !! key))]> (lm_events s);
                     lm_access_order := lm_access_order s |} l.
Proof using window_ok.
  clear limit_pos. intros Hn Hl Hk [Hr Hp Hd]. split; cbn.
  - intros k now' Hn' Hl'. assert ((last <=? now')%F = true) as H by (by eapply fleb_trans).
    destruct (decide (key = k)) as [<-|Hne]; [|rewrite lookup_insert_ne by done; by apply Hr].
    rewrite lookup_insert_eq. cbn [default from_option id]. rewrite drop_expired_twice by (by apply cut_mono). by apply Hr.
  - intros k t Ht. eapply fleb_trans; [by eapply Hp|done].
  - rewrite dom_insert. set_solver.
Qed.

(** The request is let through: its time is added on both sides. *)
Lemma tracks_allowed keys last key now s l order :
  isfinite now = true → (last <=? now)%F = true → key ∈ keys → tracks keys last s l →
  tracks keys now {| lm_events := <[key := drop_expired (cut now) (default [] (lm_events s !! key)) ++ [now]]> (lm_events s);
                     lm_access_order := order |} (<[key := default [] (l !! key) ++ [now]]> l).
Proof using window_ok.
  clear limit_pos. intros Hn Hl Hk [Hr Hp Hd]. assert ((now <=? now)%F = true) as Hnn by (apply fleb_refl; by destruct now). split; cbn.
  - intros k now' Hn' Hl'. assert ((last <=? now')%F = true) as H by (by eapply fleb_trans).
    destruct (decide (key = k)) as [<-|Hne]; [|rewrite !lookup_insert_ne by done; by apply Hr].
    rewrite !lookup_insert_eq. cbn [default from_option id]. rewrite drop_expired_snoc, List.filter_app.
    rewrite drop_expired_twice by (by apply cut_mono). rewrite Hr by done. cbn [List.filter]. unfold in_window at 3.
    destruct (now <=? cut now')%F eqn:E; cbn [negb].
    + rewrite filter_none; [done|]. apply Forall_forall. intros t Ht.
      apply (fleb_trans _ _ _ (Hp key t Ht)). by apply (fleb_trans _ _ _ Hl).
    + by destruct (List.filter _ _).
  - intros k t. destruct (decide (key = k)) as [<-|Hne].
    + rewrite lookup_insert_eq. cbn. intros [Ht| ->%list_elem_of_singleton]%elem_of_app; [|done].
      eapply fleb_trans; [by eapply Hp|done].
    + rewrite lookup_insert_ne by done. intros Ht. eapply fleb_trans; [by eapply Hp|done].
  - rewrite dom_insert. set_solver.
Qed.

Lemma limiter_step_tracks keys last key now s l :
  Z.of_nat (size keys) <= max_keys → key ∈ keys →
  isfinite now = true → (last <=? now)%F = true → tracks keys last s l →
  (limiter_step key now s).1 = (reference_step key now l).1 ∧
  tracks keys now (limiter_step key now s).2 (reference_step key now l).2.
Proof using limit_pos window_ok.
  intros Hm Hk Hn Hl Ht. pose proof (tr_recent _ _ _ _ Ht key now Hn Hl) as Hr.
  pose proof (tracks_refused keys last key now s l Hn Hl Hk Ht) as Hno.
  pose proof (tracks_allowed keys last key now s l (lm_access_order s ++ [key]) Hn Hl Hk Ht) as Hyes.
  unfold limiter_step, check, reference_step. rewrite (evict_none keys) by (done || apply Ht). rewrite Hr in *.
  destruct (List.filter (in_window now) _) as [|first rest].
  - cbn [length]. rewrite limit_zero. by split.
  - destruct (limit <=? _); by split.
Qed.

Lemma limiter_run_tracks keys requests last s l :
  Z.of_nat (size keys) <= max_keys → Forall (λ r, r.1 ∈ keys ∧ isfinite r.2 = true) requests →
  Sorted (λ a b, (a <=? b)%F = true) (last :: (snd <$> requests)) → tracks keys last s l →
  (run limiter_step requests s).1 = (run reference_step requests l).1.
Proof using limit_pos window_ok.
  intros Hm. revert last s l. induction requests as [|[key now] requests IH]; intros last s l; [done|].
  intros [[Hk Hn] Hf]%Forall_cons [Hs Hl%HdRel_inv]%Sorted_inv Ht. cbn [fst snd] in *.
  destruct (limiter_step_tracks keys last key now s l Hm Hk Hn Hl Ht) as [E Ht'].
  cbn [run]. destruct (limiter_step key now s) as [r s'], (reference_step key now l) as [r' l']. cbn [fst snd] in *.
  specialize (IH now s' l' Hf Hs Ht'). destruct (run limiter_step requests s'), (run reference_step requests l').
  cbn [fst] in *. by rewrite E, IH.
Qed.

(** C15.  Rate limiting.  As long as there are no more keys than the table may
    hold and the clock does not run backwards, the limiter answers as the reference
    limiter, which remembers every request it let through: a request passes exactly
    when fewer than [limit] requests of its key passed within the window before
    it, and is otherwise told how long the oldest of these blocks it. *)
Theorem limiter_exact (keys : gset string) requests :
  Z.of_nat (size keys) <= max_keys → Forall (λ r, r.1 ∈ keys ∧ isfinite r.2 = true) requests →
  Sorted (λ a b, (a <=? b)%F = true) (snd <$> requests) →
  (run limiter_step requests new_limiter).1 = (run reference_step requests ∅).1.
Proof using limit_pos window_ok.
  intros Hm Hf Hs. destruct requests as [|[key now] requests]; [done|].
  apply (limiter_run_tracks keys _ now); [done|done| |].
  - constructor; [done|]. constructor. cbn. apply Forall_cons in Hf as [[_ Hn] _]. apply fleb_refl. cbn in Hn. by destruct now.
  - split; cbn; [|by intros k t; rewrite lookup_empty; intros ?%elem_of_nil|by rewrite dom_empty].
    intros. by rewrite !lookup_empty.
Qed.

(** The queue grows by one key with every request let through, and shrinks only
    when the table is full. *)
Lemma access_order_grows keys key now s :
  dom (lm_events s) ⊆ keys → key ∈ keys → Z.of_nat (size keys) <= max_keys →
  (limiter_step key now s).1 = Ok None → lm_access_order (limiter_step key now s).2 = lm_access_order s ++ [key].
Proof using limit_pos.
  clear window_ok. intros Hd Hk Hm. unfold limiter_step, check. rewrite (evict_none keys) by done.
  destruct (drop_expired _ _) as [|t ts]; cbn [length].
  - by rewrite limit_zero.
  - destruct (limit <=? _); [|done]. generalize (retry_after t window_seconds now). by intros [z|e].
Qed.

End runs.

(** ** Concrete inputs *)

Definition at_second (key : string) (t : Z) : string * float := (key, f_of_Z t).

(** Two requests a minute; the third waits for the first to expire. *)
Lemma limiter_exact_witness :
  (run (limiter_step 10 2 60) [at_second "a" 0; at_second "a" 10; at_second "b" 20; at_second "a" 30; at_second "a" 61]
     new_limiter).1 = [Ok None; Ok None; Ok None; Ok (Some 31); Ok None].
Proof.
  rewrite (limiter_exact 10 2 60 ltac:(lia) ltac:(lia) {["a"; "b"]}).
  - vm_compute. reflexivity.
  - vm_compute. discriminate.
  - repeat constructor; set_solver.
  - repeat (constructor; try (vm_compute; reflexivity)).
Defined.

(** In a full table the key at the head of the queue is evicted, however recent
    its last request: [a], still sending, loses its record and passes a third and a
    fourth time within the minute. *)
Example eviction_forgives :
  (run (limiter_step 2 2 60) [at_second "a" 0; at_second "b" 1; at_second "a" 2; at_second "c" 3; at_second "a" 4;
     at_second "a" 5] new_limiter).1 = [Ok None; Ok None; Ok None; Ok None; Ok None; Ok None].
Proof. vm_compute. reflexivity. Qed.

(** And when that key has been evicted already, nothing is: the table of two keys
    holds four. *)
Example table_outgrows_bound :
  size (lm_events (run (limiter_step 2 9 60) [at_second "a" 0; at_second "a" 1; at_second "a" 2; at_second "b" 3; at_second "c" 4;
    at_second "d" 5; at_second "e" 6] new_limiter).2) = 4%nat.
Proof. vm_compute. reflexivity. Qed.
