(* ===== verification/Handler.v ===== *)
(** * The request handlers of service.py: state, effects and a program logic

    The application keeps two files, the state file of [State] and the ledger of
    [Evidence]; a handler is a function from these to a reply and these.  [triple]
    is a Hoare triple over what the files hold: the abstract store of [State] and
    the records of the ledger.  The codec, digest and signature of the ledger, the
    clock, the fresh identifiers and the texts of exceptions form the class
    [World]. *)

From Stdlib Require Import ZArith.
From S2P Require Import Prelude PyFormat Domain State Evidence.

Open Scope Z_scope.

(** What the handlers get from libraries and from the system; [P] is the type
    of the payloads of records. *)
Class World (P : Type) := {
  w_canonical : unsigned (P := P) → text;
  w_digest : text → string;
  w_private_key : option (string → string);
  w_key_id : string;
  w_public_key : option (string → string → bool);
  w_dump : EvidenceRecord (P := P) → text;
  w_parse : text → EvidenceRecord (P := P) + string;
  w_uuid : nat → string;
  w_clock : nat → datetime;
  w_str : exn → string
}.

(** The files, and how many times the clock or a fresh identifier was asked for. *)
Record sys := {
  sys_state : file;
  sys_ledger : option text;
  sys_tick : nat
}.

Definition start : sys := {| sys_state := NoFile; sys_ledger := None; sys_tick := 0 |}.

(** What a handler ends with: its response, an [HTTPException], or an exception
    that nothing catches (a response with status 500). *)
Inductive reply (A : Type) :=
| Done (a : A)
| HTTPError (status : Z) (detail : string)
| Uncaught (e : exn).
Arguments Done {A} a.
Arguments HTTPError {A} status detail.
Arguments Uncaught {A} e.

Definition handler (A : Type) : Type := sys → reply A * sys.

#[export] Instance handler_ret : MRet handler := λ A a s, (Done a, s).
#[export] Instance handler_bind : MBind handler := λ A B k h s,
  match h s with
  | (Done a, s) => k a s
  | (HTTPError status detail, s) => (HTTPError status detail, s)
  | (Uncaught e, s) => (Uncaught e, s)
  end.

Definition http_error {A} (status : Z) (detail : string) : handler A := λ s, (HTTPError status detail, s).
Definition uncaught {A} (e : exn) : handler A := λ s, (Uncaught e, s).

Section effects.
Context {P : Type} `{World P}.

(** A computation outside any [try]. *)
Definition lift {A} (m : res A) : handler A :=
  match m with Ok a => mret a | Raise e => uncaught e end.

(** [try: ... except (...) as exc: raise HTTPException(status, str(exc))] *)
Definition attempt {A} (catches : exn → bool) (status : Z) (m : res A) : handler A :=
  match m with
  | Ok a => mret a
  | Raise e => if catches e then http_error status (w_str e) else uncaught e
  end.

(** One call of the clock or of [uuid4]. *)
Definition fresh : handler nat := λ s,
  (Done (sys_tick s), {| sys_state := sys_state s; sys_ledger := sys_ledger s; sys_tick := S (sys_tick s) |}).

(** One operation of the persistent state, whatever it returns or raises. *)
Definition state_op (o : op) : handler (res outcome) := λ s,
  let '(r, f) := exec o (sys_state s) in
  (Done r, {| sys_state := f; sys_ledger := sys_ledger s; sys_tick := sys_tick s |}).

(** [ledger.append(record_type, subject_id, payload)]; [n] numbers its identifier
    and its time. *)
Definition append_at (n : nat) (record_type subject_id : string) (payload : P) : handler unit := λ s,
  match append w_canonical w_digest w_private_key w_key_id w_dump w_parse (w_uuid n) (isoformat (w_clock n))
          record_type subject_id payload (sys_ledger s) with
  | Ok (_, f) => (Done tt, {| sys_state := sys_state s; sys_ledger := f; sys_tick := sys_tick s |})
  | Raise e => (Uncaught e, s)
  end.

Definition ledger_append (record_type subject_id : string) (payload : P) : handler unit :=
  n ← fresh; append_at n record_type subject_id payload.

(** ** What the files hold *)

Record view := {
  vw_store : store;
  vw_records : list (EvidenceRecord (P := P))
}.

Notation ledger_holds := (written w_canonical w_digest w_private_key w_key_id w_dump w_parse).

Definition shows (s : sys) (v : view) : Prop :=
  represents (sys_state s) (vw_store v) ∧ ledger_holds (sys_ledger s) (vw_records v).

Definition empty_view : view := {| vw_store := empty_store; vw_records := [] |}.

Lemma shows_start : shows start empty_view.
Proof using. split; [apply represents_start|constructor]. Qed.

(** The view after an operation of the state, and after an append. *)
Definition after_op (o : op) (v : view) : view :=
  {| vw_store := (store_exec o (vw_store v)).2; vw_records := vw_records v |}.

Definition after_append (r : EvidenceRecord) (v : view) : view :=
  {| vw_store := vw_store v; vw_records := vw_records v ++ [r] |}.

(** [triple Pre h Q F]: from files that hold a view with [Pre], the handler ends
    in files that hold a view, with [Q] for its result if it is done and [F] if it
    failed. *)
Definition triple {A} (Pre : view → Prop) (h : handler A) (Q : A → view → Prop) (F : view → Prop) : Prop :=
  ∀ s v, shows s v → Pre v →
    ∃ v', shows (h s).2 v' ∧ match (h s).1 with Done a => Q a v' | _ => F v' end.

Lemma triple_ret {A} Pre (a : A) (Q : A → view → Prop) F : (∀ v, Pre v → Q a v) → triple Pre (mret a) Q F.
Proof using. intros HQ s v Hs Hv. exists v. split; [done|]. by apply HQ. Qed.

Lemma triple_http_error {A} Pre st d (Q : A → view → Prop) (F : view → Prop) :
  (∀ v, Pre v → F v) → triple Pre (http_error st d) Q F.
Proof using. intros HF s v Hs Hv. exists v. split; [done|]. by apply HF. Qed.

Lemma triple_uncaught {A} Pre e (Q : A → view → Prop) (F : view → Prop) : (∀ v, Pre v → F v) → triple Pre (uncaught e) Q F.
Proof using. intros HF s v Hs Hv. exists v. split; [done|]. by apply HF. Qed.

Lemma triple_bind {A B} Pre (h : handler A) (k : A → handler B) Mid Q F :
  triple Pre h Mid F → (∀ a, triple (Mid a) (k a) Q F) → triple Pre (h ≫= k) Q F.
Proof using.
  intros Hh Hk s v Hs Hv. destruct (Hh s v Hs Hv) as (v1 & Hs1 & H1). unfold mbind, handler_bind.
  destruct (h s) as [[a|st d|e] s1]; [|by exists v1..]. exact (Hk a s1 v1 Hs1 H1).
Qed.

Lemma triple_mono {A} (Pre Pre' : view → Prop) (h : handler A) (Q Q' : A → view → Prop) (F F' : view → Prop) :
  triple Pre h Q F → (∀ v, Pre' v → Pre v) → (∀ a v, Q a v → Q' a v) → (∀ v, F v → F' v) → triple Pre' h Q' F'.
Proof using.
  intros Hh HP HQ HF s v Hs Hv. destruct (Hh s v Hs (HP v Hv)) as (v' & Hs' & Hr). exists v'. split; [done|].
  destruct (h s).1; auto.
Qed.

Lemma triple_lift {A} Pre (m : res A) (Q : A → view → Prop) (F : view → Prop) :
  (∀ a v, m = Ok a → Pre v → Q a v) → (∀ v, Pre v → F v) → triple Pre (lift m) Q F.
Proof using. intros HQ HF. destruct m; [apply triple_ret; auto|by apply triple_uncaught]. Qed.

Lemma triple_attempt {A} Pre catches st (m : res A) (Q : A → view → Prop) (F : view → Prop) :
  (∀ a v, m = Ok a → Pre v → Q a v) → (∀ v, Pre v → F v) → triple Pre (attempt catches st m) Q F.
Proof using.
  intros HQ HF. destruct m as [a|e]; [apply triple_ret; auto|]. cbn. destruct (catches e);
    [by apply triple_http_error|by apply triple_uncaught].
Qed.

Lemma triple_fresh Pre (Q : nat → view → Prop) F : (∀ n v, Pre v → Q n v) → triple Pre fresh Q F.
Proof using. intros HQ s v Hs Hv. exists v. split; [done|]. by apply HQ. Qed.

Lemma triple_state_op Pre o (Q : res outcome → view → Prop) F :
  op_ok o → (∀ v, Pre v → Q (store_exec o (vw_store v)).1 (after_op o v)) → triple Pre (state_op o) Q F.
Proof using.
  intros Ho HQ s v [Hs Hl] Hv. exists (after_op o v). destruct (exec_refines o (sys_state s) (vw_store v) Ho Hs) as [E Hr].
  unfold state_op. destruct (exec o (sys_state s)) as [r f]. cbn [fst snd] in *. rewrite E. split; [by split|]. by apply HQ.
Qed.

Lemma triple_append Pre ty subject payload (Q : unit → view → Prop) (F : view → Prop) :
  (∀ v, Pre v → F v) →
  (∀ r v, Pre v → un_record_type (er_unsigned r) = ty → un_subject_id (er_unsigned r) = subject →
     un_payload (er_unsigned r) = payload → Q tt (after_append r v)) →
  triple Pre (ledger_append ty subject payload) Q F.
Proof using.
  intros HF HQ. unfold ledger_append. eapply triple_bind; [by apply (triple_fresh _ (λ _, Pre))|]. intros n s v [Hs Hl] Hv.
  unfold append_at. match goal with |- context [append ?a ?b ?c ?d ?e ?f ?g ?h ?i ?j payload ?k] =>
    destruct (append a b c d e f g h i j payload k) as [[r l]|ex] eqn:E end; [|exists v; by split; [|apply HF]].
  exists (after_append r v). split; [split; [done|]; by eapply written_append|].
  unfold append in E. inv_ok. by apply HQ.
Qed.

(** A pure step, with its equation, and then the rest. *)
Lemma triple_attempt_bind {A B} Pre catches st (m : res A) (k : A → handler B) Q F :
  (∀ v, Pre v → F v) → (∀ a, m = Ok a → triple Pre (k a) Q F) → triple Pre (attempt catches st m ≫= k) Q F.
Proof using.
  intros HF Hk. destruct m as [a|e]; [exact (Hk a eq_refl)|]. unfold attempt.
  destruct (catches e); intros s v Hs Hv; exists v; by split; [|apply HF].
Qed.

Lemma triple_lift_bind {A B} Pre (m : res A) (k : A → handler B) Q F :
  (∀ v, Pre v → F v) → (∀ a, m = Ok a → triple Pre (k a) Q F) → triple Pre (lift m ≫= k) Q F.
Proof using.
  intros HF Hk. destruct m as [a|e]; [exact (Hk a eq_refl)|]. intros s v Hs Hv. exists v. by split; [|apply HF].
Qed.

Lemma triple_fresh_bind {B} Pre (k : nat → handler B) Q F : (∀ n, triple Pre (k n) Q F) → triple Pre (fresh ≫= k) Q F.
Proof using. intros Hk. eapply triple_bind; [by apply (triple_fresh _ (λ _, Pre))|]. exact Hk. Qed.

(** ** Handlers that move the view along a relation *)

Section moves.
Context (R : view → view → Prop) `{!PreOrder R}.

Definition moves {A} (h : handler A) : Prop := ∀ v, triple (R v) h (λ _, R v) (R v).

Lemma moves_ret {A} (a : A) : moves (mret a).
Proof using. intros v. by apply triple_ret. Qed.

Lemma moves_http_error {A} st d : moves (http_error (A := A) st d).
Proof using. intros v. by apply triple_http_error. Qed.

Lemma moves_uncaught {A} e : moves (uncaught (A := A) e).
Proof using. intros v. by apply triple_uncaught. Qed.

Lemma moves_bind {A B} (h : handler A) (k : A → handler B) : moves h → (∀ a, moves (k a)) → moves (h ≫= k).
Proof using. intros Hh Hk v. eapply triple_bind; [apply Hh|]. intros a. apply Hk. Qed.

Lemma moves_lift {A} (m : res A) : moves (lift m).
Proof using. destruct m; [apply moves_ret|apply moves_uncaught]. Qed.

Lemma moves_attempt {A} catches st (m : res A) : moves (attempt catches st m).
Proof using. intros v. by apply triple_attempt. Qed.

Lemma moves_fresh : moves fresh.
Proof using. intros v. by apply triple_fresh. Qed.

Lemma moves_state_op o : op_ok o → (∀ v, R v (after_op o v)) → moves (state_op o).
Proof using PreOrder0. intros Ho HR v. apply triple_state_op; [done|]. intros v' Hv. by etrans. Qed.

Lemma moves_append ty subject payload :
  (∀ r v, un_payload (er_unsigned r) = payload → R v (after_append r v)) → moves (ledger_append ty subject payload).
Proof using PreOrder0. intros HR v. apply triple_append; [done|]. intros r v' Hv _ _ Hp. etrans; [done|]. by apply HR. Qed.

End moves.
End effects.

#[export] Hint Resolve moves_ret moves_http_error moves_uncaught moves_lift moves_attempt moves_fresh : moves.
