(* ===== verification/Service.v ===== *)
(** * service.py: the endpoints that change state

    Every endpoint that appends to the ledger or writes the state file, as a
    handler of [Handler]: the signed telemetry of operators, the idempotent
    analysis endpoints, the strategic report and the acknowledgement of its alerts.
    Handlers run without suspension once the body of the request is read, so a
    request is one step of the application.  Authentication by API key and the rate
    limit come before a handler and are in [Security]. *)

From Stdlib Require Import ZArith Ascii.
From S2P Require Import Prelude PyFloat PyFormat Domain Sources Fusion Compiler Graph Embedded State Evidence.
From S2P Require Import Exchange Decision Analysis Strategic Crypto Telemetry Handler.
From S2P Require Interop.

Open Scope Z_scope.

(** ** Responses and payloads *)

Record TelemetryResponse := { tr_accepted : bool; tr_observation : Observation }.

Record VerifyReserveResponse := {
  vr_valid : bool;
  vr_policy_minimum : Z;
  vr_commitment_hash_hex : string;
  vr_message : string
}.

Record CAPAlertResponse := { cp_accepted : bool; cp_alert : Interop.CAPAlert }.

(** The payloads of the records, before [model_dump(mode="json")]. *)
Inductive payload :=
| POperatorObservation (o : Observation)
| PAssessment (a : CorridorAssessment)
| PRegression (r : RegressionResult)
| PGraph (g : GraphAssessment)
| PPlan (p : CompiledPlan)
| PReserve (r : VerifyReserveResponse)
| PPacket (p : DecisionPacket)
| PCap (r : CAPAlertResponse)
| PStrategic (r : StrategicAnalysisReport)
| PAlertKey (alert_key : string).

(** [model_dump_json] and [model_validate_json] of a class. *)
Class Model (A : Type) := {
  model_dump_json : A → string;
  model_validate_json : string → res A
}.

(** The part of a request the handlers read: [body] and [query] as received, the
    headers [idempotency-key], [x-continuity-timestamp], [x-continuity-signature]. *)
Record request := {
  rq_body : string;
  rq_query : string;
  rq_idempotency_key : option string;
  rq_timestamp : string;
  rq_signature : string
}.

Record settings := {
  operator_webhook_secret : option string;
  compiler_max_actions : Z;
  production : bool;
  evidence_dir_exists : bool;
  evidence_keys_exist : bool * bool;
  analysis_fuel : nat
}.

(** The libraries the handlers call: digests, the numeric and time parsers of
    [Telemetry], [str] of the values a metadata entry may hold besides strings,
    [orjson.dumps] of a payload and of an event, the XML parser, the order of a set,
    the texts of an export, and a report as JSON. *)
Class Libraries := {
  l_hmac_sha256 : string → string → string;
  l_sha256 : string → string;
  l_float : string → res float;
  l_fromisoformat : string → res datetime;
  l_repr : json → string;
  l_str_value : pyval → string;
  l_orjson_dumps : object → res string;
  l_event_body : Interop.ContinuityCloudEvent → res string;
  l_fromstring : string → Interop.parsed;
  l_set_order : list string → list string;
  l_dump_records : list (EvidenceRecord (P := payload)) → text;
  l_report_json : StrategicAnalysisReport → json
}.

Section service.
Context `{World payload, Libraries, LibM, Square}.
Context `{Model TelemetryResponse, Model CorridorAssessment, Model RegressionResult, Model GraphAssessment,
  Model CompiledPlan, Model VerifyReserveResponse, Model DecisionPacket, Model CAPAlertResponse,
  Model StrategicAnalysisReport}.
Context (configured : settings).

(** ** Exceptions *)

(** [ValueError] and the classes derived from it *)
Definition is_value_error (e : exn) : bool :=
  match e with
  | ValueError _ | ValidationError _ | SourcePolicyError _ | TelemetryAuthenticationError _ | IdempotencyConflict _ => true
  | _ => false
  end.

Definition is_key_error (e : exn) : bool := match e with KeyError _ => true | _ => false end.
Definition is_conflict (e : exn) : bool := match e with IdempotencyConflict _ => true | _ => false end.

(** ** Idempotency *)

Fixpoint has_space (s : string) : bool :=
  match s with EmptyString => false | String c s => is_space c || has_space s end.

Definition invalid_key (key : string) : bool := str_empty key || (128 <? str_len key) || has_space key.

Definition fingerprint_of (body query : string) : string := hexdigest l_sha256 (body +:+ query).

Definition lookup_idempotent (namespace key fingerprint : string) : handler (option string) :=
  r ← state_op (GetIdempotent namespace key fingerprint);
  o ← attempt is_conflict 409 r;
  match o with OResponse c => mret c | _ => mret None end.

Definition idempotency_context (rq : request) (namespace : string) : handler (option string * option string * option string) :=
  match rq_idempotency_key rq with
  | None => mret (None, None, None)
  | Some key =>
      if invalid_key key then http_error 400 "invalid idempotency key"
      else
        let fingerprint := fingerprint_of (rq_body rq) (rq_query rq) in
        cached ← lookup_idempotent namespace key fingerprint;
        mret (Some key, Some fingerprint, cached)
  end.

Definition save_idempotency (namespace : string) (key fingerprint : option string) (response : string) : handler unit :=
  match key, fingerprint with
  | Some key, Some fingerprint =>
      r ← state_op (SaveIdempotent namespace key fingerprint response);
      _ ← attempt is_conflict 409 r; mret tt
  | _, _ => mret tt
  end.

(** The common shape of the analysis endpoints: a response saved under the key of
    the request is returned as it was; otherwise the work is done and saved. *)
Definition endpoint {A} `{Model A} (namespace : string) (rq : request) (work : handler A) : handler A :=
  '(key, fingerprint, cached) ← idempotency_context rq namespace;
  match cached with
  | Some c => lift (model_validate_json c)
  | None =>
      response ← work;
      _ ← save_idempotency namespace key fingerprint (model_dump_json response);
      mret response
  end.

(** ** Analysis endpoints *)

Definition assess_endpoint (rq : request) (corridor_id : string) (observations : list Observation) (as_of : option datetime)
    : handler CorridorAssessment :=
  endpoint "assess" rq
    (n ← fresh;
     a ← attempt is_value_error 422 (assess (w_uuid n) (w_clock n) corridor_id observations as_of);
     _ ← ledger_append "corridor_assessment" (ca_assessment_id a) (PAssessment a);
     mret a).

Definition regression_analysis (rq : request) (r : RegressionRequest) : handler RegressionResult :=
  endpoint "regression" rq
    (result ← attempt is_value_error 422 (run_regression r);
     _ ← ledger_append "multivariate_regression" (rg_dataset_id r) (PRegression result);
     mret result).

Definition analyze_graph (rq : request) (g : DependencyGraph) (failed_nodes : list string) : handler GraphAssessment :=
  endpoint "graph-analyze" rq
    (result ← attempt is_value_error 422
                (analyze (analysis_fuel configured) g (l_set_order (set_of failed_nodes)) true);
     _ ← ledger_append "dependency_graph_assessment" (graph_id g) (PGraph result);
     mret result).

Definition compile_plan (rq : request) (r : CompileRequest) : handler CompiledPlan :=
  endpoint "compile" rq
    (n ← fresh;
     plan ← attempt is_value_error 422 (compile (compiler_max_actions configured) (w_uuid n) r);
     _ ← ledger_append "compiled_plan" (cp_plan_id plan) (PPlan plan);
     mret plan).

Definition ingest_cap_alert (rq : request) : handler CAPAlertResponse :=
  endpoint "cap-alerts" rq
    (alert ← attempt is_value_error 422 (Interop.parse_cap_alert l_fromstring l_fromisoformat (rq_body rq));
     let response := {| cp_accepted := true; cp_alert := alert |} in
     _ ← ledger_append "cap_alert" (Interop.ca_identifier alert) (PCap response);
     mret response).

(** [ledger.records(0, 1000)] *)
Definition ledger_records : handler (res (list (EvidenceRecord (P := payload)))) := λ s,
  (Done (records w_parse 0 1000 (sys_ledger s)), s).

Definition create_decision_packet (rq : request) (r : DecisionPacketRequest) : handler DecisionPacket :=
  endpoint "decision-packets" rq
    (m ← fresh;
     rs ← ledger_records;
     rs ← attempt is_value_error 422 rs;
     n ← fresh; i ← fresh; j ← fresh;
     let draws := {| draw_assessment_id := w_uuid n; draw_plan_id := w_uuid i; draw_packet_id := w_uuid j; draw_clock := w_clock n |} in
     packet ← attempt is_value_error 422
       (build_decision_packet (analysis_fuel configured) l_set_order (compiler_max_actions configured) draws r
          (export_manifest l_dump_records w_digest rs (w_clock m)));
     _ ← ledger_append "corridor_assessment" (ca_assessment_id (dp_assessment packet)) (PAssessment (dp_assessment packet));
     _ ← ledger_append "dependency_graph_assessment" (ga_graph_id (dp_dependency_assessment packet))
           (PGraph (dp_dependency_assessment packet));
     _ ← ledger_append "compiled_plan" (cp_plan_id (dp_plan packet)) (PPlan (dp_plan packet));
     _ ← ledger_append "decision_packet" (dp_packet_id packet) (PPacket packet);
     mret packet).

(** The response is saved before an invalid proof is refused. *)
Definition verify_reserve_proof (rq : request) (proof : ZKPReserveProof) : handler VerifyReserveResponse :=
  '(key, fingerprint, cached) ← idempotency_context rq "verify-reserve";
  match cached with
  | Some c => lift (model_validate_json c)
  | None =>
      is_valid ← lift (verify_reserve l_sha256 proof 1000);
      let response :=
        {| vr_valid := is_valid; vr_policy_minimum := zp_policy_minimum proof;
           vr_commitment_hash_hex := zp_commitment_hash_hex proof;
           vr_message := if is_valid then "Zero-Knowledge Proof mathematically verified."
                         else "Zero-Knowledge Proof verification failed." |} in
      _ ← ledger_append "zkp_reserve_verification" (zp_commitment_hash_hex proof) (PReserve response);
      _ ← save_idempotency "verify-reserve" key fingerprint (model_dump_json response);
      if is_valid then mret response else http_error 400 "ZKP Reserve Proof verification failed."
  end.

(** ** Operator telemetry *)

(** [str(v)] and [int(v)] on a metadata entry *)
Definition str_of_value (v : pyval) : string := match v with VStr s => s | _ => l_str_value v end.

Definition int_of_value (v : pyval) : res Z :=
  match v with
  | VInt z => Ok z
  | VBool b => Ok (if b then 1 else 0)
  | VFloat x => int_of_json (JFloat x)
  | VStr s => int_of_str s
  | _ => Raise (TypeError "int() argument")
  end.

Definition metadata (o : Observation) (key : string) : res pyval :=
  match dget (obs_metadata o) key with Some v => Ok v | None => Raise (KeyError key) end.

Definition telemetry_error (e : exn) : bool := is_value_error e || is_key_error e.

(** [int(time.time())] *)
Definition epoch (n : nat) : Z := dt_us (w_clock n) / 1000000.

Definition claim (tenant_id asset_id : string) (sequence : Z) : handler bool :=
  r ← state_op (ClaimSequence tenant_id asset_id sequence);
  o ← lift r;
  match o with OBool b => mret b | _ => mret false end.

Definition accept_operator_payload (payload : object) (body timestamp signature : string) (key fingerprint : option string)
    : handler TelemetryResponse :=
  match operator_webhook_secret configured with
  | None => http_error 503 "telemetry disabled"
  | Some secret =>
      n ← fresh;
      _ ← attempt telemetry_error 401
            (verify_operator_signature l_hmac_sha256 (epoch n) body timestamp signature secret 300);
      m ← fresh;
      observation ← attempt telemetry_error 401
            (normalized_operator_observation (hexdigest l_sha256) l_float l_fromisoformat l_repr (w_clock m) (w_uuid m) payload body);
      _ ← attempt telemetry_error 401 (validate_observation_source observation);
      tenant_id ← lift (metadata observation "tenant_id");
      asset_id ← lift (metadata observation "asset_id");
      sequence ← lift (metadata observation "sequence" ≫= int_of_value);
      claimed ← claim (str_of_value tenant_id) (str_of_value asset_id) sequence;
      if negb claimed then http_error 409 "telemetry replay rejected"
      else
        _ ← ledger_append "operator_observation" (obs_observation_id observation) (POperatorObservation observation);
        let response := {| tr_accepted := true; tr_observation := observation |} in
        _ ← save_idempotency "operator-observations" key fingerprint (model_dump_json response);
        mret response
  end.

Definition ingest_operator_observation (rq : request) (payload : object) : handler TelemetryResponse :=
  '(key, fingerprint, cached) ← idempotency_context rq "operator-observations";
  match cached with
  | Some c => lift (model_validate_json c)
  | None =>
      body ← lift (l_orjson_dumps payload);
      accept_operator_payload payload body (rq_timestamp rq) (rq_signature rq) key fingerprint
  end.

(** [request.headers.get("idempotency-key") or event.id] *)
Definition event_key (rq : request) (event : Interop.ContinuityCloudEvent) : string :=
  match rq_idempotency_key rq with
  | Some key => if str_empty key then Interop.ce_id event else key
  | None => Interop.ce_id event
  end.

Definition ingest_cloudevent (rq : request) (event : Interop.ContinuityCloudEvent) : handler TelemetryResponse :=
  if negb (mem_str (Interop.ce_type event) Interop.SUPPORTED_CLOUD_EVENT_TYPES) then
    http_error 422 "unsupported CloudEvent type"
  else
    body ← lift (l_event_body event);
    let key := event_key rq event in
    if invalid_key key then http_error 400 "invalid idempotency key"
    else
      let fingerprint := fingerprint_of body (rq_query rq) in
      cached ← lookup_idempotent "operator-observations" key fingerprint;
      match cached with
      | Some c => lift (model_validate_json c)
      | None =>
          accept_operator_payload (Interop.ce_data event) body (rq_timestamp rq) (rq_signature rq) (Some key) (Some fingerprint)
      end.

(** ** Strategic reports and their alerts *)

Definition state_get (namespace key : string) : handler json :=
  r ← state_op (GetValue namespace key);
  o ← lift r;
  match o with OValue v => mret v | _ => mret JNull end.

Definition state_set (namespace key : string) (value : json) : handler unit :=
  r ← state_op (SetValue namespace key value);
  _ ← lift r; mret tt.

(** [v if isinstance(v, dict) else {}] *)
Definition dict_or_empty (v : json) : object := match v with JObj m => m | _ => ∅ end.

(** [bool(v)] *)
Definition truthy_json (v : json) : bool :=
  match v with
  | JNull => false
  | JBool b => b
  | JNum z => negb (z =? 0)
  | JFloat x => negb (x =? f0)%F
  | JStr s => negb (str_empty s)
  | JArr l => match l with [] => false | _ => true end
  | JObj m => negb (bool_decide (m = ∅))
  end.

Definition with_state (a : StrategicAlert) (state : string) (due : option datetime) : StrategicAlert :=
  {| al_alert_id := al_alert_id a; al_alert_key := al_alert_key a; al_dimension := al_dimension a;
     al_severity := al_severity a; al_score := al_score a; al_rationale := al_rationale a; al_source_ids := al_source_ids a;
     al_requires_human_review := al_requires_human_review a; al_delivery_state := state; al_escalation_due_at := due |}.

Definition with_alerts (r : StrategicAnalysisReport) (alerts : list StrategicAlert) : StrategicAnalysisReport :=
  {| sp_contract_version := sp_contract_version r; sp_report_id := sp_report_id r; sp_generated_at := sp_generated_at r;
     sp_observation_count := sp_observation_count r; sp_window_start := sp_window_start r; sp_window_end := sp_window_end r;
     sp_heatmap := sp_heatmap r; sp_alerts := alerts; sp_coordination := sp_coordination r;
     sp_source_freshness := sp_source_freshness r; sp_regression := sp_regression r;
     sp_predictive_status := sp_predictive_status r; sp_limitations := sp_limitations r |}.

(** [(now - datetime.fromisoformat(last_emitted)).total_seconds() < cooldown],
    false when the text is not a time. *)
Definition in_cooldown_of (now : datetime) (cooldown : Z) (last_emitted : json) : res bool :=
  match last_emitted with
  | JStr s =>
      match l_fromisoformat s with
      | Raise e => if is_value_error e then Ok false else Raise e
      | Ok d =>
          _ ← raise_if (negb (eqb (dt_aware d) (dt_aware now))) (TypeError "can't subtract offset-naive and offset-aware datetimes");
          elapsed ← int_div (dt_us now - dt_us d) 1000000;
          Ok (elapsed <? f_of_Z cooldown)%F
      end
  | _ => Ok false
  end.

(** [now + timedelta(seconds=...)] *)
Definition add_seconds (d : datetime) (seconds : Z) : datetime :=
  {| dt_us := dt_us d + seconds * 1000000; dt_aware := dt_aware d |}.

(** The body of the loop over the alerts of a new report. *)
Definition deliver_alert (now : datetime) (cooldown : Z) (alert : StrategicAlert) : handler StrategicAlert :=
  previous ← state_get "strategic_alerts" (al_alert_key alert);
  let previous := dict_or_empty previous in
  let acknowledged := truthy_json (default (JBool false) (previous !! "acknowledged")) in
  let last_emitted := dict_get previous "last_emitted_at" in
  in_cooldown ← lift (in_cooldown_of now cooldown last_emitted);
  let state := if acknowledged then "acknowledged" else if (in_cooldown : bool) then "cooldown" else "ready" in
  let due_at := match dict_get previous "escalation_due_at" with
                | JStr s => s
                | _ => isoformat (add_seconds now (if str_eqb (al_severity alert) "critical" then 900 else 3600))
                end in
  due ← lift (l_fromisoformat due_at);
  _ ← state_set "strategic_alerts" (al_alert_key alert)
        (JObj (<["acknowledged" := JBool acknowledged]>
              (<["last_emitted_at" := if in_cooldown then last_emitted else JStr (isoformat now)]>
              (<["escalation_due_at" := JStr due_at]> {["dimension" := JStr (al_dimension alert)]}))));
  mret (with_state alert state (Some due)).

Fixpoint map_handler {A B} (f : A → handler B) (l : list A) : handler (list B) :=
  match l with
  | [] => mret []
  | x :: l => y ← f x; ys ← map_handler f l; mret (y :: ys)
  end.

(** The loop over the alerts of a saved report. *)
Definition refresh_alert (alert : StrategicAlert) : handler StrategicAlert :=
  previous ← state_get "strategic_alerts" (al_alert_key alert);
  match previous with
  | JObj m => if truthy_json (dict_get m "acknowledged")
              then mret (with_state alert "acknowledged" (al_escalation_due_at alert)) else mret alert
  | _ => mret alert
  end.

Definition strategic_analyze (rq : request) (r : StrategicAnalysisRequest) : handler StrategicAnalysisReport :=
  '(key, fingerprint, cached) ← idempotency_context rq "strategic-analyze";
  match cached with
  | Some c =>
      cached_report ← lift (model_validate_json c);
      alerts ← map_handler refresh_alert (sp_alerts cached_report);
      let cached_report := with_alerts cached_report alerts in
      _ ← state_set "strategic" "latest" (l_report_json cached_report);
      mret cached_report
  | None =>
      n ← fresh;
      report ← attempt is_value_error 422 (build_strategic_report (hexdigest l_sha256) r (w_uuid n) (w_clock n));
      m ← fresh;
      alerts ← map_handler (deliver_alert (w_clock m) (st_alert_cooldown_seconds r)) (sp_alerts report);
      let report := with_alerts report alerts in
      _ ← state_set "strategic" "latest" (l_report_json report);
      _ ← ledger_append "strategic_analysis" (sp_report_id report) (PStrategic report);
      _ ← save_idempotency "strategic-analyze" key fingerprint (model_dump_json report);
      mret report
  end.

(** [alert["delivery_state"] = state] on the alerts of that key of the latest
    report. *)
Definition mark_alert (alert_key state : string) (alert : json) : json :=
  match alert with
  | JObj m => if eq_str (dict_get m "alert_key") alert_key then JObj (<["delivery_state" := JStr state]> m) else alert
  | _ => alert
  end.

Definition mark_latest (alert_key state : string) (latest : object) : res object :=
  match latest !! "alerts" with
  | None => Ok latest
  | Some (JArr alerts) => Ok (<["alerts" := JArr (mark_alert alert_key state <$> alerts)]> latest)
  | Some (JObj _) | Some (JStr _) => Ok latest
  | Some _ => Raise (TypeError "object is not iterable")
  end.

(** The two handlers differ in the fields they set, the state they give the alert
    and the type of the record. *)
Definition acknowledgement (flag : bool) (stamp state record_type alert_key : string) : handler (string * bool) :=
  if (512 <? str_len alert_key) || str_empty alert_key then http_error 400 "invalid alert key"
  else
    previous ← state_get "strategic_alerts" alert_key;
    n ← fresh;
    let record := <[stamp := JStr (isoformat (w_clock n))]> (<["acknowledged" := JBool flag]> (dict_or_empty previous)) in
    _ ← state_set "strategic_alerts" alert_key (JObj record);
    latest ← state_get "strategic" "latest";
    _ ← match latest with
        | JObj m => latest ← lift (mark_latest alert_key state m); state_set "strategic" "latest" (JObj latest)
        | _ => mret tt
        end;
    _ ← ledger_append record_type alert_key (PAlertKey alert_key);
    mret (alert_key, flag).

Definition acknowledge_strategic_alert : string → handler (string * bool) :=
  acknowledgement true "acknowledged_at" "acknowledged" "strategic_alert_acknowledgement".

Definition unacknowledge_strategic_alert : string → handler (string * bool) :=
  acknowledgement false "unacknowledged_at" "ready" "strategic_alert_unacknowledgement".

(** ** Reading the ledger *)

(** [readiness_payload]: the checks, and the status of the response. *)
Definition readiness_payload (ledger : option text) : list (string * bool) * Z :=
  let checks :=
    [("evidence_directory", evidence_dir_exists configured);
     ("ledger_integrity", match Evidence.verify w_canonical w_digest w_public_key w_parse ledger with [] => true | _ => false end)]
    ++ (if production configured then [("evidence_private_key", (evidence_keys_exist configured).1);
                                       ("evidence_public_key", (evidence_keys_exist configured).2)] else []) in
  (checks, if forallb snd checks then 200 else 503).

(** [verify_evidence]: whether the ledger is valid, and the errors. *)
Definition verify_evidence (ledger : option text) : bool * list string :=
  let errors := Evidence.verify w_canonical w_digest w_public_key w_parse ledger in
  (match errors with [] => true | _ => false end, errors).

(** ** Runs *)

Inductive call :=
| COperatorObservation (rq : request) (payload : object)
| CCloudEvent (rq : request) (event : Interop.ContinuityCloudEvent)
| CAssess (rq : request) (corridor_id : string) (observations : list Observation) (as_of : option datetime)
| CRegression (rq : request) (r : RegressionRequest)
| CAnalyzeGraph (rq : request) (g : DependencyGraph) (failed_nodes : list string)
| CCompile (rq : request) (r : CompileRequest)
| CCapAlert (rq : request)
| CVerifyReserve (rq : request) (proof : ZKPReserveProof)
| CDecisionPacket (rq : request) (r : DecisionPacketRequest)
| CStrategic (rq : request) (r : StrategicAnalysisRequest)
| CAcknowledge (alert_key : string)
| CUnacknowledge (alert_key : string).

(** The handler of a call, its response forgotten. *)
Definition serve (c : call) : handler unit :=
  match c with
  | COperatorObservation rq p => _ ← ingest_operator_observation rq p; mret tt
  | CCloudEvent rq e => _ ← ingest_cloudevent rq e; mret tt
  | CAssess rq c os t => _ ← assess_endpoint rq c os t; mret tt
  | CRegression rq r => _ ← regression_analysis rq r; mret tt
  | CAnalyzeGraph rq g fs => _ ← analyze_graph rq g fs; mret tt
  | CCompile rq r => _ ← compile_plan rq r; mret tt
  | CCapAlert rq => _ ← ingest_cap_alert rq; mret tt
  | CVerifyReserve rq p => _ ← verify_reserve_proof rq p; mret tt
  | CDecisionPacket rq r => _ ← create_decision_packet rq r; mret tt
  | CStrategic rq r => _ ← strategic_analyze rq r; mret tt
  | CAcknowledge k => _ ← acknowledge_strategic_alert k; mret tt
  | CUnacknowledge k => _ ← unacknowledge_strategic_alert k; mret tt
  end.

Definition run (calls : list call) (s : sys) : sys := foldl (λ s c, (serve c s).2) s calls.

End service.
