(* ===== verification/ServiceLaws.v ===== *)
(** * What the endpoints of [Service] guarantee

    Relations every handler moves the files along, the exact effect of an
    accepted operator observation, and the theorems about runs of calls. *)

From Stdlib Require Import ZArith Sorted.
From S2P Require Import Prelude PyFloat PyFormat Domain Sources Fusion Compiler Graph Embedded State Evidence.
From S2P Require Import Exchange Decision Analysis Strategic Crypto Telemetry Handler Service.
From S2P Require Interop.

Open Scope Z_scope.

(** Split a handler into its steps. *)
Ltac step_moves :=
  first
    [ solve [eauto with moves]
    | apply moves_bind; [|intros ?]
    | lazymatch goal with
      | |- moves _ (let '(_, _) := ?x in _) => destruct x
      | |- moves _ (if ?b then _ else _) => destruct b
      | |- moves _ (match ?x with _ => _ end) => destruct x
      | |- moves _ (?f _ ) => progress cbv beta zeta
      end ].
Ltac solve_moves := repeat step_moves.

Notation sview := (view (P := payload)).

Section laws.
Context `{World payload, Libraries, LibM, Square}.
Context `{Model TelemetryResponse, Model CorridorAssessment, Model RegressionResult, Model GraphAssessment,
  Model CompiledPlan, Model VerifyReserveResponse, Model DecisionPacket, Model CAPAlertResponse,
  Model StrategicAnalysisReport}.
Context (configured : settings).

(** ** Handlers that leave telemetry alone *)

Definition quiet_op (o : op) : Prop :=
  match o with
  | ClaimSequence _ _ _ => False
  | GetValue ns _ => ns = "strategic" ∨ ns = "strategic_alerts"
  | SetValue ns _ _ => ns = "strategic"
  | _ => True
  end.

Definition quiet_payload (p : payload) : Prop := match p with POperatorObservation _ => False | _ => True end.

Lemma quiet_op_ok o : quiet_op o → op_ok o.
Proof using. destruct o; cbn; try done; [intros [-> | ->]|intros ->]; intros [E|E]; discriminate E. Qed.

Section quiet.
Context (R : view → view → Prop) `{!PreOrder R}
  (quiet_state : ∀ v o, quiet_op o → R v (after_op o v))
  (quiet_append : ∀ v r, quiet_payload (un_payload (er_unsigned r)) → R v (after_append r v)).

Lemma moves_quiet_op o : quiet_op o → moves R (state_op o).
Proof using PreOrder0 quiet_state. intros Ho. apply moves_state_op; [done|by apply quiet_op_ok|]. intros v. by apply quiet_state. Qed.

Lemma moves_quiet_append ty subject p : quiet_payload p → moves R (ledger_append ty subject p).
Proof using PreOrder0 quiet_append. intros Hp. apply moves_append; [done|]. intros r v E. apply quiet_append. by rewrite E. Qed.

#[local] Hint Resolve moves_quiet_op moves_quiet_append : moves.
#[local] Hint Extern 1 (quiet_op _) => cbn; auto : moves.
#[local] Hint Extern 1 (quiet_payload _) => exact I : moves.

Lemma moves_lookup ns k fp : moves R (lookup_idempotent ns k fp).
Proof using PreOrder0 quiet_state. unfold lookup_idempotent. solve_moves. Qed.
#[local] Hint Resolve moves_lookup : moves.

Lemma moves_context rq ns : moves R (idempotency_context rq ns).
Proof using PreOrder0 quiet_state. unfold idempotency_context. solve_moves. Qed.
#[local] Hint Resolve moves_context : moves.

Lemma moves_save ns k fp response : moves R (save_idempotency ns k fp response).
Proof using PreOrder0 quiet_state. unfold save_idempotency. solve_moves. Qed.
#[local] Hint Resolve moves_save : moves.

Lemma moves_endpoint {A} `{Model A} ns rq (work : handler A) : moves R work → moves R (endpoint ns rq work).
Proof using PreOrder0 quiet_state. intros Hw. unfold endpoint. solve_moves. Qed.

#[local] Hint Resolve moves_endpoint : moves.

Lemma moves_records : moves R ledger_records.
Proof using. intros v s v' Hs Hv. by exists v'. Qed.
#[local] Hint Resolve moves_records : moves.

Lemma moves_get ns k : ns = "strategic" ∨ ns = "strategic_alerts" → moves R (state_get ns k).
Proof using PreOrder0 quiet_state. intros Hns. unfold state_get. solve_moves. Qed.

Lemma moves_set_latest v : moves R (state_set "strategic" "latest" v).
Proof using PreOrder0 quiet_state. unfold state_set. solve_moves. Qed.
#[local] Hint Resolve moves_set_latest : moves.

Lemma moves_get_alert k : moves R (state_get "strategic_alerts" k).
Proof using PreOrder0 quiet_state. apply moves_get. by right. Qed.

Lemma moves_get_latest k : moves R (state_get "strategic" k).
Proof using PreOrder0 quiet_state. apply moves_get. by left. Qed.
#[local] Hint Resolve moves_get_alert moves_get_latest : moves.

Lemma moves_map {A B} (f : A → handler B) l : (∀ x, moves R (f x)) → moves R (map_handler f l).
Proof using PreOrder0. intros Hf. induction l as [|x l IH]; cbn [map_handler]; solve_moves. Qed.
#[local] Hint Resolve moves_map : moves.

(** The analysis endpoints. *)
Lemma moves_assess rq c os t : moves R (assess_endpoint rq c os t).
Proof using PreOrder0 quiet_state quiet_append. apply moves_endpoint. solve_moves. Qed.

Lemma moves_regression rq r : moves R (regression_analysis rq r).
Proof using PreOrder0 quiet_state quiet_append. apply moves_endpoint. solve_moves. Qed.

Lemma moves_graph rq g fs : moves R (analyze_graph configured rq g fs).
Proof using PreOrder0 quiet_state quiet_append. apply moves_endpoint. solve_moves. Qed.

Lemma moves_compile rq r : moves R (compile_plan configured rq r).
Proof using PreOrder0 quiet_state quiet_append. apply moves_endpoint. solve_moves. Qed.

Lemma moves_cap rq : moves R (ingest_cap_alert rq).
Proof using PreOrder0 quiet_state quiet_append. apply moves_endpoint. solve_moves. Qed.

Lemma moves_packet rq r : moves R (create_decision_packet configured rq r).
Proof using PreOrder0 quiet_state quiet_append. apply moves_endpoint. solve_moves. Qed.

Lemma moves_reserve rq p : moves R (verify_reserve_proof rq p).
Proof using PreOrder0 quiet_state quiet_append. unfold verify_reserve_proof. solve_moves. Qed.

(** The handlers that also write the records of alerts. *)
Section alerts.
Context (quiet_alert : ∀ v k x, R v (after_op (SetValue "strategic_alerts" k x) v)).

Lemma moves_set_alert k x : moves R (state_set "strategic_alerts" k x).
Proof using PreOrder0 quiet_alert.
  unfold state_set. apply moves_bind; [apply moves_state_op; [done|by intros [E|E]|done]|]. intros r. solve_moves.
Qed.
#[local] Hint Resolve moves_set_alert : moves.

Lemma moves_deliver now c a : moves R (deliver_alert now c a).
Proof using PreOrder0 quiet_state quiet_alert. unfold deliver_alert. solve_moves. Qed.

Lemma moves_refresh a : moves R (refresh_alert a).
Proof using PreOrder0 quiet_state. unfold refresh_alert. solve_moves. Qed.
#[local] Hint Resolve moves_deliver moves_refresh : moves.

Lemma moves_strategic rq r : moves R (strategic_analyze rq r).
Proof using PreOrder0 quiet_state quiet_append quiet_alert. unfold strategic_analyze. solve_moves. Qed.

Lemma moves_acknowledgement flag stamp st ty k : moves R (acknowledgement flag stamp st ty k).
Proof using PreOrder0 quiet_state quiet_append quiet_alert. unfold acknowledgement. solve_moves. Qed.
End alerts.

(** The handlers that claim sequence numbers and record observations. *)
Section operator.
Context (claims : ∀ v t a n, R v (after_op (ClaimSequence t a n) v)) (observed : ∀ v r, R v (after_append r v)).

Lemma moves_claim t a n : moves R (claim t a n).
Proof using PreOrder0 claims. unfold claim. apply moves_bind; [by apply moves_state_op|]. intros r. solve_moves. Qed.

Lemma moves_append_any ty subject p : moves R (ledger_append ty subject p).
Proof using PreOrder0 observed. by apply moves_append. Qed.
#[local] Hint Resolve moves_claim moves_append_any : moves.

Lemma moves_accept p body ts sg k fp : moves R (accept_operator_payload configured p body ts sg k fp).
Proof using PreOrder0 quiet_state claims observed. unfold accept_operator_payload. solve_moves. Qed.
#[local] Hint Resolve moves_accept : moves.

Lemma moves_observation rq p : moves R (ingest_operator_observation configured rq p).
Proof using PreOrder0 quiet_state claims observed. unfold ingest_operator_observation. solve_moves. Qed.

Lemma moves_cloudevent rq e : moves R (ingest_cloudevent configured rq e).
Proof using PreOrder0 quiet_state claims observed. unfold ingest_cloudevent. solve_moves. Qed.
End operator.
End quiet.

(** ** Operator observations *)

(** The key and sequence number an observation claims. *)
Definition claim_of (o : Observation) : option (string * Z) :=
  match dget (obs_metadata o) "tenant_id", dget (obs_metadata o) "asset_id", dget (obs_metadata o) "sequence" with
  | Some (VStr t), Some (VStr a), Some s =>
      match int_of_value s with Ok n => Some (composite_key t a, n) | Raise _ => None end
  | _, _, _ => None
  end.

Definition record_claim (r : EvidenceRecord (P := payload)) : option (string * Z) :=
  match un_payload (er_unsigned r) with POperatorObservation o => claim_of o | _ => None end.

(** The numbers of the observations of a key in the ledger, oldest first. *)
Definition numbers (key : string) (rs : list (EvidenceRecord (P := payload))) : list Z :=
  omap (λ r, match record_claim r with Some (k, n) => if decide (k = key) then Some n else None | None => None end) rs.

(** The number is above the last one claimed. *)
Definition unclaimed (key : string) (n : Z) (v : sview) : Prop := ∀ p, sequences (vw_store v) !! key = Some p → p < n.

Definition claimed (key : string) (n : Z) (v v' : sview) : Prop :=
  unclaimed key n v ∧ sequences (vw_store v') = <[key := n]> (sequences (vw_store v)).

(** The observation is in the ledger, as its newest record, and its number is
    claimed. *)
Definition accepted (o : Observation) (v v' : sview) : Prop :=
  ∃ key n r, claim_of o = Some (key, n) ∧ claimed key n v v' ∧
    vw_records v' = vw_records v ++ [r] ∧ un_payload (er_unsigned r) = POperatorObservation o.

(** What a refused payload leaves: nothing; or a claimed number without a record;
    or, when the response cannot be saved, all the effects of acceptance. *)
Definition refused (v v' : sview) : Prop :=
  (sequences (vw_store v') = sequences (vw_store v) ∧ vw_records v' = vw_records v) ∨
  (∃ key n, claimed key n v v' ∧ vw_records v' = vw_records v) ∨
  ∃ o, accepted o v v'.

Lemma refused_none v : refused v v.
Proof using. by left. Qed.

Lemma normalized_claim now p body o : normalized (hexdigest l_sha256) now p body o →
  ∃ t a s n, metadata o "tenant_id" = Ok (VStr t) ∧ metadata o "asset_id" = Ok (VStr a) ∧
    metadata o "sequence" = Ok s ∧ int_of_value s = Ok n ∧ claim_of o = Some (composite_key t a, n).
Proof using.
  intros Hn. destruct (nz_names _ _ _ _ _ Hn) as (t & a & s & _ & _ & _ & _ & Hs & Hm).
  assert (∃ n, int_of_value s = Ok n) as [n En].
  { unfold sequence_of in Hs. destruct (dict_get p "sequence"); try done; [inversion Hs; by eexists|].
    destruct (z <? 0); [done|]. inversion Hs. by eexists. }
  assert (dget (obs_metadata o) "tenant_id" = Some (VStr t) ∧ dget (obs_metadata o) "asset_id" = Some (VStr a) ∧
    dget (obs_metadata o) "sequence" = Some s) as (E1 & E2 & E3) by (by rewrite Hm).
  exists t, a, s, n. unfold metadata, claim_of. by rewrite E1, E2, E3, En.
Qed.

Lemma claim_spec Pre t a n (Q : bool → view → Prop) (F : view → Prop) :
  (∀ v, Pre v → Q false v) →
  (∀ v, Pre v → unclaimed (composite_key t a) n v → Q true (after_op (ClaimSequence t a n) v)) →
  triple Pre (claim t a n) Q F.
Proof using.
  intros Hno Hyes. unfold claim. eapply triple_bind with (Mid := λ r v, match r with Ok (OBool b) => Q b v | _ => False end).
  - apply triple_state_op; [done|]. intros v Hv. specialize (Hno v Hv). specialize (Hyes v Hv).
    unfold unclaimed in Hyes. unfold after_op in *. cbn [store_exec] in *.
    destruct (sequences (vw_store v) !! composite_key t a) as [p|] eqn:E.
    + destruct (Z.leb_spec n p); cbn [fst snd] in *; [by destruct v|]. apply Hyes. intros p' [= <-]. lia.
    + cbn [fst snd] in *. by apply Hyes.
  - intros [[|b|r|j]|e]; [by intros s v _ []|by apply triple_ret|by intros s v _ []..].
Qed.

Lemma after_claim t a n v : unclaimed (composite_key t a) n v →
  claimed (composite_key t a) n v (after_op (ClaimSequence t a n) v) ∧
  vw_records (after_op (ClaimSequence t a n) v) = vw_records v.
Proof using.
  intros Hu. split; [split; [done|]|done]. unfold after_op. cbn. unfold unclaimed in Hu.
  destruct (sequences (vw_store v) !! composite_key t a) as [p|] eqn:E; [|done].
  specialize (Hu p eq_refl). by rewrite (proj2 (Z.leb_gt n p)).
Qed.

Lemma save_spec Pre ns key fp response (Q : unit → view → Prop) (F : view → Prop) :
  (∀ v v', Pre v → sequences (vw_store v') = sequences (vw_store v) → vw_records v' = vw_records v → Q tt v' ∧ F v') →
  triple Pre (save_idempotency ns key fp response) Q F.
Proof using.
  intros HQ. unfold save_idempotency. destruct key as [key|]; [|apply triple_ret; intros v Hv; by apply (HQ v v)].
  destruct fp as [fp|]; [|apply triple_ret; intros v Hv; by apply (HQ v v)].
  eapply triple_bind with (Mid := λ _ v', Q tt v' ∧ F v').
  - apply triple_state_op; [done|]. intros v Hv. apply (HQ v); [done| |done]. cbn.
    destruct (responses (vw_store v) !! composite_key ns key) as [[fp' r]|]; [|done]. by destruct (str_eqb fp' fp).
  - intros r. eapply triple_bind with (Mid := λ _ v', Q tt v' ∧ F v').
    + apply triple_attempt; [done|]. by intros v [_ ?].
    + intros _. apply triple_ret. by intros v [? _].
Qed.

(** The observation that the handler makes of a payload, and why. *)
Record admitted (p : object) (body timestamp signature : string) (o : Observation) : Prop := {
  ad_signature : ∃ secret n, operator_webhook_secret configured = Some secret ∧
    verify_operator_signature l_hmac_sha256 (epoch n) body timestamp signature secret 300 = Ok tt;
  ad_observation : ∃ now id,
    normalized_operator_observation (hexdigest l_sha256) l_float l_fromisoformat l_repr now id p body = Ok o;
  ad_policy : validate_observation_source o = Ok tt
}.

Lemma accept_spec v0 p body ts sg key fp :
  triple (λ v, v = v0) (accept_operator_payload configured p body ts sg key fp)
    (λ resp v, tr_accepted resp = true ∧ admitted p body ts sg (tr_observation resp) ∧ accepted (tr_observation resp) v0 v)
    (refused v0).
Proof using.
  assert (∀ v, v = v0 → refused v0 v) as Hno by (intros v ->; apply refused_none).
  unfold accept_operator_payload. destruct (operator_webhook_secret configured) as [secret|] eqn:Es; [|by apply triple_http_error].
  apply triple_fresh_bind. intros n. apply triple_attempt_bind; [done|]. intros [] Hsig.
  apply triple_fresh_bind. intros m. apply triple_attempt_bind; [done|]. intros o Ho.
  apply triple_attempt_bind; [done|]. intros [] Hpol.
  destruct (normalized_claim _ _ _ _ (normalized_ok _ _ _ _ _ _ _ _ _ Ho)) as (t & a & s & z & Et & Ea & Eseq & Ez & Ec).
  rewrite Et, Ea, Eseq. cbn [mbind res_bind]. rewrite Ez.
  apply triple_lift_bind; [done|]. intros x [= <-]. apply triple_lift_bind; [done|]. intros x [= <-].
  apply triple_lift_bind; [done|]. intros x [= <-]. cbn [str_of_value].
  set (v1 := λ v : sview, claimed (composite_key t a) z v0 v ∧ vw_records v = vw_records v0).
  eapply triple_bind with (Mid := λ (b : bool) v, if b then v1 v else v = v0).
  { apply claim_spec; [done|]. intros v -> Hu. by apply after_claim. }
  intros [|]; cbn [negb]; [|by apply triple_http_error].
  assert (∀ v, v1 v → refused v0 v) as Hburn by (intros v Hv; right; left; by eexists _, _).
  eapply triple_bind with (Mid := λ _, accepted o v0).
  { apply triple_append; [done|]. intros r v [[Hu Hc] Hr] _ _ Hp. exists (composite_key t a), z, r.
    split_and!; [done|by split|cbn; by rewrite Hr|done]. }
  intros _. cbv zeta.
  assert (∀ v v', accepted o v0 v → sequences (vw_store v') = sequences (vw_store v) → vw_records v' = vw_records v →
    accepted o v0 v') as Hsame.
  { intros v v' (k & n' & r & ? & [? ?] & ? & ?) E1 E2. exists k, n', r. split_and!; [done|split; [done|congruence]|congruence|done]. }
  eapply triple_bind with (Mid := λ _, accepted o v0).
  { apply save_spec. intros v v' Hv E1 E2. split; [by eapply Hsame|]. right. right. exists o. by eapply Hsame. }
  intros _. apply triple_ret. intros v Hv. cbn. split_and!; [done| |done].
  split; [by exists secret, n|by exists (w_clock m), (w_uuid m)|done].
Qed.

(** ** Lookups *)

Lemma lookup_spec v0 ns key fp :
  triple (λ v, v = v0) (lookup_idempotent ns key fp)
    (λ c v, v = v0 ∧ match c with
                     | Some r => responses (vw_store v0) !! composite_key ns key = Some (fp, r)
                     | None => responses (vw_store v0) !! composite_key ns key = None
                     end) (λ v, v = v0).
Proof using.
  unfold lookup_idempotent.
  eapply triple_bind with (Mid := λ r v, v = v0 ∧ r = match responses (vw_store v0) !! composite_key ns key with
    | None => Ok (OResponse None)
    | Some (fp', x) => if str_eqb fp' fp then Ok (OResponse (Some x)) else Raise conflict end).
  { apply triple_state_op; [done|]. intros v ->. split; [by destruct v0|]. done. }
  intros r. destruct (responses (vw_store v0) !! composite_key ns key) as [[fp' x]|] eqn:E.
  - destruct (str_eqb fp' fp) eqn:Ef.
    + apply str_eqb_true in Ef as ->. destruct r as [[| |[y|]|]|]; try (intros s w _ [_ D]; discriminate D).
      apply triple_ret. intros v [-> [= ->]]. done.
    + destruct r as [|e]; [by intros s v _ [_ D]|]. apply triple_attempt_bind; [by intros v [-> _]|done].
  - destruct r as [[| |[y|]|]|]; try (intros s w _ [_ D]; discriminate D). apply triple_ret. by intros v [-> _].
Qed.

(** A saved response for the key of the request, with its fingerprint. *)
Definition saved_response (ns : string) (rq : request) (v : sview) (c : string) : Prop :=
  ∃ key, rq_idempotency_key rq = Some key ∧
    responses (vw_store v) !! composite_key ns key = Some (fingerprint_of (rq_body rq) (rq_query rq), c).

Lemma context_spec v0 rq ns :
  triple (λ v, v = v0) (idempotency_context rq ns)
    (λ x v, v = v0 ∧ match x.2 with
                     | Some c => saved_response ns rq v0 c
                     | None => x.1 = (rq_idempotency_key rq, const (fingerprint_of (rq_body rq) (rq_query rq)) <$> rq_idempotency_key rq)
                     end) (λ v, v = v0).
Proof using.
  unfold idempotency_context. destruct (rq_idempotency_key rq) as [key|] eqn:Ek; [|by apply triple_ret].
  destruct (invalid_key key); [by apply triple_http_error|].
  eapply triple_bind; [apply lookup_spec|]. intros c. apply triple_ret. intros v [-> Hc]. split; [done|].
  destruct c as [c|]; cbn; [|done]. by exists key.
Qed.

(** C3.  Operator telemetry.  What a request to [/v1/operator-observations] leaves.
    When it succeeds, either it repeats a response saved for its idempotency key and body, without a
    look at its signature and without a change; or its signature over the canonical body
    is valid under the configured secret, the observation is the normalised payload and
    passes the source policy, its number is above every number claimed before for the
    asset and is claimed, and the ledger gained exactly one record, of this observation.
    When it does not succeed, either claims and ledger are as before, or a new number is
    claimed without a record (the append failed), or everything was done and only the
    response could not be saved. *)
Theorem operator_accepted s v rq p out s' :
  shows s v → ingest_operator_observation configured rq p s = (out, s') →
  ∃ v', shows s' v' ∧
    match out with
    | Done resp =>
        (v' = v ∧ ∃ c, saved_response "operator-observations" rq v c ∧ model_validate_json c = Ok resp) ∨
        ∃ body, l_orjson_dumps p = Ok body ∧ tr_accepted resp = true ∧
          admitted p body (rq_timestamp rq) (rq_signature rq) (tr_observation resp) ∧ accepted (tr_observation resp) v v'
    | _ =>
        (sequences (vw_store v') = sequences (vw_store v) ∧ vw_records v' = vw_records v) ∨
        (∃ key n, claimed key n v v' ∧ vw_records v' = vw_records v) ∨
        ∃ o, accepted o v v'
    end.
Proof using.
  intros Hs E.
  assert (triple (λ w, w = v) (ingest_operator_observation configured rq p)
    (λ resp v', (v' = v ∧ ∃ c, saved_response "operator-observations" rq v c ∧ model_validate_json c = Ok resp) ∨
       ∃ body, l_orjson_dumps p = Ok body ∧ tr_accepted resp = true ∧
         admitted p body (rq_timestamp rq) (rq_signature rq) (tr_observation resp) ∧ accepted (tr_observation resp) v v')
    (refused v)) as T.
  { assert (∀ w, w = v → refused v w) as Hno by (intros w ->; apply refused_none). unfold ingest_operator_observation. eapply triple_bind.
    { eapply triple_mono; [apply (context_spec v)|done|by intros x w Hx; exact Hx|exact Hno]. }
    intros [[key fp] [c|]]; cbn [fst snd].
    - apply triple_lift; [|by intros w [? _]; apply Hno]. intros a w Ea [-> Hc]. left. split; [done|]. by exists c.
    - apply triple_lift_bind; [by intros w [? _]; apply Hno|]. intros body Eb.
      eapply triple_mono; [apply (accept_spec v)|by intros w [-> _]| |done].
      intros r w (? & ? & ?). right. by exists body. }
  destruct (T s v Hs eq_refl) as (v' & Hs' & HQ). rewrite E in Hs', HQ. exists v'. split; [exact Hs'|]. by destruct out.
Qed.

(** ** Runs *)

(** In an increasing list the last number is the highest. *)
Lemma sorted_last (l : list Z) n : StronglySorted Z.lt l → n ∈ l → ∃ z, last l = Some z ∧ n <= z.
Proof using.
  induction l as [|x l IH]; intros Hs Hn; [by apply elem_of_nil in Hn|]. apply StronglySorted_inv in Hs as [Hs Hx].
  apply elem_of_cons in Hn as [->|Hn].
  - destruct (last l) as [z|] eqn:E.
    + exists z. rewrite last_cons, E. split; [done|]. rewrite Forall_forall in Hx. apply last_Some_elem_of in E. specialize (Hx z E). lia.
    + exists x. rewrite last_cons, E. split; [done|lia].
  - destruct (IH Hs Hn) as (z & E & ?). exists z. by rewrite last_cons, E.
Qed.

(** What every state has: the numbers in the ledger increase for every key and
    do not exceed the one claimed. *)
Definition ordered (v : sview) : Prop := ∀ key,
  StronglySorted Z.lt (numbers key (vw_records v)) ∧
  ∀ n, last (numbers key (vw_records v)) = Some n → ∃ m, sequences (vw_store v) !! key = Some m ∧ n <= m.

Definition same_telemetry (v v' : sview) : Prop :=
  sequences (vw_store v') = sequences (vw_store v) ∧ ∀ key, numbers key (vw_records v') = numbers key (vw_records v).

#[local] Instance same_telemetry_preorder : PreOrder same_telemetry.
Proof using. split; [by intros v|]. intros a b c [E1 H1'] [E2 H2']. split; [congruence|]. intros key. by rewrite H2'. Qed.

Lemma numbers_app key rs r : numbers key (rs ++ [r]) = numbers key rs ++ numbers key [r].
Proof using. apply omap_app. Qed.

Lemma same_state v o : quiet_op o → same_telemetry v (after_op o v).
Proof using.
  intros Ho. split; [|done]. destruct o as [ns k fp|ns k fp r| |ns k|ns k x]; cbn in *; try done.
  destruct (responses (vw_store v) !! composite_key ns k) as [[fp' x]|]; [|done]. by destruct (str_eqb fp' fp).
Qed.

Lemma same_append v r : quiet_payload (un_payload (er_unsigned r)) → same_telemetry v (after_append r v).
Proof using.
  intros Hr. split; [done|]. intros key. cbn [after_append vw_records]. rewrite numbers_app.
  assert (numbers key [r] = []) as ->; [|by rewrite app_nil_r]. cbn. unfold record_claim. by destruct (un_payload _).
Qed.

Lemma ordered_same v v' : ordered v → same_telemetry v v' → ordered v'.
Proof using. intros Hv [E1 E2] key. rewrite E1, E2. apply Hv. Qed.

Lemma ordered_claimed key n v v' : ordered v → claimed key n v v' → vw_records v' = vw_records v → ordered v'.
Proof using.
  intros Hv [Hu Hc] Hr k. destruct (Hv k) as [Hs Hl]. rewrite Hr, Hc. split; [done|]. intros m Hm.
  destruct (Hl m Hm) as (x & Hx & Hle). destruct (decide (key = k)) as [<-|Hne].
  - exists n. rewrite lookup_insert_eq. specialize (Hu x Hx). split; [done|lia].
  - exists x. by rewrite lookup_insert_ne.
Qed.

Lemma ordered_accepted o v v' : ordered v → accepted o v v' → ordered v'.
Proof using.
  intros Hv (key & n & r & Ho & [Hu Hc] & Hr & Hp) k. destruct (Hv k) as [Hs Hl]. rewrite Hr, Hc, numbers_app.
  assert (numbers k [r] = if decide (key = k) then [n] else []) as ->.
  { cbn. unfold record_claim. rewrite Hp, Ho. by destruct (decide (key = k)). }
  destruct (decide (key = k)) as [<-|Hne].
  - rewrite lookup_insert_eq, last_snoc. split.
    + apply sorted_snoc; [done|]. intros p Hpl. destruct (Hl p Hpl) as (m & Hm & Hle). specialize (Hu m Hm). lia.
    + intros m [= <-]. by exists n.
  - by rewrite app_nil_r, lookup_insert_ne.
Qed.

Lemma ordered_refused v v' : ordered v → refused v v' → ordered v'.
Proof using.
  intros Hv [[E1 E2]|[(key & n & Hc & Hr)|[o Ho]]].
  - eapply ordered_same; [done|]. split; [done|]. intros key. by rewrite E2.
  - by eapply ordered_claimed.
  - by eapply ordered_accepted.
Qed.

Lemma keeps_ordered {A} (h : handler A) : moves same_telemetry h → triple ordered h (λ _, ordered) ordered.
Proof using.
  intros Hm s v Hs Hv. destruct (Hm v s v Hs ltac:(reflexivity)) as (v' & Hs' & Hr). exists v'. split; [done|].
  destruct (h s).1; by eapply ordered_same.
Qed.

Lemma accept_ordered p body ts sg key fp :
  triple ordered (accept_operator_payload configured p body ts sg key fp) (λ _, ordered) ordered.
Proof using.
  intros s v Hs Hv. destruct (accept_spec v p body ts sg key fp s v Hs eq_refl) as (v' & Hs' & Hr). exists v'. split; [done|].
  destruct (_ s).1 as [resp|st d|e]; [|by eapply ordered_refused..]. destruct Hr as (_ & _ & Ha). by eapply ordered_accepted.
Qed.

Lemma same_alert v k x : same_telemetry v (after_op (SetValue "strategic_alerts" k x) v).
Proof using. by split. Qed.

#[local] Ltac same_tel := first [exact same_telemetry_preorder|exact same_state|exact same_append|exact same_alert].

Lemma triple_forget {A} (h : handler A) (I : sview → Prop) : triple I h (λ _, I) I → triple I (_ ← h; mret tt) (λ _, I) I.
Proof using. intros Hh. eapply triple_bind; [exact Hh|]. intros a. by apply triple_ret. Qed.

Lemma context_ordered rq ns : triple ordered (idempotency_context rq ns) (λ _, ordered) ordered.
Proof using. apply keeps_ordered, moves_context; same_tel. Qed.

Lemma observation_ordered rq p : triple ordered (ingest_operator_observation configured rq p) (λ _, ordered) ordered.
Proof using.
  unfold ingest_operator_observation. eapply triple_bind; [apply context_ordered|]. intros [[key fp] [c|]].
  - by apply triple_lift.
  - apply triple_lift_bind; [done|]. intros body _. apply accept_ordered.
Qed.

Lemma cloudevent_ordered rq e : triple ordered (ingest_cloudevent configured rq e) (λ _, ordered) ordered.
Proof using.
  unfold ingest_cloudevent. destruct (negb _); [by apply triple_http_error|].
  apply triple_lift_bind; [done|]. intros body _. destruct (invalid_key _); [by apply triple_http_error|].
  eapply triple_bind; [apply keeps_ordered, moves_lookup; same_tel|].
  intros [c|]; [by apply triple_lift|]. apply accept_ordered.
Qed.

Lemma serve_ordered c : triple ordered (serve configured c) (λ _, ordered) ordered.
Proof using.
  destruct c as [rq p|rq e|rq c os t|rq r|rq g fs|rq r|rq|rq p|rq r|rq r|k|k]; apply triple_forget;
    [apply observation_ordered|apply cloudevent_ordered|apply keeps_ordered..].
  - apply moves_assess; same_tel.
  - apply moves_regression; same_tel.
  - apply moves_graph; same_tel.
  - apply moves_compile; same_tel.
  - apply moves_cap; same_tel.
  - apply moves_reserve; same_tel.
  - apply moves_packet; same_tel.
  - apply moves_strategic; same_tel.
  - unfold acknowledge_strategic_alert. apply moves_acknowledgement; same_tel.
  - unfold unacknowledge_strategic_alert. apply moves_acknowledgement; same_tel.
Qed.

(** A predicate every call preserves holds after a run. *)
Lemma run_invariant (I : sview → Prop) calls s v :
  (∀ c, c ∈ calls → triple I (serve configured c) (λ _, I) I) → shows s v → I v →
  ∃ v', shows (run configured calls s) v' ∧ I v'.
Proof using.
  unfold run. revert s v. induction calls as [|c calls IH]; intros s v HI Hs Hv; cbn [foldl]; [by exists v|].
  destruct (HI c ltac:(left) s v Hs Hv) as (v1 & Hs1 & Hr).
  apply (IH _ v1); [|done|by destruct (serve configured c s).1]. intros c' Hc'. apply HI. by right.
Qed.

(** C4.  No replay in the ledger.  Whatever calls the application serves, in any
    order and whether they succeed or fail, the sequence numbers of the operator
    observations in its ledger increase strictly for every tenant and asset, and none exceeds
    the highest number that the state file has claimed for them. *)
Theorem ledger_replay_free calls :
  ∃ v, shows (run configured calls start) v ∧ ∀ key, StronglySorted Z.lt (numbers key (vw_records v)) ∧
    ∀ n, n ∈ numbers key (vw_records v) → ∃ m, sequences (vw_store v) !! key = Some m ∧ n <= m.
Proof using.
  destruct (run_invariant ordered calls start empty_view) as (v & Hs & Hv).
  - intros c _. apply serve_ordered.
  - apply shows_start.
  - intros key. split; [constructor|]. by intros n.
  - exists v. split; [done|]. intros key. destruct (Hv key) as [Hsort Hlast]. split; [done|]. intros n Hn.
    destruct (sorted_last _ n Hsort Hn) as (z & Hz & Hle). destruct (Hlast z Hz) as (m & Hm & ?). exists m. split; [done|lia].
Qed.

(** ** The ledger stays valid *)

Notation anything := (λ _ _ : sview, True).

#[local] Instance anything_preorder : PreOrder anything.
Proof using. by split. Qed.

Lemma serve_total c : triple (λ _, True) (serve configured c) (λ _ _, True) (λ _, True).
Proof using.
  assert (∀ {A} (h : handler A), moves anything h → triple (λ _, True) h (λ _ _, True) (λ _, True)) as T.
  { intros A h Hh s v Hs _. by apply (Hh v s v). }
  destruct c; apply (triple_forget _ (λ _, True)), T;
    [apply moves_observation|apply moves_cloudevent|apply moves_assess|apply moves_regression|apply moves_graph
    |apply moves_compile|apply moves_cap|apply moves_reserve|apply moves_packet|apply moves_strategic
    |unfold acknowledge_strategic_alert; apply moves_acknowledgement
    |unfold unacknowledge_strategic_alert; apply moves_acknowledgement]; first [done|exact anything_preorder].
Qed.

Lemma split_unlines lines : Forall (λ line, nl ∉ line) lines → split_nl (unlines lines) = lines ++ [[]].
Proof using.
  induction 1 as [|line lines Hl H' IH]; [done|].
  change (unlines (line :: lines)) with ((line ++ [nl]) ++ unlines lines). rewrite <-app_assoc. cbn [app].
  by rewrite split_nl_app, IH, split_nl_single.
Qed.

(** The codec writes the records of a state as single lines, and reads back those that are
    shorter than the block in which [_last_hash] looks for the last one. *)
Definition reads_back (v : sview) : Prop :=
  Forall (λ r, nl ∉ w_dump r ∧ (short w_dump r → faithful w_dump w_parse r)) (vw_records v).

(** C9.  The evidence endpoint.  Let a run of calls leave records in the ledger whose lines are
    shorter than 4096 bytes and are read back as the records they were written for,
    and let the keys match.  Then [/v1/evidence/verify] reports the ledger valid, and
    [/readyz] is ready if the evidence directory is there, and in production the keys. *)
Theorem service_stays_ready calls :
  let s := run configured calls start in
  keys_match w_private_key w_public_key →
  (∀ v, shows s v → reads_back v) → evidence_dir_exists configured = true →
  (production configured = true → evidence_keys_exist configured = (true, true)) →
  (∀ t, sys_ledger s = Some t → Forall (λ line, (length line < 4096)%nat) (split_nl t)) →
  verify_evidence (sys_ledger s) = (true, []) ∧ (readiness_payload configured (sys_ledger s)).2 = 200.
Proof using.
  intros s Hk Hback Hd Hp Hlines.
  destruct (run_invariant (λ _, True) calls start empty_view) as (v & Hv & _);
    [intros; apply serve_total|apply shows_start|done|]. fold s in Hv. pose proof (Hback v Hv) as Hf. destruct Hv as [_ Hw].
  assert (Forall (short w_dump) (vw_records v)) as Hshort.
  { pose proof (written_text _ _ _ _ _ _ _ _ Hw) as Et. destruct (vw_records v) as [|r0 rs0] eqn:Er; [done|].
    rewrite <-Er in *. specialize (Hlines _ Et). rewrite split_unlines in Hlines.
    - apply Forall_app in Hlines as [Hl _]. by apply Forall_fmap in Hl.
    - apply Forall_fmap. eapply Forall_impl; [exact Hf|]. by intros r [? _]. }
  assert (Evidence.verify w_canonical w_digest w_public_key w_parse (sys_ledger s) = []) as E.
  { apply (written_ledger_valid _ _ w_private_key w_key_id _ w_dump _ _ (vw_records v)); [done|done| |done].
    apply Forall_forall. intros r Hr. unfold reads_back in Hf. rewrite Forall_forall in Hshort, Hf. apply (Hf r Hr). by apply Hshort. }
  unfold verify_evidence, readiness_payload. rewrite E. split; [done|]. cbn. rewrite Hd.
  destruct (production configured); [|done]. by rewrite (Hp eq_refl).
Qed.

(** ** Idempotent retries *)

Lemma get_unchanged ns k fp f : (exec (GetIdempotent ns k fp) f).2 = f.
Proof using. done. Qed.

(** A saved response is found again, and nothing changes. *)
Lemma context_saved ns rq s v c : shows s v → saved_response ns rq v c → ¬ invalid_key (default "" (rq_idempotency_key rq)) = true →
  idempotency_context rq ns s =
    (Done (rq_idempotency_key rq, Some (fingerprint_of (rq_body rq) (rq_query rq)), Some c), s).
Proof using.
  intros [Hs _] (key & Ek & Hc) Hk. unfold idempotency_context. rewrite Ek in *. cbn in Hk.
  destruct (invalid_key key); [done|]. unfold lookup_idempotent, state_op, mbind, handler_bind.
  set (o := GetIdempotent ns key _). destruct (exec_refines o _ _ I Hs) as [E _].
  assert ((exec o (sys_state s)).2 = sys_state s) as E2 by done.
  destruct (exec o (sys_state s)) as [r f]. cbn [fst snd] in *. subst f r. cbn [store_exec o fst]. rewrite Hc.
  rewrite (proj2 (str_eqb_true _ _) eq_refl). cbn. by destruct s.
Qed.

(** After a save the response is there. *)
Lemma save_saves ns rq key response s v u s' :
  shows s v → rq_idempotency_key rq = Some key →
  save_idempotency ns (Some key) (Some (fingerprint_of (rq_body rq) (rq_query rq))) response s = (Done u, s') →
  ∃ v', shows s' v' ∧ saved_response ns rq v' response.
Proof using.
  intros [Hs Hl] Ek. unfold save_idempotency, state_op, mbind, handler_bind.
  set (o := SaveIdempotent ns key _ response). destruct (exec_refines o _ _ I Hs) as [E Hr].
  destruct (exec o (sys_state s)) as [r f]. cbn [fst snd] in *. subst r.
  assert (∀ st, (store_exec o (vw_store v)).2 = st → (∃ u', (store_exec o (vw_store v)).1 = Ok u') →
    responses st !! composite_key ns key = Some (fingerprint_of (rq_body rq) (rq_query rq), response)) as Hst.
  { intros st <- [u' Hu]. cbn [store_exec o] in *.
    destruct (responses (vw_store v) !! composite_key ns key) as [[fp' x]|]; [destruct (str_eqb fp' _)|]; cbn in *; try done;
      by rewrite lookup_insert_eq. }
  destruct (store_exec o (vw_store v)) as [[u'|e] st] eqn:Eo; cbn [fst snd] in *.
  - intros [= _ <-]. exists {| vw_store := st; vw_records := vw_records v |}. split; [by split|].
    exists key. split; [done|]. apply Hst; [done|by eexists].
  - unfold attempt. destruct (is_conflict e); discriminate.
Qed.

Lemma context_done rq ns s v x s' key :
  shows s v → rq_idempotency_key rq = Some key → idempotency_context rq ns s = (Done x, s') →
  shows s' v ∧ invalid_key key = false ∧
  match x.2 with
  | Some c => saved_response ns rq v c
  | None => x.1 = (Some key, Some (fingerprint_of (rq_body rq) (rq_query rq)))
  end.
Proof using.
  intros Hs Ek Ec. destruct (context_spec v rq ns s v Hs eq_refl) as (v1 & Hs1 & Hx). rewrite Ec in Hs1, Hx.
  destruct Hx as [-> Hx]. rewrite Ek in Hx. split_and!; [done| |by destruct x.2].
  unfold idempotency_context in Ec. rewrite Ek in Ec. by destruct (invalid_key key).
Qed.

(** Idempotent retries.  When an analysis endpoint answers a request with an
    idempotency key, the same request is answered with the same response without
    doing the work again: neither the files nor the clock are touched by the retry, and
    what is saved for the request reads as that response.  The response only has to be
    one that is read back from its dump. *)
Theorem idempotent_retry {A} `{Model A} ns rq key (work work' : handler A) s v a s' :
  shows s v → moves anything work → rq_idempotency_key rq = Some key → model_validate_json (model_dump_json a) = Ok a →
  endpoint ns rq work s = (Done a, s') →
  endpoint ns rq work' s' = (Done a, s') ∧
  ∃ v' c, shows s' v' ∧ saved_response ns rq v' c ∧ model_validate_json c = Ok a.
Proof using.
  intros Hs Hw Ek Hround E. unfold endpoint, mbind, handler_bind in E.
  destruct (idempotency_context rq ns s) as [[x|st d|e] s1] eqn:Ec; [|discriminate..].
  destruct (context_done _ _ _ _ _ _ _ Hs Ek Ec) as (Hs1 & Hk & Hx). destruct x as [[k fp] c]. cbn [fst snd] in Hx.
  assert (∀ s2 v2 c2, shows s2 v2 → saved_response ns rq v2 c2 → model_validate_json c2 = Ok a →
    endpoint ns rq work' s2 = (Done a, s2) ∧
    ∃ v' c, shows s2 v' ∧ saved_response ns rq v' c ∧ model_validate_json c = Ok a) as Hretry.
  { intros s2 v2 c2 Hs2 Hc2 Ev. split; [|by exists v2, c2]. unfold endpoint, mbind, handler_bind.
    rewrite (context_saved ns rq s2 v2 c2 Hs2 Hc2) by (rewrite Ek; cbn; by rewrite Hk). by rewrite Ev. }
  destruct c as [c|].
  - destruct (model_validate_json c) as [a'|e] eqn:Ev; [|discriminate]. injection E as -> <-. by apply (Hretry _ v c).
  - injection Hx as -> ->. destruct (Hw v s1 v Hs1 I) as (v2 & Hs2 & _).
    destruct (work s1) as [[a'|st d|e] s2]; [|discriminate..]. cbn [snd] in Hs2.
    destruct (save_idempotency ns (Some key) _ (model_dump_json a') s2) as [[u|st d|e] s3] eqn:Es; [|discriminate..].
    injection E as -> <-. destruct (save_saves _ _ _ _ _ _ _ _ Hs2 Ek Es) as (v3 & Hs3 & Hc).
    exact (Hretry _ v3 _ Hs3 Hc Hround).
Qed.

(** ** Acknowledgements *)

Definition alert_record (k : string) (v : sview) : json :=
  dict_get (default ∅ (values (vw_store v) !! "strategic_alerts")) k.

Definition acked (k : string) (v : sview) : Prop :=
  ∃ m, alert_record k v = JObj m ∧ m !! "acknowledged" = Some (JBool true).

Definition keeps_ack (k : string) (v v' : sview) : Prop := acked k v → acked k v'.

#[local] Instance keeps_ack_preorder k : PreOrder (keeps_ack k).
Proof using. split; [intros v Hv; exact Hv|intros a b c Hab Hbc Ha; exact (Hbc (Hab Ha))]. Qed.

Lemma ack_values k v v' : values (vw_store v') !! "strategic_alerts" = values (vw_store v) !! "strategic_alerts" → keeps_ack k v v'.
Proof using. intros E. unfold keeps_ack, acked, alert_record. by rewrite E. Qed.

Lemma ack_state k v o : quiet_op o → keeps_ack k v (after_op o v).
Proof using.
  intros Ho. apply ack_values. destruct o as [ns q fp|ns q fp r| |ns q|ns q x]; cbn in *; try done.
  - destruct (responses (vw_store v) !! composite_key ns q) as [[fp' x]|]; [|done]. by destruct (str_eqb fp' fp).
  - subst ns. by rewrite lookup_insert_ne.
Qed.

Lemma ack_append k v r : keeps_ack k v (after_append r v).
Proof using. by apply ack_values. Qed.

Lemma ack_claim k v t a n : keeps_ack k v (after_op (ClaimSequence t a n) v).
Proof using.
  apply ack_values. cbn. destruct (sequences (vw_store v) !! composite_key t a) as [p|]; [|done]. by destruct (n <=? p).
Qed.

(** The record of an alert is replaced. *)
Lemma alert_record_set k k' x v :
  alert_record k (after_op (SetValue "strategic_alerts" k' x) v) = if decide (k' = k) then x else alert_record k v.
Proof using.
  unfold alert_record. cbn. rewrite lookup_insert_eq. cbn [default from_option id]. unfold dict_get.
  destruct (decide (k' = k)) as [->|Hne]; [by rewrite lookup_insert_eq|by rewrite lookup_insert_ne].
Qed.

Lemma ack_set k k' m v : (k' = k → m !! "acknowledged" = Some (JBool true)) →
  keeps_ack k v (after_op (SetValue "strategic_alerts" k' (JObj m)) v).
Proof using.
  intros Hm Hv. unfold acked. rewrite alert_record_set. destruct (decide (k' = k)) as [E|]; [|done].
  exists m. split; [done|]. by apply Hm.
Qed.

Lemma get_spec Pre ns k (Q : json → sview → Prop) (F : sview → Prop) : ns = "strategic" ∨ ns = "strategic_alerts" →
  (∀ v, Pre v → Q (dict_get (default ∅ (values (vw_store v) !! ns)) k) v) → triple Pre (state_get ns k) Q F.
Proof using.
  intros Hns HQ. unfold state_get.
  eapply triple_bind with (Mid := λ r v, match r with Ok (OValue x) => Q x v | _ => False end).
  - apply triple_state_op; [by apply quiet_op_ok|]. intros v Hv. cbn. destruct v as [st rs]. by apply (HQ {| vw_store := st; vw_records := rs |}).
  - intros [[|b|r|j]|e]; [by intros s w _ []..|by apply triple_ret|by intros s w _ []].
Qed.

Lemma set_spec Pre ns k x (Q : unit → sview → Prop) (F : sview → Prop) : ns = "strategic" ∨ ns = "strategic_alerts" →
  (∀ v, Pre v → Q tt (after_op (SetValue ns k x) v)) → triple Pre (state_set ns k x) Q F.
Proof using.
  intros Hns HQ. unfold state_set. eapply triple_bind with (Mid := λ r v, r = Ok OUnit ∧ Q tt v).
  - apply triple_state_op; [|by intros v Hv; split; [|apply HQ]]. destruct Hns as [-> | ->]; intros [E|E]; discriminate E.
  - intros [u|e] s w Hs [D Hw]; [|discriminate D]. by exists w.
Qed.

Lemma keeps_acked {A} k (h : handler A) : moves (keeps_ack k) h → triple (acked k) h (λ _, acked k) (acked k).
Proof using.
  intros Hm s v Hs Hv. destruct (Hm v s v Hs ltac:(reflexivity)) as (v' & Hs' & Hr). exists v'. split; [done|].
  destruct (h s).1; by apply Hr.
Qed.

Lemma get_acked k k' : triple (acked k) (state_get "strategic_alerts" k')
  (λ x v, acked k v ∧ (k' = k → ∃ m, x = JObj m ∧ m !! "acknowledged" = Some (JBool true))) (acked k).
Proof using. apply get_spec; [by right|]. intros v Hv. split; [done|]. by intros ->. Qed.

(** An alert of the key comes out acknowledged. *)
Definition shown_acknowledged (k : string) (a : StrategicAlert) : Prop :=
  al_alert_key a = k → al_delivery_state a = "acknowledged".

Lemma deliver_acked k now c a :
  triple (acked k) (deliver_alert now c a) (λ a' v, acked k v ∧ shown_acknowledged k a') (acked k).
Proof using.
  unfold deliver_alert. eapply triple_bind; [apply get_acked|]. intros x. cbv zeta beta.
  set (flag := truthy_json (default (JBool false) (dict_or_empty x !! "acknowledged"))).
  set (P := λ v : sview, acked k v ∧ (al_alert_key a = k → flag = true)).
  assert (∀ v, acked k v ∧ (al_alert_key a = k → ∃ m, x = JObj m ∧ m !! "acknowledged" = Some (JBool true)) → P v) as HP.
  { intros v [Hv Hx]. split; [done|]. intros E. destruct (Hx E) as (m & -> & Hm). unfold flag. cbn [dict_or_empty]. by rewrite Hm. }
  eapply triple_mono; [|exact HP|by intros ? ? Hq; exact Hq|by intros v Hq; exact Hq].
  apply triple_lift_bind; [by intros v [? _]|]. intros cool _. apply triple_lift_bind; [by intros v [? _]|]. intros due _.
  eapply triple_bind with (Mid := λ _, P).
  - apply set_spec; [by right|]. intros v [Hv Hf]. split; [|done].
    eapply ack_set; [|done]. intros E. rewrite lookup_insert_eq. by rewrite Hf.
  - intros _. apply triple_ret. intros v [Hv Hf]. split; [done|]. intros E. cbn in *. by rewrite Hf.
Qed.

Lemma refresh_acked k a :
  triple (acked k) (refresh_alert a) (λ a' v, acked k v ∧ shown_acknowledged k a') (acked k).
Proof using.
  unfold refresh_alert. eapply triple_bind; [apply get_acked|]. intros x.
  assert (∀ v, acked k v ∧ (al_alert_key a = k → ∃ m, x = JObj m ∧ m !! "acknowledged" = Some (JBool true)) →
    match x with JObj m => truthy_json (dict_get m "acknowledged") | _ => false end = false → acked k v ∧ shown_acknowledged k a) as Hno.
  { intros v [Hv Hx] Hf. split; [done|]. intros E. destruct (Hx E) as (m & -> & Hm). cbn in Hf. unfold dict_get in Hf. by rewrite Hm in Hf. }
  destruct x; try (apply triple_ret; intros v Hv; by apply (Hno v)).
  destruct (truthy_json _) eqn:Et; apply triple_ret; intros v Hv; [|by apply (Hno v)]. split; [apply Hv|]. done.
Qed.

Lemma map_acked k (f : StrategicAlert → handler StrategicAlert) l :
  (∀ a, triple (acked k) (f a) (λ a' v, acked k v ∧ shown_acknowledged k a') (acked k)) →
  triple (acked k) (map_handler f l) (λ l' v, acked k v ∧ Forall (shown_acknowledged k) l') (acked k).
Proof using.
  intros Hf. induction l as [|a l IH]; cbn [map_handler]; [by apply triple_ret|].
  eapply triple_bind; [apply Hf|]. intros y s v Hs [Hv Hy].
  assert (triple (acked k) (ys ← map_handler f l; mret (y :: ys)) (λ l' v, acked k v ∧ Forall (shown_acknowledged k) l') (acked k)) as T.
  { eapply triple_bind; [exact IH|]. intros ys. apply triple_ret. intros w [Hw Hys]. split; [done|]. by constructor. }
  exact (T s v Hs Hv).
Qed.

#[local] Ltac ack_tac := first [exact (keeps_ack_preorder _)|intros; apply ack_state; assumption|intros; apply ack_append|intros; apply ack_claim].

Lemma keep_pre {A} k (a : list StrategicAlert) (h : handler A) (Q : A → sview → Prop) :
  triple (acked k) h (λ _, acked k) (acked k) → (∀ x v, acked k v → Forall (shown_acknowledged k) a → Q x v) →
  triple (λ v, acked k v ∧ Forall (shown_acknowledged k) a) h Q (acked k).
Proof using.
  intros Hh HQ s v Hs [Hv Ha]. destruct (Hh s v Hs Hv) as (v' & Hs' & Hr). exists v'. split; [done|].
  destruct (h s).1; [by apply HQ|done..].
Qed.

Lemma strategic_acked k rq r :
  triple (acked k) (strategic_analyze rq r) (λ rep v, acked k v ∧ Forall (shown_acknowledged k) (sp_alerts rep)) (acked k).
Proof using.
  unfold strategic_analyze. eapply triple_bind; [apply keeps_acked, moves_context; ack_tac|].
  intros [[key fp] [c|]].
  - apply triple_lift_bind; [done|]. intros rep _. eapply triple_bind; [apply map_acked, refresh_acked|]. intros alerts. cbv zeta.
    eapply triple_bind with (Mid := λ _ v, acked k v ∧ Forall (shown_acknowledged k) alerts).
    + apply keep_pre; [|by intros]. apply keeps_acked, moves_set_latest; ack_tac.
    + intros _. by apply triple_ret.
  - apply triple_fresh_bind. intros n. apply triple_attempt_bind; [done|]. intros rep _. apply triple_fresh_bind. intros m.
    eapply triple_bind; [apply map_acked, deliver_acked|]. intros alerts. cbv zeta.
    eapply triple_bind with (Mid := λ _ v, acked k v ∧ Forall (shown_acknowledged k) alerts).
    { apply keep_pre; [|by intros]. apply keeps_acked, moves_set_latest; ack_tac. }
    intros _. eapply triple_bind with (Mid := λ _ v, acked k v ∧ Forall (shown_acknowledged k) alerts).
    { apply keep_pre; [|by intros]. apply keeps_acked. apply moves_append; ack_tac. }
    intros _. eapply triple_bind with (Mid := λ _ v, acked k v ∧ Forall (shown_acknowledged k) alerts).
    { apply keep_pre; [|by intros]. apply keeps_acked, moves_save; ack_tac. }
    intros _. by apply triple_ret.
Qed.

(** Setting the flag: the record of the key has it afterwards; and another key, or
    the flag set again, leaves it. *)
Lemma acknowledgement_acked (C : Prop) k k' (flag : bool) stamp st ty :
  stamp ≠ "acknowledged" → (k' = k → flag = true) → (C → k' = k) →
  triple (λ v, C ∨ acked k v) (acknowledgement flag stamp st ty k') (λ _, acked k) (λ v, C ∨ acked k v).
Proof using.
  intros Hst Hf HC. unfold acknowledgement. destruct (_ || _); [by apply triple_http_error|].
  eapply triple_bind; [apply (get_spec _ _ _ (λ _ v, C ∨ acked k v)); [by right|done]|]. intros x.
  apply triple_fresh_bind. intros n. cbv zeta.
  assert (∀ {A} (h : handler A) Q, moves (keeps_ack k) h → (∀ a v, acked k v → Q a v) →
    triple (acked k) h Q (λ v, C ∨ acked k v)) as T.
  { intros A h Q Hm HQ. eapply triple_mono; [by apply keeps_acked|done|done|by right]. }
  eapply triple_bind with (Mid := λ _, acked k).
  { apply set_spec; [by right|]. intros v Hv. unfold acked. rewrite alert_record_set. destruct (decide (k' = k)) as [E|Hne].
    - eexists. split; [done|]. rewrite lookup_insert_ne, lookup_insert_eq by done. by rewrite Hf.
    - destruct Hv as [Hc|Hv]; [by apply HC in Hc|exact Hv]. }
  intros _. eapply triple_bind with (Mid := λ _, acked k).
  { apply T; [|done]. apply moves_get_latest; ack_tac. }
  intros latest. eapply triple_bind with (Mid := λ _, acked k).
  { apply T; [|done]. destruct latest; try apply moves_ret. apply moves_bind; [apply moves_lift|].
    intros l. apply moves_set_latest; ack_tac. all: typeclasses eauto. }
  intros _. eapply triple_bind with (Mid := λ _, acked k).
  { apply T; [|done]. apply moves_append; ack_tac. }
  intros _. by apply triple_ret.
Qed.

Lemma serve_acked k c : c ≠ CUnacknowledge k → triple (acked k) (serve configured c) (λ _, acked k) (acked k).
Proof using.
  intros Hc.
  assert (∀ flag stamp st ty k', stamp ≠ "acknowledged" → (k' = k → flag = true) →
    triple (acked k) (acknowledgement flag stamp st ty k') (λ _, acked k) (acked k)) as Hack.
  { intros flag stamp st ty k' Hst Hf. eapply triple_mono; [by apply (acknowledgement_acked False k)|by right|done|intros v [Hfalse|Hv]; [by destruct Hfalse|exact Hv]]. }
  destruct c as [rq p|rq e|rq c os t|rq r|rq g fs|rq r|rq|rq p|rq r|rq r|k'|k']; apply triple_forget.
  - apply keeps_acked, moves_observation; ack_tac.
  - apply keeps_acked, moves_cloudevent; ack_tac.
  - apply keeps_acked, moves_assess; ack_tac.
  - apply keeps_acked, moves_regression; ack_tac.
  - apply keeps_acked, moves_graph; ack_tac.
  - apply keeps_acked, moves_compile; ack_tac.
  - apply keeps_acked, moves_cap; ack_tac.
  - apply keeps_acked, moves_reserve; ack_tac.
  - apply keeps_acked, moves_packet; ack_tac.
  - eapply triple_mono; [apply (strategic_acked k)|done|by intros rep v [? _]|done].
  - unfold acknowledge_strategic_alert. by apply Hack.
  - unfold unacknowledge_strategic_alert. apply Hack; [done|]. intros ->. by destruct Hc.
Qed.

(** C10.  Acknowledged alerts stay acknowledged.  Once an alert is acknowledged,
    whatever calls are served afterwards, as long as none of them unacknowledges it,
    every strategic report the application answers with shows each of its alerts of
    that key as acknowledged. *)
Theorem acknowledgement_sticks s v k x s1 calls rq r rep s2 :
  shows s v → acknowledge_strategic_alert k s = (Done x, s1) → CUnacknowledge k ∉ calls →
  strategic_analyze rq r (run configured calls s1) = (Done rep, s2) →
  Forall (shown_acknowledged k) (sp_alerts rep).
Proof using.
  intros Hs E1 Hno E2.
  destruct (acknowledgement_acked (k = k) k k true "acknowledged_at" "acknowledged" "strategic_alert_acknowledgement"
    ltac:(done) ltac:(done) ltac:(done) s v Hs ltac:(by left)) as (v1 & Hs1 & H1').
  unfold acknowledge_strategic_alert in E1. rewrite E1 in Hs1, H1'. cbn [fst snd] in *.
  destruct (run_invariant (acked k) calls s1 v1) as (v2 & Hs2 & Hv2); [|done|done|].
  { intros c Hc. apply serve_acked. by intros ->. }
  destruct (strategic_acked k rq r _ v2 Hs2 Hv2) as (v3 & _ & Hr). by rewrite E2 in Hr; destruct Hr.
Qed.

End laws.

(** ** Concrete inputs *)

Section examples.

#[local] Existing Instances example_LibM example_Square.

(** The record of the first call that acknowledges [example_key]. *)
Definition example_key : string := "port_availability:operator-telemetry".

Definition example_clock (n : nat) : datetime := utc (3600 + Z.of_nat n).

Definition example_record : EvidenceRecord (P := payload) :=
  {| er_unsigned := {| un_record_id := "id-1"; un_created_at := isoformat (example_clock 1);
                       un_record_type := "strategic_alert_acknowledgement"; un_subject_id := example_key;
                       un_payload := PAlertKey example_key; un_previous_hash := zero_hash |};
     er_record_hash := "hash"; er_signature := None; er_signing_key_id := None |}.

Definition is_example (r : EvidenceRecord (P := payload)) : bool :=
  let u := er_unsigned r in
  str_eqb (un_record_id u) "id-1" && str_eqb (un_created_at u) (isoformat (example_clock 1))
  && str_eqb (un_record_type u) "strategic_alert_acknowledgement" && str_eqb (un_subject_id u) example_key
  && match un_payload u with PAlertKey k => str_eqb k example_key | _ => false end
  && str_eqb (un_previous_hash u) zero_hash && str_eqb (er_record_hash r) "hash"
  && match er_signature r with None => true | _ => false end && match er_signing_key_id r with None => true | _ => false end.

Lemma is_example_true r : is_example r = true → r = example_record.
Proof using.
  unfold is_example. destruct r as [[id at_ ty su p pr] h sg kid].
  cbn [er_unsigned er_record_hash er_signature er_signing_key_id un_record_id un_created_at un_record_type un_subject_id
    un_payload un_previous_hash].
  intros H. destruct p; bool_norm; try done. destruct sg, kid; try done.
  repeat match goal with H : str_eqb _ _ = true |- _ => apply str_eqb_true in H; subst end. done.
Qed.

Definition char_x : Ascii.ascii := Ascii.ascii_of_N 120.

(** A codec that knows one record: it is a short line, every other a long one. *)
#[local] Instance example_world : World payload := {|
  w_canonical := λ _, []; w_digest := λ _, "hash"; w_private_key := None; w_key_id := "key"; w_public_key := None;
  w_dump := λ r, if is_example r then [char_x] else replicate (64 * 64) char_x;
  w_parse := λ t, match t with [c] => inl example_record | _ => inr "invalid record" end;
  w_uuid := λ n, "id-" +:+ str_nat n; w_clock := example_clock; w_str := λ _, ""
|}.

#[local] Instance example_libraries : Libraries := {|
  l_hmac_sha256 := λ _ _, "mac"; l_sha256 := λ _, str_repeat 32 "a"; l_float := λ s, Raise (ValueError s);
  l_fromisoformat := λ _, Ok (utc 7200); l_repr := λ _, ""; l_str_value := λ _, ""; l_orjson_dumps := λ _, Ok "{}";
  l_event_body := λ _, Ok "{}"; l_fromstring := λ _, Interop.Root Interop.example_alert; l_set_order := λ l, l;
  l_dump_records := λ _, []; l_report_json := λ _, JNull
|}.

#[local] Instance example_model (A : Type) : Model A :=
  {| model_dump_json := λ _, "saved"; model_validate_json := λ _, Raise (ValueError "saved") |}.

Definition example_settings : settings :=
  {| operator_webhook_secret := Some "secret"; compiler_max_actions := 24; production := false;
     evidence_dir_exists := true; evidence_keys_exist := (false, false); analysis_fuel := 0 |}.

Definition example_request : request :=
  {| rq_body := "{}"; rq_query := ""; rq_idempotency_key := Some "k1"; rq_timestamp := "3500"; rq_signature := "sha256=mac" |}.

Definition is_done {A} (r : reply A * sys) : bool := match r.1 with Done _ => true | _ => false end.

Lemma is_done_inv {A} (r : reply A * sys) : is_done r = true → ∃ a s, r = (Done a, s).
Proof using. destruct r as [[a|st d|e] s]; [|discriminate..]. by exists a, s. Qed.

Lemma operator_accepted_witness :
  ∃ resp, (ingest_operator_observation example_settings example_request example_payload start).1 = Done resp ∧
    validate_observation_source (tr_observation resp) = Ok tt.
Proof using.
  destruct (is_done_inv (ingest_operator_observation example_settings example_request example_payload start))
    as (resp & s' & E); [vm_compute; reflexivity|].
  exists resp. split; [by rewrite E|].
  destruct (operator_accepted example_settings start empty_view example_request example_payload (Done resp) s'
    shows_start E) as (v' & _ & [(_ & c & (key & _ & Hc) & _)|(body & _ & _ & Ha & _)]); [discriminate Hc|].
  exact (ad_policy _ _ _ _ _ _ Ha).
Defined.

Lemma example_short r : short w_dump r → r = example_record.
Proof using.
  unfold short. change (w_dump r) with (if is_example r then [char_x] else replicate (64 * 64) char_x).
  destruct (is_example r) eqn:E; [by intros _; apply is_example_true|].
  rewrite length_replicate. intros H. exfalso. exact (Nat.lt_irrefl _ H).
Qed.

Lemma example_codec (r : EvidenceRecord (P := payload)) : nl ∉ w_dump r ∧ (short w_dump r → faithful w_dump w_parse r).
Proof using.
  split.
  - change (w_dump r) with (if is_example r then [char_x] else replicate (64 * 64) char_x).
    destruct (is_example r); [by intros H%list_elem_of_singleton|]. intros [H _]%elem_of_replicate. discriminate H.
  - intros ->%example_short. split; [vm_compute; reflexivity|]. split; vm_compute; reflexivity.
Qed.

Lemma service_stays_ready_witness :
  verify_evidence (sys_ledger (run example_settings [CAcknowledge example_key] start)) = (true, []).
Proof using.
  apply (service_stays_ready example_settings [CAcknowledge example_key]).
  - exact I.
  - intros v _. apply Forall_forall. intros r _. exact (example_codec r).
  - reflexivity.
  - discriminate.
  - assert (sys_ledger (run example_settings [CAcknowledge example_key] start) = Some [char_x; nl]) as ->
      by (vm_compute; reflexivity).
    intros t [= <-]. change (split_nl [char_x; nl]) with [[char_x]; []].
    do 2 (apply Forall_cons; split; [apply Nat.ltb_lt; reflexivity|]). apply Forall_nil. exact I.
Defined.

(** The model of one answer, which is read back. *)
Definition example_answer : VerifyReserveResponse :=
  {| vr_valid := true; vr_policy_minimum := 1; vr_commitment_hash_hex := ""; vr_message := "" |}.

#[local] Instance example_answer_model : Model VerifyReserveResponse :=
  {| model_dump_json := λ _, "saved"; model_validate_json := λ _, Ok example_answer |}.

Definition example_work : handler VerifyReserveResponse :=
  _ ← ledger_append "zkp_reserve_verification" "" (PReserve example_answer); mret example_answer.

Lemma idempotent_retry_witness :
  ∃ s', endpoint "verify-reserve" example_request example_work start = (Done example_answer, s') ∧
    endpoint "verify-reserve" example_request (uncaught OutOfFuel) s' = (Done example_answer, s').
Proof using.
  destruct (is_done_inv (endpoint "verify-reserve" example_request example_work start)) as (a & s' & E);
    [vm_compute; reflexivity|].
  assert ((endpoint "verify-reserve" example_request example_work start).1 = Done example_answer) as Ea
    by (vm_compute; reflexivity).
  rewrite E in Ea. injection Ea as ->. exists s'. split; [exact E|].
  edestruct (idempotent_retry "verify-reserve" example_request "k1" example_work (uncaught OutOfFuel) start empty_view)
    as [H _]; [..|exact H].
  - apply shows_start.
  - apply moves_bind; [apply moves_append; [split; done|done]|intros []; apply moves_ret].
  - reflexivity.
  - reflexivity.
  - exact E.
Defined.

(** A call that is refused, for its time stamp. *)
Definition example_late : call := COperatorObservation
  {| rq_body := "{}"; rq_query := ""; rq_idempotency_key := None; rq_timestamp := "0"; rq_signature := "sha256=mac" |} example_payload.

Definition after_acknowledgement : sys :=
  run example_settings [example_late] (acknowledge_strategic_alert example_key start).2.

Lemma acknowledgement_sticks_witness :
  ∃ rep s2, strategic_analyze example_request example_strategic after_acknowledgement = (Done rep, s2) ∧
    Forall (shown_acknowledged example_key) (sp_alerts rep).
Proof using.
  destruct (is_done_inv (acknowledge_strategic_alert example_key start)) as (x & s1 & E1); [vm_compute; reflexivity|].
  destruct (is_done_inv (strategic_analyze example_request example_strategic after_acknowledgement)) as (rep & s2 & E2);
    [vm_compute; reflexivity|].
  exists rep, s2. split; [exact E2|]. unfold after_acknowledgement in E2. rewrite E1 in E2. cbn [snd] in E2.
  apply (acknowledgement_sticks example_settings start empty_view example_key x s1
    [example_late] example_request example_strategic rep s2 shows_start E1); [|exact E2].
  intros H%list_elem_of_singleton. discriminate H.
Defined.

(** The alert of the example is shown, and acknowledged. *)
Example acknowledged_alert :
  match (strategic_analyze example_request example_strategic after_acknowledgement).1 with
  | Done rep => (λ a, (al_alert_key a, al_delivery_state a)) <$> sp_alerts rep = [(example_key, "acknowledged")]
  | _ => False
  end.
Proof using. vm_compute. reflexivity. Qed.

(** The answer of a refused reserve proof is saved: the retry of a request that got
    status 400 succeeds. *)
Example invalid_reserve_retry :
  let proof := {| zp_commitment_hash_hex := "00"; zp_policy_minimum := 0; zp_proof_hash_hex := "ff" |} in
  (verify_reserve_proof example_request proof start).1 = HTTPError 400 "ZKP Reserve Proof verification failed." ∧
  is_done (verify_reserve_proof example_request proof (verify_reserve_proof example_request proof start).2) = true.
Proof using. vm_compute. split; reflexivity. Qed.

(** A proof that is not hexadecimal is an exception nothing catches. *)
Example reserve_not_hex :
  (verify_reserve_proof example_request {| zp_commitment_hash_hex := "00"; zp_policy_minimum := 0; zp_proof_hash_hex := "x" |} start).1
  = Uncaught not_hex.
Proof using. vm_compute. reflexivity. Qed.

(** When the append fails after the claim, the number is spent: here the codec
    cannot read the last line, and the retry of the same signed request is refused as
    a replay. *)
Example burned_number :
  let broken := {| sys_state := NoFile; sys_ledger := Some [char_x; char_x]; sys_tick := 0 |} in
  let rq := {| rq_body := "{}"; rq_query := ""; rq_idempotency_key := None; rq_timestamp := "3500"; rq_signature := "sha256=mac" |} in
  let first := ingest_operator_observation example_settings rq example_payload broken in
  first.1 = Uncaught (ValidationError "invalid record") ∧
  (ingest_operator_observation example_settings rq example_payload first.2).1 = HTTPError 409 "telemetry replay rejected".
Proof using. vm_compute. split; reflexivity. Qed.

(** A saved response is returned before the signature is looked at. *)
Example cached_without_signature :
  let forged := {| rq_body := "{}"; rq_query := ""; rq_idempotency_key := Some "k1"; rq_timestamp := ""; rq_signature := "" |} in
  ∀ c s v, shows s v → saved_response "operator-observations" forged v c →
  ingest_operator_observation example_settings forged example_payload s
  = lift (model_validate_json (A := TelemetryResponse) c) s.
Proof using.
  intros forged c s v Hs Hc. unfold ingest_operator_observation, mbind, handler_bind.
  rewrite (context_saved "operator-observations" forged s v c Hs Hc); [reflexivity|discriminate].
Qed.

End examples.
